(* ===== verification/_CoqProject ===== *)
-Q . S2P
Prelude.v
GoStrings.v
GoPath.v
Paths.v
Floats.v
Sha256.v
Json.v
JsonDecode.v
Artifact.v
Dependency.v
GraphDepth.v
Lockfile.v
Upstream.v
GoTime.v
TimeParse.v
JsonParse.v
Base64.v
URL.v
PolicyConfig.v
Policy.v
Conditions.v
Catalog.v
Evaluator.v
PolicyHash.v
ConfigDecode.v
PolicyDocuments.v
Effects.v
Ports.v
AuditLog.v
Enrichment.v
Access.v
Valkey.v
Memory.v
PolicyAdmin.v
ProxyFlow.v
Delivery.v
Bundle.v
GraphQueue.v
GraphWorker.v
AdminTables.v
PgValues.v
DecisionStore.v
PolicyStore.v
UpstreamStore.v
Secrets.v
AdminStore.v
ControlPlane.v
Authz.v
Notifier.v
IngestWire.v
TenantStore.v
AuditStore.v
Ingest.v
BundleWire.v
FileSystem.v
OciCache.v
OciClient.v
CachedOci.v
NpmProxy.v
NpmClient.v
Install.v
PackageSources.v
ApiHttp.v
MediaType.v
ApiPolicies.v
ApiUpstreams.v
UpstreamSecrets.v
ApiReads.v
Health.v
ApiTenants.v
Middleware.v
Config.v
Serving.v
Startup.v
