(* ===== verification/Prelude.v ===== *)
(** * Dependency Firewall: a verification library

    The Dependency Firewall is a policy proxy in front of npm and OCI registries.
    A client asks the proxy for a package or image; the proxy normalises its
    identity, loads the tenant's policies, enriches the artifact with metadata,
    evaluates the policies, caches, records and audits the decision, and only then
    fetches the content from the upstream registry.  A control plane manages
    tenants, upstreams and policies over an HTTP API, hands bundles of them to
    remote proxies, takes in what these report, and runs the workers that resolve
    the npm dependency graphs policies can be targeted at.  This library models that
    program in Rocq, function by function, and proves what makes it correct.

    ** Parts and files (paths are below [src/internal/])

    - The Go platform: this file (errors with their [%w] chain, [sort.SliceStable],
      the [seen]-map loops), [GoStrings], [GoPath], [URL], [Base64], [GoTime],
      [TimeParse], [Floats] (float64), [Sha256], [Json], [JsonParse], [JsonDecode]
      (encoding/json both ways), [MediaType] (mime).
    - Domain, [core/domain]: [Artifact] (identities, normalisation, cache keys),
      [Dependency] (graph contexts, policy targets), [Upstream] (capabilities),
      [PolicyConfig] (the nine configurations and their validation), [Policy]
      (policies, requests, decisions).
    - Policy engine, [core/policy]: [Conditions] (one evaluator per policy type),
      [Catalog] (the compiled policy types, schema versions, validation),
      [Evaluator] (the evaluation loop), [PolicyHash] (the hash of a policy set),
      [ConfigDecode] and [PolicyDocuments] (from documents to policies).
    - Services, [core/service]: [Effects] (services as stateful programs with a
      call log, and their proof rules), [Ports] ([core/port]), [AuditLog],
      [Enrichment] (metadata cache and graph context), [Access] (the pipeline
      [AccessService.Evaluate]), [PolicyAdmin] (policy and upstream workflows),
      [Bundle] (the bundles a remote proxy evaluates, under concurrent refreshes),
      [Install] (reported installs), [Notifier] (wake-ups), [GraphWorker] (the graph
      resolver); the ingestion service is in [Ingest], the evaluation, tenant and
      cache services are with their stores.
    - Stores, [infra/postgres]: [AdminTables] (tables and constraints),
      [PolicyStore], [UpstreamStore], [AdminStore] (their reachable states),
      [PgValues], [DecisionStore], [AuditStore], [TenantStore], [GraphQueue] (job
      queue and context summaries).  [ControlPlane] runs the services of
      [PolicyAdmin] on the stores and the cache of [Valkey] ([infra/valkey]).
    - Other infrastructure, [infra]: [Secrets] (encryption at rest and in transit),
      [OciClient] and [NpmClient] ([infra/upstream]), [FileSystem], [OciCache],
      [CachedOci] (the content cache, with concurrency and crashes), [Lockfile] and
      [GraphDepth] ([npmgraph]), [PackageSources] (npm, OSV and Scorecard metadata).
    - Between processes: [Authz] (who may call), [IngestWire] and [Ingest],
      [BundleWire].
    - Delivery, [delivery]: [Paths] and [Middleware] (request paths, hosts and the
      resolution of tenants), [ProxyFlow] (what the registry handlers share),
      [Delivery] (OCI and npm routes), [NpmProxy] (npm metadata rewriting), [ApiHttp]
      (errors, validation and the monad of the control-plane handlers) with the
      endpoints in [ApiPolicies], [ApiUpstreams], [ApiReads] (decisions, audit events,
      graphs) and [ApiTenants] (tenants and caches), [UpstreamSecrets], which relates
      them to the stores, and [Health] (the health service and its endpoints).
    - Processes, [config], [bootstrap] and [cmd/firewall]: [Config] (which
      configurations are accepted), [Startup] (what each mode opens, wires and serves)
      and [Serving] (the servers of a process until it ends).
    - [Memory]: a concrete instance of the ports on which the theorems of the
      pipeline are instantiated and scenarios are run.

    ** How the model corresponds to the code

    Definitions keep the names of the code.  Where two Go methods share a name, the
    definition carries its receiver ([context_Normalize], [DecisionCache_Get]).
    Pure functions are functions; a fallible one returns [result].  A service
    method is a program of the monad of [Effects]: it threads the state [W] of
    everything behind the port interfaces and a log of the calls made with their
    arguments and results.  [Ports] is a class, so the theorems of the services
    hold for every implementation of repositories, caches, registries, clock and
    audit sink; [Memory] shows that there is one, and [ControlPlane] is the real
    one of the administration.  A repository method is one transaction on tables.
    An API handler is a program of [ApiHttp.Api], which answers or refuses.

    Concurrency.  Where goroutines share state, their lock-protected or atomic
    steps are the transitions of a relation, and the theorems are about its
    reachable states: [GraphWorker] (queue and workers), [Bundle] (cached bundles),
    [Notifier] (channels), [CachedOci] (requests over one directory, which may fail
    and die at any operation), [Install] (concurrent inspections), [Serving] (the
    servers and their shutdown).

    Strings are byte strings; [ToLower], [TrimSpace] and [%q] act on ASCII.
    Integers that the program only counts with are [Z]; hashes use 32-bit words
    with their wrap-around and float64 is IEEE-754 binary64.  Go maps are [gmap];
    where the program iterates one, the order is an argument and the result is
    shown not to depend on it, or the loop is one over sorted keys.  One evaluation
    reads the clock once.  Cached values are kept decoded.  Tracing spans, metrics
    and log lines have no effect and are left out.  A nil dereference is an error
    value.

    Parameters with laws.  Code that is not part of the repository is an argument:
    the cryptographic primitives ([Secrets.Crypto]), the CVSS library, the rules of
    the request validator ([ApiHttp.Validator]), the YAML library, the HTTP
    transport, generated identifiers and the database's texts.  What is relied on is
    a law class with a concrete instance in the witnesses.

    Bounds.  Every recursion is structural or carries fuel with a proof that it is
    enough: [GraphDepth.walk_depths] (nodes plus one, by a measure),
    [Lockfile.resolve_from] (the length of the path plus two, each step shortens
    it), [JsonParse.Parse] and [MediaType.params_ok] (the length of the text).  The
    decimal printer of [Json] tries up to 17 significant digits, which binary64
    needs at most.

    ** What the theorems show

    - An allow is never unfounded: [Access.Evaluate_allow_sound],
      [Access.Evaluate_decides], audit failures stop a fail-closed proxy
      ([Access.Evaluate_fail_closed]), and over the handlers
      [NpmProxy.npm_route_guarded] and [Delivery.oci_route_guarded]: content is
      fetched and served only after a decision on the very request.
    - Tenants are separated in the pipeline ([Access.Evaluate_tenant_isolation]), in
      what proxies report ([Ingest.ingest_stays_in_tenants],
      [Authz.interceptor_authorizes]), in the API ([ApiPolicies.policy_api_contract],
      [ApiReads.tenants_read_their_own_records]) and where requests come in
      ([Middleware.requests_reach_their_tenant]).
    - The engine computes what its policies say, one by one
      ([Evaluator.Evaluate_reasons_exact], [Evaluator.Evaluate_deny_wins]) and cannot
      fail on validated policies ([Evaluator.Evaluate_validated_no_error]); what is
      accepted as valid is [Catalog.ValidatePolicies_spec].
    - The stores keep their invariants and refine simple models
      ([AdminStore.store_invariant], [AdminStore.RollbackToVersion_spec],
      [AdminStore.writes_read_back], [DecisionStore.decision_store_keeps_the_log],
      [AuditStore.audit_store_keeps_the_log], [TenantStore.tenant_inventory] and
      over HTTP [ApiTenants.tenant_resource], [ConfigDecode.stored_config_roundtrip]), and administration keeps cache,
      revisions and store together ([ControlPlane.policy_changes_take_effect],
      [ControlPlane.successful_changes_are_recorded]).
    - Credentials go to their proxy and registry and nowhere else
      ([Secrets.secret_reaches_proxy], [OciClient.credentials_stay_with_their_upstream],
      [UpstreamSecrets.answers_hide_secrets], [BundleWire.remote_bundle_delivery]).
    - A remote proxy does what a local one does ([Ingest.remote_refines_local],
      [Bundle.served_bundles_are_answers]).
    - Dependency graphs: parsing is exact ([Lockfile.ParsePackageLock_graph]), the
      roots of an install do not depend on the order of its inspections
      ([Install.snapshot_roots_exact]), jobs are never shared, end settled and follow
      their life cycle ([GraphWorker.workers_never_share_a_job],
      [GraphWorker.resolveJob_settles], [GraphWorker.queue_refines_life]) and no
      wake-up is lost ([Notifier.wake_ups_are_not_lost]).
    - Caches serve what they were given ([CachedOci.cache_serves_whole_answers],
      [OciCache.enforceLimits_bounds]); rewritten links lead back
            [NpmProxy.rewritten_tarballs_route_back]).
    - Processes start from a safe configuration, as their mode says, and end in
      order ([Config.accepted_config_is_safe], [Startup.processes_start_safely],
      [Serving.serve_ends_in_order]); a control plane shows the state of its proxy
      ([Health.control_plane_sees_the_proxy]).
    - Theorems about defects state the behaviour of the code as it is
      ([PolicyDocuments.imported_documents_lose_targets],
      [NpmClient.query_in_version_reaches_the_version], [Serving.worker_is_abandoned],
      [Startup.failed_migration_leaks]).

    ** Not modelled

    The transports: gRPC and its JSON codec (messages arrive as they were sent), the
    routing of HTTP requests to API handlers and the check of a body against its
    schema, TLS and connection set-up, reading bodies and gzip.  YAML text.  Limits
    of encoding/json on nesting, IPv6 literals in URLs.  The PostgreSQL driver: a
    statement reaches the database, identifiers are well-formed UUIDs, and JSONB has
    one type of numbers; what the deletion of a tenant cascades to is the
    database's.  Reading configuration through viper, build
    metadata, telemetry exporters and span attributes, log lines, the recovery from
    panics and generated request identifiers, which move data in and out of the parts
    above and keep no state of their own. *)

From stdpp Require Export base list gmap sets strings sorting.
From Stdlib Require Export ZArith Lia Ascii.
From Stdlib Require Import String.

(** ** Errors and fallible results

    A Go [error] is its message together with the sentinel errors found by
    [errors.Is] when it unwraps the [%w] chain.  [fmt.Errorf] with [%v] keeps
    the message only; with [%w] it keeps the chain as well. *)

Inductive sentinel : Set :=
| ErrTenantNotFound
| ErrTenantNameConflict
| ErrPolicyNotFound
| ErrPolicyNameConflict
| ErrPolicyVersionNotFound
| ErrPolicyDeleteEnabled
| ErrPolicyInUse
| ErrDeprecatedPolicyConfig
| ErrUnsupportedPolicySchemaVersion
| ErrInvalidPolicy
| ErrPolicyViolation
| ErrPolicyUpstreamIncompatible
| ErrUpstreamNotFound
| ErrUpstreamNameConflict
| ErrUpstreamRegistryConflict
| ErrUpstreamInUse
| ErrUnsupportedUpstreamCapability
| ErrUpstreamPolicyConflict
| ErrUpstreamAuthInvalid
| ErrUpstreamAuthKeyUnavailable
| ErrUpstreamAuthTransportInsecure
| ErrUpstreamUnavailable
| ErrEnrichmentFailed
| ErrAuditUnavailable
| ErrBundleUnavailable
| ErrArtifactNotFound
| ErrInvalidArtifactRef
| ErrCacheMiss
| ErrUnauthorized
| ContextCanceled
| ContextDeadlineExceeded
| ErrNotExist.

#[export] Instance sentinel_eq_dec : EqDecision sentinel.
Proof. solve_decision. Defined.

(** [domain/errors.go]: the text each sentinel is created with. *)
Definition sentinel_text (s : sentinel) : string :=
  match s with
  | ErrTenantNotFound => "tenant not found"
  | ErrTenantNameConflict => "tenant name already exists"
  | ErrPolicyNotFound => "policy not found"
  | ErrPolicyNameConflict => "policy name already exists"
  | ErrPolicyVersionNotFound => "policy version not found"
  | ErrPolicyDeleteEnabled => "enabled policy cannot be deleted"
  | ErrPolicyInUse => "policy is in use"
  | ErrDeprecatedPolicyConfig => "deprecated stored policy config"
  | ErrUnsupportedPolicySchemaVersion => "unsupported policy schema version"
  | ErrInvalidPolicy => "invalid policy"
  | ErrPolicyViolation => "policy violation"
  | ErrPolicyUpstreamIncompatible => "policy is not supported by upstream"
  | ErrUpstreamNotFound => "upstream not found"
  | ErrUpstreamNameConflict => "upstream name already exists"
  | ErrUpstreamRegistryConflict => "upstream registry already exists"
  | ErrUpstreamInUse => "upstream is in use"
  | ErrUnsupportedUpstreamCapability => "unsupported upstream capability"
  | ErrUpstreamPolicyConflict => "upstream update conflicts with scoped policies"
  | ErrUpstreamAuthInvalid => "invalid upstream auth"
  | ErrUpstreamAuthKeyUnavailable => "upstream auth encryption key unavailable"
  | ErrUpstreamAuthTransportInsecure => "upstream auth requires secure bundle transport"
  | ErrUpstreamUnavailable => "upstream unavailable"
  | ErrEnrichmentFailed => "enrichment failed"
  | ErrAuditUnavailable => "audit logging unavailable"
  | ErrBundleUnavailable => "bundle unavailable"
  | ErrArtifactNotFound => "artifact not found"
  | ErrInvalidArtifactRef => "invalid artifact reference"
  | ErrCacheMiss => "cache miss"
  | ErrUnauthorized => "unauthorized"
  | ContextCanceled => "context canceled"
  | ContextDeadlineExceeded => "context deadline exceeded"
  | ErrNotExist => "file does not exist"
  end.

Record error : Type := mk_error { error_msg : string; error_chain : list sentinel }.

#[export] Instance error_eq_dec : EqDecision error.
Proof. solve_decision. Defined.

Definition sentinel_error (s : sentinel) : error := mk_error (sentinel_text s) [s].
(** [fmt.Errorf] without [%w]. *)
Definition new_error (msg : string) : error := mk_error msg [].
(** [fmt.Errorf("%w" ++ suffix, s)]. *)
Definition sentinel_suffix (s : sentinel) (suffix : string) : error :=
  mk_error (sentinel_text s +:+ suffix) [s].
(** [fmt.Errorf(prefix ++ "%w", e)]. *)
Definition wrap_error (prefix : string) (e : error) : error :=
  mk_error (prefix +:+ error_msg e) (error_chain e).
Definition errors_Is (e : error) (s : sentinel) : bool := bool_decide (s ∈ error_chain e).

(** The run-time panic of a nil dereference, as a value: definitions return it
    where the Go code would dereference a nil pointer. *)
Definition nil_deref : error := new_error "runtime error: invalid memory address or nil pointer dereference".

Inductive result (A : Type) : Type :=
| Ok (a : A)
| Err (e : error).
Arguments Ok {A} a.
Arguments Err {A} e.

Definition is_ok {A} (r : result A) : bool := match r with Ok _ => true | Err _ => false end.

#[export] Instance result_ret : MRet result := λ A a, Ok a.
#[export] Instance result_bind : MBind result := λ A B f r,
  match r with Ok a => f a | Err e => Err e end.
#[export] Instance result_fmap : FMap result := λ A B f r,
  match r with Ok a => Ok (f a) | Err e => Err e end.

(** [if err := r; err != nil { return Errorf(prefix: %w) }]. *)
Definition wrap_result {A} (prefix : string) (r : result A) : result A :=
  match r with Ok a => Ok a | Err e => Err (wrap_error prefix e) end.

(** ** Lists *)

(** Go's [for _, x := range l { if err := f(x); err != nil { return err } }]
    that collects the updated elements. *)
Fixpoint map_result {A B} (f : A → result B) (l : list A) : result (list B) :=
  match l with
  | [] => Ok []
  | x :: l => y ← f x; ys ← map_result f l; Ok (y :: ys)
  end.

(** First occurrence of every element, skipping those [skip] holds of: the
    [seen]-map loops of the code. *)
Fixpoint dedup_from {A K} `{EqDecision K} (key : A → K) (seen : list K) (l : list A) : list A :=
  match l with
  | [] => []
  | x :: l =>
      if decide (key x ∈ seen) then dedup_from key seen l
      else x :: dedup_from key (key x :: seen) l
  end.

(** Stable insertion sort by a Go [less] function: the result
    [sort.SliceStable] specifies. *)
Fixpoint insert_by {A} (less : A → A → bool) (x : A) (l : list A) : list A :=
  match l with
  | [] => [x]
  | y :: l' => if less y x then y :: insert_by less x l' else x :: l
  end.

Definition sort_by {A} (less : A → A → bool) (l : list A) : list A :=
  foldr (insert_by less) [] l.

(** What [sort] requires of a [less] function: a strict weak order. *)
Class StrictWeak {A} (less : A → A → bool) : Prop := {
  sw_irrefl x : less x x = false;
  sw_trans x y z : less x y = true → less y z = true → less x z = true;
  sw_negtrans x y z : less x z = true → less x y = true ∨ less y z = true;
}.

(** A strict weak order whose ties are equalities. *)
Class StrictTotal {A} (less : A → A → bool) : Prop := {
  st_weak :: StrictWeak less;
  st_total x y : less x y = false → less y x = false → x = y;
}.

(** [sorted less l]: no later element is less than an earlier one. *)
Definition sorted {A} (less : A → A → bool) : list A → Prop :=
  StronglySorted (λ x y, less y x = false).

(** The comparison "by key [k], then by [rest]" that every multi-key [less] of
    the code spells as [if k(a) != k(b) { return k(a) < k(b) }; return rest]. *)
Definition lex_less {A K} `{EqDecision K} (k : A → K) (lt : K → K → bool)
    (rest : A → A → bool) (a b : A) : bool :=
  if decide (k a = k b) then rest a b else lt (k a) (k b).

(** ** Lemmas *)

Lemma errors_Is_spec e s : errors_Is e s = true ↔ s ∈ error_chain e.
Proof. apply bool_decide_eq_true. Qed.

Lemma errors_Is_wrap prefix e s : errors_Is (wrap_error prefix e) s = errors_Is e s.
Proof. done. Qed.

Lemma result_bind_ok {A B} (r : result A) (f : A → result B) b :
  r ≫= f = Ok b ↔ ∃ a, r = Ok a ∧ f a = Ok b.
Proof. destruct r; naive_solver. Qed.

Lemma is_ok_spec {A} (r : result A) : is_ok r = true ↔ ∃ a, r = Ok a.
Proof. destruct r; naive_solver. Qed.

Lemma wrap_result_ok {A} p (r : result A) a : wrap_result p r = Ok a ↔ r = Ok a.
Proof. destruct r; naive_solver. Qed.

Lemma map_result_Forall2 {A B} (f : A → result B) l l' :
  map_result f l = Ok l' ↔ Forall2 (λ x y, f x = Ok y) l l'.
Proof.
  revert l'. induction l as [|x l IH]; intros l'; simpl.
  - split; [intros [= <-]; constructor | by inversion 1].
  - rewrite result_bind_ok. setoid_rewrite result_bind_ok. split.
    + intros (y & Hy & ys & Hys & [= <-]). constructor; [done|]. by apply IH.
    + inversion 1; subst. eexists; split; [done|]. eexists; split; [by apply IH|done].
Qed.

Lemma dedup_from_elem {A K} `{EqDecision K} (key : A → K) seen l x :
  x ∈ dedup_from key seen l → x ∈ l ∧ key x ∉ seen.
Proof.
  revert seen. induction l as [|y l IH]; intros seen; simpl; [set_solver|].
  case_decide; [set_solver|]. rewrite !elem_of_cons.
  intros [->|Hx]; [by auto|]. apply IH in Hx. set_solver.
Qed.

Lemma dedup_from_NoDup {A K} `{EqDecision K} (key : A → K) seen l :
  NoDup (key <$> dedup_from key seen l).
Proof.
  revert seen. induction l as [|y l IH]; intros seen; csimpl; [constructor|].
  case_decide; [done|]. csimpl. apply NoDup_cons. split; [|apply IH].
  rewrite list_elem_of_fmap. intros (z & Hz & Hin). apply dedup_from_elem in Hin.
  rewrite Hz in Hin. set_solver.
Qed.

Lemma dedup_from_complete {A K} `{EqDecision K} (key : A → K) seen l x :
  x ∈ l → key x ∉ seen → key x ∈ (key <$> dedup_from key seen l).
Proof.
  revert seen. induction l as [|y l IH]; intros seen; csimpl; [set_solver|].
  rewrite elem_of_cons. intros [->|Hx] Hs.
  - rewrite decide_False by done. csimpl. set_solver.
  - case_decide; [by apply IH|]. csimpl. destruct (decide (key x = key y)) as [E|E].
    + rewrite E. set_solver.
    + apply list_elem_of_further. apply IH; set_solver.
Qed.

Lemma dedup_id_NoDup {A} `{EqDecision A} (seen l : list A) : NoDup (dedup_from id seen l).
Proof. pose proof (dedup_from_NoDup id seen l) as H. by rewrite list_fmap_id in H. Qed.

Lemma dedup_id_elem {A} `{EqDecision A} (l : list A) x : x ∈ dedup_from id [] l ↔ x ∈ l.
Proof.
  split; [by intros []%dedup_from_elem|]. intros Hx.
  pose proof (dedup_from_complete id [] l x Hx) as H. rewrite list_fmap_id in H. set_solver.
Qed.

Lemma filter_Forall_id {A} (P : A → Prop) `{∀ x, Decision (P x)} l :
  Forall P l → filter P l = l.
Proof.
  induction 1 as [|x l Hx _ IH]; [done|]. by rewrite filter_cons_True, IH.
Qed.

Lemma NoDup_snoc_2 {A} (l : list A) x : NoDup l → x ∉ l → NoDup (l ++ [x]).
Proof. intros. rewrite <-Permutation_cons_append. by apply NoDup_cons. Qed.

Lemma NoDup_fmap_filter {A B} (f : A → B) P `{∀ x, Decision (P x)} l :
  NoDup (f <$> l) → NoDup (f <$> filter P l).
Proof.
  induction l as [|x l IH]; [done|]. rewrite fmap_cons, NoDup_cons, filter_cons. intros [Hx Hl].
  case_decide; [|by apply IH]. rewrite fmap_cons, NoDup_cons. split; [|by apply IH].
  intros (y & Hy & [_ Hin]%list_elem_of_filter)%list_elem_of_fmap. apply Hx, list_elem_of_fmap. by exists y.
Qed.

(** If [g] separates the elements of a list and [f] separates what [g] does, so
    does [f]. *)
Lemma NoDup_fmap_fmap {A B C} (g : A → B) (f : A → C) l :
  (∀ x y, x ∈ l → y ∈ l → f x = f y → g x = g y) → NoDup (g <$> l) → NoDup (f <$> l).
Proof.
  induction l as [|x l IH]; [intros; constructor|]. rewrite !fmap_cons, !NoDup_cons. intros Hfg [Hx Hl]. split.
  - intros (y & E & Hy)%list_elem_of_fmap. apply Hx, list_elem_of_fmap. exists y. split; [|done].
    apply Hfg; [by left|by right|done].
  - apply IH; [|done]. intros a b Ha Hb. apply Hfg; by right.
Qed.

Lemma Forall_filter_2 {A} (Q P : A → Prop) `{∀ x, Decision (P x)} l : Forall Q l → Forall Q (filter P l).
Proof. rewrite !Forall_forall. intros HQ x [_ Hx]%list_elem_of_filter. by apply HQ. Qed.

Lemma dedup_from_fixed {A K} `{EqDecision K} (key : A → K) seen l :
  NoDup (key <$> l) → (∀ x, x ∈ l → key x ∉ seen) → dedup_from key seen l = l.
Proof.
  revert seen. induction l as [|y l IH]; intros seen Hnd Hs; csimpl in *; [done|].
  apply NoDup_cons in Hnd as [Hy Hnd].
  rewrite decide_False by set_solver. f_equal. apply IH; [done|].
  intros x Hx. apply not_elem_of_cons. split; [|set_solver].
  intros E. apply Hy. rewrite <-E. by apply list_elem_of_fmap_2.
Qed.

Section sorting.
Context {A : Type} (less : A → A → bool).

Lemma insert_by_perm x l : insert_by less x l ≡ₚ x :: l.
Proof. induction l as [|y l IH]; simpl; [done|]. case_match; [|done]. rewrite IH. apply perm_swap. Qed.

Lemma sort_by_perm l : sort_by less l ≡ₚ l.
Proof. induction l as [|x l IH]; simpl; [done|]. by rewrite insert_by_perm, IH. Qed.

Lemma sort_by_elem l x : x ∈ sort_by less l ↔ x ∈ l.
Proof. by rewrite sort_by_perm. Qed.

(** An order that a function keeps sorts alike before and after it. *)
Lemma sort_by_fmap {B} (less' : B → B → bool) (f : A → B) l :
  (∀ a b, less' (f a) (f b) = less a b) → sort_by less' (f <$> l) = f <$> sort_by less l.
Proof.
  intros H. assert (∀ x l, insert_by less' (f x) (f <$> l) = f <$> insert_by less x l) as Hi.
  { intros x k. induction k as [|y k IH]; [done|]. csimpl. rewrite H. destruct (less _ _); csimpl; [by rewrite IH|done]. }
  induction l as [|x l IH]; [done|]. csimpl. by rewrite IH, Hi.
Qed.

(** Stability: elements no two of which are in strict order keep their
    relative order. *)
Lemma insert_by_filter (P : A → Prop) `{∀ x, Decision (P x)} x l :
  (∀ a b, P a → P b → less a b = false) →
  filter P (insert_by less x l) = filter P (x :: l).
Proof.
  intros HP. induction l as [|y l IH]; [done|]. cbn [insert_by].
  destruct (less y x) eqn:E; [|done].
  rewrite filter_cons, IH, !filter_cons.
  destruct (decide (P y)), (decide (P x)); try done. by rewrite HP in E.
Qed.

Lemma sort_by_stable (P : A → Prop) `{∀ x, Decision (P x)} l :
  (∀ a b, P a → P b → less a b = false) →
  filter P (sort_by less l) = filter P l.
Proof.
  intros HP. induction l as [|x l IH]; [done|]. simpl sort_by.
  rewrite insert_by_filter by done. rewrite !filter_cons, IH. done.
Qed.

Context `{!StrictWeak less}.

Lemma less_asym x y : less x y = true → less y x = false.
Proof.
  intros H. destruct (less y x) eqn:E; [|done].
  pose proof (sw_trans x y x H E) as Hc. by rewrite sw_irrefl in Hc.
Qed.

Lemma notless_trans x y z : less y x = false → less z y = false → less z x = false.
Proof.
  intros H1 H2. destruct (less z x) eqn:E; [|done].
  destruct (sw_negtrans z y x E); congruence.
Qed.

Lemma insert_by_sorted x l : sorted less l → sorted less (insert_by less x l).
Proof.
  unfold sorted. induction l as [|y l IH]; intros Hs; simpl.
  - repeat constructor.
  - apply StronglySorted_inv in Hs as [Hs Hy]. destruct (less y x) eqn:E.
    + constructor; [by apply IH|]. rewrite insert_by_perm. constructor; [by apply less_asym|done].
    + constructor; [by constructor|]. constructor; [done|].
      eapply Forall_impl; [exact Hy|]. intros z Hz. by apply notless_trans with y.
Qed.

Lemma sort_by_sorted l : sorted less (sort_by less l).
Proof. induction l as [|x l IH]; simpl; [constructor|]. by apply insert_by_sorted. Qed.

Lemma insert_by_front x l : Forall (λ y, less y x = false) l → insert_by less x l = x :: l.
Proof. destruct 1 as [|y l Hy _]; simpl; [done|]. by rewrite Hy. Qed.

Lemma sort_by_id l : sorted less l → sort_by less l = l.
Proof.
  induction l as [|x l IH]; simpl; [done|]. intros [Hs Hx]%StronglySorted_inv.
  rewrite IH by done. by apply insert_by_front.
Qed.

(** Sorting commutes with selecting. *)
Lemma insert_by_filter_true (P : A → Prop) `{∀ x, Decision (P x)} x l :
  sorted less l → P x → filter P (insert_by less x l) = insert_by less x (filter P l).
Proof.
  unfold sorted. intros Hs Hx. induction l as [|y l IH]; cbn [insert_by]; [by rewrite filter_cons_True|].
  apply StronglySorted_inv in Hs as [Hs Hy]. destruct (less y x) eqn:E.
  - rewrite !filter_cons, IH by done. case_decide; [|done]. simpl. by rewrite E.
  - rewrite filter_cons_True by done. symmetry. apply insert_by_front. apply Forall_filter_2.
    constructor; [done|]. eapply Forall_impl; [exact Hy|]. intros z Hz. by apply notless_trans with y.
Qed.

Lemma insert_by_filter_false (P : A → Prop) `{∀ x, Decision (P x)} x l :
  ¬ P x → filter P (insert_by less x l) = filter P l.
Proof.
  intros Hx. induction l as [|y l IH]; cbn [insert_by]; [by rewrite filter_cons_False|].
  case_match; [by rewrite !filter_cons, IH|by rewrite filter_cons_False].
Qed.

Lemma sort_by_filter (P : A → Prop) `{∀ x, Decision (P x)} l :
  sort_by less (filter P l) = filter P (sort_by less l).
Proof.
  induction l as [|x l IH]; [done|]. rewrite filter_cons. simpl sort_by. case_decide.
  - simpl. rewrite IH. symmetry. apply insert_by_filter_true; [apply sort_by_sorted|done].
  - by rewrite insert_by_filter_false.
Qed.

(** Without ties, a sorted permutation is unique: any algorithm meeting the
    contract of [sort.Slice] computes [sort_by]. *)
Lemma sorted_unique l1 l2 :
  (∀ x y, x ∈ l1 → y ∈ l1 → less x y = false → less y x = false → x = y) →
  sorted less l1 → sorted less l2 → l1 ≡ₚ l2 → l1 = l2.
Proof.
  revert l2. induction l1 as [|x l1 IH]; intros l2 Htot Hs1 Hs2 Hp.
  - by apply Permutation_nil_l in Hp.
  - destruct l2 as [|y l2]; [by apply Permutation_nil_r in Hp|].
    apply StronglySorted_inv in Hs1 as [Hs1 Hx], Hs2 as [Hs2 Hy].
    assert (x = y) as <-.
    { assert (x ∈ y :: l2) as Hxin by (rewrite <-Hp; left).
      assert (y ∈ x :: l1) as Hyin by (rewrite Hp; left).
      rewrite elem_of_cons in Hxin, Hyin.
      destruct Hxin as [|Hxin]; [done|]. destruct Hyin as [|Hyin]; [done|].
      rewrite Forall_forall in Hx, Hy.
      apply Htot; [left | by right | by apply Hy | by apply Hx]. }
    f_equal. apply IH; [|done|done|by apply Permutation_cons_inv in Hp].
    intros a b Ha Hb. apply Htot; by right.
Qed.

Lemma sort_by_perm_inv l1 l2 :
  (∀ x y, x ∈ l1 → y ∈ l1 → less x y = false → less y x = false → x = y) →
  l1 ≡ₚ l2 → sort_by less l1 = sort_by less l2.
Proof.
  intros Ht Hp. apply sorted_unique; try apply sort_by_sorted.
  - intros x y. rewrite !sort_by_elem. apply Ht.
  - by rewrite !sort_by_perm.
Qed.
End sorting.

Lemma sort_by_total_perm {A} (less : A → A → bool) `{!StrictTotal less} l1 l2 :
  l1 ≡ₚ l2 → sort_by less l1 = sort_by less l2.
Proof. apply sort_by_perm_inv; [apply _|]. intros x y _ _. apply st_total. Qed.

(** Folding over a permutation, for steps that commute up to [R] on the
    elements that occur. *)
Lemma foldl_perm {A B} (R : relation B) `{!Equivalence R} (P : A → Prop) (f : B → A → B) l1 l2 s1 s2 :
  (∀ s s' a, P a → R s s' → R (f s a) (f s' a)) →
  (∀ s a b, P a → P b → R (f (f s a) b) (f (f s b) a)) →
  Forall P l1 → l1 ≡ₚ l2 → R s1 s2 → R (foldl f s1 l1) (foldl f s2 l2).
Proof.
  intros Hf Hc HP Hp. revert s1 s2 HP. induction Hp as [|a l1 l2 _ IH|a b l|l1 l2 l3 H1 IH1 _ IH2]; intros s1 s2 HP Hs.
  - done.
  - apply Forall_cons in HP as [? HP]. simpl. apply IH; auto.
  - rewrite !Forall_cons in HP. destruct HP as (Hb & Ha & HP). simpl.
    assert (R (f (f s1 b) a) (f (f s2 a) b)) as Hab by (etrans; [by apply Hc|auto]).
    clear -Hab HP Hf. generalize dependent (f (f s1 b) a). generalize dependent (f (f s2 a) b).
    induction HP as [|x l Hx _ IH]; simpl; auto.
  - etrans; [by apply IH1|]. apply IH2; [|done]. by rewrite <-H1.
Qed.

#[export] Instance lex_less_weak {A K} `{EqDecision K} (k : A → K) lt rest :
  StrictTotal lt → StrictWeak rest → StrictWeak (lex_less k lt rest).
Proof.
  intros Hk Hr. unfold lex_less. split.
  - intros x. rewrite decide_True by done. apply sw_irrefl.
  - intros x y z Hxy Hyz.
    destruct (decide (k x = k y)) as [E1|E1], (decide (k y = k z)) as [E2|E2].
    + rewrite decide_True by congruence. by apply sw_trans with y.
    + rewrite decide_False by congruence. congruence.
    + rewrite decide_False by congruence. congruence.
    + rewrite decide_False; [by apply sw_trans with (k y)|].
      intros E. rewrite E in Hxy. apply less_asym in Hxy; [congruence|apply _].
  - intros x y z Hxz.
    destruct (decide (k x = k y)) as [E1|E1], (decide (k y = k z)) as [E2|E2].
    + rewrite decide_True in Hxz by congruence. by apply sw_negtrans.
    + rewrite decide_False in Hxz by congruence. right. congruence.
    + rewrite decide_False in Hxz by congruence. left. congruence.
    + destruct (lt (k x) (k y)) eqn:L1; [auto|]. destruct (lt (k y) (k z)) eqn:L2; [auto|].
      pose proof (notless_trans lt _ _ _ L2 L1) as L3. exfalso.
      destruct (decide (k x = k z)) as [E|E]; [|congruence].
      rewrite <-E in L2. by apply E1, (st_total (less:=lt)).
Qed.

(** A tie of a multi-key comparison is a tie of every key. *)
Lemma lex_less_tie {A K} `{EqDecision K} (k : A → K) lt rest a b :
  StrictTotal lt → lex_less k lt rest a b = false → lex_less k lt rest b a = false →
  k a = k b ∧ rest a b = false ∧ rest b a = false.
Proof.
  intros Ht. unfold lex_less. destruct (decide (k a = k b)) as [E|E].
  - rewrite decide_True by done. done.
  - rewrite decide_False by done. intros H1 H2. destruct E. by apply (st_total (less:=lt)).
Qed.

#[export] Instance Z_ltb_total : StrictTotal Z.ltb.
Proof.
  repeat split; intros *; rewrite ?Z.ltb_lt, ?Z.ltb_ge; try lia.
Qed.

(** ** Automation

    [step_result] splits a hypothesis [r ≫= f = Ok b]; [solve_result] runs it
    to the end of a chain of binds. *)
Ltac step_result :=
  match goal with
  | H : _ ≫= _ = Ok _ |- _ => apply result_bind_ok in H as (? & ? & ?)
  | H : mbind _ _ = Ok _ |- _ => apply result_bind_ok in H as (? & ? & ?)
  | H : wrap_result _ _ = Ok _ |- _ => apply wrap_result_ok in H
  | H : Ok _ = Ok _ |- _ => injection H as H; subst
  | H : Err _ = Ok _ |- _ => discriminate H
  | H : Ok _ = Err _ |- _ => discriminate H
  | H : (if ?b then Err _ else _) = Ok _ |- _ => destruct b eqn:?
  | H : (if ?b then _ else Err _) = Ok _ |- _ => destruct b eqn:?
  | H : match ?o with Some _ => _ | None => Err _ end = Ok _ |- _ => destruct o eqn:?
  | H : match ?o with Some _ => Err _ | None => _ end = Ok _ |- _ => destruct o eqn:?
  end.
Ltac solve_result := repeat (step_result; simplify_eq/=); try done.

Create HintDb firewall.
#[export] Hint Resolve sort_by_perm sort_by_sorted dedup_from_NoDup dedup_id_NoDup : firewall.
#[export] Hint Rewrite @sort_by_elem : firewall.
