(* ===== verification/GoStrings.v ===== *)
(** * Go strings

    The operations of packages [strings], [strconv] and [fmt] that the program
    uses.  A Go string is its bytes; [ToLower], [TrimSpace], [Fields] and [%q]
    are modelled on the ASCII range (a byte above 127 is left as it is and is
    not a space), which is the range of the identifiers the program compares. *)

From S2P Require Import Prelude.
From stdpp Require Import pretty.
From Stdlib Require Import String Ascii.
Open Scope string_scope.
Open Scope Z_scope.

(** ** Definitions *)

Definition byte_of (c : ascii) : nat := Ascii.nat_of_ascii c.

Definition lower_ascii (c : ascii) : ascii :=
  if ((65 <=? byte_of c) && (byte_of c <=? 90))%nat
  then Ascii.ascii_of_nat (byte_of c + 32) else c.

(** unicode.IsSpace on ASCII: tab, newline, VT, FF, CR and space. *)
Definition is_space (c : ascii) : bool :=
  ((9 <=? byte_of c) && (byte_of c <=? 13) || (byte_of c =? 32))%nat.

Fixpoint string_map (f : ascii → ascii) (s : string) : string :=
  match s with EmptyString => EmptyString | String c s => String (f c) (string_map f s) end.

Definition ToLower (s : string) : string := string_map lower_ascii s.

Fixpoint trim_left (p : ascii → bool) (s : string) : string :=
  match s with
  | EmptyString => EmptyString
  | String c s' => if p c then trim_left p s' else s
  end.

Fixpoint trim_right (p : ascii → bool) (s : string) : string :=
  match s with
  | EmptyString => EmptyString
  | String c s' =>
      match trim_right p s' with
      | EmptyString => if p c then EmptyString else String c EmptyString
      | t => String c t
      end
  end.

Definition trim_by (p : ascii → bool) (s : string) : string := trim_right p (trim_left p s).

Definition TrimSpace : string → string := trim_by is_space.
(** strings.Trim(s, "/") *)
Definition TrimSlash : string → string := trim_by (λ c, bool_decide (c = "/"%char)).

(** strings.HasPrefix(s, p) *)
Definition HasPrefix (s p : string) : bool := String.prefix p s.

(** strings.SplitN(s, sep, 2) for a one-byte separator: [None] when [sep] does
    not occur (a single part). *)
Fixpoint SplitOnce (sep : ascii) (s : string) : option (string * string) :=
  match s with
  | EmptyString => None
  | String c s =>
      if decide (c = sep) then Some ("", s)
      else match SplitOnce sep s with
           | Some (a, b) => Some (String c a, b)
           | None => None
           end
  end.

(** strings.Split(s, sep) for a one-byte separator: always at least one part. *)
Fixpoint Split (sep : ascii) (s : string) : list string :=
  match s with
  | EmptyString => [""]
  | String c s =>
      if decide (c = sep) then "" :: Split sep s
      else match Split sep s with
           | a :: rest => String c a :: rest
           | [] => [String c ""]
           end
  end.

(** strings.Fields: the maximal runs of non-space bytes. *)
Definition Fields (s : string) : list string :=
  filter (λ x, x ≠ "") (Split " "%char (string_map (λ c, if is_space c then " "%char else c) s)).

Fixpoint Join (sep : string) (l : list string) : string :=
  match l with
  | [] => ""
  | [x] => x
  | x :: l => x +:+ sep +:+ Join sep l
  end.

(** [%d] *)
Definition itoa (n : Z) : string := pretty n.

Definition hex_digit (n : nat) : ascii :=
  Ascii.ascii_of_nat (if (n <? 10)%nat then 48 + n else 87 + n)%nat.
Definition hex_byte (c : ascii) : string :=
  String (hex_digit (byte_of c / 16)) (String (hex_digit (byte_of c mod 16)) "").

Definition quote_char (c : ascii) : string :=
  let backslash := Ascii.ascii_of_nat 92 in
  let esc x := String backslash (String x "") in
  let n := byte_of c in
  if decide (n = 34%nat) then String backslash (String c "")
  else if decide (n = 92%nat) then String backslash (String c "")
  else if decide (n = 7%nat) then esc "a"%char
  else if decide (n = 8%nat) then esc "b"%char
  else if decide (n = 12%nat) then esc "f"%char
  else if decide (n = 10%nat) then esc "n"%char
  else if decide (n = 13%nat) then esc "r"%char
  else if decide (n = 9%nat) then esc "t"%char
  else if decide (n = 11%nat) then esc "v"%char
  else if ((n <? 32) || (n =? 127))%nat then esc "x"%char +:+ hex_byte c
  else String c "".

Fixpoint quote_body (s : string) : string :=
  match s with EmptyString => EmptyString | String c s => quote_char c +:+ quote_body s end.

(** [%q] *)
Definition quote (s : string) : string :=
  let q := String (Ascii.ascii_of_nat 34) "" in q +:+ quote_body s +:+ q.

(** [s[0]], for a non-empty string. *)
Definition first_byte (s : string) : option ascii :=
  match s with EmptyString => None | String c _ => Some c end.

(** No byte of [s] satisfies [p]. *)
Fixpoint free_of (p : ascii → bool) (s : string) : Prop :=
  match s with EmptyString => True | String c s => p c = false ∧ free_of p s end.

(** Go's [<] on strings: bytewise lexicographic. *)
Notation str_ltb := String.ltb.

(** ** Examples *)

Example ToLower_ex : ToLower "@Scope/NAME-9" = "@scope/name-9".
Proof. reflexivity. Qed.
Example TrimSpace_ex : TrimSpace "  MIT and more " = "MIT and more".
Proof. reflexivity. Qed.
Example TrimSlash_ex : TrimSlash "//library/x/" = "library/x".
Proof. reflexivity. Qed.
Example Fields_ex : Fields " token  permissions " = ["token"; "permissions"].
Proof. reflexivity. Qed.
Example SplitOnce_ex : SplitOnce "/"%char "@a/b/c" = Some ("@a", "b/c").
Proof. reflexivity. Qed.

(** ** Lemmas *)

Lemma sapp_cons c (s t : string) : String c s +:+ t = String c (s +:+ t).
Proof. done. Qed.

Lemma sapp_nil_r (s : string) : s +:+ "" = s.
Proof. induction s as [|c s IH]; [done|by rewrite sapp_cons, IH]. Qed.

Lemma sapp_assoc (a b c : string) : (a +:+ b) +:+ c = a +:+ (b +:+ c).
Proof. induction a as [|x a IH]; [done|by rewrite !sapp_cons, IH]. Qed.

Lemma sapp_inj_l (s a b : string) : s +:+ a = s +:+ b → a = b.
Proof. induction s as [|c s IH]; [done|]. rewrite !sapp_cons. intros [= H]. by apply IH. Qed.

Lemma sapp_length (a b : string) :
  String.length (a +:+ b) = (String.length a + String.length b)%nat.
Proof. induction a as [|c a IH]; [done|]. rewrite sapp_cons. simpl. by rewrite IH. Qed.

Lemma ToLower_length s : String.length (ToLower s) = String.length s.
Proof. unfold ToLower. induction s; simpl; congruence. Qed.

Lemma lower_ascii_idem c : lower_ascii (lower_ascii c) = lower_ascii c.
Proof. destruct c as [[] [] [] [] [] [] [] []]; reflexivity. Qed.

Lemma lower_ascii_space c : is_space (lower_ascii c) = is_space c.
Proof. destruct c as [[] [] [] [] [] [] [] []]; reflexivity. Qed.

Lemma ToLower_idem s : ToLower (ToLower s) = ToLower s.
Proof. unfold ToLower. induction s as [|c s IH]; simpl; [done|]. by rewrite lower_ascii_idem, IH. Qed.

Lemma ToLower_empty s : ToLower s = "" ↔ s = "".
Proof. by destruct s. Qed.

Lemma trim_left_idem p s : trim_left p (trim_left p s) = trim_left p s.
Proof.
  induction s as [|c s IH]; simpl; [done|]. destruct (p c) eqn:E; [done|]. simpl. by rewrite E.
Qed.

Lemma trim_right_idem p s : trim_right p (trim_right p s) = trim_right p s.
Proof.
  induction s as [|c s IH]; simpl; [done|].
  destruct (trim_right p s) as [|d t] eqn:E.
  - destruct (p c) eqn:Ep; simpl; [done|]. by rewrite Ep.
  - change (String d t) with (String d t) in IH |- *.
    cbn [trim_right] in IH |- *. by rewrite IH.
Qed.

Lemma trim_left_right p s : trim_left p (trim_right p s) = trim_right p (trim_left p s).
Proof.
  induction s as [|c s IH]; simpl; [done|].
  destruct (p c) eqn:Ep.
  - rewrite <-IH. destruct (trim_right p s) as [|d t]; simpl; by rewrite ?Ep.
  - simpl. destruct (trim_right p s) as [|d t]; simpl; rewrite ?Ep; simpl; by rewrite ?Ep.
Qed.

Lemma trim_by_idem p s : trim_by p (trim_by p s) = trim_by p s.
Proof.
  unfold trim_by. by rewrite trim_left_right, trim_left_idem, trim_right_idem.
Qed.

Lemma TrimSpace_idem s : TrimSpace (TrimSpace s) = TrimSpace s.
Proof. apply trim_by_idem. Qed.

Lemma trim_left_map p f s :
  (∀ c, p (f c) = p c) → trim_left p (string_map f s) = string_map f (trim_left p s).
Proof.
  intros Hf. induction s as [|c s IH]; simpl; [done|]. rewrite Hf. by destruct (p c).
Qed.

Lemma trim_right_map p f s :
  (∀ c, p (f c) = p c) → trim_right p (string_map f s) = string_map f (trim_right p s).
Proof.
  intros Hf. induction s as [|c s IH]; simpl; [done|]. rewrite IH, Hf.
  destruct (trim_right p s); simpl; [|done]. by destruct (p c).
Qed.

Lemma TrimSpace_ToLower s : TrimSpace (ToLower s) = ToLower (TrimSpace s).
Proof.
  unfold TrimSpace, trim_by, ToLower.
  rewrite trim_left_map, trim_right_map; auto using lower_ascii_space.
Qed.

Lemma prefix_app p s : HasPrefix (p +:+ s) p = true.
Proof.
  unfold HasPrefix. induction p as [|c p IH]; [by destruct s|]. rewrite sapp_cons. simpl.
  destruct (ascii_dec c c); [done|congruence].
Qed.

Lemma prefix_inv s p : HasPrefix s p = true → ∃ t, s = p +:+ t.
Proof.
  unfold HasPrefix. revert s. induction p as [|c p IH]; intros s H; [by exists s|].
  destruct s as [|d s]; simpl in H; [done|]. destruct (ascii_dec c d) as [->|]; [|done].
  destruct (IH _ H) as [t ->]. by exists t.
Qed.

(** A one-byte prefix test looks at the first byte. *)
Lemma HasPrefix_char c d s : HasPrefix (String d s) (String c "") = bool_decide (c = d).
Proof.
  unfold HasPrefix. cbn [String.prefix]. case_bool_decide; destruct (ascii_dec c d); try done.
  by destruct s.
Qed.

Lemma SplitOnce_spec sep s a b :
  SplitOnce sep s = Some (a, b) → s = a +:+ String sep b.
Proof.
  revert a b. induction s as [|c s IH]; intros a b; simpl; [done|].
  case_decide; [by intros [= <- <-]; subst|].
  destruct (SplitOnce sep s) as [[a' b']|]; [|done].
  intros [= <- <-]. by rewrite (IH a' b').
Qed.

Lemma Split_nonnil sep s : Split sep s ≠ [].
Proof. destruct s; simpl; [done|]. case_decide; [done|]. by destruct (Split sep s). Qed.

(** Splitting and joining at the same separator gives the string back. *)
Lemma Join_Split sep s : Join (String sep "") (Split sep s) = s.
Proof.
  induction s as [|c s IH]; [done|]. cbn [Split]. case_decide as E.
  - subst sep. pose proof (Split_nonnil c s). destruct (Split c s) as [|a l]; [done|].
    change (Join (String c "") ("" :: a :: l)) with (String c (Join (String c "") (a :: l))).
    by rewrite IH.
  - pose proof (Split_nonnil sep s). destruct (Split sep s) as [|a l]; [done|].
    destruct l; simpl in *; by rewrite ?(sapp_cons c), IH.
Qed.

(** ** Byte classes *)

Lemma free_of_split p s1 s2 r1 r2 :
  free_of p s1 → free_of p s2 →
  match r1 with String c _ => p c = true | EmptyString => True end →
  match r2 with String c _ => p c = true | EmptyString => True end →
  s1 +:+ r1 = s2 +:+ r2 → s1 = s2 ∧ r1 = r2.
Proof.
  revert s2. induction s1 as [|c s1 IH]; intros [|d s2] H1 H2 Hr1 Hr2 E; simpl in H1, H2.
  - done.
  - destruct r1 as [|x r1]; [done|]. injection E as E _. destruct H2; congruence.
  - destruct r2 as [|x r2]; [done|]. injection E as E _. destruct H1; congruence.
  - destruct H1 as [_ H1], H2 as [_ H2]. rewrite !sapp_cons in E. injection E as -> E.
    destruct (IH s2) as [-> ->]; auto.
Qed.

Lemma free_of_impl (p q : ascii → bool) s :
  (∀ c, p c = false → q c = false) → free_of p s → free_of q s.
Proof. intros H. induction s; simpl; naive_solver. Qed.

Lemma free_of_app p a b : free_of p (a +:+ b) ↔ free_of p a ∧ free_of p b.
Proof. induction a as [|c a IH]; [by split; [|intros []]|]. rewrite sapp_cons. simpl. rewrite IH. tauto. Qed.

Lemma free_of_map (p q : ascii → bool) f s :
  (∀ c, p c = false → q (f c) = false) → free_of p s → free_of q (string_map f s).
Proof. intros H. induction s; simpl; naive_solver. Qed.

Lemma string_map_id (p : ascii → bool) f s :
  (∀ c, p c = false → f c = c) → free_of p s → string_map f s = s.
Proof. intros H. induction s as [|c s IH]; simpl; [done|]. intros [H1 H2]. by rewrite H, IH. Qed.

Lemma free_of_trim p q s : free_of p s → free_of p (trim_by q s).
Proof.
  intros H. unfold trim_by. assert (Hl : free_of p (trim_left q s)).
  { induction s as [|c s IH]; simpl in *; [done|]. destruct (q c); simpl; naive_solver. }
  revert Hl. generalize (trim_left q s). clear. intros s. induction s as [|c s IH]; [done|].
  intros [H1 H2]. simpl. specialize (IH H2).
  destruct (trim_right q s); [|done]. destruct (q c); done.
Qed.

Lemma trim_by_id p s : free_of p s → trim_by p s = s.
Proof.
  intros H. unfold trim_by. assert (trim_left p s = s) as ->.
  { destruct s as [|c s]; simpl in *; [done|]. destruct H as [-> _]. done. }
  induction s as [|c s IH]; simpl in *; [done|]. destruct H as [Hc H]. rewrite IH by done.
  destruct s; [by rewrite Hc|done].
Qed.

Lemma free_of_Join p sep l : free_of p sep → Forall (free_of p) l → free_of p (Join sep l).
Proof.
  intros Hs. induction 1 as [|x l Hx Hl IH]; [done|]. destruct l as [|y l]; [done|].
  change (Join sep (x :: y :: l)) with (x +:+ sep +:+ Join sep (y :: l)).
  by rewrite !free_of_app.
Qed.

Lemma string_map_app f a b : string_map f (a +:+ b) = string_map f a +:+ string_map f b.
Proof. induction a as [|c a IH]; [done|]. rewrite sapp_cons. simpl. by rewrite IH, sapp_cons. Qed.

Lemma string_map_Join f sep l :
  string_map f (Join sep l) = Join (string_map f sep) (string_map f <$> l).
Proof.
  induction l as [|x [|y l] IH]; [done|done|].
  change (Join sep (x :: y :: l)) with (x +:+ sep +:+ Join sep (y :: l)).
  rewrite !string_map_app, IH. done.
Qed.

Lemma Split_free p sep s : free_of p s → Forall (free_of p) (Split sep s).
Proof.
  induction s as [|c s IH]; simpl; [by repeat constructor|]. intros [Hc Hs].
  specialize (IH Hs). case_decide; [by constructor|].
  destruct (Split sep s); inversion IH; by repeat constructor.
Qed.

Lemma Split_sep_free sep s : Forall (free_of (λ c, bool_decide (c = sep))) (Split sep s).
Proof.
  induction s as [|c s IH]; simpl; [by repeat constructor|].
  case_decide; [by constructor|].
  assert (bool_decide (c = sep) = false) by by apply bool_decide_eq_false.
  destruct (Split sep s); inversion IH; by repeat constructor.
Qed.

Lemma Split_app sep a b :
  free_of (λ c, bool_decide (c = sep)) a → Split sep (a +:+ String sep b) = a :: Split sep b.
Proof.
  induction a as [|c a IH]; intros H.
  - simpl. by rewrite decide_True.
  - destruct H as [Hc H]. rewrite sapp_cons. simpl. apply bool_decide_eq_false in Hc.
    by rewrite decide_False, IH.
Qed.

Lemma Split_single sep a : free_of (λ c, bool_decide (c = sep)) a → Split sep a = [a].
Proof.
  induction a as [|c a IH]; [done|]. intros [Hc H]. simpl. apply bool_decide_eq_false in Hc.
  by rewrite decide_False, IH.
Qed.

Lemma Split_Join sep l :
  l ≠ [] → Forall (free_of (λ c, bool_decide (c = sep))) l →
  Split sep (Join (String sep "") l) = l.
Proof.
  intros Hne H. induction H as [|x l Hx Hl IH]; [done|]. destruct l as [|y l].
  - by apply Split_single.
  - change (Join (String sep "") (x :: y :: l)) with
      (x +:+ String sep (Join (String sep "") (y :: l))).
    by rewrite Split_app, IH.
Qed.

Lemma itoa_inj x y : itoa x = itoa y → x = y.
Proof. unfold itoa. intros H. by apply (inj pretty) in H. Qed.

Lemma pretty_N_free (p : ascii → bool) x s :
  Forall (λ d, p (pretty_N_char d) = false) [0;1;2;3;4;5;6;7;8;9]%N →
  free_of p s → free_of p (pretty_N_go x s).
Proof.
  intros Hp. revert s. induction (N.lt_wf_0 x) as [x _ IH]. intros s Hs.
  destruct (decide (x = 0%N)) as [->|Hx]; [by rewrite pretty_N_go_0|].
  rewrite pretty_N_go_step by lia. apply IH; [apply N.div_lt; lia|]. split; [|done].
  rewrite Forall_forall in Hp. apply Hp. pose proof (N.mod_lt x 10 ltac:(lia)) as Hlt.
  revert Hlt. generalize (x mod 10)%N. intros d Hd. rewrite !elem_of_cons. lia.
Qed.

(** The decimal digits and the minus sign are all [%d] prints. *)
Lemma itoa_free_of (p : ascii → bool) z :
  p "-"%char = false → Forall (λ d, p (pretty_N_char d) = false) [0;1;2;3;4;5;6;7;8;9]%N →
  free_of p (itoa z).
Proof.
  intros Hm Hp. pose proof Hp as H0. apply Forall_cons in H0 as [H0 _].
  assert (Hq : ∀ q : positive, free_of p (pretty q)).
  { intros q. change (free_of p (pretty_N_go (N.pos q) "")). by apply pretty_N_free. }
  unfold itoa. destruct z as [|q|q]; [by split|apply Hq|split; [done|apply Hq]].
Qed.

Lemma ascii_compare_eq a b : Ascii.compare a b = Eq ↔ a = b.
Proof.
  split; [apply Ascii.compare_eq_iff|]. intros ->. apply N.compare_refl.
Qed.

Lemma ascii_compare_trans a b c :
  Ascii.compare a b = Lt → Ascii.compare b c = Lt → Ascii.compare a c = Lt.
Proof. unfold Ascii.compare. rewrite !N.compare_lt_iff. lia. Qed.

Lemma ascii_compare_refl a : Ascii.compare a a = Eq.
Proof. by apply ascii_compare_eq. Qed.

Lemma string_compare_refl s : String.compare s s = Eq.
Proof. induction s as [|c s IH]; simpl; [done|]. by rewrite ascii_compare_refl. Qed.

Lemma string_compare_trans a b c :
  String.compare a b = Lt → String.compare b c = Lt → String.compare a c = Lt.
Proof.
  revert b c. induction a as [|x a IH]; intros [|y b] [|z c]; simpl; try done.
  destruct (Ascii.compare x y) eqn:E1, (Ascii.compare y z) eqn:E2; try done.
  - apply ascii_compare_eq in E1, E2. subst. rewrite ascii_compare_refl. apply IH.
  - apply ascii_compare_eq in E1. subst. by rewrite E2.
  - apply ascii_compare_eq in E2. subst. by rewrite E1.
  - by rewrite (ascii_compare_trans x y z).
Qed.

#[export] Instance str_ltb_total : StrictTotal str_ltb.
Proof.
  assert (Htr : ∀ x y z, str_ltb x y = true → str_ltb y z = true → str_ltb x z = true).
  { intros x y z. unfold String.ltb.
    destruct (String.compare x y) eqn:E1, (String.compare y z) eqn:E2; try done.
    by rewrite (string_compare_trans x y z). }
  assert (Htot : ∀ x y, str_ltb x y = false → str_ltb y x = false → x = y).
  { intros x y. unfold String.ltb. rewrite (String.compare_antisym y x).
    destruct (String.compare x y) eqn:E; try done.
    intros _ _. by apply String.compare_eq_iff. }
  split; [split|exact Htot].
  - intros x. unfold String.ltb. by rewrite string_compare_refl.
  - exact Htr.
  - intros x y z H. destruct (str_ltb x y) eqn:E1; [auto|].
    destruct (str_ltb y z) eqn:E2; [auto|]. exfalso.
    destruct (str_ltb y x) eqn:E3.
    + pose proof (Htr _ _ _ E3 H). congruence.
    + rewrite (Htot x y) in H by done. congruence.
Qed.

#[export] Hint Rewrite ToLower_idem TrimSpace_idem sapp_nil_r sapp_assoc : firewall.
