(* ===== verification/GoPath.v ===== *)
(** * Multi-byte separators and slash-separated paths

    The functions of packages [strings] and [path] that cut strings at
    separators: [strings.Cut], [LastIndex], [Split], [TrimPrefix],
    [TrimSuffix], and [path.Clean], [path.Join], [path.Dir]. *)

From S2P Require Import Prelude GoStrings.
#[local] Open Scope list_scope.

(** ** Definitions *)

Definition drop_str (n : nat) (s : string) : string :=
  String.substring n (String.length s - n) s.

(** strings.TrimPrefix *)
Definition TrimPrefix (s p : string) : string :=
  if HasPrefix s p then drop_str (String.length p) s else s.

(** strings.Cut: around the first occurrence; [None] when there is none. *)
Fixpoint Cut (s sep : string) : option (string * string) :=
  if HasPrefix s sep then Some ("", drop_str (String.length sep) s)
  else match s with
       | EmptyString => None
       | String c s => match Cut s sep with
           | Some (a, b) => Some (String c a, b)
           | None => None
           end
       end.

(** Around the last occurrence: [s[:i]] and [s[i+len(sep):]] for
    [i = strings.LastIndex(s, sep)]. *)
Fixpoint CutLast (s sep : string) : option (string * string) :=
  match s with
  | EmptyString => if HasPrefix s sep then Some ("", "") else None
  | String c s' =>
      match CutLast s' sep with
      | Some (a, b) => Some (String c a, b)
      | None => if HasPrefix s sep then Some ("", drop_str (String.length sep) s) else None
      end
  end.

(** strings.HasSuffix and strings.TrimSuffix *)
Definition CutSuffix (s suffix : string) : option string :=
  let n := (String.length s - String.length suffix)%nat in
  if decide (drop_str n s = suffix) then Some (String.substring 0 n s) else None.
Definition TrimSuffix (s suffix : string) : string := default s (CutSuffix s suffix).

(** The last element of strings.Split(s, sep), a non-empty [sep]: the rest after
    the non-overlapping occurrences, from the left. *)
Fixpoint split_last (fuel : nat) (s sep : string) : string :=
  match fuel with
  | O => s
  | S fuel => match Cut s sep with Some (_, rest) => split_last fuel rest sep | None => s end
  end.
Definition SplitLast (s sep : string) : string := split_last (String.length s) s sep.

(** *** Package path *)

(** One element of the path, on the reversed stack of kept elements. *)
Definition clean_part (rooted : bool) (acc : list string) (part : string) : list string :=
  if decide (part = "" ∨ part = ".") then acc
  else if decide (part = "..") then
    match acc with
    | [] => if rooted then [] else [".."]
    | x :: rest => if decide (x = "..") then ".." :: acc else rest
    end
  else part :: acc.

Definition PathClean (p : string) : string :=
  if decide (p = "") then "."
  else
    let rooted := HasPrefix p "/" in
    let body := Join "/" (rev (foldl (clean_part rooted) [] (Split "/"%char p))) in
    if rooted then "/" +:+ body else if decide (body = "") then "." else body.

(** Leading empty elements are ignored. *)
Fixpoint PathJoin (l : list string) : string :=
  match l with
  | [] => ""
  | x :: l' => if decide (x = "") then PathJoin l' else PathClean (Join "/" l)
  end.

(** [path.Dir]: everything up to the last slash, cleaned. *)
Definition PathDir (p : string) : string :=
  match CutLast p "/" with
  | Some (a, _) => PathClean (a +:+ "/")
  | None => PathClean ""
  end.

(** ** Examples *)

Example clean_ex : PathClean "a//b/./../c/" = "a/c". Proof. reflexivity. Qed.
Example clean_up : PathClean "../../x/.." = "../..". Proof. reflexivity. Qed.
Example clean_root : PathClean "/../a" = "/a". Proof. reflexivity. Qed.
Example join_ex : PathJoin [""; "node_modules"; "@s/p"] = "node_modules/@s/p". Proof. reflexivity. Qed.
Example dir_ex : PathDir "node_modules/a" = "node_modules" ∧ PathDir "a" = "." ∧ PathDir "/a" = "/".
Proof. by vm_compute. Qed.
Example split_ex : SplitLast "a/node_modules/b/node_modules/@s/c" "/node_modules/" = "@s/c".
Proof. reflexivity. Qed.

(** ** Lemmas *)

Lemma drop_app a b : drop_str (String.length a) (a +:+ b) = b.
Proof.
  unfold drop_str. rewrite sapp_length.
  replace (String.length a + String.length b - String.length a)%nat with (String.length b) by lia.
  induction a as [|c a IH]; [|exact IH].
  change (EmptyString +:+ b) with b. simpl. induction b as [|c b IH]; [done|]. simpl. by rewrite IH.
Qed.

Lemma take_app (a b : string) : String.substring 0 (String.length a) (a +:+ b) = a.
Proof.
  induction a as [|c a IH]; [by destruct b|]. rewrite sapp_cons. simpl. by rewrite IH.
Qed.

Lemma Cut_spec s sep a b : Cut s sep = Some (a, b) → s = a +:+ sep +:+ b.
Proof.
  revert a b. induction s as [|c s IH]; intros a b; cbn [Cut].
  - destruct (HasPrefix "" sep) eqn:E; [|done]. intros [= <- <-].
    by apply prefix_inv in E as [[] E]; destruct sep.
  - destruct (HasPrefix (String c s) sep) eqn:E.
    + intros [= <- <-]. apply prefix_inv in E as [t E]. rewrite E. by rewrite drop_app.
    + destruct (Cut s sep) as [[a' b']|]; [|done]. intros [= <- <-]. rewrite sapp_cons. f_equal. by apply IH.
Qed.

Lemma CutLast_spec s sep a b : CutLast s sep = Some (a, b) → s = a +:+ sep +:+ b.
Proof.
  revert a b. induction s as [|c s IH]; intros a b; cbn [CutLast].
  - destruct (HasPrefix "" sep) eqn:E; [|done]. intros [= <- <-]. by apply prefix_inv in E as [[] E]; destruct sep.
  - destruct (CutLast s sep) as [[a' b']|].
    + intros [= <- <-]. rewrite sapp_cons. f_equal. by apply IH.
    + destruct (HasPrefix (String c s) sep) eqn:E; [|done]. intros [= <- <-].
      apply prefix_inv in E as [t E]. rewrite E. by rewrite drop_app.
Qed.

Lemma CutSuffix_app s suffix : CutSuffix (s +:+ suffix) suffix = Some s.
Proof.
  unfold CutSuffix. rewrite sapp_length.
  replace (String.length s + String.length suffix - String.length suffix)%nat with (String.length s) by lia.
  rewrite drop_app, decide_True by done. by rewrite take_app.
Qed.

(** Cutting at a one-byte separator. *)
Lemma CutLast_char c a b :
  free_of (λ x, bool_decide (x = c)) b → CutLast (a +:+ String c b) (String c "") = Some (a, b).
Proof.
  intros Hb. assert (Hn : ∀ t, free_of (λ x, bool_decide (x = c)) t → CutLast t (String c "") = None).
  { induction t as [|x t IH]; [done|]. intros [Hx Ht]. cbn [CutLast]. rewrite IH by done.
    rewrite HasPrefix_char. apply bool_decide_eq_false in Hx. by rewrite bool_decide_false. }
  induction a as [|x a IH].
  - change ("" +:+ String c b) with (String c b). cbn [CutLast].
    rewrite Hn by done. rewrite HasPrefix_char, bool_decide_true by done.
    change (String c b) with (String c "" +:+ b). by rewrite drop_app.
  - rewrite sapp_cons. cbn [CutLast]. by rewrite IH.
Qed.

Lemma Cut_char c a b :
  free_of (λ x, bool_decide (x = c)) a → Cut (a +:+ String c b) (String c "") = Some (a, b).
Proof.
  induction a as [|x a IH]; intros Ha.
  - change ("" +:+ String c b) with (String c b). cbn [Cut]. rewrite HasPrefix_char, bool_decide_true by done.
    change (String c b) with (String c "" +:+ b). by rewrite drop_app.
  - destruct Ha as [Hx Ha]. apply bool_decide_eq_false in Hx. rewrite sapp_cons. cbn [Cut].
    rewrite HasPrefix_char, bool_decide_false by congruence. by rewrite IH.
Qed.

Lemma CutLast_char_None c s :
  CutLast s (String c "") = None → free_of (λ x, bool_decide (x = c)) s.
Proof.
  induction s as [|x s IH]; [done|]. cbn [CutLast].
  destruct (CutLast s (String c "")) as [[]|]; [done|]. rewrite HasPrefix_char. case_bool_decide; [done|].
  intros _. split; [|by apply IH]. by apply bool_decide_false.
Qed.

Lemma CutLast_char_inv c s a b :
  CutLast s (String c "") = Some (a, b) → free_of (λ x, bool_decide (x = c)) b.
Proof.
  revert a b. induction s as [|x s IH]; intros a b; [done|]. cbn [CutLast].
  destruct (CutLast s (String c "")) as [[a' b']|] eqn:E.
  - intros [= <- <-]. by eapply IH.
  - destruct (HasPrefix (String x s) (String c "")) eqn:Hp; [|done]. intros [= <- <-].
    apply prefix_inv in Hp as [t Ht]. rewrite Ht.
    change 1%nat with (String.length (String c "")). rewrite (drop_app (String c "") t).
    change (String c "" +:+ t) with (String c t) in Ht. injection Ht as -> <-. by apply CutLast_char_None.
Qed.

(** *** Cleaning does not lengthen a path *)

Definition weight (l : list string) : nat := sum_list_with (λ x, S (String.length x)) l.

Lemma weight_app a b : weight (a ++ b) = (weight a + weight b)%nat.
Proof. apply sum_list_with_app. Qed.

Lemma weight_Split sep s : weight (Split sep s) = S (String.length s).
Proof.
  induction s as [|c s IH]; [done|]. simpl. case_decide.
  - simpl in *. by rewrite <-IH.
  - pose proof (Split_nonnil sep s). destruct (Split sep s) as [|a l]; [done|].
    simpl in *. lia.
Qed.

Lemma Join_weight l : (String.length (Join "/" l) = weight l - 1)%nat.
Proof.
  induction l as [|x l IH]; [done|]. destruct l as [|y l]; [cbn; lia|].
  change (Join "/" (x :: y :: l)) with (x +:+ "/" +:+ Join "/" (y :: l)).
  rewrite !sapp_length, IH. cbn. lia.
Qed.

Lemma clean_part_weight r acc p :
  (weight (clean_part r acc p) ≤ weight acc + if decide (p = "") then 0 else S (String.length p))%nat.
Proof.
  unfold clean_part. destruct (decide (p = "" ∨ p = ".")) as [|H]; [lia|].
  destruct (decide (p = "")) as [->|_]; [destruct H; by left|].
  destruct (decide (p = "..")) as [->|]; [|unfold weight; simpl; lia].
  destruct acc as [|x acc]; [destruct r; simpl; lia|].
  destruct (decide (x = "..")) as [->|]; unfold weight; simpl; lia.
Qed.

Definition kept (l : list string) : nat :=
  sum_list_with (λ x, if decide (x = "") then 0 else S (String.length x))%nat l.

Lemma clean_weight r acc l : (weight (foldl (clean_part r) acc l) ≤ weight acc + kept l)%nat.
Proof.
  revert acc. induction l as [|x l IH]; intros acc; [simpl; lia|]. cbn [foldl].
  specialize (IH (clean_part r acc x)). pose proof (clean_part_weight r acc x).
  change (kept (x :: l)) with ((if decide (x = "") then 0 else S (String.length x)) + kept l)%nat. lia.
Qed.

Lemma kept_empties l n : (n ≤ length (filter (λ x, x = "") l) → kept l + n ≤ weight l)%nat.
Proof.
  revert n. induction l as [|x l IH]; intros n Hn; [simpl in *; lia|].
  rewrite filter_cons in Hn. change (kept (x :: l)) with ((if decide (x = "") then 0 else S (String.length x)) + kept l)%nat.
  change (weight (x :: l)) with (S (String.length x) + weight l)%nat.
  destruct (decide (x = "")) as [->|].
  - simpl in Hn. specialize (IH (n - 1)%nat). simpl. lia.
  - specialize (IH n Hn). lia.
Qed.

(** A trailing slash does not survive, and a leading slash is one of the bytes. *)
Lemma PathClean_dir_length a :
  (String.length (PathClean (a +:+ "/")) ≤ Nat.max 1 (String.length a))%nat.
Proof.
  unfold PathClean. rewrite decide_False by (by destruct a).
  set (r := HasPrefix (a +:+ "/") "/").
  assert (Hs : Split "/" (a +:+ "/") = Split "/" a ++ [""]).
  { clear. induction a as [|c a IH]; [done|]. rewrite sapp_cons. cbn [Split]. rewrite IH.
    case_decide; [done|]. pose proof (Split_nonnil "/" a). by destruct (Split "/" a). }
  pose proof (clean_weight r [] (Split "/" (a +:+ "/"))) as Hw.
  set (l := foldl (clean_part r) [] (Split "/" (a +:+ "/"))) in *.
  assert (Hl : String.length (Join "/" (rev l)) = (weight l - 1)%nat).
  { rewrite Join_weight. f_equal. clear. induction l as [|x l IH]; [done|]. simpl. fold weight in *. unfold weight in *.
    rewrite sum_list_with_app, IH. simpl. lia. }
  cbn [weight sum_list_with] in Hw.
  assert (Hk : (kept (Split "/" (a +:+ "/")) ≤ String.length a + 1)%nat).
  { pose proof (kept_empties (Split "/" (a +:+ "/")) 1). rewrite weight_Split, sapp_length in H.
    simpl in H. assert (1 ≤ length (filter (λ x, x = "") (Split "/" (a +:+ "/"))))%nat; [|lia].
    rewrite Hs, filter_app, length_app. simpl. lia. }
  destruct r eqn:Hr.
  - change (String.length ("/" +:+ Join "/" (rev l))) with (S (String.length (Join "/" (rev l)))). rewrite Hl.
    destruct a as [|c a]; [cbn in *; lia|].
    assert (2 ≤ length (filter (λ x, x = "") (Split "/" (String c a +:+ "/"))))%nat as H2.
    { rewrite Hs, filter_app, length_app. subst r. rewrite sapp_cons, HasPrefix_char in Hr.
      apply bool_decide_eq_true in Hr as <-. cbn [Split]. rewrite decide_True by done.
      rewrite filter_cons_True by done. simpl. lia. }
    pose proof (kept_empties _ 2 H2) as H. rewrite weight_Split, sapp_length in H.
    change (String.length "/") with 1%nat in H. change (weight []) with 0%nat in Hw. simpl in *. lia.
  - case_decide; [cbn; lia|]. rewrite Hl. lia.
Qed.

(** Walking up a path ends: every step but the last shortens it. *)
Lemma PathDir_shorter p :
  p ≠ "" → PathDir p = "." ∨ PathDir p = "/" ∨ (String.length (PathDir p) < String.length p)%nat.
Proof.
  intros Hp. unfold PathDir. destruct (CutLast p "/") as [[a b]|] eqn:E; [|by left].
  apply CutLast_spec in E. pose proof (PathClean_dir_length a) as H.
  destruct a as [|c a]; [by right; left|]. right; right. subst p. rewrite !sapp_length. cbn in *. lia.
Qed.

(** *** Clean paths *)

(** A path element that [path.Clean] keeps. *)
Definition clean_seg (x : string) : Prop :=
  x ≠ "" ∧ x ≠ "." ∧ x ≠ ".." ∧ free_of (λ c, bool_decide (c = "/"%char)) x.

Lemma clean_part_seg r acc x : clean_seg x → clean_part r acc x = x :: acc.
Proof.
  intros (H1 & H2 & H3 & _). unfold clean_part.
  rewrite decide_False by (intros []; done). by rewrite decide_False.
Qed.

Lemma clean_parts_segs r acc segs :
  Forall clean_seg segs → foldl (clean_part r) acc segs = rev segs ++ acc.
Proof.
  induction 1 as [|x segs Hx _ IH] in acc |- *; [done|]. cbn [foldl rev].
  by rewrite clean_part_seg, IH, <-app_assoc.
Qed.

Lemma Join_segs_first segs : segs ≠ [] → Forall clean_seg segs →
  Join "/" segs ≠ "" ∧ HasPrefix (Join "/" segs) "/" = false ∧
  Join "/" segs ≠ "." ∧ Join "/" segs ≠ "/".
Proof.
  intros Hne H. destruct H as [|x segs (H1 & H2 & _ & H3) _]; [done|].
  destruct x as [|c x]; [done|]. destruct H3 as [H3 _]. apply bool_decide_eq_false in H3.
  assert (∃ t, Join "/" (String c x :: segs) = String c t ∧ (t = "" → segs = [] ∧ x = "")) as (t & -> & Ht).
  { destruct segs as [|y segs]; [exists x; done|]. exists (x +:+ "/" +:+ Join "/" (y :: segs)).
    split; [done|]. by destruct x. }
  split; [done|]. split; [rewrite HasPrefix_char; by apply bool_decide_false|].
  split; intros [= -> ->]; destruct (Ht eq_refl) as [-> ->]; done.
Qed.

Lemma Join_app_sep segs x : segs ≠ [] → Join "/" (segs ++ [x]) = Join "/" segs +:+ "/" +:+ x.
Proof.
  induction segs as [|y segs IH]; [done|]. intros _. destruct segs as [|z segs]; [done|].
  change (Join "/" ((y :: z :: segs) ++ [x])) with (y +:+ "/" +:+ Join "/" ((z :: segs) ++ [x])).
  rewrite IH by done. change (Join "/" (y :: z :: segs)) with (y +:+ "/" +:+ Join "/" (z :: segs)).
  by rewrite !sapp_assoc.
Qed.

Lemma Split_segs segs : segs ≠ [] → Forall clean_seg segs → Split "/" (Join "/" segs) = segs.
Proof.
  intros Hne H. apply (Split_Join "/"%char); [done|]. eapply Forall_impl; [exact H|]. by intros x (_ & _ & _ & ?).
Qed.

(** The parent directory of a clean path. *)
Lemma PathDir_segs segs x :
  Forall clean_seg segs → clean_seg x →
  PathDir (Join "/" (segs ++ [x])) = if decide (segs = []) then "." else Join "/" segs.
Proof.
  intros H Hx. unfold PathDir. destruct (decide (segs = [])) as [->|Hne].
  - cbn [app Join]. destruct (CutLast x "/") as [[a b]|] eqn:E; [|done].
    apply CutLast_spec in E as ->. destruct Hx as (_ & _ & _ & Hx).
    apply free_of_app in Hx as [_ [Hx _]%free_of_app]. by destruct Hx.
  - rewrite Join_app_sep by done. change ("/" +:+ x) with (String "/" x).
    rewrite (CutLast_char "/"%char) by apply Hx. unfold PathClean.
    destruct (Join_segs_first segs Hne H) as (H1 & H2 & _ & _).
    rewrite decide_False by (by destruct (Join "/" segs)).
    assert (HasPrefix (Join "/" segs +:+ "/") "/" = false) as ->.
    { destruct (Join "/" segs) as [|c t] eqn:E; [done|]. rewrite sapp_cons. by rewrite HasPrefix_char in H2 |- *. }
    assert (Split "/" (Join "/" segs +:+ "/") = segs ++ [""]) as ->.
    { rewrite <-(Split_segs segs) at 2 by done.
      generalize (Join "/" segs). induction s as [|c s IH]; [done|]. rewrite sapp_cons. cbn [Split].
      rewrite IH. case_decide; [done|]. pose proof (Split_nonnil "/" s). by destruct (Split "/" s). }
    rewrite foldl_app, (clean_parts_segs _ _ segs), app_nil_r by done. cbn [foldl].
    change (clean_part false (rev segs) "") with (rev segs). rewrite rev_involutive.
    by rewrite decide_False.
Qed.

(** The elements of a path after cleaning, innermost first. *)
Definition path_stack (p : string) : list string := foldl (clean_part (HasPrefix p "/")) [] (Split "/" p).
Definition render (rooted : bool) (stack : list string) : string :=
  let body := Join "/" (rev stack) in
  if rooted then "/" +:+ body else if decide (body = "") then "." else body.

Lemma PathClean_render p : p ≠ "" → PathClean p = render (HasPrefix p "/") (path_stack p).
Proof. intros H. unfold PathClean. by rewrite decide_False. Qed.

(** What cleaning leaves: ordinary elements above leading [..]s, of which a
    rooted path has none. *)
Definition stack_ok (rooted : bool) (stack : list string) : Prop :=
  ∃ segs n, stack = segs ++ replicate n ".." ∧ Forall clean_seg segs ∧ (rooted = true → n = 0%nat).

Lemma clean_part_ok r acc x :
  free_of (λ c, bool_decide (c = "/"%char)) x → stack_ok r acc → stack_ok r (clean_part r acc x).
Proof.
  intros Hx (segs & n & -> & Hs & Hn). unfold clean_part. case_decide as H1; [by exists segs, n|].
  case_decide as H2.
  - subst x. destruct Hs as [|y segs Hy Hs]; simpl.
    + destruct n as [|n]; simpl.
      * destruct r; [by exists [], 0%nat|by exists [], 1%nat].
      * exists [], (S (S n)). split; [done|]. split; [constructor|]. intros ->. by specialize (Hn eq_refl).
    + rewrite decide_False by apply Hy. by exists segs, n.
  - exists (x :: segs), n. split; [done|]. split; [|done]. constructor; [|done]. split; [tauto|]. split; [tauto|]. done.
Qed.

Lemma clean_parts_ok r l acc :
  Forall (free_of (λ c, bool_decide (c = "/"%char))) l → stack_ok r acc → stack_ok r (foldl (clean_part r) acc l).
Proof. intros H. revert acc. induction H as [|x l Hx _ IH]; intros acc Ha; [done|]. apply IH. by apply clean_part_ok. Qed.

Lemma path_stack_ok p : stack_ok (HasPrefix p "/") (path_stack p).
Proof. apply clean_parts_ok; [apply Split_sep_free|]. by exists [], 0%nat. Qed.

Lemma stack_ok_free r st : stack_ok r st → Forall (free_of (λ c, bool_decide (c = "/"%char))) st.
Proof.
  intros (segs & n & -> & H & _). apply Forall_app. split.
  - eapply Forall_impl; [exact H|]. by intros x (_ & _ & _ & ?).
  - apply Forall_replicate. by vm_compute.
Qed.

Lemma stack_ok_app r segs st : Forall clean_seg segs → stack_ok r st → stack_ok r (segs ++ st).
Proof. intros H (s & n & -> & Hs & Hn). exists (segs ++ s), n. rewrite app_assoc. split; [done|]. split; [by apply Forall_app|done]. Qed.

(** Cleaning the elements of a clean path again rebuilds its stack. *)
Lemma refold r st : stack_ok r st → foldl (clean_part r) [] (rev st) = st.
Proof.
  intros (segs & n & -> & H & Hn). rewrite rev_app_distr, foldl_app.
  assert (foldl (clean_part r) [] (rev (replicate n "..")) = replicate n "..") as ->.
  { destruct r; [by rewrite Hn|]. clear Hn.
    assert (∀ m, foldl (clean_part false) (replicate m "..") (replicate n "..") = replicate (n + m) "..") as Hg.
    { induction n as [|n IH]; intros m; [done|]. simpl.
      assert (clean_part false (replicate m "..") ".." = replicate (S m) "..") as ->.
      { unfold clean_part. rewrite decide_False by (by intros []). rewrite decide_True by done. by destruct m. }
      rewrite IH. by rewrite Nat.add_succ_r. }
    pose proof (Hg 0%nat) as H0. simpl in H0. rewrite Nat.add_0_r in H0. rewrite <-H0 at 2. f_equal.
    clear. induction n as [|n IH]; [done|]. simpl. rewrite IH. clear. induction n as [|n IH]; [done|]. simpl. by f_equal. }
  rewrite clean_parts_segs by by apply Forall_rev. by rewrite rev_involutive.
Qed.


Lemma fold_Split_Join r st :
  stack_ok r st → foldl (clean_part r) [] (Split "/" (Join "/" (rev st))) = st.
Proof.
  intros H. destruct (decide (rev st = [])) as [E|Hne].
  - rewrite E. apply (f_equal (@rev _)) in E. rewrite rev_involutive in E. by subst st.
  - rewrite (Split_Join "/"%char) by (try done; apply Forall_rev; by eapply stack_ok_free). by apply refold.
Qed.

Lemma stack_ok_nonempty r st : stack_ok r st → Forall (λ x, x ≠ "") st.
Proof.
  intros (segs & n & -> & H & _). apply Forall_app. split; [|by apply Forall_replicate].
  eapply Forall_impl; [exact H|]. by intros x [? _].
Qed.

Lemma Join_rev_rooted r st : stack_ok r st → HasPrefix (Join "/" (rev st)) "/" = false.
Proof.
  intros H. pose proof (stack_ok_nonempty _ _ H) as Hn. apply stack_ok_free in H.
  apply Forall_rev in H, Hn. destruct H as [|x l Hx _]; [done|]. apply Forall_cons in Hn as [Hn _].
  destruct x as [|c x]; [done|]. destruct Hx as [Hx _]. apply bool_decide_eq_false in Hx.
  assert (∃ t, Join "/" (String c x :: l) = String c t) as [t ->] by (destruct l; by eexists).
  rewrite HasPrefix_char. by apply bool_decide_false.
Qed.

Lemma Split_sep_app sep a b : Split sep (a +:+ String sep b) = Split sep a ++ Split sep b.
Proof.
  induction a as [|c a IH]; [simpl; by rewrite decide_True|]. rewrite sapp_cons. cbn [Split]. rewrite IH.
  case_decide; [done|]. pose proof (Split_nonnil sep a). by destruct (Split sep a).
Qed.

Lemma path_stack_render r st :
  stack_ok r st → render r st ≠ "" ∧ HasPrefix (render r st) "/" = r ∧ path_stack (render r st) = st.
Proof.
  intros H. assert (HasPrefix (render r st) "/" = r) as Hr.
  { unfold render. destruct r; [by apply (prefix_app "/")|]. case_decide; [done|]. by eapply Join_rev_rooted. }
  split; [|split; [done|]].
  - unfold render. destruct r; [done|]. by case_decide.
  - unfold path_stack. rewrite Hr. unfold render. destruct r.
    + change ("/" +:+ Join "/" (rev st)) with (String "/" (Join "/" (rev st))). cbn [Split].
      rewrite decide_True by done. cbn [foldl]. change (clean_part true [] "") with (@nil string). by apply fold_Split_Join.
    + case_decide as E; [|by apply fold_Split_Join]. rewrite <-(fold_Split_Join false st) by done. by rewrite E.
Qed.

Lemma render_inj r st st' : stack_ok r st → stack_ok r st' → render r st = render r st' → st = st'.
Proof.
  intros H H' E. apply path_stack_render in H as (_ & _ & <-). apply path_stack_render in H' as (_ & _ & <-). by rewrite E.
Qed.

(** Joining ordinary elements below a path. *)
Lemma PathJoin_below p segs :
  p ≠ "" → segs ≠ [] → Forall clean_seg segs →
  PathJoin (p :: segs) = render (HasPrefix p "/") (rev segs ++ path_stack p).
Proof.
  intros Hp Hne H. cbn [PathJoin]. rewrite decide_False by done.
  change (Join "/" (p :: segs)) with (match segs with [] => p | _ => p +:+ "/" +:+ Join "/" segs end).
  destruct segs as [|x segs]; [done|]. set (l := x :: segs) in *.
  rewrite PathClean_render by (by destruct p). 
  assert (HasPrefix (p +:+ "/" +:+ Join "/" l) "/" = HasPrefix p "/") as Hr.
  { destruct p as [|c p]; [done|]. by rewrite sapp_cons, !HasPrefix_char. }
  f_equal; [done|]. unfold path_stack. rewrite Hr.
  change ("/" +:+ Join "/" l) with (String "/" (Join "/" l)).
  rewrite Split_sep_app, foldl_app, Split_segs by done. by apply clean_parts_segs.
Qed.
