(* ===== verification/Paths.v ===== *)
(** * Request paths

    [internal/delivery/npm/paths.go], [internal/delivery/oci/paths.go], the
    path-based tenant routing of [internal/delivery/middleware/tenant.go] and the
    proxy base URL of [internal/delivery/npm/metadata.go]. *)

From S2P Require Import Prelude GoStrings GoPath.
#[local] Open Scope list_scope.

(** ** Definitions *)

(** *** npm *)

(** Name and version; the version is empty when the path has none. *)
Definition parsePackagePath (path : string) : string * string :=
  if HasPrefix path "@" then
    match SplitOnce "/"%char path with
    | None => (path, "")
    | Some (scope, rest) =>
        match SplitOnce "/"%char rest with
        | None => (scope +:+ "/" +:+ rest, "")
        | Some (name, version) => (scope +:+ "/" +:+ name, version)
        end
    end
  else match Cut path "/" with
       | Some (name, version) => (name, version)
       | None => (path, "")
       end.

(** The part of a package name after its last slash. *)
Definition basename (name : string) : string :=
  match CutLast name "/" with Some (_, b) => b | None => name end.

Definition parseTarballPath (path : string) : option (string * string) :=
  match Cut path "/-/" with
  | None => None
  | Some (name, filename) =>
      match CutSuffix filename ".tgz" with
      | None => None
      | Some filename =>
          let prefix := basename name +:+ "-" in
          if negb (HasPrefix filename prefix) then None
          else
            let version := drop_str (String.length prefix) filename in
            if decide (version = "") then None else Some (name, version)
      end
  end.

Definition tarballFilename (name version : string) : string :=
  name +:+ "/-/" +:+ basename name +:+ "-" +:+ version +:+ ".tgz".

(** *** OCI *)

Definition parse_marked (marker path : string) : option (string * string) :=
  match CutLast path marker with
  | None => None
  | Some (repo, reference) =>
      if decide (repo = "" ∨ reference = "") then None else Some (repo, reference)
  end.

Definition parseManifestPath : string → option (string * string) := parse_marked "/manifests/".
Definition parseBlobPath : string → option (string * string) := parse_marked "/blobs/".

(** Namespace and name. *)
Definition splitRepo (repo : string) : string * string :=
  match CutLast repo "/" with
  | None => ("", repo)
  | Some (namespace, name) => (namespace, name)
  end.

(** *** Tenant routing *)

(** Tenant, upstream (empty when absent) and the rewritten path. *)
Definition parseNPMTenantPath (path : string) : option (string * string * string) :=
  let '(tenantID, remainder, hasRemainder) :=
    match Cut path "/" with Some (t, r) => (t, r, true) | None => (path, "", false) end in
  if decide (tenantID = "") then None
  else
    let '(upstreamID, packagePath) :=
      if hasRemainder && HasPrefix remainder "u/" then
        let '(parsed, nextPath) :=
          match Cut (TrimPrefix remainder "u/") "/" with
          | Some (u, n) => (u, n)
          | None => (TrimPrefix remainder "u/", "")
          end in
        if decide (parsed = "") then ("", remainder) else (parsed, nextPath)
      else ("", remainder) in
    Some (tenantID, upstreamID, "/npm/" +:+ packagePath).

(** What the handlers read of a request: the path, the [X-Tenant-ID] header and
    the upstream pinned in the context. *)
Record Routed : Type := mkRouted {
  rt_Path : string;
  rt_TenantHeader : string;
  rt_UpstreamID : string;
}.

(** [tenantFromPath] with its prefix and parser: the request handed on. *)
Definition tenantFromPath (prefix : string) (parser : string → option (string * string * string))
    (r : Routed) : Routed :=
  if negb (HasPrefix (rt_Path r) prefix) then r
  else match parser (TrimPrefix (rt_Path r) prefix) with
  | None => r
  | Some (tenantID, upstreamID, rewrittenPath) =>
      mkRouted rewrittenPath tenantID
        (if decide (upstreamID = "") then rt_UpstreamID r else upstreamID)
  end.

Definition NPMTenantFromPath : Routed → Routed := tenantFromPath "/npm/t/" parseNPMTenantPath.

(** The path part of [npmProxyBaseURL]. *)
Definition npmProxyBasePath (tenantID upstreamID : string) : string :=
  "/npm/t/" +:+ tenantID +:+ "/" +:+
  (if decide (upstreamID = "") then "" else "u/" +:+ upstreamID +:+ "/").

(** ** Examples *)

Example package_scoped : parsePackagePath "@scope/name/1.0.0" = ("@scope/name", "1.0.0").
Proof. reflexivity. Qed.
Example package_plain : parsePackagePath "left-pad" = ("left-pad", ""). Proof. reflexivity. Qed.
Example tarball_scoped : parseTarballPath "@s/p/-/p-1.0.0.tgz" = Some ("@s/p", "1.0.0").
Proof. reflexivity. Qed.
Example manifest_ex : parseManifestPath "library/nginx/manifests/latest" = Some ("library/nginx", "latest").
Proof. reflexivity. Qed.
Example repo_ex : splitRepo "a/b/c" = ("a/b", "c"). Proof. reflexivity. Qed.
Example tenant_ex : parseNPMTenantPath "t1/u/up/left-pad/1.0" = Some ("t1", "up", "/npm/left-pad/1.0").
Proof. reflexivity. Qed.

(** ** Lemmas *)

Lemma Cut_None_prefix s sep c : Cut (String c s) sep = None → HasPrefix (String c s) sep = false ∧ Cut s sep = None.
Proof. cbn [Cut]. destruct (HasPrefix _ _); [done|]. by destruct (Cut s sep) as [[]|]. Qed.

(** The first occurrence of a three-byte separator [/-/]. *)
Lemma Cut_tarball n rest :
  Cut (n +:+ "/-") "/-/" = None → Cut (n +:+ "/-/" +:+ rest) "/-/" = Some (n, rest).
Proof.
  induction n as [|c n IH]; intros H.
  - change ("" +:+ "/-/" +:+ rest) with ("/-/" +:+ rest).
    assert (HasPrefix ("/-/" +:+ rest) "/-/" = true) as Hp by apply prefix_app.
    destruct ("/-/" +:+ rest) as [|x t] eqn:E; [done|]. cbn [Cut]. rewrite Hp, <-E. by rewrite drop_app.
  - rewrite sapp_cons in H |- *. apply Cut_None_prefix in H as [Hp H]. cbn [Cut]. rewrite (IH H).
    assert (HasPrefix (String c (n +:+ "/-/" +:+ rest)) "/-/" = false) as ->; [|done].
    destruct (HasPrefix (String c (n +:+ "/-/" +:+ rest)) "/-/") eqn:E; [|done].
    apply prefix_inv in E as [t E]. exfalso. revert Hp E. clear.
    destruct n as [|c1 [|c2 n]]; intros Hp E; injection E; intros; subst; [discriminate..|].
    change (HasPrefix ("/-/" +:+ (n +:+ "/-")) "/-/" = false) in Hp. by rewrite prefix_app in Hp.
Qed.

Lemma Cut_tarball_inv p n rest :
  Cut p "/-/" = Some (n, rest) → p = n +:+ "/-/" +:+ rest ∧ Cut (n +:+ "/-") "/-/" = None.
Proof.
  intros H. pose proof (Cut_spec _ _ _ _ H) as ->. split; [done|].
  revert rest H. induction n as [|c n IH]; intros rest H; [done|]. rewrite sapp_cons in H |- *. cbn [Cut] in H |- *.
  destruct (HasPrefix (String c (n +:+ "/-/" +:+ rest)) "/-/") eqn:E; [done|].
  destruct (Cut (n +:+ "/-/" +:+ rest) "/-/") as [[a b]|] eqn:E2; [|done]. injection H as -> ->.
  rewrite (IH _ E2).
  destruct (HasPrefix (String c (n +:+ "/-")) "/-/") eqn:E3; [|done]. apply prefix_inv in E3 as [t E3].
  assert (String c (n +:+ "/-/" +:+ rest) = "/-/" +:+ (t +:+ "/" +:+ rest)) as Heq.
  { change (String c (n +:+ "/-/" +:+ rest)) with (String c n +:+ "/-/" +:+ rest).
    change (String c (n +:+ "/-")) with (String c n +:+ "/-") in E3.
    change "/-/" with ("/-" +:+ "/") at 1. rewrite sapp_assoc, <-sapp_assoc, E3. by rewrite sapp_assoc. }
  rewrite Heq, prefix_app in E. done.
Qed.

Lemma CutSuffix_spec s suffix t : CutSuffix s suffix = Some t ↔ s = t +:+ suffix.
Proof.
  split; [|intros ->; apply CutSuffix_app]. unfold CutSuffix. case_decide as H; [|done]. intros [= <-].
  rewrite <-H at 2. unfold drop_str. remember (String.length s - String.length suffix)%nat as n eqn:Hn.
  assert (n ≤ String.length s)%nat as Hle by lia. clear -Hle. revert n Hle.
  induction s as [|c s IH]; intros [|n] Hle; simpl in *; try done; try lia.
  - change (EmptyString +:+ String c (String.substring 0 (String.length s) s)) with (String c (String.substring 0 (String.length s) s)).
    f_equal. specialize (IH 0%nat ltac:(lia)). rewrite Nat.sub_0_r in IH.
    replace (String.substring 0 0 s) with "" in IH by (by destruct s). exact IH.
  - rewrite sapp_cons. f_equal. apply IH. lia.
Qed.

Lemma HasPrefix_cut s p : HasPrefix s p = true ↔ ∃ t, s = p +:+ t.
Proof. split; [apply prefix_inv|]. intros [t ->]. apply prefix_app. Qed.

Lemma TrimPrefix_app p s : TrimPrefix (p +:+ s) p = s.
Proof. unfold TrimPrefix. by rewrite prefix_app, drop_app. Qed.

Lemma Cut_slash_app a b : free_of (λ c, bool_decide (c = "/"%char)) a → Cut (a +:+ "/" +:+ b) "/" = Some (a, b).
Proof.
  induction a as [|c a IH]; intros H.
  - change ("" +:+ "/" +:+ b) with (String "/" b). cbn [Cut]. rewrite HasPrefix_char, bool_decide_true by done.
    change (String "/" b) with ("/" +:+ b). by rewrite (drop_app "/").
  - destruct H as [Hc H]. rewrite sapp_cons. cbn [Cut]. rewrite HasPrefix_char.
    apply bool_decide_eq_false in Hc. rewrite bool_decide_false by congruence. by rewrite IH.
Qed.

(** OCI paths split without loss. *)
Lemma parse_marked_spec marker path repo reference :
  parse_marked marker path = Some (repo, reference) →
  path = repo +:+ marker +:+ reference ∧ repo ≠ "" ∧ reference ≠ "".
Proof.
  unfold parse_marked. destruct (CutLast path marker) as [[a b]|] eqn:E; [|done].
  case_decide as H; [done|]. intros [= <- <-]. apply CutLast_spec in E as ->. naive_solver.
Qed.

Lemma splitRepo_spec repo namespace name :
  splitRepo repo = (namespace, name) →
  (repo = name ∧ namespace = "" ∨ repo = namespace +:+ "/" +:+ name) ∧
  free_of (λ c, bool_decide (c = "/"%char)) name.
Proof.
  unfold splitRepo. destruct (CutLast repo "/") as [[a b]|] eqn:E; intros [= <- <-].
  - pose proof (CutLast_spec _ _ _ _ E) as ->. split; [by right|]. by eapply (CutLast_char_inv "/"%char).
  - split; [by left|]. by apply (CutLast_char_None "/"%char).
Qed.

(** ** Properties *)

(** A tarball path names what is fetched.  [parseTarballPath] accepts exactly
    the paths that [tarballFilename] builds from the name and version it returns,
    for a non-empty version and a name without a path separator of tarballs in
    it, so the file requested upstream is the path the client asked for. *)
Theorem parseTarballPath_exact path name version :
  parseTarballPath path = Some (name, version) ↔
  path = tarballFilename name version ∧ version ≠ "" ∧ Cut (name +:+ "/-") "/-/" = None.
Proof.
  unfold parseTarballPath, tarballFilename. split.
  - destruct (Cut path "/-/") as [[n f]|] eqn:E; [|done]. apply Cut_tarball_inv in E as [-> Hn].
    destruct (CutSuffix f ".tgz") as [g|] eqn:Eg; [|done]. apply CutSuffix_spec in Eg as ->.
    destruct (HasPrefix g (basename n +:+ "-")) eqn:Ep; [|done]. simpl.
    apply prefix_inv in Ep as [t ->]. rewrite drop_app. case_decide; [done|]. intros [= -> ->].
    split; [by rewrite !sapp_assoc|done].
  - intros (-> & Hv & Hn). rewrite Cut_tarball by done.
    replace (basename name +:+ "-" +:+ version +:+ ".tgz") with (((basename name +:+ "-") +:+ version) +:+ ".tgz")
      by (by rewrite !sapp_assoc).
    rewrite CutSuffix_app, prefix_app. simpl. rewrite drop_app. by rewrite decide_False.
Qed.

(** The URLs put into rewritten npm metadata come back to the tenant and
    upstream they were made for: routing the proxy base path of a tenant and
    upstream, followed by a package path, selects that tenant and upstream and
    leaves the package path under [/npm/], whatever tenant the request's own
    header names.  Without an upstream in the path, the package path must not
    itself start with [u/]. *)
Theorem NPMTenantFromPath_roundtrip tenantID upstreamID rest header pinned :
  tenantID ≠ "" → free_of (λ c, bool_decide (c = "/"%char)) tenantID →
  free_of (λ c, bool_decide (c = "/"%char)) upstreamID →
  (upstreamID = "" → HasPrefix rest "u/" = false) →
  NPMTenantFromPath (mkRouted (npmProxyBasePath tenantID upstreamID +:+ rest) header pinned) =
    mkRouted ("/npm/" +:+ rest) tenantID (if decide (upstreamID = "") then pinned else upstreamID).
Proof.
  intros Ht Hts Hus Hrest. unfold NPMTenantFromPath, tenantFromPath, npmProxyBasePath. simpl rt_Path.
  rewrite !sapp_assoc, prefix_app, TrimPrefix_app. simpl. unfold parseNPMTenantPath.
  rewrite Cut_slash_app by done. rewrite decide_False by done. simpl.
  destruct (decide (upstreamID = "")) as [->|Hu].
  - change ("" +:+ rest) with rest. rewrite Hrest by done. by rewrite decide_True.
  - rewrite !sapp_assoc, prefix_app, TrimPrefix_app, Cut_slash_app by done.
    rewrite decide_False by done. by rewrite decide_False.
Qed.

Lemma NPMTenantFromPath_roundtrip_witness :
  NPMTenantFromPath (mkRouted "/npm/t/t1/u/up-1/@s/p/-/p-1.0.0.tgz" "other" "") =
    mkRouted "/npm/@s/p/-/p-1.0.0.tgz" "t1" "up-1".
Proof.
  apply (NPMTenantFromPath_roundtrip "t1" "up-1" "@s/p/-/p-1.0.0.tgz" "other" "");
    [discriminate|repeat split|repeat split|discriminate].
Defined.
