(* ===== verification/Floats.v ===== *)
(** * float64

    Go's [float64] as IEEE-754 binary64, through the standard library's
    [spec_float] (NaN, infinities and signed zeros included): comparison,
    addition, division, conversion from integers, [math.Floor] to an integer
    and the [%.1f] verb. *)

From S2P Require Import Prelude GoStrings.
From Corelib Require Import SpecFloat.

(** ** Definitions *)

Notation float64 := spec_float.

#[export] Instance float64_eq_dec : EqDecision float64.
Proof. solve_decision. Defined.

Definition f64_of_Z (z : Z) : float64 := binary_normalize 53 1024 z 0 false.
Definition f64_ltb (x y : float64) : bool := SFltb x y.
Definition f64_leb (x y : float64) : bool := SFleb x y.
Definition f64_add (x y : float64) : float64 := SFadd 53 1024 x y.
Definition f64_div (x y : float64) : float64 := SFdiv 53 1024 x y.

(** Go's [a < b], [a > b], [a >= b] on floats; all false when one is NaN. *)
Definition f64_gtb (x y : float64) : bool := f64_ltb y x.
Definition f64_geb (x y : float64) : bool := f64_leb y x.

(** The decimal literal [n/10] of the source, correctly rounded. *)
Definition f64_tenths (n : Z) : float64 := f64_div (f64_of_Z n) (f64_of_Z 10).

(** [int(math.Floor(x))] for a finite [x]; Go leaves other inputs unspecified,
    and the code never applies it to them. *)
Definition f64_floor (x : float64) : Z :=
  match x with
  | S754_finite s m e =>
      let v := if s then Z.neg m else Z.pos m in
      if 0 <=? e then v * 2 ^ e else v / 2 ^ (- e)
  | _ => 0
  end.

(** Round half to even of the rational [n/d], [0 <= n], [0 < d]. *)
Definition round_half_even (n d : Z) : Z :=
  let q := n / d in
  match Z.compare (2 * (n mod d)) d with
  | Lt => q
  | Gt => q + 1
  | Eq => if Z.even q then q else q + 1
  end.

(** [fmt.Sprintf("%.1f", x)]: the exact value rounded half to even to one
    decimal. *)
Definition format_f1 (x : float64) : string :=
  match x with
  | S754_nan => "NaN"
  | S754_infinity s => if s then "-Inf" else "+Inf"
  | S754_zero s => if s then "-0.0" else "0.0"
  | S754_finite s m e =>
      let tenths := if 0 <=? e then 10 * Z.pos m * 2 ^ e
                    else round_half_even (10 * Z.pos m) (2 ^ (- e)) in
      (if s then "-" else "") +:+ itoa (tenths / 10) +:+ "." +:+ itoa (tenths mod 10)
  end.

Example f64_cmp_ex : f64_geb (f64_tenths 98) (f64_of_Z 9) = true.
Proof. vm_compute. reflexivity. Qed.
Example format_f1_ex : format_f1 (f64_tenths 75) = "7.5" ∧ format_f1 (f64_of_Z 10) = "10.0".
Proof. vm_compute. split; reflexivity. Qed.
Example format_f1_half : format_f1 (f64_div (f64_of_Z 1) (f64_of_Z 4)) = "0.2".
Proof. vm_compute. reflexivity. Qed.

Arguments f64_of_Z : simpl never.
Arguments f64_ltb : simpl never.
Arguments f64_gtb : simpl never.
Arguments f64_geb : simpl never.
Arguments f64_leb : simpl never.
Arguments format_f1 : simpl never.

(** ** Lemmas *)

Lemma SFcompare_antisym x y : SFcompare y x = CompOpp <$> SFcompare x y.
Proof.
  destruct x as [sx|sx| |sx mx ex], y as [sy|sy| |sy my ey]; try destruct sx; try destruct sy; try done;
    simpl; rewrite (Z.compare_antisym ex ey); destruct (ex ?= ey)%Z; simpl; try done;
    change (Pos.compare_cont Eq ?a ?b) with (a ?= b)%positive;
    rewrite (Pos.compare_antisym mx my); by destruct (mx ?= my)%positive.
Qed.

(** No float is both below and above another. *)
Lemma f64_ltb_gtb x y : f64_ltb x y = true → f64_gtb x y = false.
Proof.
  unfold f64_gtb, f64_ltb, SFltb. rewrite (SFcompare_antisym x y).
  by destruct (SFcompare x y) as [[]|].
Qed.

(** On comparable floats [x < y] is the negation of [x >= y]; when one of them
    is NaN both tests fail. *)
Lemma f64_ltb_geb x y : f64_ltb x y = true → f64_geb x y = false.
Proof.
  unfold f64_geb, f64_ltb, f64_leb, SFltb, SFleb. rewrite (SFcompare_antisym x y).
  by destruct (SFcompare x y) as [[]|].
Qed.

Lemma f64_ltb_irrefl x : f64_ltb x x = false.
Proof.
  destruct (f64_ltb x x) eqn:E; [|done]. pose proof (f64_ltb_gtb x x E) as H.
  unfold f64_gtb in H. congruence.
Qed.
