(* ===== verification/Sha256.v ===== *)
(** * SHA-256

    [crypto/sha256.Sum256] followed by [encoding/hex.EncodeToString], which the
    program uses for context hashes, policy-set hashes and graph hashes
    (FIPS 180-4, on 32-bit words written as [N]). *)

From S2P Require Import Prelude GoStrings.
From Stdlib Require Import NArith Ascii.
Local Open Scope N_scope.

(** ** Definitions *)

Definition w32 (x : N) : N := N.land x 4294967295.
Definition add32 (x y : N) : N := w32 (x + y).
Definition rotr (x : N) (n : N) : N :=
  N.lor (N.shiftr x n) (w32 (N.shiftl x (32 - n))).
Definition not32 (x : N) : N := N.lxor x 4294967295.

(** The first 64 primes; the round constants are the first 32 bits of the
    fractional parts of their cube roots, the initial state those of the square
    roots of the first eight. *)
Definition is_prime (n : N) : bool :=
  (2 <=? n) && forallb (λ d, negb (n mod N.of_nat d =? 0)) (seq 2 (N.to_nat n - 2)).

Definition primes64 : list N := List.filter is_prime (N.of_nat <$> seq 2 310).

(** Greatest [r < 2^bits] (above the bits already in [r]) with [r^3 <= n]. *)
Fixpoint cube_root (bits : nat) (r n : N) : N :=
  match bits with
  | O => r
  | S bits =>
      let r' := r + N.shiftl 1 (N.of_nat bits) in
      cube_root bits (if r' * r' * r' <=? n then r' else r) n
  end.

Definition sha_k : list N :=
  Eval vm_compute in (λ p, w32 (cube_root 40 0 (N.shiftl p 96))) <$> primes64.

Definition sha_h0 : list N :=
  Eval vm_compute in (λ p, w32 (N.sqrt (N.shiftl p 64))) <$> take 8 primes64.

Fixpoint bytes_of (s : string) : list N :=
  match s with EmptyString => [] | String c s => N_of_ascii c :: bytes_of s end.

Fixpoint be_bytes (n : nat) (x : N) : list N :=
  match n with O => [] | S n => be_bytes n (N.shiftr x 8) ++ [N.land x 255] end.

(** 0x80, zeros up to 56 mod 64, and the bit length on 8 bytes. *)
Definition sha_pad (m : list N) : list N :=
  let len := length m in
  let zeros := ((119 - (len mod 64)) mod 64)%nat in
  m ++ [128] ++ replicate zeros 0 ++ be_bytes 8 (8 * N.of_nat len).

Fixpoint words (l : list N) : list N :=
  match l with
  | a :: b :: c :: d :: l =>
      (N.shiftl a 24 + N.shiftl b 16 + N.shiftl c 8 + d) :: words l
  | _ => []
  end.

Fixpoint chunks (fuel : nat) (l : list N) : list (list N) :=
  match fuel with
  | O => []
  | S fuel => match l with [] => [] | _ => take 16 l :: chunks fuel (drop 16 l) end
  end.

(** The message schedule, kept newest first. *)
Fixpoint schedule (n : nat) (w : list N) : list N :=
  match n with
  | O => w
  | S n =>
      let x i := nth i w 0 in
      let s0 := N.lxor (N.lxor (rotr (x 14%nat) 7) (rotr (x 14%nat) 18)) (N.shiftr (x 14%nat) 3) in
      let s1 := N.lxor (N.lxor (rotr (x 1%nat) 17) (rotr (x 1%nat) 19)) (N.shiftr (x 1%nat) 10) in
      schedule n (add32 (add32 (x 15%nat) s0) (add32 (x 6%nat) s1) :: w)
  end.

Definition sha_round (st : list N) (kw : N * N) : list N :=
  match st with
  | [a; b; c; d; e; f; g; h] =>
      let s1 := N.lxor (N.lxor (rotr e 6) (rotr e 11)) (rotr e 25) in
      let ch := N.lxor (N.land e f) (N.land (not32 e) g) in
      let t1 := add32 (add32 h s1) (add32 ch (add32 kw.1 kw.2)) in
      let s0 := N.lxor (N.lxor (rotr a 2) (rotr a 13)) (rotr a 22) in
      let maj := N.lxor (N.lxor (N.land a b) (N.land a c)) (N.land b c) in
      [add32 t1 (add32 s0 maj); a; b; c; add32 d t1; e; f; g]
  | _ => st
  end.

Definition sha_block (h : list N) (blk : list N) : list N :=
  let w := rev (schedule 48 (rev blk)) in
  zip_with add32 h (fold_left sha_round (combine sha_k w) h).

Definition sha256 (s : string) : list N :=
  let w := words (sha_pad (bytes_of s)) in
  fold_left sha_block (chunks (length w) w) sha_h0.

Definition hex_word (x : N) : string :=
  fold_right (λ b acc, hex_byte (ascii_of_N b) +:+ acc) "" (be_bytes 4 x).

(** hex.EncodeToString(sha256.Sum256([]byte(s))[:]) *)
Definition sha256_hex (s : string) : string :=
  fold_right (λ w acc, hex_word w +:+ acc) "" (sha256 s).

Arguments sha256_hex : simpl never.

(** The FIPS 180-4 test vectors. *)
Example sha256_abc :
  sha256_hex "abc" = "ba7816bf8f01cfea414140de5dae2223b00361a396177a9cb410ff61f20015ad".
Proof. vm_compute. reflexivity. Qed.
Example sha256_empty :
  sha256_hex "" = "e3b0c44298fc1c149afbf4c8996fb92427ae41e4649b934ca495991b7852b855".
Proof. vm_compute. reflexivity. Qed.
Example sha256_two_blocks :
  sha256_hex "abcdbcdecdefdefgefghfghighijhijkijkljklmklmnlmnomnopnopq"
  = "248d6a61d20638b8e5c026930c3e6039a33ce45964ff2167f6ecedd419db06c1".
Proof. vm_compute. reflexivity. Qed.

(** ** Lemmas *)

(** A digest is never empty. *)
Lemma hex_nonempty (l : list N) :
  l ≠ [] → fold_right (λ w acc, hex_word w +:+ acc) "" l ≠ "".
Proof. destruct l as [|w l]; [done|]. intros _. done. Qed.

Lemma sha_round_length st kw :
  List.length st = 8%nat → List.length (sha_round st kw) = 8%nat.
Proof.
  intros H. unfold sha_round.
  destruct st as [|a [|b [|c [|d [|e [|f [|g [|h [|i st]]]]]]]]]; try discriminate H.
  reflexivity.
Qed.

Lemma sha_rounds_length ws st :
  List.length st = 8%nat → List.length (fold_left sha_round ws st) = 8%nat.
Proof.
  revert st. induction ws as [|w ws IH]; intros st Hst; [exact Hst|].
  cbn [fold_left]. apply IH. by apply sha_round_length.
Qed.

Lemma sha_block_length h b :
  List.length h = 8%nat → List.length (sha_block h b) = 8%nat.
Proof.
  intros Hh. unfold sha_block. rewrite length_zip_with, sha_rounds_length, Hh; done.
Qed.

Lemma sha256_length s : List.length (sha256 s) = 8%nat.
Proof.
  unfold sha256.
  assert (∀ cs h, List.length h = 8%nat → List.length (fold_left sha_block cs h) = 8%nat) as H.
  { induction cs as [|c cs IH]; intros h Hh; [exact Hh|].
    cbn [fold_left]. apply IH. by apply sha_block_length. }
  by apply H.
Qed.

Lemma sha256_hex_nonempty s : sha256_hex s ≠ "".
Proof. apply hex_nonempty. intros E. pose proof (sha256_length s) as H. by rewrite E in H. Qed.
