(* ===== verification/Json.v ===== *)
(** * encoding/json

    The part of [json.Marshal] the program relies on: documents built from
    structs, maps, slices, strings, integers, booleans and floats, encoded
    compactly with HTML-safe string escaping.  Floats are written with the
    shortest decimal that reads back to the same binary64 value. *)

From S2P Require Import Prelude GoStrings Floats.
From Corelib Require Import SpecFloat.
#[local] Open Scope list_scope.

(** ** Definitions *)

Inductive json : Type :=
| JNull
| JBool (b : bool)
| JInt (z : Z)
| JFloat (f : float64)
| JString (s : string)
| JArray (l : list json)
| JObject (fields : list (string * json)).

(** *** Strings *)

Definition in_range (lo hi : nat) (c : ascii) : bool :=
  ((lo <=? byte_of c) && (byte_of c <=? hi))%nat.
Definition continuation (c : ascii) : bool := in_range 128 191 c.

(** The well-formed multi-byte sequences of [utf8.DecodeRune]. *)
Definition utf8_pair (a b : ascii) : bool := in_range 194 223 a && continuation b.
Definition utf8_triple (a b c : ascii) : bool :=
  continuation c &&
  ((in_range 224 224 a && in_range 160 191 b) || (in_range 225 236 a && continuation b) ||
   (in_range 237 237 a && in_range 128 159 b) || (in_range 238 239 a && continuation b)).
Definition utf8_quad (a b c d : ascii) : bool :=
  continuation c && continuation d &&
  ((in_range 240 240 a && in_range 144 191 b) || (in_range 241 243 a && continuation b) ||
   (in_range 244 244 a && in_range 128 143 b)).

Definition backslash : string := String (Ascii.ascii_of_nat 92) "".
Definition bad_rune : string := backslash +:+ "ufffd".

(** One ASCII byte: quotes, backslashes, control characters and the HTML
    characters are escaped. *)
Definition json_char (c : ascii) : string :=
  let n := byte_of c in
  if decide (n = 34 ∨ n = 92)%nat then backslash +:+ String c ""
  else if decide (n = 8%nat) then backslash +:+ "b"
  else if decide (n = 12%nat) then backslash +:+ "f"
  else if decide (n = 10%nat) then backslash +:+ "n"
  else if decide (n = 13%nat) then backslash +:+ "r"
  else if decide (n = 9%nat) then backslash +:+ "t"
  else if decide (n < 32 ∨ n = 60 ∨ n = 62 ∨ n = 38)%nat then backslash +:+ "u00" +:+ hex_byte c
  else String c "".

(** U+2028 and U+2029 are the three bytes E2 80 A8 and E2 80 A9. *)
Definition json_triple (a b c : ascii) : string :=
  if decide (byte_of a = 226 ∧ byte_of b = 128 ∧ byte_of c = 168)%nat then backslash +:+ "u2028"
  else if decide (byte_of a = 226 ∧ byte_of b = 128 ∧ byte_of c = 169)%nat then backslash +:+ "u2029"
  else String a (String b (String c "")).

Fixpoint json_body (s : string) : string :=
  match s with
  | EmptyString => ""
  | String a s1 =>
      if (byte_of a <? 128)%nat then json_char a +:+ json_body s1
      else match s1 with
      | String b s2 =>
          if utf8_pair a b then String a (String b (json_body s2))
          else match s2 with
          | String c s3 =>
              if utf8_triple a b c then json_triple a b c +:+ json_body s3
              else match s3 with
              | String d s4 =>
                  if utf8_quad a b c d then String a (String b (String c (String d (json_body s4))))
                  else bad_rune +:+ json_body s1
              | EmptyString => bad_rune +:+ json_body s1
              end
          | EmptyString => bad_rune +:+ json_body s1
          end
      | EmptyString => bad_rune
      end
  end.

Definition dquote : string := String (Ascii.ascii_of_nat 34) "".
Definition json_string (s : string) : string := dquote +:+ json_body s +:+ dquote.

(** *** Floats *)

(** The binary64 value nearest to [n/d], for positive [n] and [d]. *)
Definition f64_of_ratio (n d : positive) : float64 :=
  let '(m, e, l) := SFdiv_core_binary 53 1024 (Z.pos n) 0 (Z.pos d) 0 in
  binary_round_aux 53 1024 false m e l.

(** A positive finite value as a ratio. *)
Definition ratio_of (m : positive) (e : Z) : Z * Z :=
  if 0 <=? e then (Z.pos m * 2 ^ e, 1) else (Z.pos m, 2 ^ (- e)).

(** [10 ^ k] as a ratio. *)
Definition pow10 (k : Z) : Z * Z := if 0 <=? k then (10 ^ k, 1) else (1, 10 ^ (- k)).

(** The number of digits before the decimal point of [n/d] (zero or negative
    below one): the [p] with [10^(p-1) <= n/d < 10^p], searched upwards. *)
Fixpoint decimal_point (fuel : nat) (p n d : Z) : Z :=
  match fuel with
  | O => p
  | S fuel =>
      let '(a, b) := pow10 p in
      if n * b <? a * d then p else decimal_point fuel (p + 1) n d
  end.

(** [digits] decimal digits of [n/d], rounded half to even, as the integer [D]
    and the exponent [k] of [D * 10^k]. *)
Definition round_digits (digits p n d : Z) : Z * Z :=
  let k := p - digits in
  let '(a, b) := pow10 k in
  (round_half_even (n * b) (d * a), k).

Fixpoint shortest (fuel : nat) (digits p n d : Z) (x : float64) : Z * Z :=
  let '(D, k) := round_digits digits p n d in
  match fuel with
  | O => (D, k)
  | S fuel =>
      let '(a, b) := pow10 k in
      if decide (f64_of_ratio (Z.to_pos (D * a)) (Z.to_pos b) = x) then (D, k)
      else shortest fuel (digits + 1) p n d x
  end.

Fixpoint repeat_char (c : ascii) (n : nat) : string :=
  match n with O => "" | S n => String c (repeat_char c n) end.

Definition take_string (n : nat) (s : string) : string := String.substring 0 n s.
Definition drop_string (n : nat) (s : string) : string :=
  String.substring n (String.length s - n) s.

Fixpoint strip_zeros (fuel : nat) (D k : Z) : Z * Z :=
  match fuel with
  | O => (D, k)
  | S fuel => if decide (D mod 10 = 0) then strip_zeros fuel (D / 10) (k + 1) else (D, k)
  end.

(** [%f] layout of [D * 10^k] with [D]'s decimal digits [s]. *)
Definition fixed_layout (s : string) (k : Z) : string :=
  let len := Z.of_nat (String.length s) in
  if 0 <=? k then s +:+ repeat_char "0" (Z.to_nat k)
  else if 0 <? len + k then take_string (Z.to_nat (len + k)) s +:+ "." +:+ drop_string (Z.to_nat (len + k)) s
  else "0." +:+ repeat_char "0" (Z.to_nat (- (len + k))) +:+ s.

(** [%e] layout, after the encoder's clean-up of [e-0x] to [e-x]; the other
    exponents it prints have two digits or more. *)
Definition exponent_layout (s : string) (k : Z) : string :=
  let e := Z.of_nat (String.length s) + k - 1 in
  let mantissa := if decide (String.length s = 1%nat) then s
                  else take_string 1 s +:+ "." +:+ drop_string 1 s in
  mantissa +:+ "e" +:+ (if e <? 0 then "-" else "+") +:+ itoa (Z.abs e).

Definition json_float (x : float64) : option string :=
  match x with
  | S754_nan | S754_infinity _ => None
  | S754_zero s => Some (if s then "-0" else "0")
  | S754_finite s m e =>
      let x := S754_finite false m e in
      let '(n, d) := ratio_of m e in
      let p := decimal_point 700 (-330) n d in
      let '(D, k) := shortest 17 1 p n d x in
      let '(D, k) := strip_zeros 20 D k in
      let body :=
        if f64_ltb x (f64_of_ratio 1 1000000) || f64_geb x (f64_of_Z (10 ^ 21))
        then exponent_layout (itoa D) k else fixed_layout (itoa D) k in
      Some ((if s then "-" else "") +:+ body)
  end.

(** *** Documents *)

(** [UnsupportedValueError] *)
Definition unsupported_float (f : float64) : error :=
  new_error ("json: unsupported value: " +:+ format_f1 f).

Definition brackets (l r : string) (parts : list string) : string := l +:+ Join "," parts +:+ r.

Fixpoint json_Marshal (j : json) : result string :=
  match j with
  | JNull => Ok "null"
  | JBool b => Ok (if b then "true" else "false")
  | JInt z => Ok (itoa z)
  | JFloat f => match json_float f with Some s => Ok s | None => Err (unsupported_float f) end
  | JString s => Ok (json_string s)
  | JArray l => parts ← map_result json_Marshal l; Ok (brackets "[" "]" parts)
  | JObject fields =>
      parts ← map_result (λ kv, let '(k, v) := kv in
                 body ← json_Marshal v; Ok (json_string k +:+ ":" +:+ body)) fields;
      Ok (brackets "{" "}" parts)
  end.

(** A struct field, and one tagged [omitempty] that is dropped when empty. *)
Definition field (k : string) (j : json) : list (string * json) := [(k, j)].
Definition omit_if (empty : bool) (k : string) (j : json) : list (string * json) :=
  if empty then [] else [(k, j)].
Definition omit_string (k v : string) := omit_if (bool_decide (v = "")) k (JString v).
Definition omit_bool (k : string) (b : bool) := omit_if (negb b) k (JBool b).
Definition omit_strings (k : string) (l : list string) :=
  omit_if (bool_decide (l = [])) k (JArray (JString <$> l)).
Definition omit_option {A} (k : string) (f : A → json) (o : option A) :=
  match o with None => [] | Some a => [(k, f a)] end.

(** A slice without elements is nil, as the program builds it, and shows as [null]. *)
Definition slice_json {A} (f : A → json) (l : list A) : json :=
  match l with [] => JNull | _ => JArray (f <$> l) end.

(** A Go map is encoded with its keys in byte order. *)
Definition json_map {A} (f : A → json) (m : gmap string A) : json :=
  JObject ((λ kv, (kv.1, f kv.2)) <$> sort_by (λ a b, str_ltb a.1 b.1) (map_to_list m)).

Example json_float_ex :
  json_float (f64_tenths 75) = Some "7.5" ∧ json_float (f64_of_Z 10) = Some "10" ∧
  json_float (f64_div (f64_of_Z 1) (f64_of_Z 3)) = Some "0.3333333333333333" ∧
  json_float (f64_of_ratio 1 10000000) = Some "1e-7" ∧
  json_float (f64_of_Z (10 ^ 22)) = Some "1e+22" ∧ json_float (f64_tenths 1) = Some "0.1".
Proof. vm_compute. repeat split. Qed.

Example json_Marshal_ex :
  json_Marshal (JObject [("a", JArray [JInt 1; JNull]); ("b<", JString "x&y")])
  = Ok ("{" +:+ dquote +:+ "a" +:+ dquote +:+ ":[1,null]," +:+ dquote +:+ "b" +:+ backslash
        +:+ "u003c" +:+ dquote +:+ ":" +:+ dquote +:+ "x" +:+ backslash +:+ "u0026y" +:+ dquote +:+ "}").
Proof. vm_compute. reflexivity. Qed.
