(* ===== verification/JsonDecode.v ===== *)
(** * Decoding JSON into structs

    [encoding/json]'s [Decoder.Decode] with [DisallowUnknownFields] into the kinds
    of fields the program decodes, from a document ([Json.json]) into a value that
    may already hold something: a key matches a field by name, else without regard
    to (ASCII) case; a repeated key decodes over what is there; [null] empties a
    pointer, slice or map and leaves other kinds alone.  The first error is the
    result.  A number that is no integer literal is shown in an error in its
    canonical form. *)

From S2P Require Import Prelude GoStrings Floats Json.
#[local] Open Scope list_scope.

(** ** Definitions *)

(** The [Value] of an [UnmarshalTypeError]. *)
Definition json_kind (v : json) : string :=
  match v with
  | JNull => "null"
  | JBool _ => "bool"
  | JInt _ | JFloat _ => "number"
  | JString _ => "string"
  | JArray _ => "array"
  | JObject _ => "object"
  end.

Definition number_text (v : json) : string :=
  match json_Marshal v with Ok s => "number " +:+ s | Err _ => "number" end.

(** Where a value goes: a field of a struct, or the decoded value itself. *)
Definition into_field (struct name : string) : string := "Go struct field " +:+ struct +:+ "." +:+ name.
Definition into_value : string := "Go value".

Definition cannot_unmarshal (what place ty : string) : error :=
  new_error ("json: cannot unmarshal " +:+ what +:+ " into " +:+ place +:+ " of type " +:+ ty).

Definition dec_bool (place : string) (v : json) (old : bool) : result bool :=
  match v with
  | JNull => Ok old
  | JBool b => Ok b
  | _ => Err (cannot_unmarshal (json_kind v) place "bool")
  end.

Definition dec_string (place ty : string) (v : json) (old : string) : result string :=
  match v with
  | JNull => Ok old
  | JString s => Ok s
  | _ => Err (cannot_unmarshal (json_kind v) place ty)
  end.

Definition int64_ok (z : Z) : bool := (- 2 ^ 63 <=? z) && (z <? 2 ^ 63).

Definition dec_int (place : string) (v : json) (old : Z) : result Z :=
  match v with
  | JNull => Ok old
  | JInt z => if int64_ok z then Ok z else Err (cannot_unmarshal (number_text v) place "int")
  | JFloat _ => Err (cannot_unmarshal (number_text v) place "int")
  | _ => Err (cannot_unmarshal (json_kind v) place "int")
  end.

Definition dec_float (place : string) (v : json) (old : float64) : result float64 :=
  match v with
  | JNull => Ok old
  | JInt z => let f := f64_of_Z z in
              if json_float f then Ok f else Err (cannot_unmarshal (number_text v) place "float64")
  | JFloat f => if json_float f then Ok f else Err (cannot_unmarshal (number_text v) place "float64")
  | _ => Err (cannot_unmarshal (json_kind v) place "float64")
  end.

(** A pointer to a fresh or the present value. *)
Definition dec_pointer {A} (dec : json → A → result A) (zero : A) (v : json) (old : option A) : result (option A) :=
  match v with
  | JNull => Ok None
  | _ => Some <$> dec v (default zero old)
  end.

(** A slice: element [i] decodes over the present element [i]. *)
Fixpoint dec_elements {A} (dec : json → A → result A) (zero : A) (l : list json) (old : list A) : result (list A) :=
  match l with
  | [] => Ok []
  | v :: l => a ← dec v (default zero (head old)); rest ← dec_elements dec zero l (tail old); Ok (a :: rest)
  end.

Definition dec_slice {A} (place ty : string) (dec : json → A → result A) (zero : A) (v : json) (old : list A) : result (list A) :=
  match v with
  | JNull => Ok []
  | JArray l => dec_elements dec zero l old
  | _ => Err (cannot_unmarshal (json_kind v) place ty)
  end.

Fixpoint dec_entries {A} (dec : json → A → result A) (zero : A) (fields : list (string * json)) (old : gmap string A)
    : result (gmap string A) :=
  match fields with
  | [] => Ok old
  | (k, v) :: fields => a ← dec v zero; dec_entries dec zero fields (<[k := a]> old)
  end.

Definition dec_map {A} (place ty : string) (dec : json → A → result A) (zero : A) (v : json) (old : gmap string A)
    : result (gmap string A) :=
  match v with
  | JNull => Ok ∅
  | JObject fields => dec_entries dec zero fields old
  | _ => Err (cannot_unmarshal (json_kind v) place ty)
  end.

(** The fields of a struct with their decoders. *)
Definition fields (S : Type) : Type := list (string * (json → S → result S)).

Fixpoint by_exact {S} (key : string) (fs : fields S) : option (json → S → result S) :=
  match fs with [] => None | (k, d) :: fs => if decide (k = key) then Some d else by_exact key fs end.
Fixpoint by_folded {S} (key : string) (fs : fields S) : option (json → S → result S) :=
  match fs with [] => None | (k, d) :: fs => if decide (ToLower k = ToLower key) then Some d else by_folded key fs end.

Definition find_field {S} (key : string) (fs : fields S) : option (json → S → result S) :=
  match by_exact key fs with Some d => Some d | None => by_folded key fs end.

Fixpoint decode_fields {S} (fs : fields S) (kvs : list (string * json)) (s : S) : result S :=
  match kvs with
  | [] => Ok s
  | (k, v) :: kvs =>
      match find_field k fs with
      | None => Err (new_error ("json: unknown field " +:+ quote k))
      | Some d => s ← d v s; decode_fields fs kvs s
      end
  end.

Definition decode_struct {S} (ty : string) (fs : fields S) (v : json) (s : S) : result S :=
  match v with
  | JNull => Ok s
  | JObject kvs => decode_fields fs kvs s
  | _ => Err (cannot_unmarshal (json_kind v) into_value ty)
  end.

(** ** What is written is read *)

(** [reads v w]: [w] is how the text of [v] may read: the text of a float64 that
    happens to be an integer reads as an integer literal. *)
Inductive reads : json → json → Prop :=
| reads_same v : reads v v
| reads_integral f z : f64_of_Z z = f → reads (JFloat f) (JInt z)
| reads_array l l' : Forall2 reads l l' → reads (JArray l) (JArray l')
| reads_object l l' : Forall2 (λ a b, a.1 = b.1 ∧ reads a.2 b.2) l l' → reads (JObject l) (JObject l').

Definition reads_fields (l l' : list (string * json)) : Prop := Forall2 (λ a b, a.1 = b.1 ∧ reads a.2 b.2) l l'.

Lemma Forall2_reads_refl l : Forall2 reads l l.
Proof. induction l; constructor; [constructor|done]. Qed.
Lemma reads_fields_refl l : reads_fields l l.
Proof. induction l; constructor; [split; [done|constructor]|done]. Qed.

Lemma reads_bool b w : reads (JBool b) w → w = JBool b.
Proof. by inversion 1. Qed.
Lemma reads_string s w : reads (JString s) w → w = JString s.
Proof. by inversion 1. Qed.
Lemma reads_int z w : reads (JInt z) w → w = JInt z.
Proof. by inversion 1. Qed.
Lemma reads_object_inv l w : reads (JObject l) w → ∃ l', w = JObject l' ∧ reads_fields l l'.
Proof. inversion 1; subst; [exists l; split; [done|apply reads_fields_refl]|eauto]. Qed.
Lemma reads_strings l w : reads (JArray (JString <$> l)) w → w = JArray (JString <$> l).
Proof.
  inversion 1 as [| |? l' H'|]; subst; [done|]. f_equal.
  clear H. remember (JString <$> l) as m eqn:E. revert l E. induction H' as [|a b m m' Hab _ IH]; intros l E; [done|].
  destruct l as [|s l]; [done|]. injection E as -> ->. apply reads_string in Hab as ->. f_equal. by apply (IH l).
Qed.

Lemma reads_omit_if e k j l :
  reads_fields (omit_if e k j) l → e = true ∧ l = [] ∨ e = false ∧ ∃ w, l = [(k, w)] ∧ reads j w.
Proof.
  unfold omit_if. destruct e; intros H; [left|right].
  - by apply Forall2_nil_inv_l in H.
  - split; [done|]. inversion H as [|a [k' w] ? l' [E Hw] Hl]; subst. inversion Hl; subst. simpl in *. subst. eauto.
Qed.

(** A finite float64 survives both forms. *)
Lemma dec_float_reads place f w old :
  reads (JFloat f) w → is_Some (json_float f) → dec_float place w old = Ok f.
Proof.
  inversion 1 as [|? z E| |]; subst; intros [s Hs]; simpl; by rewrite Hs.
Qed.

Lemma dec_strings place ty l old :
  dec_slice place ("[]" +:+ ty) (dec_string place ty) "" (JArray (JString <$> l)) old = Ok l.
Proof. simpl. induction l as [|s l IH] in old |- *; csimpl; [done|]. by rewrite IH. Qed.

(** *** Fields that may be left out *)

Section omitted.
Context {S : Type} (fs : fields S).

Lemma decode_fields_app l l' s : decode_fields fs (l ++ l') s = (s' ← decode_fields fs l s; decode_fields fs l' s').
Proof.
  induction l as [|[k v] l IH] in s |- *; [done|]. cbn [decode_fields app]. destruct (find_field k fs) as [d|]; [|done].
  destruct (d v s); [|done]. apply IH.
Qed.

Lemma decode_one k v s d : find_field k fs = Some d → decode_fields fs [(k, v)] s = d v s.
Proof. intros H. cbn [decode_fields]. rewrite H. by destruct (d v s). Qed.

(** A field that is left out when it is empty: nothing changes when it is, else
    its value is decoded. *)
Lemma decode_omit_if e k j l s s' d :
  reads_fields (omit_if e k j) l → find_field k fs = Some d →
  (e = true → s = s') → (e = false → ∀ w, reads j w → d w s = Ok s') → decode_fields fs l s = Ok s'.
Proof.
  intros [[He ->]|(He & w & -> & Hw)]%reads_omit_if Hd Ht Hf; [by rewrite (Ht He)|].
  rewrite (decode_one k _ _ d) by done. by apply Hf.
Qed.

Lemma decode_omit_option {A} (f : A → json) o k l s s' d :
  reads_fields (omit_option k f o) l → find_field k fs = Some d →
  (o = None → s = s') → (∀ a, o = Some a → ∀ w, reads (f a) w → d w s = Ok s') → decode_fields fs l s = Ok s'.
Proof.
  intros Hl Hd Hn Hs. destruct o as [a|]; simpl in Hl.
  - apply (decode_omit_if false k (f a) l s s' d); [done|done|done|]. intros _. by apply Hs.
  - apply Forall2_nil_inv_l in Hl as ->. by rewrite (Hn eq_refl).
Qed.
End omitted.
