(* ===== verification/Artifact.v ===== *)
(** * Artifact identities

    [internal/core/domain/artifact.go] and [normalize.go]: the identity of a
    package or image, its normalisation, and the strings derived from it. *)

From S2P Require Import Prelude GoStrings.

(** ** Definitions *)

Abbreviation EcosystemType := string.
Definition EcosystemNPM : EcosystemType := "npm".
Definition EcosystemOCI : EcosystemType := "oci".

Record ArtifactIdentity : Type := mkArtifact {
  Ecosystem : EcosystemType;
  Namespace : string;
  Name : string;
  Version : string;
  Digest : string;
}.

#[export] Instance ArtifactIdentity_eq_dec : EqDecision ArtifactIdentity.
Proof. solve_decision. Defined.

#[export] Instance ArtifactIdentity_countable : Countable ArtifactIdentity.
Proof.
  refine (inj_countable'
    (λ a, (Ecosystem a, Namespace a, Name a, Version a, Digest a))
    (λ '(e, ns, n, v, d), mkArtifact e ns n v d) _). by intros [].
Defined.

Definition set_Name (n : string) (a : ArtifactIdentity) : ArtifactIdentity :=
  mkArtifact (Ecosystem a) (Namespace a) n (Version a) (Digest a).
Definition set_Namespace (ns : string) (a : ArtifactIdentity) : ArtifactIdentity :=
  mkArtifact (Ecosystem a) ns (Name a) (Version a) (Digest a).
Definition set_Version (v : string) (a : ArtifactIdentity) : ArtifactIdentity :=
  mkArtifact (Ecosystem a) (Namespace a) (Name a) v (Digest a).
Definition set_Digest (d : string) (a : ArtifactIdentity) : ArtifactIdentity :=
  mkArtifact (Ecosystem a) (Namespace a) (Name a) (Version a) d.

Definition normalizeOCI (a : ArtifactIdentity) : result ArtifactIdentity :=
  let a := set_Namespace (ToLower (TrimSlash (Namespace a))) a in
  let a := set_Name (ToLower (Name a)) a in
  if decide (Name a = "") then
    Err (sentinel_suffix ErrInvalidArtifactRef ": OCI artifact name is required")
  else
    let a := if HasPrefix (Version a) "sha256:" || HasPrefix (Version a) "sha512:"
             then set_Version "" (set_Digest (Version a) a) else a in
    let a := if decide (Version a = "" ∧ Digest a = "")
             then set_Version "latest" a else a in
    Ok a.

Definition normalizeNPM (a : ArtifactIdentity) : result ArtifactIdentity :=
  a ← (if HasPrefix (Name a) "@" then
         match SplitOnce "/"%char (Name a) with
         | None => Err (sentinel_suffix ErrInvalidArtifactRef
                          (": invalid scoped npm package " +:+ quote (Name a)))
         | Some (scope, rest) =>
             if decide (rest = "") then
               Err (sentinel_suffix ErrInvalidArtifactRef
                      (": invalid scoped npm package " +:+ quote (Name a)))
             else Ok (set_Name (ToLower rest) (set_Namespace (ToLower scope) a))
         end
       else Ok (set_Name (ToLower (Name a)) a));
  if decide (Name a = "") then
    Err (sentinel_suffix ErrInvalidArtifactRef ": npm package name is required")
  else if HasPrefix (Name a) "-" then
    Err (sentinel_suffix ErrInvalidArtifactRef
           (": npm package name " +:+ quote (Name a) +:+ " must not start with " +:+ quote "-"))
  else if HasPrefix (Version a) "-" then
    Err (sentinel_suffix ErrInvalidArtifactRef
           (": npm package version " +:+ quote (Version a) +:+ " must not start with " +:+ quote "-"))
  else Ok a.

Definition NormalizeArtifactIdentity (a : ArtifactIdentity) : result ArtifactIdentity :=
  if decide (Ecosystem a = EcosystemOCI) then normalizeOCI a
  else if decide (Ecosystem a = EcosystemNPM) then normalizeNPM a
  else Err (sentinel_suffix ErrInvalidArtifactRef
              (": unsupported ecosystem " +:+ quote (Ecosystem a))).

Definition FullName (a : ArtifactIdentity) : string :=
  if decide (Namespace a ≠ "") then Namespace a +:+ "/" +:+ Name a else Name a.

Definition CacheKey (a : ArtifactIdentity) : string :=
  Ecosystem a +:+ ":" +:+
  (if decide (Namespace a ≠ "") then Namespace a +:+ "/" else "") +:+
  Name a +:+
  (if decide (Digest a ≠ "") then "@" +:+ Digest a
   else if decide (Version a ≠ "") then ":" +:+ Version a else "").

Definition IsMutableReference (a : ArtifactIdentity) : bool :=
  bool_decide (Digest a = "") && bool_decide (Version a ≠ "").

Definition IsNPMDistTag (a : ArtifactIdentity) : bool :=
  if decide (Ecosystem a ≠ EcosystemNPM ∨ Version a = "") then false
  else match first_byte (Version a) with
       | Some first => ((byte_of first <? 48) || (57 <? byte_of first))%nat
       | None => false
       end.

(** [SourceRepository], [ProjectURI] and [DisplayName]. *)
Record SourceRepository : Type := mkSourceRepository {
  Host : string;
  Owner : string;
  Repo : string;
}.

Definition ProjectURI (r : SourceRepository) : string :=
  let host := TrimSpace (ToLower (Host r)) in
  let owner := TrimSpace (Owner r) in
  let repo := TrimSpace (Repo r) in
  if decide (host = "" ∨ owner = "" ∨ repo = "") then ""
  else host +:+ "/" +:+ owner +:+ "/" +:+ repo.

Definition DisplayName (r : SourceRepository) : string :=
  let owner := TrimSpace (Owner r) in
  let repo := TrimSpace (Repo r) in
  if decide (owner = "" ∨ repo = "") then "" else owner +:+ "/" +:+ repo.

(** The part of [CacheKey] after the full name. *)
Definition reference_suffix (a : ArtifactIdentity) : string :=
  if decide (Digest a ≠ "") then "@" +:+ Digest a
  else if decide (Version a ≠ "") then ":" +:+ Version a else "".

Definition is_colon (c : ascii) : bool := bool_decide (c = ":"%char).
Definition is_ref_sep (c : ascii) : bool := bool_decide (c = ":"%char ∨ c = "@"%char).

(** Identities whose cache key can be read back: the ecosystem has no colon and
    the full name has no colon or at-sign after its first byte (an npm scope
    starts with an at-sign). *)
Definition key_readable (a : ArtifactIdentity) : Prop :=
  free_of is_colon (Ecosystem a) ∧
  ∃ c t, FullName a = String c t ∧ free_of is_ref_sep t.

(** ** Lemmas *)

Lemma CacheKey_FullName a :
  CacheKey a = Ecosystem a +:+ ":" +:+ FullName a +:+ reference_suffix a.
Proof.
  unfold CacheKey, FullName, reference_suffix. do 2 f_equal.
  destruct (decide (Namespace a ≠ "")); by rewrite ?sapp_assoc.
Qed.

Lemma reference_suffix_sep a :
  match reference_suffix a with String c _ => is_ref_sep c = true | EmptyString => True end.
Proof. unfold reference_suffix. repeat case_decide; simpl; done. Qed.

Lemma not_dash_app s t : s ≠ "" → HasPrefix s "-" = false → HasPrefix (s +:+ t) "-" = false.
Proof.
  destruct s as [|c s]; [done|]. by rewrite sapp_cons, !HasPrefix_char.
Qed.

Lemma TrimSlash_ToLower s : TrimSlash (ToLower s) = ToLower (TrimSlash s).
Proof.
  unfold TrimSlash, trim_by, ToLower.
  rewrite trim_left_map, trim_right_map; try done;
    intros [[] [] [] [] [] [] [] []]; reflexivity.
Qed.

Lemma normalizeNPM_inv a a' :
  normalizeNPM a = Ok a' →
  Name a' ≠ "" ∧ HasPrefix (Name a') "-" = false ∧ HasPrefix (Version a') "-" = false ∧
  Version a' = Version a ∧ Ecosystem a' = Ecosystem a ∧ ToLower (Name a') = Name a' ∧
  Digest a' = Digest a ∧
  (Namespace a' = Namespace a ∨ ∃ s, Namespace a' = String "@"%char s).
Proof.
  unfold normalizeNPM. intros (b & Hb & H)%result_bind_ok. case_decide; [done|].
  destruct (HasPrefix (Name b) "-") eqn:E1; [done|].
  destruct (HasPrefix (Version b) "-") eqn:E2; [done|]. injection H as <-.
  destruct (HasPrefix (Name a) "@") eqn:E3.
  - destruct (SplitOnce "/"%char (Name a)) as [[s r]|] eqn:E4; [|done]. case_decide; [done|].
    simplify_eq/=. rewrite ToLower_idem. repeat split; try done. right.
    apply SplitOnce_spec in E4. apply prefix_inv in E3 as [t Ht]. rewrite Ht in E4.
    destruct s as [|c s]; [discriminate E4|]. injection E4 as <- _.
    exists (ToLower s). done.
  - simplify_eq/=. rewrite ToLower_idem. repeat split; try done. by left.
Qed.

(** ** Properties *)

(** An npm identity that normalisation accepts from an unscoped request can
    never be read as an option by the npm command line: the package argument
    [FullName()@Version] that the graph resolver builds does not start with a
    dash, and neither do its name and version parts. *)
Theorem normalizeNPM_no_option_injection a a' :
  Namespace a = "" →
  normalizeNPM a = Ok a' →
  HasPrefix (FullName a' +:+ "@" +:+ Version a') "-" = false ∧
  HasPrefix (Name a') "-" = false ∧ HasPrefix (Version a') "-" = false.
Proof.
  intros Hns H. apply normalizeNPM_inv in H as (Hn & H1 & H2 & _ & _ & _ & _ & Hsc).
  split; [|done]. unfold FullName.
  destruct Hsc as [Hsc|[s Hsc]]; rewrite Hsc.
  - rewrite Hns, decide_False by auto. by apply not_dash_app.
  - by rewrite decide_True by done.
Qed.

Definition left_pad : ArtifactIdentity := mkArtifact EcosystemNPM "" "@Scope/Left-Pad" "1.3.0" "".

Lemma normalizeNPM_no_option_injection_witness :
  HasPrefix "@scope/left-pad@1.3.0" "-" = false ∧
  HasPrefix "left-pad" "-" = false ∧ HasPrefix "1.3.0" "-" = false.
Proof.
  exact (normalizeNPM_no_option_injection left_pad
    (mkArtifact EcosystemNPM "@scope" "left-pad" "1.3.0" "") eq_refl eq_refl).
Defined.

(** Normalisation is a projection for OCI identities: normalising an
    accepted identity again gives the same identity, so the pipeline may
    normalise what a handler has already normalised. *)
Theorem normalizeOCI_idempotent a a' :
  normalizeOCI a = Ok a' → normalizeOCI a' = Ok a'.
Proof.
  unfold normalizeOCI. simpl. case_decide as Hn; [done|].
  rewrite ToLower_empty in Hn.
  destruct (HasPrefix (Version a) "sha256:" || HasPrefix (Version a) "sha512:") eqn:Hp; simpl.
  - assert (Version a ≠ "") by (intros E; by rewrite E in Hp).
    rewrite decide_False by (intros [_ ?]; done). intros [= <-]. simpl.
    rewrite TrimSlash_ToLower, !ToLower_idem. unfold TrimSlash. rewrite trim_by_idem.
    rewrite decide_False by (by rewrite ToLower_empty). simpl.
    by rewrite decide_False by (intros [_ ?]; done).
  - case_decide as Hv; simpl; intros [= <-]; simpl;
      rewrite TrimSlash_ToLower, !ToLower_idem; unfold TrimSlash; rewrite trim_by_idem;
      rewrite decide_False by (by rewrite ToLower_empty); simpl; [done|].
    rewrite Hp. simpl. by rewrite decide_False.
Qed.

Lemma normalizeOCI_idempotent_witness :
  normalizeOCI (mkArtifact EcosystemOCI "library" "nginx" "latest" "")
  = Ok (mkArtifact EcosystemOCI "library" "nginx" "latest" "").
Proof.
  exact (normalizeOCI_idempotent (mkArtifact EcosystemOCI "/Library/" "NGINX" "" "") _ eq_refl).
Defined.

(** Npm normalisation is idempotent exactly on the results whose name does
    not itself start with an at-sign: [@a/@b/c] is accepted as name [@b/c] and
    normalising it a second time re-scopes it. *)
Theorem normalizeNPM_idempotent_iff a a' :
  normalizeNPM a = Ok a' →
  (normalizeNPM a' = Ok a' ↔ HasPrefix (Name a') "@" = false).
Proof.
  intros H. apply normalizeNPM_inv in H as (Hn & H1 & H2 & _ & _ & Hl & _).
  unfold normalizeNPM. destruct (HasPrefix (Name a') "@") eqn:E.
  - split; [|done]. intros H. exfalso.
    destruct (SplitOnce "/"%char (Name a')) as [[s r]|] eqn:Es; [|done].
    apply SplitOnce_spec in Es.
    destruct (decide (r = "")) as [->|Hr]; [done|]. simpl in H.
    repeat case_decide; try done. simpl in *.
    destruct (HasPrefix (ToLower r) "-"); [done|]. destruct (HasPrefix (Version a') "-"); [done|].
    injection H as H. apply (f_equal Name) in H. simpl in H. rewrite Es in H.
    apply (f_equal String.length) in H.
    rewrite sapp_length, ToLower_length in H. simpl in H. lia.
  - split; [done|]. intros _. simpl. rewrite Hl, decide_False, H1, H2 by done.
    by destruct a'.
Qed.

Lemma normalizeNPM_idempotent_iff_witness :
  normalizeNPM (mkArtifact EcosystemNPM "@a" "@b/c" "1" "")
    = Ok (mkArtifact EcosystemNPM "@a" "@b/c" "1" "") ↔ HasPrefix "@b/c" "@" = false.
Proof.
  exact (normalizeNPM_idempotent_iff (mkArtifact EcosystemNPM "" "@a/@b/c" "1" "")
    (mkArtifact EcosystemNPM "@a" "@b/c" "1" "") eq_refl).
Defined.

(** Cache keys separate artifacts: two identities with readable keys and
    the same [CacheKey] have the same ecosystem, the same full name and the same
    reference (the digest when resolved, else the version). *)
Theorem CacheKey_inj a b :
  key_readable a → key_readable b → CacheKey a = CacheKey b →
  Ecosystem a = Ecosystem b ∧ FullName a = FullName b ∧
  reference_suffix a = reference_suffix b.
Proof.
  intros (He1 & c1 & t1 & Hf1 & Hr1) (He2 & c2 & t2 & Hf2 & Hr2).
  rewrite !CacheKey_FullName. intros E.
  apply (free_of_split is_colon) in E as [E1 E]; [|done..].
  injection E as E. rewrite Hf1, Hf2, !sapp_cons in E. injection E as -> E.
  apply (free_of_split is_ref_sep) in E as [-> E2];
    [|done|done|apply reference_suffix_sep|apply reference_suffix_sep].
  by rewrite Hf1, Hf2.
Qed.

Lemma CacheKey_inj_witness :
  let a := mkArtifact EcosystemOCI "library" "nginx" "latest" "sha256:ab" in
  let b := mkArtifact EcosystemOCI "library" "nginx" "1.27" "sha256:ab" in
  Ecosystem a = Ecosystem b ∧ FullName a = FullName b ∧ reference_suffix a = reference_suffix b.
Proof.
  apply CacheKey_inj; [| |reflexivity];
    (split; [vm_compute; tauto|]); eexists _, _; (split; [reflexivity|vm_compute; tauto]).
Defined.

(** Without the side condition keys can clash: a colon in the name is read as
    the start of the version. *)
Example CacheKey_collision :
  CacheKey (mkArtifact EcosystemNPM "" "a:1" "2" "") =
  CacheKey (mkArtifact EcosystemNPM "" "a" "1:2" "").
Proof. reflexivity. Qed.
