(* ===== verification/Dependency.v ===== *)
(** * Dependency graph evidence and policy targets

    [internal/core/domain/dependency_graph.go] (contexts, their hash and their
    canonical form) and [policy_target.go] (the target block of a policy). *)

From S2P Require Import Prelude GoStrings Sha256 Artifact.

(** ** Definitions *)

Definition DependencyGraphPending : string := "pending".
Definition DependencyGraphResolving : string := "resolving".
Definition DependencyGraphComplete : string := "complete".
Definition DependencyGraphFailed : string := "failed".

Abbreviation DependencyScope := string (only parsing).
Definition DependencyScopeDirect : DependencyScope := "direct".
Definition DependencyScopeTransitive : DependencyScope := "transitive".
Definition DependencyScopeUnknown : DependencyScope := "unknown".

Abbreviation DependencyType := string (only parsing).
Definition DependencyTypeProd : DependencyType := "prod".
Definition DependencyTypeDev : DependencyType := "dev".
Definition DependencyTypePeer : DependencyType := "peer".
Definition DependencyTypeOptional : DependencyType := "optional".

Record DependencyContext : Type := mkDependencyContext {
  Scope : DependencyScope;
  ctx_DependencyTypes : list DependencyType;
  GraphIDs : list string;
  ContextHash : string;
}.

#[export] Instance DependencyContext_eq_dec : EqDecision DependencyContext.
Proof. solve_decision. Defined.

Definition StableHash (c : DependencyContext) : string :=
  let types := sort_by str_ltb (ctx_DependencyTypes c) in
  let graphIDs := sort_by str_ltb (GraphIDs c) in
  sha256_hex (Join "|" [Scope c; Join "," types; Join "," graphIDs]).

Definition NewUnknownDependencyContext : DependencyContext :=
  let c := mkDependencyContext DependencyScopeUnknown [] [] "" in
  mkDependencyContext (Scope c) (ctx_DependencyTypes c) (GraphIDs c) (StableHash c).

(** The loop drops empty values and keeps first occurrences, then sorts. *)
Definition uniqueDependencyTypes (values : list DependencyType) : list DependencyType :=
  sort_by str_ltb (dedup_from id [] (filter (λ v, v ≠ "") values)).

Definition uniqueStrings (values : list string) : list string :=
  sort_by str_ltb (dedup_from id [] (filter (λ v, v ≠ "") (TrimSpace <$> values))).

Definition context_Normalize (c : DependencyContext) : DependencyContext :=
  let scope := if decide (Scope c = "") then DependencyScopeUnknown else Scope c in
  let types := uniqueDependencyTypes (ctx_DependencyTypes c) in
  let ids := uniqueStrings (GraphIDs c) in
  let c' := mkDependencyContext scope types ids (ContextHash c) in
  if decide (ContextHash c' = "") then mkDependencyContext scope types ids (StableHash c')
  else c'.

(** [PolicyTarget] (policy.go) and its operations. *)
Definition DependencyUnknownWarn : string := "warn".
Definition DependencyUnknownDeny : string := "deny".
Definition DependencyUnknownSkip : string := "skip".

Record PolicyTarget : Type := mkPolicyTarget {
  DependencyScopes : list DependencyScope;
  DependencyTypes : list DependencyType;
  OnUnknown : string;
}.

#[export] Instance PolicyTarget_eq_dec : EqDecision PolicyTarget.
Proof. solve_decision. Defined.

Definition default_OnUnknown (t : PolicyTarget) : PolicyTarget :=
  if decide (OnUnknown t = "")
  then mkPolicyTarget (DependencyScopes t) (DependencyTypes t) DependencyUnknownWarn else t.

Fixpoint first_unsupported (allowed : list string) (l : list string) : option string :=
  match l with
  | [] => None
  | x :: l => if decide (x ∈ allowed) then first_unsupported allowed l else Some x
  end.

(** [Validate] on a possibly nil target; the defaulted target is returned
    because the method writes it through the pointer. *)
Definition target_Validate (t : option PolicyTarget) : result (option PolicyTarget) :=
  match t with
  | None => Ok None
  | Some t =>
      let t := default_OnUnknown t in
      if decide (OnUnknown t ∈ [DependencyUnknownWarn; DependencyUnknownDeny; DependencyUnknownSkip])
      then
        match first_unsupported
                [DependencyScopeDirect; DependencyScopeTransitive; DependencyScopeUnknown]
                (DependencyScopes t) with
        | Some scope =>
            Err (sentinel_suffix ErrInvalidPolicy
              (": target.dependency_scope contains unsupported value " +:+ quote scope))
        | None =>
            match first_unsupported
                    [DependencyTypeProd; DependencyTypeDev; DependencyTypePeer; DependencyTypeOptional]
                    (DependencyTypes t) with
            | Some depType =>
                Err (sentinel_suffix ErrInvalidPolicy
                  (": target.dependency_types contains unsupported value " +:+ quote depType))
            | None => Ok (Some t)
            end
        end
      else Err (sentinel_suffix ErrInvalidPolicy
                  ": target.on_unknown must be one of warn, deny, skip")
  end.

Definition uniqueDependencyScopes (values : list DependencyScope) : list DependencyScope :=
  dedup_from id [] (filter (λ v, v ≠ "") values).

Definition target_Normalize (t : option PolicyTarget) : option PolicyTarget :=
  match t with
  | None => None
  | Some t =>
      let t := default_OnUnknown t in
      Some (mkPolicyTarget (uniqueDependencyScopes (DependencyScopes t))
              (uniqueDependencyTypes (DependencyTypes t)) (OnUnknown t))
  end.

(** ** Lemmas *)

Lemma uniqueDependencyTypes_elem l x : x ∈ uniqueDependencyTypes l ↔ x ∈ l ∧ x ≠ "".
Proof.
  unfold uniqueDependencyTypes. rewrite sort_by_elem, dedup_id_elem, list_elem_of_filter.
  naive_solver.
Qed.

Lemma uniqueDependencyTypes_NoDup l : NoDup (uniqueDependencyTypes l).
Proof. unfold uniqueDependencyTypes. rewrite sort_by_perm. apply dedup_id_NoDup. Qed.

Lemma uniqueStrings_trim l : uniqueStrings l = uniqueDependencyTypes (TrimSpace <$> l).
Proof. done. Qed.

(** Two lists with the same non-empty members have the same canonical form. *)
Lemma uniqueDependencyTypes_ext l1 l2 :
  (∀ x, x ≠ "" → x ∈ l1 ↔ x ∈ l2) → uniqueDependencyTypes l1 = uniqueDependencyTypes l2.
Proof.
  intros H. unfold uniqueDependencyTypes. apply (sort_by_total_perm str_ltb).
  apply NoDup_Permutation; [apply dedup_id_NoDup..|]. intros x.
  rewrite !dedup_id_elem, !list_elem_of_filter. naive_solver.
Qed.

Lemma uniqueDependencyTypes_idem l :
  uniqueDependencyTypes (uniqueDependencyTypes l) = uniqueDependencyTypes l.
Proof. apply uniqueDependencyTypes_ext. intros x Hx. rewrite uniqueDependencyTypes_elem. naive_solver. Qed.

Lemma uniqueStrings_idem l : uniqueStrings (uniqueStrings l) = uniqueStrings l.
Proof.
  rewrite !uniqueStrings_trim. apply uniqueDependencyTypes_ext. intros x Hx.
  rewrite !list_elem_of_fmap. split.
  - intros (y & -> & [Hy _]%uniqueDependencyTypes_elem).
    apply list_elem_of_fmap in Hy as (z & -> & Hz). exists z. by rewrite TrimSpace_idem.
  - intros (z & -> & Hz). exists (TrimSpace z). rewrite TrimSpace_idem. split; [done|].
    apply uniqueDependencyTypes_elem. split; [|done]. by apply list_elem_of_fmap_2.
Qed.

Lemma StableHash_perm c1 c2 :
  Scope c1 = Scope c2 →
  ctx_DependencyTypes c1 ≡ₚ ctx_DependencyTypes c2 →
  GraphIDs c1 ≡ₚ GraphIDs c2 →
  StableHash c1 = StableHash c2.
Proof.
  intros Hs Ht Hg. unfold StableHash.
  by rewrite Hs, (sort_by_total_perm _ _ _ Ht), (sort_by_total_perm _ _ _ Hg).
Qed.

Lemma context_Normalize_hash c : ContextHash (context_Normalize c) =
  if decide (ContextHash c = "") then
    StableHash (mkDependencyContext (if decide (Scope c = "") then DependencyScopeUnknown else Scope c)
      (uniqueDependencyTypes (ctx_DependencyTypes c)) (uniqueStrings (GraphIDs c)) "")
  else ContextHash c.
Proof.
  unfold context_Normalize. simpl. destruct (decide (ContextHash c = "")) as [E|E]; [|done].
  simpl. by rewrite E.
Qed.

Lemma first_unsupported_None allowed l :
  first_unsupported allowed l = None ↔ Forall (λ x, x ∈ allowed) l.
Proof.
  induction l as [|x l IH]; simpl; [by split|]. rewrite Forall_cons, <-IH.
  case_decide; naive_solver.
Qed.

Lemma dedup_scopes_idem l :
  uniqueDependencyScopes (uniqueDependencyScopes l) = uniqueDependencyScopes l.
Proof.
  unfold uniqueDependencyScopes.
  assert (filter (λ v, v ≠ "") (dedup_from id [] (filter (λ v : string, v ≠ "") l))
          = dedup_from id [] (filter (λ v : string, v ≠ "") l)) as ->.
  { apply filter_Forall_id. apply Forall_forall. intros x [Hx _]%dedup_from_elem.
    by apply list_elem_of_filter in Hx as []. }
  apply dedup_from_fixed; [apply dedup_from_NoDup|set_solver].
Qed.

(** Canonical form. Contexts that carry the same scope, the same set of
    dependency types and the same set of (trimmed, non-empty) graph ids, and no
    precomputed hash, normalise to one and the same context, whatever the order
    and the repetitions of the evidence; so they share one context hash and one
    decision-cache entry. *)
Lemma context_Normalize_ext c1 c2 :
  Scope c1 = Scope c2 → ContextHash c1 = "" → ContextHash c2 = "" →
  (∀ t, t ≠ "" → t ∈ ctx_DependencyTypes c1 ↔ t ∈ ctx_DependencyTypes c2) →
  (∀ g, g ≠ "" → g ∈ (TrimSpace <$> GraphIDs c1) ↔ g ∈ (TrimSpace <$> GraphIDs c2)) →
  context_Normalize c1 = context_Normalize c2.
Proof.
  intros Hs H1 H2 Ht Hg. unfold context_Normalize. rewrite Hs, H1, H2, !uniqueStrings_trim.
  by rewrite (uniqueDependencyTypes_ext _ _ Ht), (uniqueDependencyTypes_ext _ _ Hg).
Qed.

Example context_Normalize_ex :
  context_Normalize (mkDependencyContext "direct" ["prod"; "dev"; ""] ["g2"; " g1"] "") =
  context_Normalize (mkDependencyContext "direct" ["dev"; "prod"; "dev"] ["g1"; "g2 "; ""] "").
Proof. apply context_Normalize_ext; try reflexivity; vm_compute; set_solver. Qed.

(** Normalising a context twice changes nothing, and a normalised context
    always has a scope and a hash. *)
Theorem context_Normalize_idempotent c :
  context_Normalize (context_Normalize c) = context_Normalize c ∧
  Scope (context_Normalize c) ≠ "" ∧ ContextHash (context_Normalize c) ≠ "".
Proof.
  assert (Hh : ContextHash (context_Normalize c) ≠ "").
  { rewrite context_Normalize_hash. case_decide; [apply sha256_hex_nonempty|done]. }
  assert (Hs : Scope (context_Normalize c) ≠ "").
  { unfold context_Normalize. repeat case_decide; done. }
  assert (Ht : uniqueDependencyTypes (ctx_DependencyTypes (context_Normalize c)) =
               ctx_DependencyTypes (context_Normalize c)).
  { unfold context_Normalize. simpl. case_decide; apply uniqueDependencyTypes_idem. }
  assert (Hg : uniqueStrings (GraphIDs (context_Normalize c)) = GraphIDs (context_Normalize c)).
  { unfold context_Normalize. simpl. case_decide; apply uniqueStrings_idem. }
  split; [|done]. unfold context_Normalize at 1. rewrite (decide_False (P := Scope _ = "")) by done.
  rewrite Ht, Hg. simpl. rewrite decide_False by done. by destruct (context_Normalize c).
Qed.

(** Target validation and normalisation agree: a target is accepted exactly
    when, after defaulting [on_unknown] to warn, its action, scopes and
    dependency types all belong to the documented vocabularies; normalising an
    accepted target keeps it acceptable and is idempotent. *)
Theorem target_Validate_spec t :
  (is_ok (target_Validate (Some t)) = true ↔
     OnUnknown (default_OnUnknown t) ∈ ["warn"; "deny"; "skip"] ∧
     Forall (λ s, s ∈ ["direct"; "transitive"; "unknown"]) (DependencyScopes t) ∧
     Forall (λ d, d ∈ ["prod"; "dev"; "peer"; "optional"]) (DependencyTypes t)) ∧
  (is_ok (target_Validate (Some t)) = true →
     is_ok (target_Validate (target_Normalize (Some t))) = true) ∧
  target_Normalize (target_Normalize (Some t)) = target_Normalize (Some t).
Proof.
  assert (Hspec : ∀ t, is_ok (target_Validate (Some t)) = true ↔
     OnUnknown (default_OnUnknown t) ∈ ["warn"; "deny"; "skip"] ∧
     Forall (λ s, s ∈ ["direct"; "transitive"; "unknown"]) (DependencyScopes t) ∧
     Forall (λ d, d ∈ ["prod"; "dev"; "peer"; "optional"]) (DependencyTypes t)).
  { intros u. assert (Hd : DependencyScopes (default_OnUnknown u) = DependencyScopes u ∧
                           DependencyTypes (default_OnUnknown u) = DependencyTypes u)
      by (unfold default_OnUnknown; by case_decide).
    destruct Hd as [Hd1 Hd2]. unfold target_Validate. rewrite Hd1, Hd2.
    rewrite <-!first_unsupported_None.
    unfold DependencyUnknownWarn, DependencyUnknownDeny, DependencyUnknownSkip,
      DependencyScopeDirect, DependencyScopeTransitive, DependencyScopeUnknown,
      DependencyTypeProd, DependencyTypeDev, DependencyTypePeer, DependencyTypeOptional.
    case_decide; [|naive_solver].
    repeat case_match; naive_solver. }
  assert (Hdef : ∀ u, OnUnknown u ≠ "" → default_OnUnknown u = u).
  { intros u Hu. unfold default_OnUnknown. by rewrite decide_False. }
  assert (Hne : OnUnknown (default_OnUnknown t) ≠ "").
  { unfold default_OnUnknown. by case_decide. }
  split; [apply Hspec|]. split.
  - rewrite Hspec. intros (Ho & Hs & Hd). cbn [target_Normalize]. apply Hspec.
    rewrite (Hdef (mkPolicyTarget _ _ _)) by done. simpl. split; [done|].
    rewrite Forall_forall in Hs, Hd |- *. rewrite Forall_forall.
    assert (DependencyScopes (default_OnUnknown t) = DependencyScopes t ∧
            DependencyTypes (default_OnUnknown t) = DependencyTypes t) as [-> ->]
      by (unfold default_OnUnknown; by case_decide).
    split; intros x Hx.
    + apply dedup_from_elem in Hx as [Hx _]. apply list_elem_of_filter in Hx as []. auto.
    + apply uniqueDependencyTypes_elem in Hx as []. auto.
  - cbn [target_Normalize]. rewrite (Hdef (mkPolicyTarget _ _ _)) by done. simpl.
    by rewrite dedup_scopes_idem, uniqueDependencyTypes_idem.
Qed.

(** [Normalize] sorts the dependency types but keeps the scopes in the order
    they were written, so equal scope sets can stay apart. *)
Theorem target_scopes_not_canonical :
  target_Normalize (Some (mkPolicyTarget ["transitive"; "direct"] [] "warn")) ≠
  target_Normalize (Some (mkPolicyTarget ["direct"; "transitive"] [] "warn")).
Proof. by vm_compute. Qed.
