(* ===== verification/GraphDepth.v ===== *)
(** * Dependency graphs and their depths

    The node and edge records of [internal/core/domain/dependency_graph.go] and
    [computeDepths] of [internal/infra/npmgraph/lockfile.go]: the breadth-first
    walk that gives every package its distance from the installed root. *)

From S2P Require Import Prelude GoStrings Artifact Dependency.
#[local] Open Scope list_scope.

(** ** Definitions *)

Record DependencyGraphNode : Type := mkNode {
  node_ID : string;
  node_RootID : string;
  node_Artifact : ArtifactIdentity;
  MinDepth : Z;
  node_DependencyTypes : list DependencyType;
}.

Record DependencyGraphEdge : Type := mkEdge {
  edge_ID : string;
  edge_RootID : string;
  ParentNodeID : string;
  ChildNodeID : string;
  edge_DependencyType : DependencyType;
}.

#[export] Instance DependencyGraphEdge_eq_dec : EqDecision DependencyGraphEdge.
Proof. solve_decision. Defined.

Definition set_MinDepth (d : Z) (n : DependencyGraphNode) : DependencyGraphNode :=
  mkNode (node_ID n) (node_RootID n) (node_Artifact n) d (node_DependencyTypes n).
Definition set_node_Types (t : list DependencyType) (n : DependencyGraphNode) : DependencyGraphNode :=
  mkNode (node_ID n) (node_RootID n) (node_Artifact n) (MinDepth n) t.

(** [byID], of which the walk only reads and writes [MinDepth]. *)
Abbreviation depths := (gmap string Z).

Definition initial_depths (rootID : string) (nodes : list DependencyGraphNode) : depths :=
  let byID := foldl (λ m n, <[node_ID n := MinDepth n]> m) ∅ nodes in
  alter (λ _, 0) rootID byID.

Definition adjacency_of (edges : list DependencyGraphEdge) : gmap string (list string) :=
  foldl (λ m e, <[ParentNodeID e := default [] (m !! ParentNodeID e) ++ [ChildNodeID e]]> m) ∅ edges.

(** One child of the dequeued node. *)
Definition relax (current : Z) (s : depths * list string) (child : string) : depths * list string :=
  let '(byID, queue) := s in
  match byID !! child with
  | None => s
  | Some d =>
      let depth := current + 1 in
      if decide (d = -1 ∨ depth < d) then (<[child := depth]> byID, queue ++ [child]) else s
  end.

(** The loop; [None] when the fuel is exhausted. *)
Fixpoint walk_depths (fuel : nat) (adjacency : gmap string (list string)) (byID : depths)
    (queue : list string) : option depths :=
  match queue with
  | [] => Some byID
  | current :: queue =>
      match fuel with
      | O => None
      | S fuel =>
          match byID !! current with
          | None => walk_depths fuel adjacency byID queue
          | Some d =>
              if decide (d < 0) then walk_depths fuel adjacency byID queue
              else let '(byID, queue) :=
                     foldl (relax d) (byID, queue) (default [] (adjacency !! current)) in
                   walk_depths fuel adjacency byID queue
          end
      end
  end.

Definition computeDepths (rootID : string) (nodes : list DependencyGraphNode)
    (edges : list DependencyGraphEdge) : option (list DependencyGraphNode) :=
  byID ← walk_depths (S (length nodes)) (adjacency_of edges) (initial_depths rootID nodes) [rootID];
  mret ((λ n, set_MinDepth (default (MinDepth n) (byID !! node_ID n)) n) <$> nodes).

(** ** The specification: distances *)

Section distance.
Context (child : string → string → Prop) (known : string → Prop) (root : string).

(** A path of [k] edges from the root to [x] over known nodes. *)
Inductive path_to : nat → string → Prop :=
| path_root : known root → path_to 0 root
| path_step k x y : path_to k x → child x y → known y → path_to (S k) y.

(** What a depth means: the length of a shortest path, or -1 for no path. *)
Definition is_depth (x : string) (d : Z) : Prop :=
  (d = -1 ∧ ∀ k, ¬ path_to k x) ∨
  (∃ k, d = Z.of_nat k ∧ path_to k x ∧ ∀ k', path_to k' x → (k ≤ k')%nat).
End distance.

Definition edge_between (edges : list DependencyGraphEdge) (x y : string) : Prop :=
  ∃ e, e ∈ edges ∧ ParentNodeID e = x ∧ ChildNodeID e = y.

(** ** Lemmas *)

Section walk.
Context (adjacency : gmap string (list string)) (root : string).
Implicit Types (D : depths) (q : list string).

Definition lists_child (x y : string) : Prop := ∃ l, adjacency !! x = Some l ∧ y ∈ l.

(** Nodes not reached yet. *)
Definition unreached D : nat := size (filter (λ xd : string * Z, xd.2 = -1) D).

Definition bounded D (d : Z) : Prop := ∀ x e, D !! x = Some e → e = -1 ∨ 0 ≤ e ≤ d.

(** Relaxing the children [l] of a node at depth [d] reaches [new]. *)
Record relaxed (d : Z) D (l : list string) D' (new : list string) : Prop := {
  rx_dom : ∀ x, is_Some (D !! x) ↔ is_Some (D' !! x);
  rx_change : ∀ x e, D' !! x = Some e →
    D !! x = Some e ∨ (D !! x = Some (-1) ∧ e = d + 1 ∧ x ∈ new ∧ x ∈ l);
  rx_new : ∀ x, x ∈ new → D' !! x = Some (d + 1);
  rx_children : ∀ y e, y ∈ l → D' !! y = Some e → 0 ≤ e ≤ d + 1;
  rx_count : (unreached D' + length new = unreached D)%nat;
}.

Lemma rx_keep d D l D' new x e : relaxed d D l D' new → D !! x = Some e → e ≠ -1 → D' !! x = Some e.
Proof.
  intros R Hx He. destruct (proj1 (rx_dom _ _ _ _ _ R x) (ex_intro _ e Hx)) as [e' Hx'].
  destruct (rx_change _ _ _ _ _ R x e' Hx') as [|(? & _)]; congruence.
Qed.

Lemma unreached_insert D x d :
  D !! x = Some (-1) → d ≠ -1 → S (unreached (<[x:=d]> D)) = unreached D.
Proof.
  intros Hx Hd. unfold unreached. rewrite map_filter_insert_False by done.
  rewrite map_filter_delete.
  assert (filter (λ xd : string * Z, xd.2 = -1) D !! x = Some (-1)) as Hf by by apply map_lookup_filter_Some.
  rewrite map_size_delete, Hf. simpl.
  assert (size (filter (λ xd : string * Z, xd.2 = -1) D) ≠ 0%nat); [|lia].
  apply map_size_ne_0_lookup_2 with x. by rewrite Hf.
Qed.

Lemma relax_spec d D q l :
  0 ≤ d → bounded D (d + 1) →
  ∃ D' new, foldl (relax d) (D, q) l = (D', q ++ new) ∧ relaxed d D l D' new.
Proof.
  intros Hd. revert D q. induction l as [|c l IH]; intros D q Hb.
  { exists D, []. rewrite app_nil_r. split; [done|]. split; [done|by left| | |simpl; lia].
    - by intros x ?%elem_of_nil.
    - by intros y e ?%elem_of_nil. }
  cbn [foldl relax]. destruct (D !! c) as [e|] eqn:Hc; [case_decide as Hr|].
  - assert (e = -1) as -> by (destruct (Hb c e Hc); lia).
    destruct (IH (<[c:=d + 1]> D) (q ++ [c])) as (D' & new & -> & R).
    { intros x e [[-> <-]|[? ?]]%lookup_insert_Some; [lia|by eapply Hb]. }
    exists D', (c :: new). rewrite <-app_assoc. split; [done|].
    assert (Hc' : D' !! c = Some (d + 1)) by (eapply rx_keep; [done|apply lookup_insert_eq|lia]).
    destruct R as [R1 R2 R3 R4 R5]. split.
    + intros x. rewrite <-R1. destruct (decide (x = c)) as [->|]; [rewrite lookup_insert_eq, Hc|rewrite lookup_insert_ne by done]; naive_solver.
    + intros x e Hx. destruct (decide (x = c)) as [->|Hne].
      * right. rewrite Hc' in Hx. injection Hx as <-. repeat split; [done|by left..].
      * apply R2 in Hx. rewrite lookup_insert_ne in Hx by done. set_solver.
    + intros x [->|Hx]%elem_of_cons; [done|by apply R3].
    + intros y e [->|Hy]%elem_of_cons He; [rewrite Hc' in He; injection He as <-; lia|by eapply R4].
    + simpl. rewrite <-(unreached_insert D c (d + 1)) by (done || lia). lia.
  - destruct (IH D q Hb) as (D' & new & -> & R). exists D', new. split; [done|].
    assert (D' !! c = Some e) as Hc' by (eapply rx_keep; [done..|]; destruct (Hb c e Hc); lia).
    destruct R as [R1 R2 R3 R4 R5]. split; try done; [set_solver|].
    intros y e' [->|Hy]%elem_of_cons He; [|by eapply R4].
    rewrite Hc' in He. injection He as <-. destruct (Hb c e Hc); lia.
  - destruct (IH D q Hb) as (D' & new & -> & R). exists D', new. split; [done|].
    destruct R as [R1 R2 R3 R4 R5]. split; try done; [set_solver|].
    intros y e' [->|Hy]%elem_of_cons He; [|by eapply R4].
    destruct (proj2 (R1 c) (ex_intro _ e' He)) as [? Hc']. congruence.
Qed.

(** [x]'s children are within one step of it. *)
Definition expanded D (x : string) : Prop := ∀ d l y e,
  D !! x = Some d → adjacency !! x = Some l → y ∈ l → D !! y = Some e → 0 ≤ e ≤ d + 1.

(** The invariant before each iteration: the queue is a run of nodes at depth [d]
    followed by nodes at depth [d + 1], no known depth is larger, depths are
    lengths of paths, and every reached node outside the queue is expanded. *)
Record walking (K : string → Prop) D q (d : Z) : Prop := {
  walk_known : ∀ x, K x ↔ is_Some (D !! x);
  walk_root : D !! root = Some 0;
  walk_reached : ∀ x e, D !! x = Some e → e = -1 ∨ ∃ k, e = Z.of_nat k ∧ path_to lists_child K root k x;
  walk_depth : 0 ≤ d;
  walk_bounded : bounded D (d + 1);
  walk_queue : ∃ q1 q2, q = q1 ++ q2 ∧ Forall (λ x, D !! x = Some d) q1 ∧
    Forall (λ x, D !! x = Some (d + 1)) q2;
  walk_expanded : ∀ x e, D !! x = Some e → 0 ≤ e → x ∈ q ∨ expanded D x;
}.

(** The head of the queue is at the current depth, possibly after moving on. *)
Lemma walking_head K D h q d :
  walking K D (h :: q) d → ∃ d', D !! h = Some d' ∧ walking K D (h :: q) d' ∧
    ∃ q1 q2, q = q1 ++ q2 ∧ Forall (λ x, D !! x = Some d') q1 ∧ Forall (λ x, D !! x = Some (d' + 1)) q2.
Proof.
  intros I. destruct (walk_queue _ _ _ _ I) as ([|x q1] & q2 & Hq & H1 & H2); simpl in Hq.
  - subst q2. apply Forall_cons in H2 as [Hh H2]. exists (d + 1). split; [done|].
    destruct I as [I1 I2 I3 I4 I5 I6 I7]. split; [|exists q, []; by rewrite app_nil_r].
    split; try done; [lia| |].
    + intros x e He. destruct (I5 x e He); lia.
    + exists (h :: q), []. rewrite app_nil_r. split; [done|]. split; [by constructor|done].
  - injection Hq as <- ->. apply Forall_cons in H1 as [Hh H1]. exists d. eauto 10.
Qed.

Lemma walking_step K D h q d D' new :
  walking K D (h :: q) d → D !! h = Some d →
  (∃ q1 q2, q = q1 ++ q2 ∧ Forall (λ x, D !! x = Some d) q1 ∧ Forall (λ x, D !! x = Some (d + 1)) q2) →
  relaxed d D (default [] (adjacency !! h)) D' new →
  walking K D' (q ++ new) d.
Proof.
  intros I Hh (q1 & q2 & -> & H1 & H2) R.
  destruct I as [I1 I2 I3 I4 I5 _ I7]. split; [| | |done| | |].
  - intros x. by rewrite I1, (rx_dom _ _ _ _ _ R).
  - by eapply rx_keep.
  - intros x e Hx. destruct (rx_change _ _ _ _ _ R x e Hx) as [?|(Hx0 & -> & _ & Hl)]; [by apply I3|].
    right. destruct (I3 h d Hh) as [->|(k & -> & Hk)]; [lia|]. exists (S k). split; [lia|].
    destruct (adjacency !! h) as [l|] eqn:Ha; [|by apply elem_of_nil in Hl].
    econstructor; [done|by exists l|]. apply I1. by eexists.
  - intros x e Hx. destruct (rx_change _ _ _ _ _ R x e Hx) as [?|(_ & -> & _)]; [by eapply I5|lia].
  - exists q1, (q2 ++ new). rewrite app_assoc. split; [done|].
    assert (∀ e ys, e ≠ -1 → Forall (λ x, D !! x = Some e) ys → Forall (λ x, D' !! x = Some e) ys) as Hall.
    { intros e ys He Hys. eapply Forall_impl; [exact Hys|]. intros x Hx. by eapply rx_keep. }
    split; [apply Hall; [lia|done]|]. apply Forall_app. split; [apply Hall; [lia|done]|].
    apply Forall_forall. apply (rx_new _ _ _ _ _ R).
  - intros x e Hx He. destruct (rx_change _ _ _ _ _ R x e Hx) as [Hx0|(_ & _ & ? & _)]; [|set_solver].
    destruct (I7 x e Hx0 He) as [[->|Hq]%elem_of_cons|Hex]; [right|set_solver|right].
    + intros d' l y e' Hd' Hl Hy He'. rewrite Hx in Hd'. injection Hd' as <-.
      rewrite Hh in Hx0. injection Hx0 as <-. eapply (rx_children _ _ _ _ _ R); [|done]. by rewrite Hl.
    + intros d' l y e' Hd' Hl Hy He'. rewrite Hx in Hd'. injection Hd' as <-.
      destruct (rx_change _ _ _ _ _ R y e' He') as [?|(Hy0 & _)]; [by eapply Hex|].
      destruct (Hex e l y (-1) Hx0 Hl Hy Hy0); lia.
Qed.

Lemma walk_total K fuel D q d :
  walking K D q d → (length q + unreached D ≤ fuel)%nat →
  ∃ D' d', walk_depths fuel adjacency D q = Some D' ∧ walking K D' [] d'.
Proof.
  revert D q d. induction fuel as [|fuel IH]; intros D [|h q] d I Hf; cbn [walk_depths];
    [by eauto|simpl in Hf; lia|by eauto|].
  destruct (walking_head _ _ _ _ _ I) as (d' & Hh & I' & Hq). rewrite Hh.
  rewrite decide_False by (pose proof (walk_depth _ _ _ _ I'); lia).
  destruct (relax_spec d' D q (default [] (adjacency !! h))) as (D' & new & -> & R);
    [apply I'|apply I'|].
  eapply IH; [by eapply walking_step|]. pose proof (rx_count _ _ _ _ _ R). rewrite length_app. simpl in Hf. lia.
Qed.

Lemma walking_done K D d x e :
  walking K D [] d → D !! x = Some e → is_depth lists_child K root x e.
Proof.
  intros I Hx. assert (Hp : ∀ k y, path_to lists_child K root k y → ∃ e, D !! y = Some e ∧ 0 ≤ e ≤ Z.of_nat k).
  { induction 1 as [Hr|k y z Hy (e' & He' & Hle) (l & Hl & Hz) HK].
    - exists 0. split; [apply I|lia].
    - apply (walk_known _ _ _ _ I) in HK as [e'' He'']. exists e''. split; [done|].
      destruct (walk_expanded _ _ _ _ I y e' He') as [[]%elem_of_nil|Hex]; [lia|].
      pose proof (Hex e' l z e'' He' Hl Hz He''). lia. }
  destruct (walk_reached _ _ _ _ I x e Hx) as [->|(k & -> & Hk)]; [left|right].
  - split; [done|]. intros k (e & He & Hle)%Hp. rewrite Hx in He. injection He as <-. lia.
  - exists k. split; [done|]. split; [done|]. intros k' (e & He & Hle)%Hp.
    rewrite Hx in He. injection He as <-. lia.
Qed.
End walk.

Lemma adjacency_of_spec edges x y :
  lists_child (adjacency_of edges) x y ↔ edge_between edges x y.
Proof.
  unfold edge_between, adjacency_of. set (f := λ (m : gmap string (list string)) e, _).
  trans (y ∈ default [] (foldl f ∅ edges !! x)).
  { unfold lists_child. destruct (foldl f ∅ edges !! x) as [l|]; simpl; [naive_solver|].
    rewrite elem_of_nil. naive_solver. }
  assert (∀ es m, y ∈ default [] (foldl f m es !! x) ↔
    y ∈ default [] (m !! x) ∨ ∃ e, e ∈ es ∧ ParentNodeID e = x ∧ ChildNodeID e = y) as H.
  { induction es as [|e es IH]; intros m; cbn [foldl].
    - split; [by left|]. intros [?|(e & []%elem_of_nil & _)]; done.
    - rewrite IH. unfold f. setoid_rewrite elem_of_cons. destruct (decide (ParentNodeID e = x)) as [<-|Hne].
      + rewrite lookup_insert_eq. simpl. rewrite elem_of_app, list_elem_of_singleton. naive_solver.
      + rewrite lookup_insert_ne by done. naive_solver. }
  rewrite H, lookup_empty. simpl. rewrite elem_of_nil. naive_solver.
Qed.

Lemma path_to_ext c1 c2 (K1 K2 : string → Prop) root k x :
  (∀ x y, c1 x y ↔ c2 x y) → (∀ x, K1 x ↔ K2 x) → path_to c1 K1 root k x → path_to c2 K2 root k x.
Proof.
  intros Hc HK. induction 1 as [?|k y z _ IH ??]; [apply path_root; by apply HK|].
  eapply path_step; [exact IH|by apply Hc|by apply HK].
Qed.

Lemma is_depth_ext c1 c2 (K1 K2 : string → Prop) root x d :
  (∀ x y, c1 x y ↔ c2 x y) → (∀ x, K1 x ↔ K2 x) → is_depth c1 K1 root x d → is_depth c2 K2 root x d.
Proof.
  intros Hc HK. assert (∀ k y, path_to c2 K2 root k y → path_to c1 K1 root k y) as Hp.
  { intros k y. apply path_to_ext; [intros; by rewrite Hc|intros; by rewrite HK]. }
  intros [[-> H]|(k & -> & Hk & H)]; [left|right]; [naive_solver|]. exists k. split; [done|].
  split; [by eapply path_to_ext|]. auto.
Qed.

(** [byID] before the walk. *)
Lemma initial_depths_lookup rootID nodes :
  Forall (λ n, MinDepth n = -1) nodes →
  (∀ x, is_Some (initial_depths rootID nodes !! x) ↔ x ∈ node_ID <$> nodes) ∧
  (∀ x d, initial_depths rootID nodes !! x = Some d → d = if decide (x = rootID) then 0 else -1) ∧
  (size (initial_depths rootID nodes) ≤ length nodes)%nat.
Proof.
  intros Hn. unfold initial_depths. set (f := λ (m : gmap string Z) n, _). set (byID := foldl f ∅ nodes).
  assert (∀ m, (∀ x, is_Some (foldl f m nodes !! x) ↔ is_Some (m !! x) ∨ x ∈ node_ID <$> nodes) ∧
    (∀ x d, foldl f m nodes !! x = Some d → m !! x = Some d ∨ d = -1) ∧
    (size (foldl f m nodes) ≤ size m + length nodes)%nat) as H.
  { clear byID. induction Hn as [|n nodes Hd _ IH]; intros m; csimpl; [set_solver by lia|].
    destruct (IH (f m n)) as (H1 & H2 & H3). unfold f in *. split; [|split].
    - intros x. rewrite H1, elem_of_cons.
      destruct (decide (x = node_ID n)) as [->|]; [rewrite lookup_insert_eq|rewrite lookup_insert_ne by done]; naive_solver.
    - intros x d [[[<- <-]|[]]%lookup_insert_Some|]%H2; auto.
    - rewrite map_size_insert in H3. destruct (m !! node_ID n); simpl in *; lia. }
  destruct (H ∅) as (H1 & H2 & H3). fold byID in H1, H2, H3. rewrite map_size_empty in H3.
  split; [|split].
  - intros x. rewrite lookup_alter_is_Some, H1, lookup_empty. split; [intros [[? [=]]|]; done|by right].
  - intros x d Hx. destruct (decide (x = rootID)) as [->|Hne].
    + rewrite lookup_alter_eq in Hx. by apply fmap_Some in Hx as (? & _ & ->).
    + rewrite lookup_alter_ne in Hx by done. destruct (H2 x d Hx) as [Hx'|]; [|done]. by rewrite lookup_empty in Hx'.
  - by rewrite <-size_dom, dom_alter_L, size_dom.
Qed.

(** Depths are distances.  On nodes that no walk has touched (every
    [MinDepth] is -1), [computeDepths] terminates with the nodes in place, and
    the [MinDepth] of each is the length of a shortest path of dependency edges
    from the root, or stays -1 when there is none. *)
Lemma computeDepths_spec rootID nodes edges :
  Forall (λ n, MinDepth n = -1) nodes →
  ∃ nodes', computeDepths rootID nodes edges = Some nodes' ∧
    Forall2 (λ n n', n' = set_MinDepth (MinDepth n') n ∧
      is_depth (edge_between edges) (λ x, x ∈ node_ID <$> nodes) rootID (node_ID n) (MinDepth n'))
      nodes nodes'.
Proof.
  intros Hn. destruct (initial_depths_lookup rootID nodes Hn) as (H1 & H2 & H3).
  set (D := initial_depths rootID nodes) in *.
  assert (∃ D', walk_depths (S (length nodes)) (adjacency_of edges) D [rootID] = Some D' ∧
    ∀ x, x ∈ node_ID <$> nodes → ∃ d, D' !! x = Some d ∧
      is_depth (lists_child (adjacency_of edges)) (λ x, x ∈ node_ID <$> nodes) rootID x d) as (D' & HD & HD').
  { assert (unreached D ≤ length nodes)%nat as Hu.
    { etrans; [|exact H3]. apply map_size_filter. }
    destruct (D !! rootID) as [d|] eqn:Hr.
    - assert (d = 0) as -> by (rewrite (H2 _ _ Hr); by rewrite decide_True).
      destruct (walk_total (adjacency_of edges) rootID (λ x, x ∈ node_ID <$> nodes) (S (length nodes)) D [rootID] 0)
        as (D' & d' & HD & I); [|simpl; lia|].
      { split; [intros; by rewrite H1|done| |done| | |].
        - intros x e ->%H2. case_decide; [right|by left]. exists O. subst x. split; [done|].
          apply path_root. by rewrite <-H1, Hr.
        - intros x e ->%H2. case_decide; lia.
        - exists [rootID], []. split; [done|]. by repeat constructor.
        - intros x e ->%H2. case_decide; [left|lia]. subst x. by left. }
      exists D'. split; [done|]. intros x Hx. apply (walk_known _ _ _ _ _ _ I) in Hx as [e He].
      exists e. split; [done|]. by eapply walking_done.
    - exists D. cbn [walk_depths]. rewrite Hr. split; [by destruct (length nodes)|]. intros x Hx.
      destruct (proj2 (H1 x) Hx) as [d Hd]. exists d. split; [done|]. left.
      rewrite (H2 x d Hd), decide_False by congruence. split; [done|].
      intros k Hk. assert (rootID ∈ node_ID <$> nodes) as Hroot by (clear -Hk; by induction Hk).
      apply H1 in Hroot as [? ?]. congruence. }
  unfold computeDepths. fold D. rewrite HD. eexists. split; [done|].
  assert (∀ l, l ⊆ nodes → Forall2 (λ n n', n' = set_MinDepth (MinDepth n') n ∧
      is_depth (edge_between edges) (λ x, x ∈ node_ID <$> nodes) rootID (node_ID n) (MinDepth n'))
      l ((λ n, set_MinDepth (default (MinDepth n) (D' !! node_ID n)) n) <$> l)) as H; [|by apply H].
  induction l as [|n l IH]; intros Hl; csimpl; constructor; [|apply IH; set_solver].
  split; [done|]. destruct (HD' (node_ID n)) as (d & -> & Hd).
  { apply list_elem_of_fmap_2, Hl. by left. }
  simpl. eapply is_depth_ext; [..|exact Hd]; [apply adjacency_of_spec|done].
Qed.

Lemma is_depth_fun c K root x d d' : is_depth c K root x d → is_depth c K root x d' → d = d'.
Proof.
  intros [[-> H]|(k & -> & Hk & H)] [[-> H']|(k' & -> & Hk' & H')]; [done|naive_solver..|].
  f_equal. apply Nat.le_antisymm; auto.
Qed.

(** The walk of one node list is determined by the distances. *)
Lemma same_depths c c' (K K' : string → Prop) root nodes l l' :
  (∀ x y, c x y ↔ c' x y) → (∀ x, K x ↔ K' x) →
  Forall2 (λ n n', n' = set_MinDepth (MinDepth n') n ∧ is_depth c K root (node_ID n) (MinDepth n')) nodes l →
  Forall2 (λ n n', n' = set_MinDepth (MinDepth n') n ∧ is_depth c' K' root (node_ID n) (MinDepth n')) nodes l' →
  l = l'.
Proof.
  intros Hc HK H. revert l'. induction H as [|n n2 ns l2 [-> Hd] _ IH]; intros l' H'.
  - by apply Forall2_nil_inv_l in H'.
  - apply Forall2_cons_inv_l in H' as (n3 & l3 & [-> Hd'] & H' & ->). f_equal; [|by apply IH].
    f_equal. eapply is_depth_fun; [exact Hd|]. eapply is_depth_ext; [..|exact Hd'].
    + intros x y. by rewrite Hc.
    + intros x. by rewrite HK.
Qed.

(** Only the set of nodes and the set of edges matter. *)
Lemma computeDepths_perm rootID nodes nodes' edges edges' :
  Forall (λ n, MinDepth n = -1) nodes → nodes ≡ₚ nodes' →
  (∀ x y, edge_between edges x y ↔ edge_between edges' x y) →
  ∃ l l', computeDepths rootID nodes edges = Some l ∧ computeDepths rootID nodes' edges' = Some l' ∧ l ≡ₚ l'.
Proof.
  intros Hn Hp He. destruct (computeDepths_spec rootID nodes edges Hn) as (l & Hl & Hll).
  destruct (computeDepths_spec rootID nodes' edges') as (l' & Hl' & Hll'); [by rewrite <-Hp|].
  exists l, l'. split; [done|]. split; [done|].
  destruct (Permutation_Forall2 Hp Hll) as (l2 & Hl2 & H2). rewrite Hl2. apply Permutation_refl'.
  eapply same_depths; [exact He| |exact H2|exact Hll']. intros x. cbv beta. by rewrite Hp.
Qed.

(** ** Example *)

(** A diamond with a long way round and a package nothing depends on. *)
Definition sample_nodes : list DependencyGraphNode :=
  (λ i, mkNode i "" (mkArtifact EcosystemNPM "" i "1.0.0" "") (-1) []) <$> ["r"; "a"; "b"; "c"; "z"].
Definition sample_edges : list DependencyGraphEdge :=
  (λ '(p, c), mkEdge "" "" p c DependencyTypeProd) <$>
    [("r", "a"); ("a", "b"); ("b", "c"); ("r", "c"); ("c", "a"); ("z", "r")].

Example sample_depths :
  ((λ l : list DependencyGraphNode, MinDepth <$> l) <$> computeDepths "r" sample_nodes sample_edges) = Some [0; 1; 2; 1; -1].
Proof. vm_compute. reflexivity. Qed.
