(* ===== verification/Lockfile.v ===== *)
(** * Reading an npm lock file

    [internal/infra/npmgraph/lockfile.go]: the packages of a decoded
    package-lock.json become graph nodes and edges.  Go iterates maps in an
    unspecified order; here the order is an argument, and the result is shown not
    to depend on it. *)

From S2P Require Import Prelude GoStrings GoPath Json Sha256 Artifact Dependency GraphDepth.
#[local] Open Scope list_scope.

(** ** Definitions *)

Record lockPackage : Type := mkLockPackage {
  lock_Name : string;
  lock_Version : string;
  Dependencies : gmap string string;
  DevDependencies : gmap string string;
  PeerDependencies : gmap string string;
  OptionalDependencies : gmap string string;
  Dev : bool;
  Optional : bool;
}.

Abbreviation lockPackages := (gmap string lockPackage).

(** The orders in which the two [range] loops over maps visit their entries. *)
Record MapOrder : Type := mkMapOrder {
  entry_order : string → gmap string DependencyType → list (string * DependencyType);
  node_order : gmap string DependencyGraphNode → list (string * DependencyGraphNode);
  entry_order_perm : ∀ p m, entry_order p m ≡ₚ map_to_list m;
  node_order_perm : ∀ m, node_order m ≡ₚ map_to_list m;
}.

Definition rootWithFullName (root : ArtifactIdentity) : ArtifactIdentity :=
  let root := mkArtifact EcosystemNPM (Namespace root) (Name root) (Version root) (Digest root) in
  let root := if decide (Namespace root ≠ "")
    then set_Namespace "" (set_Name (Namespace root +:+ "/" +:+ Name root) root) else root in
  match NormalizeArtifactIdentity root with Ok normalized => normalized | Err _ => root end.

Definition sortedPackagePaths (packages : lockPackages) : list string :=
  sort_by str_ltb (elements (dom packages)).

Definition packageNameFromLockPath (lockPath : string) : string :=
  let lockPath := TrimPrefix lockPath "node_modules/" in
  let last := SplitLast lockPath "/node_modules/" in
  let unscoped := match SplitOnce "/"%char last with Some (name, _) => name | None => last end in
  if HasPrefix last "@" then
    match SplitOnce "/"%char last with
    | Some (scope, rest) =>
        scope +:+ "/" +:+ match SplitOnce "/"%char rest with Some (name, _) => name | None => rest end
    | None => unscoped
    end
  else unscoped.

Definition artifactForLockPackage (root : ArtifactIdentity) (lockPath : string) (pkg : lockPackage)
    : result ArtifactIdentity :=
  if decide (lockPath = "") then
    if decide (Version root = "") then
      Err (new_error "parsing package-lock.json: root version is required")
    else Ok root
  else
    let name := if decide (lock_Name pkg = "") then packageNameFromLockPath lockPath else lock_Name pkg in
    if decide (name = "" ∨ lock_Version pkg = "") then
      Err (new_error ("parsing package-lock.json: package " +:+ quote lockPath
                        +:+ " has missing name or version"))
    else
      wrap_result ("normalizing lock package " +:+ quote lockPath +:+ ": ")
        (NormalizeArtifactIdentity (mkArtifact EcosystemNPM "" name (lock_Version pkg) "")).

(** [pathNodeIDs] and [nodesByKey]. *)
Definition node_maps : Type := gmap string string * gmap string DependencyGraphNode.

Definition add_node (root : ArtifactIdentity) (packages : lockPackages) (s : node_maps) (lockPath : string)
    : result node_maps :=
  match packages !! lockPath with
  | None => Ok s
  | Some pkg =>
      artifact ← artifactForLockPackage root lockPath pkg;
      let key := CacheKey artifact in
      let '(pathNodeIDs, nodesByKey) := s in
      let nodesByKey := match nodesByKey !! key with
        | Some _ => nodesByKey
        | None => <[key := mkNode key "" artifact (-1) []]> nodesByKey
        end in
      Ok (<[lockPath := key]> pathNodeIDs, nodesByKey)
  end.

Fixpoint buildDependencyGraphNodes (root : ArtifactIdentity) (packages : lockPackages)
    (paths : list string) (s : node_maps) : result node_maps :=
  match paths with
  | [] => Ok s
  | p :: paths => s ← add_node root packages s p; buildDependencyGraphNodes root packages paths s
  end.

(** The later maps overwrite the types of the earlier ones. *)
Definition enter (t : DependencyType) (deps : gmap string string) (entries : gmap string DependencyType)
    : gmap string DependencyType :=
  map_fold (λ name _ entries, <[name := t]> entries) entries deps.

Definition dependencyEntries (pkg : lockPackage) : gmap string DependencyType :=
  let entries := enter DependencyTypeProd (Dependencies pkg) ∅ in
  let entries := enter DependencyTypeDev (DevDependencies pkg) entries in
  let entries := enter DependencyTypePeer (PeerDependencies pkg) entries in
  enter DependencyTypeOptional (OptionalDependencies pkg) entries.

(** The loop over [path.Dir]; the outer [None] means that the fuel ran out. *)
Fixpoint resolve_from (fuel : nat) (packages : lockPackages) (dir depName : string)
    : option (option string) :=
  match fuel with
  | O => None
  | S fuel =>
      let candidate := PathJoin [dir; "node_modules"; depName] in
      if decide (is_Some (packages !! candidate)) then Some (Some candidate)
      else if decide (dir = "." ∨ dir = "/" ∨ dir = "") then
        let candidate := PathJoin ["node_modules"; depName] in
        Some (if decide (is_Some (packages !! candidate)) then Some candidate else None)
      else resolve_from fuel packages (PathDir dir) depName
  end.

Definition resolveDependencyPath (packages : lockPackages) (parentPath depName : string) : option string :=
  default None (resolve_from (S (S (String.length parentPath))) packages parentPath depName).

(** [edgeKeys], [edges] and [nodesByKey]. *)
Record edge_state : Type := mkEdgeState {
  edgeKeys : gset string;
  edges : list DependencyGraphEdge;
  nodesByKey : gmap string DependencyGraphNode;
}.

Definition edge_key (parentID childID : string) (t : DependencyType) : string :=
  parentID +:+ ">" +:+ childID +:+ ":" +:+ t.

(** One entry of [dependencyEntries]. *)
Definition add_edge (packages : lockPackages) (pathNodeIDs : gmap string string) (lockPath : string)
    (s : edge_state) (entry : string * DependencyType) : edge_state :=
  let '(depName, depType) := entry in
  match resolveDependencyPath packages lockPath depName with
  | None => s
  | Some childPath =>
      let parentID := default "" (pathNodeIDs !! lockPath) in
      let childID := default "" (pathNodeIDs !! childPath) in
      let key := edge_key parentID childID depType in
      if decide (key ∈ edgeKeys s) then s
      else mkEdgeState ({[key]} ∪ edgeKeys s) (edges s ++ [mkEdge "" "" parentID childID depType])
             (alter (λ n, set_node_Types (node_DependencyTypes n ++ [depType]) n) childID (nodesByKey s))
  end.

Definition uniqueTypes : list DependencyType → list DependencyType := uniqueDependencyTypes.

(** The [less] functions of the two [sort.Slice] calls. *)
Definition node_less (a b : DependencyGraphNode) : bool := str_ltb (node_ID a) (node_ID b).
Definition edge_less : DependencyGraphEdge → DependencyGraphEdge → bool :=
  lex_less ParentNodeID str_ltb (lex_less ChildNodeID str_ltb
    (λ a b, str_ltb (edge_DependencyType a) (edge_DependencyType b))).

Definition sortDependencyGraphEdges : list DependencyGraphEdge → list DependencyGraphEdge :=
  sort_by edge_less.

Definition node_json (n : DependencyGraphNode) : json :=
  JObject (field "id" (JString (node_ID n)) ++ field "depth" (JInt (MinDepth n)) ++
    field "types" (slice_json JString (node_DependencyTypes n))).
Definition edge_json (e : DependencyGraphEdge) : json :=
  JObject (field "parent" (JString (ParentNodeID e)) ++ field "child" (JString (ChildNodeID e)) ++
    field "type" (JString (edge_DependencyType e))).

Definition graphHash (nodes : list DependencyGraphNode) (edges : list DependencyGraphEdge) : string :=
  match json_Marshal (JObject (field "nodes" (slice_json node_json nodes) ++
                               field "edges" (slice_json edge_json edges))) with
  | Ok data => sha256_hex data
  | Err _ => sha256_hex ""
  end.

Section order.
Context (o : MapOrder).

Definition path_edges (packages : lockPackages) (pathNodeIDs : gmap string string) (s : edge_state)
    (lockPath : string) : edge_state :=
  match packages !! lockPath with
  | None => s
  | Some pkg => foldl (add_edge packages pathNodeIDs lockPath) s
                  (entry_order o lockPath (dependencyEntries pkg))
  end.

Definition buildDependencyGraphEdges (packages : lockPackages) (paths : list string)
    (pathNodeIDs : gmap string string) (nodes : gmap string DependencyGraphNode) : edge_state :=
  foldl (path_edges packages pathNodeIDs) (mkEdgeState ∅ [] nodes) paths.

(** [None] only if the walk of [computeDepths] ran out of fuel. *)
Definition finalizeDependencyGraphNodes (rootID : string) (nodes : gmap string DependencyGraphNode)
    (edges : list DependencyGraphEdge) : option (list DependencyGraphNode) :=
  let nodes := (λ kn, set_node_Types (uniqueTypes (node_DependencyTypes kn.2)) kn.2) <$> node_order o nodes in
  nodes ← computeDepths rootID nodes edges;
  mret (sort_by node_less nodes).

(** [ParsePackageLock] on the decoded document. *)
Definition ParsePackageLock (root : ArtifactIdentity) (packages : lockPackages)
    : result (option (list DependencyGraphNode) * list DependencyGraphEdge * string) :=
  if decide (packages = ∅) then Err (new_error "parsing package-lock.json: packages is required")
  else
    let root := rootWithFullName root in
    let paths := sortedPackagePaths packages in
    '(pathNodeIDs, nodes) ← buildDependencyGraphNodes root packages paths (∅, ∅);
    let s := buildDependencyGraphEdges packages paths pathNodeIDs nodes in
    let nodes := finalizeDependencyGraphNodes (CacheKey root) (nodesByKey s) (edges s) in
    let edges := sortDependencyGraphEdges (edges s) in
    Ok (nodes, edges, graphHash (default [] nodes) edges).
End order.

(** ** Lemmas *)

(** *** Resolution of dependency names *)

(** [path.Dir] eventually reaches a directory without a parent. *)
Lemma resolve_from_total fuel packages dir dep :
  (String.length dir < fuel)%nat ∨ (dir = "." ∨ dir = "/" ∨ dir = "") ∧ (0 < fuel)%nat →
  is_Some (resolve_from fuel packages dir dep).
Proof.
  revert dir. induction fuel as [|fuel IH]; intros dir H; [lia|]. cbn [resolve_from].
  case_decide; [by eexists|]. case_decide as Hd; [by eexists|]. apply IH.
  destruct H as [H|[]]; [|done]. destruct (PathDir_shorter dir) as [->|[->|]]; [naive_solver| | |lia].
  - right. split; [by left|]. destruct dir as [|c dir]; [naive_solver|]. simpl in *. lia.
  - right. split; [by right; left|]. destruct dir as [|c dir]; [naive_solver|]. simpl in *. lia.
Qed.

(** The candidate of the directory [k] levels below the top. *)
Definition candidate (segs : list string) (dep : string) (k : nat) : string :=
  PathJoin [Join "/" (take k segs); "node_modules"; dep].

Lemma candidate_top dep : PathJoin ["."; "node_modules"; dep] = PathJoin ["node_modules"; dep].
Proof. done. Qed.

(** The deepest candidate that exists, at or above level [k]. *)
Fixpoint deepest (packages : lockPackages) (segs : list string) (dep : string) (k : nat) : option string :=
  if decide (is_Some (packages !! candidate segs dep k)) then Some (candidate segs dep k)
  else match k with O => None | S k => deepest packages segs dep k end.

Lemma resolve_from_segs packages dep segs k fuel :
  Forall clean_seg segs → (k ≤ length segs)%nat → (k + 2 ≤ fuel)%nat →
  resolve_from fuel packages (Join "/" (take k segs)) dep = Some (deepest packages segs dep k).
Proof.
  intros Hs. revert fuel. induction k as [|k IH]; intros [|fuel] Hk Hf; try lia; cbn [resolve_from].
  - change (Join "/" (take 0 segs)) with "". cbn [deepest]. unfold candidate at 1 2.
    change (Join "/" (take 0 segs)) with "". case_decide; [done|]. rewrite decide_True by auto.
    change (PathJoin [""; "node_modules"; dep]) with (PathJoin ["node_modules"; dep]) in *.
    by rewrite decide_False.
  - cbn [deepest]. fold (candidate segs dep (S k)). case_decide; [done|].
    destruct (lookup_lt_is_Some_2 segs k) as [x Hx]; [lia|].
    rewrite (take_S_r _ _ _ Hx). assert (Forall clean_seg (take k segs)) as Htk by by apply Forall_take.
    assert (clean_seg x) as Hcx by exact (Forall_lookup_1 _ _ _ _ Hs Hx).
    destruct (Join_segs_first (take k segs ++ [x])) as (H1 & _ & H2 & H3);
      [by destruct (take k segs)|by apply Forall_app; auto|].
    rewrite decide_False by naive_solver. rewrite PathDir_segs by done.
    case_decide as Hnil; [|apply IH; lia].
    assert (k = 0)%nat as -> by (destruct k, segs; simpl in *; done || lia).
    destruct fuel as [|fuel]; [lia|]. cbn [resolve_from deepest]. rewrite candidate_top.
    change (candidate segs dep 0) with (PathJoin ["node_modules"; dep]).
    case_decide; [done|]. rewrite decide_True by auto. done.
Qed.

Lemma deepest_spec packages segs dep k c :
  deepest packages segs dep k = Some c ↔
  ∃ j, (j ≤ k)%nat ∧ c = candidate segs dep j ∧ is_Some (packages !! c) ∧
    ∀ i, (j < i ≤ k)%nat → packages !! candidate segs dep i = None.
Proof.
  induction k as [|k IH]; cbn [deepest]; case_decide as Hc.
  - split; [intros [= <-]; exists 0%nat; repeat split; [done..|lia]|].
    intros (j & Hj & -> & _). by replace j with 0%nat by lia.
  - split; [done|]. intros (j & Hj & -> & Hs & _). by replace j with 0%nat in Hs by lia.
  - split; [intros [= <-]; exists (S k); repeat split; [done..|lia]|].
    intros (j & Hj & -> & Hs & Hi). destruct (decide (j = S k)) as [->|]; [done|].
    destruct Hc as [? Hc]. rewrite Hi in Hc by lia. done.
  - rewrite IH. split.
    + intros (j & Hj & -> & Hs & Hi). exists j. repeat split; [lia|done|]. intros i Hij.
      destruct (decide (i = S k)) as [->|]; [by apply eq_None_not_Some|apply Hi; lia].
    + intros (j & Hj & -> & Hs & Hi). destruct (decide (j = S k)) as [->|]; [done|].
      exists j. repeat split; [lia|done|]. intros i Hij. apply Hi. lia.
Qed.

(** *** Iteration order *)

Definition typed (n : string * DependencyType) : Prop := free_of is_colon n.2.

Lemma enter_lookup t deps m name :
  enter t deps m !! name = if decide (is_Some (deps !! name)) then Some t else m !! name.
Proof.
  unfold enter. revert deps. apply (map_fold_weak_ind (λ r deps,
    r !! name = if decide (is_Some (deps !! name)) then Some t else m !! name)).
  - rewrite lookup_empty, decide_False; [done|by intros []].
  - intros i x deps r Hi IH. destruct (decide (i = name)) as [->|Hne].
    + rewrite !lookup_insert_eq. by rewrite decide_True.
    + by rewrite !lookup_insert_ne by done.
Qed.

(** Which of the four maps gives the type of a name. *)
Lemma dependencyEntries_lookup pkg name :
  dependencyEntries pkg !! name =
    if decide (is_Some (OptionalDependencies pkg !! name)) then Some DependencyTypeOptional
    else if decide (is_Some (PeerDependencies pkg !! name)) then Some DependencyTypePeer
    else if decide (is_Some (DevDependencies pkg !! name)) then Some DependencyTypeDev
    else if decide (is_Some (Dependencies pkg !! name)) then Some DependencyTypeProd
    else None.
Proof. unfold dependencyEntries. by rewrite !enter_lookup. Qed.

Lemma entries_typed o p pkg : Forall typed (entry_order o p (dependencyEntries pkg)).
Proof.
  rewrite entry_order_perm. apply Forall_forall. intros [name t] H%elem_of_map_to_list.
  rewrite dependencyEntries_lookup in H. unfold typed. simpl.
  repeat case_decide; simplify_eq; by repeat split.
Qed.

(** Nodes and states that differ in the order of lists only. *)
Definition node_sim (n n' : DependencyGraphNode) : Prop :=
  set_node_Types [] n = set_node_Types [] n' ∧ node_DependencyTypes n ≡ₚ node_DependencyTypes n'.

Definition maps_sim (m m' : gmap string DependencyGraphNode) : Prop :=
  ∀ k, option_Forall2 node_sim (m !! k) (m' !! k).

Definition state_sim (s s' : edge_state) : Prop :=
  edgeKeys s = edgeKeys s' ∧ edges s ≡ₚ edges s' ∧ maps_sim (nodesByKey s) (nodesByKey s').

#[local] Instance node_sim_equiv : Equivalence node_sim.
Proof.
  split; [intros n; done|intros n n' [? ?]; done|].
  intros n1 n2 n3 [? ?] [? ?]. split; by etrans.
Qed.
#[local] Instance state_sim_equiv : Equivalence state_sim.
Proof.
  split.
  - intros s. split; [done|]. split; [done|]. intros k. reflexivity.
  - intros s s' (? & ? & H). split; [done|]. split; [done|]. intros k. symmetry. apply H.
  - intros s1 s2 s3 (? & ? & H1) (? & ? & H2). split; [by etrans|]. split; [by etrans|].
    intros k. etrans; [apply H1|apply H2].
Qed.

Definition add_type (t : DependencyType) (n : DependencyGraphNode) : DependencyGraphNode :=
  set_node_Types (node_DependencyTypes n ++ [t]) n.

Lemma alter_type_sim t c m m' : maps_sim m m' → maps_sim (alter (add_type t) c m) (alter (add_type t) c m').
Proof.
  intros H k. specialize (H k). destruct (decide (c = k)) as [->|]; [|by rewrite !lookup_alter_ne].
  rewrite !lookup_alter_eq. destruct H as [n n' [H1 H2]|]; simpl; constructor. split; [done|].
  simpl. by rewrite H2.
Qed.

Lemma alter_type_comm t1 t2 c1 c2 m :
  maps_sim (alter (add_type t2) c2 (alter (add_type t1) c1 m)) (alter (add_type t1) c1 (alter (add_type t2) c2 m)).
Proof.
  intros k. destruct (decide (c1 = c2)) as [->|Hne].
  - destruct (decide (c2 = k)) as [->|]; [|by rewrite !lookup_alter_ne].
    rewrite !lookup_alter_eq. destruct (m !! k) as [n|]; simpl; constructor. split; [done|].
    simpl. rewrite <-!app_assoc. apply Permutation_app_head, Permutation_swap.
  - assert (alter (add_type t2) c2 (alter (add_type t1) c1 m) = alter (add_type t1) c1 (alter (add_type t2) c2 m)) as ->;
      [|reflexivity]. apply alter_alter_ne. congruence.
Qed.

(** The edge that an entry asks for, if it resolves. *)
Definition entry_edge (packages : lockPackages) (ids : gmap string string) (p : string)
    (entry : string * DependencyType) : option DependencyGraphEdge :=
  c ← resolveDependencyPath packages p entry.1;
  Some (mkEdge "" "" (default "" (ids !! p)) (default "" (ids !! c)) entry.2).

Definition key_of (e : DependencyGraphEdge) : string :=
  edge_key (ParentNodeID e) (ChildNodeID e) (edge_DependencyType e).

Definition put_edge (s : edge_state) (e : DependencyGraphEdge) : edge_state :=
  if decide (key_of e ∈ edgeKeys s) then s
  else mkEdgeState ({[key_of e]} ∪ edgeKeys s) (edges s ++ [e])
         (alter (add_type (edge_DependencyType e)) (ChildNodeID e) (nodesByKey s)).

Lemma add_edge_put packages ids p s entry :
  add_edge packages ids p s entry =
    match entry_edge packages ids p entry with Some e => put_edge s e | None => s end.
Proof.
  destruct entry as [dep t]. unfold add_edge, entry_edge. simpl.
  by destruct (resolveDependencyPath packages p dep).
Qed.

(** From one parent, the key determines the edge. *)
Lemma key_of_inj e e' :
  edge_ID e = edge_ID e' → edge_RootID e = edge_RootID e' → ParentNodeID e = ParentNodeID e' →
  free_of is_colon (edge_DependencyType e) → free_of is_colon (edge_DependencyType e') →
  key_of e = key_of e' → e = e'.
Proof.
  destruct e as [i r p c t], e' as [i' r' p' c' t']; simpl. intros -> -> -> Ht Ht' H.
  unfold key_of, edge_key in H. simpl in H. apply sapp_inj_l in H. apply (sapp_inj_l ">") in H.
  pose proof (CutLast_char ":"%char c t Ht) as H1. pose proof (CutLast_char ":"%char c' t' Ht') as H2.
  change (c +:+ String ":" t) with (c +:+ ":" +:+ t) in H1.
  change (c' +:+ String ":" t') with (c' +:+ ":" +:+ t') in H2. rewrite H, H2 in H1. by injection H1 as -> ->.
Qed.

Lemma put_edge_sim s s' e : state_sim s s' → state_sim (put_edge s e) (put_edge s' e).
Proof.
  intros (Hk & He & Hn). unfold put_edge. rewrite <-Hk. case_decide; [done|].
  split; [done|]. split; [simpl; by rewrite He|by apply alter_type_sim].
Qed.

Lemma put_edge_comm s e e' :
  (key_of e = key_of e' → e = e') → state_sim (put_edge (put_edge s e) e') (put_edge (put_edge s e') e).
Proof.
  intros Hinj. destruct (decide (key_of e = key_of e')) as [Heq|Hne]; [by rewrite (Hinj Heq)|].
  unfold put_edge. destruct (decide (key_of e ∈ edgeKeys s)) as [H1|H1], (decide (key_of e' ∈ edgeKeys s)) as [H2|H2];
    simpl; rewrite ?decide_True, ?decide_False by set_solver; try reflexivity.
  split; [simpl; set_solver|]. split; [|apply alter_type_comm].
  simpl. rewrite <-!app_assoc. apply Permutation_app_head, Permutation_swap.
Qed.

Lemma path_edges_sim o o' packages ids s s' p :
  state_sim s s' → state_sim (path_edges o packages ids s p) (path_edges o' packages ids s' p).
Proof.
  intros Hs. unfold path_edges. destruct (packages !! p) as [pkg|]; [|done].
  apply (foldl_perm state_sim typed); [| |apply entries_typed| |done].
  - intros s1 s2 a _ H. rewrite !add_edge_put. destruct (entry_edge _ _ _ a); [by apply put_edge_sim|done].
  - intros s0 a b Ha Hb. rewrite !add_edge_put.
    destruct (entry_edge packages ids p a) as [ea|] eqn:Ea, (entry_edge packages ids p b) as [eb|] eqn:Eb; try reflexivity.
    apply put_edge_comm. unfold entry_edge in Ea, Eb.
    destruct (resolveDependencyPath packages p a.1), (resolveDependencyPath packages p b.1); simplify_eq/=.
    intros H. by apply key_of_inj.
  - by rewrite !entry_order_perm.
Qed.

Lemma build_edges_sim o o' packages ids paths nodes :
  state_sim (buildDependencyGraphEdges o packages paths ids nodes)
            (buildDependencyGraphEdges o' packages paths ids nodes).
Proof.
  unfold buildDependencyGraphEdges. generalize (mkEdgeState ∅ [] nodes). intros s.
  assert (state_sim s s) as Hs by reflexivity. revert Hs. generalize s at 2 4.
  induction paths as [|p paths IH] in s |- *; intros s' Hs; simpl; [done|]. by apply IH, path_edges_sim.
Qed.

(** *** The edges and node types that are built *)

(** The edges asked for, in the order the loops meet them. *)
Definition wanted_edges (o : MapOrder) (packages : lockPackages) (ids : gmap string string)
    (paths : list string) : list DependencyGraphEdge :=
  paths ≫= λ p, match packages !! p with
    | None => []
    | Some pkg => omap (entry_edge packages ids p) (entry_order o p (dependencyEntries pkg))
    end.

Lemma build_edges_wanted o packages ids paths nodes :
  buildDependencyGraphEdges o packages paths ids nodes =
    foldl put_edge (mkEdgeState ∅ [] nodes) (wanted_edges o packages ids paths).
Proof.
  unfold buildDependencyGraphEdges. generalize (mkEdgeState ∅ [] nodes). intros s.
  induction paths as [|p paths IH] in s |- *; [done|].
  cbn [foldl wanted_edges]. change (wanted_edges o packages ids (p :: paths)) with
    (match packages !! p with None => [] | Some pkg =>
       omap (entry_edge packages ids p) (entry_order o p (dependencyEntries pkg)) end
     ++ wanted_edges o packages ids paths).
  rewrite foldl_app, IH. f_equal. unfold path_edges. destruct (packages !! p) as [pkg|]; [|done].
  generalize (entry_order o p (dependencyEntries pkg)). intros l. clear IH.
  induction l as [|a l IH] in s |- *; [done|]. cbn [foldl]. rewrite IH, add_edge_put. csimpl.
  by destruct (entry_edge packages ids p a).
Qed.

Lemma wanted_edges_elem o packages ids paths e :
  e ∈ wanted_edges o packages ids paths ↔ ∃ p pkg dep t, p ∈ paths ∧ packages !! p = Some pkg ∧
    dependencyEntries pkg !! dep = Some t ∧ entry_edge packages ids p (dep, t) = Some e.
Proof.
  unfold wanted_edges. rewrite list_elem_of_bind. split.
  - intros (p & He & Hp). destruct (packages !! p) as [pkg|] eqn:Hpkg; [|by apply elem_of_nil in He].
    apply list_elem_of_omap in He as ([dep t] & Hin & He). rewrite entry_order_perm in Hin.
    apply elem_of_map_to_list in Hin. by exists p, pkg, dep, t.
  - intros (p & pkg & dep & t & Hp & Hpkg & Hin & He). exists p. split; [|done]. rewrite Hpkg.
    apply list_elem_of_omap. exists (dep, t). split; [|done].
    rewrite entry_order_perm. by apply elem_of_map_to_list.
Qed.

Definition erase (n : DependencyGraphNode) : DependencyGraphNode := set_node_Types [] n.
Definition blank (e : DependencyGraphEdge) : Prop := edge_ID e = "" ∧ edge_RootID e = "".

(** What the loop maintains, from the nodes [nodes0]. *)
Record edges_inv (nodes0 : gmap string DependencyGraphNode) (s : edge_state) : Prop := {
  ei_keys : ∀ k, k ∈ edgeKeys s ↔ k ∈ key_of <$> edges s;
  ei_nodup : NoDup (key_of <$> edges s);
  ei_nodes : erase <$> nodesByKey s = erase <$> nodes0;
  ei_types : ∀ k n t, nodesByKey s !! k = Some n →
    t ∈ node_DependencyTypes n ↔ ∃ e, e ∈ edges s ∧ ChildNodeID e = k ∧ edge_DependencyType e = t;
  ei_blank : Forall blank (edges s);
}.

Lemma put_edge_inv nodes0 s e : edges_inv nodes0 s → blank e → edges_inv nodes0 (put_edge s e).
Proof.
  intros [H1 H2 H3 H4 H5] He. unfold put_edge. case_decide as Hk; [done|]. split; simpl.
  - intros k. rewrite fmap_app, elem_of_app, elem_of_union, H1, elem_of_singleton. csimpl.
    rewrite list_elem_of_singleton. tauto.
  - rewrite fmap_app. apply NoDup_app. split; [done|]. csimpl. split; [|apply NoDup_singleton].
    intros k Hin ->%list_elem_of_singleton. by rewrite <-H1 in Hin.
  - rewrite <-H3. apply map_eq. intros k. rewrite !lookup_fmap.
    destruct (decide (ChildNodeID e = k)) as [<-|]; [rewrite lookup_alter_eq|by rewrite lookup_alter_ne].
    by destruct (nodesByKey s !! ChildNodeID e).
  - intros k n t Hn. setoid_rewrite elem_of_app. setoid_rewrite list_elem_of_singleton.
    destruct (decide (ChildNodeID e = k)) as [<-|Hne].
    + rewrite lookup_alter_eq in Hn. apply fmap_Some in Hn as (n' & Hn' & ->). simpl.
      rewrite elem_of_app, list_elem_of_singleton, (H4 _ n' t Hn'). naive_solver.
    + rewrite lookup_alter_ne in Hn by done. rewrite (H4 _ n t Hn). naive_solver.
  - apply Forall_app. by split; [|constructor].
Qed.

Lemma put_edges_inv nodes0 s l :
  edges_inv nodes0 s → Forall blank l →
  edges_inv nodes0 (foldl put_edge s l) ∧
  (∀ e, e ∈ edges (foldl put_edge s l) → e ∈ edges s ∨ e ∈ l) ∧
  (∀ k, k ∈ key_of <$> edges s ∨ k ∈ key_of <$> l → k ∈ key_of <$> edges (foldl put_edge s l)).
Proof.
  intros I Hl. induction Hl as [|e l He _ IH] in s, I |- *; simpl.
  { split; [done|]. split; [by left|]. intros k [?|?%elem_of_nil]; done. }
  destruct (IH (put_edge s e)) as (J & Hsub & Hkeys); [by apply put_edge_inv|]. split; [done|]. split.
  - intros x [Hx|?]%Hsub; [|right; by right]. unfold put_edge in Hx. case_decide; [by left|].
    simpl in Hx. apply elem_of_app in Hx as [?| ->%list_elem_of_singleton]; [by left|right; by left].
  - intros k Hk. apply Hkeys. csimpl. rewrite elem_of_cons in Hk.
    destruct Hk as [Hk|[->|Hk]]; [left|left|by right]; unfold put_edge; case_decide as Hd; simpl;
      rewrite ?fmap_app, ?elem_of_app; [done|by left|by apply I|right; by left].
Qed.

Lemma entry_edge_blank packages ids p a e : entry_edge packages ids p a = Some e → blank e.
Proof. unfold entry_edge. by intros (c & _ & [= <-])%bind_Some. Qed.

Lemma wanted_blank o packages ids paths : Forall blank (wanted_edges o packages ids paths).
Proof.
  apply Forall_forall. intros e (p & pkg & dep & t & _ & _ & _ & He)%wanted_edges_elem.
  by eapply entry_edge_blank.
Qed.

(** *** The nodes *)

(** What the loop over the paths leaves in the two maps. *)
Record nodes_ok (root : ArtifactIdentity) (packages : lockPackages) (s : node_maps) : Prop := {
  no_node : ∀ k n, s.2 !! k = Some n → ∃ a, n = mkNode k "" a (-1) [] ∧ k = CacheKey a ∧
    ∃ p pkg, packages !! p = Some pkg ∧ artifactForLockPackage root p pkg = Ok a;
  no_id : ∀ p k, s.1 !! p = Some k → is_Some (s.2 !! k) ∧ ∃ pkg a, packages !! p = Some pkg ∧
    artifactForLockPackage root p pkg = Ok a ∧ k = CacheKey a;
}.

Lemma add_node_ok root packages s p s' :
  nodes_ok root packages s → add_node root packages s p = Ok s' →
  nodes_ok root packages s' ∧ (∀ q, is_Some (s.1 !! q) → is_Some (s'.1 !! q)) ∧
  (is_Some (packages !! p) → is_Some (s'.1 !! p)).
Proof.
  intros [H1 H2]. unfold add_node. destruct (packages !! p) as [pkg|] eqn:Hp; [|by intros [= <-]; split; [|split; [|intros []]]].
  destruct (artifactForLockPackage root p pkg) as [a|] eqn:Ha; [|done]. destruct s as [ids nodes]. simpl in *.
  intros [= <-]. simpl. set (nodes' := match nodes !! CacheKey a with Some _ => nodes | None => _ end).
  assert (∀ k n, nodes' !! k = Some n → nodes !! k = Some n ∨ n = mkNode k "" a (-1) [] ∧ k = CacheKey a) as Hn.
  { intros k n. unfold nodes'. destruct (nodes !! CacheKey a); [by left|].
    intros [[<- <-]|[_ ?]]%lookup_insert_Some; [by right|by left]. }
  assert (is_Some (nodes' !! CacheKey a)) as Hs.
  { unfold nodes'. destruct (nodes !! CacheKey a) eqn:E; [by rewrite E|by rewrite lookup_insert_eq]. }
  assert (∀ k, is_Some (nodes !! k) → is_Some (nodes' !! k)) as Hm.
  { intros k Hk. unfold nodes'. destruct (nodes !! CacheKey a); [done|].
    destruct (decide (CacheKey a = k)) as [<-|]; [by rewrite lookup_insert_eq|by rewrite lookup_insert_ne]. }
  split; [split; simpl|split].
  - intros k n [?|[-> ->]]%Hn; [by apply H1|]. exists a. split; [done|]. split; [done|]. by exists p, pkg.
  - intros q k [[<- <-]|[_ Hq]]%lookup_insert_Some; [split; [done|]; by exists pkg, a|].
    destruct (H2 q k Hq) as [??]. auto.
  - intros q Hq. destruct (decide (p = q)) as [<-|]; [by rewrite lookup_insert_eq|by rewrite lookup_insert_ne].
  - intros _. by rewrite lookup_insert_eq.
Qed.

Lemma build_nodes_ok root packages paths s s' :
  nodes_ok root packages s → buildDependencyGraphNodes root packages paths s = Ok s' →
  nodes_ok root packages s' ∧ (∀ q, is_Some (s.1 !! q) → is_Some (s'.1 !! q)) ∧
  (∀ p, p ∈ paths → is_Some (packages !! p) → is_Some (s'.1 !! p)).
Proof.
  revert s. induction paths as [|p paths IH]; intros s H Hs; simpl in Hs.
  { injection Hs as <-. split; [done|]. split; [done|]. by intros p ?%elem_of_nil. }
  apply result_bind_ok in Hs as (s1 & H1 & H2). destruct (add_node_ok _ _ _ _ _ H H1) as (J & Hm & Hp).
  destruct (IH s1 J H2) as (J' & Hm' & Hp'). split; [done|]. split; [auto|].
  intros q [->|Hq]%elem_of_cons Hs; auto.
Qed.

Lemma build_nodes_error root packages paths s :
  (∀ p pkg, p ∈ paths → packages !! p = Some pkg → is_ok (artifactForLockPackage root p pkg) = true) ↔
  is_ok (buildDependencyGraphNodes root packages paths s) = true.
Proof.
  revert s. induction paths as [|p paths IH]; intros s; cbn [buildDependencyGraphNodes].
  { split; [done|]. by intros _ p pkg ?%elem_of_nil. }
  unfold add_node. destruct (packages !! p) as [pkg|] eqn:Hp.
  - destruct (artifactForLockPackage root p pkg) as [a|e] eqn:Ha.
    + destruct s as [ids nodes]. simpl. rewrite <-IH. setoid_rewrite elem_of_cons. split; [auto|].
      intros H q pkg' [->|Hq] Hq'; [|by apply H]. rewrite Hp in Hq'. injection Hq' as <-. by rewrite Ha.
    + simpl. split; [|done]. intros H. specialize (H p pkg). rewrite Ha in H. apply H; [by left|done].
  - simpl. rewrite <-IH. setoid_rewrite elem_of_cons. split; [auto|].
    intros H q pkg' [->|Hq] Hq'; [congruence|by apply H].
Qed.

Lemma sortedPackagePaths_elem packages p : p ∈ sortedPackagePaths packages ↔ is_Some (packages !! p).
Proof. unfold sortedPackagePaths. by rewrite sort_by_elem, elem_of_elements, elem_of_dom. Qed.

(** *** The finished graph *)

Definition unique_node (n : DependencyGraphNode) : DependencyGraphNode :=
  set_node_Types (uniqueTypes (node_DependencyTypes n)) n.

(** The node list handed to [computeDepths], up to order. *)
Lemma node_list_perm o (m : gmap string DependencyGraphNode) :
  ((λ kn, set_node_Types (uniqueTypes (node_DependencyTypes kn.2)) kn.2) <$> node_order o m) ≡ₚ
  (snd <$> map_to_list (unique_node <$> m)).
Proof. rewrite node_order_perm, map_to_list_fmap, <-list_fmap_compose. by apply Permutation_refl'. Qed.

Lemma unique_node_sim m m' : maps_sim m m' → unique_node <$> m = unique_node <$> m'.
Proof.
  intros H. apply map_eq. intros k. rewrite !lookup_fmap. destruct (H k) as [n n' [H1 H2]|]; [|done].
  simpl. f_equal. unfold unique_node. destruct n, n'. unfold set_node_Types in *. simplify_eq/=. f_equal.
  apply uniqueDependencyTypes_ext. intros x _. by rewrite H2.
Qed.

(** Keys of the map are the node identifiers. *)
Definition keyed (m : gmap string DependencyGraphNode) : Prop :=
  ∀ k n, m !! k = Some n → node_ID n = k ∧ MinDepth n = -1.

Lemma keyed_ids m : keyed m → node_ID <$> (snd <$> map_to_list (unique_node <$> m)) = fst <$> map_to_list (unique_node <$> m).
Proof.
  intros H. rewrite <-list_fmap_compose. apply list_fmap_ext. intros i [k n] Hi%list_elem_of_lookup_2.
  apply elem_of_map_to_list in Hi. rewrite lookup_fmap in Hi. apply fmap_Some in Hi as (n' & Hn' & ->). simpl.
  by apply H.
Qed.

Lemma node_less_weak : StrictWeak node_less.
Proof. split; unfold node_less; intros *; [apply sw_irrefl|apply sw_trans|apply sw_negtrans]. Qed.
#[local] Existing Instance node_less_weak.

Lemma node_less_tie l x y : NoDup (node_ID <$> l) → x ∈ l → y ∈ l →
  node_less x y = false → node_less y x = false → x = y.
Proof.
  intros Hnd [i Hi]%list_elem_of_lookup [j Hj]%list_elem_of_lookup H1 H2.
  assert (node_ID x = node_ID y) as He by (by apply (st_total (less:=str_ltb))).
  assert (i = j) as <-; [|congruence].
  apply (NoDup_lookup _ i j (node_ID x) Hnd); rewrite list_lookup_fmap, ?Hi, ?Hj; csimpl; by rewrite ?He.
Qed.

(** What finalising returns: every node once, in the order of the identifiers,
    with its types deduplicated and its distance from the root. *)
Lemma finalize_nodes_spec o rootID m es :
  keyed m → ∃ ns, finalizeDependencyGraphNodes o rootID m es = Some ns ∧
    NoDup (node_ID <$> ns) ∧ sorted node_less ns ∧ (∀ k, k ∈ node_ID <$> ns ↔ is_Some (m !! k)) ∧
    (∀ n', n' ∈ ns ↔ ∃ k n d, m !! k = Some n ∧ n' = set_MinDepth d (unique_node n) ∧
       is_depth (edge_between es) (λ x, is_Some (m !! x)) rootID k d).
Proof.
  intros Hk. unfold finalizeDependencyGraphNodes.
  set (l := _ <$> node_order o m). pose proof (node_list_perm o m : l ≡ₚ _) as Hl.
  assert (∀ n', n' ∈ l ↔ ∃ k n, m !! k = Some n ∧ n' = unique_node n) as Hin.
  { intros n'. rewrite Hl, list_elem_of_fmap. split.
    - intros ([k n] & -> & H%elem_of_map_to_list). rewrite lookup_fmap in H.
      apply fmap_Some in H as (n0 & ? & ->). by exists k, n0.
    - intros (k & n & Hn & ->). exists (k, unique_node n). split; [done|].
      apply elem_of_map_to_list. by rewrite lookup_fmap, Hn. }
  assert (NoDup (node_ID <$> l)) as Hnd.
  { rewrite Hl, keyed_ids by done. apply NoDup_fst_map_to_list. }
  assert (Forall (λ n, MinDepth n = -1) l) as Hm.
  { apply Forall_forall. intros n' (k & n & Hn & ->)%Hin. by apply (Hk k n). }
  assert (∀ x, x ∈ node_ID <$> l ↔ is_Some (m !! x)) as Hknown.
  { intros x. rewrite list_elem_of_fmap. split.
    - intros (n' & -> & (k & n & Hn & ->)%Hin). simpl. rewrite (proj1 (Hk k n Hn)). by exists n.
    - intros [n Hn]. exists (unique_node n). split; [symmetry; by apply (Hk x n)|]. apply Hin. by exists x, n. }
  destruct (computeDepths_spec rootID l es Hm) as (l' & -> & Hl'). exists (sort_by node_less l').
  split; [done|].
  assert (node_ID <$> l' = node_ID <$> l) as Hids.
  { clear -Hl'. induction Hl' as [|n n' ? ? [-> _] _ IH]; [done|]. csimpl. by rewrite IH. }
  split; [by rewrite sort_by_perm, Hids|]. split; [by apply (sort_by_sorted node_less)|].
  split; [intros k; by rewrite sort_by_perm, Hids, Hknown|].
  assert (∀ n n', n' = set_MinDepth (MinDepth n') n ∧ is_depth (edge_between es) (λ x, x ∈ node_ID <$> l)
    rootID (node_ID n) (MinDepth n') → is_depth (edge_between es) (λ x, is_Some (m !! x)) rootID (node_ID n) (MinDepth n')) as Hd.
  { intros n n' [_ H]. eapply is_depth_ext; [..|exact H]; [done|exact Hknown]. }
  intros n'. rewrite sort_by_elem. split.
  - intros [i Hi]%list_elem_of_lookup. destruct (Forall2_lookup_r _ _ _ _ _ Hl' Hi) as (n & Hn & Hnn').
    pose proof (list_elem_of_lookup_2 _ _ _ Hn) as (k & n0 & Hk0 & ->)%Hin.
    exists k, n0, (MinDepth n'). split; [done|]. split; [apply Hnn'|]. apply Hd in Hnn'.
    by rewrite <-(proj1 (Hk k n0 Hk0)).
  - intros (k & n & d & Hn & -> & Hdep). assert (unique_node n ∈ l) as [i Hi]%list_elem_of_lookup by (apply Hin; eauto).
    destruct (Forall2_lookup_l _ _ _ _ _ Hl' Hi) as (n2 & Hn2 & Heq & Hd2).
    assert (is_depth (edge_between es) (λ x, is_Some (m !! x)) rootID k (MinDepth n2)) as Hd3.
    { rewrite <-(proj1 (Hk k n Hn)). by apply (Hd (unique_node n)). }
    rewrite (is_depth_fun _ _ _ _ _ _ Hdep Hd3), <-Heq. by eapply list_elem_of_lookup_2.
Qed.

Lemma keyed_sim m m' : keyed m → maps_sim m m' → keyed m'.
Proof.
  intros Hk Hm k n' Hn'. specialize (Hm k). rewrite Hn' in Hm. inversion Hm as [n ? [H _] Hn|]; subst.
  symmetry in Hn. apply Hk in Hn as [<- <-]. unfold set_node_Types in H. by injection H.
Qed.

(** Membership in the finished list, from one map to a similar one. *)
Lemma finished_sim m m' es es' rootID n' :
  maps_sim m m' → es ≡ₚ es' →
  (∃ k n d, m !! k = Some n ∧ n' = set_MinDepth d (unique_node n) ∧
     is_depth (edge_between es) (λ x, is_Some (m !! x)) rootID k d) →
  ∃ k n d, m' !! k = Some n ∧ n' = set_MinDepth d (unique_node n) ∧
     is_depth (edge_between es') (λ x, is_Some (m' !! x)) rootID k d.
Proof.
  intros Hm He (k & n & d & Hn & -> & Hd).
  assert ((unique_node <$> m') !! k = Some (unique_node n)) as H.
  { by rewrite <-(unique_node_sim m m' Hm), lookup_fmap, Hn. }
  apply lookup_fmap_Some in H as (n2 & <- & Hn2). exists k, n2, d. split; [done|]. split; [done|].
  eapply is_depth_ext; [..|exact Hd].
  - intros x y. unfold edge_between. by setoid_rewrite He.
  - intros x. split; intros [? H]; specialize (Hm x); rewrite H in Hm; by inversion Hm.
Qed.

Lemma finalize_sim o o' rootID m m' es es' :
  keyed m → maps_sim m m' → es ≡ₚ es' →
  finalizeDependencyGraphNodes o rootID m es = finalizeDependencyGraphNodes o' rootID m' es'.
Proof.
  intros Hk Hm He.
  destruct (finalize_nodes_spec o rootID m es Hk) as (ns & Hns & Hnd & Hs & _ & Hin).
  destruct (finalize_nodes_spec o' rootID m' es' (keyed_sim _ _ Hk Hm)) as (ns' & Hns' & Hnd' & Hs' & _ & Hin').
  rewrite Hns, Hns'. f_equal. apply (sorted_unique node_less); [|done..|].
  - intros x y. by apply node_less_tie.
  - apply NoDup_Permutation; [by eapply NoDup_fmap_1..|]. intros n'. rewrite Hin, Hin'.
    split; apply finished_sim; try done. intros k. specialize (Hm k). by symmetry.
Qed.

Lemma nodes_ok_keyed root packages s : nodes_ok root packages s → keyed s.2.
Proof. intros H k n (a & -> & _)%(no_node _ _ _ H). done. Qed.

Lemma erased_keyed m m0 : keyed m0 → erase <$> m = erase <$> m0 → keyed m.
Proof.
  intros Hk He k n Hn. assert ((erase <$> m0) !! k = Some (erase n)) as H by by rewrite <-He, lookup_fmap, Hn.
  apply lookup_fmap_Some in H as (n0 & Hn0 & [<- <-]%Hk). destruct n, n0. unfold erase, set_node_Types in Hn0.
  by injection Hn0 as -> -> -> ->.
Qed.

(** The package at [p] contributes the artifact [a]. *)
Definition contributes (root : ArtifactIdentity) (packages : lockPackages) (p : string)
    (a : ArtifactIdentity) : Prop :=
  ∃ pkg, packages !! p = Some pkg ∧ artifactForLockPackage (rootWithFullName root) p pkg = Ok a.

Lemma contributes_fun root packages p a a' :
  contributes root packages p a → contributes root packages p a' → a = a'.
Proof. intros (pkg & Hp & Ha) (pkg' & Hp' & Ha'). simplify_eq. congruence. Qed.

(** The package at [p] depends on the one at [c] by a dependency of type [t]. *)
Definition depends (packages : lockPackages) (p c : string) (t : DependencyType) : Prop :=
  ∃ pkg dep, packages !! p = Some pkg ∧ dependencyEntries pkg !! dep = Some t ∧
    resolveDependencyPath packages p dep = Some c.

Lemma nodes_ok_empty root packages : nodes_ok root packages (∅, ∅).
Proof. split; intros ? ? H; simpl in H; by rewrite lookup_empty in H. Qed.

Lemma edges_inv_start root packages ids nodes0 :
  nodes_ok root packages (ids, nodes0) → edges_inv nodes0 (mkEdgeState ∅ [] nodes0).
Proof.
  intros Hok. split; simpl; [set_solver|constructor|done| |constructor].
  intros k n t (a & -> & _)%(no_node _ _ _ Hok). simpl. rewrite elem_of_nil. split; [done|].
  by intros (e & ?%elem_of_nil & _).
Qed.

(** The state from which a successful parse computes its results. *)
Lemma parse_inv o root packages nodes es h :
  ParsePackageLock o root packages = Ok (nodes, es, h) →
  ∃ ids nodes0, let r := rootWithFullName root in
    let s := buildDependencyGraphEdges o packages (sortedPackagePaths packages) ids nodes0 in
    nodes_ok r packages (ids, nodes0) ∧ (∀ p, is_Some (packages !! p) → is_Some (ids !! p)) ∧
    edges_inv nodes0 s ∧ es = sortDependencyGraphEdges (edges s) ∧
    nodes = finalizeDependencyGraphNodes o (CacheKey r) (nodesByKey s) (edges s) ∧
    h = graphHash (default [] nodes) es.
Proof.
  unfold ParsePackageLock. case_decide; [done|]. intros Hr. apply result_bind_ok in Hr as ([ids nodes0] & Hb & Hr).
  simplify_eq/=. exists ids, nodes0.
  destruct (build_nodes_ok _ _ _ _ _ (nodes_ok_empty _ _) Hb) as (Hok & _ & Hids).
  split; [done|]. split; [intros p Hp; apply Hids; [by apply sortedPackagePaths_elem|done]|].
  split; [|done]. rewrite build_edges_wanted.
  apply put_edges_inv; [by eapply edges_inv_start|apply wanted_blank].
Qed.

(** A dependency resolves to a package, whose identifier is its cache key. *)
Lemma resolve_from_known fuel packages dir dep c :
  resolve_from fuel packages dir dep = Some (Some c) → is_Some (packages !! c).
Proof.
  revert dir. induction fuel as [|fuel IH]; intros dir; [done|]. cbn [resolve_from].
  case_decide; [by intros [= <-]|]. case_decide; [|apply IH]. case_decide; [by intros [= <-]|done].
Qed.

Lemma depends_known packages p c t : depends packages p c t → is_Some (packages !! p) ∧ is_Some (packages !! c).
Proof.
  intros (pkg & dep & Hp & _ & Hr). split; [by eexists|]. unfold resolveDependencyPath in Hr.
  destruct (resolve_from _ packages p dep) as [[c'|]|] eqn:E;
    [injection Hr as ->; by eapply resolve_from_known|done|done].
Qed.

Lemma depends_type packages p c t :
  depends packages p c t → t ∈ [DependencyTypeProd; DependencyTypeDev; DependencyTypePeer; DependencyTypeOptional].
Proof.
  intros (pkg & dep & _ & Ht & _). rewrite dependencyEntries_lookup in Ht.
  repeat case_decide; simplify_eq; set_solver.
Qed.

Lemma wanted_depends o root packages ids nodes0 e :
  nodes_ok (rootWithFullName root) packages (ids, nodes0) →
  (∀ p, is_Some (packages !! p) → is_Some (ids !! p)) →
  e ∈ wanted_edges o packages ids (sortedPackagePaths packages) ↔
  ∃ p c t ap ac, depends packages p c t ∧ contributes root packages p ap ∧ contributes root packages c ac ∧
    e = mkEdge "" "" (CacheKey ap) (CacheKey ac) t.
Proof.
  intros Hok Hids. assert (∀ p, is_Some (packages !! p) → ∃ a, ids !! p = Some (CacheKey a) ∧ contributes root packages p a) as Ha.
  { intros p [k Hk]%Hids. destruct (no_id _ _ _ Hok p k Hk) as (_ & pkg & a & Hp & Hart & ->).
    exists a. split; [done|]. by exists pkg. }
  rewrite wanted_edges_elem. split.
  - intros (p & pkg & dep & t & _ & Hp & Ht & (c & Hc & [= <-])%bind_Some). simpl in *.
    assert (depends packages p c t) as Hd by by exists pkg, dep.
    destruct (depends_known _ _ _ _ Hd) as [(ap & -> & Hap)%Ha (ac & -> & Hac)%Ha]. by exists p, c, t, ap, ac.
  - intros (p & c & t & ap & ac & Hd & Hap & Hac & ->). pose proof (depends_known _ _ _ _ Hd) as [Hp Hc].
    destruct Hd as (pkg & dep & Hpkg & Ht & Hr). exists p, pkg, dep, t. split; [by apply sortedPackagePaths_elem|].
    split; [done|]. split; [done|]. unfold entry_edge. simpl. rewrite Hr. simpl.
    destruct (Ha p Hp) as (ap' & -> & Hap'), (Ha c Hc) as (ac' & -> & Hac').
    by rewrite (contributes_fun _ _ _ _ _ Hap Hap'), (contributes_fun _ _ _ _ _ Hac Hac').
Qed.

Lemma edge_less_weak : StrictWeak edge_less.
Proof.
  repeat apply lex_less_weak; try apply _.
  split; intros *; [apply sw_irrefl|apply sw_trans|apply sw_negtrans].
Qed.

Lemma edge_less_tie x y : blank x → blank y → edge_less x y = false → edge_less y x = false → x = y.
Proof.
  intros [Hi Hr] [Hi' Hr'] H1 H2.
  destruct (lex_less_tie _ _ _ _ _ _ H1 H2) as (Hp & H1' & H2').
  destruct (lex_less_tie _ _ _ _ _ _ H1' H2') as (Hc & Ht1 & Ht2).
  apply (st_total (less:=str_ltb)) in Ht1; [|done].
  destruct x, y. simpl in *. by subst.
Qed.

(** Whatever the order, the finished nodes and edges are the same. *)
Lemma order_irrelevant o o' root packages rootID ids nodes0 :
  nodes_ok root packages (ids, nodes0) →
  let s := buildDependencyGraphEdges o packages (sortedPackagePaths packages) ids nodes0 in
  let s' := buildDependencyGraphEdges o' packages (sortedPackagePaths packages) ids nodes0 in
  finalizeDependencyGraphNodes o rootID (nodesByKey s) (edges s) =
    finalizeDependencyGraphNodes o' rootID (nodesByKey s') (edges s') ∧
  sortDependencyGraphEdges (edges s) = sortDependencyGraphEdges (edges s').
Proof.
  intros Hok s s'. destruct (build_edges_sim o o' packages ids (sortedPackagePaths packages) nodes0) as (_ & He & Hm).
  destruct (put_edges_inv nodes0 (mkEdgeState ∅ [] nodes0) (wanted_edges o packages ids (sortedPackagePaths packages)))
    as (I & _); [by eapply edges_inv_start|apply wanted_blank|].
  rewrite <-build_edges_wanted in I. fold s in I, He, Hm. fold s' in He, Hm. split.
  - apply finalize_sim; [|done..]. eapply erased_keyed; [by eapply nodes_ok_keyed|]. apply I.
  - apply sort_by_perm_inv; [apply edge_less_weak| |done]. intros x y Hx Hy.
    pose proof (ei_blank _ _ I) as Hb. rewrite Forall_forall in Hb. apply edge_less_tie; by apply Hb.
Qed.

(** The nodes are the contributed artifacts. *)
Lemma nodes_contributed root packages ids nodes0 k :
  nodes_ok (rootWithFullName root) packages (ids, nodes0) →
  (∀ p, is_Some (packages !! p) → is_Some (ids !! p)) →
  is_Some (nodes0 !! k) ↔ ∃ p a, contributes root packages p a ∧ k = CacheKey a.
Proof.
  intros Hok Hids. split.
  - intros [n (a & -> & -> & p & pkg & Hp & Ha)%(no_node _ _ _ Hok)]. exists p, a. split; [by exists pkg|done].
  - intros (p & a & (pkg & Hp & Ha) & ->). destruct (Hids p) as [k Hk]; [by eexists|].
    destruct (no_id _ _ _ Hok _ _ Hk) as (Hs & pkg' & a' & Hp' & Ha' & ->). simpl in Hs. simplify_eq. by rewrite Ha in Ha'; simplify_eq.
Qed.

Lemma erased_lookup (m m0 : gmap string DependencyGraphNode) k :
  erase <$> m = erase <$> m0 → (is_Some (m !! k) ↔ is_Some (m0 !! k)) ∧
  ∀ n, m !! k = Some n → ∃ n0, m0 !! k = Some n0 ∧ erase n0 = erase n.
Proof.
  intros H. assert ((erase <$> m) !! k = (erase <$> m0) !! k) as Hk by by rewrite H.
  rewrite !lookup_fmap in Hk. destruct (m !! k) as [n|], (m0 !! k) as [n0|]; try done.
  - injection Hk as Hk. split; [done|]. intros ? [= <-]. exists n0. split; [done|].
    unfold erase, set_node_Types. congruence.
Qed.

(** What a successful parse returns. *)
Lemma parse_graph o root packages nodes es h :
  ParsePackageLock o root packages = Ok (nodes, es, h) →
  ∃ ns, nodes = Some ns ∧ NoDup (node_ID <$> ns) ∧ sorted node_less ns ∧
  (∀ k, k ∈ node_ID <$> ns ↔ ∃ p a, contributes root packages p a ∧ k = CacheKey a) ∧
  Forall (λ n, node_ID n = CacheKey (node_Artifact n) ∧
    (∃ p, contributes root packages p (node_Artifact n)) ∧
    (∀ t, t ∈ node_DependencyTypes n ↔
       t ≠ "" ∧ ∃ e, e ∈ es ∧ ChildNodeID e = node_ID n ∧ edge_DependencyType e = t) ∧
    is_depth (edge_between es) (λ x, x ∈ node_ID <$> ns) (CacheKey (rootWithFullName root))
      (node_ID n) (MinDepth n)) ns ∧
  (∀ e, e ∈ es → ∃ p c t ap ac, depends packages p c t ∧ contributes root packages p ap ∧
    contributes root packages c ac ∧ e = mkEdge "" "" (CacheKey ap) (CacheKey ac) t) ∧
  (∀ p c t ap ac, depends packages p c t → contributes root packages p ap →
    contributes root packages c ac → ∃ e, e ∈ es ∧ key_of e = edge_key (CacheKey ap) (CacheKey ac) t).
Proof.
  intros (ids & nodes0 & Hok & Hids & I & -> & -> & _)%parse_inv.
  set (s := buildDependencyGraphEdges _ _ _ _ _) in *. set (r := rootWithFullName root) in *.
  assert (keyed (nodesByKey s)) as Hk.
  { eapply erased_keyed; [exact (nodes_ok_keyed _ _ _ Hok)|apply I]. }
  destruct (finalize_nodes_spec o (CacheKey r) (nodesByKey s) (edges s) Hk) as (ns & -> & Hnd & Hs & Hids' & Hin).
  assert (∀ x, is_Some (nodesByKey s !! x) ↔ ∃ p a, contributes root packages p a ∧ x = CacheKey a) as Hknown.
  { intros x. rewrite (proj1 (erased_lookup _ nodes0 x (ei_nodes _ _ I))). by apply nodes_contributed with ids. }
  exists ns. split; [done|]. split; [done|]. split; [done|].
  split; [intros k; by rewrite Hids', Hknown|]. split; [|split].
  - apply Forall_forall. intros n' (k & n & d & Hn & -> & Hd)%Hin. simpl. rewrite (proj1 (Hk k n Hn)).
    destruct (proj2 (erased_lookup _ nodes0 k (ei_nodes _ _ I)) n Hn) as (n0 & Hn0 & He).
    apply (no_node _ _ _ Hok) in Hn0 as (a & -> & -> & p & pkg & Hp & Ha).
    assert (node_Artifact n = a) as -> by (unfold erase, set_node_Types in He; by injection He).
    split; [done|]. split; [by exists p, pkg|]. split.
    + intros t. unfold uniqueTypes. rewrite uniqueDependencyTypes_elem, (ei_types _ _ I _ _ t Hn).
      unfold sortDependencyGraphEdges. setoid_rewrite sort_by_elem. tauto.
    + eapply is_depth_ext; [..|exact Hd].
      * intros x y. unfold edge_between, sortDependencyGraphEdges. by setoid_rewrite sort_by_elem.
      * intros x. cbv beta. by rewrite Hids'.
  - intros e He. unfold sortDependencyGraphEdges in He. apply sort_by_elem in He.
    unfold s in He. rewrite build_edges_wanted in He.
    apply put_edges_inv with (nodes0 := nodes0) in He as [He|He];
      [by apply elem_of_nil in He| |by eapply edges_inv_start|apply wanted_blank].
    by apply (wanted_depends o root packages ids nodes0).
  - intros p c t ap ac Hd Hap Hac.
    assert (edge_key (CacheKey ap) (CacheKey ac) t ∈ key_of <$> edges s) as (e & -> & He)%list_elem_of_fmap.
    { unfold s. rewrite build_edges_wanted. apply put_edges_inv with (nodes0 := nodes0);
        [by eapply edges_inv_start|apply wanted_blank|right].
      apply list_elem_of_fmap. exists (mkEdge "" "" (CacheKey ap) (CacheKey ac) t). split; [done|].
      apply (wanted_depends o root packages ids nodes0); [done..|]. by exists p, c, t, ap, ac. }
    exists e. split; [|done]. by apply sort_by_elem.
Qed.

(** ** Properties *)

(** The graph read from a lock file does not depend on the order in which Go
    visits map entries: nodes, edges and hash are the same for any two orders. *)
Theorem ParsePackageLock_deterministic o o' root packages :
  ParsePackageLock o root packages = ParsePackageLock o' root packages.
Proof.
  unfold ParsePackageLock. case_decide; [done|].
  destruct (buildDependencyGraphNodes _ _ _ _) as [[ids nodes0]|e] eqn:Hb; [|done]. simpl.
  destruct (build_nodes_ok _ _ _ _ _ (nodes_ok_empty _ _) Hb) as (Hok & _).
  destruct (order_irrelevant o o' _ _ (CacheKey (rootWithFullName root)) _ _ Hok) as [-> ->]. done.
Qed.

(** C39: The graph of a lock file.  A successful parse returns, sorted by
    identifier and without duplicates, one node for every artifact that a
    package of the lock contributes; every edge is a resolved dependency between
    two packages, and every resolved dependency has an edge of its key; a node
    carries the types of the edges into it; and its depth is its distance from
    the root, or -1 when the root does not reach it. *)
Theorem ParsePackageLock_graph o root packages nodes es h :
  ParsePackageLock o root packages = Ok (nodes, es, h) →
  ∃ ns, nodes = Some ns ∧ NoDup (node_ID <$> ns) ∧ sorted node_less ns ∧
  (∀ k, k ∈ node_ID <$> ns ↔ ∃ p a, contributes root packages p a ∧ k = CacheKey a) ∧
  Forall (λ n, node_ID n = CacheKey (node_Artifact n) ∧
    (∃ p, contributes root packages p (node_Artifact n)) ∧
    (∀ t, t ∈ node_DependencyTypes n ↔
       t ≠ "" ∧ ∃ e, e ∈ es ∧ ChildNodeID e = node_ID n ∧ edge_DependencyType e = t) ∧
    is_depth (edge_between es) (λ x, x ∈ node_ID <$> ns) (CacheKey (rootWithFullName root))
      (node_ID n) (MinDepth n)) ns ∧
  (∀ e, e ∈ es → ∃ p c t ap ac, depends packages p c t ∧ contributes root packages p ap ∧
    contributes root packages c ac ∧ e = mkEdge "" "" (CacheKey ap) (CacheKey ac) t) ∧
  (∀ p c t ap ac, depends packages p c t → contributes root packages p ap →
    contributes root packages c ac → ∃ e, e ∈ es ∧ key_of e = edge_key (CacheKey ap) (CacheKey ac) t).
Proof. apply parse_graph. Qed.

(** A lock file is rejected exactly when it has no packages, or some package
    has no usable identity: the root entry without a version, an entry without
    name or version, or a name or version that npm normalisation refuses. *)
Theorem ParsePackageLock_accepts o root packages :
  is_ok (ParsePackageLock o root packages) = true ↔
  packages ≠ ∅ ∧ ∀ p pkg, packages !! p = Some pkg → ∃ a, contributes root packages p a.
Proof.
  unfold ParsePackageLock. case_decide as He; [naive_solver|].
  assert (is_ok (buildDependencyGraphNodes (rootWithFullName root) packages (sortedPackagePaths packages) (∅, ∅)) = true ↔
    ∀ p pkg, packages !! p = Some pkg → ∃ a, contributes root packages p a) as H.
  { rewrite <-build_nodes_error. split.
    - intros H p pkg Hp. specialize (H p pkg). rewrite sortedPackagePaths_elem, is_ok_spec in H.
      destruct H as [a Ha]; [by eexists|done|]. exists a. by exists pkg.
    - intros H p pkg _ Hp. destruct (H p pkg Hp) as (a & pkg' & Hp' & Ha). simplify_eq. by rewrite Ha. }
  destruct (buildDependencyGraphNodes _ _ _ _) as [[ids nodes0]|e]; simpl in *; naive_solver.
Qed.

(** Name resolution follows npm: from a package at a clean path, a dependency
    resolves to the candidate under the deepest enclosing directory that has one,
    and to nothing exactly when no enclosing directory does; the walk up the
    path always ends within the fuel given. *)
Theorem resolveDependencyPath_nearest packages segs dep :
  Forall clean_seg segs →
  is_Some (resolve_from (S (S (String.length (Join "/" segs)))) packages (Join "/" segs) dep) ∧
  (∀ c, resolveDependencyPath packages (Join "/" segs) dep = Some c ↔
    ∃ j, (j ≤ length segs)%nat ∧ c = candidate segs dep j ∧ is_Some (packages !! c) ∧
      ∀ i, (j < i ≤ length segs)%nat → packages !! candidate segs dep i = None).
Proof.
  intros Hs. assert (length segs ≤ String.length (Join "/" segs))%nat as Hl.
  { rewrite Join_weight. clear -Hs. induction Hs as [|x segs (Hx & _) _ IH]; [done|].
    destruct x as [|c x]; [done|]. unfold weight in *. simpl in *. lia. }
  pose proof (resolve_from_segs packages dep segs (length segs) (S (S (String.length (Join "/" segs)))) Hs) as H.
  rewrite firstn_all in H. rewrite H by lia. split; [by eexists|]. intros c.
  unfold resolveDependencyPath. rewrite H by lia. simpl. apply deepest_spec.
Qed.

(** ** Examples and witnesses *)

Definition lock_package (version : string) (deps dev peer optional : list string) : lockPackage :=
  let m l := list_to_map ((λ n, (n, "*")) <$> l) in
  mkLockPackage "" version (m deps) (m dev) (m peer) (m optional) false false.

(** The root needs [a] and, for development, [b]; [a] has its own copy of [b],
    which needs [a] again; [c] is a peer nobody installed. *)
Definition sample_lock : lockPackages := list_to_map
  [ ("", lock_package "" ["a"] ["b"] ["c"] []);
    ("node_modules/a", lock_package "1.0.0" ["b"] [] [] []);
    ("node_modules/b", lock_package "2.0.0" [] [] [] []);
    ("node_modules/a/node_modules/b", lock_package "1.5.0" ["a"] [] [] []);
    ("node_modules/@s/lone", lock_package "0.1.0" [] [] [] []) ].

Definition sample_root : ArtifactIdentity := mkArtifact EcosystemNPM "" "app" "0.0.1" "".

Definition default_order : MapOrder.
Proof. by refine (mkMapOrder (λ _ m, map_to_list m) map_to_list _ _). Defined.

Example sample_graph :
  match ParsePackageLock default_order sample_root sample_lock with
  | Ok (Some ns, es, _) =>
      ((λ n, (node_ID n, MinDepth n)) <$> ns) =
        [("npm:@s/lone:0.1.0", -1); ("npm:a:1.0.0", 1); ("npm:app:0.0.1", 0); ("npm:b:1.5.0", 2);
         ("npm:b:2.0.0", 1)] ∧
      ((λ e, (ParentNodeID e, ChildNodeID e, edge_DependencyType e)) <$> es) =
        [("npm:a:1.0.0", "npm:b:1.5.0", "prod"); ("npm:app:0.0.1", "npm:a:1.0.0", "prod");
         ("npm:app:0.0.1", "npm:b:2.0.0", "dev"); ("npm:b:1.5.0", "npm:a:1.0.0", "prod")]
  | _ => False
  end.
Proof. vm_compute. done. Qed.

Lemma ParsePackageLock_graph_witness :
  match ParsePackageLock default_order sample_root sample_lock with
  | Ok (nodes, _, _) => is_Some nodes
  | Err _ => False
  end.
Proof.
  destruct (ParsePackageLock default_order sample_root sample_lock) as [[[nodes es] h]|e] eqn:E;
    [|vm_compute in E; discriminate E].
  destruct (ParsePackageLock_graph default_order sample_root sample_lock nodes es h E) as (ns & Hns & _).
  exists ns. exact Hns.
Defined.

Lemma resolveDependencyPath_nearest_witness :
  Forall clean_seg ["node_modules"; "a"] ∧
  resolveDependencyPath sample_lock "node_modules/a" "b" = Some "node_modules/a/node_modules/b".
Proof.
  assert (Forall clean_seg ["node_modules"; "a"]) as H by (repeat constructor; discriminate).
  split; [exact H|].
  apply (proj2 (proj2 (resolveDependencyPath_nearest sample_lock ["node_modules"; "a"] "b" H)
    "node_modules/a/node_modules/b")).
  exists 2%nat. split; [simpl; lia|]. split; [reflexivity|]. split; [eexists; vm_compute; reflexivity|].
  intros i Hi. simpl in Hi. lia.
Defined.
