(* ===== verification/Upstream.v ===== *)
(** * Tenants, upstream registries and their capabilities

    [internal/core/domain/tenant.go], [upstream.go], [upstream_auth.go] and
    [upstream_capability.go]. *)

From S2P Require Import Prelude GoStrings Artifact.

(** ** Definitions *)

(** A [time.Time] is its offset from the Unix epoch in nanoseconds; the zero
    time is January 1, year 1. *)
Abbreviation time := Z (only parsing).
Definition zero_time : time := -62135596800000000000.

Record Tenant : Type := mkTenant {
  tenant_ID : string;
  tenant_Name : string;
  tenant_CreatedAt : time;
  tenant_UpdatedAt : time;
}.

Definition UpstreamAuthNone : string := "none".
Definition UpstreamAuthBasic : string := "basic".
Definition UpstreamAuthBearerToken : string := "bearer_token".

Record UpstreamAuth : Type := mkUpstreamAuth {
  auth_Type : string;
  Username : string;
  Secret : string;
  auth_UpdatedAt : time;
}.

Abbreviation UpstreamCapability := string (only parsing).
Definition UpstreamCapabilityPublishTime : UpstreamCapability := "publish_time".
Definition UpstreamCapabilityLicenses : UpstreamCapability := "licenses".
Definition UpstreamCapabilityVulnerabilityLookup : UpstreamCapability := "vulnerability_lookup".
Definition UpstreamCapabilityScorecardLookup : UpstreamCapability := "scorecard_lookup".
Definition UpstreamCapabilityManifestDigestLookup : UpstreamCapability := "manifest_digest_lookup".

(** [Capabilities] is a slice whose nil value ([None]) means "not configured". *)
Record Upstream : Type := mkUpstream {
  up_ID : string;
  up_TenantID : string;
  up_Name : string;
  up_Ecosystem : EcosystemType;
  BaseURL : string;
  Capabilities : option (list UpstreamCapability);
  Auth : option UpstreamAuth;
  up_CreatedAt : time;
  up_UpdatedAt : time;
}.

(** The zero [Upstream]. *)
Definition no_upstream : Upstream := mkUpstream "" "" "" "" "" None None zero_time zero_time.

Definition set_Capabilities (c : list UpstreamCapability) (u : Upstream) : Upstream :=
  mkUpstream (up_ID u) (up_TenantID u) (up_Name u) (up_Ecosystem u) (BaseURL u) (Some c)
    (Auth u) (up_CreatedAt u) (up_UpdatedAt u).

Definition auth_Configured (a : option UpstreamAuth) : bool :=
  match a with
  | None => false
  | Some a => bool_decide (auth_Type a ≠ "" ∧ auth_Type a ≠ UpstreamAuthNone)
  end.

Definition UpstreamAuthConfigured (u : Upstream) : bool := auth_Configured (Auth u).

Definition allowedUpstreamCapabilities (e : EcosystemType) : list UpstreamCapability :=
  if decide (e = EcosystemNPM) then
    [UpstreamCapabilityPublishTime; UpstreamCapabilityLicenses;
     UpstreamCapabilityVulnerabilityLookup; UpstreamCapabilityScorecardLookup]
  else if decide (e = EcosystemOCI) then [UpstreamCapabilityManifestDigestLookup]
  else [].

Definition legacyDefaultUpstreamCapabilities (e : EcosystemType) : list (list UpstreamCapability) :=
  if decide (e = EcosystemNPM) then
    [[UpstreamCapabilityPublishTime; UpstreamCapabilityLicenses;
      UpstreamCapabilityVulnerabilityLookup]]
  else [].

Definition AllowedUpstreamCapabilities (e : EcosystemType) : list UpstreamCapability :=
  allowedUpstreamCapabilities e.
Definition DefaultUpstreamCapabilities (e : EcosystemType) : list UpstreamCapability :=
  AllowedUpstreamCapabilities e.

Fixpoint first_not_in (allowed l : list string) : option string :=
  match l with
  | [] => None
  | c :: l => if decide (c ∈ allowed) then first_not_in allowed l else Some c
  end.

Definition NormalizeUpstreamCapabilities (e : EcosystemType)
    (capabilities : option (list UpstreamCapability)) : result (list UpstreamCapability) :=
  let allowed := allowedUpstreamCapabilities e in
  if decide (allowed = []) then
    Err (sentinel_suffix ErrUnsupportedUpstreamCapability (": unknown ecosystem " +:+ quote e))
  else match capabilities with
  | None => Ok (DefaultUpstreamCapabilities e)
  | Some caps =>
      match first_not_in allowed caps with
      | Some c => Err (sentinel_suffix ErrUnsupportedUpstreamCapability
          (": capability " +:+ quote c +:+ " is not supported for " +:+ e +:+ " upstreams"))
      | None => Ok (filter (λ c, c ∈ caps) allowed)
      end
  end.

Definition EffectiveUpstreamCapabilities (e : EcosystemType)
    (capabilities : option (list UpstreamCapability)) : list UpstreamCapability :=
  match capabilities with
  | None => DefaultUpstreamCapabilities e
  | Some caps =>
      if decide (caps ∈ legacyDefaultUpstreamCapabilities e)
      then DefaultUpstreamCapabilities e else caps
  end.

Definition EffectiveCapabilities (u : Upstream) : list UpstreamCapability :=
  EffectiveUpstreamCapabilities (up_Ecosystem u) (Capabilities u).

Definition UpstreamSupports (u : Upstream) (c : UpstreamCapability) : bool :=
  bool_decide (c ∈ EffectiveCapabilities u).

(** ** Lemmas *)

Lemma first_not_in_None allowed l : first_not_in allowed l = None ↔ l ⊆ allowed.
Proof.
  induction l as [|c l IH]; simpl; [set_solver|]. case_decide; [rewrite IH|]; set_solver.
Qed.

Lemma NormalizeUpstreamCapabilities_Some e caps :
  allowedUpstreamCapabilities e ≠ [] → caps ⊆ allowedUpstreamCapabilities e →
  NormalizeUpstreamCapabilities e (Some caps)
  = Ok (filter (λ c, c ∈ caps) (allowedUpstreamCapabilities e)).
Proof.
  intros He Hc. unfold NormalizeUpstreamCapabilities. rewrite decide_False by done.
  by rewrite (proj2 (first_not_in_None _ _) Hc).
Qed.

Lemma NormalizeUpstreamCapabilities_inv e caps caps' :
  NormalizeUpstreamCapabilities e (Some caps) = Ok caps' →
  allowedUpstreamCapabilities e ≠ [] ∧ caps ⊆ allowedUpstreamCapabilities e ∧
  caps' = filter (λ c, c ∈ caps) (allowedUpstreamCapabilities e).
Proof.
  unfold NormalizeUpstreamCapabilities. case_decide; [done|].
  destruct (first_not_in _ _) eqn:E; [done|]. apply first_not_in_None in E. naive_solver.
Qed.

(** ** Properties *)

(** Capability normalisation keeps exactly the requested capabilities, in
    the one canonical order of the ecosystem: the result has the members of the
    request, is an ordered sub-list of the allowed list, and two requests with
    the same members normalise equally. *)
Theorem NormalizeUpstreamCapabilities_canonical e caps1 caps1' caps2 :
  NormalizeUpstreamCapabilities e (Some caps1) = Ok caps1' →
  (∀ c, c ∈ caps1' ↔ c ∈ caps1) ∧
  sublist caps1' (allowedUpstreamCapabilities e) ∧
  ((∀ c, c ∈ caps1 ↔ c ∈ caps2) →
     NormalizeUpstreamCapabilities e (Some caps2) = Ok caps1').
Proof.
  intros (He & Hsub & ->)%NormalizeUpstreamCapabilities_inv. split; [|split].
  - intros c. rewrite list_elem_of_filter. set_solver.
  - apply sublist_filter.
  - intros Heq. rewrite NormalizeUpstreamCapabilities_Some; [|done|set_solver].
    f_equal. apply list_filter_iff. intros c. by rewrite Heq.
Qed.

Lemma NormalizeUpstreamCapabilities_canonical_witness :
  let r := ["publish_time"; "scorecard_lookup"] in
  (∀ c, c ∈ r ↔ c ∈ ["scorecard_lookup"; "publish_time"; "scorecard_lookup"]) ∧
  sublist r (allowedUpstreamCapabilities "npm") ∧
  ((∀ c, c ∈ ["scorecard_lookup"; "publish_time"; "scorecard_lookup"] ↔ c ∈ r) →
     NormalizeUpstreamCapabilities "npm" (Some r) = Ok r).
Proof.
  exact (NormalizeUpstreamCapabilities_canonical "npm"
    ["scorecard_lookup"; "publish_time"; "scorecard_lookup"] _ _ eq_refl).
Defined.

(** The effective profile of an upstream stored in canonical form is the
    stored profile, with one exception: the npm profile equal to the legacy
    default is read as the current default, which adds [scorecard_lookup] even
    when an operator chose those three capabilities explicitly. *)
Theorem EffectiveUpstreamCapabilities_exact e caps caps' :
  NormalizeUpstreamCapabilities e (Some caps) = Ok caps' →
  (EffectiveUpstreamCapabilities e (Some caps') ≠ caps' ↔
     e = EcosystemNPM ∧
     caps' = [UpstreamCapabilityPublishTime; UpstreamCapabilityLicenses;
              UpstreamCapabilityVulnerabilityLookup]) ∧
  caps' ⊆ EffectiveUpstreamCapabilities e (Some caps') ∧
  EffectiveUpstreamCapabilities e (Some caps') ⊆ allowedUpstreamCapabilities e.
Proof.
  intros (He & Hsub & Hc)%NormalizeUpstreamCapabilities_inv.
  assert (Hin : caps' ⊆ allowedUpstreamCapabilities e).
  { rewrite Hc. intros c. rewrite list_elem_of_filter. naive_solver. }
  unfold EffectiveUpstreamCapabilities, legacyDefaultUpstreamCapabilities.
  destruct (decide (e = EcosystemNPM)) as [->|Hne].
  - case_decide as Hl.
    + apply list_elem_of_singleton in Hl. rewrite Hl. repeat split; try done.
      intros c. vm_compute. set_solver.
    + rewrite list_elem_of_singleton in Hl. naive_solver.
  - rewrite decide_False by set_solver. naive_solver.
Qed.

Lemma EffectiveUpstreamCapabilities_exact_witness :
  let legacy := ["publish_time"; "licenses"; "vulnerability_lookup"] in
  (EffectiveUpstreamCapabilities "npm" (Some legacy) ≠ legacy ↔ "npm" = EcosystemNPM ∧ legacy = legacy) ∧
  legacy ⊆ EffectiveUpstreamCapabilities "npm" (Some legacy) ∧
  EffectiveUpstreamCapabilities "npm" (Some legacy) ⊆ allowedUpstreamCapabilities "npm".
Proof.
  exact (EffectiveUpstreamCapabilities_exact "npm"
    ["vulnerability_lookup"; "publish_time"; "licenses"] _ eq_refl).
Defined.
