(* ===== verification/GoTime.v ===== *)
(** * Points in time as text

    The UTC calendar and the RFC 3339 text with nanoseconds that [encoding/json]
    writes for a [time.Time]. *)

From S2P Require Import Prelude GoStrings Json Upstream.
#[local] Open Scope list_scope.

(** ** Definitions *)

(** The proleptic Gregorian date of a day counted from 1970-01-01; years start in
    March, so that the leap day is the last of its year. *)
Definition date_of_days (days : Z) : Z * Z * Z :=
  let z := days + 719468 in
  let era := z / 146097 in
  let doe := z mod 146097 in
  let yoe := (doe - doe / 1460 + doe / 36524 - doe / 146096) / 365 in
  let doy := doe - (365 * yoe + yoe / 4 - yoe / 100) in
  let mp := (5 * doy + 2) / 153 in
  let d := doy - (153 * mp + 2) / 5 + 1 in
  let m := if mp <? 10 then mp + 3 else mp - 9 in
  (yoe + era * 400 + (if m <=? 2 then 1 else 0), m, d).

(** Its inverse. *)
Definition days_of_date (y m d : Z) : Z :=
  let y := if m <=? 2 then y - 1 else y in
  let era := y / 400 in
  let yoe := y mod 400 in
  let mp := if m <=? 2 then m + 9 else m - 3 in
  let doy := (153 * mp + 2) / 5 + d - 1 in
  era * 146097 + (yoe * 365 + yoe / 4 - yoe / 100 + doy) - 719468.

Fixpoint digits (n : nat) (z : Z) : string :=
  match n with
  | O => ""
  | S n => digits n (z / 10) +:+ itoa (z mod 10)
  end.

(** The fraction of a second, without trailing zeros. *)
Definition fraction (ns : Z) : string :=
  if decide (ns = 0) then ""
  else "." +:+ trim_right (λ c, bool_decide (c = "0"%char)) (digits 9 ns).

(** [t.UTC().Format(time.RFC3339Nano)] for years of four digits. *)
Definition rfc3339 (t : time) : string :=
  let secs := t / 1000000000 in
  let '(y, m, d) := date_of_days (secs / 86400) in
  let s := secs mod 86400 in
  digits 4 y +:+ "-" +:+ digits 2 m +:+ "-" +:+ digits 2 d +:+ "T" +:+
  digits 2 (s / 3600) +:+ ":" +:+ digits 2 (s / 60 mod 60) +:+ ":" +:+ digits 2 (s mod 60) +:+
  fraction (t mod 1000000000) +:+ "Z".

Definition year_of (t : time) : Z := (date_of_days (t / 1000000000 / 86400)).1.1.

(** [Time.MarshalJSON] *)
Definition time_json (t : time) : result json :=
  if decide (0 ≤ year_of t < 10000) then Ok (JString (rfc3339 t))
  else Err (new_error ("json: error calling MarshalJSON for type time.Time: " +:+
                       "Time.MarshalJSON: year outside of range [0,9999]")).

(** ** Lemmas *)

Example rfc3339_epoch : rfc3339 0 = "1970-01-01T00:00:00Z".
Proof. vm_compute. reflexivity. Qed.
Example rfc3339_zero : rfc3339 zero_time = "0001-01-01T00:00:00Z".
Proof. vm_compute. reflexivity. Qed.
Example rfc3339_leap : rfc3339 1709164799120000000 = "2024-02-28T23:59:59.12Z".
Proof. vm_compute. reflexivity. Qed.
Example rfc3339_leap_day : rfc3339 1709164800000000001 = "2024-02-29T00:00:00.000000001Z".
Proof. vm_compute. reflexivity. Qed.

(** Checking a predicate on the first [n] integers. *)
Fixpoint check_from (P : Z → bool) (n : nat) (z : Z) : bool :=
  match n with O => true | S n => if P z then check_from P n (z + 1) else false end.

Lemma check_from_sound P n z : check_from P n z = true → ∀ x, z ≤ x < z + Z.of_nat n → P x = true.
Proof.
  revert z. induction n as [|n IH]; intros z H x Hx; [lia|]. simpl in H. destruct (P z) eqn:E; [|done].
  destruct (decide (x = z)) as [->|]; [done|]. apply (IH (z + 1)); [done|lia].
Qed.

(** The day of a 400-year era. *)
Definition year_of_era (doe : Z) : Z := (doe - doe / 1460 + doe / 36524 - doe / 146096) / 365.

Lemma year_of_era_spec doe :
  0 ≤ doe < 146097 → let yoe := year_of_era doe in
  0 ≤ yoe < 400 ∧ 0 ≤ doe - (365 * yoe + yoe / 4 - yoe / 100) < 366.
Proof.
  intros H. set (P := λ doe, let yoe := year_of_era doe in
    (0 <=? yoe) && (yoe <? 400) && (0 <=? doe - (365 * yoe + yoe / 4 - yoe / 100)) &&
    (doe - (365 * yoe + yoe / 4 - yoe / 100) <? 366)).
  assert (P doe = true) as HP.
  { apply (check_from_sound P (Z.to_nat 146097) 0); [vm_compute; reflexivity|rewrite Z2Nat.id; lia]. }
  unfold P in HP. clear P. cbv zeta in *. set (yoe := year_of_era doe) in *. clearbody yoe.
  rewrite !andb_true_iff, Z.leb_le, !Z.ltb_lt, Z.leb_le in HP. lia.
Qed.

(** The calendar has a date for every day. *)
Lemma days_of_date_of_days days :
  let '(y, m, d) := date_of_days days in days_of_date y m d = days.
Proof.
  unfold date_of_days, days_of_date. set (z := days + 719468).
  pose proof (Z.mod_pos_bound z 146097 ltac:(lia)) as Hd. pose proof (Z.div_mod z 146097 ltac:(lia)) as Hz.
  set (doe := z mod 146097) in *. set (era := z / 146097) in *. clearbody doe era.
  destruct (year_of_era_spec doe Hd) as [Hy Hdoy]. fold (year_of_era doe). set (yoe := year_of_era doe) in *.
  clearbody yoe. set (doy := doe - (365 * yoe + yoe / 4 - yoe / 100)) in *.
  assert (doe = 365 * yoe + yoe / 4 - yoe / 100 + doy) as Hdoe by lia. clearbody doy.
  set (mp := (5 * doy + 2) / 153).
  assert (0 ≤ mp < 12 ∧ 0 ≤ doy - (153 * mp + 2) / 5) as [Hmp _] by (unfold mp; Z.to_euclidean_division_equations; lia).
  clearbody mp. clear Hd.
  destruct (Z.ltb_spec mp 10) as [Hm|Hm].
  - rewrite (proj2 (Z.leb_gt (mp + 3) 2)) by lia.
    replace (mp + 3 - 3) with mp by lia. rewrite Z.add_0_r, Z.div_add, Z.div_small, Z.mod_add, Z.mod_small by lia. lia.
  - rewrite (proj2 (Z.leb_le (mp - 9) 2)) by lia.
    replace (mp - 9 + 9) with mp by lia. replace (yoe + era * 400 + 1 - 1) with (yoe + era * 400) by lia.
    rewrite Z.div_add, Z.div_small, Z.mod_add, Z.mod_small by lia. lia.
Qed.
