(* ===== verification/TimeParse.v ===== *)
(** * Reading points in time

    [time.Parse] with the layout [time.RFC3339Nano], which is also the bundle
    service's [TimeLayout]: the texts of [Time.Format] and the looser ones the
    Go parser takes (a one-digit hour, a comma before the fraction, a zone
    offset), with the texts of its errors. *)

From S2P Require Import Prelude GoStrings Json Upstream GoTime.
#[local] Open Scope list_scope.

(** ** Definitions *)

Definition RFC3339Nano : string := "2006-01-02T15:04:05.999999999Z07:00".

(** The quoting of package [time]. *)
Definition time_quote_char (c : ascii) : string :=
  let n := byte_of c in
  let backslash := Ascii.ascii_of_nat 92 in
  if ((n =? 34) || (n =? 92))%nat then String backslash (String c "")
  else if ((n <? 32) || (128 <=? n))%nat then String backslash ("x" +:+ hex_byte c)
  else String c "".
Fixpoint time_quote_body (s : string) : string :=
  match s with EmptyString => EmptyString | String c s => time_quote_char c +:+ time_quote_body s end.
Definition time_quote (s : string) : string :=
  let q := String (Ascii.ascii_of_nat 34) "" in q +:+ time_quote_body s +:+ q.

Definition digit_value (c : ascii) : option Z :=
  let n := Z.of_nat (byte_of c) in
  if (48 <=? n) && (n <=? 57) then Some (n - 48) else None.

(** The next [n] bytes as a number, when all of them are digits. *)
Fixpoint fixed (n : nat) (acc : Z) (s : string) : option (Z * string) :=
  match n, s with
  | O, _ => Some (acc, s)
  | S n, String c s => match digit_value c with Some d => fixed n (acc * 10 + d) s | None => None end
  | S _, EmptyString => None
  end.

(** [getnum(s, false)] *)
Definition one_or_two (s : string) : option (Z * string) :=
  match fixed 2 0 s with Some x => Some x | None => fixed 1 0 s end.

Fixpoint take_digits (s : string) : list Z * string :=
  match s with
  | EmptyString => ([], s)
  | String c s' => match digit_value c with
                   | Some d => let '(l, rest) := take_digits s' in (d :: l, rest)
                   | None => ([], s)
                   end
  end.

(** The first [n] digits of a fraction, as many as there are. *)
Fixpoint scaled (n : nat) (l : list Z) : Z :=
  match n, l with
  | S n, d :: l => d * 10 ^ Z.of_nat n + scaled n l
  | _, _ => 0
  end.

Definition is_leap (y : Z) : bool := (y mod 4 =? 0) && (negb (y mod 100 =? 0) || (y mod 400 =? 0)).
Definition daysIn (m y : Z) : Z :=
  if m =? 2 then (if is_leap y then 29 else 28)
  else if (m =? 4) || (m =? 6) || (m =? 9) || (m =? 11) then 30 else 31.

Section parse.
Context (value : string).

(** [ParseError]: an element that does not parse, or a message. *)
Definition cannot_parse (rest elem : string) : error :=
  new_error ("parsing time " +:+ time_quote value +:+ " as " +:+ time_quote RFC3339Nano +:+
             ": cannot parse " +:+ time_quote rest +:+ " as " +:+ time_quote elem).
Definition parse_message (m : string) : error := new_error ("parsing time " +:+ time_quote value +:+ m).
Definition out_of_range (what : string) : error := parse_message (": " +:+ what +:+ " out of range").

Definition expect (c : ascii) (s : string) : result string :=
  match s with
  | String d s' => if decide (d = c) then Ok s' else Err (cannot_parse s (String c ""))
  | EmptyString => Err (cannot_parse s (String c ""))
  end.

(** A number of the layout element [elem] with its range. *)
Definition number (get : string → option (Z * string)) (elem what : string) (lo hi : Z) (s : string) : result (Z * string) :=
  match get s with
  | None => Err (cannot_parse s elem)
  | Some (n, rest) => if (lo <=? n) && (n <=? hi) then Ok (n, rest) else Err (out_of_range what)
  end.

Definition fraction_of (s : string) : Z * string :=
  match s with
  | String c s' =>
      if decide (c = "."%char ∨ c = ","%char) then
        match take_digits s' with
        | ([], _) => (0, s)
        | (l, rest) => (scaled 9 l, rest)
        end
      else (0, s)
  | EmptyString => (0, s)
  end.

(** The offset from UTC in seconds. *)
Definition zone (s : string) : result (Z * string) :=
  let bad := Err (cannot_parse s "Z07:00") in
  match s with
  | EmptyString => bad
  | String c s' =>
      if decide (c = "Z"%char) then Ok (0, s')
      else match s' with
      | String h1 (String h2 (String colon (String m1 (String m2 rest)))) =>
          if decide (colon = ":"%char) then
            match fixed 2 0 (String h1 (String h2 "")), fixed 2 0 (String m1 (String m2 "")) with
            | Some (hr, _), Some (mm, _) =>
                if decide (c = "+"%char ∨ c = "-"%char) then
                  if 60 <? mm then Err (out_of_range "time zone offset minute")
                  else if 24 <? hr then Err (out_of_range "time zone offset hour")
                  else Ok ((if decide (c = "-"%char) then -1 else 1) * (hr * 3600 + mm * 60), rest)
                else bad
            | _, _ => bad
            end
          else bad
      | _ => bad
      end
  end.

Definition parse_text (s : string) : result time :=
  '(y, s) ← number (fixed 4 0) "2006" "year" 0 9999 s;
  s ← expect "-" s;
  '(m, s) ← number (fixed 2 0) "01" "month" 1 12 s;
  s ← expect "-" s;
  '(d, s) ← number (fixed 2 0) "02" "day" 0 99 s;
  s ← expect "T" s;
  '(hh, s) ← number one_or_two "15" "hour" 0 23 s;
  s ← expect ":" s;
  '(mm, s) ← number (fixed 2 0) "04" "minute" 0 59 s;
  s ← expect ":" s;
  '(ss, s) ← number (fixed 2 0) "05" "second" 0 59 s;
  let '(ns, s) := fraction_of s in
  '(offset, s) ← zone s;
  if decide (s ≠ "") then Err (parse_message (": extra text: " +:+ time_quote s))
  else if (d <? 1) || (daysIn m y <? d) then Err (parse_message ": day out of range")
  else Ok ((days_of_date y m d * 86400 + hh * 3600 + mm * 60 + ss - offset) * 1000000000 + ns).
End parse.

Definition time_Parse (value : string) : result time := parse_text value value.

Example time_Parse_epoch : time_Parse "1970-01-01T00:00:00Z" = Ok 0.
Proof. vm_compute. reflexivity. Qed.
Example time_Parse_offset : time_Parse "2024-02-29T01:00:00,5+01:00" = Ok 1709164800500000000.
Proof. vm_compute. reflexivity. Qed.
Example time_Parse_range : time_Parse "2023-02-29T00:00:00Z" =
  Err (parse_message "2023-02-29T00:00:00Z" ": day out of range").
Proof. vm_compute. reflexivity. Qed.

(** ** Lemmas *)

(** The dates of an era are dates. *)
Definition valid_date (y m d : Z) : bool := (1 <=? m) && (m <=? 12) && (1 <=? d) && (d <=? daysIn m y).

Lemma is_leap_era y era : is_leap (y + era * 400) = is_leap y.
Proof.
  unfold is_leap.
  replace (y + era * 400) with (y + (era * 100) * 4) at 1 by lia. rewrite Z.mod_add by lia.
  replace (y + era * 400) with (y + (era * 4) * 100) at 1 by lia. rewrite Z.mod_add by lia.
  by rewrite Z.mod_add.
Qed.

Lemma date_of_era doe era :
  0 ≤ doe < 146097 →
  date_of_days (doe + era * 146097 - 719468) =
    (let '(y, m, d) := date_of_days (doe - 719468) in (y + era * 400, m, d)).
Proof.
  intros H. unfold date_of_days.
  replace (doe + era * 146097 - 719468 + 719468) with (doe + era * 146097) by lia.
  replace (doe - 719468 + 719468) with doe by lia.
  assert ((doe + era * 146097) / 146097 = era) as -> by (rewrite Z.div_add, Z.div_small by lia; lia).
  assert ((doe + era * 146097) mod 146097 = doe) as -> by (rewrite Z.mod_add, Z.mod_small by lia; lia).
  assert (doe / 146097 = 0) as -> by (apply Z.div_small; lia).
  assert (doe mod 146097 = doe) as -> by (apply Z.mod_small; lia).
  cbv zeta. f_equal. f_equal. ring.
Qed.

Lemma date_of_days_valid days : let '(y, m, d) := date_of_days days in valid_date y m d = true.
Proof.
  pose proof (Z.mod_pos_bound (days + 719468) 146097 ltac:(lia)) as Hd.
  pose proof (Z.div_mod (days + 719468) 146097 ltac:(lia)) as Hz.
  set (doe := (days + 719468) mod 146097) in *. set (era := (days + 719468) / 146097) in *. clearbody doe era.
  replace days with (doe + era * 146097 - 719468) by lia. rewrite date_of_era by done.
  set (P := λ doe, let '(y, m, d) := date_of_days (doe - 719468) in valid_date y m d).
  assert (P doe = true) as HP.
  { apply (check_from_sound P (Z.to_nat 146097) 0); [vm_compute; reflexivity|rewrite Z2Nat.id; lia]. }
  unfold P in HP. destruct (date_of_days (doe - 719468)) as [[y m] d].
  unfold valid_date, daysIn in *. by rewrite is_leap_era.
Qed.

(** *** Digits *)

Definition digit_char (d : Z) : ascii := Ascii.ascii_of_nat (Z.to_nat (48 + d)).

Lemma digit_cases d (P : Z → Prop) :
  0 ≤ d < 10 → P 0 → P 1 → P 2 → P 3 → P 4 → P 5 → P 6 → P 7 → P 8 → P 9 → P d.
Proof.
  intros H. assert (d = 0 ∨ d = 1 ∨ d = 2 ∨ d = 3 ∨ d = 4 ∨ d = 5 ∨ d = 6 ∨ d = 7 ∨ d = 8 ∨ d = 9) by lia.
  naive_solver.
Qed.

Lemma itoa_digit d : 0 ≤ d < 10 → itoa d = String (digit_char d) "".
Proof. intros H. revert d H. intros d H. apply (digit_cases d (λ d, itoa d = String (digit_char d) "")); done. Qed.

Lemma digit_value_char d : 0 ≤ d < 10 → digit_value (digit_char d) = Some d.
Proof. intros H. apply (digit_cases d (λ d, digit_value (digit_char d) = Some d)); done. Qed.

Lemma digit_zero d : 0 ≤ d < 10 → bool_decide (digit_char d = "0"%char) = bool_decide (d = 0).
Proof. intros H. apply (digit_cases d (λ d, bool_decide (digit_char d = "0"%char) = bool_decide (d = 0))); done. Qed.

(** [digits] as a list. *)
Fixpoint digit_list (n : nat) (z : Z) : list Z :=
  match n with O => [] | S n => digit_list n (z / 10) ++ [z mod 10] end.
Definition text_of (l : list Z) : string := foldr (λ d s, String (digit_char d) s) "" l.

Lemma text_of_app l l' : text_of (l ++ l') = text_of l +:+ text_of l'.
Proof. induction l as [|d l IH]; simpl; [done|]. by rewrite IH. Qed.

Lemma digit_list_range n z : Forall (λ d, 0 ≤ d < 10) (digit_list n z).
Proof.
  induction n as [|n IH] in z |- *; simpl; [done|]. apply Forall_app. split; [done|].
  repeat constructor; apply Z.mod_pos_bound; lia.
Qed.

Lemma digits_text n z : digits n z = text_of (digit_list n z).
Proof.
  induction n as [|n IH] in z |- *; simpl; [done|]. rewrite text_of_app, IH. f_equal. simpl.
  apply itoa_digit, Z.mod_pos_bound. lia.
Qed.

Lemma length_digit_list n z : length (digit_list n z) = n.
Proof. induction n as [|n IH] in z |- *; simpl; [done|]. rewrite length_app, IH. simpl. lia. Qed.

Lemma fixed_text l acc s :
  Forall (λ d, 0 ≤ d < 10) l → fixed (length l) acc (text_of l +:+ s) = Some (foldl (λ a d, a * 10 + d) acc l, s).
Proof.
  intros H. induction H as [|d l Hd _ IH] in acc |- *; simpl; [by destruct s|]. by rewrite digit_value_char.
Qed.

Lemma digit_list_value n z acc :
  0 ≤ z → foldl (λ a d, a * 10 + d) acc (digit_list n z) = acc * 10 ^ Z.of_nat n + z mod 10 ^ Z.of_nat n.
Proof.
  intros Hz. induction n as [|n IH] in z, acc, Hz |- *; simpl; [rewrite Z.mod_1_r; lia|].
  rewrite foldl_app, IH by (apply Z.div_pos; lia). simpl.
  rewrite Nat2Z.inj_succ, Z.pow_succ_r by lia.
  rewrite (Z.rem_mul_r z 10 (10 ^ Z.of_nat n)) by (try lia; apply Z.pow_pos_nonneg; lia). lia.
Qed.

Lemma fixed_digits n z s : 0 ≤ z < 10 ^ Z.of_nat n → fixed n 0 (digits n z +:+ s) = Some (z, s).
Proof.
  intros H. rewrite digits_text. pose proof (fixed_text (digit_list n z) 0 s (digit_list_range n z)) as Hf.
  rewrite length_digit_list in Hf. rewrite Hf, digit_list_value by lia. by rewrite Z.mod_small.
Qed.

(** *** The fraction of a second *)

Lemma scaled_app n l l' :
  (length l ≤ n)%nat → scaled n (l ++ l') = scaled n l + scaled (n - length l) l'.
Proof.
  induction l as [|d l IH] in n |- *; simpl; intros H; [destruct n; simpl; lia|].
  destruct n as [|n]; [lia|]. simpl. rewrite IH by lia. lia.
Qed.

Lemma scaled_zeros n l : Forall (λ d, d = 0) l → scaled n l = 0.
Proof. intros H. induction H as [|d l -> _ IH] in n |- *; destruct n; simpl; [done..|]. by rewrite IH. Qed.

Lemma scaled_value l acc :
  acc * 10 ^ Z.of_nat (length l) + scaled (length l) l = foldl (λ a d, a * 10 + d) acc l.
Proof.
  induction l as [|d l IH] in acc |- *; simpl; [lia|]. rewrite <-IH.
  rewrite Nat2Z.inj_succ, Z.pow_succ_r by lia. lia.
Qed.

Lemma scaled_digits n z : 0 ≤ z < 10 ^ Z.of_nat n → scaled n (digit_list n z) = z.
Proof.
  intros H. pose proof (scaled_value (digit_list n z) 0) as Hs. rewrite length_digit_list in Hs.
  rewrite digit_list_value, Z.mod_small in Hs by lia. lia.
Qed.

(** Trimming zeros drops a tail of zeros. *)
Lemma trim_zeros l :
  Forall (λ d, 0 ≤ d < 10) l →
  ∃ l1 l2, l = l1 ++ l2 ∧ trim_right (λ c, bool_decide (c = "0"%char)) (text_of l) = text_of l1 ∧ Forall (λ d, d = 0) l2.
Proof.
  intros H. induction H as [|d l Hd _ (l1 & l2 & -> & IH & Hz)]; [by exists [], []|].
  cbn [text_of foldr]. fold (text_of (l1 ++ l2)). cbn [trim_right]. rewrite IH, digit_zero by done. destruct l1 as [|e l1].
  - simpl. destruct (decide (d = 0)) as [->|Hn].
    + exists [], (0 :: l2). by repeat constructor.
    + rewrite bool_decide_false by done. by exists [d], l2.
  - by exists (d :: e :: l1), l2.
Qed.

Lemma take_digits_text l s :
  Forall (λ d, 0 ≤ d < 10) l → (match s with String c _ => digit_value c = None | _ => True end) →
  take_digits (text_of l +:+ s) = (l, s).
Proof.
  intros H Hs. induction H as [|d l Hd _ IH]; simpl.
  - destruct s as [|c s]; simpl; [done|]. by rewrite Hs.
  - by rewrite digit_value_char, IH.
Qed.

Lemma fraction_of_fraction ns :
  0 ≤ ns < 1000000000 → fraction_of (fraction ns +:+ "Z") = (ns, "Z").
Proof.
  intros H. unfold fraction. case_decide as H0; [by subst|]. rewrite digits_text.
  destruct (trim_zeros (digit_list 9 ns) (digit_list_range 9 ns)) as (l1 & l2 & Hl & -> & Hz).
  pose proof (digit_list_range 9 ns) as Hr. pose proof (length_digit_list 9 ns) as Hlen. rewrite Hl in Hr, Hlen.
  rewrite length_app in Hlen. apply Forall_app in Hr as [Hr _].
  pose proof (scaled_digits 9 ns H) as Hv. rewrite Hl, scaled_app, (scaled_zeros _ l2) in Hv by (done || lia).
  change (fraction_of (String "." (text_of l1 +:+ "Z")) = (ns, "Z")). cbn [fraction_of].
  rewrite decide_True by by left. rewrite take_digits_text by done.
  destruct l1; [|by rewrite <-Hv, Z.add_0_r]. simpl in Hv. lia.
Qed.

(** *** What is written is read *)

Lemma expect_char v c s : expect v c (String c "" +:+ s) = Ok s.
Proof. simpl. by rewrite decide_True. Qed.

Lemma number_digits v n elem what lo hi z s :
  0 ≤ z < 10 ^ Z.of_nat n → lo ≤ z ≤ hi →
  number v (fixed n 0) elem what lo hi (digits n z +:+ s) = Ok (z, s).
Proof.
  intros H Hz. unfold number. rewrite fixed_digits by done.
  by rewrite (proj2 (Z.leb_le lo z)), (proj2 (Z.leb_le z hi)) by lia.
Qed.

Lemma hour_digits v hi z s :
  0 ≤ z < 100 → z ≤ hi → number v one_or_two "15" "hour" 0 hi (digits 2 z +:+ s) = Ok (z, s).
Proof.
  intros H Hz. unfold number, one_or_two. rewrite fixed_digits by (simpl; lia).
  by rewrite (proj2 (Z.leb_le 0 z)), (proj2 (Z.leb_le z hi)) by lia.
Qed.

Lemma seconds_of_day s :
  0 ≤ s < 86400 → s / 3600 * 3600 + s / 60 mod 60 * 60 + s mod 60 = s ∧
  0 ≤ s / 3600 < 24 ∧ 0 ≤ s / 60 mod 60 < 60 ∧ 0 ≤ s mod 60 < 60.
Proof. intros H. Z.to_euclidean_division_equations. lia. Qed.

(** [time.Parse] inverts [Format] on the years that RFC 3339 can write. *)
Lemma time_Parse_rfc3339 t : 0 ≤ year_of t < 10000 → time_Parse (rfc3339 t) = Ok t.
Proof.
  intros Hy. unfold time_Parse. generalize (rfc3339 t) at 1 as v. intros v. unfold year_of in Hy. unfold parse_text, rfc3339.
  set (secs := t / 1000000000) in *.
  pose proof (days_of_date_of_days (secs / 86400)) as Hdate. pose proof (date_of_days_valid (secs / 86400)) as Hvalid.
  destruct (date_of_days (secs / 86400)) as [[y m] d]. simpl in Hy.
  unfold valid_date in Hvalid. rewrite !andb_true_iff, !Z.leb_le in Hvalid. destruct Hvalid as [[[Hm1 Hm2] Hd1] Hd2].
  assert (d ≤ 31) as Hd3. { unfold daysIn in Hd2. repeat case_match; lia. }
  destruct (seconds_of_day (secs mod 86400)) as (Hsum & Hhh & Hmm & Hss); [apply Z.mod_pos_bound; lia|].
  pose proof (Z.mod_pos_bound t 1000000000 ltac:(lia)) as Hns.
  pose proof (Z.div_mod t 1000000000 ltac:(lia)) as Ht. pose proof (Z.div_mod secs 86400 ltac:(lia)) as Hs.
  rewrite number_digits by (simpl; lia). cbn [mbind result_bind]. rewrite expect_char. cbn [mbind result_bind].
  rewrite number_digits by (simpl; lia). cbn [mbind result_bind]. rewrite expect_char. cbn [mbind result_bind].
  rewrite number_digits by (simpl; lia). cbn [mbind result_bind]. rewrite expect_char. cbn [mbind result_bind].
  rewrite hour_digits by lia. cbn [mbind result_bind]. rewrite expect_char. cbn [mbind result_bind].
  rewrite number_digits by (simpl; lia). cbn [mbind result_bind]. rewrite expect_char. cbn [mbind result_bind].
  rewrite number_digits by (simpl; lia). cbn [mbind result_bind]. rewrite fraction_of_fraction by done.
  cbn [zone]. rewrite decide_True by done. cbn [mbind result_bind]. rewrite decide_False by (by intros []).
  rewrite (proj2 (Z.ltb_ge d 1)), (proj2 (Z.ltb_ge (daysIn m y) d)) by lia. simpl. f_equal. rewrite Hdate. unfold secs in *. lia.
Qed.
