(* ===== verification/JsonParse.v ===== *)
(** * Reading JSON text

    The text side of [encoding/json]: [Parse] reads a whole document into the tree
    that the decoders of [JsonDecode] take, with Go's escapes, surrogate pairs and
    replacement of invalid UTF-8.  An integer literal is [JInt], any other number
    (and minus zero) the nearest float64.  The limit on nesting and the texts of
    syntax errors are left out: a text that is no document is [None]. *)

From stdpp Require Import pretty.
From S2P Require Import Prelude GoStrings Floats Json JsonDecode GoTime TimeParse.
From Corelib Require Import SpecFloat.
#[local] Open Scope list_scope.

(** ** Definitions *)

(** *** Strings *)

Definition ascii_at (n : Z) : ascii := Ascii.ascii_of_nat (Z.to_nat n).

Definition hex_value (c : ascii) : option Z :=
  let n := Z.of_nat (byte_of c) in
  if (48 <=? n) && (n <=? 57) then Some (n - 48)
  else if (97 <=? n) && (n <=? 102) then Some (n - 87)
  else if (65 <=? n) && (n <=? 70) then Some (n - 55)
  else None.

(** [getu4] after the backslash and the u. *)
Definition hex4 (a b c d : ascii) : option Z :=
  match hex_value a, hex_value b, hex_value c, hex_value d with
  | Some a, Some b, Some c, Some d => Some (a * 4096 + b * 256 + c * 16 + d)
  | _, _, _, _ => None
  end.

(** [utf8.AppendRune] *)
Definition utf8_of (r : Z) : string :=
  if r <? 128 then String (ascii_at r) ""
  else if r <? 2048 then String (ascii_at (192 + r / 64)) (String (ascii_at (128 + r mod 64)) "")
  else if r <? 65536 then
    String (ascii_at (224 + r / 4096)) (String (ascii_at (128 + r / 64 mod 64)) (String (ascii_at (128 + r mod 64)) ""))
  else String (ascii_at (240 + r / 262144)) (String (ascii_at (128 + r / 4096 mod 64))
         (String (ascii_at (128 + r / 64 mod 64)) (String (ascii_at (128 + r mod 64)) ""))).

Definition replacement : string := utf8_of 65533.

Definition high_surrogate (r : Z) : bool := (55296 <=? r) && (r <? 56320).
Definition low_surrogate (r : Z) : bool := (56320 <=? r) && (r <? 57344).

Definition simple_escape (c : ascii) : option ascii :=
  let n := byte_of c in
  if ((n =? 34) || (n =? 92) || (n =? 47))%nat then Some c
  else if (n =? 98)%nat then Some (ascii_at 8)
  else if (n =? 102)%nat then Some (ascii_at 12)
  else if (n =? 110)%nat then Some (ascii_at 10)
  else if (n =? 114)%nat then Some (ascii_at 13)
  else if (n =? 116)%nat then Some (ascii_at 9)
  else None.

Definition before (p : string) (r : option (string * string)) : option (string * string) :=
  match r with Some (s, rest) => Some (p +:+ s, rest) | None => None end.

(** The string after its opening quote, and what follows its closing quote. *)
Fixpoint read_string (s : string) : option (string * string) :=
  match s with
  | EmptyString => None
  | String a s1 =>
      if (byte_of a =? 34)%nat then Some ("", s1)
      else if (byte_of a =? 92)%nat then
        match s1 with
        | EmptyString => None
        | String b s2 =>
            match simple_escape b with
            | Some c => before (String c "") (read_string s2)
            | None =>
                if (byte_of b =? 117)%nat then
                  match s2 with
                  | String h1 (String h2 (String h3 (String h4 s3))) =>
                      match hex4 h1 h2 h3 h4 with
                      | None => None
                      | Some r =>
                          if high_surrogate r then
                            match s3 with
                            | String e (String u (String k1 (String k2 (String k3 (String k4 s4))))) =>
                                match (if ((byte_of e =? 92) && (byte_of u =? 117))%nat then hex4 k1 k2 k3 k4 else None) with
                                | Some r2 =>
                                    if low_surrogate r2
                                    then before (utf8_of ((r - 55296) * 1024 + (r2 - 56320) + 65536)) (read_string s4)
                                    else before replacement (read_string s3)
                                | None => before replacement (read_string s3)
                                end
                            | _ => before replacement (read_string s3)
                            end
                          else if low_surrogate r then before replacement (read_string s3)
                          else before (utf8_of r) (read_string s3)
                      end
                  | _ => None
                  end
                else None
            end
        end
      else if (byte_of a <? 32)%nat then None
      else if (byte_of a <? 128)%nat then before (String a "") (read_string s1)
      else match s1 with
      | String b s2 =>
          if utf8_pair a b then before (String a (String b "")) (read_string s2)
          else match s2 with
          | String c s3 =>
              if utf8_triple a b c then before (String a (String b (String c ""))) (read_string s3)
              else match s3 with
              | String d s4 =>
                  if utf8_quad a b c d then before (String a (String b (String c (String d "")))) (read_string s4)
                  else before replacement (read_string s1)
              | EmptyString => before replacement (read_string s1)
              end
          | EmptyString => before replacement (read_string s1)
          end
      | EmptyString => before replacement (read_string s1)
      end
  end.

(** *** Numbers *)

Definition is_char (n : nat) (c : ascii) : bool := (byte_of c =? n)%nat.

(** A leading character, if it is there. *)
Definition take_char (p : ascii → bool) (s : string) : bool * string :=
  match s with String c r => if p c then (true, r) else (false, s) | EmptyString => (false, s) end.

Definition digits_value (l : list Z) : Z := foldl (λ acc d, acc * 10 + d) 0 l.

(** The float64 nearest to [m * 10^k], which may overflow. *)
Definition f64_of_decimal (neg : bool) (m k : Z) : float64 :=
  if decide (m = 0) then S754_zero neg
  else let '(n, d) := pow10 k in
       match f64_of_ratio (Z.to_pos (m * n)) (Z.to_pos d) with
       | S754_finite _ p e => S754_finite neg p e
       | S754_infinity _ => S754_infinity neg
       | S754_zero _ => S754_zero neg
       | S754_nan => S754_nan
       end.

(** The digits after a point: none without a point, at least one with it. *)
Definition read_fraction (s : string) : option (list Z * string) :=
  match take_char (is_char 46) s with
  | (false, s) => Some ([], s)
  | (true, s) => match take_digits s with ([], _) => None | (l, s) => Some (l, s) end
  end.

Definition read_exponent (s : string) : option (option Z * string) :=
  match take_char (λ c, is_char 101 c || is_char 69 c) s with
  | (false, s) => Some (None, s)
  | (true, s) =>
      let '(neg, s) := take_char (is_char 45) s in
      let '(_, s) := if neg then (true, s) else take_char (is_char 43) s in
      match take_digits s with
      | ([], _) => None
      | (l, s) => Some (Some (if neg then - digits_value l else digits_value l), s)
      end
  end.

Definition read_magnitude (neg : bool) (s : string) : option (json * string) :=
  match take_digits s with
  | ([], _) => None
  | (0 :: _ :: _, _) => None
  | (l, s) =>
      match read_fraction s with
      | None => None
      | Some (frac, s) =>
          match read_exponent s with
          | None => None
          | Some (e, s) =>
              let m := digits_value (l ++ frac) in
              match frac, e with
              | [], None => if neg && bool_decide (m = 0) then Some (JFloat (S754_zero true), s)
                            else Some (JInt (if neg then - m else m), s)
              | _, _ => Some (JFloat (f64_of_decimal neg m (default 0 e - Z.of_nat (length frac))), s)
              end
          end
      end
  end.

Definition read_number (s : string) : option (json * string) :=
  let '(neg, s) := take_char (is_char 45) s in read_magnitude neg s.

(** *** Values *)

Fixpoint skip_ws (s : string) : string :=
  match s with
  | String c r => if is_char 32 c || is_char 9 c || is_char 10 c || is_char 13 c then skip_ws r else s
  | EmptyString => s
  end.

Definition read_literal (s : string) : option (json * string) :=
  match s with
  | String "n" (String "u" (String "l" (String "l" r))) => Some (JNull, r)
  | String "t" (String "r" (String "u" (String "e" r))) => Some (JBool true, r)
  | String "f" (String "a" (String "l" (String "s" (String "e" r)))) => Some (JBool false, r)
  | _ => None
  end.

Section values.
Context (read_value : string → option (json * string)).

(** After the bracket or a comma; [fuel] bounds the number of elements. *)
Fixpoint read_elements (fuel : nat) (s : string) : option (list json * string) :=
  match fuel with
  | O => None
  | S fuel =>
      match read_value s with
      | None => None
      | Some (v, s) =>
          match skip_ws s with
          | String c s =>
              if is_char 93 c then Some ([v], s)
              else if is_char 44 c then
                match read_elements fuel s with Some (l, s) => Some (v :: l, s) | None => None end
              else None
          | EmptyString => None
          end
      end
  end.

Definition read_key (s : string) : option (string * string) :=
  match skip_ws s with
  | String c s =>
      if is_char 34 c then
        match read_string s with
        | Some (k, s) => match skip_ws s with
                         | String c s => if is_char 58 c then Some (k, s) else None
                         | EmptyString => None
                         end
        | None => None
        end
      else None
  | EmptyString => None
  end.

Fixpoint read_members (fuel : nat) (s : string) : option (list (string * json) * string) :=
  match fuel with
  | O => None
  | S fuel =>
      match read_key s with
      | None => None
      | Some (k, s) =>
          match read_value s with
          | None => None
          | Some (v, s) =>
              match skip_ws s with
              | String c s =>
                  if is_char 125 c then Some ([(k, v)], s)
                  else if is_char 44 c then
                    match read_members fuel s with Some (l, s) => Some ((k, v) :: l, s) | None => None end
                  else None
              | EmptyString => None
              end
          end
      end
  end.
End values.

(** [fuel] bounds the depth and the number of parts of one value. *)
Fixpoint read_value (fuel : nat) (s : string) : option (json * string) :=
  match fuel with
  | O => None
  | S fuel =>
      match skip_ws s with
      | EmptyString => None
      | String c r =>
          if is_char 123 c then
            match skip_ws r with
            | String d r' => if is_char 125 d then Some (JObject [], r')
                             else match read_members (read_value fuel) fuel r with
                                  | Some (l, r) => Some (JObject l, r) | None => None end
            | EmptyString => None
            end
          else if is_char 91 c then
            match skip_ws r with
            | String d r' => if is_char 93 d then Some (JArray [], r')
                             else match read_elements (read_value fuel) fuel r with
                                  | Some (l, r) => Some (JArray l, r) | None => None end
            | EmptyString => None
            end
          else if is_char 34 c then
            match read_string r with Some (t, r) => Some (JString t, r) | None => None end
          else if is_char 45 c || bool_decide (is_Some (digit_value c)) then read_number (String c r)
          else read_literal (String c r)
      end
  end.

Definition Parse (s : string) : option json :=
  match read_value (S (String.length s)) s with
  | Some (v, r) => match skip_ws r with EmptyString => Some v | _ => None end
  | None => None
  end.

(** [json.Decoder.Decode] reads one value and leaves what follows it. *)
Definition Decode (s : string) : option json := fst <$> read_value (S (String.length s)) s.

(** A document with its double quotes written as single ones. *)
Definition quoted (s : string) : string := string_map (λ c, if is_char 39 c then ascii_at 34 else c) s.

Example Parse_ex :
  json_Marshal <$> Parse (quoted " { 'a' : [1, -2.50e1,true , null], 'b':'\u00e9\n\ud83d\ude00\ud83d' } ") =
  Some (Ok (quoted "{'a':[1,-25,true,null],'b':'é\n😀�'}")).
Proof. vm_compute. reflexivity. Qed.
Example Parse_bad :
  Forall (λ t, Parse (quoted t) = None) ["01"; "[1,]"; "{'a' 1}"; "'\x'"; "1 2"; "-"; "2."; "nul"; ""].
Proof. repeat constructor. Qed.

(** ** What was written is read *)

(** Well-formed UTF-8: what [json.Marshal] does not have to replace. *)
Fixpoint utf8_ok (s : string) : bool :=
  match s with
  | EmptyString => true
  | String a s1 =>
      if (byte_of a <? 128)%nat then utf8_ok s1
      else match s1 with
      | EmptyString => false
      | String b s2 =>
          if utf8_pair a b then utf8_ok s2
          else match s2 with
          | EmptyString => false
          | String c s3 =>
              if utf8_triple a b c then utf8_ok s3
              else match s3 with
              | EmptyString => false
              | String d s4 => if utf8_quad a b c d then utf8_ok s4 else false
              end
          end
      end
  end.

Lemma read_char c t :
  (byte_of c <? 128)%nat = true → read_string (json_char c +:+ t) = before (String c "") (read_string t).
Proof. destruct c as [[] [] [] [] [] [] [] []]; intros H; first [discriminate H|reflexivity]. Qed.

Lemma read_high a s1 :
  (byte_of a <? 128)%nat = false →
  read_string (String a s1) =
  match s1 with
  | String b s2 =>
      if utf8_pair a b then before (String a (String b "")) (read_string s2)
      else match s2 with
      | String c s3 =>
          if utf8_triple a b c then before (String a (String b (String c ""))) (read_string s3)
          else match s3 with
          | String d s4 =>
              if utf8_quad a b c d then before (String a (String b (String c (String d "")))) (read_string s4)
              else before replacement (read_string s1)
          | EmptyString => before replacement (read_string s1)
          end
      | EmptyString => before replacement (read_string s1)
      end
  | EmptyString => before replacement (read_string s1)
  end.
Proof.
  intros H. apply Nat.ltb_ge in H. cbn [read_string].
  rewrite (proj2 (Nat.eqb_neq (byte_of a) 34)), (proj2 (Nat.eqb_neq (byte_of a) 92)) by lia.
  by rewrite (proj2 (Nat.ltb_ge (byte_of a) 32)), (proj2 (Nat.ltb_ge (byte_of a) 128)) by lia.
Qed.

Lemma byte_of_inj a n : byte_of a = n → a = Ascii.ascii_of_nat n.
Proof. intros <-. symmetry. apply Ascii.ascii_nat_embedding. Qed.

Lemma read_triple a b c t :
  (byte_of a <? 128)%nat = false → utf8_pair a b = false → utf8_triple a b c = true →
  read_string (json_triple a b c +:+ t) = before (String a (String b (String c ""))) (read_string t).
Proof.
  intros Ha Hp Ht. unfold json_triple. repeat case_decide.
  - destruct H as (->%byte_of_inj & ->%byte_of_inj & ->%byte_of_inj). reflexivity.
  - destruct H0 as (->%byte_of_inj & ->%byte_of_inj & ->%byte_of_inj). reflexivity.
  - cbn [String.append]. rewrite !sapp_cons, read_high by done. by rewrite Hp, Ht.
Qed.

(** A JSON string reads back. *)
Lemma read_json_body s t : utf8_ok s = true → read_string (json_body s +:+ dquote +:+ t) = Some (s, t).
Proof.
  remember (String.length s) as n eqn:Hn. revert s Hn. induction n as [n IH] using lt_wf_ind. intros s Hn Hs.
  destruct s as [|a s1]; [done|]. cbn [utf8_ok json_body] in *. destruct (byte_of a <? 128)%nat eqn:Ha.
  { rewrite sapp_assoc, read_char, (IH (String.length s1)) by (simpl in Hn; done || lia). done. }
  destruct s1 as [|b s2]; [done|]. destruct (utf8_pair a b) eqn:Hp.
  { rewrite !sapp_cons, read_high, Hp, (IH (String.length s2)) by (simpl in Hn; done || lia). done. }
  destruct s2 as [|c s3]; [done|]. destruct (utf8_triple a b c) eqn:Ht.
  { rewrite sapp_assoc, read_triple, (IH (String.length s3)) by (simpl in Hn; done || lia). done. }
  destruct s3 as [|d s4]; [done|]. destruct (utf8_quad a b c d) eqn:Hq; [|done].
  rewrite !sapp_cons, read_high, Hp, Ht, Hq, (IH (String.length s4)) by (simpl in Hn; done || lia). done.
Qed.

(** *** Integers *)

(** [rest] cannot continue a number. *)
Definition ends_number (rest : string) : Prop :=
  match rest with
  | String c _ => digit_value c = None ∧ is_char 46 c = false ∧ is_char 101 c || is_char 69 c = false
  | EmptyString => True
  end.

Lemma digits_value_snoc l d : digits_value (l ++ [d]) = digits_value l * 10 + d.
Proof. unfold digits_value. by rewrite foldl_app. Qed.

Lemma pretty_N_go_app x s : pretty_N_go x s = pretty_N_go x "" +:+ s.
Proof.
  revert s. induction (N.lt_wf_0 x) as [x _ IH]. intros s. destruct (decide (x = 0%N)) as [->|Hx]; [done|].
  assert (0 < x)%N as Hp by lia. rewrite (pretty_N_go_step x s), (pretty_N_go_step x "") by done.
  assert (x `div` 10 < x)%N as Hlt by (apply N.div_lt; lia).
  rewrite (IH _ Hlt (String _ s)), (IH _ Hlt (String _ "")), sapp_assoc. done.
Qed.

Lemma itoa_step z : 10 ≤ z → itoa z = itoa (z / 10) +:+ itoa (z mod 10).
Proof.
  intros Hz. assert (0 ≤ z mod 10 < 10) as Hm by (apply Z.mod_pos_bound; lia).
  assert (0 < z / 10) as Hd by (Z.to_euclidean_division_equations; lia).
  assert (∀ y, 0 < y → itoa y = pretty_N_go (Z.to_N y) "") as E.
  { intros [|p|p] Hy; [lia| |lia]. reflexivity. }
  rewrite (E z), (E (z / 10)) by lia. rewrite pretty_N_go_step by lia.
  rewrite pretty_N_go_app. rewrite Z2N.inj_div by lia. f_equal.
  rewrite <-(Z2N.id (z mod 10)) by lia. rewrite Z2N.inj_mod by lia. change (Z.to_N 10) with 10%N.
  assert (Z.to_N z mod 10 < 10)%N as Hlt by (apply N.mod_lt; lia).
  revert Hlt. generalize (Z.to_N z mod 10)%N. intros k Hk.
  assert (k = 0 ∨ k = 1 ∨ k = 2 ∨ k = 3 ∨ k = 4 ∨ k = 5 ∨ k = 6 ∨ k = 7 ∨ k = 8 ∨ k = 9)%N as Hc by lia.
  destruct_or! Hc; subst k; vm_compute; reflexivity.
Qed.

(** The decimal text of a positive number: its digits, the first not zero. *)
Lemma itoa_digits z :
  0 < z → ∃ d l, itoa z = text_of (d :: l) ∧ 0 < d < 10 ∧ Forall (λ d, 0 ≤ d < 10) l ∧ digits_value (d :: l) = z.
Proof.
  intros Hz. remember (Z.to_nat z) as n eqn:Hn. revert z Hz Hn.
  induction n as [n IH] using lt_wf_ind. intros z Hz Hn.
  destruct (decide (z < 10)) as [Hlt|Hge].
  { exists z, []. rewrite itoa_digit by lia. split; [done|]. split; [lia|]. split; [constructor|]. unfold digits_value. simpl. lia. }
  destruct (IH (Z.to_nat (z / 10))) with (z := z / 10) as (d & l & Ht & Hd & Hl & Hv);
    [Z.to_euclidean_division_equations; lia|Z.to_euclidean_division_equations; lia|done|].
  assert (0 ≤ z mod 10 < 10) as Hm by (apply Z.mod_pos_bound; lia).
  exists d, (l ++ [z mod 10]). split; [|split; [done|split]].
  - rewrite itoa_step by lia. rewrite Ht, itoa_digit by done. by rewrite app_comm_cons, text_of_app.
  - apply Forall_app. split; [done|by constructor].
  - rewrite app_comm_cons, digits_value_snoc, Hv. Z.to_euclidean_division_equations. lia.
Qed.

(** What cannot continue a number ends its digits, has no fraction and no exponent. *)
Lemma ends_number_spec rest :
  ends_number rest →
  (match rest with String c _ => digit_value c = None | _ => True end) ∧
  read_fraction rest = Some ([], rest) ∧ read_exponent rest = Some (None, rest).
Proof.
  destruct rest as [|c r]; [done|]. intros (H1 & H2 & H3). unfold read_fraction, read_exponent. cbn [take_char].
  by rewrite H2, H3.
Qed.

Lemma read_magnitude_itoa neg y rest :
  0 < y → ends_number rest → read_magnitude neg (itoa y +:+ rest) = Some (JInt (if neg then - y else y), rest).
Proof.
  intros Hy (Hd & Hf & He)%ends_number_spec. destruct (itoa_digits y Hy) as (d & l & -> & Hd0 & Hl & Hv).
  unfold read_magnitude. rewrite take_digits_text by (done || (constructor; [lia|done])).
  destruct d as [|d|d]; [lia| |lia]. rewrite Hf, He, app_nil_r, Hv, bool_decide_false by lia. by destruct neg.
Qed.

(** An integer reads back, up to what cannot continue it. *)
Lemma read_number_itoa z rest : ends_number rest → read_number (itoa z +:+ rest) = Some (JInt z, rest).
Proof.
  intros Hr. destruct (Z.lt_trichotomy z 0) as [Hz|[->|Hz]]; unfold read_number.
  - assert (itoa z = String "-" (itoa (- z))) as -> by (destruct z; [lia|lia|reflexivity]).
    rewrite sapp_cons. cbn [take_char]. change (is_char 45 "-") with true. cbv iota.
    rewrite read_magnitude_itoa by (done || lia). by rewrite Z.opp_involutive.
  - change (itoa 0 +:+ rest) with (String "0" rest). cbn [take_char]. change (is_char 45 "0") with false. cbv iota.
    apply ends_number_spec in Hr as (Hd & Hf & He). unfold read_magnitude.
    change (String "0" rest) with (text_of [0] +:+ rest). rewrite take_digits_text by (done || by repeat constructor).
    by rewrite Hf, He.
  - destruct (itoa_digits z Hz) as (d & l & Ht & Hd & _).
    assert (take_char (is_char 45) (itoa z +:+ rest) = (false, itoa z +:+ rest)) as ->.
    { rewrite Ht. change (text_of (d :: l) +:+ rest) with (String (digit_char d) (text_of l +:+ rest)). cbn [take_char].
      assert (is_char 45 (digit_char d) = false) as ->; [|done].
      apply (digit_cases d (λ d, is_char 45 (digit_char d) = false)); [lia|by vm_compute..]. }
    by apply read_magnitude_itoa.
Qed.

(** A number reads the same in a longer text that cannot continue it. *)
Section longer.
Context (rest : string) (Hrest : ends_number rest).

Lemma take_digits_longer s l s' : take_digits s = (l, s') → take_digits (s +:+ rest) = (l, s' +:+ rest).
Proof.
  revert l s'. induction s as [|c s IH]; intros l s' H.
  - injection H as <- <-. apply ends_number_spec in Hrest as (Hd & _ & _).
    destruct rest as [|c r]; [done|]. simpl. by rewrite Hd.
  - rewrite sapp_cons. simpl in *. destruct (digit_value c); [|by simplify_eq].
    destruct (take_digits s) as [l1 s1]. simplify_eq. by rewrite (IH l1 s').
Qed.

Lemma read_fraction_longer s l s' : read_fraction s = Some (l, s') → read_fraction (s +:+ rest) = Some (l, s' +:+ rest).
Proof.
  destruct s as [|c s]; [intros [= <- <-]; by apply ends_number_spec in Hrest as (_ & ? & _)|].
  rewrite sapp_cons. unfold read_fraction. cbn [take_char]. destruct (is_char 46 c); [|by intros [= <- <-]].
  destruct (take_digits s) as [l1 s1] eqn:E. apply take_digits_longer in E as ->.
  destruct l1; [done|]. by intros [= <- <-].
Qed.

Lemma take_char_longer p c s : take_char p (String c s +:+ rest) = ((take_char p (String c s)).1, (take_char p (String c s)).2 +:+ rest).
Proof. rewrite sapp_cons. simpl. by destruct (p c). Qed.

Lemma read_exponent_longer s e s' : read_exponent s = Some (e, s') → read_exponent (s +:+ rest) = Some (e, s' +:+ rest).
Proof.
  destruct s as [|c s]; [intros [= <- <-]; by apply ends_number_spec in Hrest as (_ & _ & ?)|].
  rewrite sapp_cons. unfold read_exponent. cbn [take_char]. destruct (is_char 101 c || is_char 69 c); [|by intros [= <- <-]].
  destruct s as [|d s]; [done|]. rewrite take_char_longer. destruct (take_char (is_char 45) (String d s)) as [neg s1] eqn:E1.
  cbn [fst snd]. assert (∃ sign s2, (if neg then (true, s1) else take_char (is_char 43) s1) = (sign, s2) ∧
    (if neg then (true, s1 +:+ rest) else take_char (is_char 43) (s1 +:+ rest)) = (sign, s2 +:+ rest)) as (sign & s2 & -> & ->).
  { destruct neg; [by eauto|]. cbn [take_char] in E1. destruct (is_char 45 d); [done|]. injection E1 as <-.
    rewrite take_char_longer. destruct (take_char _ _). eauto. }
  destruct (take_digits s2) as [l1 s3] eqn:E. apply take_digits_longer in E as ->.
  destruct l1; [done|]. by intros [= <- <-].
Qed.

Lemma read_number_longer s v s' : read_number s = Some (v, s') → read_number (s +:+ rest) = Some (v, s' +:+ rest).
Proof.
  unfold read_number. destruct s as [|c s]; [done|]. rewrite take_char_longer.
  destruct (take_char (is_char 45) (String c s)) as [neg s1]. cbn [fst snd]. unfold read_magnitude.
  destruct (take_digits s1) as [l s2] eqn:E. apply take_digits_longer in E as ->.
  destruct (read_fraction s2) as [[frac s3]|] eqn:E; [|by destruct l as [|[] [|]]].
  apply read_fraction_longer in E as ->.
  destruct (read_exponent s3) as [[e s4]|] eqn:E; [|by destruct l as [|[] [|]]]. apply read_exponent_longer in E as ->.
  intros H. repeat case_match; simplify_eq; done.
Qed.
End longer.

(** *** Documents *)

(** The documents whose text holds all of them: well-formed strings, and floats
    whose text reads back (an executable check). *)
Definition float_reads_back (f : float64) : bool :=
  match json_float f with
  | Some t => match read_number t with
              | Some (JInt z, EmptyString) => bool_decide (f64_of_Z z = f)
              | Some (JFloat g, EmptyString) => bool_decide (g = f)
              | _ => false
              end
  | None => false
  end.

Fixpoint writable (j : json) : bool :=
  match j with
  | JNull | JBool _ | JInt _ => true
  | JFloat f => float_reads_back f
  | JString s => utf8_ok s
  | JArray l => forallb writable l
  | JObject kvs => forallb (λ kv, utf8_ok kv.1 && writable kv.2) kvs
  end.

(** Induction under the arrays and objects. *)
Lemma json_nested_ind (P : json → Prop) :
  P JNull → (∀ b, P (JBool b)) → (∀ z, P (JInt z)) → (∀ f, P (JFloat f)) → (∀ s, P (JString s)) →
  (∀ l, Forall P l → P (JArray l)) → (∀ kvs, Forall (λ kv, P kv.2) kvs → P (JObject kvs)) → ∀ j, P j.
Proof.
  intros Hn Hb Hi Hf Hs Ha Ho. fix IH 1. intros [|b|z|f|s|l|kvs]; [done|auto..| |].
  - apply Ha. induction l as [|j l IHl]; constructor; [apply IH|done].
  - apply Ho. induction kvs as [|[k j] l IHl]; constructor; [apply IH|done].
Qed.

(** The first character of a document is neither space nor a closing bracket. *)
Definition starts (t : string) : Prop :=
  match t with
  | String c _ => (is_char 32 c || is_char 9 c || is_char 10 c || is_char 13 c) || (is_char 93 c || is_char 125 c) = false
  | EmptyString => False
  end.

Lemma skip_ws_starts t rest : starts t → skip_ws (t +:+ rest) = t +:+ rest.
Proof. destruct t as [|c t]; [done|]. intros [H _]%orb_false_iff. rewrite sapp_cons. cbn [skip_ws]. by rewrite H. Qed.

(** What a reader of values [rv] makes of the text [t]. *)
Definition gives (rv : string → option (json * string)) (t : string) (v : json) : Prop :=
  starts t ∧ ∀ rest, ends_number rest → rv (t +:+ rest) = Some (v, rest).

Lemma Join_cons_cons sep x y l : Join sep (x :: y :: l) = x +:+ sep +:+ Join sep (y :: l).
Proof. done. Qed.

Lemma read_elements_gives rv t v ts vs fuel rest :
  Forall2 (gives rv) (t :: ts) (v :: vs) → (length ts < fuel)%nat →
  read_elements rv fuel (Join "," (t :: ts) +:+ String "]" rest) = Some (v :: vs, rest).
Proof.
  revert t v vs fuel. induction ts as [|t' ts IH]; intros t v vs fuel H Hf;
    (destruct fuel as [|fuel]; [simpl in Hf; lia|]); inversion H as [|? ? ? ? [_ Ht] Hts]; subst;
    inversion Hts as [|? v' ? vs' ? ?]; subst.
  - cbn [Join read_elements]. by rewrite Ht.
  - cbn [read_elements]. rewrite Join_cons_cons, !sapp_assoc, Ht by done.
    assert (read_elements rv fuel (Join "," (t' :: ts) +:+ String "]" rest) = Some (v' :: vs', rest)) as E
      by (apply IH; [done|simpl in Hf; lia]).
    change ("," +:+ ?x) with (String "," x). cbn [skip_ws]. change (is_char _ ",") with false at 1 2 3 4. cbn [orb].
    change (is_char 93 ",") with false. change (is_char 44 ",") with true. cbv iota. by rewrite E.
Qed.

(** A member and its text. *)
Definition member_gives (rv : string → option (json * string)) (t : string) (kv : string * json) : Prop :=
  ∃ body, t = json_string kv.1 +:+ ":" +:+ body ∧ utf8_ok kv.1 = true ∧ gives rv body kv.2.

Lemma read_key_string k rest : utf8_ok k = true → read_key (json_string k +:+ String ":" rest) = Some (k, rest).
Proof.
  intros H. unfold json_string. rewrite !sapp_assoc.
  unfold read_key. change (skip_ws (dquote +:+ ?x)) with (String (Ascii.ascii_of_nat 34) x).
  cbv iota. change (is_char 34 (Ascii.ascii_of_nat 34)) with true. cbv iota. by rewrite read_json_body.
Qed.

Lemma read_members_gives rv t v ts vs fuel rest :
  Forall2 (member_gives rv) (t :: ts) (v :: vs) → (length ts < fuel)%nat →
  read_members rv fuel (Join "," (t :: ts) +:+ String "}" rest) = Some (v :: vs, rest).
Proof.
  revert t v vs fuel. induction ts as [|t' ts IH]; intros t [k v] vs fuel H Hf;
    (destruct fuel as [|fuel]; [simpl in Hf; lia|]); inversion H as [|? ? ? ? (body & -> & Hk & _ & Hb) Hts]; subst;
    inversion Hts as [|? v' ? vs' ? ?]; subst; cbn [fst snd] in Hk, Hb.
  - cbn [Join read_members fst]. rewrite !sapp_assoc. change (":" +:+ ?x) with (String ":" x).
    rewrite read_key_string by done. by rewrite Hb.
  - cbn [read_members fst]. rewrite Join_cons_cons, !sapp_assoc.
    change (":" +:+ ?x) with (String ":" x). rewrite read_key_string, Hb by done.
    assert (read_members rv fuel (Join "," (t' :: ts) +:+ String "}" rest) = Some (v' :: vs', rest)) as E
      by (apply IH; [done|simpl in Hf; lia]).
    change ("," +:+ ?x) with (String "," x). cbn [skip_ws]. change (is_char _ ",") with false at 1 2 3 4. cbn [orb].
    change (is_char 125 ",") with false. change (is_char 44 ",") with true. cbv iota. by rewrite E.
Qed.

(** The length of a joined list bounds its parts and their number. *)
Lemma Join_length ts :
  (length ts ≤ S (String.length (Join "," ts)))%nat ∧ Forall (λ t, String.length t ≤ String.length (Join "," ts))%nat ts.
Proof.
  induction ts as [|t [|t' ts] IH]; [by split; [simpl; lia|]|by split; [simpl; lia|by constructor]|].
  rewrite Join_cons_cons, !sapp_length. destruct IH as [IH1 IH2]. cbn [String.length length] in *. split; [lia|].
  constructor; [lia|]. eapply Forall_impl; [exact IH2|]. simpl. lia.
Qed.

(** The text of a writable document reads back wherever it stands. *)
Definition readable (j : json) : Prop :=
  writable j = true →
  ∃ t j', json_Marshal j = Ok t ∧ reads j j' ∧ starts t ∧
          ∀ fuel, (String.length t < fuel)%nat → gives (read_value fuel) t j'.

Lemma read_value_string s fuel : utf8_ok s = true → (0 < fuel)%nat → gives (read_value fuel) (json_string s) (JString s).
Proof.
  intros H Hf. destruct fuel as [|fuel]; [lia|]. split; [done|]. intros rest _. unfold json_string. rewrite !sapp_assoc.
  cbn [read_value]. change (skip_ws (dquote +:+ ?x)) with (String (Ascii.ascii_of_nat 34) x). cbv iota.
  change (is_char 123 (Ascii.ascii_of_nat 34)) with false. change (is_char 91 (Ascii.ascii_of_nat 34)) with false.
  change (is_char 34 (Ascii.ascii_of_nat 34)) with true. cbv iota.
  by rewrite read_json_body.
Qed.

(** A text that is read as a number is read as a value. *)
Lemma read_value_number t v fuel :
  read_number t = Some (v, "") → (0 < fuel)%nat → gives (read_value fuel) t v.
Proof.
  intros H Hf. destruct fuel as [|fuel]; [lia|]. destruct t as [|c t]; [done|].
  assert (is_char 45 c || bool_decide (is_Some (digit_value c)) = true) as Hc.
  { unfold read_number in H. cbn [take_char] in H. destruct (is_char 45 c); [done|]. unfold read_magnitude in H.
    cbn [take_digits] in H. destruct (digit_value c); [|done]. apply bool_decide_true. eauto. }
  assert (starts (String c t) ∧ is_char 123 c || is_char 91 c || is_char 34 c = false) as [Hs Hn].
  { revert Hc. clear. destruct c as [[] [] [] [] [] [] [] []]; intros H; first [done|vm_compute in H; done]. }
  split; [done|]. intros rest Hr. apply (read_number_longer rest Hr) in H. cbn [read_value].
  rewrite skip_ws_starts by done. rewrite sapp_cons in *. apply orb_false_iff in Hn as [[-> ->]%orb_false_iff ->].
  cbv iota. by rewrite Hc.
Qed.

Lemma map_result_readable {A B} (f : A → result string) (w : A → bool) (Q : A → B → Prop) (P : nat → string → B → Prop) l :
  Forall (λ a, w a = true → ∃ t b, f a = Ok t ∧ Q a b ∧ ∀ fuel, (String.length t < fuel)%nat → P fuel t b) l →
  forallb w l = true →
  ∃ ts bs, map_result f l = Ok ts ∧ Forall2 Q l bs ∧
    ∀ fuel, Forall (λ t, String.length t < fuel)%nat ts → Forall2 (P fuel) ts bs.
Proof.
  induction 1 as [|a l Ha _ IH]; simpl.
  - intros _. exists [], []. repeat split; constructor.
  - intros [Hw Hl]%andb_true_iff. destruct (Ha Hw) as (t & b & Ht & Hq & Hb). destruct (IH Hl) as (ts & bs & Hts & Hqs & Hbs).
    exists (t :: ts), (b :: bs). rewrite Ht. csimpl. rewrite Hts. split; [done|]. split; [by constructor|].
    intros fuel [? ?]%Forall_cons. constructor; [by apply Hb|by apply Hbs].
Qed.

Lemma brackets_length l r ts n :
  String.length l = 1%nat → String.length r = 1%nat → (String.length (brackets l r ts) < S n)%nat →
  (length ts ≤ n)%nat ∧ Forall (λ t, String.length t < n)%nat ts.
Proof.
  intros Hl Hr. unfold brackets. rewrite !sapp_length, Hl, Hr. intros H. destruct (Join_length ts) as [H1 H2]. split; [lia|].
  eapply Forall_impl; [exact H2|]. simpl. lia.
Qed.

Lemma gives_array fuel ts vs :
  (String.length (brackets "[" "]" ts) < fuel)%nat →
  (∀ n, (fuel = S n) → Forall2 (gives (read_value n)) ts vs) → gives (read_value fuel) (brackets "[" "]" ts) (JArray vs).
Proof.
  intros Hf H. split; [done|]. intros rest _. destruct fuel as [|fuel]; [lia|].
  apply brackets_length in Hf as [Hn Hl]; [|done|done].
  specialize (H fuel eq_refl). unfold brackets. rewrite !sapp_assoc.
  destruct ts as [|t ts]; inversion H as [|? v ? vs' Ht Hts]; subst; [done|].
  change ("[" +:+ ?x) with (String "[" x). cbn [read_value].
  change (skip_ws (String "[" ?x)) with (String "[" x). cbv iota. change (is_char 123 "[") with false.
  change (is_char 91 "[") with true. cbv iota. change ("]" +:+ rest) with (String "]" rest).
  rewrite (read_elements_gives _ t v ts vs' fuel rest) by (done || (simpl in Hn; lia)).
  assert (starts (Join "," (t :: ts))) as Hs by (destruct Ht as [Ht _]; destruct t as [|c t], ts; done).
  rewrite skip_ws_starts by done. destruct (Join "," (t :: ts)) as [|c x]; [done|]. rewrite sapp_cons.
  cbn [starts] in Hs. apply orb_false_iff in Hs as [_ [-> _]%orb_false_iff]. done.
Qed.

Lemma gives_object fuel ts kvs :
  (String.length (brackets "{" "}" ts) < fuel)%nat →
  (∀ n, (fuel = S n) → Forall2 (member_gives (read_value n)) ts kvs) → gives (read_value fuel) (brackets "{" "}" ts) (JObject kvs).
Proof.
  intros Hf H. split; [done|]. intros rest _. destruct fuel as [|fuel]; [lia|].
  apply brackets_length in Hf as [Hn Hl]; [|done|done].
  specialize (H fuel eq_refl). unfold brackets. rewrite !sapp_assoc.
  destruct ts as [|t ts]; inversion H as [|? v ? vs' Ht Hts]; subst; [done|].
  change ("{" +:+ ?x) with (String "{" x). cbn [read_value].
  change (skip_ws (String "{" ?x)) with (String "{" x). cbv iota. change (is_char 123 "{") with true.
  cbv iota. change ("}" +:+ rest) with (String "}" rest).
  rewrite (read_members_gives _ t v ts vs' fuel rest) by (done || (simpl in Hn; lia)).
  assert (starts (Join "," (t :: ts))) as Hs by (destruct Ht as (b & -> & _); destruct ts; done).
  rewrite skip_ws_starts by done. destruct (Join "," (t :: ts)) as [|c x]; [done|]. rewrite sapp_cons.
  cbn [starts] in Hs. apply orb_false_iff in Hs as [_ [_ ->]%orb_false_iff]. done.
Qed.

Lemma json_readable j : readable j.
Proof.
  induction j as [|b|z|f|s|l IH|kvs IH] using json_nested_ind; unfold readable; simpl; intros Hw.
  - exists "null", JNull. split; [done|]. split; [constructor|]. split; [done|]. intros [|fuel] Hf; [lia|]. by split.
  - exists (if b then "true" else "false"), (JBool b). split; [done|]. split; [constructor|]. split; [by destruct b|].
    intros [|fuel] Hf; [lia|]. by destruct b.
  - assert (read_number (itoa z) = Some (JInt z, "")) as Hz by (rewrite <-(sapp_nil_r (itoa z)); by apply read_number_itoa).
    exists (itoa z), (JInt z). split; [done|]. split; [constructor|].
    assert (∀ fuel, (0 < fuel)%nat → gives (read_value fuel) (itoa z) (JInt z)) as Hg by (intros; by apply read_value_number).
    split; [by apply (Hg 1%nat); lia|]. intros fuel Hf. apply Hg. lia.
  - unfold float_reads_back in Hw. destruct (json_float f) as [t|] eqn:Ef; [|done].
    destruct (read_number t) as [[v r]|] eqn:Et; [|done].
    assert (r = "" ∧ reads (JFloat f) v) as [-> Hv].
    { destruct v; try done; (destruct r; [|done]); apply bool_decide_eq_true in Hw; subst; split; try done; by constructor. }
    exists t, v. split; [done|]. split; [done|].
    assert (∀ fuel, (0 < fuel)%nat → gives (read_value fuel) t v) as Hg by (intros; by apply read_value_number).
    split; [by apply (Hg 1%nat); lia|]. intros fuel Hf. apply Hg. lia.
  - exists (json_string s), (JString s). split; [done|]. split; [constructor|]. split; [done|].
    intros fuel Hf. apply read_value_string; [done|lia].
  - destruct (map_result_readable json_Marshal writable reads (λ n, gives (read_value n)) l) as (ts & vs & Hts & Hr & Hg); [|done|].
    { eapply Forall_impl; [exact IH|]. intros j Hj Hwj. destruct (Hj Hwj) as (t & v & ? & ? & _ & ?). by exists t, v. }
    exists (brackets "[" "]" ts), (JArray vs). rewrite Hts. csimpl. split; [done|]. split; [by constructor|]. split; [done|].
    intros fuel Hf. apply gives_array; [done|]. intros n ->. apply Hg. by apply (brackets_length "[" "]").
  - destruct (map_result_readable (λ kv, let '(k, v) := kv in body ← json_Marshal v; Ok (json_string k +:+ ":" +:+ body))
      (λ kv, utf8_ok kv.1 && writable kv.2) (λ a b, a.1 = b.1 ∧ reads a.2 b.2) (λ n, member_gives (read_value n)) kvs)
      as (ts & vs & Hts & Hr & Hg); [|done|].
    { eapply Forall_impl; [exact IH|]. intros [k j] Hj [Hk Hwj]%andb_true_iff. destruct (Hj Hwj) as (t & v & Ht & ? & _ & Hv).
      exists (json_string k +:+ ":" +:+ t), (k, v). simpl in *. rewrite Ht. csimpl. split; [done|]. split; [done|].
      intros fuel Hf. exists t. split; [done|]. split; [done|]. apply Hv. revert Hf. rewrite !sapp_length. lia. }
    exists (brackets "{" "}" ts), (JObject vs). rewrite Hts. csimpl. split; [done|]. split; [by constructor|]. split; [done|].
    intros fuel Hf. apply gives_object; [done|]. intros n ->. apply Hg. by apply (brackets_length "{" "}").
Qed.

(** Every document whose strings are well-formed UTF-8 and whose floats read back
    is written by [json.Marshal] as a text that parses to the same document, up to
    the integer form of an integral float; the text is its own fuel. *)
Lemma written_reads j :
  writable j = true → ∃ t j', json_Marshal j = Ok t ∧ Parse t = Some j' ∧ reads j j'.
Proof.
  intros H. destruct (json_readable j H) as (t & j' & Ht & Hr & _ & Hg). exists t, j'. split; [done|]. split; [|done].
  unfold Parse. destruct (Hg (S (String.length t))) as [_ Hp]; [lia|]. specialize (Hp "" I). rewrite sapp_nil_r in Hp. by rewrite Hp.
Qed.

Definition sample_document : json :=
  JObject [("name", JString (quoted "it's <é>")); ("score", JFloat (f64_tenths 75)); ("whole", JFloat (f64_of_Z 10));
           ("list", JArray [JInt (-42); JNull; JBool true; JArray []; JObject []])].

Example sample_document_writable : writable sample_document = true.
Proof. vm_compute. reflexivity. Qed.

(** Without floats nothing is read differently. *)
Fixpoint float_free (j : json) : bool :=
  match j with
  | JFloat _ => false
  | JArray l => forallb float_free l
  | JObject kvs => forallb (λ kv, float_free kv.2) kvs
  | _ => true
  end.

Lemma reads_exact j w : float_free j = true → reads j w → w = j.
Proof.
  revert w. induction j as [|b|z|f|s|l IH|kvs IH] using json_nested_ind; intros w Hf Hr; inversion Hr as [| |? l' Hl|? l' Hl]; subst;
    simpl in Hf; try done; f_equal; clear Hr.
  - induction Hl as [|a b l l' Hab _ IHl]; [done|]. apply Forall_cons in IH as [Ha IH]. simpl in Hf.
    apply andb_true_iff in Hf as [Hfa Hf]. f_equal; [by apply Ha|by apply IHl].
  - induction Hl as [|[k a] [k' b] l l' [Hk Hab] _ IHl]; [done|]. apply Forall_cons in IH as [Ha IH]. simpl in *. subst k'.
    apply andb_true_iff in Hf as [Hfa Hf]. f_equal; [|by apply IHl]. f_equal. by apply Ha.
Qed.

(** *** json.Unmarshal into a struct

    Unlike a decoder with [DisallowUnknownFields], it skips the members it does not
    know. *)

Fixpoint unmarshal_fields {S} (fs : fields S) (kvs : list (string * json)) (s : S) : result S :=
  match kvs with
  | [] => Ok s
  | (k, v) :: kvs =>
      match find_field k fs with
      | None => unmarshal_fields fs kvs s
      | Some d => s ← d v s; unmarshal_fields fs kvs s
      end
  end.

Definition unmarshal_struct {S} (ty : string) (fs : fields S) (v : json) (s : S) : result S :=
  match v with
  | JNull => Ok s
  | JObject kvs => unmarshal_fields fs kvs s
  | _ => Err (cannot_unmarshal (json_kind v) into_value ty)
  end.

(** [syntax_error] is the error for a text that is no document. *)
Definition json_Unmarshal {S} (syntax_error : string → error) (ty : string) (fs : fields S) (text : string) (s : S) : result S :=
  match Parse text with
  | None => Err (syntax_error text)
  | Some v => unmarshal_struct ty fs v s
  end.

(** What was marshalled from a document of strings and integers is what is decoded. *)
Lemma Unmarshal_Marshal {S} syntax_error ty (fs : fields S) j text s :
  writable j = true → float_free j = true → json_Marshal j = Ok text →
  json_Unmarshal syntax_error ty fs text s = unmarshal_struct ty fs j s.
Proof.
  intros Hw Hf Ht. destruct (written_reads j Hw) as (t & w & Ht' & Hp & Hr). rewrite Ht in Ht'.
  injection Ht' as <-. unfold json_Unmarshal. rewrite Hp. by rewrite (reads_exact j w).
Qed.

(** ** Values of type any

    [json.Unmarshal] into an [any]: numbers become float64, and the last member of a
    name stands.  A map is kept with its keys in the order [json.Marshal] writes. *)

Definition members (l : list (string * json)) : list (string * json) :=
  sort_by (λ a b : string * json, str_ltb a.1 b.1)
    (map_to_list (foldl (λ (m : gmap string json) kv, <[kv.1 := kv.2]> m) ∅ l)).

Fixpoint any_of (j : json) : result json :=
  match j with
  | JNull | JBool _ | JString _ => Ok j
  | JInt _ | JFloat _ => JFloat <$> dec_float into_value j (f64_of_Z 0)
  | JArray l => JArray <$> map_result any_of l
  | JObject kvs =>
      (λ l, JObject (members l)) <$> map_result (λ kv, let '(k, v) := kv in v ← any_of v; Ok (k, v)) kvs
  end.
