(* ===== verification/Base64.v ===== *)
(** * encoding/base64

    [base64.StdEncoding]: the encoder, and the lenient decoder of [DecodeString]
    (line breaks are skipped anywhere, the unused bits of the last digit are not
    looked at).  Byte strings are [string]s. *)

From stdpp Require Import pretty.
From S2P Require Import Prelude GoStrings Json JsonDecode GoTime TimeParse JsonParse.
#[local] Open Scope list_scope.

(** ** Definitions *)

Definition b64_char (d : Z) : ascii :=
  if d <? 26 then ascii_at (65 + d)
  else if d <? 52 then ascii_at (97 + (d - 26))
  else if d <? 62 then ascii_at (48 + (d - 52))
  else if d =? 62 then ascii_at 43 else ascii_at 47.

Definition b64_value (c : ascii) : option Z :=
  let n := Z.of_nat (byte_of c) in
  if (65 <=? n) && (n <=? 90) then Some (n - 65)
  else if (97 <=? n) && (n <=? 122) then Some (n - 71)
  else if (48 <=? n) && (n <=? 57) then Some (n + 4)
  else if n =? 43 then Some 62 else if n =? 47 then Some 63 else None.

Definition byte_value (c : ascii) : Z := Z.of_nat (byte_of c).

(** [EncodeToString] *)
Fixpoint b64_encode (s : string) : string :=
  match s with
  | EmptyString => ""
  | String a EmptyString =>
      let n := byte_value a in String (b64_char (n / 4)) (String (b64_char (n mod 4 * 16)) "==")
  | String a (String b EmptyString) =>
      let n := byte_value a * 256 + byte_value b in
      String (b64_char (n / 1024)) (String (b64_char (n / 16 mod 64)) (String (b64_char (n mod 16 * 4)) "="))
  | String a (String b (String c s)) =>
      let n := byte_value a * 65536 + byte_value b * 256 + byte_value c in
      String (b64_char (n / 262144)) (String (b64_char (n / 4096 mod 64))
        (String (b64_char (n / 64 mod 64)) (String (b64_char (n mod 64)) (b64_encode s))))
  end.

(** [CorruptInputError] *)
Definition corrupt_input (offset : Z) : error := new_error ("illegal base64 data at input byte " +:+ itoa offset).

Definition newline (c : ascii) : bool := is_char 10 c || is_char 13 c.

Fixpoint skip_newlines (s : string) (si : Z) : string * Z :=
  match s with
  | String c s' => if newline c then skip_newlines s' (si + 1) else (s, si)
  | EmptyString => (s, si)
  end.

(** The bytes of a quantum of digits. *)
Definition quantum (q : list Z) : string :=
  match q with
  | [a; b] => String (ascii_at (a * 4 + b / 16)) ""
  | [a; b; c] => String (ascii_at (a * 4 + b / 16)) (String (ascii_at (b mod 16 * 16 + c / 4)) "")
  | [a; b; c; d] =>
      String (ascii_at (a * 4 + b / 16)) (String (ascii_at (b mod 16 * 16 + c / 4)) (String (ascii_at (c mod 4 * 64 + d)) ""))
  | _ => ""
  end.

(** After the padding only line breaks may follow. *)
Definition after_padding (q : list Z) (s : string) (si : Z) : result string :=
  match skip_newlines s si with
  | (EmptyString, _) => Ok (quantum q)
  | (_, si) => Err (corrupt_input si)
  end.

(** At the first padding character. *)
Definition at_padding (q : list Z) (s : string) (si : Z) : result string :=
  match q with
  | [_; _] =>
      match skip_newlines s (si + 1) with
      | (EmptyString, si) => Err (corrupt_input si)
      | (String c s, si) => if is_char 61 c then after_padding q s (si + 1) else Err (corrupt_input (si - 1))
      end
  | [_; _; _] => after_padding q s (si + 1)
  | _ => Err (corrupt_input si)
  end.

(** [si] is the offset of [s] in the input, [q] the digits of the quantum so far. *)
Fixpoint b64_decode (s : string) (si : Z) (q : list Z) : result string :=
  match s with
  | EmptyString => match q with [] => Ok "" | _ => Err (corrupt_input (si - Z.of_nat (length q))) end
  | String c s =>
      match b64_value c with
      | Some d =>
          let q := q ++ [d] in
          if decide (length q = 4%nat) then rest ← b64_decode s (si + 1) []; Ok (quantum q +:+ rest)
          else b64_decode s (si + 1) q
      | None =>
          if newline c then b64_decode s (si + 1) q
          else if is_char 61 c then at_padding q s si
          else Err (corrupt_input si)
      end
  end.

(** [DecodeString] *)
Definition b64_DecodeString (s : string) : result string := b64_decode s 0 [].

Example b64_ex :
  b64_encode "Man" = "TWFu" ∧ b64_encode "Ma" = "TWE=" ∧ b64_encode "M" = "TQ==" ∧
  b64_DecodeString ("TW" +:+ String (ascii_at 10) "FuTQ==") = Ok "ManM".
Proof. vm_compute. done. Qed.
Example b64_bad_ex :
  Forall (λ '(s, n), b64_DecodeString s = Err (corrupt_input n))
    [("AAA", 0); ("!!!!", 0); ("====", 0); ("x===", 1); ("AA=A", 2); ("AA=", 3); ("AA==A", 4); ("AAA=AAAA", 4); ("AAAAA", 4)].
Proof. repeat constructor. Qed.

(** ** Lemmas *)

Lemma b64_value_char d : 0 ≤ d < 64 → b64_value (b64_char d) = Some d.
Proof.
  intros H. pose proof (check_from_sound (λ d, bool_decide (b64_value (b64_char d) = Some d)) 64 0 eq_refl d) as Hc.
  eapply bool_decide_eq_true_1, Hc. lia.
Qed.

Lemma byte_value_range c : 0 ≤ byte_value c < 256.
Proof. unfold byte_value, byte_of. pose proof (Ascii.nat_ascii_bounded c). lia. Qed.

Lemma ascii_at_byte c n : n = byte_value c → ascii_at n = c.
Proof. intros ->. unfold ascii_at, byte_value. rewrite Nat2Z.id. apply Ascii.ascii_nat_embedding. Qed.

(** One digit is read. *)
Lemma b64_decode_more d s si q :
  0 ≤ d < 64 → length (q ++ [d]) ≠ 4%nat → b64_decode (String (b64_char d) s) si q = b64_decode s (si + 1) (q ++ [d]).
Proof. intros H Hq. cbn [b64_decode]. by rewrite b64_value_char, decide_False. Qed.
Lemma b64_decode_full d s si q :
  0 ≤ d < 64 → length (q ++ [d]) = 4%nat →
  b64_decode (String (b64_char d) s) si q = (rest ← b64_decode s (si + 1) []; Ok (quantum (q ++ [d]) +:+ rest)).
Proof. intros H Hq. cbn [b64_decode]. by rewrite b64_value_char, decide_True. Qed.

#[local] Ltac bytes := apply ascii_at_byte; Z.to_euclidean_division_equations; lia.
#[local] Ltac digit := Z.to_euclidean_division_equations; lia.

Lemma b64_roundtrip_at s si : b64_decode (b64_encode s) si [] = Ok s.
Proof.
  remember (String.length s) as n eqn:Hn. revert s si Hn. induction n as [n IH] using lt_wf_ind. intros s si Hn.
  destruct s as [|a [|b [|c s]]]; [done|..]; cbn [b64_encode]; pose proof (byte_value_range a).
  - rewrite !b64_decode_more by (done || digit). transitivity (Ok (quantum [byte_value a / 4; byte_value a mod 4 * 16])); [done|].
    cbn [quantum]. do 2 f_equal. bytes.
  - pose proof (byte_value_range b). rewrite !b64_decode_more by (done || digit).
    transitivity (Ok (quantum [(byte_value a * 256 + byte_value b) / 1024; (byte_value a * 256 + byte_value b) / 16 mod 64;
                               (byte_value a * 256 + byte_value b) mod 16 * 4])); [done|].
    cbn [quantum]. do 2 f_equal; [bytes|]. f_equal. bytes.
  - pose proof (byte_value_range b). pose proof (byte_value_range c). rewrite !b64_decode_more by (done || digit).
    rewrite b64_decode_full by (done || digit). rewrite (IH (String.length s)) by (simpl in Hn; lia || done).
    change (Ok s ≫= ?f) with (f s). cbn [app quantum]. rewrite !sapp_cons. do 2 f_equal; [bytes|]. f_equal; [bytes|]. f_equal. bytes.
Qed.

Lemma b64_roundtrip s : b64_DecodeString (b64_encode s) = Ok s.
Proof. apply b64_roundtrip_at. Qed.

(** The text is ASCII, and empty only for no bytes. *)
Lemma b64_char_ascii d : 0 ≤ d < 64 → (byte_of (b64_char d) <? 128)%nat = true.
Proof.
  intros H. pose proof (check_from_sound (λ d, (byte_of (b64_char d) <? 128)%nat) 64 0 eq_refl d) as Hc. apply Hc. lia.
Qed.

Lemma utf8_ok_char c s : (byte_of c <? 128)%nat = true → utf8_ok (String c s) = utf8_ok s.
Proof. intros H. cbn [utf8_ok]. by rewrite H. Qed.

Lemma b64_encode_utf8 s : utf8_ok (b64_encode s) = true.
Proof.
  remember (String.length s) as n eqn:Hn. revert s Hn. induction n as [n IH] using lt_wf_ind. intros s Hn.
  destruct s as [|a [|b [|c s]]]; [done|..]; cbn [b64_encode]; pose proof (byte_value_range a).
  - rewrite !utf8_ok_char by (done || (apply b64_char_ascii; digit)). done.
  - pose proof (byte_value_range b). rewrite !utf8_ok_char by (done || (apply b64_char_ascii; digit)). done.
  - pose proof (byte_value_range b). pose proof (byte_value_range c).
    rewrite !utf8_ok_char by (apply b64_char_ascii; digit). apply (IH (String.length s)); [simpl in Hn; lia|done].
Qed.

Lemma b64_encode_nonempty s : s ≠ "" → b64_encode s ≠ "".
Proof. by destruct s as [|a [|b [|c s]]]. Qed.
