(* ===== verification/URL.v ===== *)
(** * net/url

    [url.Parse] as the program uses it: scheme, user information, host, path with its
    encoded form, query and fragment.  The address check of a host in square
    brackets is a parameter ([ip_literal]); the text of an error is Go's. *)

From stdpp Require Import pretty.
From S2P Require Import Prelude GoStrings GoPath Paths Json JsonParse.
#[local] Open Scope list_scope.

(** ** Definitions *)

Inductive encoding : Set := encodePath | encodeHost | encodeZone | encodeUserPassword | encodeFragment.
#[export] Instance encoding_eq_dec : EqDecision encoding.
Proof. solve_decision. Defined.

Definition among (chars : string) (c : ascii) : bool :=
  (fix go s := match s with EmptyString => false | String d s => (byte_of c =? byte_of d)%nat || go s end) chars.

Definition alnum (c : ascii) : bool := in_range 48 57 c || in_range 65 90 c || in_range 97 122 c.

(** [shouldEscape] *)
Definition shouldEscape (mode : encoding) (c : ascii) : bool :=
  if alnum c then false
  else if bool_decide (mode = encodeHost ∨ mode = encodeZone) && (among "!$&'()*+,;=:[]<>" c || (byte_of c =? 34)%nat) then false
  else if among "-_.~" c then false
  else if among "$&+,/:;=?@" c then
    match mode with
    | encodePath => is_char 63 c
    | encodeUserPassword => among "@/?:" c
    | encodeFragment => false
    | encodeHost | encodeZone => true
    end
  else negb (bool_decide (mode = encodeFragment) && among "!()*" c).

Definition invalid_escape (s : string) : error := new_error ("invalid URL escape " +:+ quote s).

(** One percent escape in a host or a zone is restricted. *)
Definition escape_allowed (mode : encoding) (h : Z) (v : ascii) (text : string) : bool :=
  match mode with
  | encodeHost => (8 <=? h) || bool_decide (text = "%25")
  | encodeZone => bool_decide (text = "%25") || is_char 32 v || negb (shouldEscape encodeHost v)
  | _ => true
  end.

(** [unescape] *)
Fixpoint url_unescape (mode : encoding) (s : string) : result string :=
  match s with
  | EmptyString => Ok ""
  | String c s1 =>
      if is_char 37 c then
        match s1 with
        | String a (String b s2) =>
            let text := String c (String a (String b "")) in
            match hex_value a, hex_value b with
            | Some h, Some l =>
                let v := ascii_at (h * 16 + l) in
                if escape_allowed mode h v text then rest ← url_unescape mode s2; Ok (String v rest)
                else Err (invalid_escape text)
            | _, _ => Err (invalid_escape text)
            end
        | _ => Err (invalid_escape s)
        end
      else if bool_decide (mode = encodeHost ∨ mode = encodeZone) && (byte_of c <? 128)%nat && shouldEscape mode c then
        Err (new_error ("invalid character " +:+ quote (String c "") +:+ " in host name"))
      else rest ← url_unescape mode s1; Ok (String c rest)
  end.

Definition hex_upper (n : nat) : ascii := ascii_at (Z.of_nat n + (if (n <? 10)%nat then 48 else 55)).

(** [escape] *)
Fixpoint url_escape (mode : encoding) (s : string) : string :=
  match s with
  | EmptyString => ""
  | String c s =>
      (if shouldEscape mode c
       then String "%" (String (hex_upper (byte_of c / 16)) (String (hex_upper (byte_of c mod 16)) "")) else String c "")
      +:+ url_escape mode s
  end.

Record URL : Type := mkURL {
  Scheme : string;
  Opaque : string;
  User : option (string * option string);
  urlHost : string;
  Path : string;
  RawPath : string;
  RawQuery : string;
  Fragment : string;
}.

(** [getScheme]: what precedes the colon, where it can be a scheme. *)
Fixpoint get_scheme (s : string) : option (string * string) :=
  match s with
  | EmptyString => None
  | String c s =>
      if is_char 58 c then Some ("", s)
      else if alnum c || among "+-." c then
        match get_scheme s with Some (a, b) => Some (String c a, b) | None => None end
      else None
  end.

Definition getScheme (raw : string) : result (string * string) :=
  match raw with
  | EmptyString => Ok ("", raw)
  | String c _ =>
      if in_range 48 57 c || among "+-." c then Ok ("", raw)
      else match get_scheme raw with
           | None => Ok ("", raw)
           | Some (EmptyString, _) => Err (new_error "missing protocol scheme")
           | Some (scheme, rest) => Ok (scheme, rest)
           end
  end.

Fixpoint all_chars (p : ascii → bool) (s : string) : bool :=
  match s with EmptyString => true | String c s => p c && all_chars p s end.

(** A colon and digits, or nothing. *)
Definition validOptionalPort (port : string) : bool :=
  match port with EmptyString => true | String c s => is_char 58 c && all_chars (in_range 48 57) s end.

Definition invalid_port (port : string) : error := new_error ("invalid port " +:+ quote port +:+ " after host").

Definition valid_userinfo_char (c : ascii) : bool := alnum c || among "-._:~!$&'()*+,;=%@" c.

Definition ctl_byte (c : ascii) : bool := (byte_of c <? 32)%nat || (byte_of c =? 127)%nat.

(** A separator and what follows it, from the first occurrence. *)
Definition split_at (s sep : string) : string * string :=
  match Cut s sep with Some (a, b) => (a, b) | None => (s, "") end.

Section parse.
(** The check of an address in brackets. *)
Context (ip_literal : string → option error).

Definition parseHost (host : string) : result string :=
  match CutLast host "[" with
  | Some (_, inside) =>
      match CutLast host "]" with
      | None => Err (new_error "missing ']' in host")
      | Some (before, colonPort) =>
          if negb (validOptionalPort colonPort) then Err (invalid_port colonPort)
          else
            let hostname := from_option fst inside (CutLast inside "]") in
            hostname ← (match Cut hostname "%25" with
                        | Some (addr, zone) => a ← url_unescape encodeHost addr; z ← url_unescape encodeZone ("%25" +:+ zone); Ok (a +:+ z)
                        | None => url_unescape encodeHost hostname
                        end);
            match ip_literal hostname with
            | Some e => Err e
            | None => Ok ("[" +:+ hostname +:+ "]" +:+ colonPort)
            end
      end
  | None =>
      match Cut host ":" with
      | Some (_, port) => if validOptionalPort (":" +:+ port) then url_unescape encodeHost host else Err (invalid_port (":" +:+ port))
      | None => url_unescape encodeHost host
      end
  end.

Definition parseAuthority (authority : string) : result (option (string * option string) * string) :=
  match CutLast authority "@" with
  | None => host ← parseHost authority; Ok (None, host)
  | Some (userinfo, host) =>
      host ← parseHost host;
      if negb (all_chars valid_userinfo_char userinfo) then Err (new_error "net/url: invalid userinfo")
      else match Cut userinfo ":" with
      | None => user ← url_unescape encodeUserPassword userinfo; Ok (Some (user, None), host)
      | Some (user, password) =>
          user ← url_unescape encodeUserPassword user;
          password ← url_unescape encodeUserPassword password;
          Ok (Some (user, Some password), host)
      end
  end.

(** The path and its encoded form, kept where it is not the default one. *)
Definition set_path (p : string) : result (string * string) :=
  path ← url_unescape encodePath p;
  Ok (path, if decide (p = url_escape encodePath path) then "" else p).

Definition parse_url (raw : string) : result URL :=
  if negb (all_chars (λ c, negb (ctl_byte c)) raw) then Err (new_error "net/url: invalid control character in URL")
  else if decide (raw = "*") then Ok (mkURL "" "" None "" "*" "" "" "")
  else
    schemed ← getScheme raw;
    let scheme := ToLower schemed.1 in
    let '(rest, query) := split_at schemed.2 "?" in
    if negb (HasPrefix rest "/") && bool_decide (scheme ≠ "") then Ok (mkURL scheme rest None "" "" "" query "")
    else if negb (HasPrefix rest "/") && bool_decide (Cut (split_at rest "/").1 ":" ≠ None) then
      Err (new_error "first path segment in URL cannot contain colon")
    else
      located ← (if HasPrefix rest "//" && (bool_decide (scheme ≠ "") || negb (HasPrefix rest "///")) then
        let '(authority, path) := match Cut (drop_str 2 rest) "/" with
                                  | Some (a, b) => (a, "/" +:+ b) | None => (drop_str 2 rest, "") end in
        uh ← parseAuthority authority; Ok (uh, path)
      else Ok ((None, ""), rest));
      let '((user, host), path) := (located : (option (string * option string) * string) * string) in
      pr ← set_path path;
      Ok (mkURL scheme "" user host pr.1 pr.2 query "").

(** [url.Parse]: the fragment apart; the encoded form of a fragment is not kept. *)
Definition url_Parse (raw : string) : result URL :=
  let '(u, frag) := split_at raw "#" in
  url ← wrap_result ("parse " +:+ quote u +:+ ": ") (parse_url u);
  fragment ← wrap_result ("parse " +:+ quote raw +:+ ": ") (url_unescape encodeFragment frag);
  Ok (mkURL (Scheme url) (Opaque url) (User url) (urlHost url) (Path url) (RawPath url) (RawQuery url) fragment).
End parse.

Definition host_path (r : result URL) : option (string * string * string * string) :=
  match r with Ok u => Some (Scheme u, urlHost u, Path u, RawPath u) | Err _ => None end.

Example url_Parse_ex :
  host_path (url_Parse (λ _, None) "https://user:pw@Registry.example:8443/a%2fb/c%20d.tgz?x=1#f") =
    Some ("https", "Registry.example:8443", "/a/b/c d.tgz", "/a%2fb/c%20d.tgz") ∧
  host_path (url_Parse (λ _, None) "git://github.com/o/r.git") = Some ("git", "github.com", "/o/r.git", "") ∧
  host_path (url_Parse (λ _, None) "HTTP://h/a b") = Some ("http", "h", "/a b", "/a b") ∧
  host_path (url_Parse (λ _, None) "//h/%zz") = None ∧ host_path (url_Parse (λ _, None) "http://h:80:80/") = None ∧
  host_path (url_Parse (λ _, None) "pkg/-/x.tgz") = Some ("", "", "pkg/-/x.tgz", "").
Proof. vm_compute. repeat split. Qed.

(** ** Lemmas *)

Lemma all_chars_app p a b : all_chars p (a +:+ b) = all_chars p a && all_chars p b.
Proof. induction a as [|c a IH]; [done|]. rewrite sapp_cons. cbn [all_chars]. by rewrite IH, andb_assoc. Qed.

Lemma all_chars_impl (p q : ascii → bool) s : (∀ c, p c = true → q c = true) → all_chars p s = true → all_chars q s = true.
Proof. intros H. induction s as [|c s IH]; [done|]. cbn. intros [Hc Hs]%andb_true_iff. by rewrite H, IH. Qed.

Lemma all_chars_free_of (p q : ascii → bool) s :
  (∀ c, p c = true → q c = false) → all_chars p s = true → free_of q s.
Proof. intros H. induction s as [|c s IH]; [done|]. cbn. intros [Hc Hs]%andb_true_iff. split; auto. Qed.

Lemma Cut_free c s : free_of (λ x, bool_decide (x = c)) s → Cut s (String c "") = None.
Proof.
  induction s as [|x s IH]; [done|]. intros [Hx Hs]. cbn [Cut]. apply bool_decide_eq_false in Hx.
  by rewrite HasPrefix_char, bool_decide_false, IH by congruence.
Qed.

Lemma CutLast_free c s : free_of (λ x, bool_decide (x = c)) s → CutLast s (String c "") = None.
Proof.
  induction s as [|x s IH]; [done|]. intros [Hx Hs]. cbn [CutLast]. apply bool_decide_eq_false in Hx.
  by rewrite IH, HasPrefix_char, bool_decide_false by congruence.
Qed.

(** Nothing to trim. *)
Lemma trim_right_free p s : free_of p s → trim_right p s = s.
Proof. induction s as [|c s IH]; [done|]. intros [Hc Hs]. cbn. rewrite IH by done. destruct s; [by rewrite Hc|done]. Qed.
Lemma trim_left_free p s : free_of p s → trim_left p s = s.
Proof. destruct s as [|c s]; [done|]. intros [Hc _]. cbn. by rewrite Hc. Qed.
Lemma trim_by_free p s : free_of p s → trim_by p s = s.
Proof. intros H. unfold trim_by. rewrite trim_left_free by done. by apply trim_right_free. Qed.

Lemma trim_right_app p a b : b ≠ "" → trim_right p b = b → trim_right p (a +:+ b) = a +:+ b.
Proof.
  intros Hb Ht. induction a as [|c a IH]; [exact Ht|]. rewrite sapp_cons. cbn [trim_right]. rewrite IH.
  destruct (a +:+ b) eqn:E; [|done]. destruct a; [|done]. by destruct Hb.
Qed.

(** What may stand in the host and in the path of a URL as it is. *)
Definition host_char (c : ascii) : bool := negb (ctl_byte c) && negb (among "/?#@" c).
Definition path_char (c : ascii) : bool := negb (ctl_byte c) && negb (among "%?#" c).

Lemma among_In chars c d : among chars c = false → among chars d = true → c ≠ d.
Proof. congruence. Qed.

Lemma host_char_not d c : among "/?#@" d = true → host_char c = true → bool_decide (c = d) = false.
Proof.
  intros Hd [_ Hc]%andb_true_iff. apply negb_true_iff in Hc. apply bool_decide_eq_false_2. intros ->. congruence.
Qed.
Lemma path_char_not d c : among "%?#" d = true → path_char c = true → bool_decide (c = d) = false.
Proof.
  intros Hd [_ Hc]%andb_true_iff. apply negb_true_iff in Hc. apply bool_decide_eq_false_2. intros ->. congruence.
Qed.

Lemma unescape_path s : all_chars path_char s = true → url_unescape encodePath s = Ok s.
Proof.
  induction s as [|c s IH]; [done|]. cbn [all_chars]. intros [Hc Hs]%andb_true_iff. cbn [url_unescape].
  replace (is_char 37 c) with false. 2:{ symmetry. apply (path_char_not "%" c) in Hc; [|done]. apply bool_decide_eq_false in Hc.
    unfold is_char. apply Nat.eqb_neq. intros E. apply Hc. exact (byte_of_inj c 37 E). }
  rewrite IH by done. done.
Qed.

Section built.
Context (ip_literal : string → option error).

(** A query with its question mark, or none. *)
Definition query_tail (tail q : string) : Prop := tail = "" ∧ q = "" ∨ tail = "?" +:+ q.
Definition query_char_ok (c : ascii) : bool := negb (ctl_byte c) && negb (among "#" c).

Lemma query_char_not c : query_char_ok c = true → bool_decide (c = "#"%char) = false.
Proof. intros [_ Hc]%andb_true_iff. apply negb_true_iff in Hc. apply bool_decide_eq_false_2. by intros ->. Qed.

Definition built_raw_path (path : string) : string :=
  if decide ("/" +:+ path = url_escape encodePath ("/" +:+ path)) then "" else "/" +:+ path.

(** A URL put together from a scheme, a host, a path and perhaps a query parses into
    them; the query does not change the rest. *)
Lemma url_Parse_query scheme host path tail q :
  scheme = "http" ∨ scheme = "https" → all_chars host_char host = true → parseHost ip_literal host = Ok host →
  all_chars path_char path = true → query_tail tail q → all_chars query_char_ok q = true →
  url_Parse ip_literal (scheme +:+ "://" +:+ host +:+ "/" +:+ path +:+ tail) =
    Ok (mkURL scheme "" None host ("/" +:+ path) (built_raw_path path) q "").
Proof.
  intros Hs Hh Hp Hpath Htail Hq. set (body := "//" +:+ host +:+ "/" +:+ path). set (rest := body +:+ tail).
  assert (∀ d, d = "?"%char ∨ d = "#"%char → free_of (λ x, bool_decide (x = d)) body) as Hfree.
  { intros d Hd. unfold body. rewrite !free_of_app. repeat split; try (by destruct Hd; subst).
    - eapply all_chars_free_of; [|exact Hh]. intros c. apply host_char_not. by destruct Hd; subst.
    - eapply all_chars_free_of; [|exact Hpath]. intros c. apply path_char_not. by destruct Hd; subst. }
  assert (all_chars (λ c, negb (ctl_byte c)) rest = true) as Hctl.
  { assert (all_chars (λ c, negb (ctl_byte c)) q = true) as Hctlq
      by (eapply all_chars_impl; [|exact Hq]; by intros c []%andb_true_iff).
    assert (all_chars (λ c, negb (ctl_byte c)) tail = true) as Hctlt.
    { destruct Htail as [[-> _]| ->]; [done|]. by rewrite all_chars_app, Hctlq. }
    unfold rest, body. rewrite !all_chars_app, Hctlt. cbn [all_chars].
    rewrite (all_chars_impl host_char), (all_chars_impl path_char); [done|by intros c []%andb_true_iff|done|by intros c []%andb_true_iff|done]. }
  assert (split_at rest "?" = (body, q)) as Hsplit.
  { unfold split_at, rest. destruct Htail as [[-> ->]| ->].
    - rewrite sapp_nil_r, Cut_free by auto. done.
    - change (body +:+ "?" +:+ q) with (body +:+ String "?" q). rewrite Cut_char by auto. done. }
  assert (free_of (λ x, bool_decide (x = "#"%char)) rest) as Hhash.
  { unfold rest. apply free_of_app. split; [auto|]. destruct Htail as [[-> _]| ->]; [done|]. split; [done|].
    eapply all_chars_free_of; [|exact Hq]. apply query_char_not. }
  assert (free_of (λ x, bool_decide (x = "/"%char)) host) as Hslash.
  { eapply all_chars_free_of; [|exact Hh]. intros c. by apply host_char_not. }
  assert (parseAuthority ip_literal host = Ok (None, host)) as Hauth.
  { unfold parseAuthority. rewrite CutLast_free; [by rewrite Hp|].
    eapply all_chars_free_of; [|exact Hh]. intros c. by apply host_char_not. }
  assert (set_path ("/" +:+ path) = Ok ("/" +:+ path, built_raw_path path)) as Hset by (unfold set_path; by rewrite unescape_path).
  assert (parse_url ip_literal (scheme +:+ ":" +:+ rest) = Ok (mkURL scheme "" None host ("/" +:+ path) (built_raw_path path) q "")) as Hparse.
  { unfold parse_url. replace (all_chars _ (scheme +:+ ":" +:+ rest)) with true.
    2:{ rewrite !all_chars_app, Hctl. by destruct Hs; subst. }
    cbn [negb]. rewrite decide_False by (by destruct Hs; subst).
    replace (getScheme (scheme +:+ ":" +:+ rest)) with (Ok (scheme, rest) : result (string * string)) by (by destruct Hs; subst).
    cbn [mbind result_bind fst snd]. rewrite Hsplit.
    replace (HasPrefix body "/") with true by done. replace (ToLower scheme) with scheme by (by destruct Hs; subst).
    cbn [negb andb]. replace (HasPrefix body "//") with true by (symmetry; apply (prefix_app "//")).
    replace (bool_decide (scheme ≠ "")) with true by (by destruct Hs; subst). cbn [orb andb].
    unfold body. change (drop_str 2 ("//" +:+ host +:+ "/" +:+ path)) with (drop_str (String.length "//") ("//" +:+ host +:+ "/" +:+ path)).
    rewrite drop_app, Cut_slash_app by done. rewrite Hauth. cbn [mbind result_bind]. by rewrite Hset. }
  unfold url_Parse. replace (scheme +:+ "://" +:+ host +:+ "/" +:+ path +:+ tail) with (scheme +:+ ":" +:+ rest)
    by (unfold rest, body; by rewrite !sapp_assoc).
  unfold split_at. rewrite Cut_free.
  - rewrite Hparse. cbn [mbind result_bind wrap_result]. by cbn.
  - apply free_of_app. split; [by destruct Hs; subst|]. apply free_of_app. split; [done|auto].
Qed.

Lemma url_Parse_built scheme host path :
  scheme = "http" ∨ scheme = "https" → all_chars host_char host = true → parseHost ip_literal host = Ok host →
  all_chars path_char path = true →
  ∃ raw, url_Parse ip_literal (scheme +:+ "://" +:+ host +:+ "/" +:+ path) = Ok (mkURL scheme "" None host ("/" +:+ path) raw "" "").
Proof.
  intros Hs Hh Hp Hpath. exists (built_raw_path path). pose proof (url_Parse_query scheme host path "" "" Hs Hh Hp Hpath) as H.
  rewrite sapp_nil_r in H. apply H; [by left|done].
Qed.
End built.
