(* ===== verification/PolicyConfig.v ===== *)
(** * Typed policy configurations

    [internal/core/domain/policy_config*.go].  A configuration is an interface
    value: a pointer to one of nine structs.  [Validate] returns the validated
    struct, because the scorecard configuration rewrites its check names in
    place; a nil pointer inside the interface is [None]. *)

From S2P Require Import Prelude GoStrings Floats Artifact.

(** ** Definitions *)

Record MinimumAgePolicyConfig : Type := mkMinimumAge {
  MinAgeDays : option Z;
  min_ExcludePackages : list string;
  min_DryRun : bool;
}.

Record MaximumAgePolicyConfig : Type := mkMaximumAge {
  MaxAgeDays : option Z;
  max_ExcludePackages : list string;
  max_DryRun : bool;
}.

Abbreviation SeverityLevel := string (only parsing).
Definition SeverityCritical : SeverityLevel := "critical".
Definition SeverityHigh : SeverityLevel := "high".
Definition SeverityMedium : SeverityLevel := "medium".
Definition SeverityLow : SeverityLevel := "low".
Definition SeverityNone : SeverityLevel := "none".

Record CVSSThresholdPolicyConfig : Type := mkCVSSThreshold {
  MaxCVSS : option float64;
  MinimumSeverity : option SeverityLevel;
  cvss_DryRun : bool;
}.

Record LicensePolicyConfig : Type := mkLicense {
  lic_Licenses : list string;
  lic_DryRun : bool;
}.

Definition LicenseAllowlistMissingBehaviorDeny : string := "deny".
Definition LicenseAllowlistMissingBehaviorSkip : string := "skip".

Record LicenseAllowlistPolicyConfig : Type := mkLicenseAllowlist {
  la_Licenses : list string;
  la_DryRun : bool;
}.

Record LicenseAllowlistPolicyConfigV2 : Type := mkLicenseAllowlistV2 {
  la2_Licenses : list string;
  UnlicensedBehavior : string;
  UnavailableMetadataBehavior : string;
  la2_DryRun : bool;
}.

Record BlockMutableTagPolicyConfig : Type := mkBlockMutableTag {
  Tags : list string;
  tag_DryRun : bool;
}.

Record NamespaceListPolicyConfig : Type := mkNamespaceList {
  Namespaces : list string;
  ns_DryRun : bool;
}.

Definition ScorecardUnavailableBehaviorDeny : string := "deny".
Definition ScorecardUnavailableBehaviorSkip : string := "skip".

Record ScorecardPolicyConfig : Type := mkScorecard {
  MinScore : option float64;
  Checks : gmap string float64;
  UnavailableScorecardBehavior : string;
  sc_DryRun : bool;
}.

(** The dynamic type and pointer held by the [PolicyConfig] interface. *)
Inductive PolicyConfig : Type :=
| CfgCVSSThreshold (c : option CVSSThresholdPolicyConfig)
| CfgMinimumAge (c : option MinimumAgePolicyConfig)
| CfgMaximumAge (c : option MaximumAgePolicyConfig)
| CfgBlockMutableTag (c : option BlockMutableTagPolicyConfig)
| CfgScorecard (c : option ScorecardPolicyConfig)
| CfgLicense (c : option LicensePolicyConfig)
| CfgLicenseAllowlist (c : option LicenseAllowlistPolicyConfig)
| CfgLicenseAllowlistV2 (c : option LicenseAllowlistPolicyConfigV2)
| CfgNamespaceList (c : option NamespaceListPolicyConfig).

Definition missing_key (key : string) : error :=
  new_error ("missing required config key " +:+ quote key).

Definition minage_Validate (c : option MinimumAgePolicyConfig) : result MinimumAgePolicyConfig :=
  match c with
  | Some c => if decide (MinAgeDays c = None) then Err (missing_key "min_age_days") else Ok c
  | None => Err (missing_key "min_age_days")
  end.

Definition maxage_Validate (c : option MaximumAgePolicyConfig) : result MaximumAgePolicyConfig :=
  match c with
  | Some c => if decide (MaxAgeDays c = None) then Err (missing_key "max_age_days") else Ok c
  | None => Err (missing_key "max_age_days")
  end.

Definition valid_severity (s : SeverityLevel) : bool :=
  bool_decide (s ∈ [SeverityCritical; SeverityHigh; SeverityMedium; SeverityLow; SeverityNone]).

Definition cvss_Validate (c : option CVSSThresholdPolicyConfig) : result CVSSThresholdPolicyConfig :=
  let missing := Err (new_error
    "missing required config keys: max_cvss or minimum_severity are required") in
  match c with
  | None => missing
  | Some c =>
      if decide (MaxCVSS c = None ∧ MinimumSeverity c = None) then missing
      else if match MaxCVSS c with
              | Some m => f64_ltb m (f64_of_Z 0) || f64_gtb m (f64_of_Z 10)
              | None => false
              end
      then Err (new_error "max_cvss must be between 0 and 10")
      else match MinimumSeverity c with
           | Some s => if valid_severity s then Ok c
                       else Err (new_error ("invalid minimum_severity: " +:+ s))
           | None => Ok c
           end
  end.

Definition license_Validate (c : option LicensePolicyConfig) : result LicensePolicyConfig :=
  match c with
  | Some c => if decide (lic_Licenses c = []) then Err (missing_key "licenses") else Ok c
  | None => Err (missing_key "licenses")
  end.

Definition la_Validate (c : option LicenseAllowlistPolicyConfig)
    : result LicenseAllowlistPolicyConfig :=
  match c with
  | Some c => if decide (la_Licenses c = []) then Err (missing_key "licenses") else Ok c
  | None => Err (missing_key "licenses")
  end.

(** Shared by [validateLicenseAllowlistMissingBehavior] and
    [validateScorecardUnavailableBehavior], whose bodies are the same. *)
Definition validateBehavior (value fieldName : string) : option error :=
  if decide (value = "") then None
  else if decide (value = "deny" ∨ value = "skip") then None
  else Some (new_error ("invalid config value for " +:+ quote fieldName +:+ ": " +:+ quote value)).

Definition la2_Validate (c : option LicenseAllowlistPolicyConfigV2)
    : result LicenseAllowlistPolicyConfigV2 :=
  match c with
  | None => Err (missing_key "licenses")
  | Some c =>
      if decide (la2_Licenses c = []) then Err (missing_key "licenses")
      else match validateBehavior (UnlicensedBehavior c) "unlicensed_behavior" with
      | Some e => Err e
      | None =>
          match validateBehavior (UnavailableMetadataBehavior c) "unavailable_metadata_behavior" with
          | Some e => Err e
          | None => Ok c
          end
      end
  end.

Definition EffectiveUnlicensedBehavior (c : option LicenseAllowlistPolicyConfigV2) : string :=
  match c with
  | Some c => if decide (UnlicensedBehavior c = "") then LicenseAllowlistMissingBehaviorDeny
              else UnlicensedBehavior c
  | None => LicenseAllowlistMissingBehaviorDeny
  end.

Definition EffectiveUnavailableMetadataBehavior (c : option LicenseAllowlistPolicyConfigV2)
    : string :=
  match c with
  | Some c => if decide (UnavailableMetadataBehavior c = "") then LicenseAllowlistMissingBehaviorDeny
              else UnavailableMetadataBehavior c
  | None => LicenseAllowlistMissingBehaviorDeny
  end.

Definition tag_Validate (c : option BlockMutableTagPolicyConfig)
    : result BlockMutableTagPolicyConfig :=
  match c with
  | Some c => if decide (Tags c = []) then Err (missing_key "tags") else Ok c
  | None => Err (missing_key "tags")
  end.

Definition ns_Validate (c : option NamespaceListPolicyConfig) : result NamespaceListPolicyConfig :=
  match c with
  | Some c => if decide (Namespaces c = []) then Err (missing_key "namespaces") else Ok c
  | None => Err (missing_key "namespaces")
  end.

Definition dash_to_space (c : ascii) : ascii :=
  if decide (c = "_"%char ∨ c = "-"%char) then " "%char else c.

Definition NormalizeScorecardCheckName (value : string) : string :=
  Join "-" (Fields (string_map dash_to_space (TrimSpace (ToLower value)))).

Definition validateScorecardScore (value : float64) (fieldName : string) : option error :=
  if f64_ltb value (f64_of_Z 0) || f64_gtb value (f64_of_Z 10)
  then Some (new_error ("invalid config value for " +:+ quote fieldName +:+
                        ": must be between 0 and 10"))
  else None.

(** The loop over the [Checks] map, in the order [range] visits it. *)
Fixpoint normalize_checks (order : list (string * float64)) (normalized : gmap string float64)
    : result (gmap string float64) :=
  match order with
  | [] => Ok normalized
  | (rawName, minScore) :: order =>
      let name := NormalizeScorecardCheckName rawName in
      if decide (name = "") then Err (new_error "scorecard check names must not be empty")
      else match validateScorecardScore minScore ("checks." +:+ name) with
      | Some e => Err e
      | None =>
          match normalized !! name with
          | Some _ => Err (new_error ("duplicate scorecard check threshold " +:+ quote name))
          | None => normalize_checks order (<[name := minScore]> normalized)
          end
      end
  end.

(** [Validate] when [range c.Checks] visits the map in the given order. *)
Definition scorecard_Validate_in (order : list (string * float64))
    (c : option ScorecardPolicyConfig) : result ScorecardPolicyConfig :=
  match c with
  | None => Err (new_error "scorecard config is required")
  | Some c =>
      if decide (MinScore c = None ∧ Checks c = ∅) then
        Err (new_error ("at least one of " +:+ quote "min_score" +:+ " or " +:+
                        quote "checks" +:+ " is required"))
      else match (m ← MinScore c; validateScorecardScore m "min_score") with
      | Some e => Err e
      | None =>
          match validateBehavior (UnavailableScorecardBehavior c) "unavailable_scorecard_behavior" with
          | Some e => Err e
          | None =>
              if decide (Checks c = ∅) then Ok c
              else checks ← normalize_checks order ∅;
                   Ok (mkScorecard (MinScore c) checks (UnavailableScorecardBehavior c) (sc_DryRun c))
          end
      end
  end.

Definition scorecard_Validate (c : option ScorecardPolicyConfig) : result ScorecardPolicyConfig :=
  scorecard_Validate_in (match c with Some c => map_to_list (Checks c) | None => [] end) c.

Definition EffectiveUnavailableScorecardBehavior (c : option ScorecardPolicyConfig) : string :=
  match c with
  | Some c => if decide (UnavailableScorecardBehavior c = "") then ScorecardUnavailableBehaviorDeny
              else UnavailableScorecardBehavior c
  | None => ScorecardUnavailableBehaviorDeny
  end.

(** [PolicyConfig.Validate], dispatched on the dynamic type. *)
Definition config_Validate (c : PolicyConfig) : result PolicyConfig :=
  match c with
  | CfgCVSSThreshold c => CfgCVSSThreshold ∘ Some <$> cvss_Validate c
  | CfgMinimumAge c => CfgMinimumAge ∘ Some <$> minage_Validate c
  | CfgMaximumAge c => CfgMaximumAge ∘ Some <$> maxage_Validate c
  | CfgBlockMutableTag c => CfgBlockMutableTag ∘ Some <$> tag_Validate c
  | CfgScorecard c => CfgScorecard ∘ Some <$> scorecard_Validate c
  | CfgLicense c => CfgLicense ∘ Some <$> license_Validate c
  | CfgLicenseAllowlist c => CfgLicenseAllowlist ∘ Some <$> la_Validate c
  | CfgLicenseAllowlistV2 c => CfgLicenseAllowlistV2 ∘ Some <$> la2_Validate c
  | CfgNamespaceList c => CfgNamespaceList ∘ Some <$> ns_Validate c
  end.

(** [PolicyConfig.DryRunEnabled]: [c != nil && c.DryRun]. *)
Definition config_DryRunEnabled (c : PolicyConfig) : bool :=
  match c with
  | CfgCVSSThreshold c => from_option cvss_DryRun false c
  | CfgMinimumAge c => from_option min_DryRun false c
  | CfgMaximumAge c => from_option max_DryRun false c
  | CfgBlockMutableTag c => from_option tag_DryRun false c
  | CfgScorecard c => from_option sc_DryRun false c
  | CfgLicense c => from_option lic_DryRun false c
  | CfgLicenseAllowlist c => from_option la_DryRun false c
  | CfgLicenseAllowlistV2 c => from_option la2_DryRun false c
  | CfgNamespaceList c => from_option ns_DryRun false c
  end.

Example NormalizeScorecardCheckName_ex :
  NormalizeScorecardCheckName "  Token_Permissions " = "token-permissions" ∧
  NormalizeScorecardCheckName "Binary Artifacts" = "binary-artifacts".
Proof. split; reflexivity. Qed.

(** ** Lemmas on check names *)

Definition is_upper (c : ascii) : bool := bool_decide (lower_ascii c ≠ c).
Definition is_dash (c : ascii) : bool := bool_decide (c = "_"%char ∨ c = "-"%char).

(** What the tokens of a check name are free of. *)
Definition token_bad (c : ascii) : bool := is_upper c || is_dash c || is_space c.

Lemma lower_free s : free_of is_upper (ToLower s).
Proof.
  unfold ToLower. induction s as [|c s IH]; simpl; [done|]. split; [|done].
  unfold is_upper. apply bool_decide_eq_false. rewrite lower_ascii_idem. tauto.
Qed.

Definition name_tokens (value : string) : list string :=
  Fields (string_map dash_to_space (TrimSpace (ToLower value))).

Lemma name_tokens_clean value :
  Forall (λ t, t ≠ "" ∧ free_of token_bad t) (name_tokens value).
Proof.
  unfold name_tokens, Fields.
  set (spacify := λ c, if is_space c then " "%char else c).
  assert (Hf : free_of (λ c, token_bad c && negb (bool_decide (c = " "%char)))
            (string_map spacify (string_map dash_to_space (TrimSpace (ToLower value))))).
  { eapply (free_of_map (λ c, is_upper c || is_dash c)).
    2: eapply (free_of_map is_upper); [|apply free_of_trim, lower_free].
    all: intros [[] [] [] [] [] [] [] []]; vm_compute; done. }
  pose proof (Split_free _ " "%char _ Hf) as H1.
  pose proof (Split_sep_free " "%char
    (string_map spacify (string_map dash_to_space (TrimSpace (ToLower value))))) as H2.
  rewrite Forall_forall in H1, H2 |- *. intros t [Hne Hin]%list_elem_of_filter. split; [done|].
  specialize (H1 _ Hin). specialize (H2 _ Hin). clear -H1 H2.
  induction t as [|c t IH]; simpl in *; [done|]. destruct H1 as [H1 ?], H2 as [H2 ?].
  split; [|auto]. rewrite H2, andb_true_r in H1. done.
Qed.

Lemma Fields_tokens l :
  Forall (λ t, t ≠ "" ∧ free_of token_bad t) l → Fields (Join " " l) = l.
Proof.
  intros H. unfold Fields. rewrite string_map_Join.
  change (string_map _ " ") with " ".
  assert ((string_map (λ c, if is_space c then " "%char else c) <$> l) = l) as ->.
  { induction H as [|t l [_ Ht] _ IH]; csimpl; [done|]. rewrite IH. f_equal.
    eapply string_map_id; [|exact Ht]. intros c. unfold token_bad.
    by destruct (is_space c); rewrite ?orb_true_r. }
  destruct l as [|x l]; [done|]. rewrite Split_Join; [|done|].
  - apply filter_Forall_id. eapply Forall_impl; [exact H|]. by intros t [].
  - eapply Forall_impl; [exact H|]. intros t [_ Ht]. eapply free_of_impl; [|exact Ht].
    intros [[] [] [] [] [] [] [] []]; vm_compute; done.
Qed.

Lemma NormalizeScorecardCheckName_idem v :
  NormalizeScorecardCheckName (NormalizeScorecardCheckName v) = NormalizeScorecardCheckName v.
Proof.
  pose proof (name_tokens_clean v) as H.
  unfold NormalizeScorecardCheckName at 2 3. fold (name_tokens v). revert H.
  generalize (name_tokens v). intros l H. unfold NormalizeScorecardCheckName. f_equal.
  assert (Hj : ∀ p, p "-"%char = false → (∀ c, token_bad c = false → p c = false) →
               free_of p (Join "-" l)).
  { intros p Hp Hi. apply free_of_Join; [done|]. eapply Forall_impl; [exact H|].
    intros t [_ Ht]. by eapply free_of_impl. }
  assert (ToLower (Join "-" l) = Join "-" l) as ->.
  { apply (string_map_id is_upper); [|apply Hj; [done|]].
    - intros c. unfold is_upper. intros E%bool_decide_eq_false. by apply dec_stable.
    - intros c. unfold token_bad. by destruct (is_upper c). }
  unfold TrimSpace. rewrite trim_by_id.
  2:{ apply Hj; [done|]. intros c. unfold token_bad.
      by destruct (is_space c); rewrite ?orb_true_r. }
  rewrite string_map_Join. change (string_map dash_to_space "-") with " ".
  rewrite <-(Fields_tokens l) at 2 by done. do 2 f_equal.
  induction H as [|t l [_ Ht] Hl IH]; csimpl; [done|]. rewrite IH.
  - f_equal. eapply (string_map_id token_bad); [|done].
    intros [[] [] [] [] [] [] [] []]; vm_compute; done.
  - intros p Hp Hi. apply free_of_Join; [done|]. eapply Forall_impl; [exact Hl|].
    intros u [_ Hu]. by eapply free_of_impl.
Qed.

(** ** Lemmas on the scorecard configuration *)

Definition score_ok (v : float64) : bool :=
  negb (f64_ltb v (f64_of_Z 0) || f64_gtb v (f64_of_Z 10)).

Definition check_ok (kv : string * float64) : Prop :=
  NormalizeScorecardCheckName kv.1 ≠ "" ∧ score_ok kv.2 = true.

Definition normalized_entry (kv : string * float64) : string * float64 :=
  (NormalizeScorecardCheckName kv.1, kv.2).

Lemma validateScorecardScore_None v f : validateScorecardScore v f = None ↔ score_ok v = true.
Proof. unfold validateScorecardScore, score_ok. by destruct (_ || _). Qed.

(** The loop succeeds exactly when every name is non-empty after
    normalisation, every threshold is in range and no two names collide; its
    result does not depend on the visiting order. *)
Lemma normalize_checks_spec order acc m :
  normalize_checks order acc = Ok m ↔
    Forall check_ok order ∧ NoDup (normalized_entry <$> order).*1 ∧
    (∀ k, k ∈ (normalized_entry <$> order).*1 → acc !! k = None) ∧
    m = list_to_map (normalized_entry <$> order) ∪ acc.
Proof.
  revert acc. induction order as [|[raw v] order IH]; intros acc; csimpl.
  { rewrite (left_id_L ∅ (∪)). split; [intros [= <-]|naive_solver].
    repeat split; [constructor|constructor|set_solver]. }
  set (n := NormalizeScorecardCheckName raw).
  rewrite Forall_cons, NoDup_cons. unfold check_ok at 1. csimpl. fold n.
  destruct (decide (n = "")) as [Hn|Hn]; [naive_solver|].
  destruct (validateScorecardScore v ("checks." +:+ n)) as [e|] eqn:Hv.
  { split; [done|]. intros ([[_ Hs] _] & _).
    apply (validateScorecardScore_None v ("checks." +:+ n)) in Hs. congruence. }
  apply validateScorecardScore_None in Hv.
  destruct (acc !! n) as [x|] eqn:Hacc.
  { split; [done|]. intros (_ & _ & Hk & _). rewrite Hk in Hacc by left. done. }
  rewrite IH. split.
  - intros (Hf & Hnd & Hk & ->).
    assert (Hnot : n ∉ (normalized_entry <$> order).*1).
    { intros Hin. specialize (Hk n Hin). by rewrite lookup_insert_eq in Hk. }
    repeat split; try done.
    + intros k [->|Hin]%elem_of_cons; [done|]. specialize (Hk k Hin).
      rewrite lookup_insert_ne in Hk; [done|]. intros <-. done.
    + rewrite <-insert_union_r by (by apply not_elem_of_list_to_map).
      by rewrite <-insert_union_l.
  - intros ([_ Hf] & [Hnot Hnd] & Hk & ->). repeat split; try done.
    + intros k Hin. rewrite lookup_insert_ne by (intros <-; done). apply Hk. by right.
    + rewrite <-insert_union_l. rewrite <-insert_union_r; [done|].
      by apply not_elem_of_list_to_map.
Qed.

Lemma normalize_checks_perm o1 o2 acc m :
  o1 ≡ₚ o2 → normalize_checks o1 acc = Ok m → normalize_checks o2 acc = Ok m.
Proof.
  intros Hp. rewrite !normalize_checks_spec. intros (Hf & Hnd & Hk & ->).
  assert (Hp' : normalized_entry <$> o1 ≡ₚ normalized_entry <$> o2) by by rewrite Hp.
  repeat split.
  - by rewrite <-Hp.
  - by rewrite <-Hp'.
  - intros k. rewrite <-Hp'. apply Hk.
  - by rewrite (list_to_map_proper _ _ Hnd Hp').
Qed.

Lemma normalize_checks_fixed c m :
  normalize_checks (map_to_list c) ∅ = Ok m → normalize_checks (map_to_list m) ∅ = Ok m.
Proof.
  rewrite !normalize_checks_spec. intros (Hf & Hnd & _ & Hm).
  rewrite (right_id_L ∅ (∪)) in Hm.
  assert (Hml : map_to_list m ≡ₚ normalized_entry <$> map_to_list c).
  { rewrite Hm. by apply map_to_list_to_map. }
  assert (Hfix : normalized_entry <$> map_to_list m = map_to_list m).
  { rewrite <-(list_fmap_id (map_to_list m)) at 2. apply list_fmap_ext. intros i [k v] Hi.
    apply list_elem_of_lookup_2 in Hi. rewrite Hml in Hi.
    apply list_elem_of_fmap in Hi as ([k' v'] & [= -> ->] & _).
    unfold normalized_entry. simpl. by rewrite NormalizeScorecardCheckName_idem. }
  rewrite Hfix. repeat split.
  - rewrite Hml. apply Forall_fmap. eapply Forall_impl; [exact Hf|]. intros [k v] [H1 H2].
    split; [|done]. simpl in *. by rewrite NormalizeScorecardCheckName_idem.
  - apply NoDup_fst_map_to_list.
  - rewrite (right_id_L ∅ (∪)). symmetry. apply list_to_map_to_list.
Qed.

Lemma scorecard_Validate_inv order c c' :
  scorecard_Validate_in order (Some c) = Ok c' →
  ¬ (MinScore c = None ∧ Checks c = ∅) ∧
  (m ← MinScore c; validateScorecardScore m "min_score") = None ∧
  validateBehavior (UnavailableScorecardBehavior c) "unavailable_scorecard_behavior" = None ∧
  ((Checks c = ∅ ∧ c' = c) ∨
   (Checks c ≠ ∅ ∧ ∃ m, normalize_checks order ∅ = Ok m ∧
      c' = mkScorecard (MinScore c) m (UnavailableScorecardBehavior c) (sc_DryRun c))).
Proof.
  unfold scorecard_Validate_in. case_decide; [done|].
  destruct (m ← MinScore c; validateScorecardScore m "min_score"); [done|].
  destruct (validateBehavior _ _); [done|].
  case_decide; [naive_solver|]. intros (m & Hm & [= <-])%result_bind_ok. naive_solver.
Qed.

Lemma scorecard_Validate_intro order c m :
  ¬ (MinScore c = None ∧ Checks c = ∅) →
  (s ← MinScore c; validateScorecardScore s "min_score") = None →
  validateBehavior (UnavailableScorecardBehavior c) "unavailable_scorecard_behavior" = None →
  Checks c ≠ ∅ → normalize_checks order ∅ = Ok m →
  scorecard_Validate_in order (Some c)
  = Ok (mkScorecard (MinScore c) m (UnavailableScorecardBehavior c) (sc_DryRun c)).
Proof.
  intros H1 H2 H3 H4 H5. unfold scorecard_Validate_in.
  by rewrite decide_False, H2, H3, decide_False, H5 by done.
Qed.

Lemma scorecard_Validate_fixed c c' :
  scorecard_Validate (Some c) = Ok c' → scorecard_Validate (Some c') = Ok c'.
Proof.
  unfold scorecard_Validate. intros H. pose proof H as H0.
  apply scorecard_Validate_inv in H as (H1 & H2 & H3 & [[H4 ->]|(H4 & m & Hm & ->)]); [done|].
  assert (m ≠ ∅) as Hne.
  { apply normalize_checks_spec in Hm as (_ & _ & _ & ->). rewrite (right_id_L ∅ (∪)).
    destruct (map_to_list (Checks c)) as [|[k v] l] eqn:E.
    - by apply map_to_list_empty_iff in E.
    - csimpl. apply insert_non_empty. }
  apply (scorecard_Validate_intro _ (mkScorecard _ m _ _)); try done.
  - intros [_ ?]. done.
  - by apply (normalize_checks_fixed (Checks c)).
Qed.

Lemma config_Validate_stable_fixed c c' :
  config_Validate c = Ok c' →
  config_Validate c' = Ok c' ∧ config_DryRunEnabled c' = config_DryRunEnabled c.
Proof.
  assert (Hid : ∀ A (V : option A → result A) o s,
    (∀ c s, V (Some c) = Ok s → s = c) → (∀ s, V None ≠ Ok s) →
    V o = Ok s → o = Some s ∧ V (Some s) = Ok s).
  { intros A V [a|] s H1 H2 H; [|by apply H2 in H]. by pose proof (H1 _ _ H) as ->. }
  destruct c as [c|c|c|c|c|c|c|c|c]; cbn [config_Validate].
  5: { destruct (scorecard_Validate c) as [s|] eqn:E; [|done].
       intros [= <-]. cbn [config_Validate compose].
       destruct c as [c|]; [|done]. rewrite (scorecard_Validate_fixed _ _ E). split; [done|].
       apply scorecard_Validate_inv in E as (_ & _ & _ & [[_ ->]|(_ & m & _ & ->)]); done. }
  all: match goal with |- _ <$> ?V ?o = _ → _ => destruct (V o) as [s|] eqn:E; [|done];
         intros [= <-]; cbn [config_Validate compose];
         destruct (Hid _ V o s) as [-> Hs]; [|by intros ?|done|by rewrite Hs] end;
    intros x y; unfold cvss_Validate, minage_Validate, maxage_Validate, tag_Validate,
         license_Validate, la_Validate, la2_Validate, ns_Validate;
    repeat case_match; congruence.
Qed.

(** ** Properties *)

(** The random iteration order of a Go map cannot be observed through
    scorecard validation: for any two visiting orders of the [checks] map the
    configuration is accepted in both or in neither, and with the same
    normalised thresholds. *)
Theorem scorecard_Validate_order_independent c o1 o2 c' :
  o1 ≡ₚ map_to_list (Checks c) → o2 ≡ₚ map_to_list (Checks c) →
  scorecard_Validate_in o1 (Some c) = Ok c' → scorecard_Validate_in o2 (Some c) = Ok c'.
Proof.
  intros H1 H2 H. assert (Hp : o1 ≡ₚ o2) by by rewrite H1, H2.
  pose proof H as H0. apply scorecard_Validate_inv in H as (Ha & Hb & Hc & [[Hd ->]|(Hd & m & Hm & ->)]).
  - unfold scorecard_Validate_in in *. by rewrite decide_False, Hb, Hc, decide_True in * by done.
  - apply scorecard_Validate_intro; try done. by apply normalize_checks_perm with o1.
Qed.

Definition sample_scorecard : ScorecardPolicyConfig :=
  mkScorecard (Some (f64_of_Z 7)) (<["Token_Permissions" := f64_of_Z 5]>
    (<["binary artifacts" := f64_of_Z 10]> ∅)) "skip" false.

Lemma scorecard_Validate_order_independent_witness :
  is_ok (scorecard_Validate_in (rev (map_to_list (Checks sample_scorecard)))
    (Some sample_scorecard)) = true.
Proof.
  rewrite (scorecard_Validate_order_independent sample_scorecard
    (map_to_list (Checks sample_scorecard)) (rev (map_to_list (Checks sample_scorecard)))
    (mkScorecard (Some (f64_of_Z 7)) (<["token-permissions" := f64_of_Z 5]>
      (<["binary-artifacts" := f64_of_Z 10]> ∅)) "skip" false));
    [reflexivity|reflexivity|symmetry; apply Permutation_rev|vm_compute; reflexivity].
Defined.

(** Validation is stable: validating an accepted configuration of any of
    the nine types again accepts it and leaves it as it is, and validation
    never changes the dry-run flag.  The evaluator validates each shared
    configuration once per request, so repeated requests see one configuration. *)
Theorem config_Validate_stable c c' :
  config_Validate c = Ok c' →
  config_Validate c' = Ok c' ∧ config_DryRunEnabled c' = config_DryRunEnabled c.
Proof. apply config_Validate_stable_fixed. Qed.

Lemma config_Validate_stable_witness :
  config_Validate (CfgBlockMutableTag (Some (mkBlockMutableTag ["latest"] true)))
    = Ok (CfgBlockMutableTag (Some (mkBlockMutableTag ["latest"] true))) ∧
  config_DryRunEnabled (CfgBlockMutableTag (Some (mkBlockMutableTag ["latest"] true))) = true.
Proof.
  exact (config_Validate_stable
    (CfgBlockMutableTag (Some (mkBlockMutableTag ["latest"] true))) _ eq_refl).
Defined.
