(* ===== verification/Policy.v ===== *)
(** * Policies, requests and decisions

    [internal/core/domain/policy.go], [decision.go] and the request and metadata
    records of [artifact.go]. *)

From S2P Require Import Prelude GoStrings Floats Artifact Dependency Upstream PolicyConfig.

(** ** Definitions *)

Abbreviation PolicyAction := string (only parsing).
Definition PolicyActionAllow : PolicyAction := "allow".
Definition PolicyActionDeny : PolicyAction := "deny".

Abbreviation PolicyType := string (only parsing).
Definition PolicyTypeCVSSThreshold : PolicyType := "cvss_threshold".
Definition PolicyTypeMinimumAge : PolicyType := "minimum_age".
Definition PolicyTypeMaximumAge : PolicyType := "maximum_age".
Definition PolicyTypeBlockMutableTag : PolicyType := "block_mutable_tag".
Definition PolicyTypeScorecard : PolicyType := "scorecard".
Definition PolicyTypeLicense : PolicyType := "license".
Definition PolicyTypeLicenseAllowlist : PolicyType := "license_allowlist".
Definition PolicyTypeAllowlist : PolicyType := "allowlist".
Definition PolicyTypeNamespaceAllowlist : PolicyType := "namespace_allowlist".
Definition PolicyTypeBlocklist : PolicyType := "blocklist".

Record Policy : Type := mkPolicy {
  pol_ID : string;
  pol_TenantID : string;
  pol_UpstreamID : string;
  pol_Name : string;
  pol_Type : PolicyType;
  pol_Action : PolicyAction;
  pol_SchemaVersion : Z;
  pol_Config : option PolicyConfig;
  pol_Target : option PolicyTarget;
  pol_Priority : Z;
  pol_Enabled : bool;
  pol_Version : Z;
  pol_CreatedAt : time;
  pol_UpdatedAt : time;
}.

Definition MaxRetainedPolicyVersions : Z := 3.

Record PolicyVersion : Type := mkPolicyVersion {
  ver_PolicyID : string;
  ver_Version : Z;
  ver_UpstreamID : string;
  ver_Name : string;
  ver_Type : PolicyType;
  ver_Action : PolicyAction;
  ver_SchemaVersion : Z;
  ver_Config : option PolicyConfig;
  ver_Target : option PolicyTarget;
  ver_Priority : Z;
  ver_Enabled : bool;
  ver_CreatedAt : time;
}.

(** The writes through the [Config] and [Target] pointers of a policy, and the
    field updates of the services. *)
Definition set_Config_Target (c : option PolicyConfig) (t : option PolicyTarget) (p : Policy) : Policy :=
  mkPolicy (pol_ID p) (pol_TenantID p) (pol_UpstreamID p) (pol_Name p) (pol_Type p) (pol_Action p)
    (pol_SchemaVersion p) c t (pol_Priority p) (pol_Enabled p) (pol_Version p)
    (pol_CreatedAt p) (pol_UpdatedAt p).
Definition set_SchemaVersion (v : Z) (p : Policy) : Policy :=
  mkPolicy (pol_ID p) (pol_TenantID p) (pol_UpstreamID p) (pol_Name p) (pol_Type p) (pol_Action p)
    v (pol_Config p) (pol_Target p) (pol_Priority p) (pol_Enabled p) (pol_Version p)
    (pol_CreatedAt p) (pol_UpdatedAt p).
Definition set_pol_ID (i : string) (p : Policy) : Policy :=
  mkPolicy i (pol_TenantID p) (pol_UpstreamID p) (pol_Name p) (pol_Type p) (pol_Action p)
    (pol_SchemaVersion p) (pol_Config p) (pol_Target p) (pol_Priority p) (pol_Enabled p)
    (pol_Version p) (pol_CreatedAt p) (pol_UpdatedAt p).
Definition set_Tenant_Version (tn : string) (v : Z) (p : Policy) : Policy :=
  mkPolicy (pol_ID p) tn (pol_UpstreamID p) (pol_Name p) (pol_Type p) (pol_Action p)
    (pol_SchemaVersion p) (pol_Config p) (pol_Target p) (pol_Priority p) (pol_Enabled p)
    v (pol_CreatedAt p) (pol_UpdatedAt p).

Record Vulnerability : Type := mkVulnerability {
  vuln_ID : string;
  Severity : string;
  CVSS : float64;
  vuln_Summary : string;
}.

Record ScorecardResult : Type := mkScorecardResult {
  Score : option float64;
  res_Checks : gmap string float64;
  UnavailableReason : string;
}.

Record ArtifactMetadata : Type := mkMetadata {
  PublishedAt : option time;
  meta_MaxCVSS : option float64;
  meta_Licenses : list string;
  Vulnerabilities : list Vulnerability;
  IsMutableTag : bool;
  meta_SourceRepository : option SourceRepository;
  meta_Scorecard : option ScorecardResult;
}.

(** [&domain.ArtifactMetadata{}] *)
Definition empty_metadata : ArtifactMetadata := mkMetadata None None [] [] false None None.

Abbreviation AccessRequestKind := string (only parsing).
Definition AccessRequestKindNPMMetadata : AccessRequestKind := "npm_metadata".
Definition AccessRequestKindNPMTarball : AccessRequestKind := "npm_tarball".

Record AccessRequest : Type := mkRequest {
  req_TenantID : string;
  req_RequestID : string;
  req_Kind : AccessRequestKind;
  req_Artifact : ArtifactIdentity;
  req_Upstream : Upstream;
  req_Metadata : option ArtifactMetadata;
  req_DependencyContext : option DependencyContext;
  req_Timestamp : time;
}.

Definition set_req_Artifact (a : ArtifactIdentity) (r : AccessRequest) : AccessRequest :=
  mkRequest (req_TenantID r) (req_RequestID r) (req_Kind r) a (req_Upstream r)
    (req_Metadata r) (req_DependencyContext r) (req_Timestamp r).
Definition set_req_Metadata (m : option ArtifactMetadata) (r : AccessRequest) : AccessRequest :=
  mkRequest (req_TenantID r) (req_RequestID r) (req_Kind r) (req_Artifact r) (req_Upstream r)
    m (req_DependencyContext r) (req_Timestamp r).
Definition set_req_DependencyContext (c : option DependencyContext) (r : AccessRequest) : AccessRequest :=
  mkRequest (req_TenantID r) (req_RequestID r) (req_Kind r) (req_Artifact r) (req_Upstream r)
    (req_Metadata r) c (req_Timestamp r).

Abbreviation DecisionOutcome := string (only parsing).
Definition DecisionAllow : DecisionOutcome := "allow".
Definition DecisionDeny : DecisionOutcome := "deny".

Abbreviation ReasonCategory := string (only parsing).
Definition ReasonPolicyMatch : ReasonCategory := "policy_match".
Definition ReasonPolicyWarning : ReasonCategory := "policy_warning".
Definition ReasonNoMatchingPolicy : ReasonCategory := "no_matching_policy".
Definition ReasonEnrichmentFailure : ReasonCategory := "enrichment_failure".
Definition ReasonCached : ReasonCategory := "cached".
Definition ReasonCategoryEvaluationError : ReasonCategory := "evaluation_error".

Record EvaluationReason : Type := mkReason {
  rsn_PolicyID : string;
  rsn_PolicyName : string;
  rsn_Category : ReasonCategory;
  rsn_Action : PolicyAction;
  rsn_Message : string;
}.

#[export] Instance EvaluationReason_eq_dec : EqDecision EvaluationReason.
Proof. solve_decision. Defined.

Record Decision : Type := mkDecision {
  dec_ID : string;
  dec_TenantID : string;
  dec_Artifact : ArtifactIdentity;
  dec_Outcome : DecisionOutcome;
  dec_PolicyID : string;
  dec_PolicyHash : string;
  dec_DependencyContext : option DependencyContext;
  dec_Reason : string;
  dec_Reasons : list EvaluationReason;
  dec_Warnings : list string;
  dec_CachedAt : option time;
  dec_EvaluatedAt : time;
}.

#[export] Instance Decision_eq_dec : EqDecision Decision.
Proof. solve_decision. Defined.

Definition set_PolicyHash_Context (h : string) (c : option DependencyContext) (d : Decision) : Decision :=
  mkDecision (dec_ID d) (dec_TenantID d) (dec_Artifact d) (dec_Outcome d) (dec_PolicyID d) h c
    (dec_Reason d) (dec_Reasons d) (dec_Warnings d) (dec_CachedAt d) (dec_EvaluatedAt d).
Definition set_CachedAt (t : option time) (d : Decision) : Decision :=
  mkDecision (dec_ID d) (dec_TenantID d) (dec_Artifact d) (dec_Outcome d) (dec_PolicyID d)
    (dec_PolicyHash d) (dec_DependencyContext d) (dec_Reason d) (dec_Reasons d) (dec_Warnings d)
    t (dec_EvaluatedAt d).
