(* ===== verification/Conditions.v ===== *)
(** * Policy conditions

    [internal/core/policy/condition/*.go]: the pure evaluators behind the ten
    policy types.  [now] is the reading of [time.Now] an evaluation makes. *)

From S2P Require Import Prelude GoStrings Floats Artifact Dependency Upstream PolicyConfig Policy.

(** ** Definitions *)

(** [time.Time.Sub]: the difference saturates at the int64 range. *)
Definition time_Sub (t u : time) : Z :=
  Z.max (-9223372036854775808) (Z.min 9223372036854775807 (t - u)).

Definition hour_ns : Z := 3600000000000.

(** [time.Duration.Hours] *)
Definition duration_Hours (d : Z) : float64 :=
  f64_add (f64_of_Z (Z.quot d hour_ns))
    (f64_div (f64_of_Z (Z.rem d hour_ns)) (f64_of_Z hour_ns)).

(** [%T] of a configuration interface value. *)
Definition config_type_name (c : option PolicyConfig) : string :=
  match c with
  | None => "<nil>"
  | Some (CfgCVSSThreshold _) => "*domain.CVSSThresholdPolicyConfig"
  | Some (CfgMinimumAge _) => "*domain.MinimumAgePolicyConfig"
  | Some (CfgMaximumAge _) => "*domain.MaximumAgePolicyConfig"
  | Some (CfgBlockMutableTag _) => "*domain.BlockMutableTagPolicyConfig"
  | Some (CfgScorecard _) => "*domain.ScorecardPolicyConfig"
  | Some (CfgLicense _) => "*domain.LicensePolicyConfig"
  | Some (CfgLicenseAllowlist _) => "*domain.LicenseAllowlistPolicyConfig"
  | Some (CfgLicenseAllowlistV2 _) => "*domain.LicenseAllowlistPolicyConfigV2"
  | Some (CfgNamespaceList _) => "*domain.NamespaceListPolicyConfig"
  end.

Definition wrong_config (policyType wanted : string) (got : option PolicyConfig) : error :=
  new_error (policyType +:+ " requires " +:+ wanted +:+ ", got " +:+ config_type_name got).

(** [(matched, reason, err)] of [Condition.Evaluate]. *)
Definition verdict : Type := result (bool * string).
Definition no_match : verdict := Ok (false, "").

(** *** age.go *)

Definition isYoungerThan (ageDays : float64) (thresholdDays : Z) : bool :=
  f64_ltb ageDays (f64_of_Z thresholdDays).
Definition isOlderThan (ageDays : float64) (thresholdDays : Z) : bool :=
  f64_gtb ageDays (f64_of_Z thresholdDays).

Definition isExcludedPackage (fullName : string) (excluded : list string) : bool :=
  bool_decide (fullName ∈ excluded).

Definition age_days (now published : time) : float64 :=
  f64_div (duration_Hours (time_Sub now published)) (f64_of_Z 24).

Definition evaluateAge (now : time) (req : AccessRequest) (excludedPackages : list string)
    (thresholdDays : Z) (matches : float64 → Z → bool) (reason : Z → Z → string) : verdict :=
  if isExcludedPackage (FullName (req_Artifact req)) excludedPackages then no_match
  else match (m ← req_Metadata req; PublishedAt m) with
  | None => no_match
  | Some published =>
      let ageDays := age_days now published in
      if matches ageDays thresholdDays
      then Ok (true, reason (f64_floor ageDays) thresholdDays)
      else no_match
  end.

Definition MinimumAge_Evaluate (now : time) (req : AccessRequest) (config : option PolicyConfig) : verdict :=
  match config with
  | Some (CfgMinimumAge typed) =>
      typed ← minage_Validate typed;
      match MinAgeDays typed with
      | None => Err nil_deref
      | Some days =>
          evaluateAge now req (min_ExcludePackages typed) days isYoungerThan
            (λ age limit, "artifact published " +:+ itoa age +:+ " days ago, minimum required is "
                          +:+ itoa limit +:+ " days")
      end
  | _ => Err (wrong_config "minimum_age" "*domain.MinimumAgePolicyConfig" config)
  end.

Definition MaximumAge_Evaluate (now : time) (req : AccessRequest) (config : option PolicyConfig) : verdict :=
  match config with
  | Some (CfgMaximumAge typed) =>
      typed ← maxage_Validate typed;
      match MaxAgeDays typed with
      | None => Err nil_deref
      | Some days =>
          evaluateAge now req (max_ExcludePackages typed) days isOlderThan
            (λ age limit, "artifact published " +:+ itoa age +:+ " days ago, maximum allowed is "
                          +:+ itoa limit +:+ " days")
      end
  | _ => Err (wrong_config "maximum_age" "*domain.MaximumAgePolicyConfig" config)
  end.

(** *** cvss.go *)

Definition severityRankWithoutNormalization (s : SeverityLevel) : option Z :=
  if decide (s = SeverityNone) then Some 0
  else if decide (s = SeverityLow) then Some 1
  else if decide (s = SeverityMedium) then Some 2
  else if decide (s = SeverityHigh) then Some 3
  else if decide (s = SeverityCritical) then Some 4
  else None.

Definition normalizeSeverity (s : SeverityLevel) : SeverityLevel :=
  let normalized := ToLower (TrimSpace s) in
  match severityRankWithoutNormalization normalized with Some _ => normalized | None => "" end.

Definition severityRank (s : SeverityLevel) : option Z :=
  severityRankWithoutNormalization (normalizeSeverity s).

Definition severityAtOrAbove (actual threshold : SeverityLevel) : bool :=
  match severityRank actual, severityRank threshold with
  | Some a, Some t => t <=? a
  | _, _ => false
  end.

Definition severityFromCVSS (score : float64) : SeverityLevel :=
  if f64_geb score (f64_of_Z 9) then SeverityCritical
  else if f64_geb score (f64_of_Z 7) then SeverityHigh
  else if f64_geb score (f64_of_Z 4) then SeverityMedium
  else if f64_gtb score (f64_of_Z 0) then SeverityLow
  else "".

(** The severity the loop compares, and whether it was inferred from the score. *)
Definition vulnerability_severity (v : Vulnerability) : SeverityLevel * bool :=
  let actual := normalizeSeverity (Severity v) in
  if decide (actual = "") then
    let actual := severityFromCVSS (CVSS v) in (actual, bool_decide (actual ≠ ""))
  else (actual, false).

Fixpoint first_severe (threshold : SeverityLevel) (l : list Vulnerability) : option string :=
  match l with
  | [] => None
  | v :: l =>
      let '(actual, inferred) := vulnerability_severity v in
      if severityAtOrAbove actual threshold then
        Some (if inferred : bool
              then "artifact has vulnerability with inferred severity " +:+ actual +:+ " (CVSS "
                   +:+ format_f1 (CVSS v) +:+ ") at or above threshold " +:+ threshold
              else "artifact has vulnerability with severity " +:+ actual
                   +:+ " at or above threshold " +:+ threshold)
      else first_severe threshold l
  end.

Definition CVSSThreshold_Evaluate (req : AccessRequest) (config : option PolicyConfig) : verdict :=
  match config with
  | Some (CfgCVSSThreshold typed) =>
      typed ← cvss_Validate typed;
      match req_Metadata req with
      | None => no_match
      | Some meta =>
          let by_score :=
            max ← MaxCVSS typed; score ← meta_MaxCVSS meta;
            if f64_geb score max
            then Some ("artifact has CVSS score " +:+ format_f1 score
                       +:+ " at or above threshold " +:+ format_f1 max)
            else None in
          match by_score with
          | Some reason => Ok (true, reason)
          | None =>
              match MinimumSeverity typed with
              | None => no_match
              | Some s =>
                  match first_severe (normalizeSeverity s) (Vulnerabilities meta) with
                  | Some reason => Ok (true, reason)
                  | None => no_match
                  end
              end
          end
      end
  | _ => Err (wrong_config "cvss_threshold" "*domain.CVSSThresholdPolicyConfig" config)
  end.

(** *** license.go *)

Definition licenseKey (value : string) : string := ToLower (TrimSpace value).
Definition approvedLicenses (licenses : list string) : list string := licenseKey <$> licenses.

Definition isUnversionedNPMMetadataRequest (req : AccessRequest) : bool :=
  bool_decide (Ecosystem (req_Artifact req) = EcosystemNPM ∧
               TrimSpace (Version (req_Artifact req)) = "").

Fixpoint find_license (p : string → bool) (l : list string) : option string :=
  match l with [] => None | x :: l => if p x then Some x else find_license p l end.

Definition License_Evaluate (req : AccessRequest) (config : option PolicyConfig) : verdict :=
  match config with
  | Some (CfgLicense typed) =>
      typed ← license_Validate typed;
      match req_Metadata req with
      | None => no_match
      | Some meta =>
          if decide (meta_Licenses meta = []) then no_match
          else
            let allowed := approvedLicenses (lic_Licenses typed) in
            match find_license (λ l, bool_decide (licenseKey l ∈ allowed)) (meta_Licenses meta) with
            | Some license => Ok (true, "license " +:+ quote license +:+ " matched policy")
            | None => no_match
            end
      end
  | _ => Err (wrong_config "license" "*domain.LicensePolicyConfig" config)
  end.

Definition applyMissingLicenseBehavior (behavior reason : string) : bool * string :=
  if decide (behavior = LicenseAllowlistMissingBehaviorSkip) then (false, "") else (true, reason).

Definition artifactLicenseReference (a : ArtifactIdentity) : string :=
  if decide (TrimSpace (Digest a) ≠ "") then FullName a +:+ "@" +:+ TrimSpace (Digest a)
  else if decide (TrimSpace (Version a) ≠ "") then FullName a +:+ "@" +:+ TrimSpace (Version a)
  else FullName a.

Definition licenseMetadataUnavailableReason (a : ArtifactIdentity) : string :=
  let ref := artifactLicenseReference a in
  if decide (ref = "")
  then "license metadata is unavailable and approved-license policy denies the artifact"
  else "license metadata is unavailable for " +:+ ref +:+ " and approved-license policy denies the artifact".

Definition unlicensedArtifactReason (a : ArtifactIdentity) : string :=
  let ref := artifactLicenseReference a in
  if decide (ref = "")
  then "artifact does not declare a license and approved-license policy denies the artifact"
  else "artifact " +:+ ref +:+ " does not declare a license and approved-license policy denies the artifact".

(** Licenses, behaviour for unlicensed artifacts, behaviour without metadata. *)
Definition licenseAllowlistSettings (config : option PolicyConfig)
    : result (list string * string * string) :=
  match config with
  | Some (CfgLicenseAllowlist typed) =>
      typed ← la_Validate typed;
      Ok (la_Licenses typed, LicenseAllowlistMissingBehaviorDeny, LicenseAllowlistMissingBehaviorDeny)
  | Some (CfgLicenseAllowlistV2 typed) =>
      typed ← la2_Validate typed;
      Ok (la2_Licenses typed, EffectiveUnlicensedBehavior (Some typed),
          EffectiveUnavailableMetadataBehavior (Some typed))
  | _ => Err (new_error ("license_allowlist requires *domain.LicenseAllowlistPolicyConfig or "
           +:+ "*domain.LicenseAllowlistPolicyConfigV2, got " +:+ config_type_name config))
  end.

Definition LicenseAllowlist_Evaluate (req : AccessRequest) (config : option PolicyConfig) : verdict :=
  if isUnversionedNPMMetadataRequest req then no_match
  else
    '(licenses, unlicensed, unavailable) ← licenseAllowlistSettings config;
    match req_Metadata req with
    | None => Ok (applyMissingLicenseBehavior unavailable
                    (licenseMetadataUnavailableReason (req_Artifact req)))
    | Some meta =>
        if decide (meta_Licenses meta = []) then
          Ok (applyMissingLicenseBehavior unlicensed (unlicensedArtifactReason (req_Artifact req)))
        else
          let allowed := approvedLicenses licenses in
          match find_license (λ l, negb (bool_decide (licenseKey l ∈ allowed))) (meta_Licenses meta) with
          | Some license =>
              Ok (true, "license " +:+ quote license +:+ " is not in the approved license list")
          | None => no_match
          end
    end.

(** *** list.go *)

Definition with_namespaces (policyType : string) (config : option PolicyConfig)
    (k : list string → verdict) : verdict :=
  match config with
  | Some (CfgNamespaceList typed) => typed ← ns_Validate typed; k (Namespaces typed)
  | _ => Err (wrong_config policyType "*domain.NamespaceListPolicyConfig" config)
  end.

Definition Allowlist_Evaluate (req : AccessRequest) (config : option PolicyConfig) : verdict :=
  with_namespaces "allowlist" config (λ namespaces,
    let ns := Namespace (req_Artifact req) in
    if decide (ns ∈ namespaces) then Ok (true, "namespace " +:+ quote ns +:+ " is allowed")
    else no_match).

Definition NamespaceAllowlist_Evaluate (req : AccessRequest) (config : option PolicyConfig) : verdict :=
  with_namespaces "namespace_allowlist" config (λ namespaces,
    let ns := Namespace (req_Artifact req) in
    if decide (ns ∈ namespaces) then no_match
    else Ok (true, "namespace " +:+ quote ns +:+ " is not in the approved namespace list")).

Definition Blocklist_Evaluate (req : AccessRequest) (config : option PolicyConfig) : verdict :=
  with_namespaces "blocklist" config (λ namespaces,
    let ns := Namespace (req_Artifact req) in
    if decide (ns ∈ namespaces) then Ok (true, "namespace " +:+ quote ns +:+ " is blocked")
    else no_match).

(** *** mutabletag.go *)

Definition BlockMutableTag_Evaluate (req : AccessRequest) (config : option PolicyConfig) : verdict :=
  match config with
  | Some (CfgBlockMutableTag typed) =>
      typed ← tag_Validate typed;
      if from_option IsMutableTag false (req_Metadata req) then
        let version := Version (req_Artifact req) in
        if decide (version ∈ Tags typed)
        then Ok (true, "mutable tag " +:+ quote version +:+ " is blocked by policy")
        else no_match
      else no_match
  | _ => Err (wrong_config "block_mutable_tag" "*domain.BlockMutableTagPolicyConfig" config)
  end.

(** *** scorecard.go *)

Definition applyUnavailableScorecardBehavior (behavior reason : string) : verdict :=
  if decide (behavior = ScorecardUnavailableBehaviorSkip) then no_match else Ok (true, reason).

Definition scorecardResult (metadata : option ArtifactMetadata) : option ScorecardResult :=
  m ← metadata; meta_Scorecard m.

Definition scorecardReference (metadata : option ArtifactMetadata) (a : ArtifactIdentity) : string :=
  let from_artifact := artifactLicenseReference a in
  match (m ← metadata; meta_SourceRepository m) with
  | Some repo =>
      if decide (ProjectURI repo ≠ "") then ProjectURI repo
      else if decide (DisplayName repo ≠ "") then DisplayName repo
      else from_artifact
  | None => from_artifact
  end.

Definition scorecardUnavailableReason (req : AccessRequest) (detail : string) : string :=
  let ref := scorecardReference (req_Metadata req) (req_Artifact req) in
  let reason := from_option (TrimSpace ∘ UnavailableReason) "" (scorecardResult (req_Metadata req)) in
  if decide (reason ≠ "") then reason +:+ " and Scorecard policy denies the artifact"
  else if decide (detail ≠ "" ∧ ref ≠ "")
  then detail +:+ " for " +:+ ref +:+ " and Scorecard policy denies the artifact"
  else if decide (detail ≠ "") then detail +:+ " and Scorecard policy denies the artifact"
  else if decide (ref ≠ "")
  then "Scorecard data is unavailable for " +:+ ref +:+ " and Scorecard policy denies the artifact"
  else "Scorecard data is unavailable and Scorecard policy denies the artifact".

(** The loop over the sorted check names. *)
Fixpoint evaluate_checks (req : AccessRequest) (behavior : string)
    (thresholds actuals : gmap string float64) (names : list string) : verdict :=
  match names with
  | [] => no_match
  | checkName :: names =>
      let minScore := default (f64_of_Z 0) (thresholds !! checkName) in
      let unavailable := applyUnavailableScorecardBehavior behavior
        (scorecardUnavailableReason req ("Scorecard check " +:+ quote checkName +:+ " is unavailable")) in
      match actuals !! checkName with
      | None => unavailable
      | Some actualScore =>
          if f64_ltb actualScore (f64_of_Z 0) then unavailable
          else if f64_ltb actualScore minScore then
            Ok (true, "source repository Scorecard check " +:+ quote checkName +:+ " scored "
                      +:+ format_f1 actualScore +:+ " below minimum " +:+ format_f1 minScore)
          else evaluate_checks req behavior thresholds actuals names
      end
  end.

Definition sorted_check_names (checks : gmap string float64) : list string :=
  sort_by str_ltb (map_to_list checks).*1.

Definition Scorecard_Evaluate (req : AccessRequest) (config : option PolicyConfig) : verdict :=
  match config with
  | Some (CfgScorecard typed) =>
      typed ← scorecard_Validate typed;
      let behavior := EffectiveUnavailableScorecardBehavior (Some typed) in
      match scorecardResult (req_Metadata req) with
      | None => applyUnavailableScorecardBehavior behavior (scorecardUnavailableReason req "")
      | Some scorecard =>
          let checks :=
            if decide (Checks typed = ∅) then no_match
            else evaluate_checks req behavior (Checks typed) (res_Checks scorecard)
                   (sorted_check_names (Checks typed)) in
          match MinScore typed with
          | None => checks
          | Some minScore =>
              match Score scorecard with
              | None => applyUnavailableScorecardBehavior behavior
                  (scorecardUnavailableReason req "overall Scorecard is unavailable")
              | Some score =>
                  if f64_ltb score minScore then
                    Ok (true, "source repository Scorecard " +:+ format_f1 score
                              +:+ " is below minimum " +:+ format_f1 minScore)
                  else checks
              end
          end
      end
  | _ => Err (wrong_config "scorecard" "*domain.ScorecardPolicyConfig" config)
  end.

Definition matched (v : verdict) : bool := match v with Ok (b, _) => b | Err _ => false end.

(** ** Lemmas *)

Lemma find_license_Some p l x : find_license p l = Some x → x ∈ l ∧ p x = true.
Proof.
  induction l as [|y l IH]; simpl; [done|]. destruct (p y) eqn:E; [intros [= ->]; set_solver|].
  intros H. apply IH in H. set_solver.
Qed.

Lemma find_license_None p l : find_license p l = None ↔ ∀ x, x ∈ l → p x = false.
Proof.
  induction l as [|y l IH]; simpl; [set_solver|]. destruct (p y) eqn:E; [|set_solver].
  split; [done|]. intros H. rewrite H in E by left. done.
Qed.

Lemma find_license_exists p l : is_Some (find_license p l) ↔ ∃ x, x ∈ l ∧ p x = true.
Proof.
  split.
  - intros [x Hx]. apply find_license_Some in Hx. eauto.
  - intros (x & Hx & Hp). destruct (find_license p l) eqn:E; [eauto|].
    rewrite find_license_None in E. rewrite E in Hp by done. done.
Qed.

Lemma rank_lower s n : severityRankWithoutNormalization s = Some n → ToLower (TrimSpace s) = s ∧ s ≠ "".
Proof. unfold severityRankWithoutNormalization. repeat case_decide; naive_solver. Qed.

Lemma normalizeSeverity_idem s : normalizeSeverity (normalizeSeverity s) = normalizeSeverity s.
Proof.
  unfold normalizeSeverity at 2 3.
  destruct (severityRankWithoutNormalization (ToLower (TrimSpace s))) eqn:E; [|done].
  unfold normalizeSeverity. destruct (rank_lower _ _ E) as [-> _]. by rewrite E.
Qed.

Lemma severityAtOrAbove_normalize a t :
  severityAtOrAbove a (normalizeSeverity t) = severityAtOrAbove a t.
Proof. unfold severityAtOrAbove, severityRank. by rewrite normalizeSeverity_idem. Qed.

Lemma severityAtOrAbove_trans a s t :
  severityAtOrAbove a s = true → severityAtOrAbove s t = true → severityAtOrAbove a t = true.
Proof.
  unfold severityAtOrAbove. destruct (severityRank a), (severityRank s), (severityRank t); try done.
  rewrite !Z.leb_le. lia.
Qed.

Lemma first_severe_spec t l :
  is_Some (first_severe t l) ↔
  ∃ v, v ∈ l ∧ severityAtOrAbove (vulnerability_severity v).1 t = true.
Proof.
  induction l as [|v l IH]; simpl; [split; [by intros []|set_solver]|].
  destruct (vulnerability_severity v) as [a inf] eqn:E.
  destruct (severityAtOrAbove a t) eqn:Ea.
  - split; [|by eauto]. intros _. exists v. rewrite E. split; [left|done].
  - rewrite IH. setoid_rewrite elem_of_cons. split; [naive_solver|].
    intros (w & [->|Hw] & H); [rewrite E in H; simpl in H; congruence|eauto].
Qed.

Lemma evaluate_checks_matched req b ts actuals names :
  (∀ k, k ∈ names → ∃ a, actuals !! k = Some a ∧ f64_ltb a (f64_of_Z 0) = false) →
  matched (evaluate_checks req b ts actuals names) = true ↔
  ∃ k a, k ∈ names ∧ actuals !! k = Some a ∧
         f64_ltb a (default (f64_of_Z 0) (ts !! k)) = true.
Proof.
  induction names as [|k names IH]; intros Ha; simpl.
  { split; [done|]. intros (k & a & Hk & _). set_solver. }
  destruct (Ha k) as (a & Hk & Hpos); [left|]. rewrite Hk, Hpos.
  destruct (f64_ltb a (default (f64_of_Z 0) (ts !! k))) eqn:E; simpl.
  - split; [|done]. intros _. exists k, a. split; [left|done].
  - rewrite IH by (intros; apply Ha; by right). split.
    + intros (k' & a' & Hin & H). exists k', a'. split; [by right|done].
    + intros (k' & a' & [->|Hin]%elem_of_cons & H1 & H2); [congruence|eauto].
Qed.

Lemma sorted_check_names_elem m k : k ∈ sorted_check_names m ↔ is_Some (m !! k).
Proof.
  unfold sorted_check_names. rewrite sort_by_elem, list_elem_of_fmap. split.
  - intros ([k' v] & -> & Hin%elem_of_map_to_list). eauto.
  - intros [v Hv]. exists (k, v). by rewrite elem_of_map_to_list.
Qed.

(** ** Properties *)

(** The vulnerability condition matches exactly when the artifact's maximum
    CVSS score reaches the numeric threshold or some vulnerability (its declared
    severity, or the one inferred from its score) reaches the severity
    threshold; and weakening the severity threshold never loses a match. *)
Theorem CVSSThreshold_spec req meta c t :
  cvss_Validate (Some c) = Ok c → req_Metadata req = Some meta →
  (matched (CVSSThreshold_Evaluate req (Some (CfgCVSSThreshold (Some c)))) = true ↔
    (∃ max score, MaxCVSS c = Some max ∧ meta_MaxCVSS meta = Some score ∧
                  f64_geb score max = true) ∨
    (∃ s v, MinimumSeverity c = Some s ∧ v ∈ Vulnerabilities meta ∧
            severityAtOrAbove (vulnerability_severity v).1 s = true)) ∧
  (∀ s, MinimumSeverity c = Some s → valid_severity t = true → severityAtOrAbove s t = true →
    matched (CVSSThreshold_Evaluate req (Some (CfgCVSSThreshold (Some c)))) = true →
    matched (CVSSThreshold_Evaluate req (Some (CfgCVSSThreshold
      (Some (mkCVSSThreshold (MaxCVSS c) (Some t) (cvss_DryRun c)))))) = true).
Proof.
  intros Hv Hm.
  assert (Hspec : ∀ c, cvss_Validate (Some c) = Ok c →
    matched (CVSSThreshold_Evaluate req (Some (CfgCVSSThreshold (Some c)))) = true ↔
    (∃ max score, MaxCVSS c = Some max ∧ meta_MaxCVSS meta = Some score ∧
                  f64_geb score max = true) ∨
    (∃ s v, MinimumSeverity c = Some s ∧ v ∈ Vulnerabilities meta ∧
            severityAtOrAbove (vulnerability_severity v).1 s = true)).
  { clear c Hv t. intros c Hv. unfold CVSSThreshold_Evaluate. rewrite Hv, Hm. simpl.
    assert (Hsev : matched (match MinimumSeverity c with
        | Some s => match first_severe (normalizeSeverity s) (Vulnerabilities meta) with
                    | Some reason => Ok (true, reason) | None => no_match end
        | None => no_match end) = true ↔
      ∃ s v, MinimumSeverity c = Some s ∧ v ∈ Vulnerabilities meta ∧
            severityAtOrAbove (vulnerability_severity v).1 s = true).
    { destruct (MinimumSeverity c) as [s|]; [|naive_solver].
      pose proof (first_severe_spec (normalizeSeverity s) (Vulnerabilities meta)) as H.
      setoid_rewrite severityAtOrAbove_normalize in H.
      destruct (first_severe _ _); simpl; [|split; [done|]].
      - split; [|done]. intros _. destruct (proj1 H) as (v & ? & ?); eauto.
      - intros (s' & v & [= <-] & Hx). destruct (proj2 H); [by exists v|done]. }
    destruct (MaxCVSS c) as [mx|]; simpl; [|naive_solver].
    destruct (meta_MaxCVSS meta) as [sc|]; simpl; [|naive_solver].
    destruct (f64_geb sc mx) eqn:E; simpl; [naive_solver|].
    rewrite Hsev. split; [by right|]. intros [(? & ? & [= <-] & [= <-] & ?)|?]; [congruence|done]. }
  split; [by apply Hspec|]. intros s Hs Ht Hge Hmatch. apply Hspec.
  - revert Hv. unfold cvss_Validate. simpl. rewrite Hs, Ht.
    rewrite !decide_False by naive_solver. by repeat case_match.
  - apply (Hspec c Hv) in Hmatch as [H|(s1 & v & Hs1 & Hin & Hsev)]; [by left|].
    right. exists t, v. split; [done|]. split; [done|].
    apply severityAtOrAbove_trans with s; congruence.
Qed.

Definition vulnerable_meta : ArtifactMetadata :=
  mkMetadata None None [] [mkVulnerability "GHSA-1" " HIGH " (f64_of_Z 0) "";
                           mkVulnerability "GHSA-2" "" (f64_tenths 95) ""] false None None.
Definition sample_request (meta : option ArtifactMetadata) : AccessRequest :=
  mkRequest "t1" "r1" AccessRequestKindNPMTarball
    (mkArtifact EcosystemNPM "@scope" "left-pad" "1.3.0" "") no_upstream meta None 0.

Lemma CVSSThreshold_spec_witness :
  matched (CVSSThreshold_Evaluate (sample_request (Some vulnerable_meta))
    (Some (CfgCVSSThreshold (Some (mkCVSSThreshold None (Some "low") false))))) = true.
Proof.
  eapply (proj2 (CVSSThreshold_spec (sample_request (Some vulnerable_meta)) vulnerable_meta
    (mkCVSSThreshold None (Some "critical") false) "low" eq_refl eq_refl));
    vm_compute; reflexivity.
Defined.

(** The license conditions are set tests on case-folded, trimmed
    identifiers: [license] matches exactly when some declared license is
    listed, [license_allowlist] (either schema) exactly when some declared
    license is not. *)
Theorem license_conditions_spec req meta l dry ub mb :
  req_Metadata req = Some meta → meta_Licenses meta ≠ [] → l ≠ [] →
  isUnversionedNPMMetadataRequest req = false →
  validateBehavior ub "unlicensed_behavior" = None →
  validateBehavior mb "unavailable_metadata_behavior" = None →
  let listed x := licenseKey x ∈ (licenseKey <$> l) in
  (matched (License_Evaluate req (Some (CfgLicense (Some (mkLicense l dry))))) = true ↔
     ∃ x, x ∈ meta_Licenses meta ∧ listed x) ∧
  (matched (LicenseAllowlist_Evaluate req
     (Some (CfgLicenseAllowlist (Some (mkLicenseAllowlist l dry))))) = true ↔
     ∃ x, x ∈ meta_Licenses meta ∧ ¬ listed x) ∧
  (matched (LicenseAllowlist_Evaluate req
     (Some (CfgLicenseAllowlistV2 (Some (mkLicenseAllowlistV2 l ub mb dry))))) = true ↔
     ∃ x, x ∈ meta_Licenses meta ∧ ¬ listed x).
Proof.
  intros Hm Hne Hl Hu Hub Hmb listed.
  assert (Hfind : ∀ p r, matched (match find_license p (meta_Licenses meta) with
      | Some x => Ok (true, r x) | None => no_match end) = true ↔
      ∃ x, x ∈ meta_Licenses meta ∧ p x = true).
  { intros p r. rewrite <-find_license_exists. destruct (find_license p _) eqn:E; split; try done; by intros []. }
  split; [|split].
  - unfold License_Evaluate, license_Validate. simpl. rewrite decide_False by done. simpl.
    rewrite Hm, decide_False by done. rewrite Hfind. setoid_rewrite bool_decide_eq_true. done.
  - unfold LicenseAllowlist_Evaluate. rewrite Hu. unfold licenseAllowlistSettings, la_Validate. simpl.
    rewrite decide_False by done. simpl. rewrite Hm, decide_False by done. rewrite Hfind.
    setoid_rewrite negb_true_iff. setoid_rewrite bool_decide_eq_false. done.
  - unfold LicenseAllowlist_Evaluate. rewrite Hu. unfold licenseAllowlistSettings, la2_Validate.
    simpl. rewrite decide_False, Hub, Hmb by done. simpl. rewrite Hm, decide_False by done.
    rewrite Hfind. setoid_rewrite negb_true_iff. setoid_rewrite bool_decide_eq_false. done.
Qed.

Lemma license_conditions_spec_witness :
  let meta := mkMetadata None None ["mit "; "GPL-3.0-only"] [] false None None in
  matched (License_Evaluate (sample_request (Some meta))
    (Some (CfgLicense (Some (mkLicense ["MIT"] false))))) = true.
Proof.
  intros meta.
  apply (proj1 (license_conditions_spec (sample_request (Some meta)) meta ["MIT"] false "" ""
    eq_refl ltac:(done) ltac:(done) eq_refl eq_refl eq_refl)).
  exists "mit ". split; [left|vm_compute; left].
Defined.

(** Missing enrichment. Without metadata, and for a concrete version, the
    vulnerability, age and license conditions of a valid configuration skip;
    [license_allowlist] schema 1 denies, and schema 2 and [scorecard] deny unless
    configured to skip. *)
Theorem missing_metadata_behavior now req cv mi ma li la la2 sc :
  req_Metadata req = None → isUnversionedNPMMetadataRequest req = false →
  is_ok (cvss_Validate (Some cv)) = true → is_ok (minage_Validate (Some mi)) = true →
  is_ok (maxage_Validate (Some ma)) = true → is_ok (license_Validate (Some li)) = true →
  is_ok (la_Validate (Some la)) = true → is_ok (la2_Validate (Some la2)) = true →
  is_ok (scorecard_Validate (Some sc)) = true →
  CVSSThreshold_Evaluate req (Some (CfgCVSSThreshold (Some cv))) = no_match ∧
  MinimumAge_Evaluate now req (Some (CfgMinimumAge (Some mi))) = no_match ∧
  MaximumAge_Evaluate now req (Some (CfgMaximumAge (Some ma))) = no_match ∧
  License_Evaluate req (Some (CfgLicense (Some li))) = no_match ∧
  matched (LicenseAllowlist_Evaluate req (Some (CfgLicenseAllowlist (Some la)))) = true ∧
  matched (LicenseAllowlist_Evaluate req (Some (CfgLicenseAllowlistV2 (Some la2)))) =
    negb (bool_decide (UnavailableMetadataBehavior la2 = "skip")) ∧
  matched (Scorecard_Evaluate req (Some (CfgScorecard (Some sc)))) =
    negb (bool_decide (UnavailableScorecardBehavior sc = "skip")).
Proof.
  intros Hm Hu [cv' H1]%is_ok_spec [mi' H2]%is_ok_spec [ma' H3]%is_ok_spec [li' H4]%is_ok_spec
    [la' H5]%is_ok_spec [la2' H6]%is_ok_spec [sc' H7]%is_ok_spec.
  unfold CVSSThreshold_Evaluate, MinimumAge_Evaluate, MaximumAge_Evaluate, License_Evaluate,
    LicenseAllowlist_Evaluate, Scorecard_Evaluate, licenseAllowlistSettings, evaluateAge.
  rewrite H1, H2, H3, H4, H5, H6, H7, Hm, Hu. simpl.
  assert (la2' = la2) as -> by (revert H6; unfold la2_Validate; repeat case_match; congruence).
  assert (Hb : UnavailableScorecardBehavior sc' = UnavailableScorecardBehavior sc).
  { apply scorecard_Validate_inv in H7 as (_ & _ & _ & [[_ ->]|(_ & m & _ & ->)]); done. }
  split; [done|]. split.
  { unfold minage_Validate in H2. destruct (MinAgeDays mi') eqn:E; [by destruct (isExcludedPackage _ _)|].
    case_decide; [done|]. naive_solver. }
  split.
  { unfold maxage_Validate in H3. destruct (MaxAgeDays ma') eqn:E; [by destruct (isExcludedPackage _ _)|].
    case_decide; [done|]. naive_solver. }
  split; [done|]. split; [done|]. split.
  - destruct (decide (UnavailableMetadataBehavior la2 = "")) as [E|E]; [by rewrite E|].
    unfold applyMissingLicenseBehavior, LicenseAllowlistMissingBehaviorSkip.
    destruct (decide (UnavailableMetadataBehavior la2 = "skip")) as [E2|E2]; [by rewrite E2|].
    by rewrite bool_decide_eq_false_2.
  - rewrite Hb. destruct (decide (UnavailableScorecardBehavior sc = "")) as [E|E]; [by rewrite E|].
    unfold applyUnavailableScorecardBehavior, ScorecardUnavailableBehaviorSkip.
    destruct (decide (UnavailableScorecardBehavior sc = "skip")) as [E2|E2]; [by rewrite E2|].
    by rewrite bool_decide_eq_false_2.
Qed.

Lemma missing_metadata_behavior_witness :
  matched (Scorecard_Evaluate (sample_request None) (Some (CfgScorecard (Some sample_scorecard)))) = false.
Proof.
  refine (proj2 (proj2 (proj2 (proj2 (proj2 (proj2 (missing_metadata_behavior 0
    (sample_request None) (mkCVSSThreshold (Some (f64_of_Z 7)) None false)
    (mkMinimumAge (Some 7) [] false) (mkMaximumAge (Some 700) [] false) (mkLicense ["MIT"] false)
    (mkLicenseAllowlist ["MIT"] false) (mkLicenseAllowlistV2 ["MIT"] "" "skip" false)
    sample_scorecard _ _ _ _ _ _ _ _ _))))))); vm_compute; reflexivity.
Defined.

(** An artifact is never both too young and too old for one threshold, and
    a package named in [exclude_packages] is neither. *)
Theorem age_conditions_exclusive now req days ex dry :
  ¬ (matched (MinimumAge_Evaluate now req
       (Some (CfgMinimumAge (Some (mkMinimumAge (Some days) ex dry))))) = true ∧
     matched (MaximumAge_Evaluate now req
       (Some (CfgMaximumAge (Some (mkMaximumAge (Some days) ex dry))))) = true) ∧
  (FullName (req_Artifact req) ∈ ex →
     MinimumAge_Evaluate now req (Some (CfgMinimumAge (Some (mkMinimumAge (Some days) ex dry)))) = no_match ∧
     MaximumAge_Evaluate now req (Some (CfgMaximumAge (Some (mkMaximumAge (Some days) ex dry)))) = no_match).
Proof.
  unfold MinimumAge_Evaluate, MaximumAge_Evaluate, minage_Validate, maxage_Validate. simpl.
  unfold evaluateAge. split.
  - intros [H1 H2]. destruct (isExcludedPackage _ _); [done|].
    destruct (m ← req_Metadata req; PublishedAt m) as [p|]; [|done].
    unfold isYoungerThan, isOlderThan in *. revert H1 H2.
    destruct (f64_ltb (age_days now p) (f64_of_Z days)) eqn:E; [|done].
    by rewrite (f64_ltb_gtb _ _ E).
  - intros Hex. unfold isExcludedPackage. by rewrite bool_decide_eq_true_2.
Qed.

Lemma age_conditions_exclusive_witness :
  MinimumAge_Evaluate 0 (sample_request (Some empty_metadata))
    (Some (CfgMinimumAge (Some (mkMinimumAge (Some 7) ["@scope/left-pad"] false)))) = no_match.
Proof.
  apply (proj2 (age_conditions_exclusive 0 (sample_request (Some empty_metadata)) 7
    ["@scope/left-pad"] false)). vm_compute. left.
Defined.

(** When the repository's Scorecard and every required check are
    available, the scorecard condition matches exactly when the overall score or
    some required check is below its minimum; which checks there are is a set,
    so the order in which the code visits them does not matter. *)
Theorem Scorecard_spec req c c' sc :
  scorecard_Validate (Some c) = Ok c' →
  scorecardResult (req_Metadata req) = Some sc →
  (MinScore c' ≠ None → Score sc ≠ None) →
  (∀ k, is_Some (Checks c' !! k) →
     ∃ a, res_Checks sc !! k = Some a ∧ f64_ltb a (f64_of_Z 0) = false) →
  matched (Scorecard_Evaluate req (Some (CfgScorecard (Some c)))) = true ↔
    (∃ m s, MinScore c' = Some m ∧ Score sc = Some s ∧ f64_ltb s m = true) ∨
    (∃ k t a, Checks c' !! k = Some t ∧ res_Checks sc !! k = Some a ∧ f64_ltb a t = true).
Proof.
  intros Hv Hsc Hs Hch. unfold Scorecard_Evaluate. rewrite Hv. simpl. rewrite Hsc.
  set (checks := if decide (Checks c' = ∅) then _ else _).
  assert (Hc : matched checks = true ↔
    ∃ k t a, Checks c' !! k = Some t ∧ res_Checks sc !! k = Some a ∧ f64_ltb a t = true).
  { unfold checks. case_decide as He.
    - rewrite He. split; [done|]. intros (k & t & a & Hk & _). by rewrite lookup_empty in Hk.
    - rewrite evaluate_checks_matched.
      2:{ intros k Hk%sorted_check_names_elem. by apply Hch. }
      setoid_rewrite sorted_check_names_elem. split.
      + intros (k & a & [t Ht] & Ha & Hlt). rewrite Ht in Hlt. eauto 6.
      + intros (k & t & a & Ht & Ha & Hlt). exists k, a. rewrite Ht. eauto. }
  destruct (MinScore c') as [m|]; [|naive_solver].
  destruct (Score sc) as [s|]; [|naive_solver].
  destruct (f64_ltb s m) eqn:E; [naive_solver|]. rewrite Hc.
  split; [by right|]. intros [(? & ? & [= <-] & [= <-] & ?)|?]; [congruence|done].
Qed.

Lemma Scorecard_spec_witness :
  let sc := mkScorecardResult (Some (f64_of_Z 8))
    (<["token-permissions" := f64_of_Z 4]> (<["binary-artifacts" := f64_of_Z 10]> ∅)) "" in
  matched (Scorecard_Evaluate (sample_request
     (Some (mkMetadata None None [] [] false None (Some sc))))
     (Some (CfgScorecard (Some sample_scorecard)))) = true.
Proof.
  intros sc. eapply (proj2 (Scorecard_spec (sample_request
      (Some (mkMetadata None None [] [] false None (Some sc)))) sample_scorecard
    (mkScorecard (Some (f64_of_Z 7)) (<["token-permissions" := f64_of_Z 5]>
      (<["binary-artifacts" := f64_of_Z 10]> ∅)) "skip" false) sc _ _ _ _)).
  Unshelve.
  - right. exists "token-permissions", (f64_of_Z 5), (f64_of_Z 4). vm_compute. done.
  - vm_compute. reflexivity.
  - reflexivity.
  - done.
  - intros k. simpl. rewrite !lookup_insert. repeat case_decide; simpl.
    + eexists. split; [reflexivity|vm_compute; reflexivity].
    + eexists. split; [reflexivity|vm_compute; reflexivity].
    + rewrite lookup_empty. by intros [].
Defined.
