(* ===== verification/Catalog.v ===== *)
(** * The policy catalog

    [internal/core/policy/catalog*.go], [schema.go], [validate.go] and
    [upstream_support.go]: the ten compiled policy types, their schema versions,
    policy validation and upstream compatibility.  The documentation strings of
    a descriptor (summary, description, help, example) are left out. *)

From S2P Require Import Prelude GoStrings Floats Artifact Dependency Upstream PolicyConfig.
From S2P Require Import Policy Conditions.

(** ** Definitions *)

Record PolicyTypeDescriptor : Type := mkDescriptor {
  desc_Type : PolicyType;
  CurrentSchemaVersion : Z;
  SupportedSchemaVersions : list Z;
  SupportedActions : list PolicyAction;
  SupportedEcosystems : list EcosystemType;
  RequiredCapabilities : list UpstreamCapability;
}.

(** [newConfigBySchema] lists the zero configuration each factory returns. *)
Record policyDefinition : Type := mkDefinition {
  descriptor : PolicyTypeDescriptor;
  requiresExternalMetadata : bool;
  newConfigBySchema : list (Z * PolicyConfig);
  configMatches : option PolicyConfig → bool;
  conditionEvaluator : time → AccessRequest → option PolicyConfig → verdict;
}.

Definition defineDenyPolicyV1 (policyType : PolicyType)
    (cond : time → AccessRequest → option PolicyConfig → verdict)
    (ecosystem : EcosystemType) (requiredCapability : UpstreamCapability)
    (external : bool) (matches : option PolicyConfig → bool) (newConfig : PolicyConfig)
    : policyDefinition :=
  mkDefinition
    (mkDescriptor policyType 1 [1] [PolicyActionDeny] [ecosystem] [requiredCapability])
    external [(1, newConfig)] matches cond.

Definition minimumAgePolicyDefinition : policyDefinition :=
  defineDenyPolicyV1 PolicyTypeMinimumAge MinimumAge_Evaluate EcosystemNPM
    UpstreamCapabilityPublishTime true
    (λ c, match c with Some (CfgMinimumAge _) => true | _ => false end)
    (CfgMinimumAge (Some (mkMinimumAge None [] false))).

Definition maximumAgePolicyDefinition : policyDefinition :=
  defineDenyPolicyV1 PolicyTypeMaximumAge MaximumAge_Evaluate EcosystemNPM
    UpstreamCapabilityPublishTime true
    (λ c, match c with Some (CfgMaximumAge _) => true | _ => false end)
    (CfgMaximumAge (Some (mkMaximumAge None [] false))).

Definition blockMutableTagPolicyDefinition : policyDefinition :=
  defineDenyPolicyV1 PolicyTypeBlockMutableTag (λ _, BlockMutableTag_Evaluate) EcosystemOCI
    UpstreamCapabilityManifestDigestLookup false
    (λ c, match c with Some (CfgBlockMutableTag _) => true | _ => false end)
    (CfgBlockMutableTag (Some (mkBlockMutableTag [] false))).

Definition scorecardPolicyDefinition : policyDefinition :=
  defineDenyPolicyV1 PolicyTypeScorecard (λ _, Scorecard_Evaluate) EcosystemNPM
    UpstreamCapabilityScorecardLookup true
    (λ c, match c with Some (CfgScorecard _) => true | _ => false end)
    (CfgScorecard (Some (mkScorecard None ∅ "" false))).

Definition cvssThresholdPolicyDefinition : policyDefinition :=
  defineDenyPolicyV1 PolicyTypeCVSSThreshold (λ _, CVSSThreshold_Evaluate) EcosystemNPM
    UpstreamCapabilityVulnerabilityLookup true
    (λ c, match c with Some (CfgCVSSThreshold _) => true | _ => false end)
    (CfgCVSSThreshold (Some (mkCVSSThreshold None None false))).

Definition licensePolicyDefinition : policyDefinition :=
  mkDefinition
    (mkDescriptor PolicyTypeLicense 1 [1] [PolicyActionAllow; PolicyActionDeny] [EcosystemNPM]
       [UpstreamCapabilityLicenses])
    true [(1, CfgLicense (Some (mkLicense [] false)))]
    (λ c, match c with Some (CfgLicense _) => true | _ => false end)
    (λ _, License_Evaluate).

Definition licenseAllowlistConfigMatches (c : option PolicyConfig) : bool :=
  match c with
  | Some (CfgLicenseAllowlist _) | Some (CfgLicenseAllowlistV2 _) => true
  | _ => false
  end.

Definition licenseAllowlistPolicyDefinition : policyDefinition :=
  mkDefinition
    (mkDescriptor PolicyTypeLicenseAllowlist 2 [1; 2] [PolicyActionDeny] [EcosystemNPM]
       [UpstreamCapabilityLicenses])
    true [(1, CfgLicenseAllowlist (Some (mkLicenseAllowlist [] false)));
          (2, CfgLicenseAllowlistV2 (Some (mkLicenseAllowlistV2 [] "" "" false)))]
    licenseAllowlistConfigMatches (λ _, LicenseAllowlist_Evaluate).

Definition namespaceListMatches (c : option PolicyConfig) : bool :=
  match c with Some (CfgNamespaceList _) => true | _ => false end.

Definition namespaceListDefinition (policyType : PolicyType) (action : PolicyAction)
    (cond : AccessRequest → option PolicyConfig → verdict) : policyDefinition :=
  mkDefinition
    (mkDescriptor policyType 1 [1] [action] [EcosystemNPM; EcosystemOCI] [])
    false [(1, CfgNamespaceList (Some (mkNamespaceList [] false)))]
    namespaceListMatches (λ _, cond).

Definition allowlistPolicyDefinition : policyDefinition :=
  namespaceListDefinition PolicyTypeAllowlist PolicyActionAllow Allowlist_Evaluate.
Definition namespaceAllowlistPolicyDefinition : policyDefinition :=
  namespaceListDefinition PolicyTypeNamespaceAllowlist PolicyActionDeny NamespaceAllowlist_Evaluate.
Definition blocklistPolicyDefinition : policyDefinition :=
  namespaceListDefinition PolicyTypeBlocklist PolicyActionDeny Blocklist_Evaluate.

Definition policyDefinitions : list policyDefinition :=
  [cvssThresholdPolicyDefinition; minimumAgePolicyDefinition; maximumAgePolicyDefinition;
   blockMutableTagPolicyDefinition; scorecardPolicyDefinition; licensePolicyDefinition;
   licenseAllowlistPolicyDefinition; allowlistPolicyDefinition;
   namespaceAllowlistPolicyDefinition; blocklistPolicyDefinition].

(** [indexPolicyDefinitions] builds a map keyed by type (it panics on a
    duplicate, which [policy_types_NoDup] excludes); a lookup finds the one
    definition of the type. *)
Fixpoint find_definition (t : PolicyType) (l : list policyDefinition) : option policyDefinition :=
  match l with
  | [] => None
  | d :: l => if decide (desc_Type (descriptor d) = t) then Some d else find_definition t l
  end.

Definition policyDefinitionFor (t : PolicyType) : option policyDefinition :=
  find_definition t policyDefinitions.

Definition parsePolicyType (raw : string) : option PolicyType :=
  match policyDefinitionFor raw with Some _ => Some raw | None => None end.

(** [invalidPolicyf] *)
Definition invalidPolicy (msg : string) : error := sentinel_suffix ErrInvalidPolicy (": " +:+ msg).

Definition unknown_type (t : PolicyType) : string := "unknown policy type " +:+ quote t.

Definition conditionForType (t : PolicyType)
    : result (time → AccessRequest → option PolicyConfig → verdict) :=
  match policyDefinitionFor t with
  | Some d => Ok (conditionEvaluator d)
  | None => Err (new_error (unknown_type t))
  end.

Fixpoint assoc_Z {A} (k : Z) (l : list (Z * A)) : option A :=
  match l with [] => None | (k', a) :: l => if decide (k' = k) then Some a else assoc_Z k l end.

Definition newConfigForType (t : PolicyType) (schemaVersion : Z) : result PolicyConfig :=
  match policyDefinitionFor t with
  | None => Err (invalidPolicy (unknown_type t))
  | Some d =>
      match assoc_Z schemaVersion (newConfigBySchema d) with
      | Some c => Ok c
      | None => Err (sentinel_suffix ErrUnsupportedPolicySchemaVersion
          (": schema_version " +:+ itoa schemaVersion +:+ " is not supported for policy type "
           +:+ quote t))
      end
  end.

Definition configTypeMatchesPolicy (t : PolicyType) (c : option PolicyConfig) : bool :=
  match policyDefinitionFor t with Some d => configMatches d c | None => false end.

Definition RequiresExternalMetadata (t : PolicyType) : bool :=
  match policyDefinitionFor t with Some d => requiresExternalMetadata d | None => false end.

Definition TypeCatalog : list PolicyTypeDescriptor := descriptor <$> policyDefinitions.

(** *** schema.go *)

Definition typeDescriptorFor (t : PolicyType) : option PolicyTypeDescriptor :=
  descriptor <$> policyDefinitionFor t.

Definition currentSchemaVersionForType (t : PolicyType) : result Z :=
  match typeDescriptorFor t with
  | Some d => Ok (CurrentSchemaVersion d)
  | None => Err (invalidPolicy (unknown_type t))
  end.

Definition normalizeSchemaVersion (t : PolicyType) (version : Z) : result Z :=
  if decide (version ≠ 0) then Ok version else currentSchemaVersionForType t.

(** [%v] of a []int *)
Definition format_ints (l : list Z) : string := "[" +:+ Join " " (itoa <$> l) +:+ "]".

Definition validateSchemaVersion (t : PolicyType) (version : Z) : option error :=
  match typeDescriptorFor t with
  | None => Some (invalidPolicy (unknown_type t))
  | Some d =>
      if decide (version ∈ SupportedSchemaVersions d) then None
      else Some (sentinel_suffix ErrUnsupportedPolicySchemaVersion
        (": schema_version " +:+ itoa version +:+ " is not supported for policy type " +:+ quote t
         +:+ "; supported versions: " +:+ format_ints (SupportedSchemaVersions d)))
  end.

(** [mustNormalizePolicySchemaVersion] (hash.go) *)
Definition mustNormalizePolicySchemaVersion (t : PolicyType) (version : Z) : Z :=
  match normalizeSchemaVersion t version with Ok v => v | Err _ => version end.

(** *** validate.go *)

Definition validActions : list PolicyAction := [PolicyActionAllow; PolicyActionDeny].

(** The type, action and schema checks of [ValidatePolicy]. *)
Definition validate_header (p : Policy) : option error :=
  if decide (TrimSpace (pol_TenantID p) = "") then Some (invalidPolicy "tenant_id is required")
  else if decide (TrimSpace (pol_Name p) = "") then Some (invalidPolicy "name is required")
  else match policyDefinitionFor (pol_Type p) with
  | None => Some (invalidPolicy (unknown_type (pol_Type p)))
  | Some d =>
      if decide (pol_Action p ∉ validActions) then
        Some (invalidPolicy ("invalid action " +:+ quote (pol_Action p) +:+ ", must be "
          +:+ quote PolicyActionAllow +:+ " or " +:+ quote PolicyActionDeny))
      else if decide (pol_Action p ∉ SupportedActions (descriptor d)) then
        Some (match SupportedActions (descriptor d) with
              | [a] => invalidPolicy ("policy type " +:+ quote (pol_Type p) +:+ " requires action " +:+ quote a)
              | _ => invalidPolicy ("policy type " +:+ quote (pol_Type p)
                       +:+ " does not support action " +:+ quote (pol_Action p))
              end)
      else match normalizeSchemaVersion (pol_Type p) (pol_SchemaVersion p) with
      | Err e => Some e
      | Ok v => validateSchemaVersion (pol_Type p) v
      end
  end.

(** [ValidatePolicy]; the result is the policy with the writes its [Validate]
    calls make through the configuration and target pointers. *)
Definition ValidatePolicy (p : Policy) : result Policy :=
  match validate_header p with
  | Some e => Err e
  | None =>
      match pol_Config p with
      | None => Err (invalidPolicy "config is required")
      | Some config =>
          if configTypeMatchesPolicy (pol_Type p) (Some config) then
            match config_Validate config with
            | Err e => Err (invalidPolicy (error_msg e))
            | Ok config =>
                match target_Validate (pol_Target p) with
                | Err e => Err (invalidPolicy (error_msg e))
                | Ok target => Ok (set_Config_Target (Some config) target p)
                end
            end
          else Err (invalidPolicy ("config type " +:+ config_type_name (Some config)
                      +:+ " does not match policy type " +:+ quote (pol_Type p)))
      end
  end.

Fixpoint validate_from (i : Z) (seenNames : gmap string Z) (policies : list Policy)
    : result (list Policy) :=
  match policies with
  | [] => Ok []
  | p :: policies =>
      match ValidatePolicy p with
      | Err e => Err (sentinel_suffix ErrInvalidPolicy
          (": policy " +:+ itoa i +:+ " (" +:+ quote (pol_Name p) +:+ "): " +:+ error_msg e))
      | Ok p' =>
          match seenNames !! pol_Name p with
          | Some firstIndex => Err (sentinel_suffix ErrInvalidPolicy
              (": policy " +:+ itoa i +:+ " (" +:+ quote (pol_Name p)
               +:+ "): duplicate policy name " +:+ quote (pol_Name p)
               +:+ " already used by policy " +:+ itoa firstIndex))
          | None => ps ← validate_from (i + 1) (<[pol_Name p := i]> seenNames) policies; Ok (p' :: ps)
          end
      end
  end.

Definition ValidatePolicies (policies : list Policy) : result (list Policy) :=
  validate_from 0 ∅ policies.

(** *** upstream_support.go *)

Definition ValidateUpstreamCompatibility (t : PolicyType) (u : Upstream) : option error :=
  match typeDescriptorFor t with
  | None => Some (invalidPolicy (unknown_type t))
  | Some d =>
      if decide (up_Ecosystem u ∈ SupportedEcosystems d) then
        let missing := filter (λ c, UpstreamSupports u c = false) (RequiredCapabilities d) in
        if decide (missing = []) then None
        else Some (sentinel_suffix ErrPolicyUpstreamIncompatible
          (": policy type " +:+ quote t +:+ " requires upstream capabilities " +:+ Join ", " missing))
      else Some (sentinel_suffix ErrPolicyUpstreamIncompatible
          (": policy type " +:+ quote t +:+ " only supports " +:+ Join ", " (SupportedEcosystems d)
           +:+ " upstreams"))
  end.

Definition SupportedPolicyTypesForUpstream (u : Upstream) : list PolicyType :=
  filter (λ t, ValidateUpstreamCompatibility t u = None) (desc_Type <$> TypeCatalog).

(** ** Lemmas *)

Lemma policy_types_NoDup : NoDup (desc_Type <$> TypeCatalog).
Proof. apply (bool_decide_unpack _). vm_compute. exact I. Qed.

Lemma policyDefinitionFor_Some t d :
  policyDefinitionFor t = Some d → d ∈ policyDefinitions ∧ desc_Type (descriptor d) = t.
Proof.
  unfold policyDefinitionFor. induction policyDefinitions as [|d' l IH]; simpl; [done|].
  case_decide; [intros [= <-]; split; [left|done]|]. intros H'. apply IH in H' as []. split; [by right|done].
Qed.

(** What [ValidatePolicy] checks, and what it returns. *)
Record valid_policy (p p' : Policy) : Prop := mk_valid_policy {
  vp_header : validate_header p = None;
  vp_result : ∃ c c' t', pol_Config p = Some c ∧
    configTypeMatchesPolicy (pol_Type p) (Some c) = true ∧ config_Validate c = Ok c' ∧
    target_Validate (pol_Target p) = Ok t' ∧ p' = set_Config_Target (Some c') t' p;
}.

Lemma ValidatePolicy_spec p p' : ValidatePolicy p = Ok p' ↔ valid_policy p p'.
Proof.
  unfold ValidatePolicy. split.
  - destruct (validate_header p) eqn:E; [done|]. destruct (pol_Config p) as [c|] eqn:Ec; [|done].
    destruct (configTypeMatchesPolicy _ _) eqn:Em; [|done].
    destruct (config_Validate c) as [c'|] eqn:Ev; [|done].
    destruct (target_Validate _) as [t'|] eqn:Et; [|done]. intros [= <-].
    split; [done|]. exists c, c', t'. done.
  - intros [H (c & c' & t' & Hc & Hm & Hv & Ht & ->)]. by rewrite H, Hc, Hm, Hv, Ht.
Qed.

Lemma config_Validate_type t c c' :
  config_Validate c = Ok c' →
  configTypeMatchesPolicy t (Some c') = configTypeMatchesPolicy t (Some c).
Proof.
  intros H. unfold configTypeMatchesPolicy. destruct (policyDefinitionFor t) as [d|] eqn:E; [|done].
  assert (Hc : match c, c' with
    | CfgCVSSThreshold _, CfgCVSSThreshold _ | CfgMinimumAge _, CfgMinimumAge _
    | CfgMaximumAge _, CfgMaximumAge _ | CfgBlockMutableTag _, CfgBlockMutableTag _
    | CfgScorecard _, CfgScorecard _ | CfgLicense _, CfgLicense _
    | CfgLicenseAllowlist _, CfgLicenseAllowlist _ | CfgLicenseAllowlistV2 _, CfgLicenseAllowlistV2 _
    | CfgNamespaceList _, CfgNamespaceList _ => True | _, _ => False end).
  { destruct c; simpl in H;
      match type of H with _ <$> ?r = _ => destruct r; [|done] end; by injection H as <-. }
  apply policyDefinitionFor_Some in E as [Hd _]. unfold policyDefinitions in Hd.
  rewrite !elem_of_cons, elem_of_nil in Hd.
  destruct Hd as [->|[->|[->|[->|[->|[->|[->|[->|[->|[->|[]]]]]]]]]]]; destruct c, c'; done.
Qed.

Lemma target_Validate_fixed t t' : target_Validate t = Ok t' → target_Validate t' = Ok t'.
Proof.
  destruct t as [t|]; [|by intros [= <-]]. intros H.
  assert (t' = Some (default_OnUnknown t)) as ->.
  { unfold target_Validate in H. repeat case_match; by simplify_eq. }
  rewrite <-H. unfold target_Validate.
  assert (default_OnUnknown (default_OnUnknown t) = default_OnUnknown t) as ->; [|done].
  unfold default_OnUnknown. destruct (decide (OnUnknown t = "")); [done|by rewrite decide_False].
Qed.

(** [ValidatePolicy] accepts its own result unchanged. *)
Lemma ValidatePolicy_fixed p p' : ValidatePolicy p = Ok p' → ValidatePolicy p' = Ok p'.
Proof.
  rewrite !ValidatePolicy_spec. intros [H (c & c' & t' & Hc & Hm & Hv & Ht & ->)].
  split; [done|]. exists c', c', t'. simpl. split; [done|]. split.
  - by rewrite (config_Validate_type _ _ _ Hv).
  - split; [by destruct (config_Validate_stable_fixed _ _ Hv)|]. split; [|done].
    by apply target_Validate_fixed in Ht.
Qed.

Lemma validate_from_spec i seen ps ps' :
  validate_from i seen ps = Ok ps' ↔
    Forall2 (λ p p', ValidatePolicy p = Ok p') ps ps' ∧ NoDup (pol_Name <$> ps) ∧
    (∀ p, p ∈ ps → seen !! pol_Name p = None).
Proof.
  revert i seen ps'. induction ps as [|p ps IH]; intros i seen ps'; csimpl.
  { split; [intros [= <-]|intros (H & _ & _); inversion H; done].
    split; [constructor|]. split; [constructor|set_solver]. }
  rewrite NoDup_cons, list_elem_of_fmap. destruct (ValidatePolicy p) as [p'|] eqn:E.
  2:{ split; [done|]. intros (H & _). inversion H; subst. congruence. }
  destruct (seen !! pol_Name p) as [j|] eqn:Es.
  { split; [done|]. intros (_ & _ & H). rewrite H in Es by left. done. }
  rewrite result_bind_ok. setoid_rewrite IH. split.
  - intros (qs & (H1 & H2 & H3) & [= <-]). split; [by constructor|].
    split; [split; [|done]|].
    + intros (q & Hq & Hin). specialize (H3 q Hin). rewrite Hq, lookup_insert_eq in H3. done.
    + intros q [->|Hin]%elem_of_cons; [done|]. specialize (H3 q Hin).
      apply lookup_insert_None in H3 as []. done.
  - intros (H1 & [H2 H3] & H4). inversion H1 as [|? q ? qs Hq Hqs]; subst.
    exists qs. split; [|congruence]. split; [done|]. split; [done|].
    intros r Hr. apply lookup_insert_None. split; [apply H4; by right|].
    intros Hn. apply H2. by exists r.
Qed.

(** *** No evaluation fails on a validated configuration *)

Definition total (v : verdict) : Prop := ∃ b r, v = Ok (b, r).

Lemma total_no_match : total no_match.
Proof. by eexists _, _. Qed.
Lemma total_Ok b r : total (Ok (b, r)).
Proof. by eexists _, _. Qed.
#[local] Hint Resolve total_no_match total_Ok : core.

Lemma total_unavailable b r : total (applyUnavailableScorecardBehavior b r).
Proof. unfold applyUnavailableScorecardBehavior. case_decide; auto. Qed.
#[local] Hint Resolve total_unavailable : core.

Lemma total_missing b r : total (Ok (applyMissingLicenseBehavior b r)).
Proof. destruct (applyMissingLicenseBehavior b r). auto. Qed.
#[local] Hint Resolve total_missing : core.

Lemma total_age now req ex days f r : total (evaluateAge now req ex days f r).
Proof. unfold evaluateAge. repeat case_match; auto. Qed.

Lemma total_checks req b ts actuals names : total (evaluate_checks req b ts actuals names).
Proof. induction names as [|n names IH]; simpl; [auto|]. repeat case_match; auto. Qed.

#[local] Arguments cvss_Validate : simpl never.
#[local] Arguments minage_Validate : simpl never.
#[local] Arguments maxage_Validate : simpl never.
#[local] Arguments tag_Validate : simpl never.
#[local] Arguments scorecard_Validate : simpl never.
#[local] Arguments license_Validate : simpl never.
#[local] Arguments la_Validate : simpl never.
#[local] Arguments la2_Validate : simpl never.
#[local] Arguments ns_Validate : simpl never.

Lemma condition_total d c now req :
  d ∈ policyDefinitions → configMatches d (Some c) = true → config_Validate c = Ok c →
  total (conditionEvaluator d now req (Some c)).
Proof.
  intros Hd Hm Hv. unfold policyDefinitions in Hd. rewrite !elem_of_cons, elem_of_nil in Hd.
  assert (Hfix : ∀ A (f : option A → PolicyConfig) (V : option A → result A) o,
    (∀ a b, f a = f b → a = b) → f ∘ Some <$> V o = Ok (f o) → ∃ s, o = Some s ∧ V (Some s) = Ok s).
  { intros A f V o Hinj H. destruct (V o) as [s|] eqn:E; [|done]. injection H as H.
    apply Hinj in H as <-. eauto. }
  destruct c as [c|c|c|c|c|c|c|c|c]; simpl in Hv; apply Hfix in Hv as (s & -> & Hs);
    try (by intros ?? [=]);
    destruct Hd as [->|[->|[->|[->|[->|[->|[->|[->|[->|[->|[]]]]]]]]]]]; try discriminate Hm; simpl.
  - unfold CVSSThreshold_Evaluate. rewrite Hs. simpl. repeat case_match; auto.
  - unfold MinimumAge_Evaluate. rewrite Hs. simpl. revert Hs. unfold minage_Validate.
    case_decide; [done|]. intros _. destruct (MinAgeDays s); [apply total_age|done].
  - unfold MaximumAge_Evaluate. rewrite Hs. simpl. revert Hs. unfold maxage_Validate.
    case_decide; [done|]. intros _. destruct (MaxAgeDays s); [apply total_age|done].
  - unfold BlockMutableTag_Evaluate. rewrite Hs. simpl. repeat case_match; auto.
  - unfold Scorecard_Evaluate. rewrite Hs. simpl. pose proof total_checks.
    repeat case_match; auto.
  - unfold License_Evaluate. rewrite Hs. simpl. repeat case_match; auto.
  - unfold LicenseAllowlist_Evaluate, licenseAllowlistSettings. rewrite Hs. simpl.
    repeat case_match; auto.
  - unfold LicenseAllowlist_Evaluate, licenseAllowlistSettings. rewrite Hs. simpl.
    repeat case_match; auto.
  - unfold Allowlist_Evaluate, with_namespaces. rewrite Hs. simpl. repeat case_match; auto.
  - unfold NamespaceAllowlist_Evaluate, with_namespaces. rewrite Hs. simpl. repeat case_match; auto.
  - unfold Blocklist_Evaluate, with_namespaces. rewrite Hs. simpl. repeat case_match; auto.
Qed.

Lemma valid_policy_definition p : validate_header p = None → ∃ d, policyDefinitionFor (pol_Type p) = Some d.
Proof. unfold validate_header. repeat case_match; naive_solver. Qed.

Lemma validated_condition p p' now req :
  ValidatePolicy p = Ok p' →
  ∃ cond b r, conditionForType (pol_Type p') = Ok cond ∧ cond now req (pol_Config p') = Ok (b, r).
Proof.
  intros H%ValidatePolicy_fixed. apply ValidatePolicy_spec in H as [H (c & c' & t' & Hc & Hm & Hv & _ & Hp)].
  destruct (valid_policy_definition _ H) as [d Hd]. unfold conditionForType. rewrite Hd.
  unfold configTypeMatchesPolicy in Hm. rewrite Hd in Hm.
  apply policyDefinitionFor_Some in Hd as [Hin _].
  assert (c' = c) as -> by (rewrite Hp in Hc; by injection Hc).
  rewrite Hc. destruct (condition_total d c now req) as (b & r & Hbr); eauto.
Qed.

(** ** Lemmas on schema versions and errors *)

Lemma policyDefinitionFor_complete d :
  d ∈ policyDefinitions → policyDefinitionFor (desc_Type (descriptor d)) = Some d.
Proof.
  intros Hd. unfold policyDefinitions in Hd. rewrite !elem_of_cons, elem_of_nil in Hd.
  by destruct Hd as [->|[->|[->|[->|[->|[->|[->|[->|[->|[->|[]]]]]]]]]]].
Qed.

Lemma invalidPolicy_is m : errors_Is (invalidPolicy m) ErrInvalidPolicy = true.
Proof. done. Qed.

Lemma validate_from_Err i seen ps e :
  validate_from i seen ps = Err e → errors_Is e ErrInvalidPolicy = true.
Proof.
  revert i seen. induction ps as [|p ps IH]; intros i seen; simpl; [done|].
  destruct (ValidatePolicy p); [|by intros [= <-]].
  destruct (seen !! _); [by intros [= <-]|].
  destruct (validate_from _ _ ps) eqn:E; simpl; [done|]. intros [= <-]. by eapply IH.
Qed.

Lemma ValidatePolicies_fixed ps ps' :
  ValidatePolicies ps = Ok ps' → ValidatePolicies ps' = Ok ps'.
Proof.
  unfold ValidatePolicies. rewrite !validate_from_spec. intros (H1 & H2 & _).
  assert (Hn : pol_Name <$> ps' = pol_Name <$> ps).
  { induction H1 as [|p p' ps ps' Hp _ IH]; csimpl in *; [done|].
    apply NoDup_cons in H2 as [_ H2]. rewrite (IH H2). f_equal.
    apply ValidatePolicy_spec in Hp as [_ (? & ? & ? & _ & _ & _ & _ & ->)]. done. }
  split; [|split; [by rewrite Hn|done]].
  clear Hn H2. induction H1 as [|p p' ps ps' Hp _ IH]; constructor; [|done].
  by eapply ValidatePolicy_fixed.
Qed.

(** ** Properties *)

(** C28: the compiled catalog is coherent.  For every entry the current schema
    version is supported, the versions with a configuration factory are exactly
    the supported ones, a factory's configuration has the type the entry
    accepts, every action is a valid one, and every required capability can be
    had by an upstream of each supported ecosystem; type names are unique. *)
Theorem policyDefinitions_coherent :
  NoDup (desc_Type <$> TypeCatalog) ∧
  ∀ d, d ∈ policyDefinitions →
    let desc := descriptor d in
    policyDefinitionFor (desc_Type desc) = Some d ∧
    currentSchemaVersionForType (desc_Type desc) = Ok (CurrentSchemaVersion desc) ∧
    CurrentSchemaVersion desc ∈ SupportedSchemaVersions desc ∧
    (∀ v, is_ok (newConfigForType (desc_Type desc) v) = true ↔
          validateSchemaVersion (desc_Type desc) v = None) ∧
    (∀ v c, newConfigForType (desc_Type desc) v = Ok c →
            configTypeMatchesPolicy (desc_Type desc) (Some c) = true) ∧
    SupportedActions desc ≠ [] ∧ SupportedActions desc ⊆ validActions ∧
    (∀ e, e ∈ SupportedEcosystems desc → RequiredCapabilities desc ⊆ AllowedUpstreamCapabilities e).
Proof.
  split; [apply policy_types_NoDup|]. intros d Hd desc.
  pose proof (policyDefinitionFor_complete d Hd) as Hfor. fold desc in Hfor.
  assert (Hs : (∀ v, v ∈ (newConfigBySchema d).*1 ↔ v ∈ SupportedSchemaVersions desc) ∧
    CurrentSchemaVersion desc ∈ SupportedSchemaVersions desc ∧
    Forall (λ vc, configMatches d (Some vc.2) = true) (newConfigBySchema d) ∧
    SupportedActions desc ≠ [] ∧ SupportedActions desc ⊆ validActions ∧
    Forall (λ e, RequiredCapabilities desc ⊆ AllowedUpstreamCapabilities e) (SupportedEcosystems desc)).
  { clear Hfor. unfold policyDefinitions in Hd. subst desc. rewrite !elem_of_cons, elem_of_nil in Hd.
    destruct Hd as [->|[->|[->|[->|[->|[->|[->|[->|[->|[->|[]]]]]]]]]]];
      (split; [done|]); repeat split; by apply (bool_decide_unpack _). }
  destruct Hs as (Hkeys & Hcur & Hmatch & Hne & Hact & Hcap).
  split; [done|]. split; [unfold currentSchemaVersionForType, typeDescriptorFor; by rewrite Hfor|].
  split; [done|].
  assert (Hassoc : ∀ v, match assoc_Z v (newConfigBySchema d) with
     | Some c => v ∈ (newConfigBySchema d).*1 ∧ configMatches d (Some c) = true
     | None => v ∉ (newConfigBySchema d).*1 end).
  { clear Hkeys. induction Hmatch as [|[k c] l Hc _ IH]; intros v; csimpl; [set_solver|].
    destruct (decide (k = v)) as [->|Hne']; [split; [by left|done]|].
    specialize (IH v). destruct (assoc_Z v l); set_solver. }
  unfold newConfigForType, validateSchemaVersion, typeDescriptorFor, configTypeMatchesPolicy.
  rewrite Hfor. simpl. fold desc. split; [|split; [|split; [done|split; [done|]]]].
  - intros v. specialize (Hassoc v). destruct (assoc_Z v _) as [c|].
    + rewrite decide_True; [done|]. by apply Hkeys, Hassoc.
    + rewrite decide_False; [done|]. by rewrite <-Hkeys.
  - intros v c. specialize (Hassoc v). destruct (assoc_Z v _) as [c'|]; [|done].
    intros [= <-]. apply Hassoc.
  - by rewrite Forall_forall in Hcap.
Qed.

(** A policy set is accepted exactly when every policy is valid on its own
    and no name is used twice; every rejection is an [ErrInvalidPolicy]; and the
    configurations as validation leaves them are accepted again, unchanged. *)
Theorem ValidatePolicies_spec ps :
  (is_ok (ValidatePolicies ps) = true ↔
     (∀ p, p ∈ ps → is_ok (ValidatePolicy p) = true) ∧ NoDup (pol_Name <$> ps)) ∧
  (∀ e, ValidatePolicies ps = Err e → errors_Is e ErrInvalidPolicy = true) ∧
  (∀ ps', ValidatePolicies ps = Ok ps' → ValidatePolicies ps' = Ok ps').
Proof.
  split; [|split].
  - rewrite is_ok_spec. unfold ValidatePolicies. setoid_rewrite validate_from_spec. split.
    + intros (ps' & H1 & H2 & _). split; [|done]. intros p Hp.
      apply list_elem_of_lookup in Hp as [i Hi]. destruct (Forall2_lookup_l _ _ _ _ _ H1 Hi) as (p' & _ & ->).
      done.
    + intros [H1 H2]. assert (∃ ps', Forall2 (λ p p', ValidatePolicy p = Ok p') ps ps') as [ps' H].
      { clear H2. induction ps as [|p ps IH]; [by exists []|].
        destruct IH as [ps' IH]; [set_solver|].
        assert (is_ok (ValidatePolicy p) = true) as [p' Hp]%is_ok_spec by (apply H1; left).
        exists (p' :: ps'). by constructor. }
      by exists ps'.
  - intros e. apply validate_from_Err.
  - apply ValidatePolicies_fixed.
Qed.

(** A policy type fits an upstream exactly when it supports the upstream's
    ecosystem and every capability it requires is effective there; both
    failures are [ErrPolicyUpstreamIncompatible]; and enabling more capabilities
    never makes a policy incompatible. *)
Theorem ValidateUpstreamCompatibility_spec t d u :
  policyDefinitionFor t = Some d →
  (ValidateUpstreamCompatibility t u = None ↔
     up_Ecosystem u ∈ SupportedEcosystems (descriptor d) ∧
     RequiredCapabilities (descriptor d) ⊆ EffectiveCapabilities u) ∧
  (∀ e, ValidateUpstreamCompatibility t u = Some e →
        errors_Is e ErrPolicyUpstreamIncompatible = true) ∧
  (∀ u', up_Ecosystem u' = up_Ecosystem u → EffectiveCapabilities u ⊆ EffectiveCapabilities u' →
     ValidateUpstreamCompatibility t u = None → ValidateUpstreamCompatibility t u' = None).
Proof.
  intros Hd.
  assert (Hspec : ∀ u, ValidateUpstreamCompatibility t u = None ↔
     up_Ecosystem u ∈ SupportedEcosystems (descriptor d) ∧
     RequiredCapabilities (descriptor d) ⊆ EffectiveCapabilities u).
  { intros v. unfold ValidateUpstreamCompatibility, typeDescriptorFor. rewrite Hd. simpl.
    case_decide as He; [|naive_solver].
    assert (Hf : filter (λ c, UpstreamSupports v c = false) (RequiredCapabilities (descriptor d)) = [] ↔
      RequiredCapabilities (descriptor d) ⊆ EffectiveCapabilities v).
    { unfold UpstreamSupports. split.
      - intros H c Hc. destruct (decide (c ∈ EffectiveCapabilities v)) as [|Hn]; [done|].
        assert (Hin : c ∈ filter (λ c, bool_decide (c ∈ EffectiveCapabilities v) = false)
                            (RequiredCapabilities (descriptor d))).
        { apply list_elem_of_filter. by rewrite bool_decide_eq_false. }
        rewrite H in Hin. by apply not_elem_of_nil in Hin.
      - intros H. apply elem_of_nil_inv. intros c [Hn Hc]%list_elem_of_filter.
        by apply bool_decide_eq_false in Hn; apply Hn, H. }
    case_decide as Hm; rewrite Hf in Hm; naive_solver. }
  split; [apply Hspec|split].
  - intros e. unfold ValidateUpstreamCompatibility, typeDescriptorFor. rewrite Hd. simpl.
    repeat case_match; naive_solver.
  - intros u' Hu Hcap. rewrite !Hspec, Hu. set_solver.
Qed.

Definition sample_upstream (caps : option (list string)) : Upstream :=
  mkUpstream "u1" "t1" "npmjs" EcosystemNPM "https://registry.npmjs.org" caps None zero_time zero_time.

Lemma ValidateUpstreamCompatibility_spec_witness :
  ValidateUpstreamCompatibility "scorecard" (sample_upstream (Some ["licenses"])) ≠ None ∧
  ValidateUpstreamCompatibility "scorecard" (sample_upstream None) = None.
Proof.
  pose proof (ValidateUpstreamCompatibility_spec "scorecard" scorecardPolicyDefinition
    (sample_upstream None) eq_refl) as [H _].
  split; [done|]. apply H. split; [by left|]. by apply (bool_decide_unpack _).
Defined.
