(* ===== verification/Evaluator.v ===== *)
(** * The policy evaluator

    [internal/core/policy/evaluator.go]: the loop over the enabled policies and
    the decision it builds.  One [now] stands for the clock readings of one
    evaluation.  The second half gives each policy an effect on the request,
    independent of the other policies, and proves the loop equal to a decision
    read off those effects. *)

From S2P Require Import Prelude GoStrings Floats Artifact Dependency Upstream PolicyConfig.
From S2P Require Import Policy Conditions Catalog.
#[local] Open Scope list_scope.

(** ** Definitions *)

Inductive targetMode : Set := targetApply | targetWarn | targetSkip.

#[export] Instance targetMode_eq_dec : EqDecision targetMode.
Proof. solve_decision. Defined.

Fixpoint scopeMatches (allowed : list DependencyScope) (actual : DependencyScope) : bool :=
  match allowed with
  | [] => false
  | value :: allowed => if decide (value = actual) then true else scopeMatches allowed actual
  end.

Definition dependencyTypesMatch (allowed actual : list DependencyType) : bool :=
  existsb (λ allowedType, existsb (λ actualType, bool_decide (allowedType = actualType)) actual) allowed.

Definition evaluation_context (req : AccessRequest) : DependencyContext :=
  match req_DependencyContext req with
  | Some ctx => context_Normalize ctx
  | None => NewUnknownDependencyContext
  end.

Definition targetEvaluationMode (req : AccessRequest) (target : option PolicyTarget) : targetMode :=
  match target with
  | None => targetApply
  | Some target =>
      let ctx := evaluation_context req in
      if decide (Scope ctx = DependencyScopeUnknown) then
        if decide (OnUnknown target = DependencyUnknownDeny) then targetApply
        else if decide (OnUnknown target = DependencyUnknownSkip) then targetSkip
        else targetWarn
      else if decide (DependencyScopes target ≠ [] ∧
                      scopeMatches (DependencyScopes target) (Scope ctx) = false) then targetSkip
      else if decide (DependencyTypes target ≠ [] ∧
                      dependencyTypesMatch (DependencyTypes target) (ctx_DependencyTypes ctx) = false)
      then targetSkip
      else targetApply
  end.

Definition isWarnMode (config : option PolicyConfig) : bool :=
  match config with None => false | Some c => config_DryRunEnabled c end.

Definition filterEnabled (policies : list Policy) : list Policy :=
  filter (λ p, pol_Enabled p = true) policies.

(** The [less] function of the evaluator's [sort.SliceStable]. *)
Definition policy_less : Policy → Policy → bool :=
  lex_less pol_Priority Z.ltb (λ a b, str_ltb (pol_Name a) (pol_Name b)).

Record evaluationState : Type := mkState {
  reasons : list EvaluationReason;
  warnings : list string;
  firstDenyReason : string;
  hasDeny : bool;
}.

Definition init_state : evaluationState := mkState [] [] "" false.

Definition addDeny (reason : EvaluationReason) (s : evaluationState) : evaluationState :=
  let rs := reasons s ++ [reason] in
  if hasDeny s then mkState rs (warnings s) (firstDenyReason s) true
  else mkState rs (warnings s) (rsn_Message reason) true.

Definition policy_reason (p : Policy) (category : ReasonCategory) (action : PolicyAction)
    (message : string) : EvaluationReason :=
  mkReason (pol_ID p) (pol_Name p) category action message.

Definition evaluatePolicy (now : time) (req : AccessRequest) (s : evaluationState) (p : Policy)
    : evaluationState :=
  let mode := targetEvaluationMode req (pol_Target p) in
  if decide (mode = targetSkip) then s
  else match conditionForType (pol_Type p) with
  | Err e =>
      addDeny (policy_reason p ReasonCategoryEvaluationError PolicyActionDeny
        ("unknown policy type " +:+ quote (pol_Type p) +:+ ": " +:+ error_msg e)) s
  | Ok cond =>
      match cond now req (pol_Config p) with
      | Err e =>
          addDeny (policy_reason p ReasonCategoryEvaluationError PolicyActionDeny
            ("condition evaluation error for policy " +:+ quote (pol_Name p) +:+ ": " +:+ error_msg e)) s
      | Ok (false, _) => s
      | Ok (true, reason) =>
          if isWarnMode (pol_Config p) || bool_decide (mode = targetWarn) then
            mkState (reasons s ++ [policy_reason p ReasonPolicyWarning (pol_Action p) reason])
              (warnings s ++ ["[" +:+ pol_Name p +:+ "] " +:+ reason])
              (firstDenyReason s) (hasDeny s)
          else
            let rs := reasons s ++ [policy_reason p ReasonPolicyMatch (pol_Action p) reason] in
            if decide (pol_Action p = PolicyActionDeny ∧ hasDeny s = false)
            then mkState rs (warnings s) reason true
            else mkState rs (warnings s) (firstDenyReason s) (hasDeny s)
      end
  end.

Fixpoint firstDenyPolicyID (l : list EvaluationReason) : string :=
  match l with
  | [] => ""
  | r :: l => if decide (rsn_Action r = PolicyActionDeny) then rsn_PolicyID r else firstDenyPolicyID l
  end.

Definition no_matching_reason : EvaluationReason :=
  mkReason "" "" ReasonNoMatchingPolicy "" "no matching policy".

Definition decision (now : time) (req : AccessRequest) (s : evaluationState) : Decision :=
  let '(outcome, userReason, policyID) :=
    if hasDeny s then (DecisionDeny, firstDenyReason s, firstDenyPolicyID (reasons s))
    else match reasons s with
         | r :: _ => (DecisionAllow, rsn_Message r, rsn_PolicyID r)
         | [] => (DecisionAllow, "no matching policy", "")
         end in
  let rs := match reasons s with [] => [no_matching_reason] | rs => rs end in
  mkDecision "" (req_TenantID req) (req_Artifact req) outcome policyID "" None userReason rs
    (warnings s) None now.

Definition Evaluate (now : time) (req : AccessRequest) (policies : list Policy) : Decision :=
  let enabled := sort_by policy_less (filterEnabled policies) in
  decision now req (foldl (evaluatePolicy now req) init_state enabled).

(** ** The specification: the effect of one policy *)

Inductive effect : Type :=
| Silent
| Warns (message : string)
| Matches (message : string)
| Fails (message : string).

Definition policy_effect (now : time) (req : AccessRequest) (p : Policy) : effect :=
  match targetEvaluationMode req (pol_Target p) with
  | targetSkip => Silent
  | mode =>
      match conditionForType (pol_Type p) with
      | Err e => Fails ("unknown policy type " +:+ quote (pol_Type p) +:+ ": " +:+ error_msg e)
      | Ok cond =>
          match cond now req (pol_Config p) with
          | Err e => Fails ("condition evaluation error for policy " +:+ quote (pol_Name p)
                            +:+ ": " +:+ error_msg e)
          | Ok (false, _) => Silent
          | Ok (true, m) =>
              if isWarnMode (pol_Config p) || bool_decide (mode = targetWarn) then Warns m else Matches m
          end
      end
  end.

(** The reason a policy contributes. *)
Definition effect_reason (p : Policy) (e : effect) : option EvaluationReason :=
  match e with
  | Silent => None
  | Warns m => Some (policy_reason p ReasonPolicyWarning (pol_Action p) m)
  | Matches m => Some (policy_reason p ReasonPolicyMatch (pol_Action p) m)
  | Fails m => Some (policy_reason p ReasonCategoryEvaluationError PolicyActionDeny m)
  end.

Definition effect_warning (p : Policy) (e : effect) : option string :=
  match e with Warns m => Some ("[" +:+ pol_Name p +:+ "] " +:+ m) | _ => None end.

(** The message of a policy that blocks the request by itself. *)
Definition effect_block (p : Policy) (e : effect) : option string :=
  match e with
  | Fails m => Some m
  | Matches m => if decide (pol_Action p = PolicyActionDeny) then Some m else None
  | _ => None
  end.

Section spec.
Context (now : time) (req : AccessRequest).

Definition reason_of (p : Policy) : option EvaluationReason := effect_reason p (policy_effect now req p).
Definition warning_of (p : Policy) : option string := effect_warning p (policy_effect now req p).
Definition block_of (p : Policy) : option string := effect_block p (policy_effect now req p).

(** [p] is enabled and denies the request. *)
Definition blocks (p : Policy) (m : string) : Prop := pol_Enabled p = true ∧ block_of p = Some m.

Definition spec_state (l : list Policy) : evaluationState :=
  mkState (omap reason_of l) (omap warning_of l) (default "" (head (omap block_of l)))
    (bool_decide (omap block_of l ≠ [])).
End spec.

(** ** Lemmas *)

Section lemmas.
Context (now : time) (req : AccessRequest).
Notation reason_of := (reason_of now req).
Notation warning_of := (warning_of now req).
Notation block_of := (block_of now req).

Lemma evaluatePolicy_effect s p :
  evaluatePolicy now req s p =
    mkState (reasons s ++ option_list (reason_of p)) (warnings s ++ option_list (warning_of p))
      (if hasDeny s then firstDenyReason s else default (firstDenyReason s) (block_of p))
      (hasDeny s || bool_decide (is_Some (block_of p))).
Proof.
  assert (Hnone : mkState (reasons s ++ []) (warnings s ++ [])
     (if hasDeny s then firstDenyReason s else firstDenyReason s) (hasDeny s || false) = s).
  { rewrite !app_nil_r, orb_false_r. by destruct s as [? ? ? []]. }
  unfold Evaluator.reason_of, Evaluator.warning_of, Evaluator.block_of, evaluatePolicy, policy_effect.
  set (mode := targetEvaluationMode req (pol_Target p)).
  destruct (decide (mode = targetSkip)) as [->|Hm]; [exact (eq_sym Hnone)|].
  destruct (conditionForType (pol_Type p)) as [cond|e].
  2:{ destruct mode; [| |done]; simpl; unfold addDeny; rewrite app_nil_r; by destruct (hasDeny s). }
  destruct (cond now req (pol_Config p)) as [[[] m]|e].
  - destruct mode; [| |done]; simpl; destruct (isWarnMode (pol_Config p)); simpl;
      rewrite ?app_nil_r, ?orb_false_r; try by destruct (hasDeny s).
    destruct (decide (pol_Action p = PolicyActionDeny)) as [->|Hne]; simpl.
    + by destruct s as [? ? ? []].
    + rewrite decide_False by tauto. rewrite orb_false_r. by destruct (hasDeny s).
  - destruct mode; [exact (eq_sym Hnone)|exact (eq_sym Hnone)|done].
  - destruct mode; [| |done]; simpl; unfold addDeny; rewrite app_nil_r; by destruct (hasDeny s).
Qed.

Lemma evaluate_fold s l :
  foldl (evaluatePolicy now req) s l =
    mkState (reasons s ++ omap reason_of l) (warnings s ++ omap warning_of l)
      (if hasDeny s then firstDenyReason s else default (firstDenyReason s) (head (omap block_of l)))
      (hasDeny s || bool_decide (omap block_of l ≠ [])).
Proof.
  revert s. induction l as [|p l IH]; intros s; csimpl.
  { rewrite !app_nil_r, orb_false_r. by destruct s as [? ? ? []]. }
  rewrite IH, evaluatePolicy_effect. cbn [reasons warnings firstDenyReason hasDeny].
  rewrite <-!app_assoc. f_equal.
  - by destruct (reason_of p).
  - by destruct (warning_of p).
  - destruct (hasDeny s); simpl; [done|]. by destruct (block_of p).
  - destruct (hasDeny s); simpl; [done|]. by destruct (block_of p).
Qed.

Lemma evaluate_spec l : foldl (evaluatePolicy now req) init_state l = spec_state now req l.
Proof. rewrite evaluate_fold. done. Qed.

Lemma Evaluate_spec_state ps :
  Evaluate now req ps = decision now req (spec_state now req (sort_by policy_less (filterEnabled ps))).
Proof. unfold Evaluate. by rewrite evaluate_spec. Qed.

Lemma outcome_spec s :
  dec_Outcome (decision now req s) = if hasDeny s then DecisionDeny else DecisionAllow.
Proof. unfold decision. destruct (hasDeny s), (reasons s); done. Qed.

Lemma elem_sorted_enabled ps p :
  p ∈ sort_by policy_less (filterEnabled ps) ↔ p ∈ ps ∧ pol_Enabled p = true.
Proof. rewrite sort_by_elem. unfold filterEnabled. rewrite list_elem_of_filter. tauto. Qed.

Lemma omap_nonnil {A B} (f : A → option B) l : omap f l ≠ [] ↔ ∃ x y, x ∈ l ∧ f x = Some y.
Proof.
  split.
  - destruct (omap f l) as [|y l'] eqn:E; [done|]. intros _.
    assert (y ∈ omap f l) as (x & Hx & Hy)%list_elem_of_omap by (rewrite E; left). eauto.
  - intros (x & y & Hx & Hy) E. assert (y ∈ omap f l) as H by (apply list_elem_of_omap; eauto).
    rewrite E in H. by apply not_elem_of_nil in H.
Qed.

Lemma Evaluate_deny_iff ps :
  dec_Outcome (Evaluate now req ps) = DecisionDeny ↔ ∃ p m, p ∈ ps ∧ blocks now req p m.
Proof.
  rewrite Evaluate_spec_state, outcome_spec. unfold spec_state. cbn [hasDeny].
  transitivity (omap block_of (sort_by policy_less (filterEnabled ps)) ≠ []).
  - case_bool_decide; naive_solver.
  - rewrite omap_nonnil. unfold blocks. setoid_rewrite elem_sorted_enabled. naive_solver.
Qed.

Lemma Evaluate_outcome ps :
  dec_Outcome (Evaluate now req ps) = DecisionDeny ∨ dec_Outcome (Evaluate now req ps) = DecisionAllow.
Proof. rewrite Evaluate_spec_state, outcome_spec. destruct (hasDeny _); auto. Qed.

Lemma head_omap {A B} (f : A → option B) l y :
  head (omap f l) = Some y →
  ∃ l1 x l2, l = l1 ++ x :: l2 ∧ f x = Some y ∧ Forall (λ z, f z = None) l1.
Proof.
  induction l as [|x l IH]; csimpl; [done|]. destruct (f x) as [z|] eqn:E.
  - intros [= ->]. by exists [], x, l.
  - intros (l1 & x' & l2 & -> & Hx & Hl)%IH. exists (x :: l1), x', l2. auto.
Qed.

Lemma policy_less_weak : StrictWeak policy_less.
Proof.
  apply lex_less_weak; [apply _|].
  split; intros *; [apply sw_irrefl|apply sw_trans|apply sw_negtrans].
Qed.

Lemma policy_less_tie p q :
  policy_less p q = false → policy_less q p = false → pol_Name p = pol_Name q.
Proof.
  unfold policy_less, lex_less. destruct (decide (pol_Priority p = pol_Priority q)) as [E|E].
  - rewrite decide_True by done. apply st_total.
  - rewrite decide_False by done. intros H1 H2. destruct E. by apply (st_total (less:=Z.ltb)).
Qed.
End lemmas.
#[export] Existing Instance policy_less_weak.

(** Among policies with distinct names the sort has no ties. *)
Lemma sorted_enabled_perm ps qs :
  NoDup (pol_Name <$> filterEnabled ps) → ps ≡ₚ qs →
  sort_by policy_less (filterEnabled ps) = sort_by policy_less (filterEnabled qs).
Proof.
  intros Hnd Hp. apply sort_by_perm_inv; [apply _| |by unfold filterEnabled; rewrite Hp].
  intros p q Hin1 Hin2 H1 H2. pose proof (policy_less_tie _ _ H1 H2) as Hn.
  apply list_elem_of_lookup in Hin1 as [i Hi], Hin2 as [j Hj].
  assert (i = j) as <-; [|congruence].
  apply (NoDup_lookup _ i j (pol_Name p) Hnd); rewrite list_lookup_fmap; rewrite ?Hi, ?Hj; csimpl; congruence.
Qed.

Section more_lemmas.
Context (now : time) (req : AccessRequest).

Lemma Evaluate_reason ps :
  dec_Outcome (Evaluate now req ps) = DecisionDeny →
  head (omap (block_of now req) (sort_by policy_less (filterEnabled ps)))
    = Some (dec_Reason (Evaluate now req ps)).
Proof.
  rewrite Evaluate_spec_state, outcome_spec. unfold spec_state, decision. cbn [hasDeny reasons].
  by destruct (omap (block_of now req) _).
Qed.

Lemma validated_effect p p' : ValidatePolicy p = Ok p' → ∀ m, policy_effect now req p' ≠ Fails m.
Proof.
  intros Hv m. destruct (validated_condition p p' now req Hv) as (cond & b & r & Hc & Hr).
  unfold policy_effect. destruct (targetEvaluationMode _ _); [| |done];
    rewrite Hc, Hr; destruct b; try done; by destruct (_ || _).
Qed.

Lemma dry_run_never_blocks p p' :
  ValidatePolicy p = Ok p' → isWarnMode (pol_Config p') = true → block_of now req p' = None.
Proof.
  intros Hv Hw. pose proof (validated_effect p p' Hv) as Hf. unfold block_of, effect_block.
  destruct (policy_effect now req p') as [|m|m|m] eqn:E; try done; [|by destruct (Hf m)].
  revert E. unfold policy_effect. destruct (targetEvaluationMode _ _); [| |done];
    rewrite Hw; repeat case_match; done.
Qed.

Lemma insert_silent_block p l :
  block_of now req p = None →
  omap (block_of now req) (insert_by policy_less p l) = omap (block_of now req) l.
Proof.
  intros Hb. induction l as [|q l IH]; csimpl; [by rewrite Hb|].
  destruct (policy_less q p); csimpl; [by rewrite IH|by rewrite Hb].
Qed.

Lemma reason_category p r :
  reason_of now req p = Some r →
  rsn_Category r ∈ [ReasonPolicyWarning; ReasonPolicyMatch; ReasonCategoryEvaluationError] ∧
  rsn_PolicyID r = pol_ID p ∧
  (rsn_Category r = ReasonCategoryEvaluationError → ∃ m, policy_effect now req p = Fails m).
Proof.
  unfold reason_of, effect_reason. destruct (policy_effect now req p); intros [= <-];
    (split; [simpl; set_solver|]); split; try done; eauto.
Qed.

Lemma Evaluate_reasons ps :
  let l := omap (reason_of now req) (sort_by policy_less (filterEnabled ps)) in
  dec_Reasons (Evaluate now req ps) = (if decide (l = []) then [no_matching_reason] else l) ∧
  dec_Warnings (Evaluate now req ps)
    = omap (warning_of now req) (sort_by policy_less (filterEnabled ps)).
Proof.
  intros l. rewrite Evaluate_spec_state. fold l. unfold spec_state, decision. cbn [hasDeny reasons].
  fold l. destruct (bool_decide _), l; done.
Qed.
End more_lemmas.

(** ** Properties *)

(** C24: deny overrides allow.  A request is denied exactly when some enabled
    policy blocks it by itself (its condition matches, it is enforced, its
    target applies and its action is deny; or its evaluation failed), whatever
    the other policies say; and the outcome is always allow or deny. *)
Theorem Evaluate_deny_wins now req ps :
  (dec_Outcome (Evaluate now req ps) = DecisionDeny ↔ ∃ p m, p ∈ ps ∧ blocks now req p m) ∧
  (dec_Outcome (Evaluate now req ps) = DecisionAllow ↔ ∀ p m, p ∈ ps → ¬ blocks now req p m).
Proof.
  pose proof (Evaluate_deny_iff now req ps) as H. split; [done|].
  destruct (Evaluate_outcome now req ps) as [E|E]; rewrite E in *.
  - split; [done|]. intros Hn. destruct (proj1 H eq_refl) as (p & m & Hp & Hb). by destruct (Hn p m).
  - split; [|done]. intros _ p m Hp Hb. assert (DecisionAllow = DecisionDeny) by (apply H; eauto). done.
Qed.

(** The reason given to the user is the message of a blocking policy that
    no other blocking policy precedes in (priority, name) order. *)
Theorem Evaluate_first_deny_reason now req ps :
  dec_Outcome (Evaluate now req ps) = DecisionDeny →
  ∃ p, p ∈ ps ∧ blocks now req p (dec_Reason (Evaluate now req ps)) ∧
    ∀ q m, q ∈ ps → blocks now req q m → policy_less q p = false.
Proof.
  intros Hd. apply Evaluate_reason in Hd. set (r := dec_Reason _) in *. clearbody r.
  apply head_omap in Hd as (l1 & p & l2 & Hl & Hp & Hl1).
  assert (Hmem : ∀ q, q ∈ ps ∧ pol_Enabled q = true ↔ q ∈ l1 ++ p :: l2).
  { intros q. rewrite <-Hl. by rewrite elem_sorted_enabled. }
  exists p. destruct (proj2 (Hmem p)) as [Hin Hen]; [apply elem_of_app; right; left|].
  split; [done|]. split; [done|]. intros q m Hq [Hqe Hqb].
  assert (q ∈ l1 ++ p :: l2) as [H1|H2]%elem_of_app by (apply Hmem; done).
  - rewrite Forall_forall in Hl1. specialize (Hl1 q H1). congruence.
  - apply elem_of_cons in H2 as [->|H2]; [apply sw_irrefl|].
    pose proof (sort_by_sorted policy_less (filterEnabled ps)) as Hs. rewrite Hl in Hs.
    unfold sorted in Hs. apply StronglySorted_app in Hs as (_ & _ & Hs).
    apply StronglySorted_inv in Hs as [_ Hs]. rewrite Forall_forall in Hs. by apply Hs.
Qed.

(** C25: the audit trail of a decision is exact: the reasons are those of the
    enabled policies that matched, warned or failed, in (priority, name) order
    (or the single "no matching policy" entry), and one warning per dry-run or
    unknown-context match. *)
Theorem Evaluate_reasons_exact now req ps :
  let order := sort_by policy_less (filterEnabled ps) in
  sorted policy_less order ∧ order ≡ₚ filterEnabled ps ∧
  (dec_Reasons (Evaluate now req ps) = omap (reason_of now req) order ∨
   (∀ p, p ∈ order → reason_of now req p = None) ∧
   dec_Reasons (Evaluate now req ps) = [no_matching_reason] ∧
   dec_Outcome (Evaluate now req ps) = DecisionAllow) ∧
  dec_Warnings (Evaluate now req ps) = omap (warning_of now req) order.
Proof.
  intros order. destruct (Evaluate_reasons now req ps) as [Hr Hw]. fold order in Hr, Hw.
  split; [exact (sort_by_sorted policy_less _)|]. split; [exact (sort_by_perm policy_less _)|]. split; [|done].
  case_decide as Hn; [right|by left].
  assert (Hnone : ∀ p, p ∈ order → reason_of now req p = None).
  { intros p Hp. destruct (reason_of now req p) as [r|] eqn:E; [|done].
    exfalso. by apply (proj2 (omap_nonnil (reason_of now req) order)); [exists p, r|]. }
  split; [done|]. split; [done|].
  destruct (Evaluate_outcome now req ps) as [E|E]; [|done].
  apply Evaluate_deny_iff in E as (p & m & Hp & He & Hb).
  specialize (Hnone p (proj2 (elem_sorted_enabled ps p) (conj Hp He))).
  unfold reason_of, block_of in *. by destruct (policy_effect now req p).
Qed.

(** A decision does not depend on the order in which the policies are
    stored, as long as the enabled ones have distinct names. *)
Theorem Evaluate_order_independent now req ps qs :
  NoDup (pol_Name <$> filterEnabled ps) → ps ≡ₚ qs → Evaluate now req ps = Evaluate now req qs.
Proof. intros Hn Hp. unfold Evaluate. by rewrite (sorted_enabled_perm ps qs). Qed.

(** Policies only restrict: adding policies to a set that denies a request
    never lets the request through, and disabled policies have no effect. *)
Theorem Evaluate_monotone now req ps qs :
  ps ⊆ qs →
  (dec_Outcome (Evaluate now req ps) = DecisionDeny →
     dec_Outcome (Evaluate now req qs) = DecisionDeny) ∧
  Evaluate now req (filterEnabled ps) = Evaluate now req ps.
Proof.
  intros Hs. split.
  - rewrite !Evaluate_deny_iff. set_solver.
  - unfold Evaluate. do 3 f_equal. unfold filterEnabled at 1. apply filter_Forall_id.
    apply Forall_forall. intros p. unfold filterEnabled. rewrite list_elem_of_filter. tauto.
Qed.

(** C26: evaluation never fails on an accepted policy set: no reason of a
    decision on validated policies is an [evaluation_error]. *)
Theorem Evaluate_validated_no_error now req ps ps' :
  ValidatePolicies ps = Ok ps' →
  ∀ r, r ∈ dec_Reasons (Evaluate now req ps') → rsn_Category r ≠ ReasonCategoryEvaluationError.
Proof.
  intros Hv r Hr Hcat. unfold ValidatePolicies in Hv. apply validate_from_spec in Hv as [Hv _].
  destruct (Evaluate_reasons now req ps') as [Hrs _]. rewrite Hrs in Hr.
  revert Hr. case_decide; [by intros ->%list_elem_of_singleton|]. intros Hr.
  apply list_elem_of_omap in Hr as (p' & Hp & Hreason). apply elem_sorted_enabled in Hp as [Hp _].
  apply list_elem_of_lookup in Hp as [i Hi]. destruct (Forall2_lookup_r _ _ _ _ _ Hv Hi) as (p & _ & Hvp).
  destruct (reason_category _ _ _ _ Hreason) as (_ & _ & Hf). destruct (Hf Hcat) as [m Hm].
  by apply (validated_effect now req p p' Hvp) in Hm.
Qed.

(** Dry-run policies are inert: adding an accepted policy in dry-run mode
    changes neither the outcome of a request nor the reason of a denial. *)
Theorem Evaluate_dry_run_inert now req ps p p' :
  ValidatePolicy p = Ok p' → isWarnMode (pol_Config p') = true →
  dec_Outcome (Evaluate now req (p' :: ps)) = dec_Outcome (Evaluate now req ps) ∧
  (dec_Outcome (Evaluate now req ps) = DecisionDeny →
     dec_Reason (Evaluate now req (p' :: ps)) = dec_Reason (Evaluate now req ps)).
Proof.
  intros Hv Hw. pose proof (dry_run_never_blocks now req p p' Hv Hw) as Hb.
  assert (Hblock : omap (block_of now req) (sort_by policy_less (filterEnabled (p' :: ps)))
    = omap (block_of now req) (sort_by policy_less (filterEnabled ps))).
  { unfold filterEnabled. rewrite filter_cons. case_decide; [|done].
    simpl. by apply insert_silent_block. }
  assert (Hout : dec_Outcome (Evaluate now req (p' :: ps)) = dec_Outcome (Evaluate now req ps)).
  { rewrite !Evaluate_spec_state, !outcome_spec. unfold spec_state. cbn [hasDeny]. by rewrite Hblock. }
  split; [done|]. intros Hd. pose proof (Evaluate_reason now req ps Hd) as H1.
  rewrite <-Hout in Hd. apply Evaluate_reason in Hd. rewrite Hblock, H1 in Hd. by injection Hd.
Qed.

(** *** Targets *)

Lemma scopeMatches_spec allowed s : scopeMatches allowed s = true ↔ s ∈ allowed.
Proof.
  induction allowed as [|x l IH]; simpl; [by rewrite elem_of_nil|].
  rewrite elem_of_cons. case_decide; naive_solver.
Qed.

Lemma dependencyTypesMatch_spec allowed actual :
  dependencyTypesMatch allowed actual = true ↔ ∃ t, t ∈ allowed ∧ t ∈ actual.
Proof.
  unfold dependencyTypesMatch. rewrite existsb_exists. setoid_rewrite existsb_exists.
  setoid_rewrite bool_decide_eq_true. setoid_rewrite <-list_elem_of_In. naive_solver.
Qed.

(** When a policy target applies.  With known evidence it applies exactly
    when the scope and one of the dependency types are among the selected ones
    (an empty selector selects everything) and is skipped otherwise, never
    turned into a warning; without evidence [on_unknown] alone decides. *)
Theorem targetEvaluationMode_spec req t :
  let ctx := evaluation_context req in
  (Scope ctx ≠ DependencyScopeUnknown →
     targetEvaluationMode req (Some t) ≠ targetWarn ∧
     (targetEvaluationMode req (Some t) = targetApply ↔
       (DependencyScopes t = [] ∨ Scope ctx ∈ DependencyScopes t) ∧
       (DependencyTypes t = [] ∨
          ∃ d, d ∈ DependencyTypes t ∧ d ∈ ctx_DependencyTypes ctx))) ∧
  (Scope ctx = DependencyScopeUnknown →
     targetEvaluationMode req (Some t) =
       if decide (OnUnknown t = DependencyUnknownDeny) then targetApply
       else if decide (OnUnknown t = DependencyUnknownSkip) then targetSkip else targetWarn) ∧
  (req_DependencyContext req = None → Scope ctx = DependencyScopeUnknown).
Proof.
  intros ctx. unfold targetEvaluationMode. fold ctx. split; [|split].
  - intros Hs. rewrite decide_False by done.
    case_decide as H1; [|case_decide as H2]; (split; [done|]); (split; try done).
    + rewrite <-scopeMatches_spec, <-dependencyTypesMatch_spec. naive_solver congruence.
    + rewrite <-scopeMatches_spec, <-dependencyTypesMatch_spec. naive_solver congruence.
    + intros _. rewrite <-scopeMatches_spec, <-dependencyTypesMatch_spec.
      destruct (scopeMatches _ _), (dependencyTypesMatch _ _), (DependencyScopes t),
        (DependencyTypes t); naive_solver.
  - intros Hs. by rewrite decide_True.
  - intros Hn. subst ctx. unfold evaluation_context. by rewrite Hn.
Qed.

Definition direct_request : AccessRequest :=
  set_req_DependencyContext (Some (mkDependencyContext DependencyScopeDirect [DependencyTypeDev] [] ""))
    (sample_request None).

Lemma targetEvaluationMode_spec_witness :
  targetEvaluationMode direct_request (Some (mkPolicyTarget [] [DependencyTypeProd] "warn")) ≠ targetWarn ∧
  targetEvaluationMode (sample_request None) (Some (mkPolicyTarget [] [DependencyTypeProd] "skip"))
    = targetSkip.
Proof.
  split.
  - by apply (targetEvaluationMode_spec direct_request (mkPolicyTarget [] [DependencyTypeProd] "warn")).
  - by apply (targetEvaluationMode_spec (sample_request None)
      (mkPolicyTarget [] [DependencyTypeProd] "skip")).
Defined.

(** *** Witnesses *)

Definition sample_policy (name : string) (t : PolicyType) (a : PolicyAction) (priority : Z)
    (c : PolicyConfig) : Policy :=
  mkPolicy ("id-" +:+ name) "t1" "" name t a 1 (Some c) None priority true 1 zero_time zero_time.

(** A dry-run approved-namespace policy, an enforced block list, an allow list. *)
Definition trial_policy : Policy :=
  sample_policy "trial" "namespace_allowlist" "deny" 1 (CfgNamespaceList (Some (mkNamespaceList ["@corp"] true))).
Definition block_policy : Policy :=
  sample_policy "block" "blocklist" "deny" 2 (CfgNamespaceList (Some (mkNamespaceList ["@scope"] false))).
Definition allow_policy : Policy :=
  sample_policy "allow" "allowlist" "allow" 0 (CfgNamespaceList (Some (mkNamespaceList ["@scope"] false))).
Definition sample_policies : list Policy := [trial_policy; block_policy; allow_policy].

Lemma Evaluate_first_deny_reason_witness :
  ∃ p, p ∈ sample_policies ∧
    blocks 0 (sample_request None) p (dec_Reason (Evaluate 0 (sample_request None) sample_policies)) ∧
    ∀ q m, q ∈ sample_policies → blocks 0 (sample_request None) q m → policy_less q p = false.
Proof. apply (Evaluate_first_deny_reason 0 (sample_request None) sample_policies). vm_compute. reflexivity. Defined.

Lemma Evaluate_order_independent_witness :
  Evaluate 0 (sample_request None) sample_policies = Evaluate 0 (sample_request None) (rev sample_policies).
Proof.
  apply (Evaluate_order_independent 0 (sample_request None) sample_policies (rev sample_policies)).
  - apply (bool_decide_unpack _). vm_compute. exact I.
  - apply Permutation_rev.
Defined.

Lemma Evaluate_monotone_witness :
  dec_Outcome (Evaluate 0 (sample_request None) (allow_policy :: [block_policy])) = DecisionDeny.
Proof.
  apply (Evaluate_monotone 0 (sample_request None) [block_policy] [allow_policy; block_policy]).
  - intros p ->%list_elem_of_singleton. right. left.
  - vm_compute. reflexivity.
Defined.

Lemma Evaluate_validated_no_error_witness :
  Forall (λ r, rsn_Category r ≠ ReasonCategoryEvaluationError)
    (dec_Reasons (Evaluate 0 (sample_request None) sample_policies)).
Proof.
  apply Forall_forall.
  apply (Evaluate_validated_no_error 0 (sample_request None) sample_policies sample_policies).
  vm_compute. reflexivity.
Defined.

Lemma Evaluate_dry_run_inert_witness :
  dec_Reason (Evaluate 0 (sample_request None) (trial_policy :: [block_policy]))
    = dec_Reason (Evaluate 0 (sample_request None) [block_policy]).
Proof.
  apply (Evaluate_dry_run_inert 0 (sample_request None) [block_policy] trial_policy trial_policy);
    vm_compute; reflexivity.
Defined.

(** [PolicyID] and [Reason] of a denial can come from different policies:
    [firstDenyPolicyID] takes the first reason whose action is deny, and the
    match of a dry-run policy is recorded with its configured action.  An
    accepted policy set with two enabled policies makes a denial whose
    [PolicyID] is that of the dry-run policy, which blocks nothing. *)
Theorem denial_may_name_dry_run_policy :
  ValidatePolicies [trial_policy; block_policy] = Ok [trial_policy; block_policy] ∧
  ∃ now req, let d := Evaluate now req [trial_policy; block_policy] in
    dec_Outcome d = DecisionDeny ∧ dec_PolicyID d = pol_ID trial_policy ∧
    isWarnMode (pol_Config trial_policy) = true ∧ block_of now req trial_policy = None ∧
    block_of now req block_policy = Some (dec_Reason d) ∧ pol_ID trial_policy ≠ pol_ID block_policy.
Proof.
  split; [vm_compute; reflexivity|]. exists 0, (sample_request None).
  repeat split; vm_compute; first [reflexivity | discriminate].
Qed.
