(* ===== verification/PolicyHash.v ===== *)
(** * The policy-set hash

    [internal/core/policy/hash.go]: the canonical SHA-256 of an effective policy
    set, over the JSON the struct tags of [policy_config*.go] and
    [policy_target.go] determine. *)

From S2P Require Import Prelude GoStrings Floats Sha256 Json Artifact Dependency Upstream.
From S2P Require Import PolicyConfig Policy Conditions Catalog Evaluator.
#[local] Open Scope list_scope.

(** ** Definitions *)

Record hashablePolicy : Type := mkHashable {
  hp_UpstreamID : string;
  hp_Name : string;
  hp_Type : PolicyType;
  hp_Action : PolicyAction;
  hp_SchemaVersion : Z;
  hp_Priority : Z;
  hp_Enabled : bool;
  hp_Config : option PolicyConfig;
  hp_Target : option PolicyTarget;
}.

Definition to_hashable (p : Policy) : hashablePolicy :=
  mkHashable (pol_UpstreamID p) (pol_Name p) (pol_Type p) (pol_Action p)
    (mustNormalizePolicySchemaVersion (pol_Type p) (pol_SchemaVersion p))
    (pol_Priority p) (pol_Enabled p) (pol_Config p) (pol_Target p).

(** The [less] function of the [sort.Slice] call. *)
Definition hashable_less : hashablePolicy → hashablePolicy → bool :=
  lex_less hp_Priority Z.ltb (lex_less hp_Name str_ltb (lex_less hp_UpstreamID str_ltb
    (lex_less hp_Type str_ltb (λ a b, str_ltb (hp_Action a) (hp_Action b))))).

(** The JSON of a configuration; a nil pointer is [null]. *)
Definition pointer_json {A} (f : A → list (string * json)) (o : option A) : json :=
  match o with None => JNull | Some a => JObject (f a) end.

Definition config_json (c : PolicyConfig) : json :=
  match c with
  | CfgCVSSThreshold c => pointer_json (λ c,
      omit_option "max_cvss" JFloat (MaxCVSS c) ++
      omit_option "minimum_severity" JString (MinimumSeverity c) ++ omit_bool "dry_run" (cvss_DryRun c)) c
  | CfgMinimumAge c => pointer_json (λ c,
      omit_option "min_age_days" JInt (MinAgeDays c) ++
      omit_strings "exclude_packages" (min_ExcludePackages c) ++ omit_bool "dry_run" (min_DryRun c)) c
  | CfgMaximumAge c => pointer_json (λ c,
      omit_option "max_age_days" JInt (MaxAgeDays c) ++
      omit_strings "exclude_packages" (max_ExcludePackages c) ++ omit_bool "dry_run" (max_DryRun c)) c
  | CfgBlockMutableTag c => pointer_json (λ c,
      omit_strings "tags" (Tags c) ++ omit_bool "dry_run" (tag_DryRun c)) c
  | CfgScorecard c => pointer_json (λ c,
      omit_option "min_score" JFloat (MinScore c) ++
      omit_if (bool_decide (Checks c = ∅)) "checks" (json_map JFloat (Checks c)) ++
      omit_string "unavailable_scorecard_behavior" (UnavailableScorecardBehavior c) ++
      omit_bool "dry_run" (sc_DryRun c)) c
  | CfgLicense c => pointer_json (λ c,
      omit_strings "licenses" (lic_Licenses c) ++ omit_bool "dry_run" (lic_DryRun c)) c
  | CfgLicenseAllowlist c => pointer_json (λ c,
      omit_strings "licenses" (la_Licenses c) ++ omit_bool "dry_run" (la_DryRun c)) c
  | CfgLicenseAllowlistV2 c => pointer_json (λ c,
      omit_strings "licenses" (la2_Licenses c) ++
      omit_string "unlicensed_behavior" (UnlicensedBehavior c) ++
      omit_string "unavailable_metadata_behavior" (UnavailableMetadataBehavior c) ++
      omit_bool "dry_run" (la2_DryRun c)) c
  | CfgNamespaceList c => pointer_json (λ c,
      omit_strings "namespaces" (Namespaces c) ++ omit_bool "dry_run" (ns_DryRun c)) c
  end.

Definition target_json (t : PolicyTarget) : json :=
  JObject (omit_strings "dependency_scope" (DependencyScopes t) ++
    omit_strings "dependency_types" (DependencyTypes t) ++ omit_string "on_unknown" (OnUnknown t)).

Definition hashable_json (h : hashablePolicy) : json :=
  JObject (omit_string "upstream_id" (hp_UpstreamID h) ++
    field "name" (JString (hp_Name h)) ++ field "type" (JString (hp_Type h)) ++
    field "action" (JString (hp_Action h)) ++ field "schema_version" (JInt (hp_SchemaVersion h)) ++
    field "priority" (JInt (hp_Priority h)) ++ field "enabled" (JBool (hp_Enabled h)) ++
    field "config" (from_option config_json JNull (hp_Config h)) ++
    omit_option "target" target_json (hp_Target h)).

Definition HashPolicies (policies : list Policy) : result string :=
  let hashable := sort_by hashable_less (to_hashable <$> policies) in
  match json_Marshal (JArray (hashable_json <$> hashable)) with
  | Err e => Err (wrap_error "marshalling canonical policy set: " e)
  | Ok payload => Ok (sha256_hex payload)
  end.

(** ** Lemmas *)

Lemma hashable_less_weak : StrictWeak hashable_less.
Proof.
  repeat apply lex_less_weak; try apply _.
  split; intros *; [apply sw_irrefl|apply sw_trans|apply sw_negtrans].
Qed.
#[export] Existing Instance hashable_less_weak.

Lemma hashable_tie_name a b :
  hashable_less a b = false → hashable_less b a = false → hp_Name a = hp_Name b.
Proof.
  intros H1 H2. apply lex_less_tie in H1 as (_ & H1 & H2'); [|apply _|done].
  by apply lex_less_tie in H1 as (? & _ & _); [|apply _|].
Qed.

(** The part of a policy the hash reads. *)
Definition same_content (p q : Policy) : Prop := to_hashable p = to_hashable q.

Lemma HashPolicies_perm ps qs :
  NoDup (pol_Name <$> ps) → (to_hashable <$> ps) ≡ₚ (to_hashable <$> qs) → HashPolicies ps = HashPolicies qs.
Proof.
  intros Hnd Hp. unfold HashPolicies.
  rewrite (sort_by_perm_inv hashable_less (to_hashable <$> ps) (to_hashable <$> qs)); [done| |done].
  assert (Hn : hp_Name <$> (to_hashable <$> ps) = pol_Name <$> ps) by by rewrite <-list_fmap_compose.
  rewrite <-Hn in Hnd. clear Hn Hp. intros a b [i Hi]%list_elem_of_lookup [j Hj]%list_elem_of_lookup H1 H2.
  pose proof (hashable_tie_name _ _ H1 H2) as Hn.
  assert (i = j) as <-; [|congruence].
  by apply (NoDup_lookup _ i j (hp_Name a) Hnd); rewrite list_lookup_fmap, ?Hi, ?Hj; csimpl; rewrite ?Hn.
Qed.

(** Sorting a list of equal images: the hash reads nothing but the content. *)
Lemma to_hashable_ignores p id tenant version created updated :
  to_hashable (mkPolicy id tenant (pol_UpstreamID p) (pol_Name p) (pol_Type p) (pol_Action p)
    (pol_SchemaVersion p) (pol_Config p) (pol_Target p) (pol_Priority p) (pol_Enabled p)
    version created updated) = to_hashable p.
Proof. done. Qed.

(** ** Properties *)

(** The policy-set hash is canonical: for policies with distinct names it
    does not depend on the order of the set, nor on identifiers, tenant, stored
    version or timestamps, and a schema version of zero hashes like the current
    version of the type. *)
Theorem HashPolicies_canonical ps qs :
  NoDup (pol_Name <$> ps) →
  (∃ qs', qs' ≡ₚ qs ∧ Forall2 (λ p q, same_content p q) ps qs') →
  HashPolicies ps = HashPolicies qs ∧
  ∀ p v, currentSchemaVersionForType (pol_Type p) = Ok v →
    same_content (set_SchemaVersion 0 p) (set_SchemaVersion v p).
Proof.
  intros Hnd (qs' & Hp & Hc). split.
  - apply HashPolicies_perm; [done|]. rewrite <-Hp. apply Permutation_refl'.
    clear Hnd Hp. by induction Hc as [|p q ps qs' Hpq _ IH]; csimpl; [|rewrite IH, Hpq].
  - intros p v Hv. unfold same_content, to_hashable, mustNormalizePolicySchemaVersion,
      normalizeSchemaVersion. simpl. rewrite Hv. by destruct (decide (v ≠ 0)).
Qed.

Lemma HashPolicies_canonical_witness :
  HashPolicies sample_policies = HashPolicies (rev (set_Tenant_Version "t2" 9 <$> sample_policies)).
Proof.
  apply (HashPolicies_canonical sample_policies (rev (set_Tenant_Version "t2" 9 <$> sample_policies))).
  - apply (bool_decide_unpack _). vm_compute. exact I.
  - exists (set_Tenant_Version "t2" 9 <$> sample_policies). split; [apply Permutation_rev|].
    repeat constructor.
Defined.
