(* ===== verification/ConfigDecode.v ===== *)
(** * Decoding policy configurations and policy files

    [internal/core/policy/config.go], [parser.go] and [dsl.go].  A configuration
    arrives as a JSON document ([Json.json]); a document of a request body, a
    policy file or a column that is not JSON at all is refused before these
    functions see it.  A [File] is what the YAML or JSON reader returns. *)

From S2P Require Import Prelude GoStrings Floats Json JsonDecode JsonParse Artifact Dependency Upstream.
From S2P Require Import PolicyConfig Policy Conditions Catalog Evaluator PolicyHash.
#[local] Open Scope list_scope.

(** ** Definitions *)

(** *** The structs of [core/domain/policy_config*.go] with their json tags *)

Section structs.
Context (ty : string).
Notation place name := (into_field ty name).

Definition strings (name : string) : json → list string → result (list string) :=
  dec_slice (place name) "[]string" (dec_string (place name) "string") "".

Definition minage_fields : fields MinimumAgePolicyConfig :=
  [("min_age_days", λ v c, x ← dec_pointer (dec_int (place "min_age_days")) 0 v (MinAgeDays c);
      Ok (mkMinimumAge x (min_ExcludePackages c) (min_DryRun c)));
   ("exclude_packages", λ v c, x ← strings "exclude_packages" v (min_ExcludePackages c);
      Ok (mkMinimumAge (MinAgeDays c) x (min_DryRun c)));
   ("dry_run", λ v c, x ← dec_bool (place "dry_run") v (min_DryRun c);
      Ok (mkMinimumAge (MinAgeDays c) (min_ExcludePackages c) x))].

Definition maxage_fields : fields MaximumAgePolicyConfig :=
  [("max_age_days", λ v c, x ← dec_pointer (dec_int (place "max_age_days")) 0 v (MaxAgeDays c);
      Ok (mkMaximumAge x (max_ExcludePackages c) (max_DryRun c)));
   ("exclude_packages", λ v c, x ← strings "exclude_packages" v (max_ExcludePackages c);
      Ok (mkMaximumAge (MaxAgeDays c) x (max_DryRun c)));
   ("dry_run", λ v c, x ← dec_bool (place "dry_run") v (max_DryRun c);
      Ok (mkMaximumAge (MaxAgeDays c) (max_ExcludePackages c) x))].

Definition cvss_fields : fields CVSSThresholdPolicyConfig :=
  [("max_cvss", λ v c, x ← dec_pointer (dec_float (place "max_cvss")) (f64_of_Z 0) v (MaxCVSS c);
      Ok (mkCVSSThreshold x (MinimumSeverity c) (cvss_DryRun c)));
   ("minimum_severity", λ v c,
      x ← dec_pointer (dec_string (place "minimum_severity") "domain.SeverityLevel") "" v (MinimumSeverity c);
      Ok (mkCVSSThreshold (MaxCVSS c) x (cvss_DryRun c)));
   ("dry_run", λ v c, x ← dec_bool (place "dry_run") v (cvss_DryRun c);
      Ok (mkCVSSThreshold (MaxCVSS c) (MinimumSeverity c) x))].

Definition tag_fields : fields BlockMutableTagPolicyConfig :=
  [("tags", λ v c, x ← strings "tags" v (Tags c); Ok (mkBlockMutableTag x (tag_DryRun c)));
   ("dry_run", λ v c, x ← dec_bool (place "dry_run") v (tag_DryRun c); Ok (mkBlockMutableTag (Tags c) x))].

Definition scorecard_fields : fields ScorecardPolicyConfig :=
  [("min_score", λ v c, x ← dec_pointer (dec_float (place "min_score")) (f64_of_Z 0) v (MinScore c);
      Ok (mkScorecard x (Checks c) (UnavailableScorecardBehavior c) (sc_DryRun c)));
   ("checks", λ v c, x ← dec_map (place "checks") "map[string]float64" (dec_float (place "checks")) (f64_of_Z 0) v (Checks c);
      Ok (mkScorecard (MinScore c) x (UnavailableScorecardBehavior c) (sc_DryRun c)));
   ("unavailable_scorecard_behavior", λ v c,
      x ← dec_string (place "unavailable_scorecard_behavior") "domain.ScorecardUnavailableBehavior" v
            (UnavailableScorecardBehavior c);
      Ok (mkScorecard (MinScore c) (Checks c) x (sc_DryRun c)));
   ("dry_run", λ v c, x ← dec_bool (place "dry_run") v (sc_DryRun c);
      Ok (mkScorecard (MinScore c) (Checks c) (UnavailableScorecardBehavior c) x))].

Definition license_fields : fields LicensePolicyConfig :=
  [("licenses", λ v c, x ← strings "licenses" v (lic_Licenses c); Ok (mkLicense x (lic_DryRun c)));
   ("dry_run", λ v c, x ← dec_bool (place "dry_run") v (lic_DryRun c); Ok (mkLicense (lic_Licenses c) x))].

Definition la_fields : fields LicenseAllowlistPolicyConfig :=
  [("licenses", λ v c, x ← strings "licenses" v (la_Licenses c); Ok (mkLicenseAllowlist x (la_DryRun c)));
   ("dry_run", λ v c, x ← dec_bool (place "dry_run") v (la_DryRun c); Ok (mkLicenseAllowlist (la_Licenses c) x))].

Definition la2_fields : fields LicenseAllowlistPolicyConfigV2 :=
  [("licenses", λ v c, x ← strings "licenses" v (la2_Licenses c);
      Ok (mkLicenseAllowlistV2 x (UnlicensedBehavior c) (UnavailableMetadataBehavior c) (la2_DryRun c)));
   ("unlicensed_behavior", λ v c,
      x ← dec_string (place "unlicensed_behavior") "domain.LicenseAllowlistMissingBehavior" v (UnlicensedBehavior c);
      Ok (mkLicenseAllowlistV2 (la2_Licenses c) x (UnavailableMetadataBehavior c) (la2_DryRun c)));
   ("unavailable_metadata_behavior", λ v c,
      x ← dec_string (place "unavailable_metadata_behavior") "domain.LicenseAllowlistMissingBehavior" v
            (UnavailableMetadataBehavior c);
      Ok (mkLicenseAllowlistV2 (la2_Licenses c) (UnlicensedBehavior c) x (la2_DryRun c)));
   ("dry_run", λ v c, x ← dec_bool (place "dry_run") v (la2_DryRun c);
      Ok (mkLicenseAllowlistV2 (la2_Licenses c) (UnlicensedBehavior c) (UnavailableMetadataBehavior c) x))].

Definition ns_fields : fields NamespaceListPolicyConfig :=
  [("namespaces", λ v c, x ← strings "namespaces" v (Namespaces c); Ok (mkNamespaceList x (ns_DryRun c)));
   ("dry_run", λ v c, x ← dec_bool (place "dry_run") v (ns_DryRun c); Ok (mkNamespaceList (Namespaces c) x))].
End structs.

(** [decoder.Decode(config)] into the struct a fresh configuration points to. *)
Definition decode_pointed {S} (ty : string) (fs : string → fields S) (v : json) (c : option S) : result (option S) :=
  match c with
  | Some c => Some <$> decode_struct ("domain." +:+ ty) (fs ty) v c
  | None => Err (new_error ("json: Unmarshal(nil *domain." +:+ ty +:+ ")"))
  end.

Definition config_Decode (v : json) (c : PolicyConfig) : result PolicyConfig :=
  match c with
  | CfgCVSSThreshold c => CfgCVSSThreshold <$> decode_pointed "CVSSThresholdPolicyConfig" cvss_fields v c
  | CfgMinimumAge c => CfgMinimumAge <$> decode_pointed "MinimumAgePolicyConfig" minage_fields v c
  | CfgMaximumAge c => CfgMaximumAge <$> decode_pointed "MaximumAgePolicyConfig" maxage_fields v c
  | CfgBlockMutableTag c => CfgBlockMutableTag <$> decode_pointed "BlockMutableTagPolicyConfig" tag_fields v c
  | CfgScorecard c => CfgScorecard <$> decode_pointed "ScorecardPolicyConfig" scorecard_fields v c
  | CfgLicense c => CfgLicense <$> decode_pointed "LicensePolicyConfig" license_fields v c
  | CfgLicenseAllowlist c => CfgLicenseAllowlist <$> decode_pointed "LicenseAllowlistPolicyConfig" la_fields v c
  | CfgLicenseAllowlistV2 c => CfgLicenseAllowlistV2 <$> decode_pointed "LicenseAllowlistPolicyConfigV2" la2_fields v c
  | CfgNamespaceList c => CfgNamespaceList <$> decode_pointed "NamespaceListPolicyConfig" ns_fields v c
  end.

(** *** config.go *)

Definition hasDeprecatedEnforceJSON (v : json) : bool :=
  match v with JObject kvs => bool_decide (Exists (λ kv, kv.1 = "enforce") kvs) | _ => false end.

Definition deprecated_enforce : error :=
  invalidPolicy ("config key " +:+ quote "enforce" +:+ " is not supported; use " +:+ quote "dry_run" +:+ " instead").

(** [None] is an empty document. *)
Definition DecodeConfigJSON (policyType : PolicyType) (schemaVersion : Z) (raw : option json) : result PolicyConfig :=
  match raw with
  | None | Some JNull => Err (invalidPolicy "config is required")
  | Some v =>
      if hasDeprecatedEnforceJSON v then Err deprecated_enforce
      else
        normalized ← normalizeSchemaVersion policyType schemaVersion;
        match validateSchemaVersion policyType normalized with
        | Some e => Err e
        | None =>
            config ← newConfigForType policyType normalized;
            match config_Decode v config with
            | Err e => Err (invalidPolicy ("invalid config for policy type " +:+ quote policyType +:+ ": " +:+ error_msg e))
            | Ok config =>
                match config_Validate config with
                | Err e => Err (invalidPolicy (error_msg e))
                | Ok config => Ok config
                end
            end
        end
  end.

Definition DecodeStoredConfigJSON (policyType : PolicyType) (schemaVersion : Z) (raw : option json) : result PolicyConfig :=
  match raw with
  | None | Some JNull => Err (invalidPolicy "config is required")
  | Some v =>
      if hasDeprecatedEnforceJSON v then
        Err (sentinel_suffix ErrDeprecatedPolicyConfig (": stored policy config uses deprecated " +:+ quote "enforce"
               +:+ " field; run the policy data migration"))
      else DecodeConfigJSON policyType schemaVersion raw
  end.

(** [raw] is the [map[string]any] of a definition, nil as [None]; its JSON text has
    the keys in order, once each. *)
Definition DecodeConfigValue (policyType : PolicyType) (schemaVersion : Z) (raw : option (gmap string json)) : result PolicyConfig :=
  match raw with
  | None => DecodeConfigJSON policyType schemaVersion (Some JNull)
  | Some m =>
      if decide (is_Some (m !! "enforce")) then Err deprecated_enforce
      else match json_Marshal (json_map id m) with
      | Err e => Err (invalidPolicy ("marshalling config for policy type " +:+ quote policyType +:+ ": " +:+ error_msg e))
      | Ok text => DecodeConfigJSON policyType schemaVersion (Parse text)
      end
  end.

(** *** dsl.go and parser.go *)

Record TargetDef : Type := mkTargetDef {
  def_DependencyScopes : list string;
  def_DependencyTypes : list string;
  def_OnUnknown : string;
}.

Record Def : Type := mkDef {
  def_UpstreamID : option string;
  def_Name : string;
  def_Type : string;
  def_SchemaVersion : option Z;
  def_Action : string;
  def_Target : option TargetDef;
  def_Priority : option Z;
  def_Config : option (gmap string json);
  def_Enabled : option bool;
}.

Record File : Type := mkFile { file_TenantID : string; file_Policies : list Def }.

Definition toDomainTarget (def : option TargetDef) : result (option PolicyTarget) :=
  match def with
  | None => Ok None
  | Some d =>
      match target_Validate (Some (mkPolicyTarget (def_DependencyScopes d) (def_DependencyTypes d) (def_OnUnknown d))) with
      | Err e => Err e
      | Ok t => Ok (target_Normalize t)
      end
  end.

Definition toDomainPolicy (tenantID : string) (def : Def) (index : Z) : result Policy :=
  if decide (def_Name def = "") then Err (new_error "name is required")
  else if decide (def_Type def = "") then Err (new_error "type is required")
  else match def_SchemaVersion def with
  | None => Err (sentinel_suffix ErrUnsupportedPolicySchemaVersion ": schema_version is required")
  | Some schemaVersion =>
      if decide (def_Action def = "") then Err (new_error "action is required")
      else match parsePolicyType (def_Type def) with
      | None => Err (new_error ("unknown policy type " +:+ quote (def_Type def)))
      | Some policyType =>
          match validateSchemaVersion policyType schemaVersion with
          | Some e => Err e
          | None =>
              if decide (def_Action def ∉ validActions) then
                Err (new_error ("invalid action " +:+ quote (def_Action def) +:+ ", must be " +:+ quote "allow"
                       +:+ " or " +:+ quote "deny"))
              else
                config ← DecodeConfigValue policyType schemaVersion (def_Config def);
                target ← toDomainTarget (def_Target def);
                Ok (mkPolicy "" tenantID (default "" (def_UpstreamID def)) (def_Name def) policyType (def_Action def)
                      schemaVersion (Some config) target (default index (def_Priority def))
                      (default true (def_Enabled def)) 1 zero_time zero_time)
          end
      end
  end.

Definition policy_prefix (i : Z) (name : string) : string := "policy " +:+ itoa i +:+ " (" +:+ quote name +:+ "): ".

(** The loop over the definitions from index [i] on. *)
Fixpoint to_policies (tenantID : string) (i : Z) (defs : list Def) : result (list Policy) :=
  match defs with
  | [] => Ok []
  | def :: defs =>
      p ← wrap_result (policy_prefix i (def_Name def)) (toDomainPolicy tenantID def i);
      p ← wrap_result (policy_prefix i (def_Name def)) (ValidatePolicy p);
      ps ← to_policies tenantID (i + 1) defs;
      Ok (p :: ps)
  end.

Definition ToDomainPoliciesForTenant (file : File) (tenantID : string) : result (list Policy) :=
  let effectiveTenantID := if decide (tenantID = "") then file_TenantID file else tenantID in
  if decide (effectiveTenantID = "") then Err (new_error "tenant_id is required")
  else policies ← to_policies effectiveTenantID 0 (file_Policies file); ValidatePolicies policies.

Definition ToDomainPolicies (file : File) : result (list Policy) := ToDomainPoliciesForTenant file "".

(** ** What is stored is read back *)

(** The struct a configuration points to, empty. *)
Definition zero_like (c : PolicyConfig) : PolicyConfig :=
  match c with
  | CfgCVSSThreshold _ => CfgCVSSThreshold (Some (mkCVSSThreshold None None false))
  | CfgMinimumAge _ => CfgMinimumAge (Some (mkMinimumAge None [] false))
  | CfgMaximumAge _ => CfgMaximumAge (Some (mkMaximumAge None [] false))
  | CfgBlockMutableTag _ => CfgBlockMutableTag (Some (mkBlockMutableTag [] false))
  | CfgScorecard _ => CfgScorecard (Some (mkScorecard None ∅ "" false))
  | CfgLicense _ => CfgLicense (Some (mkLicense [] false))
  | CfgLicenseAllowlist _ => CfgLicenseAllowlist (Some (mkLicenseAllowlist [] false))
  | CfgLicenseAllowlistV2 _ => CfgLicenseAllowlistV2 (Some (mkLicenseAllowlistV2 [] "" "" false))
  | CfgNamespaceList _ => CfgNamespaceList (Some (mkNamespaceList [] false))
  end.

(** What Go's [int] can hold. *)
Definition config_ints_ok (c : PolicyConfig) : bool :=
  match c with
  | CfgMinimumAge (Some c) => from_option int64_ok true (MinAgeDays c)
  | CfgMaximumAge (Some c) => from_option int64_ok true (MaxAgeDays c)
  | _ => true
  end.

Definition config_json_ok (c : PolicyConfig) : Prop := is_ok (json_Marshal (config_json c)) = true.

Lemma marshal_field fields k j :
  is_ok (json_Marshal (JObject fields)) = true → (k, j) ∈ fields → is_ok (json_Marshal j) = true.
Proof.
  intros H Hin. cbn in H. destruct (map_result _ fields) as [parts|] eqn:E; [|done]. clear H.
  revert parts E. induction fields as [|[k' j'] fields IH]; intros parts E; [by apply not_elem_of_nil in Hin|].
  csimpl in E. destruct (json_Marshal j') as [b|] eqn:Ej; [|done]. simpl in E.
  destruct (map_result _ fields) as [parts'|] eqn:E'; [|done].
  apply elem_of_cons in Hin as [[= -> ->]|Hin]; [by rewrite Ej|]. by eapply IH.
Qed.

Lemma marshal_float f : is_ok (json_Marshal (JFloat f)) = true → is_Some (json_float f).
Proof. simpl. destruct (json_float f); [eauto|done]. Qed.

Lemma dec_entries_app {A} (dec : json → A → result A) zero l l' m :
  dec_entries dec zero (l ++ l') m = (m' ← dec_entries dec zero l m; dec_entries dec zero l' m').
Proof. induction l as [|[k v] l IH] in m |- *; csimpl; [done|]. destruct (dec v zero); csimpl; [apply IH|done]. Qed.

(** A map of floats reads back, in whatever order its keys are written. *)
Lemma dec_entries_reads place (l : list (string * float64)) l' m :
  Forall (λ kv, is_Some (json_float kv.2)) l →
  reads_fields ((λ kv, (kv.1, JFloat kv.2)) <$> l) l' →
  dec_entries (dec_float place) (f64_of_Z 0) l' m = Ok (foldl (λ m kv, <[kv.1 := kv.2]> m) m l).
Proof.
  intros Hl Hr. remember ((λ kv : string * float64, (kv.1, JFloat kv.2)) <$> l) as k eqn:E.
  induction Hr as [|[ka ja] [kb jb] k k' [Hk Hj] _ IH] in l, Hl, m, E |- *.
  - by destruct l.
  - destruct l as [|[kc f] l]; [done|]. injection E as -> -> E. apply Forall_cons in Hl as [Hf Hl]. simpl in *. subst kb.
    rewrite (dec_float_reads place f jb) by done. csimpl. by apply IH.
Qed.

Lemma foldl_insert_list_to_map {A} (l : list (string * A)) (m : gmap string A) :
  NoDup l.*1 → foldl (λ m kv, <[kv.1 := kv.2]> m) m l = (list_to_map l : gmap string A) ∪ m.
Proof.
  induction l as [|[k a] l IH] in m |- *; csimpl; intros Hnd; [by rewrite (left_id_L ∅ (∪))|].
  apply NoDup_cons in Hnd as [Hk Hnd]. rewrite IH by done. rewrite <-insert_union_l, insert_union_r; [done|].
  by apply not_elem_of_list_to_map_1.
Qed.

Lemma dec_checks place ty (m : gmap string float64) w :
  reads (json_map JFloat m) w → is_ok (json_Marshal (json_map JFloat m)) = true →
  dec_map place ty (dec_float place) (f64_of_Z 0) w ∅ = Ok m.
Proof.
  intros (l' & -> & Hr)%reads_object_inv Hok. simpl. set (l := sort_by _ (map_to_list m)) in *.
  assert (Hp : l ≡ₚ map_to_list m) by apply sort_by_perm.
  rewrite (dec_entries_reads place l); [| |exact Hr].
  - rewrite foldl_insert_list_to_map, (right_id_L ∅ (∪)).
    + rewrite (list_to_map_proper l (map_to_list m)); [by rewrite list_to_map_to_list| |done].
      rewrite Hp. apply NoDup_fst_map_to_list.
    + rewrite Hp. apply NoDup_fst_map_to_list.
  - apply Forall_forall. intros [k f] Hin. apply marshal_float. change (is_ok (json_Marshal (JFloat f)) = true).
    eapply (marshal_field _ k); [exact Hok|]. apply list_elem_of_fmap. by exists (k, f).
Qed.

Lemma decode_step {S} (fs : fields S) l rest s s' :
  decode_fields fs l s = Ok s' → decode_fields fs (l ++ rest) s = decode_fields fs rest s'.
Proof. intros H. by rewrite decode_fields_app, H. Qed.

Lemma decode_last {S} (fs : fields S) l s s' : decode_fields fs l s = Ok s' → Some <$> decode_fields fs l s = Ok (Some s').
Proof. by intros ->. Qed.

(** A string list, a string, a flag: left out when empty, else read back. *)
Section pieces.
Context {S : Type} (fs : fields S) (k : string) (l : list (string * json)) (s : S) (d : json → S → result S).
Context (Hd : find_field k fs = Some d).

Lemma piece_strings xs (set : list string → S) :
  reads_fields (omit_strings k xs) l → set [] = s →
  (∀ ys, d (JArray (JString <$> ys)) s = Ok (set ys)) → decode_fields fs l s = Ok (set xs).
Proof.
  intros Hl Hs Hset. eapply decode_omit_if; [exact Hl|exact Hd| |].
  - intros E%bool_decide_eq_true. by subst xs.
  - intros _ w ->%reads_strings. apply Hset.
Qed.

Lemma piece_string x (set : string → S) :
  reads_fields (omit_string k x) l → set "" = s →
  (∀ y, d (JString y) s = Ok (set y)) → decode_fields fs l s = Ok (set x).
Proof.
  intros Hl Hs Hset. eapply decode_omit_if; [exact Hl|exact Hd| |].
  - intros E%bool_decide_eq_true. by subst x.
  - intros _ w ->%reads_string. apply Hset.
Qed.

Lemma piece_bool b (set : bool → S) :
  reads_fields (omit_bool k b) l → set false = s →
  d (JBool true) s = Ok (set true) → decode_fields fs l s = Ok (set b).
Proof.
  intros Hl Hs Hset. eapply decode_omit_if; [exact Hl|exact Hd| |].
  - intros E. by destruct b.
  - intros E w ->%reads_bool. by destruct b.
Qed.

Lemma piece_option {A} (f : A → json) o (set : option A → S) :
  reads_fields (omit_option k f o) l → set None = s →
  (∀ a w, o = Some a → reads (f a) w → d w s = Ok (set (Some a))) → decode_fields fs l s = Ok (set o).
Proof.
  intros Hl Hs Hset. eapply decode_omit_option; [exact Hl|exact Hd| |].
  - by intros ->.
  - intros a -> w Hw. by apply Hset.
Qed.
End pieces.

(** Splitting the written fields of a struct into the pieces they come from. *)
Ltac split_fields H :=
  let l := fresh "l" in
  apply reads_object_inv in H as (l & -> & H); unfold reads_fields in H;
  repeat match type of H with
  | Forall2 _ (_ ++ _) _ => let H1 := fresh "Hp" in apply Forall2_app_inv_l in H as (? & ? & H1 & H & ->)
  end;
  cbn [config_Decode zero_like]; unfold decode_pointed, decode_struct.

Lemma dec_option_int place z w :
  reads (JInt z) w → int64_ok z = true → dec_pointer (dec_int place) 0 w None = Ok (Some z).
Proof. intros ->%reads_int H. simpl. by rewrite H. Qed.

Lemma dec_option_float place f w :
  reads (JFloat f) w → is_Some (json_float f) → dec_pointer (dec_float place) (f64_of_Z 0) w None = Ok (Some f).
Proof.
  intros Hr Hf. pose proof (dec_float_reads place f w (f64_of_Z 0) Hr Hf) as H.
  inversion Hr; subst; unfold dec_pointer; change (default (f64_of_Z 0) None) with (f64_of_Z 0); by rewrite H.
Qed.

(** One piece of a struct: [H] is how it reads, [set] puts its value in place. *)
Ltac strings_piece H ex set :=
  erewrite decode_step; [|refine (piece_strings _ _ _ _ _ _ ex set H _ _);
    [reflexivity|reflexivity|intros ys; cbv beta; unfold strings; by rewrite (dec_strings _ "string")]].
Ltac string_piece H x set :=
  erewrite decode_step; [|refine (piece_string _ _ _ _ _ _ x set H _ _); [reflexivity|reflexivity|done]].
Ltac bool_piece H b set :=
  match goal with |- context [decode_fields ?fs ?l ?s] =>
    assert (decode_fields fs l s = Ok (set b)) as ->; [|reflexivity]
  end;
  refine (piece_bool _ _ _ _ _ _ b set H _ _); reflexivity.

Lemma minage_reads c w :
  reads (config_json (CfgMinimumAge (Some c))) w → config_ints_ok (CfgMinimumAge (Some c)) = true →
  config_Decode w (zero_like (CfgMinimumAge None)) = Ok (CfgMinimumAge (Some c)).
Proof.
  destruct c as [days ex dry]. intros H Hi. cbn in Hi. split_fields H.
  erewrite decode_step.
  2:{ refine (piece_option _ _ _ _ _ _ JInt days (λ x, mkMinimumAge x [] false) Hp _ _); [reflexivity|reflexivity|].
      intros a v -> Hv. cbv beta. cbn. rewrite (dec_option_int _ a v); done. }
  strings_piece Hp0 ex (λ x, mkMinimumAge days x false).
  bool_piece H dry (λ x, mkMinimumAge days ex x).
Qed.

Lemma maxage_reads c w :
  reads (config_json (CfgMaximumAge (Some c))) w → config_ints_ok (CfgMaximumAge (Some c)) = true →
  config_Decode w (zero_like (CfgMaximumAge None)) = Ok (CfgMaximumAge (Some c)).
Proof.
  destruct c as [days ex dry]. intros H Hi. cbn in Hi. split_fields H.
  erewrite decode_step.
  2:{ refine (piece_option _ _ _ _ _ _ JInt days (λ x, mkMaximumAge x [] false) Hp _ _); [reflexivity|reflexivity|].
      intros a v -> Hv. cbv beta. cbn. rewrite (dec_option_int _ a v); done. }
  strings_piece Hp0 ex (λ x, mkMaximumAge days x false).
  bool_piece H dry (λ x, mkMaximumAge days ex x).
Qed.

Lemma cvss_reads c w :
  reads (config_json (CfgCVSSThreshold (Some c))) w → config_json_ok (CfgCVSSThreshold (Some c)) →
  config_Decode w (zero_like (CfgCVSSThreshold None)) = Ok (CfgCVSSThreshold (Some c)).
Proof.
  destruct c as [m sev dry]. intros H Hj. split_fields H.
  erewrite decode_step.
  2:{ refine (piece_option _ _ _ _ _ _ JFloat m (λ x, mkCVSSThreshold x None false) Hp _ _); [reflexivity|reflexivity|].
      intros a v -> Hv. cbv beta. cbn. rewrite (dec_option_float _ a v); [done|exact Hv|].
      apply marshal_float. eapply (marshal_field _ "max_cvss"); [exact Hj|]. by left. }
  erewrite decode_step.
  2:{ refine (piece_option _ _ _ _ _ _ JString sev (λ x, mkCVSSThreshold m x false) Hp0 _ _); [reflexivity|reflexivity|].
      by intros a v -> ->%reads_string. }
  bool_piece H dry (λ x, mkCVSSThreshold m sev x).
Qed.

Lemma tag_reads c w :
  reads (config_json (CfgBlockMutableTag (Some c))) w →
  config_Decode w (zero_like (CfgBlockMutableTag None)) = Ok (CfgBlockMutableTag (Some c)).
Proof.
  destruct c as [l dry]. intros H. split_fields H. strings_piece Hp l (λ x, mkBlockMutableTag x false).
  bool_piece H dry (λ x, mkBlockMutableTag l x).
Qed.

Lemma license_reads c w :
  reads (config_json (CfgLicense (Some c))) w →
  config_Decode w (zero_like (CfgLicense None)) = Ok (CfgLicense (Some c)).
Proof.
  destruct c as [l dry]. intros H. split_fields H. strings_piece Hp l (λ x, mkLicense x false).
  bool_piece H dry (λ x, mkLicense l x).
Qed.

Lemma la_reads c w :
  reads (config_json (CfgLicenseAllowlist (Some c))) w →
  config_Decode w (zero_like (CfgLicenseAllowlist None)) = Ok (CfgLicenseAllowlist (Some c)).
Proof.
  destruct c as [l dry]. intros H. split_fields H. strings_piece Hp l (λ x, mkLicenseAllowlist x false).
  bool_piece H dry (λ x, mkLicenseAllowlist l x).
Qed.

Lemma ns_reads c w :
  reads (config_json (CfgNamespaceList (Some c))) w →
  config_Decode w (zero_like (CfgNamespaceList None)) = Ok (CfgNamespaceList (Some c)).
Proof.
  destruct c as [l dry]. intros H. split_fields H. strings_piece Hp l (λ x, mkNamespaceList x false).
  bool_piece H dry (λ x, mkNamespaceList l x).
Qed.

Lemma la2_reads c w :
  reads (config_json (CfgLicenseAllowlistV2 (Some c))) w →
  config_Decode w (zero_like (CfgLicenseAllowlistV2 None)) = Ok (CfgLicenseAllowlistV2 (Some c)).
Proof.
  destruct c as [l b1 b2 dry]. intros H. split_fields H.
  strings_piece Hp l (λ x, mkLicenseAllowlistV2 x "" "" false).
  string_piece Hp0 b1 (λ x, mkLicenseAllowlistV2 l x "" false).
  string_piece Hp1 b2 (λ x, mkLicenseAllowlistV2 l b1 x false).
  bool_piece H dry (λ x, mkLicenseAllowlistV2 l b1 b2 x).
Qed.

Lemma scorecard_reads c w :
  reads (config_json (CfgScorecard (Some c))) w → config_json_ok (CfgScorecard (Some c)) →
  config_Decode w (zero_like (CfgScorecard None)) = Ok (CfgScorecard (Some c)).
Proof.
  destruct c as [m checks b dry]. intros H Hj. split_fields H.
  erewrite decode_step.
  2:{ refine (piece_option _ _ _ _ _ _ JFloat m (λ x, mkScorecard x ∅ "" false) Hp _ _); [reflexivity|reflexivity|].
      intros a v -> Hv. cbv beta. cbn. rewrite (dec_option_float _ a v); [done|exact Hv|].
      apply marshal_float. eapply (marshal_field _ "min_score"); [exact Hj|]. by left. }
  erewrite decode_step.
  2:{ eapply (decode_omit_if _ _ _ _ _ _ (mkScorecard m checks "" false)); [exact Hp0|reflexivity|..].
      - intros E%bool_decide_eq_true. simpl in E. by rewrite E.
      - intros E v Hv. cbv beta. cbn [Checks MinScore UnavailableScorecardBehavior sc_DryRun] in *.
        rewrite (dec_checks _ _ checks v Hv); [done|].
        eapply (marshal_field _ "checks"); [exact Hj|]. cbn. rewrite E. apply elem_of_app. right. by left. }
  string_piece Hp1 b (λ x, mkScorecard m checks x false).
  bool_piece H dry (λ x, mkScorecard m checks b x).
Qed.

(** Decoding undoes encoding, for every kind of configuration. *)
Lemma config_Decode_reads c w :
  reads (config_json c) w → config_json_ok c → config_ints_ok c = true → is_ok (config_Validate c) = true →
  config_Decode w (zero_like c) = Ok c.
Proof.
  intros Hw Hj Hi Hv. destruct c as [[c|]|[c|]|[c|]|[c|]|[c|]|[c|]|[c|]|[c|]|[c|]]; try done;
    auto using minage_reads, maxage_reads, cvss_reads, tag_reads, license_reads, la_reads, ns_reads, la2_reads, scorecard_reads.
Qed.

(** A document of a configuration is an object without the deprecated key. *)
Lemma config_json_object c w :
  is_ok (config_Validate c) = true → reads (config_json c) w →
  ∃ l, w = JObject l ∧ hasDeprecatedEnforceJSON w = false.
Proof.
  intros Hv Hw.
  assert (∃ l l', config_json c = JObject l ∧ w = JObject l' ∧ reads_fields l l') as (l & l' & Hl & -> & Hr).
  { destruct c as [[c|]|[c|]|[c|]|[c|]|[c|]|[c|]|[c|]|[c|]|[c|]]; try done; cbn in Hw |- *;
      apply reads_object_inv in Hw as (l' & -> & Hr); eauto. }
  exists l'. split; [done|]. cbn. apply bool_decide_eq_false. rewrite Exists_exists. intros ([k v] & Hin & Hk). simpl in Hk. subst k.
  apply list_elem_of_lookup in Hin as [i Hi]. eapply Forall2_lookup_r in Hr as ([k u] & Hk & [E _]); [|exact Hi].
  simpl in E. subst k. apply list_elem_of_lookup_2 in Hk. revert Hl. clear -Hk.
  assert (Hno : ∀ e k j, k ≠ "enforce" → ("enforce", u) ∉ omit_if e k j).
  { intros e k j Hne. unfold omit_if. destruct e; [apply not_elem_of_nil|]. rewrite list_elem_of_singleton. congruence. }
  assert (Hno' : ∀ A (f : A → json) o k, k ≠ "enforce" → ("enforce", u) ∉ omit_option k f o).
  { intros A f o k Hne. unfold omit_option. destruct o; [|apply not_elem_of_nil]. rewrite list_elem_of_singleton. congruence. }
  destruct c as [[c|]|[c|]|[c|]|[c|]|[c|]|[c|]|[c|]|[c|]|[c|]]; try done; cbn; intros [= <-];
    repeat (apply elem_of_app in Hk as [Hk|Hk]);
    ((eapply Hno; [|exact Hk]; done) || (eapply Hno'; [|exact Hk]; done)).
Qed.

(** The configuration is the struct its type and schema version call for. *)
Definition config_of_schema (p : Policy) (c : PolicyConfig) : Prop :=
  ∃ v, normalizeSchemaVersion (pol_Type p) (pol_SchemaVersion p) = Ok v ∧
       newConfigForType (pol_Type p) v = Ok (zero_like c).

(** Whichever way the numbers of a configuration's JSON read, it decodes to the
    configuration. *)
Lemma stored_config_reads p c w :
  ValidatePolicy p = Ok p → pol_Config p = Some c →
  config_of_schema p c → config_json_ok c → config_ints_ok c = true → reads (config_json c) w →
  DecodeConfigJSON (pol_Type p) (pol_SchemaVersion p) (Some w) = Ok c ∧
  DecodeStoredConfigJSON (pol_Type p) (pol_SchemaVersion p) (Some w) = Ok c.
Proof.
  intros [Hh (x & x' & t' & Hx & _ & Hv & _ & Hp)]%ValidatePolicy_spec Hc (v & Hn & Hnew) Hj Hi Hw.
  assert (x = c) as -> by congruence.
  assert (x' = c) as -> by (apply (f_equal pol_Config) in Hp; simpl in Hp; congruence).
  destruct (config_json_object c w) as (l & -> & He); [by rewrite Hv|done|].
  assert (DecodeConfigJSON (pol_Type p) (pol_SchemaVersion p) (Some (JObject l)) = Ok c) as Hd.
  { unfold DecodeConfigJSON. rewrite He, Hn. cbn [mbind result_bind].
    assert (validateSchemaVersion (pol_Type p) v = None) as ->.
    { unfold validate_header in Hh. repeat case_match; try done; simplify_eq; done. }
    rewrite Hnew. cbn [mbind result_bind].
    rewrite (config_Decode_reads c) by (done || by rewrite Hv). by rewrite Hv. }
  split; [done|]. unfold DecodeStoredConfigJSON. by rewrite He.
Qed.

(** C22: The configuration column loses nothing.  For every valid policy whose
    configuration JSON can carry, [json.Marshal] writes a text that parses, and what
    [DecodeStoredConfigJSON] (and, for a bundle, [DecodeConfigJSON]) makes of it is
    the very configuration, whichever way the numbers of the text read; so the stores
    and bundles that keep configurations as JSON hold the policies that were written. *)
Theorem stored_config_roundtrip p c :
  ValidatePolicy p = Ok p → pol_Config p = Some c →
  config_of_schema p c → writable (config_json c) = true → config_ints_ok c = true →
  ∃ t w, json_Marshal (config_json c) = Ok t ∧ Parse t = Some w ∧
    DecodeConfigJSON (pol_Type p) (pol_SchemaVersion p) (Some w) = Ok c ∧
    DecodeStoredConfigJSON (pol_Type p) (pol_SchemaVersion p) (Some w) = Ok c.
Proof.
  intros Hv Hc Hs Hw Hi. destruct (written_reads _ Hw) as (t & w & Ht & Hp & Hr). exists t, w. split; [done|]. split; [done|].
  apply stored_config_reads; try done. unfold config_json_ok. by rewrite Ht.
Qed.

(** A policy as its definition in a file describes it, at its place in the file. *)
Record from_def (t : string) (id : Z * Def) (p : Policy) : Prop := {
  fd_tenant : pol_TenantID p = t;
  fd_name : pol_Name p = def_Name id.2;
  fd_type : pol_Type p = def_Type id.2;
  fd_action : pol_Action p = def_Action id.2;
  fd_schema : Some (pol_SchemaVersion p) = def_SchemaVersion id.2;
  fd_upstream : pol_UpstreamID p = default "" (def_UpstreamID id.2);
  fd_priority : pol_Priority p = default id.1 (def_Priority id.2);
  fd_enabled : pol_Enabled p = default true (def_Enabled id.2);
  fd_version : pol_Version p = 1;
}.

Lemma toDomainPolicy_from t d i p : toDomainPolicy t d i = Ok p → from_def t (i, d) p.
Proof.
  unfold toDomainPolicy. case_decide; [done|]. case_decide; [done|].
  destruct (def_SchemaVersion d) as [v|] eqn:Ev; [|done]. case_decide; [done|].
  unfold parsePolicyType. destruct (policyDefinitionFor (def_Type d)); [|done].
  destruct (validateSchemaVersion _ _); [done|]. case_decide; [done|].
  intros (c & _ & Hr)%result_bind_ok. apply result_bind_ok in Hr as (t' & _ & [= <-]). by split.
Qed.

Lemma ValidatePolicy_from t id p p' : ValidatePolicy p = Ok p' → from_def t id p → from_def t id p'.
Proof. intros [_ (? & ? & ? & _ & _ & _ & _ & ->)]%ValidatePolicy_spec []. by split. Qed.

Lemma to_policies_sound t i defs ps :
  to_policies t i defs = Ok ps →
  Forall2 (from_def t) (zip (seqZ i (Z.of_nat (length defs))) defs) ps ∧ Forall (λ p, ValidatePolicy p = Ok p) ps.
Proof.
  induction defs as [|d defs IH] in i, ps |- *; cbn [to_policies].
  { intros [= <-]. by split. }
  intros (p & Hp%wrap_result_ok & H)%result_bind_ok.
  apply result_bind_ok in H as (p' & Hp'%wrap_result_ok & H). apply result_bind_ok in H as (ps' & Hps & [= <-]).
  destruct (IH _ _ Hps) as [Hf Hv]. cbn [length]. rewrite Nat2Z.inj_succ, seqZ_cons by lia. cbn [zip].
  rewrite Z.pred_succ. split.
  - constructor; [|by replace (Z.succ i) with (i + 1) by lia].
    eapply ValidatePolicy_from; [exact Hp'|by apply toDomainPolicy_from].
  - constructor; [by eapply ValidatePolicy_fixed|done].
Qed.

(** A policy file yields only valid policies.  Every policy of a file that is
    accepted belongs to the tenant asked for (else the file's own), is what its
    definition says, at version 1, with its place in the file as priority and
    enabled unless the file says otherwise; and the policies are a valid set. *)
Theorem ToDomainPolicies_sound file tenantID ps :
  ToDomainPoliciesForTenant file tenantID = Ok ps →
  let t := if decide (tenantID = "") then file_TenantID file else tenantID in
  t ≠ "" ∧ ValidatePolicies ps = Ok ps ∧
  Forall2 (from_def t) (zip (seqZ 0 (Z.of_nat (length (file_Policies file)))) (file_Policies file)) ps.
Proof.
  unfold ToDomainPoliciesForTenant. set (t := if decide (tenantID = "") then _ else _). cbv zeta. case_decide as Ht; [done|].
  intros (qs & Hq & Hps)%result_bind_ok. destruct (to_policies_sound _ _ _ _ Hq) as [Hf Hv].
  pose proof (ValidatePolicies_fixed _ _ Hps) as Hfix. split; [done|]. split; [done|].
  assert (ps = qs) as ->; [|done].
  unfold ValidatePolicies in Hps. apply validate_from_spec in Hps as [Hps _]. clear -Hps Hv.
  induction Hps as [|q p qs ps Hq _ IH]; [done|]. apply Forall_cons in Hv as [Hv1 Hv2].
  rewrite (IH Hv2). congruence.
Qed.

(** ** Witnesses *)

Definition sample_score_config : PolicyConfig :=
  CfgScorecard (Some (mkScorecard (Some (f64_of_Z 7)) {[ "code-review" := f64_tenths 55 ]} "skip" true)).
Definition sample_score_policy : Policy :=
  mkPolicy "p1" "t1" "" "scores" PolicyTypeScorecard PolicyActionDeny 1 (Some sample_score_config) None 0 true 1
    zero_time zero_time.

(** The text of the minimum score is an integer literal. *)
Lemma stored_config_roundtrip_witness :
  ∃ t w, json_Marshal (config_json sample_score_config) = Ok t ∧ Parse t = Some w ∧
    DecodeConfigJSON PolicyTypeScorecard 1 (Some w) = Ok sample_score_config ∧
    DecodeStoredConfigJSON PolicyTypeScorecard 1 (Some w) = Ok sample_score_config.
Proof.
  refine (stored_config_roundtrip sample_score_policy sample_score_config _ eq_refl _ _ _).
  - vm_compute. reflexivity.
  - exists 1. split; vm_compute; reflexivity.
  - vm_compute. reflexivity.
  - reflexivity.
Defined.

Definition sample_file : File :=
  mkFile "t0" [mkDef None "scopes" "blocklist" (Some 1) "deny" None None
                 (Some {[ "namespaces" := JArray [JString "@evil"] ]}) None].

Lemma ToDomainPolicies_sound_witness :
  ∃ ps, ToDomainPoliciesForTenant sample_file "t1" = Ok ps ∧ ValidatePolicies ps = Ok ps ∧ length ps = 1%nat.
Proof.
  destruct (ToDomainPoliciesForTenant sample_file "t1") as [ps|e] eqn:E; [|vm_compute in E; discriminate E].
  exists ps. split; [reflexivity|].
  destruct (ToDomainPolicies_sound sample_file "t1" ps E) as (_ & Hv & Hf). split; [exact Hv|].
  apply Forall2_length in Hf. rewrite <-Hf. vm_compute. reflexivity.
Defined.
