(* ===== verification/PolicyDocuments.v ===== *)
(** * Policy documents

    A policy document is read in two places: [ParseFile] of [core/policy/parser.go]
    for files, and [parsePolicyImportDocument] of [delivery/api/policy_import.go] for
    the import endpoint, which has a type of its own for the definitions and hands
    them to the decoding of the core as a [File].  Reading YAML text is the
    library's; a JSON document is read here. *)

From S2P Require Import Prelude GoStrings Floats Json JsonDecode JsonParse Artifact Dependency Upstream.
From S2P Require Import PolicyConfig Policy Conditions Catalog Evaluator ConfigDecode.
#[local] Open Scope list_scope.

(** ** Definitions *)

Definition empty_def : Def := mkDef None "" "" None "" None None None None.

(** A [map[string]any]; a map that is there keeps its other entries. *)
Definition dec_config (place : string) (v : json) (old : option (gmap string json)) : result (option (gmap string json)) :=
  match v with
  | JNull => Ok None
  | JObject kvs => Some <$> dec_entries (λ v _, any_of v) JNull kvs (default ∅ old)
  | _ => Err (cannot_unmarshal (json_kind v) place "map[string]interface {}")
  end.

(** The fields that both definition types have, over a type [S] seen as a [Def]. *)
Section definitions.
Context {S : Type} (struct : string) (get : S → Def) (put : Def → S).
Notation place name := (into_field struct name).

Definition definition_fields : fields S :=
  [("upstream_id", λ v s, let d := get s in
      x ← dec_pointer (dec_string (place "upstream_id") "string") "" v (def_UpstreamID d);
      Ok (put (mkDef x (def_Name d) (def_Type d) (def_SchemaVersion d) (def_Action d) (def_Target d) (def_Priority d) (def_Config d) (def_Enabled d))));
   ("name", λ v s, let d := get s in
      x ← dec_string (place "name") "string" v (def_Name d);
      Ok (put (mkDef (def_UpstreamID d) x (def_Type d) (def_SchemaVersion d) (def_Action d) (def_Target d) (def_Priority d) (def_Config d) (def_Enabled d))));
   ("type", λ v s, let d := get s in
      x ← dec_string (place "type") "string" v (def_Type d);
      Ok (put (mkDef (def_UpstreamID d) (def_Name d) x (def_SchemaVersion d) (def_Action d) (def_Target d) (def_Priority d) (def_Config d) (def_Enabled d))));
   ("schema_version", λ v s, let d := get s in
      x ← dec_pointer (dec_int (place "schema_version")) 0 v (def_SchemaVersion d);
      Ok (put (mkDef (def_UpstreamID d) (def_Name d) (def_Type d) x (def_Action d) (def_Target d) (def_Priority d) (def_Config d) (def_Enabled d))));
   ("action", λ v s, let d := get s in
      x ← dec_string (place "action") "string" v (def_Action d);
      Ok (put (mkDef (def_UpstreamID d) (def_Name d) (def_Type d) (def_SchemaVersion d) x (def_Target d) (def_Priority d) (def_Config d) (def_Enabled d))));
   ("priority", λ v s, let d := get s in
      x ← dec_pointer (dec_int (place "priority")) 0 v (def_Priority d);
      Ok (put (mkDef (def_UpstreamID d) (def_Name d) (def_Type d) (def_SchemaVersion d) (def_Action d) (def_Target d) x (def_Config d) (def_Enabled d))));
   ("config", λ v s, let d := get s in
      x ← dec_config (place "config") v (def_Config d);
      Ok (put (mkDef (def_UpstreamID d) (def_Name d) (def_Type d) (def_SchemaVersion d) (def_Action d) (def_Target d) (def_Priority d) x (def_Enabled d))));
   ("enabled", λ v s, let d := get s in
      x ← dec_pointer (dec_bool (place "enabled")) false v (def_Enabled d);
      Ok (put (mkDef (def_UpstreamID d) (def_Name d) (def_Type d) (def_SchemaVersion d) (def_Action d) (def_Target d) (def_Priority d) (def_Config d) x)))].
End definitions.

(** *** core/policy: dsl.go and parser.go *)

Definition target_fields : fields TargetDef :=
  let place := into_field "TargetDef" in
  let texts name := dec_slice (place name) "[]string" (dec_string (place name) "string") "" in
  [("dependency_scope", λ v t, x ← texts "dependency_scope" v (def_DependencyScopes t);
      Ok (mkTargetDef x (def_DependencyTypes t) (def_OnUnknown t)));
   ("dependency_types", λ v t, x ← texts "dependency_types" v (def_DependencyTypes t);
      Ok (mkTargetDef (def_DependencyScopes t) x (def_OnUnknown t)));
   ("on_unknown", λ v t, x ← dec_string (place "on_unknown") "string" v (def_OnUnknown t);
      Ok (mkTargetDef (def_DependencyScopes t) (def_DependencyTypes t) x))].

Definition target_field : string * (json → Def → result Def) :=
  ("target", λ v d,
     x ← dec_pointer (unmarshal_struct "policy.TargetDef" target_fields) (mkTargetDef [] [] "") v (def_Target d);
     Ok (mkDef (def_UpstreamID d) (def_Name d) (def_Type d) (def_SchemaVersion d) (def_Action d) x (def_Priority d) (def_Config d) (def_Enabled d))).

Definition def_fields : fields Def := target_field :: definition_fields "Def" id id.

Definition file_fields : fields File :=
  [("tenant_id", λ v f, x ← dec_string (into_field "File" "tenant_id") "string" v (file_TenantID f); Ok (mkFile x (file_Policies f)));
   ("policies", λ v f,
      x ← dec_slice (into_field "File" "policies") "[]policy.Def" (unmarshal_struct "policy.Def" def_fields) empty_def v (file_Policies f);
      Ok (mkFile (file_TenantID f) x))].

(** *** delivery/api/policy_import.go *)

Record policyImportDefinition : Type := mkImportDefinition {
  imp_UpstreamID : option string;
  imp_Name : string;
  imp_Type : string;
  imp_SchemaVersion : option Z;
  imp_Action : string;
  imp_Priority : option Z;
  imp_Config : option (gmap string json);
  imp_Enabled : option bool;
}.

Record policyImportDocument : Type := mkImportDocument { doc_TenantID : string; doc_Policies : list policyImportDefinition }.

(** The element of [toCorePolicyFile]. *)
Definition toCoreDef (d : policyImportDefinition) : Def :=
  mkDef (imp_UpstreamID d) (imp_Name d) (imp_Type d) (imp_SchemaVersion d) (imp_Action d) None (imp_Priority d)
    (imp_Config d) (imp_Enabled d).
Definition toCorePolicyFile (d : policyImportDocument) : File := mkFile (doc_TenantID d) (toCoreDef <$> doc_Policies d).

Definition import_of (d : Def) : policyImportDefinition :=
  mkImportDefinition (def_UpstreamID d) (def_Name d) (def_Type d) (def_SchemaVersion d) (def_Action d) (def_Priority d)
    (def_Config d) (def_Enabled d).
Definition import_definition_fields : fields policyImportDefinition := definition_fields "policyImportDefinition" toCoreDef import_of.

Definition import_document_fields : fields policyImportDocument :=
  let place := into_field "policyImportDocument" in
  [("tenant_id", λ v f, x ← dec_string (place "tenant_id") "string" v (doc_TenantID f); Ok (mkImportDocument x (doc_Policies f)));
   ("policies", λ v f,
      x ← dec_slice (place "policies") "[]api.policyImportDefinition"
            (unmarshal_struct "api.policyImportDefinition" import_definition_fields) (import_of empty_def) v (doc_Policies f);
      Ok (mkImportDocument (doc_TenantID f) x))].

(** [looksLikeJSON] and [looksLikeJSONDocument] *)
Definition looksLikeJSON (data : string) : bool :=
  match data with "" => false | String c _ => is_char 123 c || is_char 91 c end.

Section reading.
Context (syntax_error : string → error) (yaml_File : string → result File) (yaml_Import : string → result policyImportDocument).

Definition ParseFile (data : string) : result File :=
  let trimmed := TrimSpace data in
  if decide (trimmed = "") then Err (wrap_error "parsing policy file: " (sentinel_suffix ErrInvalidPolicy ": empty policy document"))
  else if looksLikeJSON trimmed then
    wrap_result "parsing policy JSON: " (json_Unmarshal syntax_error "policy.File" file_fields trimmed (mkFile "" []))
  else wrap_result "parsing policy YAML: " (yaml_File trimmed).

Definition parsePolicyImportDocument (data : string) : result policyImportDocument :=
  let trimmed := TrimSpace data in
  if decide (trimmed = "") then Err (sentinel_suffix ErrInvalidPolicy ": empty policy document")
  else if looksLikeJSON trimmed then
    wrap_result "parsing policy JSON: "
      (json_Unmarshal syntax_error "api.policyImportDocument" import_document_fields trimmed (mkImportDocument "" []))
  else wrap_result "parsing policy YAML: " (yaml_Import trimmed).

Definition decodeImportedPolicies (data tenantID : string) : result (list Policy) :=
  document ← parsePolicyImportDocument data;
  wrap_result "converting policy document: " (ToDomainPoliciesForTenant (toCorePolicyFile document) tenantID).
End reading.

(** The document without its [target] blocks. *)
Definition untargeted_def (d : Def) : Def := toCoreDef (import_of d).
Definition untargeted (f : File) : File := mkFile (file_TenantID f) (untargeted_def <$> file_Policies f).
Definition drop_target (p : Policy) : Policy := set_Config_Target (pol_Config p) None p.

(** ** Lemmas *)

(** *** Where a value stands only shows in errors *)

(** Whatever the first decoder reads the second reads alike. *)
Definition agrees {A B} (r : A → B) (d : json → A → result A) (d' : json → B → result B) : Prop :=
  ∀ v a a', d v a = Ok a' → d' v (r a) = Ok (r a').

Lemma agrees_string p t p' t' : agrees id (dec_string p t) (dec_string p' t').
Proof. by intros []. Qed.
Lemma agrees_int p p' : agrees id (dec_int p) (dec_int p').
Proof. intros [] a a'; simpl; repeat case_match; done. Qed.
Lemma agrees_bool p p' : agrees id (dec_bool p) (dec_bool p').
Proof. by intros []. Qed.
Lemma agrees_config p p' : agrees id (dec_config p) (dec_config p').
Proof. by intros []. Qed.

Lemma agrees_pointer {A} (d d' : json → A → result A) z : agrees id d d' → agrees id (dec_pointer d z) (dec_pointer d' z).
Proof.
  intros H v a a'. unfold dec_pointer. destruct v; try done;
    (intros E; destruct (d _ _) as [x|] eqn:Ed; [|done]; apply H in Ed; unfold id in *; by rewrite Ed).
Qed.

Lemma agrees_elements {A B} (r : A → B) d d' z l : agrees r d d' → ∀ old l',
  dec_elements d z l old = Ok l' → dec_elements d' (r z) l (r <$> old) = Ok (r <$> l').
Proof.
  intros H. induction l as [|v l IH]; intros old l'; simpl; [by intros [= <-]|].
  destruct (d v _) as [a|] eqn:Ea; [|done]. simpl. destruct (dec_elements d z l _) as [rest|] eqn:Er; [|done].
  intros [= <-]. apply H in Ea. apply IH in Er. destruct old as [|x old]; csimpl in *; rewrite Ea; csimpl; rewrite Er; done.
Qed.

Lemma agrees_slice {A B} (r : A → B) p t p' t' d d' z :
  agrees r d d' → agrees (fmap (M:=list) r) (dec_slice p t d z) (dec_slice p' t' d' (r z)).
Proof. intros H [] a a'; simpl; try done; [by intros [= <-]|]. by apply agrees_elements. Qed.

(** *** Structs *)

Lemma find_field_extra {S S'} (rel : (json → S → result S) → (json → S' → result S') → Prop)
    (fs : fields S) (fs' : fields S') k0 d0 k :
  Forall2 (λ a b, a.1 = b.1 ∧ rel a.2 b.2) fs fs' → Forall (λ b, ToLower b.1 ≠ ToLower k0) fs' →
  match find_field k ((k0, d0) :: fs), find_field k fs' with
  | Some d, Some d' => rel d d'
  | Some d, None => d = d0
  | None, None => True
  | None, Some _ => False
  end.
Proof.
  intros H H0.
  assert (match by_exact k fs, by_exact k fs' with Some d, Some d' => rel d d' | None, None => True | _, _ => False end) as He.
  { clear H0. induction H as [|[a d] [b d'] fs fs' [Hab Hd] _ IH]; simpl in *; [done|]. subst b. by case_decide. }
  assert (match by_folded k fs, by_folded k fs' with Some d, Some d' => rel d d' | None, None => True | _, _ => False end) as Hf.
  { clear H0 He. induction H as [|[a d] [b d'] fs fs' [Hab Hd] _ IH]; simpl in *; [done|]. subst b. by case_decide. }
  assert (∀ j, ToLower j = ToLower k0 → by_exact j fs' = None ∧ by_folded j fs' = None) as Hn.
  { clear H He Hf. intros j Hj. induction H0 as [|[b d'] fs' Hb _ IH]; simpl in *; [done|].
    rewrite !decide_False by congruence. done. }
  unfold find_field. simpl. destruct (decide (k0 = k)) as [->|Hk].
  - destruct (Hn k eq_refl) as [-> ->]. done.
  - destruct (by_exact k fs), (by_exact k fs'); try done.
    destruct (decide (ToLower k0 = ToLower k)) as [El|].
    + by destruct (Hn k (eq_sym El)) as [_ ->].
    + by destruct (by_folded k fs), (by_folded k fs').
Qed.

Lemma agrees_fields {S S'} (r : S → S') (fs : fields S) (fs' : fields S') :
  (∀ k, match find_field k fs, find_field k fs' with
        | Some d, Some d' => agrees r d d'
        | Some d, None => ∀ v s s', d v s = Ok s' → r s' = r s
        | None, None => True
        | None, Some _ => False end) →
  ∀ kvs s s', unmarshal_fields fs kvs s = Ok s' → unmarshal_fields fs' kvs (r s) = Ok (r s').
Proof.
  intros H kvs. induction kvs as [|[k v] kvs IH]; intros s s'; simpl; [by intros [= <-]|].
  specialize (H k). destruct (find_field k fs) as [d|], (find_field k fs') as [d'|]; try done; [| |apply IH].
  - destruct (d v s) as [t|] eqn:E; [|done]. apply H in E. simpl. rewrite E. apply IH.
  - destruct (d v s) as [t|] eqn:E; [|done]. apply H in E. simpl. rewrite <-E. apply IH.
Qed.

Lemma agrees_struct {S S'} (r : S → S') ty ty' (fs : fields S) (fs' : fields S') :
  (∀ kvs s s', unmarshal_fields fs kvs s = Ok s' → unmarshal_fields fs' kvs (r s) = Ok (r s')) →
  agrees r (unmarshal_struct ty fs) (unmarshal_struct ty' fs').
Proof. intros H v s s'. destruct v; simpl; try done; [by intros [= <-]|]. apply H. Qed.

(** *** The two definition types *)

Create HintDb documents.
#[local] Hint Resolve agrees_string agrees_int agrees_bool agrees_config agrees_pointer : documents.

Lemma definitions_agree :
  Forall2 (λ a b, a.1 = b.1 ∧ agrees import_of a.2 b.2) (definition_fields "Def" id id) import_definition_fields.
Proof.
  unfold definition_fields, import_definition_fields.
  repeat (apply Forall2_cons_2; [split; [done|]|]); [..|apply Forall2_nil_2]; cbn [snd]; unfold id; intros v s s';
    match goal with
    | |- mbind _ (?d v ?o) = _ → mbind _ (?d' v ?o') = _ =>
        change o' with o; assert (agrees id d d') as H by auto with documents;
        destruct (d v o) as [x|] eqn:E; [apply H in E; unfold id in E; rewrite E; by intros [= <-]|done]
    end.
Qed.

Lemma definition_agrees k :
  match find_field k def_fields, find_field k import_definition_fields with
  | Some d, Some d' => agrees import_of d d'
  | Some d, None => ∀ v s s', d v s = Ok s' → import_of s' = import_of s
  | None, None => True
  | None, Some _ => False
  end.
Proof.
  pose proof (find_field_extra (agrees import_of) _ _ target_field.1 target_field.2 k definitions_agree) as H.
  assert (Forall (λ b, ToLower b.1 ≠ ToLower target_field.1) import_definition_fields) as Hn by by repeat constructor.
  specialize (H Hn). unfold def_fields. change (target_field :: ?l) with ((target_field.1, target_field.2) :: l).
  destruct (find_field k (_ :: _)) as [d|], (find_field k import_definition_fields) as [d'|]; try done.
  subst d. intros v s s'. simpl. destruct (dec_pointer _ _ _ _); [|done]. by intros [= <-].
Qed.

Lemma documents_agree : agrees (λ f, mkImportDocument (file_TenantID f) (import_of <$> file_Policies f))
  (unmarshal_struct "policy.File" file_fields) (unmarshal_struct "api.policyImportDocument" import_document_fields).
Proof.
  set (r f := mkImportDocument (file_TenantID f) (import_of <$> file_Policies f)).
  assert (∀ p p', agrees (fmap (M:=list) import_of)
    (dec_slice p "[]policy.Def" (unmarshal_struct "policy.Def" def_fields) empty_def)
    (dec_slice p' "[]api.policyImportDefinition" (unmarshal_struct "api.policyImportDefinition" import_definition_fields)
       (import_of empty_def))) as Hdefs.
  { intros p p'. apply agrees_slice, agrees_struct, agrees_fields, definition_agrees. }
  apply agrees_struct, agrees_fields. intros k.
  assert (Forall2 (λ a b, a.1 = b.1 ∧ agrees r a.2 b.2) file_fields import_document_fields) as H.
  { apply Forall2_cons_2; [split; [done|]|apply Forall2_cons_2; [split; [done|]|apply Forall2_nil_2]]; intros v f f'; simpl.
    - destruct (dec_string _ _ v (file_TenantID f)) as [x|] eqn:E; [|done].
      apply (agrees_string _ _ (into_field "policyImportDocument" "tenant_id") "string") in E. unfold id in E. rewrite E. by intros [= <-].
    - destruct (dec_slice _ _ _ _ v (file_Policies f)) as [x|] eqn:E; [|done].
      apply (Hdefs _ (into_field "policyImportDocument" "policies")) in E. rewrite E. by intros [= <-]. }
  unfold file_fields, import_document_fields in *. inversion_clear H as [|? ? ? ? [_ H1] H2]. inversion_clear H2 as [|? ? ? ? [_ H2'] _].
  unfold find_field. simpl. repeat case_decide; done.
Qed.

(** *** Policies without targets *)

Lemma toDomainPolicy_untargeted t d i p : toDomainPolicy t d i = Ok p → toDomainPolicy t (untargeted_def d) i = Ok (drop_target p).
Proof.
  unfold toDomainPolicy, untargeted_def. simpl. repeat (case_decide || case_match); try done.
  destruct (DecodeConfigValue _ _ _); [|done]. simpl. destruct (toDomainTarget _); [|done]. by intros [= <-].
Qed.

Lemma ValidatePolicy_untargeted p p' : ValidatePolicy p = Ok p' → ValidatePolicy (drop_target p) = Ok (drop_target p').
Proof.
  unfold ValidatePolicy. change (validate_header (drop_target p)) with (validate_header p).
  destruct (validate_header p); [done|]. simpl. destruct (pol_Config p) as [config|]; [|done].
  destruct (configTypeMatchesPolicy _ _); [|done]. destruct (config_Validate config); [|done].
  destruct (target_Validate (pol_Target p)); [|done]. by intros [= <-].
Qed.

Lemma validate_from_untargeted ps : ∀ i seen ps',
  validate_from i seen ps = Ok ps' → validate_from i seen (drop_target <$> ps) = Ok (drop_target <$> ps').
Proof.
  induction ps as [|p ps IH]; intros i seen ps'; [by intros [= <-]|]. csimpl.
  destruct (ValidatePolicy p) as [p'|] eqn:Ep; [|done]. rewrite (ValidatePolicy_untargeted p p' Ep).
  destruct (seen !! pol_Name p); [done|]. destruct (validate_from _ _ ps) as [qs|] eqn:Eq; [|done].
  intros [= <-]. apply IH in Eq. by rewrite Eq.
Qed.

Lemma to_policies_untargeted t ds : ∀ i ps,
  to_policies t i ds = Ok ps → to_policies t i (untargeted_def <$> ds) = Ok (drop_target <$> ps).
Proof.
  induction ds as [|d ds IH]; intros i ps; [by intros [= <-]|]. csimpl.
  destruct (toDomainPolicy t d i) as [p|] eqn:Ep; [|done]. apply toDomainPolicy_untargeted in Ep. rewrite Ep. simpl.
  destruct (ValidatePolicy p) as [p'|] eqn:Ev; [|done]. apply ValidatePolicy_untargeted in Ev. rewrite Ev. simpl.
  destruct (to_policies t (i + 1) ds) as [qs|] eqn:Eq; [|done]. intros [= <-]. apply IH in Eq. by rewrite Eq.
Qed.

Lemma ToDomainPoliciesForTenant_untargeted f t ps :
  ToDomainPoliciesForTenant f t = Ok ps → ToDomainPoliciesForTenant (untargeted f) t = Ok (drop_target <$> ps).
Proof.
  unfold ToDomainPoliciesForTenant. simpl. case_decide; [done|].
  destruct (to_policies _ 0 (file_Policies f)) as [qs|] eqn:E; [|done]. apply to_policies_untargeted in E. rewrite E. simpl.
  apply validate_from_untargeted.
Qed.

Lemma ToDomainPoliciesForTenant_no_target f t ps :
  Forall (λ d, def_Target d = None) (file_Policies f) → ToDomainPoliciesForTenant f t = Ok ps → Forall (λ p, pol_Target p = None) ps.
Proof.
  intros Hf H. apply ToDomainPoliciesForTenant_untargeted in H as H'.
  assert (untargeted f = f) as E.
  { clear H H'. destruct f as [ft ds]. unfold untargeted. simpl in *. f_equal. induction Hf as [|[] ds Hd _ IH]; [done|].
    simpl in Hd. subst. csimpl. by rewrite IH. }
  rewrite E, H in H'. injection H' as ->. apply Forall_forall. intros p [q [-> _]]%list_elem_of_fmap. done.
Qed.

(** ** Properties *)

(** C21: What the import endpoint makes of a JSON document is what the policy files
    mean without their [target] blocks.  Where the document holds the policies [ps],
    the endpoint imports exactly [ps] with every target dropped, so a policy that the
    document restricts to some dependencies is imported for all of them; no imported
    policy ever has a target. *)
Theorem imported_documents_lose_targets syntax_error yaml_File yaml_Import data t :
  looksLikeJSON (TrimSpace data) = true →
  (∀ file ps, ParseFile syntax_error yaml_File data = Ok file → ToDomainPoliciesForTenant file t = Ok ps →
     decodeImportedPolicies syntax_error yaml_Import data t = Ok (drop_target <$> ps)) ∧
  (∀ ps, decodeImportedPolicies syntax_error yaml_Import data t = Ok ps → Forall (λ p, pol_Target p = None) ps).
Proof.
  intros Hj. split.
  - intros file ps. unfold ParseFile, decodeImportedPolicies, parsePolicyImportDocument. rewrite Hj.
    destruct (decide (TrimSpace data = "")) as [|_]; [done|]. unfold json_Unmarshal. destruct (Parse _) as [v|]; [|done].
    destruct (unmarshal_struct "policy.File" _ v _) as [f|] eqn:E; [|done]. apply documents_agree in E. simpl in E.
    rewrite E. simpl. intros [= <-] Hps. apply ToDomainPoliciesForTenant_untargeted in Hps.
    unfold toCorePolicyFile. simpl. rewrite <-list_fmap_compose. unfold untargeted, untargeted_def in Hps.
    unfold compose. by rewrite Hps.
  - intros ps. unfold decodeImportedPolicies. destruct (parsePolicyImportDocument _ _ _) as [doc|]; [|done]. simpl.
    destruct (ToDomainPoliciesForTenant (toCorePolicyFile doc) t) as [qs|] eqn:E; [|done]. intros [= <-].
    apply ToDomainPoliciesForTenant_no_target in E; [done|]. apply Forall_forall. by intros d [x [-> _]]%list_elem_of_fmap.
Qed.

(** A policy for production dependencies blocks every one after its import. *)
Definition targeted_document : string := quoted
  " {'policies': [{'name': 'young', 'type': 'minimum_age', 'schema_version': 1, 'action': 'deny', 'config': {'min_age_days': 7}, 'target': {'dependency_types': ['prod'], 'on_unknown': 'skip'}}]}".

Lemma imported_documents_lose_targets_witness :
  match ParseFile (λ _, new_error "syntax") (λ _, Err (new_error "yaml")) targeted_document with
  | Ok file =>
      match ToDomainPoliciesForTenant file "t1" with
      | Ok ps => pol_Target <$> ps = [Some (mkPolicyTarget [] ["prod"] "skip")] ∧
                 decodeImportedPolicies (λ _, new_error "syntax") (λ _, Err (new_error "yaml")) targeted_document "t1" = Ok (drop_target <$> ps)
      | Err _ => False
      end
  | Err _ => False
  end.
Proof.
  pose proof (proj1 (imported_documents_lose_targets (λ _, new_error "syntax") (λ _, Err (new_error "yaml"))
    (λ _, Err (new_error "yaml")) targeted_document "t1" eq_refl)) as H.
  destruct (ParseFile _ _ _) as [file|] eqn:Ef; [|vm_compute in Ef; discriminate Ef].
  destruct (ToDomainPoliciesForTenant file "t1") as [ps|] eqn:Ep.
  - split; [|by apply (H file ps)]. clear H. vm_compute in Ef. injection Ef as <-. vm_compute in Ep. injection Ep as <-. reflexivity.
  - clear H. vm_compute in Ef. injection Ef as <-. vm_compute in Ep. discriminate Ep.
Defined.
