(* ===== verification/Effects.v ===== *)
(** * Services as stateful programs

    The services call their collaborators (repositories, caches, registries,
    the audit recorder, the clock) through the interfaces of
    [internal/core/port].  [W] is the state of everything behind those
    interfaces.  A service method is a function from the current state to its
    result and the next state, where the state also keeps the list of calls made
    so far with their arguments and what they returned; effects made before an
    error stay made.  [triple] is the one proof rule set the services share. *)

From S2P Require Import Prelude GoStrings.
#[local] Open Scope list_scope.

(** ** Definitions *)

Section monad.
Context {W C : Type}.

Record St : Type := mkSt { world : W; calls : list C }.

Definition M (A : Type) : Type := St → result A * St.

#[export] Instance M_ret : MRet M := λ A a s, (Ok a, s).
#[export] Instance M_bind : MBind M := λ A B f m s,
  match m s with (Ok a, s) => f a s | (Err e, s) => (Err e, s) end.
#[export] Instance M_fmap : FMap M := λ A B f m s,
  match m s with (Ok a, s) => (Ok (f a), s) | (Err e, s) => (Err e, s) end.

Definition throw {A} (e : error) : M A := λ s, (Err e, s).

(** The result of a call as a value: [x, err := m()]. *)
Definition attempt {A} (m : M A) : M (result A) := λ s, let '(r, s) := m s in (Ok r, s).

(** [_ = m()] *)
Definition ignore {A} (m : M A) : M () := λ s, let '(_, s) := m s in (Ok (), s).

Definition lift {A} (r : result A) : M A := λ s, (r, s).

(** [if err != nil { return fmt.Errorf(prefix: %w) }] *)
Definition wrapping {A} (prefix : string) (m : M A) : M A := λ s,
  let '(r, s) := m s in (wrap_result prefix r, s).

(** Reading the world (the clock, the cancellation state of the context). *)
Definition reading {A} (f : W → A) : M A := λ s, (Ok (f (world s)), s).

(** A call through an interface: [f] is the implementation, [c] what is logged. *)
Definition call {A} (c : result A → C) (f : W → result A * W) : M A := λ s,
  let '(r, w) := f (world s) in (r, mkSt w (calls s ++ [c r])).

Definition when (b : bool) (m : M ()) : M () := if b then m else mret ().

(** [for _, x := range l { if err := f(x); err != nil { return err } }] *)
Fixpoint for_each {A} (f : A → M ()) (l : list A) : M () :=
  match l with [] => mret () | x :: l => _ ← f x; for_each f l end.
End monad.
Arguments St : clear implicits.
Arguments M : clear implicits.

(** ** Reasoning

    [triple m Q]: whatever the state, [m] makes some further calls [l] and
    returns a result [r] with [Q l r]. *)

Section triples.
Context {W C : Type}.
Notation M := (M W C).

Definition triple {A} (m : M A) (Q : list C → result A → Prop) : Prop :=
  ∀ s, ∃ l, calls (m s).2 = calls s ++ l ∧ Q l (m s).1.

Lemma triple_mono {A} (m : M A) (Q Q' : list C → result A → Prop) :
  triple m Q → (∀ l r, Q l r → Q' l r) → triple m Q'.
Proof. intros H HQ s. destruct (H s) as (l & Hl & Hq). eauto. Qed.

Lemma triple_ret {A} (a : A) (Q : list C → result A → Prop) : Q [] (Ok a) → triple (mret a) Q.
Proof. intros H s. exists []. by rewrite app_nil_r. Qed.

Lemma triple_throw {A} e (Q : list C → result A → Prop) : Q [] (Err e) → triple (throw e) Q.
Proof. intros H s. exists []. by rewrite app_nil_r. Qed.

Lemma triple_lift {A} (r : result A) (Q : list C → result A → Prop) : Q [] r → triple (lift r) Q.
Proof. intros H s. exists []. by rewrite app_nil_r. Qed.

Lemma triple_reading {A} (f : W → A) (Q : list C → result A → Prop) :
  (∀ a, Q [] (Ok a)) → triple (reading f) Q.
Proof. intros H s. exists []. rewrite app_nil_r. split; [done|]. apply H. Qed.

Lemma triple_call {A} (c : result A → C) f (Q : list C → result A → Prop) :
  (∀ r, Q [c r] r) → triple (call c f) Q.
Proof.
  intros H s. unfold call. destruct (f (world s)) as [r w]. exists [c r]. split; [done|apply H].
Qed.

Lemma triple_bind {A B} (m : M A) (f : A → M B) (Q1 : list C → result A → Prop) Q :
  triple m Q1 →
  (∀ l a, Q1 l (Ok a) → triple (f a) (λ l' r, Q (l ++ l') r)) →
  (∀ l e, Q1 l (Err e) → Q l (Err e)) →
  triple (m ≫= f) Q.
Proof.
  intros Hm Hf He s. destruct (Hm s) as (l & Hl & Hq). unfold mbind, M_bind.
  destruct (m s) as [[a|e] s']; simpl in *.
  - destruct (Hf l a Hq s') as (l' & Hl' & Hq'). exists (l ++ l'). split; [|done].
    by rewrite Hl', Hl, app_assoc.
  - exists l. eauto.
Qed.

Lemma triple_attempt {A} (m : M A) (Q : list C → result (result A) → Prop) :
  triple m (λ l r, Q l (Ok r)) → triple (attempt m) Q.
Proof.
  intros H s. destruct (H s) as (l & Hl & Hq). unfold attempt. destruct (m s) as [r s']. eauto.
Qed.

Lemma triple_ignore {A} (m : M A) (Q : list C → result () → Prop) :
  triple m (λ l _, Q l (Ok ())) → triple (ignore m) Q.
Proof.
  intros H s. destruct (H s) as (l & Hl & Hq). unfold ignore. destruct (m s) as [r s']. eauto.
Qed.

Lemma triple_wrapping {A} p (m : M A) (Q : list C → result A → Prop) :
  triple m (λ l r, Q l (wrap_result p r)) → triple (wrapping p m) Q.
Proof.
  intros H s. destruct (H s) as (l & Hl & Hq). unfold wrapping. destruct (m s) as [r s']. eauto.
Qed.

Lemma triple_and {A} (m : M A) (Q1 Q2 : list C → result A → Prop) :
  triple m Q1 → triple m Q2 → triple m (λ l r, Q1 l r ∧ Q2 l r).
Proof.
  intros H1 H2 s. destruct (H1 s) as (l & Hl & Hq). destruct (H2 s) as (l' & Hl' & Hq').
  exists l. split; [done|]. split; [done|]. rewrite Hl in Hl'. by apply app_inv_head in Hl' as ->.
Qed.

(** [all P m]: every call [m] makes satisfies [P]. *)
Definition all {A} (P : C → Prop) (m : M A) : Prop := triple m (λ l _, Forall P l).

Lemma all_bind {A B} P (m : M A) (f : A → M B) : all P m → (∀ a, all P (f a)) → all P (m ≫= f).
Proof.
  intros Hm Hf. apply triple_bind with (λ l _, Forall P l); [done| |done].
  intros l a Hl. eapply triple_mono; [apply Hf|]. intros l' r Hl'. by apply Forall_app.
Qed.
Lemma all_ret {A} P (a : A) : all P (mret a).
Proof. apply triple_ret. constructor. Qed.
Lemma all_throw {A} P e : all P (throw e : M A).
Proof. apply triple_throw. constructor. Qed.
Lemma all_lift {A} P (r : result A) : all P (lift r).
Proof. apply triple_lift. constructor. Qed.
Lemma all_reading {A} P (f : W → A) : all P (reading f).
Proof. apply triple_reading. constructor. Qed.
Lemma all_call {A} (P : C → Prop) (c : result A → C) f : (∀ r, P (c r)) → all P (call c f).
Proof. intros H. apply triple_call. intros r. by repeat constructor. Qed.
Lemma all_attempt {A} P (m : M A) : all P m → all P (attempt m).
Proof. apply (triple_attempt m (λ l _, Forall P l)). Qed.
Lemma all_ignore {A} P (m : M A) : all P m → all P (ignore m).
Proof. apply (triple_ignore m (λ l _, Forall P l)). Qed.
Lemma all_wrapping {A} P p (m : M A) : all P m → all P (wrapping p m).
Proof. apply (triple_wrapping p m (λ l _, Forall P l)). Qed.
Lemma all_when P b (m : M ()) : all P m → all P (when b m).
Proof. destruct b; [done|]. intros _. apply all_ret. Qed.
Lemma all_for_each {A} P (f : A → M ()) l : (∀ x, all P (f x)) → all P (for_each f l).
Proof. intros H. induction l; simpl; [apply all_ret|]. apply all_bind; auto. Qed.
Lemma all_mono {A} (P Q : C → Prop) (m : M A) : (∀ c, P c → Q c) → all P m → all Q m.
Proof. intros H Hm. eapply triple_mono; [exact Hm|]. intros l r Hl. exact (Forall_impl _ _ _ Hl H). Qed.

(** [runs P I m]: every call satisfies [P], and a returned value satisfies [I]. *)
Definition runs {A} (P : C → Prop) (I : A → Prop) (m : M A) : Prop :=
  triple m (λ l r, Forall P l ∧ ∀ a, r = Ok a → I a).

Lemma runs_bind {A B} P (I : A → Prop) (J : B → Prop) (m : M A) (f : A → M B) :
  runs P I m → (∀ a, I a → runs P J (f a)) → runs P J (m ≫= f).
Proof.
  intros Hm Hf. eapply triple_bind; [exact Hm| |].
  - intros l a [Hl Ha]. specialize (Ha a eq_refl). eapply triple_mono; [exact (Hf a Ha)|].
    intros l' r [Hl' Hr]. split; [by apply Forall_app|done].
  - intros l e [Hl _]. done.
Qed.

Lemma runs_ret {A} (P : C → Prop) (I : A → Prop) a : I a → runs P I (mret a).
Proof. intros H. apply triple_ret. split; [constructor|]. by intros ? [= <-]. Qed.

Lemma runs_throw {A} (P : C → Prop) (I : A → Prop) e : runs P I (throw e).
Proof. apply triple_throw. split; [constructor|done]. Qed.

Lemma runs_all {A} (P : C → Prop) (m : M A) : all P m → runs P (λ _, True) m.
Proof. intros H. eapply triple_mono; [exact H|]. done. Qed.

Lemma all_runs {A} (P : C → Prop) (I : A → Prop) (m : M A) : runs P I m → all P m.
Proof. intros H. eapply triple_mono; [exact H|]. by intros l r []. Qed.

Lemma runs_mono {A} (P P' : C → Prop) (I I' : A → Prop) (m : M A) :
  runs P I m → (∀ c, P c → P' c) → (∀ a, I a → I' a) → runs P' I' m.
Proof.
  intros H HP HI. eapply triple_mono; [exact H|]. intros l r [Hl Hr]. split.
  - exact (Forall_impl _ _ _ Hl HP).
  - eauto.
Qed.

(** [strict P m]: when [m] returns a value, all the calls it made satisfy [P]. *)
Definition strict {A} (P : C → Prop) (m : M A) : Prop :=
  triple m (λ l r, is_ok r = true → Forall P l).

Lemma strict_bind {A B} P (m : M A) (f : A → M B) :
  strict P m → (∀ a, strict P (f a)) → strict P (m ≫= f).
Proof.
  intros Hm Hf. eapply triple_bind; [exact Hm| |done].
  intros l a Hl. eapply triple_mono; [exact (Hf a)|].
  intros l' r Hl' Hr. apply Forall_app. auto.
Qed.

Lemma strict_all {A} P (m : M A) : all P m → strict P m.
Proof. intros H. eapply triple_mono; [exact H|]. done. Qed.

Lemma strict_throw {A} P e : strict P (throw e : M A).
Proof. by apply triple_throw. Qed.

Lemma strict_for_each {A} P (f : A → M ()) l : (∀ x, strict P (f x)) → strict P (for_each f l).
Proof.
  intros H. induction l; simpl; [apply strict_all, all_ret|]. apply strict_bind; auto.
Qed.

(** A tried step whose failure is passed on. *)
Lemma strict_attempt {A B} P (m : M A) (f : result A → M B) :
  strict P m → (∀ a, strict P (f (Ok a))) → (∀ e, triple (f (Err e)) (λ _ r, is_ok r = false)) →
  strict P (attempt m ≫= f).
Proof.
  intros Hm Hok Herr.
  apply triple_bind with (λ l r, ∃ r', r = Ok r' ∧ (is_ok r' = true → Forall P l)).
  - apply triple_attempt. eapply triple_mono; [exact Hm|]. eauto.
  - intros l r (r' & [= <-] & Hl). destruct r as [a|e].
    + eapply triple_mono; [exact (Hok a)|]. intros l' r Hl' Hr. apply Forall_app. auto.
    + eapply triple_mono; [exact (Herr e)|]. intros l' r Hf Hr. congruence.
  - by intros l e (? & ? & _).
Qed.

(** Taking a successful run apart, step by step. *)
Lemma bind_Ok {A B} (m : M A) (f : A → M B) s b s2 :
  (m ≫= f) s = (Ok b, s2) → ∃ a s1, m s = (Ok a, s1) ∧ f a s1 = (Ok b, s2).
Proof. unfold mbind, M_bind. destruct (m s) as [[a|e] s1]; [eauto|done]. Qed.

Lemma ret_Ok {A} (a b : A) (s s2 : St W C) : mret (M:=M) a s = (Ok b, s2) → a = b ∧ s = s2.
Proof. by intros [= <- <-]. Qed.

Lemma triple_run {A} (m : M A) Q s r s' :
  triple m Q → m s = (r, s') → ∃ l, calls s' = calls s ++ l ∧ Q l r.
Proof. intros H Hm. destruct (H s) as (l & Hl & Hq). rewrite Hm in Hl, Hq. eauto. Qed.

Lemma runs_run {A} P (I : A → Prop) (m : M A) s a s' :
  runs P I m → m s = (Ok a, s') → ∃ l, calls s' = calls s ++ l ∧ Forall P l ∧ I a.
Proof.
  intros H Hm. destruct (triple_run _ _ _ _ _ H Hm) as (l & Hl & Hp & HI). exists l. eauto.
Qed.

Lemma call_run {A} (c : result A → C) f (s : St W C) x s' :
  call c f s = (x, s') → calls s' = calls s ++ [c x].
Proof. unfold call. destruct (f (world s)) as [r w]. by intros [= <- <-]. Qed.

Lemma attempt_run {A} (m : M A) s x s' :
  attempt m s = (x, s') → ∃ r, x = Ok r ∧ m s = (r, s').
Proof. unfold attempt. destruct (m s) as [r s1]. intros [= <- <-]. eauto. Qed.

Lemma wrapping_run {A} p (m : M A) s a s' : wrapping p m s = (Ok a, s') → m s = (Ok a, s').
Proof. unfold wrapping. destruct (m s) as [[x|e] s1]; [|done]. by intros [= -> ->]. Qed.

Lemma fmap_run {A B} (f : A → B) (m : M A) s b s' :
  (f <$> m) s = (Ok b, s') → ∃ a, b = f a ∧ m s = (Ok a, s').
Proof. unfold fmap, M_fmap. destruct (m s) as [[a|e] s1]; [|done]. intros [= <- <-]. eauto. Qed.

Lemma all_run {A} P (m : M A) s x s' :
  all P m → m s = (x, s') → ∃ l, calls s' = calls s ++ l ∧ Forall P l.
Proof. intros H Hm. destruct (H s) as (l & Hl & Hp). rewrite Hm in Hl. eauto. Qed.
End triples.

(** ** Histories

    [history R w l w']: the calls [l] take the world from [w] to [w'], each of them
    as [R] says.  [follows R m]: whatever [m] does to the world is the history of
    the calls it makes. *)

Section histories.
Context {W C : Type} (R : W → C → W → Prop).
Notation M := (M W C).

Inductive history : W → list C → W → Prop :=
| history_nil w : history w [] w
| history_cons w c w1 l w2 : R w c w1 → history w1 l w2 → history w (c :: l) w2.

Lemma history_app w l w1 l' w2 : history w l w1 → history w1 l' w2 → history w (l ++ l') w2.
Proof. induction 1; simpl; [done|]. intros. econstructor; eauto. Qed.

(** An invariant that every call keeps, over a state that each call updates. *)
Lemma history_ind_inv {S} (f : S → C → S) (I : S → W → Prop) s w l w' :
  (∀ s w c w', I s w → R w c w' → I (f s c) w') → I s w → history w l w' → I (foldl f s l) w'.
Proof. intros Hstep H Hh. induction Hh as [|w c w1 l w2 Hc _ IH] in s, H |- *; simpl; [done|]. eauto. Qed.

(** What holds of each call made from a state of the invariant. *)
Lemma history_forall (I : W → Prop) (P : C → Prop) w l w' :
  (∀ w c w', I w → R w c w' → I w' ∧ P c) → I w → history w l w' → Forall P l.
Proof.
  intros Hstep H Hh. induction Hh as [|w c w1 l w2 Hc _ IH]; [constructor|].
  destruct (Hstep _ _ _ H Hc) as [? ?]. constructor; auto.
Qed.

Definition follows {A} (m : M A) : Prop :=
  ∀ s, ∃ l, calls (m s).2 = calls s ++ l ∧ history (world s) l (world (m s).2).

Lemma follows_ret {A} (a : A) : follows (mret a).
Proof. intros s. exists []. rewrite app_nil_r. split; [done|constructor]. Qed.
Lemma follows_throw {A} e : follows (throw e : M A).
Proof. intros s. exists []. rewrite app_nil_r. split; [done|constructor]. Qed.
Lemma follows_lift {A} (r : result A) : follows (lift r).
Proof. intros s. exists []. rewrite app_nil_r. split; [done|constructor]. Qed.
Lemma follows_call {A} (c : result A → C) f : (∀ w, R w (c (f w).1) (f w).2) → follows (call c f).
Proof.
  intros H s. unfold call. specialize (H (world s)). destruct (f (world s)) as [r w]. exists [c r].
  split; [done|]. econstructor; [exact H|constructor].
Qed.
Lemma follows_bind {A B} (m : M A) (f : A → M B) : follows m → (∀ a, follows (f a)) → follows (m ≫= f).
Proof.
  intros Hm Hf s. destruct (Hm s) as (l & Hl & Hh). unfold mbind, M_bind. destruct (m s) as [[a|e] s']; [|by exists l].
  destruct (Hf a s') as (l' & Hl' & Hh'). simpl in *. exists (l ++ l'). rewrite Hl', Hl, app_assoc. split; [done|].
  by eapply history_app.
Qed.
Lemma follows_attempt {A} (m : M A) : follows m → follows (attempt m).
Proof. intros H s. destruct (H s) as (l & Hl & Hh). unfold attempt. destruct (m s) as [r s']. by exists l. Qed.
Lemma follows_wrapping {A} p (m : M A) : follows m → follows (wrapping p m).
Proof. intros H s. destruct (H s) as (l & Hl & Hh). unfold wrapping. destruct (m s) as [r s']. by exists l. Qed.
Lemma follows_when b (m : M ()) : follows m → follows (when b m).
Proof. destruct b; [done|]. intros _. apply follows_ret. Qed.

(** A run makes the calls of its log, and they explain the world it ends in. *)
Lemma follows_run {A} (m : M A) (Q : list C → result A → Prop) s :
  follows m → triple m Q →
  ∃ l, calls (m s).2 = calls s ++ l ∧ history (world s) l (world (m s).2) ∧ Q l (m s).1.
Proof.
  intros Hf Ht. destruct (Hf s) as (l & Hl & Hh). destruct (Ht s) as (l' & Hl' & Hq).
  exists l. split; [done|]. split; [done|]. rewrite Hl in Hl'. by apply app_inv_head in Hl' as ->.
Qed.
End histories.

Create HintDb calls.
#[export] Hint Resolve all_bind all_ret all_throw all_lift all_reading all_call all_attempt
  all_ignore all_wrapping all_when all_for_each : calls.

(** [walk] proves [all P m] by following the structure of [m]. *)
Ltac walk_step :=
  match goal with
  | |- all _ (_ ≫= _) => apply all_bind; [|intros ?]
  | |- all _ (mbind _ _) => apply all_bind; [|intros ?]
  | |- all _ (mret _) => apply all_ret
  | |- all _ (throw _) => apply all_throw
  | |- all _ (lift _) => apply all_lift
  | |- all _ (reading _) => apply all_reading
  | |- all _ (attempt _) => apply all_attempt
  | |- all _ (ignore _) => apply all_ignore
  | |- all _ (wrapping _ _) => apply all_wrapping
  | |- all _ (when _ _) => apply all_when
  | |- all _ (for_each _ _) => apply all_for_each; intros ?
  | |- all _ (call _ _) => apply all_call; intros ?
  | |- all _ (match ?x with _ => _ end) => destruct x eqn:?
  | |- all _ (let '(_, _) := ?x in _) => destruct x eqn:?
  end.
Ltac walk := repeat (walk_step || (progress eauto 2 with calls)).

(** The same for [follows]. *)
Ltac follow_step :=
  match goal with
  | |- follows _ (_ ≫= _) => apply follows_bind; [|intros ?]
  | |- follows _ (mbind _ _) => apply follows_bind; [|intros ?]
  | |- follows _ (mret _) => apply follows_ret
  | |- follows _ (throw _) => apply follows_throw
  | |- follows _ (lift _) => apply follows_lift
  | |- follows _ (attempt _) => apply follows_attempt
  | |- follows _ (wrapping _ _) => apply follows_wrapping
  | |- follows _ (when _ _) => apply follows_when
  | |- follows _ (call _ _) => apply follows_call; intros ?
  | |- follows _ (match ?x with _ => _ end) => destruct x eqn:?
  | |- follows _ (let '(_, _) := ?x in _) => destruct x eqn:?
  end.
Ltac follow := repeat (follow_step || (progress eauto 2 with calls)).

(** The same for [runs]; the values in between are unconstrained. *)
Ltac runs_step :=
  match goal with
  | |- runs _ _ (_ ≫= _) => eapply runs_bind; [|intros ? ?]
  | |- runs _ _ (mbind _ _) => eapply runs_bind; [|intros ? ?]
  | |- runs _ _ (mret _) => apply runs_ret
  | |- runs _ _ (throw _) => apply runs_throw
  | |- runs _ (λ _, True) _ => apply runs_all; walk
  | |- runs _ _ (match ?x with _ => _ end) => destruct x eqn:?
  | |- runs _ _ (let '(_, _) := ?x in _) => destruct x eqn:?
  end.

(** [take_step H]: split a successful run [H] of a bind into its first step and
    the rest. *)
Ltac take_step H x st Hx :=
  apply bind_Ok in H as (x & st & Hx & H).
