(* ===== verification/Ports.v ===== *)
(** * Ports of the access pipeline

    [internal/core/port] as used by the access pipeline, the audit event and
    its payload ([domain/audit.go]), and the call log.  Each port operation
    takes the state of the world behind the interfaces and returns its result
    and the next state.  The context is the request's: [ctx_Err] is what
    [ctx.Err()] reports now.  [Record] of the decision repository writes the
    identifier of the stored row through its pointer, so it returns it. *)

From S2P Require Import Prelude GoStrings Floats Json Artifact Dependency Upstream PolicyConfig.
From S2P Require Import Policy Effects.
#[local] Open Scope list_scope.

(** ** Audit events *)

Abbreviation AuditEventType := string (only parsing).
Definition AuditEventEvaluationStarted : AuditEventType := "evaluation_started".
Definition AuditEventArtifactNormalized : AuditEventType := "artifact_normalized".
Definition AuditEventReferenceResolved : AuditEventType := "reference_resolved".
Definition AuditEventDecisionCacheHit : AuditEventType := "decision_cache_hit".
Definition AuditEventDecisionCacheMiss : AuditEventType := "decision_cache_miss".
Definition AuditEventEnrichmentStarted : AuditEventType := "enrichment_started".
Definition AuditEventMetadataCacheHit : AuditEventType := "metadata_cache_hit".
Definition AuditEventMetadataCacheMiss : AuditEventType := "metadata_cache_miss".
Definition AuditEventEnrichmentFailed : AuditEventType := "enrichment_failed".
Definition AuditEventDependencyGraphContext : AuditEventType := "dependency_graph_context".
Definition AuditEventPoliciesLoaded : AuditEventType := "policies_loaded".
Definition AuditEventPolicyMatched : AuditEventType := "policy_matched".
Definition AuditEventDecisionComputed : AuditEventType := "decision_computed".
Definition AuditEventDecisionPersisted : AuditEventType := "decision_persisted".
Definition AuditEventProxyRequestReceived : AuditEventType := "proxy_request_received".
Definition AuditEventUpstreamFetchStarted : AuditEventType := "upstream_fetch_started".
Definition AuditEventUpstreamFetchFailed : AuditEventType := "upstream_fetch_failed".
Definition AuditEventRequestAllowed : AuditEventType := "request_allowed".
Definition AuditEventRequestDenied : AuditEventType := "request_denied".
Definition AuditEventRequestForwarded : AuditEventType := "request_forwarded".
Definition AuditEventError : AuditEventType := "error".

Definition AuditFailureModeFailOpen : string := "fail_open".
Definition AuditFailureModeFailClosed : string := "fail_closed".
Definition AuditDetailLevelMinimal : string := "minimal".
Definition AuditDetailLevelSummary : string := "summary".
Definition AuditDetailLevelFull : string := "full".

(** The values of [map[string]any] payloads.  [AnyTime] is a time that the code
    renders with [UTC().Format(time.RFC3339)]; [AnyJson] is a value that
    [json.Unmarshal] decoded. *)
Inductive Any : Type :=
| AnyString (s : string)
| AnyInt (z : Z)
| AnyBool (b : bool)
| AnyFloat (f : float64)
| AnyTime (t : time)
| AnyStrings (l : list string)
| AnyVulnerabilities (l : list Vulnerability)
| AnyArtifact (a : ArtifactIdentity)
| AnyReasons (l : list EvaluationReason)
| AnyMap (m : list (string * Any))
| AnyJson (j : json).

Record AuditEvent : Type := mkAuditEvent {
  ev_TenantID : string;
  ev_CorrelationID : string;
  ev_EventType : AuditEventType;
  ev_Source : string;
  ev_EntityType : string;
  ev_EntityID : string;
  ev_UpstreamID : string;
  ev_PolicyID : string;
  ev_Outcome : DecisionOutcome;
  ev_Artifact : ArtifactIdentity;
  ev_Message : string;
  ev_Payload : option (list (string * Any));
  ev_CreatedAt : time;
}.

(** [DependencyContextSummaryKey] *)
Record ContextKey : Type := mkContextKey {
  key_TenantID : string;
  key_UpstreamID : string;
  key_Artifact : ArtifactIdentity;
}.

Record DependencyGraphResolveRequest : Type := mkResolveRequest {
  rr_TenantID : string;
  rr_Upstream : Upstream;
  rr_Root : ArtifactIdentity;
  rr_RequestedAt : time;
}.

(** ** The call log: arguments and results *)

Inductive Call : Type :=
| CListPolicies (tenant : string) (r : result (list Policy))
| CDecisionRecord (d : Decision) (r : string * option error)
| CDecisionGet (tenant : string) (a : ArtifactIdentity) (hash : string) (r : result (option Decision))
| CDecisionSet (d : Decision) (ttl : Z) (r : result ())
| CMetadataGet (tenant : string) (a : ArtifactIdentity) (r : result (option ArtifactMetadata))
| CMetadataSet (tenant : string) (a : ArtifactIdentity) (m : ArtifactMetadata) (ttl : Z) (r : result ())
| CEnrich (a : ArtifactIdentity) (r : result (option ArtifactMetadata))
| CGetByEcosystem (tenant : string) (e : EcosystemType) (r : result (option Upstream))
| CResolveReference (u : Upstream) (a : ArtifactIdentity) (r : result string)
| CContextGet (k : ContextKey) (r : result (option DependencyContext))
| CContextSet (k : ContextKey) (c : DependencyContext) (ttl : Z) (r : result ())
| CLookupContext (k : ContextKey) (r : result (option DependencyContext))
| CEnqueueResolve (q : DependencyGraphResolveRequest) (r : result bool)
| CAuditRecord (e : AuditEvent) (r : result ()).

(** ** The interfaces *)

Class Ports (W : Type) : Type := {
  ctx_Err : W → option error;
  time_Now : W → time;
  policies_ListByTenant : string → W → result (list Policy) * W;
  decisions_Record : Decision → W → (string * option error) * W;
  decisionCache_Get : string → ArtifactIdentity → string → W → result (option Decision) * W;
  decisionCache_Set : Decision → Z → W → result () * W;
  metadataCache_Get : string → ArtifactIdentity → W → result (option ArtifactMetadata) * W;
  metadataCache_Set : string → ArtifactIdentity → ArtifactMetadata → Z → W → result () * W;
  enricher_Enrich : ArtifactIdentity → W → result (option ArtifactMetadata) * W;
  upstreams_GetByEcosystem : string → EcosystemType → W → result (option Upstream) * W;
  upstreamClient_ResolveReference : Upstream → ArtifactIdentity → W → result string * W;
  contextCache_Get : ContextKey → W → result (option DependencyContext) * W;
  contextCache_Set : ContextKey → DependencyContext → Z → W → result () * W;
  graphs_LookupContext : ContextKey → W → result (option DependencyContext) * W;
  queue_EnqueueResolve : DependencyGraphResolveRequest → W → result bool * W;
  recorder_Record : AuditEvent → W → result () * W;
}.

(** ** Calls through the interfaces *)

Section calls.
Context {W : Type} `{!Ports W}.
Notation M := (M W Call).

Definition ListByTenant (tenant : string) : M (list Policy) :=
  call (CListPolicies tenant) (policies_ListByTenant tenant).
Definition decision_Record (d : Decision) : M (string * option error) :=
  call (λ r, CDecisionRecord d (match r with Ok x => x | Err e => ("", Some e) end))
    (λ w, let '(x, w) := decisions_Record d w in (Ok x, w)).
Definition decision_Get (tenant : string) (a : ArtifactIdentity) (hash : string) : M (option Decision) :=
  call (CDecisionGet tenant a hash) (decisionCache_Get tenant a hash).
Definition decision_Set (d : Decision) (ttl : Z) : M () :=
  call (CDecisionSet d ttl) (decisionCache_Set d ttl).
Definition metadata_Get (tenant : string) (a : ArtifactIdentity) : M (option ArtifactMetadata) :=
  call (CMetadataGet tenant a) (metadataCache_Get tenant a).
Definition metadata_Set (tenant : string) (a : ArtifactIdentity) (m : ArtifactMetadata) (ttl : Z) : M () :=
  call (CMetadataSet tenant a m ttl) (metadataCache_Set tenant a m ttl).
Definition Enrich_call (a : ArtifactIdentity) : M (option ArtifactMetadata) :=
  call (CEnrich a) (enricher_Enrich a).
Definition GetByEcosystem (tenant : string) (e : EcosystemType) : M (option Upstream) :=
  call (CGetByEcosystem tenant e) (upstreams_GetByEcosystem tenant e).
Definition ResolveReference (u : Upstream) (a : ArtifactIdentity) : M string :=
  call (CResolveReference u a) (upstreamClient_ResolveReference u a).
Definition context_Get (k : ContextKey) : M (option DependencyContext) :=
  call (CContextGet k) (contextCache_Get k).
Definition context_Set (k : ContextKey) (c : DependencyContext) (ttl : Z) : M () :=
  call (CContextSet k c ttl) (contextCache_Set k c ttl).
Definition LookupContext (k : ContextKey) : M (option DependencyContext) :=
  call (CLookupContext k) (graphs_LookupContext k).
Definition EnqueueResolve (q : DependencyGraphResolveRequest) : M bool :=
  call (CEnqueueResolve q) (queue_EnqueueResolve q).
Definition event_Record (e : AuditEvent) : M () :=
  call (CAuditRecord e) (recorder_Record e).

Definition Now : M time := reading time_Now.
Definition ctx_error : M (option error) := reading ctx_Err.
End calls.

(** ** Which tenant a call concerns

    [None] for the calls that carry no tenant: the public package sources, and
    the registry of an upstream the caller supplied. *)
Definition call_tenant (c : Call) : option string :=
  match c with
  | CListPolicies t _ | CDecisionGet t _ _ _ | CMetadataGet t _ _ | CMetadataSet t _ _ _ _
  | CGetByEcosystem t _ _ => Some t
  | CDecisionRecord d _ | CDecisionSet d _ _ => Some (dec_TenantID d)
  | CContextGet k _ | CContextSet k _ _ _ | CLookupContext k _ => Some (key_TenantID k)
  | CEnqueueResolve q _ => Some (rr_TenantID q)
  | CAuditRecord e _ => Some (ev_TenantID e)
  | CEnrich _ _ | CResolveReference _ _ _ => None
  end.
