(* ===== verification/AuditLog.v ===== *)
(** * Audit emission

    [internal/core/service/audit.go]: whether an audit event is written, and
    what a failing audit sink does to the request. *)

From S2P Require Import Prelude GoStrings Floats Artifact Dependency Upstream PolicyConfig.
From S2P Require Import Policy Effects Ports.
#[local] Open Scope list_scope.

(** ** Definitions *)

(** [recorder]: whether one is configured. *)
Record AuditService : Type := mkAuditService {
  recorder : bool;
  enabled : bool;
  failureMode : string;
  detailLevel : string;
}.

Definition IsCanceled (e : error) : bool := errors_Is e ContextCanceled.

Definition audit_Enabled (s : option AuditService) : bool :=
  match s with Some s => enabled s | None => false end.

Definition DetailLevel (s : option AuditService) : string :=
  match s with
  | None => AuditDetailLevelSummary
  | Some s => if decide (detailLevel s = "") then AuditDetailLevelSummary else detailLevel s
  end.

Definition fill_event (now : time) (e : AuditEvent) : AuditEvent :=
  mkAuditEvent (ev_TenantID e) (ev_CorrelationID e) (ev_EventType e) (ev_Source e) (ev_EntityType e)
    (ev_EntityID e) (ev_UpstreamID e) (ev_PolicyID e) (ev_Outcome e) (ev_Artifact e) (ev_Message e)
    (Some (default [] (ev_Payload e)))
    (if decide (ev_CreatedAt e = zero_time) then now else ev_CreatedAt e).

Section audit.
Context {W : Type} `{!Ports W}.
Notation M := (M W Call).

(** [AuditService.Record], on a possibly nil service. *)
Definition audit_Record (s : option AuditService) (event : AuditEvent) : M () :=
  match s with
  | None => mret ()
  | Some s =>
      if negb (enabled s) || negb (recorder s) then mret ()
      else
        canceled ← ctx_error;
        if from_option IsCanceled false canceled then mret ()
        else
          now ← Now;
          r ← attempt (event_Record (fill_event now event));
          match r with
          | Ok _ => mret ()
          | Err e =>
              if IsCanceled e then mret ()
              else if decide (failureMode s = AuditFailureModeFailClosed)
              then throw (sentinel_error ErrAuditUnavailable)
              else mret ()
          end
  end.

(** ** Lemmas *)

(** The one event [audit_Record] can log. *)
Definition is_audit (event : AuditEvent) (c : Call) : Prop :=
  ∃ now r, c = CAuditRecord (fill_event now event) r.

Lemma audit_Record_all s event (P : Call → Prop) :
  (∀ now r, P (CAuditRecord (fill_event now event) r)) → all P (audit_Record s event).
Proof.
  intros HP. unfold audit_Record, ctx_error, Now, event_Record. walk.
Qed.

(** In fail-closed mode a successful [Record] wrote what it tried to write,
    unless the write was canceled. *)
Definition audit_durable (c : Call) : Prop :=
  match c with CAuditRecord _ (Err e) => IsCanceled e = true | _ => True end.

Lemma audit_Record_durable s event :
  failureMode s = AuditFailureModeFailClosed →
  triple (audit_Record (Some s) event) (λ l r, is_ok r = true → Forall audit_durable l).
Proof.
  intros Hf. unfold audit_Record. destruct (_ || _); [apply triple_ret; by constructor|].
  eapply triple_bind with (λ l r, l = []); [by apply triple_reading| |by intros].
  intros ? canceled ->. simpl. destruct (from_option _ _ _); [apply triple_ret; by constructor|].
  eapply triple_bind with (λ l r, l = []); [by apply triple_reading| |by intros].
  intros ? now ->. simpl.
  eapply triple_bind with (λ l r, ∃ r', r = Ok r' ∧ l = [CAuditRecord (fill_event now event) r']).
  - apply triple_attempt, triple_call. eauto.
  - intros l r (r' & [= <-] & ->). destruct r as [[]|e]; [apply triple_ret; by repeat constructor|].
    destruct (IsCanceled e) eqn:E; [apply triple_ret; by repeat constructor|].
    rewrite decide_True by done. by apply triple_throw.
  - intros l e (r' & [=] & _).
Qed.
End audit.
#[export] Hint Resolve audit_Record_all : calls.

(** ** Properties *)

(** What the audit sink can do to a request.  [Record] fails only in
    fail-closed mode, only with [ErrAuditUnavailable], and exactly when the
    service is active, the request is not canceled and the sink reports an
    error other than cancellation; in every other case it succeeds, and it never
    calls the sink more than once. *)
Theorem audit_Record_spec {W} `{!Ports W} s event (st : St W Call) :
  let w := world st in
  let wrote := recorder_Record (fill_event (time_Now w) event) w in
  let active := enabled s && recorder s && negb (from_option IsCanceled false (ctx_Err w)) in
  audit_Record (Some s) event st =
    if active then
      ((match wrote.1 with
        | Ok _ => Ok ()
        | Err e => if negb (IsCanceled e) && bool_decide (failureMode s = AuditFailureModeFailClosed)
                   then Err (sentinel_error ErrAuditUnavailable) else Ok ()
        end), mkSt wrote.2 (calls st ++ [CAuditRecord (fill_event (time_Now w) event) wrote.1]))
    else (Ok (), st).
Proof.
  simpl. unfold audit_Record.
  destruct (enabled s), (recorder s); simpl; try done.
  unfold mbind, M_bind, ctx_error, Now, reading. simpl.
  destruct (from_option IsCanceled false (ctx_Err (world st))); [done|]. simpl.
  unfold attempt, event_Record, call.
  destruct (recorder_Record _ _) as [[[]|e] w']; simpl; [done|].
  destruct (IsCanceled e); [done|]. simpl. unfold throw, mret, M_ret.
  case_decide; case_bool_decide; done.
Qed.
