(* ===== verification/Enrichment.v ===== *)
(** * Enrichment and dependency context

    [internal/core/service/enrichment.go] and [dependency_context.go]: metadata
    with a read-through cache that fails open, and graph evidence with a cache,
    a store and an asynchronous resolve queue. *)

From S2P Require Import Prelude GoStrings Floats Artifact Dependency Upstream PolicyConfig.
From S2P Require Import Policy Effects Ports AuditLog.
#[local] Open Scope list_scope.

(** ** Definitions *)

Definition minute_ns : Z := 60000000000.
Definition hour_ns : Z := 60 * minute_ns.
Definition mutableRefTTL : Z := 1 * hour_ns.
Definition immutableRefTTL : Z := 24 * hour_ns.
Definition dependencyContextCacheTTL : Z := 30 * minute_ns.

(** An event with the fields every event of the pipeline sets. *)
Definition base_event (tenant correlation : string) (type : AuditEventType) (source upstreamID : string)
    (a : ArtifactIdentity) (message : string) (payload : option (list (string * Any))) : AuditEvent :=
  mkAuditEvent tenant correlation type source "" "" upstreamID "" "" a message payload zero_time.

Definition metadataCacheAuditEvent (tenant correlation : string) (a : ArtifactIdentity)
    (type : AuditEventType) (message : string) : AuditEvent :=
  base_event tenant correlation type "core/enrichment" "" a message None.

(** [EnrichmentService]: its only optional part is the audit service. *)
Record EnrichmentService : Type := mkEnrichment { enr_audit : option AuditService }.

Definition cacheTTL (a : ArtifactIdentity) : Z :=
  if decide (Digest a ≠ "") then immutableRefTTL else mutableRefTTL.

(** Which parts of [DependencyContextService] are configured. *)
Record DependencyContextService : Type := mkContextService {
  has_cache : bool;
  has_graphs : bool;
  has_queue : bool;
}.

Definition dependencyContextKey (req : AccessRequest) : ContextKey :=
  mkContextKey (req_TenantID req) (up_ID (req_Upstream req)) (req_Artifact req).

Definition shouldEnqueueDependencyGraphRoot (req : AccessRequest) : bool :=
  bool_decide (req_Kind req ≠ AccessRequestKindNPMTarball).

Section enrichment.
Context {W : Type} `{!Ports W}.
Notation M := (M W Call).

(** *** enrichment.go *)

(** [Some m] is a hit. *)
Definition lookupCachedMetadata (s : EnrichmentService) (tenant correlation : string)
    (a : ArtifactIdentity) : M (option ArtifactMetadata) :=
  cached ← attempt (metadata_Get tenant a);
  match cached with
  | Ok (Some m) =>
      _ ← audit_Record (enr_audit s) (metadataCacheAuditEvent tenant correlation a
            AuditEventMetadataCacheHit "metadata cache hit");
      mret (Some m)
  | _ =>
      _ ← audit_Record (enr_audit s) (metadataCacheAuditEvent tenant correlation a
            AuditEventMetadataCacheMiss "metadata cache miss");
      mret None
  end.

Definition queryEnrichmentSources (s : EnrichmentService) (tenant correlation : string)
    (a : ArtifactIdentity) : M (option ArtifactMetadata) :=
  metadata ← attempt (Enrich_call a);
  match metadata with
  | Ok metadata => mret metadata
  | Err e =>
      _ ← audit_Record (enr_audit s) (base_event tenant correlation AuditEventEnrichmentFailed
            "core/enrichment" "" a "artifact enrichment failed" (Some [("error", AnyString (error_msg e))]));
      mret None
  end.

Definition storeCachedMetadata (tenant : string) (a : ArtifactIdentity) (m : ArtifactMetadata) : M () :=
  ignore (metadata_Set tenant a m (cacheTTL a)).

Definition EnrichWithCorrelation (s : EnrichmentService) (tenant correlation : string)
    (a : ArtifactIdentity) : M (option ArtifactMetadata) :=
  cached ← lookupCachedMetadata s tenant correlation a;
  match cached with
  | Some m => mret (Some m)
  | None =>
      metadata ← queryEnrichmentSources s tenant correlation a;
      match metadata with
      | Some m => _ ← storeCachedMetadata tenant a m; mret (Some m)
      | None => mret None
      end
  end.

(** *** dependency_context.go *)

Definition lookupCachedContext (s : DependencyContextService) (key : ContextKey)
    : M (option DependencyContext) :=
  if negb (has_cache s) then mret None
  else
    cached ← attempt (context_Get key);
    match cached with
    | Ok (Some c) => mret (Some (context_Normalize c))
    | Ok None => throw nil_deref
    | Err _ => mret None
    end.

Definition cacheStoredContext (s : DependencyContextService) (key : ContextKey)
    (c : DependencyContext) : M () :=
  when (has_cache s) (ignore (context_Set key c dependencyContextCacheTTL)).

Definition lookupStoredContext (s : DependencyContextService) (key : ContextKey)
    : M (option DependencyContext) :=
  if negb (has_graphs s) then mret None
  else
    stored ← attempt (LookupContext key);
    match stored with
    | Err e =>
        if errors_Is e ErrArtifactNotFound then mret None
        else throw (wrap_error "looking up dependency context: " e)
    | Ok None => throw nil_deref
    | Ok (Some c) =>
        let normalized := context_Normalize c in
        _ ← cacheStoredContext s key normalized; mret (Some normalized)
    end.

Definition enqueueDependencyGraphRoot (s : DependencyContextService) (req : AccessRequest) : M bool :=
  if negb (shouldEnqueueDependencyGraphRoot req) then mret false
  else if negb (has_queue s) then mret false
  else
    now ← Now;
    queued ← attempt (EnqueueResolve
      (mkResolveRequest (req_TenantID req) (req_Upstream req) (req_Artifact req) now));
    match queued with Ok q => mret q | Err _ => mret false end.

Definition Resolve (s : option DependencyContextService) (req : AccessRequest)
    : M (DependencyContext * bool) :=
  match s with
  | None => mret (NewUnknownDependencyContext, false)
  | Some s =>
      let key := dependencyContextKey req in
      cached ← lookupCachedContext s key;
      match cached with
      | Some c => mret (c, false)
      | None =>
          stored ← lookupStoredContext s key;
          match stored with
          | Some c => mret (c, false)
          | None =>
              enqueued ← enqueueDependencyGraphRoot s req;
              mret (NewUnknownDependencyContext, enqueued)
          end
      end
  end.

(** ** Lemmas *)

Section all.
Context (P : Call → Prop).

Lemma EnrichWithCorrelation_all s tenant correlation a :
  (∀ r, P (CMetadataGet tenant a r)) → (∀ m ttl r, P (CMetadataSet tenant a m ttl r)) →
  (∀ r, P (CEnrich a r)) →
  (∀ e r, ev_TenantID e = tenant → P (CAuditRecord e r)) →
  all P (EnrichWithCorrelation s tenant correlation a).
Proof.
  intros H1 H2 H3 H4.
  unfold EnrichWithCorrelation, lookupCachedMetadata, queryEnrichmentSources, storeCachedMetadata,
    metadata_Get, metadata_Set, Enrich_call.
  walk; try apply audit_Record_all; intros; auto.
Qed.

Lemma Resolve_all s req :
  (∀ k r, key_TenantID k = req_TenantID req → P (CContextGet k r)) →
  (∀ k c ttl r, key_TenantID k = req_TenantID req → P (CContextSet k c ttl r)) →
  (∀ k r, key_TenantID k = req_TenantID req → P (CLookupContext k r)) →
  (∀ q r, rr_TenantID q = req_TenantID req → P (CEnqueueResolve q r)) →
  all P (Resolve s req).
Proof.
  intros H1 H2 H3 H4.
  unfold Resolve, lookupCachedContext, lookupStoredContext, cacheStoredContext,
    enqueueDependencyGraphRoot, context_Get, context_Set, LookupContext, EnqueueResolve, Now.
  walk; auto.
Qed.
End all.
End enrichment.
