(* ===== verification/Access.v ===== *)
(** * The access-evaluation pipeline

    [internal/core/service/proxy*.go]: [AccessService.Evaluate], the path of
    every proxied request from normalisation to a cached, recorded and audited
    decision.  Tracing spans and log lines are left out; everything that can
    change the result or the state of a collaborator is kept, in order. *)

From S2P Require Import Prelude GoStrings Floats Artifact Dependency Upstream PolicyConfig.
From S2P Require Import Policy Conditions Catalog Evaluator PolicyHash Effects Ports AuditLog Enrichment.
#[local] Open Scope list_scope.

(** ** Definitions *)

Definition mutableDecisionTTL : Z := 5 * minute_ns.
Definition immutableDecisionTTL : Z := 1 * hour_ns.

Record AccessService : Type := mkAccess {
  acc_audit : option AuditService;
  acc_enrichment : EnrichmentService;
  acc_dependencies : option DependencyContextService;
}.

(** *** proxy_policy.go *)

Definition filterPoliciesForUpstream (policies : list Policy) (upstreamID : string) : list Policy :=
  if decide (upstreamID = "") then policies
  else filter (λ p, pol_UpstreamID p = "" ∨ pol_UpstreamID p = upstreamID) policies.

Definition needsEnrichment (policies : list Policy) : bool :=
  existsb (λ p, pol_Enabled p && RequiresExternalMetadata (pol_Type p)) policies.

Definition needsDependencyContext (policies : list Policy) : bool :=
  existsb (λ p, pol_Enabled p && bool_decide (pol_Target p ≠ None)) policies.

Definition isUnversionedNPMArtifact (a : ArtifactIdentity) : bool :=
  bool_decide (Ecosystem a = EcosystemNPM ∧ Version a = "").

Definition shouldEnrichArtifact (req : AccessRequest) (policies : list Policy) : bool :=
  if isUnversionedNPMArtifact (req_Artifact req) then false else needsEnrichment policies.

Definition shouldCacheDecision (req : AccessRequest) : bool :=
  negb (isUnversionedNPMArtifact (req_Artifact req)).

Definition shouldPersistDecision (req : AccessRequest) (d : Decision) : bool :=
  negb (isUnversionedNPMArtifact (req_Artifact req) && bool_decide (dec_Outcome d = DecisionAllow)).

Definition shouldResolveDependencyContext (req : AccessRequest) (policies : list Policy) : bool :=
  bool_decide (Ecosystem (req_Artifact req) = EcosystemNPM) &&
  bool_decide (Version (req_Artifact req) ≠ "") &&
  negb (IsNPMDistTag (req_Artifact req)) && needsDependencyContext policies.

Definition decisionTTL (a : ArtifactIdentity) : Z :=
  if IsMutableReference a then mutableDecisionTTL else immutableDecisionTTL.

(** *** payloads *)

Definition dependencyContextSummary (c : option DependencyContext) : Any :=
  match c with
  | None => AnyMap [("available", AnyBool false)]
  | Some c =>
      let n := context_Normalize c in
      AnyMap [("available", AnyBool true); ("scope", AnyString (Scope n));
              ("dependency_types", AnyStrings (ctx_DependencyTypes n));
              ("graph_ids", AnyStrings (GraphIDs n)); ("context_hash", AnyString (ContextHash n))]
  end.

Definition metadataSummary (s : AccessService) (m : option ArtifactMetadata) : Any :=
  match m with
  | None => AnyMap [("available", AnyBool false)]
  | Some m =>
      AnyMap ([("available", AnyBool true);
               ("license_count", AnyInt (Z.of_nat (length (meta_Licenses m))));
               ("vulnerability_count", AnyInt (Z.of_nat (length (Vulnerabilities m))));
               ("mutable_tag_detected", AnyBool (IsMutableTag m))] ++
              match PublishedAt m with Some t => [("published_at", AnyTime t)] | None => [] end ++
              match meta_MaxCVSS m with Some v => [("max_cvss", AnyFloat v)] | None => [] end ++
              (if decide (is_Some (acc_audit s) ∧ DetailLevel (acc_audit s) = AuditDetailLevelFull)
               then [("licenses", AnyStrings (meta_Licenses m));
                     ("vulnerabilities", AnyVulnerabilities (Vulnerabilities m))]
               else []))
  end.

(** An event about the request, with source [core/access]. *)
Definition request_event (req : AccessRequest) (type : AuditEventType) (upstreamID message : string)
    (payload : option (list (string * Any))) : AuditEvent :=
  base_event (req_TenantID req) (req_RequestID req) type "core/access" upstreamID
    (req_Artifact req) message payload.

(** An event about a decision on the request. *)
Definition decision_event (req : AccessRequest) (type : AuditEventType) (entityType entityID policyID : string)
    (outcome : DecisionOutcome) (a : ArtifactIdentity) (message : string)
    (payload : option (list (string * Any))) : AuditEvent :=
  mkAuditEvent (req_TenantID req) (req_RequestID req) type "core/access" entityType entityID
    (up_ID (req_Upstream req)) policyID outcome a message payload zero_time.

Definition error_payload (stage : string) (e : error) : option (list (string * Any)) :=
  Some [("stage", AnyString stage); ("error", AnyString (error_msg e))].

Definition applyMutableTagMetadata (wasMutableTag : bool) (req : AccessRequest) : AccessRequest :=
  if wasMutableTag then
    let m := default empty_metadata (req_Metadata req) in
    set_req_Metadata (Some (mkMetadata (PublishedAt m) (meta_MaxCVSS m) (meta_Licenses m)
      (Vulnerabilities m) true (meta_SourceRepository m) (meta_Scorecard m))) req
  else req.

Definition dependencyContextCacheHash (c : option DependencyContext) : string :=
  match c with None => "" | Some c => ContextHash (context_Normalize c) end.

Definition invalid_decision (now : time) (req : AccessRequest) (e : error) : Decision :=
  mkDecision "" (req_TenantID req) (req_Artifact req) DecisionDeny "" "" None
    "invalid policy configuration"
    [mkReason "" "" ReasonCategoryEvaluationError PolicyActionDeny (error_msg e)] [] None now.

Definition set_dec_ID (i : string) (d : Decision) : Decision :=
  mkDecision i (dec_TenantID d) (dec_Artifact d) (dec_Outcome d) (dec_PolicyID d) (dec_PolicyHash d)
    (dec_DependencyContext d) (dec_Reason d) (dec_Reasons d) (dec_Warnings d) (dec_CachedAt d)
    (dec_EvaluatedAt d).

(** What [preparePolicySet] returns: a policy set, or the denial it settled on. *)
Inductive prepared : Type :=
| Prepared (effectivePolicies : list Policy) (hash : string)
| Denied (d : Decision).

Section access.
Context {W : Type} `{!Ports W}.
Notation M := (M W Call).
Context (s : AccessService).

Definition recordAudit (e : AuditEvent) : M () := audit_Record (acc_audit s) e.

(** *** proxy_lookup.go *)

Definition normalizeAccessRequest (req : AccessRequest) : M AccessRequest :=
  _ ← recordAudit (request_event req AuditEventEvaluationStarted (up_ID (req_Upstream req))
        "evaluation started" None);
  match NormalizeArtifactIdentity (req_Artifact req) with
  | Err e =>
      _ ← ignore (recordAudit (request_event req AuditEventError (up_ID (req_Upstream req))
            "artifact normalization failed" (error_payload "normalize_artifact" e)));
      throw (wrap_error "normalizing artifact: " e)
  | Ok normalized =>
      let original := req_Artifact req in
      let req := set_req_Artifact normalized req in
      _ ← recordAudit (request_event req AuditEventArtifactNormalized (up_ID (req_Upstream req))
            "artifact normalized" (Some [("original_artifact", AnyArtifact original)]));
      mret req
  end.

(** [upstream := req.Upstream], or the tenant's upstream of the ecosystem when
    the request names none; [None] when there is none to be had. *)
Definition upstream_for (req : AccessRequest) (e : EcosystemType) : M (option Upstream) :=
  if decide (up_ID (req_Upstream req) = "") then
    up ← attempt (GetByEcosystem (req_TenantID req) e);
    match up with
    | Err _ => mret None
    | Ok None => throw nil_deref
    | Ok (Some u) => mret (Some u)
    end
  else mret (Some (req_Upstream req)).

Definition resolveMutableOCIReference (req : AccessRequest) : M (AccessRequest * bool) :=
  if decide (Ecosystem (req_Artifact req) ≠ EcosystemOCI ∨ IsMutableReference (req_Artifact req) = false)
  then mret (req, false)
  else
    upstream ← upstream_for req EcosystemOCI;
    let upstream := default (req_Upstream req) upstream in
    if decide (up_ID upstream = "") then mret (req, true)
    else
      digest ← attempt (ResolveReference upstream (req_Artifact req));
      match digest with
      | Err e =>
          _ ← ignore (recordAudit (request_event req AuditEventError (up_ID upstream)
                "reference resolution failed" (error_payload "resolve_reference" e)));
          mret (req, true)
      | Ok digest =>
          let req := set_req_Artifact (set_Digest digest (req_Artifact req)) req in
          _ ← recordAudit (request_event req AuditEventReferenceResolved (up_ID upstream)
                "mutable OCI reference resolved to digest" (Some [("resolved_digest", AnyString digest)]));
          mret (req, true)
      end.

Definition resolveMutableNPMReference (req : AccessRequest) : M AccessRequest :=
  if negb (IsNPMDistTag (req_Artifact req)) then mret req
  else
    upstream ← upstream_for req EcosystemNPM;
    match upstream with
    | None => mret req
    | Some upstream =>
        version ← attempt (ResolveReference upstream (req_Artifact req));
        match version with
        | Err e =>
            _ ← ignore (recordAudit (request_event req AuditEventError (up_ID upstream)
                  "reference resolution failed" (error_payload "resolve_reference" e)));
            mret req
        | Ok version =>
            let distTag := Version (req_Artifact req) in
            let req := set_req_Artifact (set_Version version (req_Artifact req)) req in
            _ ← recordAudit (request_event req AuditEventReferenceResolved (up_ID upstream)
                  "npm dist-tag resolved to version"
                  (Some [("dist_tag", AnyString distTag); ("resolved_version", AnyString version)]));
            mret req
        end
    end.

Definition useCachedDecision (req : AccessRequest) (cached : Decision) : M Decision :=
  now ← Now;
  let cached := set_CachedAt (Some now) cached in
  _ ← recordAudit (decision_event req AuditEventDecisionCacheHit "" "" (dec_PolicyID cached)
        (dec_Outcome cached) (req_Artifact req) "decision cache hit"
        (Some [("dependency_context", dependencyContextSummary (req_DependencyContext req))]));
  mret cached.

Definition lookupCachedDecision (req : AccessRequest) : M (option Decision) :=
  if negb (shouldCacheDecision req) then mret None
  else
    cached ← attempt (decision_Get (req_TenantID req) (req_Artifact req)
               (dependencyContextCacheHash (req_DependencyContext req)));
    match cached with
    | Ok (Some cached) => d ← useCachedDecision req cached; mret (Some d)
    | Ok None => throw nil_deref
    | Err e =>
        if negb (errors_Is e ErrCacheMiss) then
          _ ← ignore (recordAudit (request_event req AuditEventError (up_ID (req_Upstream req))
                "decision cache lookup failed" (error_payload "decision_cache_lookup" e)));
          mret None
        else
          _ ← recordAudit (request_event req AuditEventDecisionCacheMiss (up_ID (req_Upstream req))
                "decision cache miss"
                (Some [("dependency_context", dependencyContextSummary (req_DependencyContext req))]));
          mret None
    end.

(** *** proxy_dependency.go *)

Definition attachDependencyContext (req : AccessRequest) (policies : list Policy) : M AccessRequest :=
  if negb (shouldResolveDependencyContext req policies) then mret req
  else
    '(c, enqueued) ← Resolve (acc_dependencies s) req;
    let c := context_Normalize c in
    let req := set_req_DependencyContext (Some c) req in
    let message :=
      if enqueued : bool then "dependency graph miss; resolver request enqueued"
      else if decide (Scope c = DependencyScopeUnknown) then "dependency graph context unknown"
      else "dependency graph context hit" in
    _ ← recordAudit (request_event req AuditEventDependencyGraphContext (up_ID (req_Upstream req)) message
          (Some [("stage", AnyString "dependency_context");
                 ("dependency_context", dependencyContextSummary (Some c));
                 ("resolver_enqueued", AnyBool enqueued)]));
    mret req.

(** *** proxy_enrichment.go *)

Definition enrichArtifact (req : AccessRequest) : M (option ArtifactMetadata) :=
  _ ← recordAudit (request_event req AuditEventEnrichmentStarted (up_ID (req_Upstream req))
        "artifact enrichment started" None);
  metadata ← attempt (EnrichWithCorrelation (acc_enrichment s) (req_TenantID req) (req_RequestID req)
                        (req_Artifact req));
  match metadata with
  | Ok metadata => mret metadata
  | Err e =>
      _ ← ignore (recordAudit (request_event req AuditEventError (up_ID (req_Upstream req))
            "artifact enrichment failed" (error_payload "enrichment" e)));
      throw (wrap_error "enriching artifact: " e)
  end.

(** *** proxy_invalid.go *)

Definition denyForInvalidPolicySet (req : AccessRequest) (validationErr : error) : M Decision :=
  _ ← ignore (recordAudit (request_event req AuditEventError (up_ID (req_Upstream req))
        "invalid policy set" (error_payload "validate_policies" validationErr)));
  now ← Now;
  let decision := invalid_decision now req validationErr in
  _ ← when (shouldCacheDecision req) (ignore (decision_Set decision (decisionTTL (req_Artifact req))));
  '(id, recordErr) ← decision_Record decision;
  let decision := set_dec_ID id decision in
  match recordErr with
  | None => mret decision
  | Some e =>
      _ ← ignore (recordAudit (decision_event req AuditEventError "" "" "" (dec_Outcome decision)
            (dec_Artifact decision) "invalid-policy decision persistence failed"
            (error_payload "persist_invalid_policy_decision" e)));
      mret decision
  end.

(** *** proxy.go *)

Definition preparePolicySet (req : AccessRequest) : M prepared :=
  loaded ← attempt (ListByTenant (req_TenantID req));
  match loaded with
  | Err e =>
      if errors_Is e ErrDeprecatedPolicyConfig then Denied <$> denyForInvalidPolicySet req e
      else
        _ ← ignore (recordAudit (request_event req AuditEventError (up_ID (req_Upstream req))
              "policy load failed" (error_payload "load_policies" e)));
        throw (wrap_error "loading policies: " e)
  | Ok policies =>
      match ValidatePolicies policies with
      | Err e => Denied <$> denyForInvalidPolicySet req e
      | Ok policies =>
          let effectivePolicies := filterPoliciesForUpstream policies (up_ID (req_Upstream req)) in
          match HashPolicies effectivePolicies with
          | Err e => Denied <$> denyForInvalidPolicySet req e
          | Ok policyHash =>
              _ ← recordAudit (request_event req AuditEventPoliciesLoaded (up_ID (req_Upstream req))
                    "policies loaded for evaluation"
                    (Some [("tenant_policy_count", AnyInt (Z.of_nat (length policies)));
                           ("effective_policy_count", AnyInt (Z.of_nat (length effectivePolicies)));
                           ("policy_hash", AnyString policyHash)]));
              mret (Prepared effectivePolicies policyHash)
          end
      end
  end.

(** [metadata] is what enrichment returned; [req] carries it with the
    mutable-tag flag. *)
Definition evaluatePolicies (req : AccessRequest) (policies : list Policy) (policyHash : string)
    (metadata : option ArtifactMetadata) : M Decision :=
  now ← Now;
  let decision := set_PolicyHash_Context policyHash (context_Normalize <$> req_DependencyContext req)
                    (Evaluator.Evaluate now req policies) in
  _ ← for_each (λ reason,
        recordAudit (decision_event req AuditEventPolicyMatched "" "" (rsn_PolicyID reason)
          (dec_Outcome decision) (req_Artifact req) (rsn_Message reason)
          (Some [("policy_name", AnyString (rsn_PolicyName reason));
                 ("category", AnyString (rsn_Category reason));
                 ("action", AnyString (rsn_Action reason))]))) (dec_Reasons decision);
  _ ← when (shouldPersistDecision req decision)
        (recordAudit (decision_event req AuditEventDecisionComputed "" "" (dec_PolicyID decision)
          (dec_Outcome decision) (dec_Artifact decision) "decision computed"
          (Some [("reason", AnyString (dec_Reason decision));
                 ("warnings", AnyStrings (dec_Warnings decision));
                 ("reason_count", AnyInt (Z.of_nat (length (dec_Reasons decision))));
                 ("metadata_available", AnyBool (bool_decide (metadata ≠ None)));
                 ("metadata_summary", metadataSummary s metadata);
                 ("dependency_context", dependencyContextSummary (dec_DependencyContext decision))])));
  mret decision.

Definition finalizeDecision (req : AccessRequest) (decision : Decision) : M Decision :=
  _ ← when (shouldCacheDecision req) (ignore (decision_Set decision (decisionTTL (req_Artifact req))));
  if negb (shouldPersistDecision req decision) then mret decision
  else
    '(id, recordErr) ← decision_Record decision;
    let decision := set_dec_ID id decision in
    match recordErr with
    | Some e =>
        _ ← ignore (recordAudit (decision_event req AuditEventError "" "" (dec_PolicyID decision)
              (dec_Outcome decision) (dec_Artifact decision) "decision persistence failed"
              (error_payload "persist_decision" e)));
        mret decision
    | None =>
        _ ← recordAudit (decision_event req AuditEventDecisionPersisted "decision" (dec_ID decision)
              (dec_PolicyID decision) (dec_Outcome decision) (dec_Artifact decision) "decision persisted"
              (Some [("policy_hash", AnyString (dec_PolicyHash decision));
                     ("dependency_context", dependencyContextSummary (dec_DependencyContext decision))]));
        mret decision
    end.

(** The metadata the evaluator sees and the metadata enrichment returned; they
    share one object, so the mutable-tag flag shows in both. *)
Definition enrich_request (req : AccessRequest) (policies : list Policy) (wasMutableTag : bool)
    : M (AccessRequest * option ArtifactMetadata) :=
  if shouldEnrichArtifact req policies then
    metadata ← enrichArtifact req;
    let req := applyMutableTagMetadata wasMutableTag (set_req_Metadata metadata req) in
    mret (req, match metadata with None => None | Some _ => req_Metadata req end)
  else mret (applyMutableTagMetadata wasMutableTag req, None).

Definition Evaluate (req : AccessRequest) : M Decision :=
  req ← normalizeAccessRequest req;
  '(req, wasMutableTag) ← resolveMutableOCIReference req;
  req ← resolveMutableNPMReference req;
  policySet ← preparePolicySet req;
  match policySet with
  | Denied invalidDecision => mret invalidDecision
  | Prepared effectivePolicies hash =>
      req ← attachDependencyContext req effectivePolicies;
      cached ← lookupCachedDecision req;
      match cached with
      | Some d => mret d
      | None =>
          '(req, metadata) ← enrich_request req effectivePolicies wasMutableTag;
          decision ← evaluatePolicies req effectivePolicies hash metadata;
          finalizeDecision req decision
      end
  end.
End access.

(** ** Lemmas *)

(** *** Tenants *)

(** The call concerns tenant [t], or no tenant at all. *)
Definition for_tenant (t : string) (c : Call) : Prop :=
  match call_tenant c with Some t' => t' = t | None => True end.

Lemma Evaluate_tenant_fields now req ps :
  dec_TenantID (Evaluator.Evaluate now req ps) = req_TenantID req ∧
  dec_Artifact (Evaluator.Evaluate now req ps) = req_Artifact req.
Proof. unfold Evaluator.Evaluate, decision. by destruct (hasDeny _), (reasons _). Qed.

(** [req'] is the request [req] with another artifact, metadata or context. *)
Definition same_request (req req' : AccessRequest) : Prop :=
  req_TenantID req' = req_TenantID req ∧ req_RequestID req' = req_RequestID req ∧
  req_Kind req' = req_Kind req ∧ req_Upstream req' = req_Upstream req ∧
  req_Timestamp req' = req_Timestamp req.

Lemma same_request_refl req : same_request req req.
Proof. done. Qed.
Lemma same_request_trans r1 r2 r3 : same_request r1 r2 → same_request r2 r3 → same_request r1 r3.
Proof. unfold same_request. intuition congruence. Qed.
#[local] Hint Resolve same_request_refl : core.

Lemma same_request_mutable b req : same_request req (applyMutableTagMetadata b req).
Proof. by destruct b. Qed.
#[local] Hint Resolve same_request_mutable : core.

Section lemmas.
Context {W : Type} `{!Ports W} (s : AccessService).
Notation M := (M W Call).

(** The calls of a step, under any property [P] that holds of the tenant's
    calls: used for tenant isolation and for the absence of side effects. *)
Section steps.
Context (P : Call → Prop) (t : string).
Context (HA : ∀ e r, ev_TenantID e = t → P (CAuditRecord e r)).

Lemma recordAudit_all e : ev_TenantID e = t → all P (recordAudit s e).
Proof. intros He. apply audit_Record_all. intros now r. by apply HA. Qed.

Lemma normalize_runs req :
  req_TenantID req = t →
  runs P (λ req', ∃ a, NormalizeArtifactIdentity (req_Artifact req) = Ok a ∧ req' = set_req_Artifact a req)
    (normalizeAccessRequest s req).
Proof.
  intros Ht. unfold normalizeAccessRequest.
  eapply runs_bind; [by apply runs_all, recordAudit_all|]. intros _ _.
  destruct (NormalizeArtifactIdentity _) as [a|e].
  - eapply runs_bind; [by apply runs_all, recordAudit_all|]. intros _ _. apply runs_ret. eauto.
  - eapply runs_bind; [by apply runs_all, all_ignore, recordAudit_all|]. intros _ _. apply runs_throw.
Qed.

Context (HU : ∀ e r, P (CGetByEcosystem t e r)) (HR : ∀ u a r, P (CResolveReference u a r)).

Lemma upstream_for_all req e : req_TenantID req = t → all P (upstream_for req e).
Proof. intros <-. unfold upstream_for, GetByEcosystem. walk. Qed.

Lemma resolveOCI_runs req :
  req_TenantID req = t →
  runs P (λ rb, rb = (req, false) ∨ rb = (req, true) ∨
            ∃ d, rb = (set_req_Artifact (set_Digest d (req_Artifact req)) req, true))
    (resolveMutableOCIReference s req).
Proof.
  intros Ht. unfold resolveMutableOCIReference. case_decide; [apply runs_ret; auto|].
  eapply runs_bind; [by apply runs_all, upstream_for_all|]. intros up _.
  case_decide; [apply runs_ret; auto|].
  eapply runs_bind; [apply runs_all, all_attempt, all_call; intros; apply HR|]. intros [d|e] _.
  - eapply runs_bind; [by apply runs_all, recordAudit_all|]. intros _ _. apply runs_ret. eauto.
  - eapply runs_bind; [by apply runs_all, all_ignore, recordAudit_all|]. intros _ _. apply runs_ret. auto.
Qed.

Lemma resolveNPM_runs req :
  req_TenantID req = t →
  runs P (λ req', req' = req ∨ ∃ v, req' = set_req_Artifact (set_Version v (req_Artifact req)) req)
    (resolveMutableNPMReference s req).
Proof.
  intros Ht. unfold resolveMutableNPMReference. destruct (negb _); [apply runs_ret; auto|].
  eapply runs_bind; [by apply runs_all, upstream_for_all|]. intros [up|] _; [|apply runs_ret; auto].
  eapply runs_bind; [apply runs_all, all_attempt, all_call; intros; apply HR|]. intros [v|e] _.
  - eapply runs_bind; [by apply runs_all, recordAudit_all|]. intros _ _. apply runs_ret. eauto.
  - eapply runs_bind; [by apply runs_all, all_ignore, recordAudit_all|]. intros _ _. apply runs_ret. auto.
Qed.

Context (HC1 : ∀ k r, key_TenantID k = t → P (CContextGet k r)).
Context (HC2 : ∀ k c ttl r, key_TenantID k = t → P (CContextSet k c ttl r)).
Context (HC3 : ∀ k r, key_TenantID k = t → P (CLookupContext k r)).
Context (HC4 : ∀ q r, rr_TenantID q = t → P (CEnqueueResolve q r)).

Lemma attach_runs req ps :
  req_TenantID req = t →
  runs P (λ req', req' = req ∨ ∃ c, req' = set_req_DependencyContext (Some (context_Normalize c)) req)
    (attachDependencyContext s req ps).
Proof.
  intros Ht. unfold attachDependencyContext. destruct (negb _); [apply runs_ret; auto|].
  eapply runs_bind; [apply runs_all, Resolve_all; rewrite Ht; auto|]. intros [c enqueued] _.
  eapply runs_bind; [by apply runs_all, recordAudit_all|]. intros _ _. apply runs_ret. eauto.
Qed.

Context (HG : ∀ a h r, P (CDecisionGet t a h r)).

Lemma lookup_runs req :
  req_TenantID req = t → runs P (λ _, True) (lookupCachedDecision s req).
Proof.
  intros Ht. apply runs_all. unfold lookupCachedDecision, useCachedDecision, decision_Get, Now.
  walk; try (by apply recordAudit_all). rewrite ?Ht. apply HG.
Qed.

Context (HM1 : ∀ a r, P (CMetadataGet t a r)) (HM2 : ∀ a m ttl r, P (CMetadataSet t a m ttl r)).
Context (HE : ∀ a r, P (CEnrich a r)).

Lemma enrich_runs req ps b :
  req_TenantID req = t →
  runs P (λ rm, ∃ m, rm.1 = applyMutableTagMetadata b (set_req_Metadata m req)) (enrich_request s req ps b).
Proof.
  intros Ht. unfold enrich_request. destruct (shouldEnrichArtifact req ps).
  - eapply runs_bind.
    + apply runs_all. unfold enrichArtifact. walk; try (by apply recordAudit_all).
      apply EnrichWithCorrelation_all; rewrite ?Ht; auto.
    + intros m _. apply runs_ret. eauto.
  - apply runs_ret. exists (req_Metadata req). by destruct req.
Qed.

Lemma evaluatePolicies_runs req ps h m :
  req_TenantID req = t →
  runs P (λ d, ∃ now, d = set_PolicyHash_Context h (context_Normalize <$> req_DependencyContext req)
                            (Evaluator.Evaluate now req ps))
    (evaluatePolicies s req ps h m).
Proof.
  intros Ht. unfold evaluatePolicies.
  eapply runs_bind; [apply runs_all, all_reading|]. intros now _.
  eapply runs_bind; [by apply runs_all, all_for_each; intros; apply recordAudit_all|]. intros _ _.
  eapply runs_bind; [by apply runs_all, all_when, recordAudit_all|]. intros _ _.
  apply runs_ret. eauto.
Qed.

Context (HS : ∀ d ttl r, dec_TenantID d = t → P (CDecisionSet d ttl r)).
Context (HD : ∀ d r, dec_TenantID d = t → P (CDecisionRecord d r)).

Lemma finalize_all req d :
  req_TenantID req = t → dec_TenantID d = t → all P (finalizeDecision s req d).
Proof.
  intros Ht Hd. unfold finalizeDecision, decision_Set, decision_Record.
  walk; try (by apply recordAudit_all); auto.
Qed.

Lemma denyForInvalid_runs req e :
  req_TenantID req = t →
  runs P (λ d, dec_Outcome d = DecisionDeny) (denyForInvalidPolicySet s req e).
Proof.
  intros Ht. unfold denyForInvalidPolicySet, decision_Set, decision_Record.
  eapply runs_bind; [by apply runs_all, all_ignore, recordAudit_all|]. intros _ _.
  eapply runs_bind; [apply runs_all, all_reading|]. intros now _.
  eapply runs_bind; [apply runs_all, all_when, all_ignore, all_call; intros; by apply HS|]. intros _ _.
  eapply runs_bind; [apply runs_all, all_call; intros; by apply HD|]. intros [id [err|]] _.
  - eapply runs_bind; [by apply runs_all, all_ignore, recordAudit_all|]. intros _ _. by apply runs_ret.
  - by apply runs_ret.
Qed.

Context (HL : ∀ r, P (CListPolicies t r)).

Lemma prepare_all req : req_TenantID req = t → all P (preparePolicySet s req).
Proof.
  intros Ht. unfold preparePolicySet, ListByTenant.
  assert (Hdeny : ∀ e, all P (Denied <$> denyForInvalidPolicySet s req e)).
  { intros e. pose proof (all_runs _ _ _ (denyForInvalid_runs req e Ht)) as H.
    intros st. destruct (H st) as (l & Hl & Hp). exists l. unfold fmap, M_fmap.
    by destruct (denyForInvalidPolicySet s req e st) as [[]]. }
  walk; try (by apply recordAudit_all); try apply Hdeny. rewrite ?Ht. apply HL.
Qed.

Lemma Evaluate_all req : req_TenantID req = t → all P (Evaluate s req).
Proof.
  intros Ht. apply (all_runs _ (λ _, True)). unfold Evaluate.
  eapply runs_bind; [by apply normalize_runs|]. intros r1 (a & _ & ->).
  eapply runs_bind; [by apply resolveOCI_runs|]. intros [r2 b] H2.
  assert (Ht2 : req_TenantID r2 = t) by naive_solver.
  eapply runs_bind; [by apply resolveNPM_runs|]. intros r3 H3.
  assert (Ht3 : req_TenantID r3 = t) by naive_solver.
  eapply runs_bind; [by apply runs_all, prepare_all|]. intros [ps h|d] _; [|by apply runs_ret].
  eapply runs_bind; [by apply attach_runs|]. intros r4 H4.
  assert (Ht4 : req_TenantID r4 = t) by naive_solver.
  eapply runs_bind; [by apply lookup_runs|]. intros [d|] _; [by apply runs_ret|].
  eapply runs_bind; [by apply enrich_runs|]. intros [r5 m] (m' & E). simpl in E. subst r5.
  assert (Ht5 : req_TenantID (applyMutableTagMetadata b (set_req_Metadata m' r4)) = t) by by destruct b.
  eapply runs_bind; [by apply evaluatePolicies_runs|]. intros d (now & ->).
  apply runs_all, finalize_all; [done|].
  rewrite <-Ht5. apply Evaluate_tenant_fields.
Qed.
End steps.
End lemmas.

(** *** Audit durability *)

(** An audit write of the request path that failed for another reason than
    cancellation is a best-effort [error] event. *)
Definition audit_ok (c : Call) : Prop :=
  match c with
  | CAuditRecord ev (Err e) => IsCanceled e = true ∨ ev_EventType ev = AuditEventError
  | _ => True
  end.

Definition fail_closed (a : option AuditService) : Prop :=
  match a with Some a => failureMode a = AuditFailureModeFailClosed | None => True end.

Section strict.
Context {W : Type} `{!Ports W} (s : AccessService).
Context (Hclosed : fail_closed (acc_audit s)) (Hclosed' : fail_closed (enr_audit (acc_enrichment s))).
Notation M := (M W Call).

Lemma audit_strict a e : fail_closed a → strict audit_ok (audit_Record a e).
Proof.
  destruct a as [a|]; simpl; intros H; [|apply strict_all, all_ret].
  eapply triple_mono; [exact (audit_Record_durable a e H)|]. intros l r Hl Hr.
  eapply Forall_impl; [exact (Hl Hr)|]. intros []; try done. simpl. destruct r0; auto.
Qed.

Lemma error_audit_all e : ev_EventType e = AuditEventError → all audit_ok (ignore (recordAudit s e)).
Proof. intros H. apply all_ignore, audit_Record_all. intros now []; simpl; auto. Qed.

Lemma recordAudit_strict e : strict audit_ok (recordAudit s e).
Proof. by apply audit_strict. Qed.

Ltac strict_step :=
  match goal with
  | |- strict _ (_ ≫= _) => apply strict_bind; [|intros ?]
  | |- strict _ (mbind _ _) => apply strict_bind; [|intros ?]
  | |- strict _ (recordAudit _ _) => apply recordAudit_strict
  | |- strict _ (audit_Record _ _) => by apply audit_strict
  | |- strict _ (ignore (recordAudit _ _)) => by apply strict_all, error_audit_all
  | |- strict _ (throw _) => apply strict_throw
  | |- strict _ (for_each _ _) => apply strict_for_each; intros ?
  | |- strict _ (when ?b _) => destruct b; simpl
  | |- strict _ (match ?x with _ => _ end) => destruct x eqn:?
  | |- strict _ (let '(_, _) := ?x in _) => destruct x eqn:?
  | |- strict _ _ => solve [apply strict_all; unfold storeCachedMetadata, upstream_for, GetByEcosystem, ResolveReference,
      decision_Get, decision_Set, decision_Record, ListByTenant, metadata_Get, metadata_Set,
      Enrich_call, Now; walk; done]
  end.
Ltac strict := repeat strict_step.

Lemma EnrichWithCorrelation_strict tenant correlation a :
  strict audit_ok (EnrichWithCorrelation (acc_enrichment s) tenant correlation a).
Proof.
  unfold EnrichWithCorrelation, lookupCachedMetadata, queryEnrichmentSources. strict.
Qed.

Lemma enrichArtifact_strict req : strict audit_ok (enrichArtifact s req).
Proof.
  unfold enrichArtifact. apply strict_bind; [apply recordAudit_strict|intros _].
  apply strict_attempt; [apply EnrichWithCorrelation_strict|intros; apply strict_all, all_ret|].
  intros e. eapply triple_bind with (λ _ r, is_ok r = true); [| |by intros].
  - apply triple_ignore. eapply triple_mono; [by apply recordAudit_strict|done].
  - intros. by apply triple_throw.
Qed.

Lemma enrich_request_strict req ps b : strict audit_ok (enrich_request s req ps b).
Proof.
  unfold enrich_request. destruct (shouldEnrichArtifact _ _); [|apply strict_all, all_ret].
  apply strict_bind; [apply enrichArtifact_strict|intros; apply strict_all, all_ret].
Qed.

Lemma denyForInvalid_all req e : all audit_ok (denyForInvalidPolicySet s req e).
Proof.
  unfold denyForInvalidPolicySet, Now, decision_Set, decision_Record.
  repeat match goal with
  | |- all _ (ignore (recordAudit _ _)) => by apply error_audit_all
  | _ => walk_step
  end; done.
Qed.

Lemma Evaluate_strict req : strict audit_ok (Evaluate s req).
Proof.
  unfold Evaluate, normalizeAccessRequest, resolveMutableOCIReference, resolveMutableNPMReference,
    attachDependencyContext, lookupCachedDecision, useCachedDecision, evaluatePolicies, finalizeDecision.
  assert (Hprep : ∀ r, strict audit_ok (preparePolicySet s r)).
  { intros r. unfold preparePolicySet.
    assert (Hd : ∀ e, strict audit_ok (Denied <$> denyForInvalidPolicySet s r e)).
    { intros e st. destruct (denyForInvalid_all r e st) as (l & Hl & Hp). exists l.
      unfold fmap, M_fmap. by destruct (denyForInvalidPolicySet s r e st) as [[]]. }
    strict; try apply Hd. }
  assert (Hres : ∀ r, strict audit_ok (Resolve (acc_dependencies s) r)).
  { intros r. apply strict_all, Resolve_all; done. }
  strict; try apply Hprep; try apply Hres; try apply enrich_request_strict; eauto.
Qed.
End strict.

(** *** What a decision is *)

Definition no_decision_write (c : Call) : Prop :=
  match c with CDecisionSet _ _ _ | CDecisionRecord _ _ => False | _ => True end.

(** Neither a decision is written nor metadata fetched. *)
Definition quiet (c : Call) : Prop :=
  match c with
  | CDecisionSet _ _ _ | CDecisionRecord _ _ | CEnrich _ _ | CMetadataGet _ _ _
  | CMetadataSet _ _ _ _ _ => False
  | _ => True
  end.

(** The policy set of a tenant that the pipeline refuses to evaluate. *)
Definition rejected (upstreamID : string) (r : result (list Policy)) : Prop :=
  match r with
  | Err e => errors_Is e ErrDeprecatedPolicyConfig = true
  | Ok ps => ∀ ps', ValidatePolicies ps = Ok ps' →
               is_ok (HashPolicies (filterPoliciesForUpstream ps' upstreamID)) = false
  end.

(** The policy set it evaluates: loaded, valid, and the upstream's share of it. *)
Definition effective_set (req : AccessRequest) (l : list Call) (eff : list Policy) (h : string) : Prop :=
  ∃ ps ps', CListPolicies (req_TenantID req) (Ok ps) ∈ l ∧ ValidatePolicies ps = Ok ps' ∧
    eff = filterPoliciesForUpstream ps' (up_ID (req_Upstream req)) ∧ HashPolicies eff = Ok h.

Definition computed (now : time) (req : AccessRequest) (eff : list Policy) (h : string) : Decision :=
  set_PolicyHash_Context h (context_Normalize <$> req_DependencyContext req)
    (Evaluator.Evaluate now req eff).

Section outcome.
Context {W : Type} `{!Ports W} (s : AccessService).
Notation M := (M W Call).

Lemma deny_runs req e : runs (λ _, True) (λ d, dec_Outcome d = DecisionDeny) (denyForInvalidPolicySet s req e).
Proof. by apply (denyForInvalid_runs s (λ _, True) (req_TenantID req)). Qed.

Lemma prepare_spec req st x st' :
  preparePolicySet s req st = (Ok x, st') →
  ∃ l, calls st' = calls st ++ l ∧
    match x with
    | Prepared eff h => Forall quiet l ∧ effective_set req l eff h
    | Denied d => dec_Outcome d = DecisionDeny ∧
        ∃ r, CListPolicies (req_TenantID req) r ∈ l ∧ rejected (up_ID (req_Upstream req)) r
    end.
Proof.
  intros H. unfold preparePolicySet in H. take_step H loaded st1 H1.
  apply attempt_run in H1 as (r & [= ->] & H1). apply call_run in H1.
  assert (Hdeny : ∀ e, rejected (up_ID (req_Upstream req)) r →
    (Denied <$> denyForInvalidPolicySet s req e) st1 = (Ok x, st') →
    ∃ l, calls st' = calls st ++ l ∧ match x with
      | Prepared _ _ => False
      | Denied d => dec_Outcome d = DecisionDeny ∧
          ∃ r, CListPolicies (req_TenantID req) r ∈ l ∧ rejected (up_ID (req_Upstream req)) r
      end).
  { intros e Hr Hd. apply fmap_run in Hd as (d & -> & Hd).
    destruct (runs_run _ _ _ _ _ _ (deny_runs req e) Hd) as (l & Hl & _ & Ho).
    exists (CListPolicies (req_TenantID req) r :: l). rewrite Hl, H1, <-app_assoc. split; [done|].
    split; [done|]. exists r. split; [by left|done]. }
  destruct r as [ps|e].
  - destruct (ValidatePolicies ps) as [ps'|e] eqn:Ev.
    2:{ destruct (Hdeny e) as (l & Hl & Hx); [simpl; intros ? Heq; congruence|done|]. destruct x; [done|eauto]. }
    set (eff := filterPoliciesForUpstream ps' (up_ID (req_Upstream req))) in *.
    destruct (HashPolicies eff) as [h|e] eqn:Eh.
    2:{ destruct (Hdeny e) as (l & Hl & Hx); [|done|destruct x; [done|eauto]].
        intros ? Heq. rewrite Ev in Heq. injection Heq as <-. fold eff. by rewrite Eh. }
    take_step H u st2 H2. apply ret_Ok in H as [<- <-].
    apply (all_run quiet) in H2 as (l & Hl & Hq); [|by apply audit_Record_all].
    exists (CListPolicies (req_TenantID req) (Ok ps) :: l). rewrite Hl, H1, <-app_assoc.
    split; [done|]. split; [by constructor|]. exists ps, ps'. split; [by left|done].
  - destruct (errors_Is e ErrDeprecatedPolicyConfig) eqn:E.
    { destruct (Hdeny e) as (l & Hl & Hx); [done|done|]. destruct x; [done|eauto]. }
    take_step H u st2 H2. done.
Qed.

Lemma lookup_spec req st x st' :
  lookupCachedDecision s req st = (Ok x, st') →
  ∃ l, calls st' = calls st ++ l ∧ Forall quiet l ∧
    ∀ d, x = Some d → ∃ h d0 now,
      CDecisionGet (req_TenantID req) (req_Artifact req) h (Ok (Some d0)) ∈ l ∧
      h = dependencyContextCacheHash (req_DependencyContext req) ∧ d = set_CachedAt (Some now) d0.
Proof.
  intros H. unfold lookupCachedDecision in H. destruct (negb _).
  { apply ret_Ok in H as [<- <-]. exists []. by rewrite app_nil_r. }
  take_step H cached st1 H1. apply attempt_run in H1 as (r & [= ->] & H1). apply call_run in H1.
  set (c := CDecisionGet _ _ _ r) in H1.
  assert (Haudit : ∀ (m : M ()) s1 y s2, all quiet m → m s1 = (y, s2) → calls s1 = calls st ++ [c] →
    ∃ l, calls s2 = calls st ++ c :: l ∧ Forall quiet (c :: l)).
  { intros m s1 y s2 Hm Hs He. apply (all_run quiet) in Hs as (l & Hl & Hq); [|done].
    exists l. rewrite Hl, He, <-app_assoc. split; [done|]. by constructor. }
  destruct r as [[d0|]|e]; [|done|].
  - take_step H d st2 H2. apply ret_Ok in H as [<- <-]. unfold useCachedDecision in H2.
    take_step H2 now st3 H3. injection H3 as Hnow <-. take_step H2 u st4 H4.
    apply ret_Ok in H2 as [<- <-].
    destruct (Haudit _ _ _ _ (ltac:(by apply audit_Record_all)) H4 H1) as (l & Hl & Hq).
    exists (c :: l). split; [done|]. split; [done|]. intros d [= <-].
    eexists _, d0, now. split; [by left|]. done.
  - destruct (errors_Is e ErrCacheMiss); simpl in H; take_step H u st2 H2; apply ret_Ok in H as [<- <-];
      (eapply Haudit in H2 as (l & Hl & Hq);
        [exists (c :: l); done
        |first [by apply audit_Record_all | by apply all_ignore, audit_Record_all]|done]).
Qed.

Lemma finalize_spec req d st d' st' :
  finalizeDecision s req d st = (Ok d', st') →
  ∃ l, calls st' = calls st ++ l ∧ (d' = d ∨ ∃ id, d' = set_dec_ID id d) ∧
    Forall (λ c, ∀ a r, c ≠ CEnrich a r) l ∧
    ((∃ d1 ttl r, CDecisionSet d1 ttl r ∈ l) ↔ shouldCacheDecision req = true) ∧
    ((∃ d1 r, CDecisionRecord d1 r ∈ l) ↔ shouldPersistDecision req d = true) ∧
    (∀ d1 ttl r, CDecisionSet d1 ttl r ∈ l → d1 = d ∧ ttl = decisionTTL (req_Artifact req)) ∧
    (∀ d1 r, CDecisionRecord d1 r ∈ l → d1 = d).
Proof.
  intros H. unfold finalizeDecision in H. take_step H u st1 H1.
  assert (Hset : ∃ l1, calls st1 = calls st ++ l1 ∧
    if shouldCacheDecision req then ∃ r, l1 = [CDecisionSet d (decisionTTL (req_Artifact req)) r] else l1 = []).
  { unfold when in H1. destruct (shouldCacheDecision req).
    - unfold ignore in H1. destruct (decision_Set _ _ st) as [r st1'] eqn:Es. apply call_run in Es.
      injection H1 as _ <-. eauto.
    - apply ret_Ok in H1 as [_ <-]. exists []. by rewrite app_nil_r. }
  clear H1. destruct Hset as (l1 & Hl1 & Hset).
  assert (Hrest : ∃ l2, calls st' = calls st1 ++ l2 ∧ (d' = d ∨ ∃ id, d' = set_dec_ID id d) ∧
    Forall (λ c, (∃ e r, c = CAuditRecord e r) ∨ ∃ r, c = CDecisionRecord d r) l2 ∧
    ((∃ d1 r, CDecisionRecord d1 r ∈ l2) ↔ shouldPersistDecision req d = true)).
  { destruct (shouldPersistDecision req d); simpl in H.
    - take_step H ir st2 H2. destruct ir as [id err]. unfold decision_Record in H2; apply call_run in H2.
      assert (Hin : ∀ (m : M ()) y, all (λ c, ∃ e r, c = CAuditRecord e r) m → m st2 = (y, st') →
        ∃ l2, calls st' = calls st1 ++ l2 ∧
          Forall (λ c, (∃ e r, c = CAuditRecord e r) ∨ ∃ r, c = CDecisionRecord d r) l2 ∧
          ∃ d1 r, CDecisionRecord d1 r ∈ l2).
      { intros m y Hm Hs. destruct (all_run _ _ _ _ _ Hm Hs) as (l & Hl & Hq).
        eexists (_ :: l). rewrite Hl, H2, <-app_assoc. split; [reflexivity|].
        split; [constructor; [eauto|]; eapply Forall_impl; [exact Hq|]; eauto|]. eexists _, _. by left. }
      destruct err as [e|]; take_step H v st3 H3; apply ret_Ok in H as [<- <-];
        (eapply Hin in H3 as (l2 & ? & ? & ?);
          [exists l2; naive_solver
          |first [apply audit_Record_all; eauto | apply all_ignore, audit_Record_all; eauto]]).
    - apply ret_Ok in H as [<- <-]. exists []. rewrite app_nil_r. repeat split; auto; try done.
      intros (? & ? & []%not_elem_of_nil). }
  destruct Hrest as (l2 & Hl2 & Hd & Hq & Hrec). exists (l1 ++ l2).
  rewrite Hl2, Hl1, <-app_assoc. split; [done|]. split; [done|]. rewrite Forall_forall in Hq.
  assert (Hset1 : ∀ d1 ttl r, CDecisionSet d1 ttl r ∈ l1 ++ l2 →
    d1 = d ∧ ttl = decisionTTL (req_Artifact req) ∧ shouldCacheDecision req = true).
  { intros d1 ttl r [Hin|Hin]%elem_of_app; [|by destruct (Hq _ Hin) as [(? & ? & [=])|(? & [=])]].
    destruct (shouldCacheDecision req); [|subst l1; by apply not_elem_of_nil in Hin].
    destruct Hset as (r' & ->). apply list_elem_of_singleton in Hin. naive_solver. }
  assert (Hl1in : ∀ c, c ∈ l1 → ∃ r, c = CDecisionSet d (decisionTTL (req_Artifact req)) r).
  { intros c Hin. destruct (shouldCacheDecision req); [|subst l1; by apply not_elem_of_nil in Hin].
    destruct Hset as (r & ->). apply list_elem_of_singleton in Hin. eauto. }
  split; [|split; [|split; [|split]]].
  - apply Forall_forall. intros c [Hin|Hin]%elem_of_app a r ->.
    + by destruct (Hl1in _ Hin) as (? & [=]).
    + by destruct (Hq _ Hin) as [(? & ? & [=])|(? & [=])].
  - split; [naive_solver|]. intros E. rewrite E in Hset. destruct Hset as (r & ->).
    eexists _, _, r. by left.
  - rewrite <-Hrec. split; intros (d1 & r & Hin); exists d1, r.
    + apply elem_of_app in Hin as [Hin|Hin]; [|done]. by destruct (Hl1in _ Hin) as (? & [=]).
    + apply elem_of_app. by right.
  - naive_solver.
  - intros d1 r [Hin|Hin]%elem_of_app; [by destruct (Hl1in _ Hin) as (? & [=])|].
    destruct (Hq _ Hin) as [(? & ? & [=])|(? & [= ->])]. done.
Qed.

(** The enrichment call is made only when an enabled policy of the effective
    set needs metadata. *)
Lemma enrich_spec req eff b st x st' :
  enrich_request s req eff b st = (Ok x, st') →
  ∃ l, calls st' = calls st ++ l ∧ Forall no_decision_write l ∧
    ((∃ a r, CEnrich a r ∈ l) → shouldEnrichArtifact req eff = true) ∧
    ∃ m, x.1 = applyMutableTagMetadata b (set_req_Metadata m req).
Proof.
  intros H. pose proof H as H0.
  eapply (runs_run no_decision_write) in H0; [|by apply (enrich_runs s no_decision_write (req_TenantID req))].
  destruct H0 as (l & Hl & Hq & Hm).
  exists l. split; [done|]. split; [done|]. split; [|done]. unfold enrich_request in H.
  destruct (shouldEnrichArtifact req eff); [done|]. apply ret_Ok in H as [_ <-].
  intros (a & r & Hin). rewrite <-(app_nil_r (calls st)) in Hl at 1. apply app_inv_head in Hl as <-.
  by apply not_elem_of_nil in Hin.
Qed.

(** The three ways a request gets a decision. *)
Definition decided (req : AccessRequest) (l : list Call) (d : Decision) : Prop :=
  (** from the cache, with no other effect than auditing and lookups *)
  (∃ a h d0 now, CDecisionGet (req_TenantID req) a h (Ok (Some d0)) ∈ l ∧
     d = set_CachedAt (Some now) d0 ∧ Forall quiet l) ∨
  (** denied, because the policy set was rejected *)
  (dec_Outcome d = DecisionDeny ∧
     ∃ r, CListPolicies (req_TenantID req) r ∈ l ∧ rejected (up_ID (req_Upstream req)) r) ∨
  (** computed from the effective policies of the tenant, then cached and stored *)
  (∃ req' eff h now, same_request req req' ∧ effective_set req l eff h ∧
     let d0 := computed now req' eff h in
     (d = d0 ∨ ∃ id, d = set_dec_ID id d0) ∧
     ((∃ a r, CEnrich a r ∈ l) → shouldEnrichArtifact req' eff = true) ∧
     ((∃ d1 ttl r, CDecisionSet d1 ttl r ∈ l) ↔ shouldCacheDecision req' = true) ∧
     ((∃ d1 r, CDecisionRecord d1 r ∈ l) ↔ shouldPersistDecision req' d0 = true) ∧
     (∀ d1 ttl r, CDecisionSet d1 ttl r ∈ l → d1 = d0 ∧ ttl = decisionTTL (req_Artifact req')) ∧
     (∀ d1 r, CDecisionRecord d1 r ∈ l → d1 = d0)).

Lemma quiet_no_write c : quiet c → no_decision_write c.
Proof. by destruct c. Qed.

Lemma not_in_quiet (l : list Call) c : Forall quiet l → c ∈ l → quiet c.
Proof. rewrite Forall_forall. auto. Qed.

Lemma Evaluate_decided req st d st' :
  Evaluate s req st = (Ok d, st') → ∃ l, calls st' = calls st ++ l ∧ decided req l d.
Proof.
  intros H. unfold Evaluate in H.
  assert (Hgen : ∀ A (m : M A) I s1 (a : A) s2, runs quiet I m → m s1 = (Ok a, s2) →
    ∃ l, calls s2 = calls s1 ++ l ∧ Forall quiet l ∧ I a) by (intros; by eapply runs_run).
  take_step H r1 st1 H1.
  eapply Hgen in H1; [|by apply (normalize_runs s quiet (req_TenantID req))]. destruct H1 as (l1 & Hl1 & Hq1 & a1 & _ & ->).
  take_step H rb st2 H2.
  eapply Hgen in H2; [|by apply (resolveOCI_runs s quiet (req_TenantID req))]. destruct H2 as (l2 & Hl2 & Hq2 & HI2).
  destruct rb as [r2 b]. assert (Hs2 : same_request req r2).
  { by destruct HI2 as [[= -> _]|[[= -> _]|(? & [= -> _])]]. }
  clear HI2.
  take_step H r3 st3 H3.
  eapply Hgen in H3; [|by apply (resolveNPM_runs s quiet (req_TenantID r2))]. destruct H3 as (l3 & Hl3 & Hq3 & HI3).
  assert (Hs3 : same_request req r3).
  { eapply same_request_trans; [exact Hs2|]. destruct HI3 as [->|(v & ->)]; done. }
  clear HI3. destruct Hs3 as (Ht & Hid & Hk & Hu & Hts).
  take_step H p st4 H4. apply prepare_spec in H4 as (l4 & Hl4 & HI4). rewrite Ht, Hu in HI4.
  destruct p as [eff h|d'].
  2:{ apply ret_Ok in H as [<- <-]. destruct HI4 as (Hd & r & Hin & Hr).
      exists (l1 ++ l2 ++ l3 ++ l4). rewrite Hl4, Hl3, Hl2, Hl1, <-!app_assoc. split; [done|].
      right; left. split; [done|]. exists r. split; [|done]. rewrite !elem_of_app. tauto. }
  destruct HI4 as (Hq4 & ps & ps' & Hin & Hv & -> & Hh). rewrite Ht in Hin. rewrite Hu in *.
  take_step H r5 st5 H5.
  eapply Hgen in H5; [|by apply (attach_runs s quiet (req_TenantID r3))]. destruct H5 as (l5 & Hl5 & Hq5 & HI5).
  assert (Hs5 : same_request req r5) by (destruct HI5 as [->|(c & ->)]; done). clear HI5.
  take_step H cached st6 H6. apply lookup_spec in H6 as (l6 & Hl6 & Hq6 & HI6).
  set (l := l1 ++ l2 ++ l3 ++ l4 ++ l5 ++ l6).
  assert (Hl : calls st6 = calls st ++ l).
  { unfold l. by rewrite Hl6, Hl5, Hl4, Hl3, Hl2, Hl1, <-!app_assoc. }
  assert (Hq : Forall quiet l) by (unfold l; rewrite !Forall_app; done).
  destruct cached as [dc|].
  { apply ret_Ok in H as [<- <-]. exists l. split; [done|]. left.
    destruct (HI6 dc eq_refl) as (hash & d0 & now & Hget & _ & ->).
    destruct Hs5 as (Ht5 & _). rewrite Ht5 in Hget.
    exists (req_Artifact r5), hash, d0, now. split; [|done].
    unfold l. rewrite !elem_of_app. tauto. }
  take_step H rm st7 H7. apply enrich_spec in H7 as (l7 & Hl7 & Hq7 & He7 & m & Hm). destruct rm as [r7 meta].
  simpl in Hm. subst r7. set (r7 := applyMutableTagMetadata b (set_req_Metadata m r5)) in *.
  take_step H d0 st8 H8.
  eapply (runs_run quiet) in H8; [|by apply (evaluatePolicies_runs s quiet (req_TenantID r7))]. destruct H8 as (l8 & Hl8 & Hq8 & now & ->).
  apply finalize_spec in H as (l9 & Hl9 & Hd & Hq9 & Hset & Hrec & Hset1 & Hrec1).
  exists (l ++ l7 ++ l8 ++ l9). rewrite Hl9, Hl8, Hl7, Hl, <-!app_assoc. split; [done|]. right; right.
  assert (Hart : req_Artifact r7 = req_Artifact r5) by by unfold r7; destruct b.
  assert (Hwrite : ∀ c, c ∈ l ++ l7 ++ l8 ++ l9 → ¬ no_decision_write c → c ∈ l9).
  { intros c. rewrite !elem_of_app. intros [Hc|[Hc|[Hc|Hc]]] Hn; [..|done]; destruct Hn.
    - by apply quiet_no_write, (not_in_quiet l).
    - rewrite Forall_forall in Hq7. by apply Hq7.
    - by apply quiet_no_write, (not_in_quiet l8). }
  exists r7, (filterPoliciesForUpstream ps' (up_ID (req_Upstream req))), h, now.
  split; [by eapply same_request_trans; [|by apply same_request_mutable]|].
  split. { exists ps, ps'. split; [|done]. unfold l. rewrite !elem_of_app. tauto. }
  split; [done|]. rewrite <-Hset, <-Hrec. split.
  { intros (a & r & Hc). unfold shouldEnrichArtifact. rewrite Hart. apply He7.
    rewrite !elem_of_app in Hc. destruct Hc as [Hc|[Hc|[Hc|Hc]]].
    - by apply (not_in_quiet _ _ Hq) in Hc.
    - eauto.
    - by apply (not_in_quiet _ _ Hq8) in Hc.
    - rewrite Forall_forall in Hq9. by destruct (Hq9 _ Hc a r). }
  assert (Hin9 : ∀ c, c ∈ l9 → c ∈ l ++ l7 ++ l8 ++ l9) by (intros c; rewrite !elem_of_app; tauto).
  split; [|split; [|split]].
  - split; intros (d1 & ttl & r & Hc); exists d1, ttl, r; auto.
  - split; intros (d1 & r & Hc); exists d1, r; auto.
  - intros d1 ttl r Hc. apply Hset1 with r. auto.
  - intros d1 r Hc. apply Hrec1 with r. auto.
Qed.
End outcome.


(** ** Properties *)

(** C4: tenant isolation: whatever its collaborators return, evaluating a
    request reads and writes policies, decisions, metadata, graph contexts,
    resolve jobs, upstreams and audit events of the request's own tenant only. *)
Theorem Evaluate_tenant_isolation {W} `{!Ports W} s req (st : St W Call) :
  ∃ l, calls (Evaluate s req st).2 = calls st ++ l ∧ Forall (for_tenant (req_TenantID req)) l.
Proof. apply (Evaluate_all s _ (req_TenantID req)); intros; done. Qed.

(** C3: fail-closed auditing: when the audit services run in fail-closed mode,
    a request that gets a decision (rather than an error) had every one of its
    audit events written; the only audit writes that may have failed are the
    canceled ones and the best-effort [error] events. *)
Theorem Evaluate_fail_closed {W} `{!Ports W} s req (st : St W Call) d :
  fail_closed (acc_audit s) → fail_closed (enr_audit (acc_enrichment s)) →
  (Evaluate s req st).1 = Ok d →
  ∃ l, calls (Evaluate s req st).2 = calls st ++ l ∧ Forall audit_ok l.
Proof.
  intros H1 H2 Hd. destruct (Evaluate_strict s H1 H2 req st) as (l & Hl & Hq).
  exists l. split; [done|]. apply Hq. by rewrite Hd.
Qed.


