(* ===== verification/Valkey.v ===== *)
(** * Valkey caches

    [internal/infra/valkey]: the decision, metadata and dependency-context
    caches over a key-value server.  Tenants are invalidated by bumping a
    generation number that is part of every key.  The server is a parameter
    ([KV]); values are kept in decoded form, so the JSON round trip of the cached
    records is taken to be lossless. *)

From S2P Require Import Prelude GoStrings Floats Artifact Dependency Upstream PolicyConfig.
From S2P Require Import Policy Effects Ports.
#[local] Open Scope list_scope.

(** ** Definitions *)

(** What a key holds: the number [INCR] maintains, or the bytes of a record. *)
Inductive KVValue : Type :=
| KVInt (z : Z)
| KVDecision (d : Decision)
| KVMetadata (m : ArtifactMetadata)
| KVContext (c : DependencyContext).

(** The four commands the caches send. *)
Class KV (W : Type) : Type := {
  kv_Get : string → W → result (option KVValue) * W;
  kv_Set : string → KVValue → option Z → W → result () * W;
  kv_Incr : string → W → result () * W;
  kv_Del : string → W → result () * W;
}.

Definition decisionGenerationKey (tenantID : string) : string := "decision-generation:" +:+ tenantID.
Definition metadataGenerationKey (tenantID : string) : string := "metadata-generation:" +:+ tenantID.

Definition decisionKey (tenantID : string) (generation : Z) (a : ArtifactIdentity)
    (dependencyContextHash : string) : string :=
  let hash := if decide (dependencyContextHash = "") then "none" else dependencyContextHash in
  "decision:" +:+ tenantID +:+ ":" +:+ itoa generation +:+ ":" +:+ hash +:+ ":" +:+ CacheKey a.

Definition metadataKey (tenantID : string) (generation : Z) (a : ArtifactIdentity) : string :=
  "metadata:" +:+ tenantID +:+ ":" +:+ itoa generation +:+ ":" +:+ CacheKey a.

Definition contextCacheKey (key : ContextKey) : string :=
  "dependency-context:" +:+ key_TenantID key +:+ ":" +:+ key_UpstreamID key +:+ ":"
    +:+ CacheKey (key_Artifact key).

(** A decision is stored under the hash of its own context. *)
Definition decision_context_hash (d : Decision) : string :=
  match dec_DependencyContext d with
  | Some c => ContextHash (context_Normalize c)
  | None => ""
  end.

(** [cmd.Px(ttl)] when [ttl > 0]. *)
Definition expiry (ttl : Z) : option Z := if 0 <? ttl then Some ttl else None.

Section caches.
Context {W : Type} `{!KV W}.
Notation M := (M W unit).

Definition get (k : string) : M (option KVValue) := call (λ _, tt) (kv_Get k).
Definition set (k : string) (v : KVValue) (ttl : Z) : M () := call (λ _, tt) (kv_Set k v (expiry ttl)).
Definition incr (k : string) : M () := call (λ _, tt) (kv_Incr k).
Definition del (k : string) : M () := call (λ _, tt) (kv_Del k).

Definition bad_record (what : string) : error := new_error ("unmarshalling cached " +:+ what).

Definition currentCacheGeneration (key cacheName : string) : M Z :=
  value ← wrapping ("getting " +:+ cacheName +:+ " cache generation: ") (get key);
  match value with
  | None => mret 0
  | Some (KVInt z) => mret z
  | Some _ => throw (new_error ("parsing " +:+ cacheName +:+ " cache generation"))
  end.

(** *** decision.go *)

Definition DecisionCache_Get (tenantID : string) (a : ArtifactIdentity) (hash : string) : M Decision :=
  generation ← currentCacheGeneration (decisionGenerationKey tenantID) "decision";
  value ← wrapping "getting cached decision: " (get (decisionKey tenantID generation a hash));
  match value with
  | None => throw (sentinel_error ErrCacheMiss)
  | Some (KVDecision d) => mret d
  | Some _ => throw (bad_record "decision")
  end.

Definition DecisionCache_Set (d : Decision) (ttl : Z) : M () :=
  generation ← currentCacheGeneration (decisionGenerationKey (dec_TenantID d)) "decision";
  wrapping "setting cached decision: "
    (set (decisionKey (dec_TenantID d) generation (dec_Artifact d) (decision_context_hash d))
       (KVDecision d) ttl).

Definition DecisionCache_Invalidate (tenantID : string) (a : ArtifactIdentity) : M () :=
  generation ← currentCacheGeneration (decisionGenerationKey tenantID) "decision";
  wrapping "invalidating cached decision: " (del (decisionKey tenantID generation a "")).

Definition DecisionCache_InvalidateTenant (tenantID : string) : M () :=
  wrapping "invalidating tenant decision cache: " (incr (decisionGenerationKey tenantID)).

(** *** metadata.go *)

Definition MetadataCache_Get (tenantID : string) (a : ArtifactIdentity) : M ArtifactMetadata :=
  generation ← currentCacheGeneration (metadataGenerationKey tenantID) "metadata";
  value ← wrapping "getting cached metadata: " (get (metadataKey tenantID generation a));
  match value with
  | None => throw (sentinel_error ErrCacheMiss)
  | Some (KVMetadata m) => mret m
  | Some _ => throw (bad_record "metadata")
  end.

Definition MetadataCache_Set (tenantID : string) (a : ArtifactIdentity) (m : ArtifactMetadata) (ttl : Z)
    : M () :=
  generation ← currentCacheGeneration (metadataGenerationKey tenantID) "metadata";
  wrapping "setting cached metadata: " (set (metadataKey tenantID generation a) (KVMetadata m) ttl).

Definition MetadataCache_InvalidateTenant (tenantID : string) : M () :=
  wrapping "invalidating tenant metadata cache: " (incr (metadataGenerationKey tenantID)).

(** *** dependency_context.go *)

Definition ContextCache_Get (key : ContextKey) : M DependencyContext :=
  value ← wrapping "getting cached dependency context: " (get (contextCacheKey key));
  match value with
  | None => throw (sentinel_error ErrCacheMiss)
  | Some (KVContext c) => mret (context_Normalize c)
  | Some _ => throw (bad_record "dependency context")
  end.

Definition ContextCache_Set (key : ContextKey) (c : DependencyContext) (ttl : Z) : M () :=
  wrapping "setting cached dependency context: "
    (set (contextCacheKey key) (KVContext (context_Normalize c)) ttl).
End caches.

(** ** A working server

    [view w] is what the server holds; entries do not expire in between. *)
Class WorkingKV (W : Type) `{!KV W} : Type := {
  view : W → gmap string KVValue;
  working_get k w : kv_Get k w = (Ok (view w !! k), w);
  working_set k v ttl w : ∃ w', kv_Set k v ttl w = (Ok (), w') ∧ view w' = <[k := v]> (view w);
  working_incr k w : match view w !! k with
    | None => ∃ w', kv_Incr k w = (Ok (), w') ∧ view w' = <[k := KVInt 1]> (view w)
    | Some (KVInt z) => ∃ w', kv_Incr k w = (Ok (), w') ∧ view w' = <[k := KVInt (z + 1)]> (view w)
    | Some _ => True
    end;
}.

(** The map itself is a working server. *)
#[export] Instance map_KV : KV (gmap string KVValue) := {|
  kv_Get k w := (Ok (w !! k), w);
  kv_Set k v _ w := (Ok (), <[k := v]> w);
  kv_Incr k w := match w !! k with
    | None => (Ok (), <[k := KVInt 1]> w)
    | Some (KVInt z) => (Ok (), <[k := KVInt (z + 1)]> w)
    | Some _ => (Err (new_error "ERR value is not an integer or out of range"), w)
    end;
  kv_Del k w := (Ok (), delete k w);
|}.

#[export, refine] Instance map_WorkingKV : WorkingKV (gmap string KVValue) := {| view w := w |}.
Proof.
  - done.
  - intros. by eexists.
  - intros k w. simpl. destruct (w !! k) as [[]|]; eauto.
Defined.

(** ** Lemmas *)

Definition is_colon (c : ascii) : bool := bool_decide (c = ":"%char).

(** The generation of a tenant, and the decision stored for an artifact. *)
Definition generation_of (m : gmap string KVValue) (k : string) : option Z :=
  match m !! k with None => Some 0 | Some (KVInt z) => Some z | Some _ => None end.

Definition cached_decision (m : gmap string KVValue) (tenantID : string) (a : ArtifactIdentity)
    (hash : string) : option KVValue :=
  g ← generation_of m (decisionGenerationKey tenantID); m !! decisionKey tenantID g a hash.

Lemma sapp_colon_inj a b x y :
  free_of is_colon a → free_of is_colon b → a +:+ ":" +:+ x = b +:+ ":" +:+ y → a = b ∧ x = y.
Proof.
  intros Ha Hb E.
  assert (H := free_of_split is_colon a b (":" +:+ x) (":" +:+ y) Ha Hb). simpl in H.
  destruct H as [-> H]; [done|done|done|]. split; [done|]. by injection H.
Qed.

Lemma itoa_free z : free_of is_colon (itoa z).
Proof. apply itoa_free_of; [done|]. by repeat constructor. Qed.

Lemma decisionKey_split t g a h :
  decisionKey t g a h = "decision" +:+ ":" +:+ t +:+ ":" +:+ itoa g +:+ ":" +:+
    (if decide (h = "") then "none" else h) +:+ ":" +:+ CacheKey a.
Proof. done. Qed.

Lemma decisionKey_parts t1 g1 a1 h1 t2 g2 a2 h2 :
  free_of is_colon t1 → free_of is_colon t2 →
  decisionKey t1 g1 a1 h1 = decisionKey t2 g2 a2 h2 → t1 = t2 ∧ g1 = g2.
Proof.
  intros H1 H2 E. rewrite !decisionKey_split in E.
  apply sapp_inj_l in E. apply sapp_inj_l in E.
  apply sapp_colon_inj in E as [-> E]; [|done..]. split; [done|].
  apply sapp_colon_inj in E as [E _]; [|apply itoa_free..]. by apply itoa_inj in E.
Qed.

Lemma generationKey_not_decision t t' g a h : decisionGenerationKey t ≠ decisionKey t' g a h.
Proof. unfold decisionGenerationKey. rewrite decisionKey_split. by intros [=]. Qed.

Lemma generationKey_inj t t' : decisionGenerationKey t = decisionGenerationKey t' → t = t'.
Proof. unfold decisionGenerationKey. apply sapp_inj_l. Qed.

(** Generation numbers are numbers, and no decision is stored ahead of them. *)
Record cache_inv (m : gmap string KVValue) : Prop := mk_cache_inv {
  inv_generation t : ∃ g, generation_of m (decisionGenerationKey t) = Some g;
  inv_ahead t g a h v : free_of is_colon t → m !! decisionKey t g a h = Some v →
    ∃ g0, generation_of m (decisionGenerationKey t) = Some g0 ∧ g ≤ g0;
}.

Lemma cache_inv_empty : cache_inv ∅.
Proof. split; [intros t; by exists 0|]. intros t g a h v _ H. by rewrite lookup_empty in H. Qed.

Section working.
Context {W : Type} `{!KV W} `{!WorkingKV W}.
Notation State := (St W unit).
Notation held st := (view (world st)).

Lemma currentCacheGeneration_run k name (st : State) g :
  generation_of (held st) k = Some g →
  ∃ l, currentCacheGeneration k name st = (Ok g, mkSt (world st) l).
Proof.
  unfold generation_of, currentCacheGeneration, wrapping, get, call, mbind, M_bind.
  rewrite working_get. destruct (held st !! k) as [[]|]; intros [= <-]; by eexists.
Qed.

(** What [Get] computes on a working server. *)
Lemma DecisionCache_Get_run t a h (st : State) :
  cache_inv (held st) →
  (DecisionCache_Get t a h st).1 =
    match cached_decision (held st) t a h with
    | None => Err (sentinel_error ErrCacheMiss)
    | Some (KVDecision d) => Ok d
    | Some _ => Err (bad_record "decision")
    end.
Proof.
  intros Hinv. destruct (inv_generation _ Hinv t) as [g Hg]. unfold cached_decision, DecisionCache_Get.
  rewrite Hg. destruct (currentCacheGeneration_run _ "decision" st g Hg) as [l Hl].
  unfold mbind, M_bind. simpl. rewrite Hl. unfold wrapping, get, call. simpl. rewrite working_get. simpl.
  by destruct (view (world st) !! decisionKey t g a h) as [[]|].
Qed.

Lemma DecisionCache_Set_run d ttl (st : State) g :
  generation_of (held st) (decisionGenerationKey (dec_TenantID d)) = Some g →
  (DecisionCache_Set d ttl st).1 = Ok () ∧
  held (DecisionCache_Set d ttl st).2 =
    <[decisionKey (dec_TenantID d) g (dec_Artifact d) (decision_context_hash d) := KVDecision d]> (held st).
Proof.
  intros Hg. destruct (currentCacheGeneration_run _ "decision" st g Hg) as [l Hl].
  unfold DecisionCache_Set, mbind, M_bind. rewrite Hl. unfold wrapping, set, call. simpl.
  edestruct working_set as (w' & -> & Hw). done.
Qed.

Lemma DecisionCache_InvalidateTenant_run t (st : State) g :
  generation_of (held st) (decisionGenerationKey t) = Some g →
  (DecisionCache_InvalidateTenant t st).1 = Ok () ∧
  held (DecisionCache_InvalidateTenant t st).2 = <[decisionGenerationKey t := KVInt (g + 1)]> (held st).
Proof.
  unfold generation_of, DecisionCache_InvalidateTenant, wrapping, incr, call. intros Hg.
  pose proof (working_incr (decisionGenerationKey t) (world st)) as Hi.
  destruct (held st !! decisionGenerationKey t) as [[z| | |]|]; simplify_eq;
    destruct Hi as (w' & -> & Hw); done.
Qed.

Lemma generation_insert_decision m t t' g a h v :
  generation_of (<[decisionKey t' g a h := v]> m) (decisionGenerationKey t)
    = generation_of m (decisionGenerationKey t).
Proof.
  unfold generation_of. rewrite lookup_insert_ne; [done|]. intros E. by destruct (generationKey_not_decision t t' g a h).
Qed.

Lemma cache_inv_insert m d g v h :
  free_of is_colon (dec_TenantID d) → cache_inv m →
  generation_of m (decisionGenerationKey (dec_TenantID d)) = Some g →
  cache_inv (<[decisionKey (dec_TenantID d) g (dec_Artifact d) h := v]> m).
Proof.
  intros Ht [Hg Ha] Hgen. split.
  - intros t. destruct (Hg t) as [g' Hg']. exists g'. by rewrite generation_insert_decision.
  - intros t g' a h' v' Hf. rewrite generation_insert_decision.
    destruct (decide (decisionKey t g' a h' = decisionKey (dec_TenantID d) g (dec_Artifact d) h)) as [E|E].
    + apply decisionKey_parts in E as [-> ->]; [|done..]. eauto with lia.
    + rewrite lookup_insert_ne by congruence. by apply Ha.
Qed.

Lemma generation_insert_generation m t t' z :
  generation_of (<[decisionGenerationKey t' := KVInt z]> m) (decisionGenerationKey t)
    = if decide (t = t') then Some z else generation_of m (decisionGenerationKey t).
Proof.
  unfold generation_of. case_decide as E; [subst; by rewrite lookup_insert_eq|].
  rewrite lookup_insert_ne; [done|]. intros H. by apply generationKey_inj in H.
Qed.

Lemma cache_inv_bump m t g :
  cache_inv m → generation_of m (decisionGenerationKey t) = Some g →
  cache_inv (<[decisionGenerationKey t := KVInt (g + 1)]> m).
Proof.
  intros [Hg Ha] Hgen. split.
  - intros t'. rewrite generation_insert_generation. case_decide; [eauto|]. apply Hg.
  - intros t' g' a h v Hf. rewrite lookup_insert_ne by apply generationKey_not_decision.
    intros Hl. destruct (Ha _ _ _ _ _ Hf Hl) as (g0 & Hg0 & Hle). rewrite generation_insert_generation.
    case_decide; [|eauto]. subst. exists (g + 1). split; [done|]. assert (g0 = g) by congruence. lia.
Qed.
End working.

(** ** Properties *)

(** The decision cache is a per-tenant map.  On a working server, what was
    stored for a decision's tenant, artifact and context is read back; storing
    keeps the generation invariant; and it changes nothing another tenant reads. *)
Theorem DecisionCache_Set_Get {W} `{!KV W, !WorkingKV W} d ttl (st : St W unit) :
  cache_inv (view (world st)) → free_of is_colon (dec_TenantID d) →
  let st' := (DecisionCache_Set d ttl st).2 in
  (DecisionCache_Set d ttl st).1 = Ok () ∧ cache_inv (view (world st')) ∧
  (DecisionCache_Get (dec_TenantID d) (dec_Artifact d) (decision_context_hash d) st').1 = Ok d ∧
  (∀ t a h, free_of is_colon t → t ≠ dec_TenantID d →
     (DecisionCache_Get t a h st').1 = (DecisionCache_Get t a h st).1).
Proof.
  intros Hinv Ht st'. destruct (inv_generation _ Hinv (dec_TenantID d)) as [g Hg].
  destruct (DecisionCache_Set_run d ttl st g Hg) as [Hok Hw]. fold st' in Hw.
  assert (Hinv' : cache_inv (view (world st'))) by (rewrite Hw; by apply cache_inv_insert).
  split; [done|]. split; [done|]. rewrite DecisionCache_Get_run by done. split.
  - unfold cached_decision. rewrite Hw, generation_insert_decision, Hg. simpl.
    by rewrite lookup_insert_eq.
  - intros t a h Hf Hne. rewrite !DecisionCache_Get_run by done.
    unfold cached_decision. rewrite Hw, generation_insert_decision.
    destruct (generation_of _ (decisionGenerationKey t)) as [g'|]; simpl; [|done].
    rewrite lookup_insert_ne; [done|]. intros E. apply decisionKey_parts in E as [E _]; congruence.
Qed.

(** Reading after an invalidation: a miss for the tenant, and as before for the others. *)
Section invalidated.
Context {W : Type} `{!KV W, !WorkingKV W} (t : string) (st : St W unit) (Hinv : cache_inv (view (world st))).
Notation st' := (DecisionCache_InvalidateTenant t st).2.

Lemma invalidated_ok : (DecisionCache_InvalidateTenant t st).1 = Ok () ∧ cache_inv (view (world st')).
Proof.
  destruct (inv_generation _ Hinv t) as [g Hg].
  destruct (DecisionCache_InvalidateTenant_run t st g Hg) as [Hok ->]. split; [done|]. by apply cache_inv_bump.
Qed.

Lemma invalidated_miss a h : free_of is_colon t → (DecisionCache_Get t a h st').1 = Err (sentinel_error ErrCacheMiss).
Proof.
  intros Ht. destruct (inv_generation _ Hinv t) as [g Hg].
  destruct (DecisionCache_InvalidateTenant_run t st g Hg) as [_ Hw].
  rewrite DecisionCache_Get_run by apply invalidated_ok. unfold cached_decision.
  rewrite Hw, generation_insert_generation, decide_True by done. simpl.
  rewrite lookup_insert_ne by apply generationKey_not_decision.
  destruct (view (world st) !! _) as [v|] eqn:E; [|done].
  destruct (inv_ahead _ Hinv _ _ _ _ _ Ht E) as (g0 & Hg0 & Hle). assert (g0 = g) by congruence. lia.
Qed.

Lemma invalidated_other t' a h : t' ≠ t → (DecisionCache_Get t' a h st').1 = (DecisionCache_Get t' a h st).1.
Proof.
  intros Hne. destruct (inv_generation _ Hinv t) as [g Hg].
  destruct (DecisionCache_InvalidateTenant_run t st g Hg) as [_ Hw].
  rewrite !DecisionCache_Get_run by (done || apply invalidated_ok). unfold cached_decision.
  rewrite Hw, generation_insert_generation, decide_False by done.
  destruct (generation_of _ (decisionGenerationKey t')) as [g'|]; simpl; [|done].
  by rewrite lookup_insert_ne by apply generationKey_not_decision.
Qed.
End invalidated.

(** Invalidating a tenant takes effect at once and only for that tenant:
    every decision cached for it before is a miss afterwards, for every artifact
    and context, and what the other tenants read is unchanged. *)
Theorem DecisionCache_InvalidateTenant_spec {W} `{!KV W, !WorkingKV W} t (st : St W unit) :
  cache_inv (view (world st)) → free_of is_colon t →
  let st' := (DecisionCache_InvalidateTenant t st).2 in
  (DecisionCache_InvalidateTenant t st).1 = Ok () ∧ cache_inv (view (world st')) ∧
  (∀ a h, (DecisionCache_Get t a h st').1 = Err (sentinel_error ErrCacheMiss)) ∧
  (∀ t' a h, free_of is_colon t' → t' ≠ t →
     (DecisionCache_Get t' a h st').1 = (DecisionCache_Get t' a h st).1).
Proof.
  intros Hinv Ht st'. destruct (invalidated_ok t st Hinv) as [Hok Hinv'].
  split; [exact Hok|]. split; [exact Hinv'|]. split.
  - intros a h. by apply invalidated_miss.
  - intros t' a h _ Hne. by apply invalidated_other.
Qed.

Definition sample_cached : Decision :=
  mkDecision "" "t1" (mkArtifact EcosystemNPM "" "left-pad" "1.3.0" "") DecisionAllow "" "" None
    "no matching policy" [] [] None 0.

Definition empty_server : St (gmap string KVValue) unit := mkSt ∅ [].

Lemma DecisionCache_Set_Get_witness :
  (DecisionCache_Get "t1" (dec_Artifact sample_cached) ""
     (DecisionCache_Set sample_cached 1 empty_server).2).1 = Ok sample_cached.
Proof.
  apply (DecisionCache_Set_Get sample_cached 1 empty_server); [apply cache_inv_empty|vm_compute; tauto].
Defined.

Lemma DecisionCache_InvalidateTenant_spec_witness :
  (DecisionCache_Get "t1" (dec_Artifact sample_cached) "" (DecisionCache_InvalidateTenant "t1"
     (DecisionCache_Set sample_cached 1 empty_server).2).2).1 = Err (sentinel_error ErrCacheMiss).
Proof.
  apply (DecisionCache_InvalidateTenant_spec "t1" (DecisionCache_Set sample_cached 1 empty_server).2);
    [|vm_compute; tauto].
  apply (cache_inv_insert ∅ sample_cached 0); [vm_compute; tauto|apply cache_inv_empty|reflexivity].
Defined.
