(* ===== verification/Memory.v ===== *)
(** * A concrete deployment

    An in-memory instance of the ports: policy and upstream tables, a registry
    that resolves tags, a metadata source, an audit log, and the Valkey caches of
    [Valkey.v] over one map.  It instantiates the theorems of the pipeline and
    runs it on scenarios. *)

From S2P Require Import Prelude GoStrings Floats Artifact Dependency Upstream PolicyConfig.
From S2P Require Import Policy Conditions Catalog Evaluator PolicyHash Effects Ports AuditLog Enrichment.
From S2P Require Import Access Valkey.
#[local] Open Scope list_scope.

(** ** Definitions *)

Record World : Type := mkWorld {
  w_kv : gmap string KVValue;
  w_policies : gmap string (list Policy);
  w_upstreams : gmap (string * string) Upstream;
  w_tags : gmap string string;
  w_metadata : gmap string ArtifactMetadata;
  w_recorded : list Decision;
  w_events : list AuditEvent;
  w_sink : option error;
  w_clock : time;
}.

Definition set_kv (m : gmap string KVValue) (w : World) : World :=
  mkWorld m (w_policies w) (w_upstreams w) (w_tags w) (w_metadata w) (w_recorded w) (w_events w)
    (w_sink w) (w_clock w).

(** A cache operation of [Valkey.v] on the deployment's map. *)
Definition on_kv {A} (m : M (gmap string KVValue) unit A) (w : World) : result A * World :=
  let '(r, st) := m (mkSt (w_kv w) []) in (r, set_kv (world st) w).

Definition found {A} (e : sentinel) (o : option A) (w : World) : result A * World :=
  (match o with Some a => Ok a | None => Err (sentinel_error e) end, w).

#[export] Instance memory_Ports : Ports World := {|
  ctx_Err _ := None;
  time_Now := w_clock;
  policies_ListByTenant t w := (Ok (default [] (w_policies w !! t)), w);
  decisions_Record d w :=
    let id := "decision-" +:+ itoa (Z.of_nat (length (w_recorded w))) in
    ((id, None), mkWorld (w_kv w) (w_policies w) (w_upstreams w) (w_tags w) (w_metadata w)
       (w_recorded w ++ [set_dec_ID id d]) (w_events w) (w_sink w) (w_clock w));
  decisionCache_Get t a h := on_kv (Some <$> DecisionCache_Get t a h);
  decisionCache_Set d ttl := on_kv (DecisionCache_Set d ttl);
  metadataCache_Get t a := on_kv (Some <$> MetadataCache_Get t a);
  metadataCache_Set t a m ttl := on_kv (MetadataCache_Set t a m ttl);
  enricher_Enrich a w := (Ok (w_metadata w !! CacheKey a), w);
  upstreams_GetByEcosystem t e w := found ErrUpstreamNotFound (Some <$> w_upstreams w !! (t, e)) w;
  upstreamClient_ResolveReference u a w := found ErrArtifactNotFound (w_tags w !! CacheKey a) w;
  contextCache_Get k := on_kv (Some <$> ContextCache_Get k);
  contextCache_Set k c ttl := on_kv (ContextCache_Set k c ttl);
  graphs_LookupContext k := found ErrArtifactNotFound None;
  queue_EnqueueResolve q w := (Ok true, w);
  recorder_Record e w :=
    match w_sink w with
    | Some err => (Err err, w)
    | None => (Ok (), mkWorld (w_kv w) (w_policies w) (w_upstreams w) (w_tags w) (w_metadata w)
                 (w_recorded w) (w_events w ++ [e]) (w_sink w) (w_clock w))
    end;
|}.

(** The services of a proxy with fail-closed auditing. *)
Definition closed_audit : AuditService := mkAuditService true true AuditFailureModeFailClosed "".
Definition proxy : AccessService :=
  mkAccess (Some closed_audit) (mkEnrichment (Some closed_audit)) (Some (mkContextService true true true)).

Definition outcome_of (r : result Decision) : option DecisionOutcome :=
  match r with Ok d => Some (dec_Outcome d) | Err _ => None end.

Definition start (w : World) : St World Call := mkSt w [].

(** ** Scenarios *)

Definition tenant_world (policies : list Policy) : World :=
  mkWorld ∅ {["t1" := policies]} ∅
    (<["oci:library/nginx:latest" := "sha256:ab"]> {["oci:library/nginx:1.27" := "sha256:ab"]})
    ∅ [] [] None 1000.

Definition npm_upstream (id : string) : Upstream :=
  mkUpstream id "t1" id EcosystemNPM "https://registry" None None zero_time zero_time.

Definition npm_request (upstreamID : string) : AccessRequest :=
  mkRequest "t1" "r1" AccessRequestKindNPMTarball
    (mkArtifact EcosystemNPM "@scope" "left-pad" "1.3.0" "") (npm_upstream upstreamID) None None 1000.

(** A block list scoped to upstream [u2]. *)
Definition scoped_policy : Policy :=
  mkPolicy "p1" "t1" "u2" "block" "blocklist" "deny" 1
    (Some (CfgNamespaceList (Some (mkNamespaceList ["@scope"] false)))) None 1 true 1 zero_time zero_time.

Definition tag_policy : Policy :=
  mkPolicy "p2" "t1" "" "no-latest" "block_mutable_tag" "deny" 1
    (Some (CfgBlockMutableTag (Some (mkBlockMutableTag ["latest"] false)))) None 1 true 1 zero_time zero_time.

Definition oci_upstream : Upstream :=
  mkUpstream "hub" "t1" "hub" EcosystemOCI "https://registry" None None zero_time zero_time.

(** The request the OCI handler makes for a manifest reference. *)
Definition oci_request (reference : string) : AccessRequest :=
  mkRequest "t1" "r1" "" (mkArtifact EcosystemOCI "library" "nginx" reference "") oci_upstream None None 1000.

Example blocked_without_cache :
  outcome_of (Evaluate proxy (npm_request "u2") (start (tenant_world [scoped_policy]))).1 = Some DecisionDeny.
Proof. vm_compute. reflexivity. Qed.

Definition after (req : AccessRequest) (w : World) : St World Call :=
  start (world (Evaluate proxy req (start w)).2).

(** ** Witnesses of the pipeline theorems *)

Lemma Evaluate_fail_closed_witness :
  ∃ l, calls (Evaluate proxy (npm_request "u2") (start (tenant_world [scoped_policy]))).2
       = calls (start (tenant_world [scoped_policy])) ++ l ∧ Forall audit_ok l.
Proof.
  eapply (Evaluate_fail_closed proxy (npm_request "u2") (start (tenant_world [scoped_policy])));
    [reflexivity|reflexivity|vm_compute; reflexivity].
Defined.

(** The decision of a run, and the state it ends in. *)
Definition run (req : AccessRequest) (w : World) : option (Decision * St World Call) :=
  match Evaluate proxy req (start w) with (Ok d, st) => Some (d, st) | _ => None end.



(** ** Properties *)

(** The decision cache is keyed by tenant, artifact and dependency context,
    but the decision also depends on the upstream and on the tag that was asked
    for.  On a deployment with an empty cache, a request through an upstream
    with a blocking policy is denied; after the same artifact was allowed
    through another upstream of the tenant it is allowed.  In the same way a
    tag that [block_mutable_tag] denies is allowed after another tag of the same
    digest was pulled. *)
Theorem decision_cache_conflates_requests :
  (let w := tenant_world [scoped_policy] in
   outcome_of (Evaluate proxy (npm_request "u2") (start w)).1 = Some DecisionDeny ∧
   outcome_of (Evaluate proxy (npm_request "u2") (after (npm_request "u1") w)).1 = Some DecisionAllow) ∧
  (let w := tenant_world [tag_policy] in
   outcome_of (Evaluate proxy (oci_request "latest") (start w)).1 = Some DecisionDeny ∧
   outcome_of (Evaluate proxy (oci_request "latest") (after (oci_request "1.27") w)).1
     = Some DecisionAllow).
Proof. vm_compute. repeat split. Qed.
