(* ===== verification/PolicyAdmin.v ===== *)
(** * Policy and upstream administration

    [internal/core/service/policy.go] and [upstream.go]: the control-plane
    workflows that change what the pipeline evaluates.  A policy mutation is
    validated, stored, recorded as a revision, and followed by the invalidation
    of the tenant's cached decisions. *)

From S2P Require Import Prelude GoStrings Floats Artifact Dependency Upstream PolicyConfig.
From S2P Require Import Policy Conditions Catalog Evaluator PolicyHash Effects.
#[local] Open Scope list_scope.

(** ** Definitions *)

Inductive AdminCall : Type :=
| AGetPolicy (tenant id : string) (r : result (option Policy))
| AListPolicies (tenant : string) (r : result (list Policy))
| AListVersions (tenant id : string) (limit : Z) (r : result (list PolicyVersion))
| ARollback (tenant id : string) (version : Z) (r : result (option Policy))
| ACreate (p : Policy) (r : result Policy)
| AUpdate (p : Policy) (r : result Policy)
| ADelete (tenant id : string) (force : bool) (r : result ())
| ARevision (tenant hash : string) (r : result ())
| AInvalidate (tenant : string) (r : result ())
| AGetUpstream (tenant id : string) (r : result (option Upstream))
| ACreateUpstream (u : Upstream) (r : result Upstream)
| AUpdateUpstream (u : Upstream) (r : result Upstream)
| ADeleteUpstream (tenant id : string) (r : result ())
| AListUpstreams (tenant : string) (r : result (list Upstream)).

(** The repositories and the decision cache.  [Create] and [Update] fill in
    identifiers, versions and times through their pointer argument. *)
Class AdminPorts (W : Type) : Type := {
  repo_GetByID : string → string → W → result (option Policy) * W;
  repo_ListByTenant : string → W → result (list Policy) * W;
  repo_ListVersions : string → string → Z → W → result (list PolicyVersion) * W;
  repo_RollbackToVersion : string → string → Z → W → result (option Policy) * W;
  repo_Create : Policy → W → result Policy * W;
  repo_Update : Policy → W → result Policy * W;
  repo_Delete : string → string → bool → W → result () * W;
  revisions_Create : string → string → W → result () * W;
  cache_InvalidateTenant : string → W → result () * W;
  upstreams_GetByID : string → string → W → result (option Upstream) * W;
  upstreams_Create : Upstream → W → result Upstream * W;
  upstreams_Update : Upstream → W → result Upstream * W;
  upstreams_Delete : string → string → W → result () * W;
  upstreams_ListByTenant : string → W → result (list Upstream) * W;
}.

(** Whether [PolicyService] was given an upstream repository. *)
Record PolicyService : Type := mkPolicyService { has_upstreams : bool }.

(** [UpstreamService]: whether it was given a policy repository, and whether
    authenticated upstreams may be stored. *)
Record UpstreamService : Type := mkUpstreamService {
  has_policies : bool;
  allowAuthenticatedUpstreams : bool;
}.

(** [errors.Join] of a non-empty list. *)
Definition errors_Join (l : list error) : error :=
  mk_error (Join (String (Ascii.ascii_of_nat 10) "") (error_msg <$> l)) (mjoin (error_chain <$> l)).

Definition set_TenantID (t : string) (p : Policy) : Policy := set_Tenant_Version t (pol_Version p) p.

(** The policy a stored version is validated as; it carries no target. *)
Definition version_policy (tenant : string) (v : PolicyVersion) : Policy :=
  mkPolicy (ver_PolicyID v) tenant (ver_UpstreamID v) (ver_Name v) (ver_Type v) (ver_Action v)
    (ver_SchemaVersion v) (ver_Config v) None (ver_Priority v) (ver_Enabled v) (ver_Version v)
    zero_time zero_time.

Definition set_ver_Config (c : option PolicyConfig) (v : PolicyVersion) : PolicyVersion :=
  mkPolicyVersion (ver_PolicyID v) (ver_Version v) (ver_UpstreamID v) (ver_Name v) (ver_Type v)
    (ver_Action v) (ver_SchemaVersion v) c (ver_Target v) (ver_Priority v) (ver_Enabled v)
    (ver_CreatedAt v).

Definition pointed {W C A} (o : option A) : M W C A :=
  match o with Some a => mret a | None => throw nil_deref end.

Definition set_Capabilities (c : option (list UpstreamCapability)) (u : Upstream) : Upstream :=
  mkUpstream (up_ID u) (up_TenantID u) (up_Name u) (up_Ecosystem u) (BaseURL u) c (Auth u)
    (up_CreatedAt u) (up_UpdatedAt u).

Section admin.
Context {W : Type} `{!AdminPorts W}.
Notation M := (M W AdminCall).

Definition GetPolicy (t i : string) : M (option Policy) := call (AGetPolicy t i) (repo_GetByID t i).
Definition ListPolicies (t : string) : M (list Policy) := call (AListPolicies t) (repo_ListByTenant t).
Definition ListVersions_call (t i : string) (n : Z) : M (list PolicyVersion) :=
  call (AListVersions t i n) (repo_ListVersions t i n).
Definition Rollback_call (t i : string) (v : Z) : M (option Policy) :=
  call (ARollback t i v) (repo_RollbackToVersion t i v).
Definition Create_call (p : Policy) : M Policy := call (ACreate p) (repo_Create p).
Definition Update_call (p : Policy) : M Policy := call (AUpdate p) (repo_Update p).
Definition Delete_call (t i : string) (f : bool) : M () := call (ADelete t i f) (repo_Delete t i f).
Definition Revision_call (t h : string) : M () := call (ARevision t h) (revisions_Create t h).
Definition InvalidateTenant (t : string) : M () := call (AInvalidate t) (cache_InvalidateTenant t).
Definition GetUpstream (t i : string) : M (option Upstream) :=
  call (AGetUpstream t i) (upstreams_GetByID t i).

Section policies.
Context (s : PolicyService).

(** *** policy.go *)

Definition validateUpstreamScope (tenant upstreamID : string) (t : PolicyType) : M () :=
  if decide (upstreamID = "") then mret ()
  else if negb (has_upstreams s) then mret ()
  else
    up ← GetUpstream tenant upstreamID;
    upstream ← pointed up;
    match ValidateUpstreamCompatibility t upstream with
    | Some e => throw e
    | None => mret ()
    end.

(** The policy as the schema default and the [Validate] calls leave it. *)
Definition validatePolicyMutation (p : Policy) : M Policy :=
  p ← (if decide (pol_SchemaVersion p = 0) then
         v ← lift (normalizeSchemaVersion (pol_Type p) (pol_SchemaVersion p));
         mret (set_SchemaVersion v p)
       else mret p);
  p ← lift (ValidatePolicy p);
  _ ← validateUpstreamScope (pol_TenantID p) (pol_UpstreamID p) (pol_Type p);
  mret p.

(** The list of errors the Go code collects. *)
Definition revision_errors (tenant : string) : M (list error) :=
  listed ← attempt (ListPolicies tenant);
  match listed with
  | Err e => mret [wrap_error "listing tenant policies for revision: " e]
  | Ok policies =>
      let '(policies, errs) :=
        match ValidatePolicies policies with
        | Ok policies => (policies, [])
        | Err e => (policies, [wrap_error "validating tenant policies for revision: " e])
        end in
      match HashPolicies policies with
      | Err e => mret (errs ++ [wrap_error "hashing tenant policy set: " e])
      | Ok hash =>
          if decide (errs = []) then
            r ← attempt (Revision_call tenant hash);
            match r with
            | Err e => mret [wrap_error "recording tenant policy revision: " e]
            | Ok _ => mret []
            end
          else mret errs
      end
  end.

Definition finalizeTenantMutation (tenant : string) : M () :=
  errs ← revision_errors tenant;
  r ← attempt (InvalidateTenant tenant);
  let errs := match r with
    | Err e => errs ++ [wrap_error "invalidating tenant decision cache: " e]
    | Ok _ => errs
    end in
  if decide (errs = []) then mret () else throw (errors_Join errs).

Definition CreatePolicy (p : Policy) : M Policy :=
  p ← validatePolicyMutation p;
  p ← wrapping "creating policy: " (Create_call p);
  _ ← wrapping "finalizing policy creation: " (finalizeTenantMutation (pol_TenantID p));
  mret p.

Definition UpdatePolicy (p : Policy) : M Policy :=
  p ← validatePolicyMutation p;
  p ← wrapping "updating policy: " (Update_call p);
  _ ← wrapping "finalizing policy update: " (finalizeTenantMutation (pol_TenantID p));
  mret p.

Definition GetPolicyByID (tenant id : string) : M Policy :=
  o ← wrapping "getting policy: " (GetPolicy tenant id);
  p ← pointed o;
  wrapping "validating loaded policy: " (lift (ValidatePolicy p)).

Definition ListPoliciesByTenant (tenant : string) : M (list Policy) :=
  policies ← wrapping "listing policies: " (ListPolicies tenant);
  wrapping "validating loaded policies: " (lift (ValidatePolicies policies)).

Fixpoint validate_versions (tenant : string) (l : list PolicyVersion) : result (list PolicyVersion) :=
  match l with
  | [] => Ok []
  | v :: l =>
      match ValidatePolicy (version_policy tenant v) with
      | Err e => Err (wrap_error ("validating stored policy version " +:+ itoa (ver_Version v) +:+ ": ") e)
      | Ok p => vs ← validate_versions tenant l; Ok (set_ver_Config (pol_Config p) v :: vs)
      end
  end.

Definition ListVersions (tenant policyID : string) : M (list PolicyVersion) :=
  versions ← wrapping "listing policy versions: "
               (ListVersions_call tenant policyID MaxRetainedPolicyVersions);
  lift (validate_versions tenant versions).

Fixpoint find_version (v : Z) (l : list PolicyVersion) : option PolicyVersion :=
  match l with
  | [] => None
  | x :: l => if decide (ver_Version x = v) then Some x else find_version v l
  end.

Definition RollbackToVersion (tenant policyID : string) (version : Z) : M Policy :=
  versions ← wrapping "listing policy versions for rollback: "
               (ListVersions_call tenant policyID MaxRetainedPolicyVersions);
  _ ← match find_version version versions with
      | Some v => wrapping "validating rolled back policy upstream: "
                    (validateUpstreamScope tenant (ver_UpstreamID v) (ver_Type v))
      | None => mret ()
      end;
  o ← wrapping "rolling back policy: " (Rollback_call tenant policyID version);
  p ← pointed o;
  p ← wrapping "validating rolled back policy: " (lift (ValidatePolicy p));
  _ ← wrapping "finalizing policy rollback: " (finalizeTenantMutation tenant);
  mret p.

Definition DeletePolicy (tenant id : string) (force : bool) : M () :=
  o ← wrapping "getting policy for delete: " (GetPolicy tenant id);
  p ← pointed o;
  if pol_Enabled p then throw (sentinel_error ErrPolicyDeleteEnabled)
  else
    _ ← wrapping "deleting policy: " (Delete_call tenant id force);
    wrapping "finalizing policy delete: " (finalizeTenantMutation tenant).

Fixpoint prepare_each (tenant : string) (imported : list Policy) : M (list Policy) :=
  match imported with
  | [] => mret []
  | p :: imported =>
      let p := set_Tenant_Version tenant (if decide (pol_Version p = 0) then 1 else pol_Version p) p in
      _ ← wrapping ("validating imported policy " +:+ quote (pol_Name p) +:+ " upstream: ")
            (validateUpstreamScope tenant (pol_UpstreamID p) (pol_Type p));
      ps ← prepare_each tenant imported;
      mret (p :: ps)
  end.

Definition prepareImportedPolicies (tenant : string) (imported : list Policy) : M (list Policy) :=
  policies ← prepare_each tenant imported;
  wrapping "validating imported policies: " (lift (ValidatePolicies policies)).

(** Later entries of the list replace earlier ones of the same name. *)
Definition by_name (l : list Policy) : gmap string Policy :=
  foldl (λ m p, <[pol_Name p := p]> m) ∅ l.

Definition existingPoliciesByName (tenant : string) : M (gmap string Policy) :=
  l ← wrapping "listing existing policies for import: " (ListPolicies tenant);
  mret (by_name l).

Definition persistImportedPolicy (p : Policy) (existing : gmap string Policy) : M (gmap string Policy) :=
  match existing !! pol_Name p with
  | None => p ← Create_call p; mret (<[pol_Name p := p]> existing)
  | Some old => p ← Update_call (set_pol_ID (pol_ID old) p); mret (<[pol_Name p := p]> existing)
  end.

(** [None] when every policy was stored; else whether an earlier one was, the
    name that failed and the error. *)
Fixpoint persistImportedPolicies (mutated : bool) (l : list Policy) (existing : gmap string Policy)
    : M (option (bool * string * error)) :=
  match l with
  | [] => mret None
  | p :: l =>
      r ← attempt (persistImportedPolicy p existing);
      match r with
      | Err e => mret (Some (mutated, pol_Name p, e))
      | Ok existing => persistImportedPolicies true l existing
      end
  end.

Definition importPersistenceError (tenant name : string) (persistErr : error) (mutated : bool) : M error :=
  let head := "persisting imported policy " +:+ quote name +:+ ": " in
  if negb mutated then mret (wrap_error head persistErr)
  else
    r ← attempt (finalizeTenantMutation tenant);
    match r with
    | Err e => mret (mk_error (head +:+ error_msg persistErr +:+ "; finalizing partial import: "
                       +:+ error_msg e) (error_chain persistErr))
    | Ok _ => mret (mk_error (head +:+ error_msg persistErr +:+
        "; partial import already recorded a new policy revision and invalidated cached decisions")
        (error_chain persistErr))
    end.

Definition ImportPolicies (tenant : string) (imported : list Policy) : M Z :=
  policies ← prepareImportedPolicies tenant imported;
  existing ← existingPoliciesByName tenant;
  failed ← persistImportedPolicies false policies existing;
  match failed with
  | Some (mutated, name, e) => e ← importPersistenceError tenant name e mutated; throw e
  | None =>
      _ ← when (bool_decide (policies ≠ []))
            (wrapping "finalizing imported policies: " (finalizeTenantMutation tenant));
      mret (Z.of_nat (length policies))
  end.
End policies.

(** *** upstream.go *)

Section upstreams.
Context (s : UpstreamService).

Definition validateAuth (u : Upstream) : option error :=
  if negb (UpstreamAuthConfigured u) then None
  else if negb (allowAuthenticatedUpstreams s) then Some (sentinel_error ErrUpstreamAuthTransportInsecure)
  else if decide (up_Ecosystem u ≠ EcosystemOCI) then
    Some (sentinel_suffix ErrUpstreamAuthInvalid ": upstream auth is only supported for OCI")
  else match Auth u with
  | None => None
  | Some a =>
      if decide (auth_Type a = UpstreamAuthBasic) then
        if decide (Username a = "" ∨ Secret a = "") then
          Some (sentinel_suffix ErrUpstreamAuthInvalid ": basic auth requires username and password")
        else None
      else if decide (auth_Type a = UpstreamAuthBearerToken) then
        if decide (Secret a = "") then
          Some (sentinel_suffix ErrUpstreamAuthInvalid ": bearer token auth requires token")
        else None
      else Some (sentinel_suffix ErrUpstreamAuthInvalid
                   (": unsupported auth type " +:+ quote (auth_Type a)))
  end.

(** The first policy scoped to the upstream that it would stop satisfying. *)
Fixpoint first_conflict (u : Upstream) (policies : list Policy) : option error :=
  match policies with
  | [] => None
  | p :: policies =>
      if decide (pol_UpstreamID p ≠ up_ID u) then first_conflict u policies
      else match ValidateUpstreamCompatibility (pol_Type p) u with
      | Some e => Some (mk_error (sentinel_text ErrUpstreamPolicyConflict +:+ ": upstream "
                    +:+ quote (up_Name u) +:+ " would no longer satisfy policy " +:+ quote (pol_Name p)
                    +:+ ": " +:+ error_msg e) (ErrUpstreamPolicyConflict :: error_chain e))
      | None => first_conflict u policies
      end
  end.

Definition validateScopedPolicies (u : Upstream) : M () :=
  if negb (has_policies s) then mret ()
  else
    policies ← wrapping "listing scoped policies for upstream update: " (ListPolicies (up_TenantID u));
    match first_conflict u policies with Some e => throw e | None => mret () end.

(** The normalised upstream that is offered to the repository. *)
Definition prepare_upstream (u : Upstream) : result Upstream :=
  capabilities ← NormalizeUpstreamCapabilities (up_Ecosystem u) (Capabilities u);
  let u := set_Capabilities (Some capabilities) u in
  match validateAuth u with Some e => Err e | None => Ok u end.

Definition CreateUpstream (u : Upstream) : M Upstream :=
  u ← lift (prepare_upstream u);
  wrapping "creating upstream: " (call (ACreateUpstream u) (upstreams_Create u)).

Definition UpdateUpstream (u : Upstream) : M Upstream :=
  u ← lift (prepare_upstream u);
  _ ← validateScopedPolicies u;
  wrapping "updating upstream: " (call (AUpdateUpstream u) (upstreams_Update u)).

Definition GetUpstreamByID (tenant id : string) : M (option Upstream) :=
  wrapping "getting upstream: " (GetUpstream tenant id).

Definition DeleteUpstream (tenant id : string) : M () :=
  wrapping "deleting upstream: " (call (ADeleteUpstream tenant id) (upstreams_Delete tenant id)).

Definition ListUpstreamsByTenant (tenant : string) : M (list Upstream) :=
  wrapping "listing upstreams: " (call (AListUpstreams tenant) (upstreams_ListByTenant tenant)).
End upstreams.
End admin.

(** ** Lemmas *)

(** *** Mutations and invalidations *)

(** Whether the tenant's cached decisions may be older than its policies: set by
    a successful mutation, cleared by an invalidation of the tenant. *)
Definition track (t : string) (stale : bool) (c : AdminCall) : bool :=
  match c with
  | ACreate _ (Ok _) | AUpdate _ (Ok _) | ADelete _ _ _ (Ok _) | ARollback _ _ _ (Ok _) => true
  | AInvalidate t' _ => if decide (t' = t) then false else stale
  | _ => stale
  end.

(** Every mutation of the log is followed by an invalidation of the tenant. *)
Definition settled (t : string) (l : list AdminCall) : Prop := foldl (track t) false l = false.

(** A call that is neither a successful mutation nor an invalidation. *)
Definition inert (c : AdminCall) : Prop := ∀ t b, track t b c = b.

Lemma inert_fold t b l : Forall inert l → foldl (track t) b l = b.
Proof. induction 1 as [|c l Hc _ IH] in b |- *; simpl; [done|]. by rewrite Hc, IH. Qed.

Section lemmas.
Context {W : Type} `{!AdminPorts W}.
Notation M := (M W AdminCall).

Lemma pointed_all {A} P (o : option A) : all P (pointed o : M A).
Proof. destruct o; [apply all_ret|apply all_throw]. Qed.

Lemma validateUpstreamScope_all s t u pt : all inert (validateUpstreamScope s t u pt).
Proof.
  unfold validateUpstreamScope, GetUpstream. walk; try apply pointed_all; done.
Qed.

(** Settling: the step leaves no stale cache behind, whatever came before. *)
Definition settles {A} (t : string) (m : M A) : Prop :=
  triple m (λ l _, ∀ b, foldl (track t) b l = false).

Lemma revision_errors_all t : all inert (revision_errors t).
Proof. unfold revision_errors, ListPolicies, Revision_call. walk; done. Qed.

Lemma finalize_settles t : settles t (finalizeTenantMutation t).
Proof.
  unfold finalizeTenantMutation.
  eapply triple_bind with (λ l r, Forall inert l ∧ is_ok r = true).
  - intros st. destruct (revision_errors_all t st) as (l & Hl & Hi). exists l. split; [done|]. split; [done|].
    unfold revision_errors, mbind, M_bind, attempt. destruct (ListPolicies t st) as [[ps|e] st1]; [|done].
    destruct (ValidatePolicies ps) as [ps'|e], (HashPolicies _) as [h|e']; simpl; try done.
    by destruct (Revision_call t h st1) as [[]].
  - intros l errs [Hi _].
    eapply triple_bind with (λ l' r, ∃ r', l' = [AInvalidate t r'] ∧ r = Ok r').
    + apply triple_attempt, triple_call. eauto.
    + intros l' r (r' & -> & [= <-]).
      assert (Hend : ∀ b, foldl (track t) b (l ++ [AInvalidate t r]) = false).
      { intros b. rewrite foldl_app. simpl. by rewrite decide_True. }
      case_decide; [apply triple_ret|apply triple_throw]; intros b; by rewrite app_nil_r.
    + intros l' e (r' & _ & [=]).
  - by intros l e [_ ?].
Qed.

Lemma wrapping_settles {A} t p (m : M A) : settles t m → settles t (wrapping p m).
Proof. intros H. by apply (triple_wrapping p m (λ l _, ∀ b, foldl (track t) b l = false)). Qed.

(** [ends t m]: from an unstale state, [m] ends unstale. *)
Definition ends {A} (t : string) (m : M A) : Prop := triple m (λ l _, settled t l).

Lemma ends_inert {A B} t (m : M A) (f : A → M B) :
  all inert m → (∀ a, ends t (f a)) → ends t (m ≫= f).
Proof.
  intros Hm Hf. eapply triple_bind; [exact Hm| |].
  - intros l a Hl. eapply triple_mono; [exact (Hf a)|]. intros l' r Hr. unfold settled.
    by rewrite foldl_app, (inert_fold t false l Hl).
  - intros l e Hl. by apply inert_fold.
Qed.

(** A mutation followed by a step that settles it. *)
Lemma ends_mutation {A B} t (c : result A → AdminCall) f (p : string) (g : A → M B) :
  (∀ e, inert (c (Err e))) → (∀ a w, (f w).1 = Ok a → settles t (g a)) →
  ends t (wrapping p (call c f) ≫= g).
Proof.
  intros Hc Hg st. unfold mbind, M_bind, wrapping, call.
  destruct (f (world st)) as [r w] eqn:E. destruct r as [a|e]; simpl.
  - destruct (Hg a (world st) (f_equal fst E) (mkSt w (calls st ++ [c (Ok a)]))) as (l & Hl & Hs).
    exists (c (Ok a) :: l). rewrite Hl. simpl. rewrite <-app_assoc. split; [done|]. apply Hs.
  - exists [c (Err e)]. split; [done|]. apply inert_fold. by repeat constructor.
Qed.

Lemma settles_bind_ret {A} t (m : M ()) (a : A) : settles t m → settles t (_ ← m; mret a).
Proof.
  intros H. eapply triple_bind; [exact H| |done].
  intros l [] Hl. apply triple_ret. by rewrite app_nil_r.
Qed.

Lemma all_ends {A} t (m : M A) : all inert m → ends t m.
Proof. intros H. eapply triple_mono; [exact H|]. intros l r Hl. by apply inert_fold. Qed.

Lemma prepare_each_all s t ps : all inert (prepare_each s t ps).
Proof.
  induction ps as [|p ps IH]; simpl; [apply all_ret|].
  apply all_bind; [apply all_wrapping, validateUpstreamScope_all|]. intros _.
  apply all_bind; [done|]. intros. apply all_ret.
Qed.

(** Persisting reports whether anything was stored. *)
Lemma persist_spec m l existing :
  triple (persistImportedPolicies m l existing) (λ c r,
    is_ok r = true ∧
    match r with
    | Ok (Some (m', _, _)) => m' = m ∧ Forall inert c ∨ m' = true
    | _ => l = [] → Forall inert c
    end).
Proof.
  revert m existing. induction l as [|p l IH]; intros m existing; cbn [persistImportedPolicies].
  { apply triple_ret. split; [done|]. by constructor. }
  eapply triple_bind with (λ c r, ∃ r', r = Ok r' ∧ match r' with Ok _ => True | Err _ => Forall inert c end).
  - apply triple_attempt. unfold persistImportedPolicy. destruct (existing !! pol_Name p) as [old|].
    all: eapply triple_bind with (λ c r, match r with Ok _ => True | Err _ => Forall inert c end);
      [apply triple_call; intros []; [done|by repeat constructor]
      |intros c a _; apply triple_ret; by eexists|intros c e Hc; by eexists].
  - intros c r (r' & [= <-] & Hr). destruct r as [ex|e].
    + eapply triple_mono; [apply IH|]. intros c' r [Hok Hm]. split; [done|].
      destruct r as [[[[m' n] e]|]|e]; try done. right. naive_solver.
    + apply triple_ret. split; [done|]. left. by rewrite app_nil_r.
  - by intros c e (r' & [=] & _).
Qed.
End lemmas.

(** The repository keeps the tenant of what it stores. *)
Class KeepsTenant (W : Type) `{!AdminPorts W} : Prop := {
  create_tenant p w p' : (repo_Create p w).1 = Ok p' → pol_TenantID p' = pol_TenantID p;
  update_tenant p w p' : (repo_Update p w).1 = Ok p' → pol_TenantID p' = pol_TenantID p;
}.

Section ends.
Context {W : Type} `{!AdminPorts W, !KeepsTenant W}.
Notation M := (M W AdminCall).

Lemma ends_runs {A B} t (I : A → Prop) (m : M A) (f : A → M B) :
  runs inert I m → (∀ a, I a → ends t (f a)) → ends t (m ≫= f).
Proof.
  intros Hm Hf. eapply triple_bind; [exact Hm| |].
  - intros l a [Hl Ha]. eapply triple_mono; [exact (Hf a (Ha a eq_refl))|]. intros l' r Hr.
    unfold settled. by rewrite foldl_app, (inert_fold t false l Hl).
  - intros l e [Hl _]. by apply inert_fold.
Qed.

(** What is offered to the repository is valid and of the same tenant. *)
Lemma validatePolicyMutation_runs s p :
  runs inert (λ p', pol_TenantID p' = pol_TenantID p ∧ ValidatePolicy p' = Ok p')
    (validatePolicyMutation s p).
Proof.
  unfold validatePolicyMutation.
  eapply runs_bind with (I := λ p1, pol_TenantID p1 = pol_TenantID p).
  { case_decide; [|by apply runs_ret]. eapply runs_bind; [apply runs_all, all_lift|].
    intros v _. by apply runs_ret. }
  intros p1 Ht. eapply runs_bind with (I := λ p2, ValidatePolicy p1 = Ok p2).
  { apply triple_lift. split; [constructor|done]. }
  intros p2 Hv. eapply runs_bind; [apply runs_all, validateUpstreamScope_all|]. intros _ _.
  apply runs_ret. pose proof (ValidatePolicy_fixed _ _ Hv) as Hf.
  apply ValidatePolicy_spec in Hv as [_ (? & ? & ? & _ & _ & _ & _ & ->)]. done.
Qed.

Lemma Create_ends s p : ends (pol_TenantID p) (CreatePolicy s p).
Proof.
  unfold CreatePolicy, Create_call. eapply ends_runs; [apply validatePolicyMutation_runs|].
  intros q [Ht _]. apply ends_mutation; [done|]. intros a w Ha%create_tenant.
  rewrite Ha, Ht. apply settles_bind_ret, wrapping_settles, finalize_settles.
Qed.

Lemma Update_ends s p : ends (pol_TenantID p) (UpdatePolicy s p).
Proof.
  unfold UpdatePolicy, Update_call. eapply ends_runs; [apply validatePolicyMutation_runs|].
  intros q [Ht _]. apply ends_mutation; [done|]. intros a w Ha%update_tenant.
  rewrite Ha, Ht. apply settles_bind_ret, wrapping_settles, finalize_settles.
Qed.

Lemma Delete_ends t id force : ends t (DeletePolicy t id force).
Proof.
  unfold DeletePolicy, GetPolicy, Delete_call.
  apply ends_inert; [apply all_wrapping, all_call; done|]. intros o.
  apply ends_inert; [apply pointed_all|]. intros p.
  destruct (pol_Enabled p); [apply all_ends, all_throw|].
  apply ends_mutation; [done|]. intros a w _. apply wrapping_settles, finalize_settles.
Qed.

Lemma Import_ends s t ps : ends t (ImportPolicies s t ps).
Proof.
  unfold ImportPolicies, prepareImportedPolicies, existingPoliciesByName, ListPolicies.
  apply ends_inert. { walk; apply prepare_each_all. }
  intros policies. apply ends_inert; [walk; done|]. intros existing.
  eapply triple_bind; [apply persist_spec| |by intros l e [? _]].
  intros l failed [_ Hf]. destruct failed as [[[m n] e]|].
  - eapply triple_bind with (λ l' r, settled t (l ++ l') ∧ is_ok r = true); [| |by intros ? ? [? ?]].
    + unfold importPersistenceError. destruct m; simpl.
      * eapply triple_bind with (λ l' r, (∀ b, foldl (track t) b l' = false) ∧ is_ok r = true).
        { apply triple_attempt. eapply triple_mono; [apply finalize_settles|]. done. }
        { intros l' r [Hl' _].
          destruct r; apply triple_ret; rewrite app_nil_r; (split; [|done]);
            unfold settled; rewrite foldl_app; apply Hl'. }
        by intros l' e' [_ ?].
      * apply triple_ret. split; [|done]. rewrite app_nil_r.
        destruct Hf as [[_ Hi]|?]; [by apply inert_fold|done].
    + intros l' e' [Hl' _]. apply triple_throw. by rewrite app_nil_r.
  - destruct policies as [|p policies].
    + apply triple_ret. rewrite app_nil_r. by apply inert_fold, Hf.
    + eapply triple_bind with (λ l' r, ∀ b, foldl (track t) b l' = false).
      * apply wrapping_settles, finalize_settles.
      * intros l' a Hl'. apply triple_ret. rewrite app_nil_r. unfold settled. rewrite foldl_app. apply Hl'.
      * intros l' e Hl'. unfold settled. rewrite foldl_app. apply Hl'.
Qed.
End ends.

Section rollback.
Context {W : Type} `{!AdminPorts W}.
Notation M := (M W AdminCall).

(** Unsettled only because what was rolled back to is not a valid policy. *)
Definition settled_or_invalid (t id : string) (v : Z) (l : list AdminCall) : Prop :=
  settled t l ∨ ∃ o, ARollback t id v (Ok o) ∈ l ∧ ∀ p, o = Some p → is_ok (ValidatePolicy p) = false.

Lemma settled_or_invalid_prefix t id v l l' :
  Forall inert l → settled_or_invalid t id v l' → settled_or_invalid t id v (l ++ l').
Proof.
  intros Hl [H|(o & Hin & Ho)]; [left|right].
  - unfold settled. rewrite foldl_app, (inert_fold t false l); [exact H|done].
  - exists o. split; [|done]. apply elem_of_app. by right.
Qed.

Lemma prefix_inert {A B} t id v (m : M A) (f : A → M B) :
  all inert m → (∀ a, triple (f a) (λ l _, settled_or_invalid t id v l)) →
  triple (m ≫= f) (λ l _, settled_or_invalid t id v l).
Proof.
  intros Hm Hf. eapply triple_bind; [exact Hm| |].
  - intros l a Hl. eapply triple_mono; [exact (Hf a)|]. intros l' r Hr. by apply settled_or_invalid_prefix.
  - intros l e Hl. left. by apply inert_fold.
Qed.

Lemma Rollback_ends s t id v :
  triple (RollbackToVersion s t id v : M Policy) (λ l _, settled_or_invalid t id v l).
Proof.
  unfold RollbackToVersion, ListVersions_call, Rollback_call.
  apply prefix_inert; [apply all_wrapping, all_call; done|]. intros versions.
  apply prefix_inert.
  { destruct (find_version v versions); [apply all_wrapping, validateUpstreamScope_all|apply all_ret]. }
  intros _ st. unfold mbind at 1, M_bind at 1, wrapping at 1, call.
  destruct (repo_RollbackToVersion t id v (world st)) as [[o|e] w]; simpl.
  2:{ eexists. split; [done|]. by left. }
  set (c := ARollback t id v (Ok o)).
  assert (Hbad : ∀ p, o = Some p → is_ok (ValidatePolicy p) = false → settled_or_invalid t id v [c]).
  { intros p -> Hp. right. exists (Some p). split; [by left|]. by intros ? [= <-]. }
  destruct o as [p|]; [destruct (ValidatePolicy p) as [p'|e] eqn:Ev|].
  - pose proof (settles_bind_ret t (wrapping "finalizing policy rollback: " (finalizeTenantMutation t)) p'
      (wrapping_settles _ _ _ (finalize_settles t)) (mkSt w (calls st ++ [c]))) as (l & Hl & Hs).
    exists (c :: l). unfold pointed, mbind at 1, M_bind at 1, mret, M_ret, mbind at 1, M_bind at 1, wrapping at 1, lift.
    rewrite Ev. simpl. unfold mret, M_ret in Hl. simpl in Hl. rewrite Hl. simpl. rewrite <-app_assoc.
    split; [done|]. left. apply Hs.
  - exists [c]. unfold pointed, mbind at 1, M_bind at 1, mret, M_ret, mbind at 1, M_bind at 1, wrapping at 1, lift.
    rewrite Ev. simpl. split; [done|]. apply (Hbad p); [done|]. by rewrite Ev.
  - exists [c]. split; [done|]. right. exists None. split; [by left|done].
Qed.
End rollback.

Section success.
Context {W : Type} `{!AdminPorts W}.

Lemma finalize_success t (st st' : St W AdminCall) :
  finalizeTenantMutation t st = (Ok (), st') →
  ∃ ps ps' h, calls st' = calls st ++ [AListPolicies t (Ok ps); ARevision t h (Ok ()); AInvalidate t (Ok ())] ∧
    ValidatePolicies ps = Ok ps' ∧ HashPolicies ps' = Ok h.
Proof.
  intros H. unfold finalizeTenantMutation in H. take_step H errs st1 H1. take_step H r st2 H2.
  apply attempt_run in H2 as (r' & [= ->] & H2). apply call_run in H2.
  destruct (decide (_ = [])) as [Hn|]; [|done]. apply ret_Ok in H as [_ <-].
  assert (errs = [] ∧ r' = Ok ()) as [-> ->].
  { destruct r' as [[]|e]; [done|]. by destruct errs. }
  unfold revision_errors in H1. take_step H1 listed st3 H3.
  apply attempt_run in H3 as (l & [= ->] & H3). apply call_run in H3.
  destruct l as [ps|e]; [|by apply ret_Ok in H1 as [? _]].
  destruct (ValidatePolicies ps) as [ps'|e] eqn:Ev.
  2:{ destruct (HashPolicies ps); simpl in H1; by apply ret_Ok in H1 as [? _]. }
  destruct (HashPolicies ps') as [h|e] eqn:Eh; [|by apply ret_Ok in H1 as [? _]].
  simpl in H1. take_step H1 rr st4 H4. apply attempt_run in H4 as (x & [= ->] & H4). apply call_run in H4.
  destruct x as [[]|e]; apply ret_Ok in H1 as [Heq <-]; [|done].
  exists ps, ps', h. rewrite H2, H4, H3, <-!app_assoc. done.
Qed.
End success.

(** ** Properties *)

(** No cached decision survives a policy change.  Whatever the repositories
    answer, and whether the operation succeeds or fails half-way, every policy
    stored, updated or deleted by [Create], [Update], [Delete] or an import is
    followed by the invalidation of the tenant's decision cache; a rollback is
    too, unless the version it restored is not a valid policy. *)
Theorem mutations_invalidate_cache {W} `{!AdminPorts W, !KeepsTenant W} s t id v p ps force :
  ends (pol_TenantID p) (CreatePolicy (W:=W) s p) ∧
  ends (pol_TenantID p) (UpdatePolicy (W:=W) s p) ∧
  ends t (DeletePolicy (W:=W) t id force) ∧
  ends t (ImportPolicies (W:=W) s t ps) ∧
  triple (W:=W) (RollbackToVersion s t id v) (λ l _, settled_or_invalid t id v l).
Proof.
  split; [apply Create_ends|]. split; [apply Update_ends|]. split; [apply Delete_ends|].
  split; [apply Import_ends|apply Rollback_ends].
Qed.

(** A created policy was valid (with its schema version filled in), was
    stored as validated, and the tenant's whole policy set was then valid, hashed
    and recorded as a revision before the cache was invalidated: a caller that
    sees success sees all of it done, in this order. *)
Theorem CreatePolicy_success {W} `{!AdminPorts W} s p (st : St W AdminCall) p' st' :
  CreatePolicy s p st = (Ok p', st') →
  ∃ l q ps ps' h, ValidatePolicy q = Ok q ∧ pol_TenantID q = pol_TenantID p ∧ Forall inert l ∧
    calls st' = calls st ++ l ++
      [ACreate q (Ok p'); AListPolicies (pol_TenantID p') (Ok ps);
       ARevision (pol_TenantID p') h (Ok ()); AInvalidate (pol_TenantID p') (Ok ())] ∧
    ValidatePolicies ps = Ok ps' ∧ HashPolicies ps' = Ok h.
Proof.
  intros H. unfold CreatePolicy in H. take_step H q st1 H1.
  destruct (runs_run _ _ _ _ _ _ (validatePolicyMutation_runs s p) H1) as (l & Hl & Hi & Ht & Hv).
  take_step H p1 st2 H2. unfold wrapping in H2. destruct (Create_call q st1) as [[a|e] st2'] eqn:Ec; [|done].
  injection H2 as -> ->. apply call_run in Ec.
  take_step H u st3 H3. apply ret_Ok in H as [-> <-]. unfold wrapping in H3.
  destruct (finalizeTenantMutation _ st2) as [[[]|e] st3'] eqn:Ef; [|done]. injection H3 as _ ->.
  apply finalize_success in Ef as (ps & ps' & h & Hcalls & Hps & Hh).
  exists l, q, ps, ps', h. rewrite Hcalls, Ec, Hl, <-!app_assoc. done.
Qed.

(** An import only writes policies of the tenant it was given, whatever
    tenant the imported documents name, and only when the imported set is valid
    as a whole. *)
Theorem ImportPolicies_tenant {W} `{!AdminPorts W} s t ps (st : St W AdminCall) :
  ∃ l, calls (ImportPolicies s t ps st).2 = calls st ++ l ∧
    Forall (λ c, match c with
      | ACreate q _ | AUpdate q _ => pol_TenantID q = t ∧ ValidatePolicy (set_pol_ID "" q) = Ok (set_pol_ID "" q)
      | AListPolicies t' _ | AInvalidate t' _ | ARevision t' _ _ | AGetUpstream t' _ _ => t' = t
      | _ => False
      end) l.
Proof.
  set (P := λ c, match c with
      | ACreate q _ | AUpdate q _ => pol_TenantID q = t ∧ ValidatePolicy (set_pol_ID "" q) = Ok (set_pol_ID "" q)
      | AListPolicies t' _ | AInvalidate t' _ | ARevision t' _ _ | AGetUpstream t' _ _ => t' = t
      | _ => False end).
  assert (Hfin : all P (finalizeTenantMutation (W:=W) t)).
  { unfold finalizeTenantMutation, revision_errors, ListPolicies, Revision_call, InvalidateTenant. walk; done. }
  assert (Hid : ∀ q i, ValidatePolicy q = Ok q → ValidatePolicy (set_pol_ID i q) = Ok (set_pol_ID i q)).
  { intros q i [H (c & c' & t' & H1 & H2 & H3 & H4 & H5)]%ValidatePolicy_spec. apply ValidatePolicy_spec.
    split; [exact H|]. exists c, c', t'. split; [done|]. split; [done|]. split; [done|]. split; [done|].
    apply (f_equal (set_pol_ID i)) in H5. exact H5. }
  assert (Hpersist : ∀ l m existing,
    Forall (λ q, pol_TenantID q = t ∧ ValidatePolicy q = Ok q) l →
    all P (persistImportedPolicies (W:=W) m l existing)).
  { induction l as [|q l IH]; intros m existing Hl; cbn [persistImportedPolicies]; [apply all_ret|].
    apply Forall_cons in Hl as [[Hq Hvq] Hl]. apply all_bind.
    - apply all_attempt. unfold persistImportedPolicy, Create_call, Update_call.
      destruct (existing !! pol_Name q); (apply all_bind; [|intros; apply all_ret]);
        apply all_call; intros r; simpl; (split; [done|]); by apply (Hid _ "") in Hvq.
    - intros [ex|e]; [by apply IH|apply all_ret]. }
  assert (Hprep : runs P (λ l, Forall (λ q, pol_TenantID q = t) l) (prepare_each (W:=W) s t ps)).
  { induction ps as [|q l IH]; simpl; [by apply runs_ret|].
    eapply runs_bind; [apply runs_all, all_wrapping|intros _ _].
    { unfold validateUpstreamScope, GetUpstream. walk; try apply pointed_all; done. }
    eapply runs_bind; [exact IH|]. intros qs Hqs. apply runs_ret. by constructor. }
  assert (H : all P (ImportPolicies (W:=W) s t ps)); [|exact (H st)].
  apply (all_runs _ (λ _, True)). unfold ImportPolicies, prepareImportedPolicies.
  eapply runs_bind with (I := λ l, Forall (λ q, pol_TenantID q = t ∧ ValidatePolicy q = Ok q) l).
  { eapply runs_bind; [exact Hprep|]. intros l Hl. apply triple_wrapping, triple_lift.
    split; [constructor|]. intros l' Hv. apply wrap_result_ok in Hv.
    unfold ValidatePolicies in Hv. apply validate_from_spec in Hv as [Hv _].
    clear -Hl Hv. induction Hv as [|q q' l l' Hq _ IH]; [constructor|].
    apply Forall_cons in Hl as [Hq' Hl]. constructor; [|by apply IH].
    pose proof (ValidatePolicy_fixed _ _ Hq). apply ValidatePolicy_spec in Hq as [_ (? & ? & ? & _ & _ & _ & _ & ->)].
    done. }
  intros policies Hpol. apply runs_all. unfold existingPoliciesByName, ListPolicies, importPersistenceError.
  walk; try done; by apply Hpersist.
Qed.

(** ** A concrete control plane *)

Record AdminWorld : Type := mkAdminWorld {
  aw_policies : list Policy;
  aw_versions : list PolicyVersion;
  aw_revisions : list (string * string);
  aw_invalidations : list string;
}.

Definition keep_version (v : PolicyVersion) (t : string) : Policy :=
  mkPolicy (ver_PolicyID v) t (ver_UpstreamID v) (ver_Name v) (ver_Type v) (ver_Action v)
    (ver_SchemaVersion v) (ver_Config v) (ver_Target v) (ver_Priority v) (ver_Enabled v)
    (ver_Version v) zero_time zero_time.

Fixpoint find_policy (id : string) (l : list Policy) : option Policy :=
  match l with [] => None | p :: l => if decide (pol_ID p = id) then Some p else find_policy id l end.

Definition no_upstreams {A} (w : AdminWorld) : result A * AdminWorld :=
  (Err (sentinel_error ErrUpstreamNotFound), w).

#[export] Instance admin_memory : AdminPorts AdminWorld := {|
  repo_GetByID t id w :=
    (match find_policy id (aw_policies w) with
     | Some p => Ok (Some p) | None => Err (sentinel_error ErrPolicyNotFound) end, w);
  repo_ListByTenant t w := (Ok (filter (λ p, pol_TenantID p = t) (aw_policies w)), w);
  repo_ListVersions t id n w := (Ok (take (Z.to_nat n) (aw_versions w)), w);
  repo_RollbackToVersion t id v w :=
    match find_version v (aw_versions w) with
    | None => (Err (sentinel_error ErrPolicyVersionNotFound), w)
    | Some x => let p := keep_version x t in
        (Ok (Some p), mkAdminWorld (p :: filter (λ q, pol_ID q ≠ id) (aw_policies w)) (aw_versions w)
           (aw_revisions w) (aw_invalidations w))
    end;
  repo_Create p w :=
    (Ok p, mkAdminWorld (p :: aw_policies w) (aw_versions w) (aw_revisions w) (aw_invalidations w));
  repo_Update p w :=
    (Ok p, mkAdminWorld (p :: filter (λ q, pol_ID q ≠ pol_ID p) (aw_policies w)) (aw_versions w)
       (aw_revisions w) (aw_invalidations w));
  repo_Delete t id f w :=
    (Ok (), mkAdminWorld (filter (λ q, pol_ID q ≠ id) (aw_policies w)) (aw_versions w)
       (aw_revisions w) (aw_invalidations w));
  revisions_Create t h w :=
    (Ok (), mkAdminWorld (aw_policies w) (aw_versions w) (aw_revisions w ++ [(t, h)]) (aw_invalidations w));
  cache_InvalidateTenant t w :=
    (Ok (), mkAdminWorld (aw_policies w) (aw_versions w) (aw_revisions w) (aw_invalidations w ++ [t]));
  upstreams_GetByID t i := no_upstreams;
  upstreams_Create u := no_upstreams;
  upstreams_Update u := no_upstreams;
  upstreams_Delete t i := no_upstreams;
  upstreams_ListByTenant t w := (Ok [], w);
|}.

#[export] Instance admin_memory_keeps : KeepsTenant AdminWorld.
Proof. split; by intros p w p' [= <-]. Qed.

Definition empty_admin : St AdminWorld AdminCall := mkSt (mkAdminWorld [] [] [] []) [].

Lemma mutations_invalidate_cache_witness :
  ends "t1" (CreatePolicy (W:=AdminWorld) (mkPolicyService true) block_policy).
Proof.
  exact (proj1 (mutations_invalidate_cache (W:=AdminWorld) (mkPolicyService true) "t1" "id" 1
    block_policy [] false)).
Defined.

Lemma CreatePolicy_success_witness :
  match CreatePolicy (mkPolicyService true) block_policy empty_admin with
  | (Ok p', st') => ∃ l q, ValidatePolicy q = Ok q ∧ Forall inert l ∧
      ∃ rest, calls st' = l ++ ACreate q (Ok p') :: rest
  | _ => False
  end.
Proof.
  destruct (CreatePolicy _ _ _) as [[p'|e] st'] eqn:E; [|vm_compute in E; discriminate E].
  destruct (CreatePolicy_success (mkPolicyService true) block_policy empty_admin p' st' E)
    as (l & q & ps & ps' & h & H1 & _ & H3 & H4 & _).
  exists l, q. split; [exact H1|]. split; [exact H3|]. eexists. exact H4.
Defined.

(** A stored version that today's catalog rejects: its action is not one the
    type supports. *)
Definition old_version : PolicyVersion :=
  mkPolicyVersion "id-block" 1 "" "block" "blocklist" "allow" 1
    (Some (CfgNamespaceList (Some (mkNamespaceList ["@scope"] false)))) None 1 true zero_time.

(** [RollbackToVersion] can change the stored policy and leave the cached
    decisions of the tenant alone: it validates the restored policy only after
    the repository has stored it, and returns before the invalidation when that
    fails. *)
Theorem rollback_can_skip_invalidation :
  let st := mkSt (mkAdminWorld [block_policy] [old_version] [] []) [] in
  let st' := (RollbackToVersion (mkPolicyService true) "t1" "id-block" 1 st).2 in
  is_ok (RollbackToVersion (mkPolicyService true) "t1" "id-block" 1 st).1 = false ∧
  aw_policies (world st') ≠ aw_policies (world st) ∧
  aw_invalidations (world st') = [] ∧ aw_revisions (world st') = [].
Proof. vm_compute. repeat split. discriminate. Qed.
