(* ===== verification/ProxyFlow.v ===== *)
(** * The request flow shared by the protocol adapters

    [internal/delivery/proxyflow]: upstream selection and the audit events of a
    proxied request, and the interfaces of the HTTP layer: what a handler reads
    of a request, the registry client, and the response it writes.  A handler is
    a program over the calls of the access pipeline and these. *)

From S2P Require Import Prelude GoStrings GoPath Floats Artifact Dependency Upstream PolicyConfig.
From S2P Require Import Policy Effects Ports AuditLog.
#[local] Open Scope list_scope.

(** ** Definitions *)

(** What the middleware left in the request and its context; the empty string
    stands for an absent upstream or request id. *)
Record HTTPRequest : Type := mkHTTPRequest {
  ctx_Tenant : option string;
  ctx_UpstreamID : string;
  ctx_RequestID : string;
  Method : string;
  URLPath : string;
  RemoteAddr : string;
}.

Record UpstreamResponse : Type := mkUpstreamResponse {
  StatusCode : Z;
  ContentType : string;
  Headers : gmap string string;
  Body : string;
}.

(** What the client receives: an error of the protocol (the code is empty for
    npm), a fixed document, or the upstream's response passed through. *)
Inductive Response : Type :=
| RespondError (status : Z) (code message : string)
| RespondJSON (status : Z) (body : string)
| RespondStream (r : UpstreamResponse).

Inductive DeliveryCall : Type :=
| DCore (c : Call)
| DUpstreamGetByID (tenant id : string) (r : result (option Upstream))
| DHasRecentAllow (tenant : string) (e : EcosystemType) (namespace name : string) (r : result bool)
| DFetchMetadata (u : Upstream) (a : ArtifactIdentity) (r : result (option UpstreamResponse))
| DFetchContent (u : Upstream) (locator : string) (r : result (option UpstreamResponse))
| DHeader (name value : string)
| DRespond (r : Response).

Class DeliveryPorts (W : Type) : Type := {
  upstreamRepo_GetByID : string → string → W → result (option Upstream) * W;
  decisions_HasRecentAllow : string → EcosystemType → string → string → W → result bool * W;
  client_FetchMetadata : Upstream → ArtifactIdentity → W → result (option UpstreamResponse) * W;
  client_FetchContent : Upstream → string → W → result (option UpstreamResponse) * W;
}.

(** [AuditContext] *)
Record AuditContext : Type := mkAuditContext {
  ac_TenantID : string;
  ac_CorrelationID : string;
  ac_Source : string;
  ac_UpstreamID : string;
  ac_Artifact : ArtifactIdentity;
  ac_Operation : string;
}.

Definition set_ac_Artifact (a : ArtifactIdentity) (c : AuditContext) : AuditContext :=
  mkAuditContext (ac_TenantID c) (ac_CorrelationID c) (ac_Source c) (ac_UpstreamID c) a (ac_Operation c).
Definition set_ac_UpstreamID (u : string) (c : AuditContext) : AuditContext :=
  mkAuditContext (ac_TenantID c) (ac_CorrelationID c) (ac_Source c) u (ac_Artifact c) (ac_Operation c).

Abbreviation payload := (list (string * Any)).

Definition basePayload (operation : string) : payload := [("operation", AnyString operation)].

(** The entries of [extra] replace those of the same key. *)
Definition mergePayload (base extra : payload) : payload :=
  filter (λ kv, kv.1 ∉ extra.*1) base ++ extra.

Definition requestAuditEvent (audit : AuditContext) (type : AuditEventType) (message : string)
    (decision : option Decision) (extra : payload) : AuditEvent :=
  let body := Some (mergePayload (basePayload (ac_Operation audit)) extra) in
  match decision with
  | None => mkAuditEvent (ac_TenantID audit) (ac_CorrelationID audit) type (ac_Source audit) "" ""
              (ac_UpstreamID audit) "" "" (ac_Artifact audit) message body zero_time
  | Some d => mkAuditEvent (ac_TenantID audit) (ac_CorrelationID audit) type (ac_Source audit) "decision"
                (dec_ID d) (ac_UpstreamID audit) (dec_PolicyID d) (dec_Outcome d) (dec_Artifact d) message
                body zero_time
  end.

Definition received_event (audit : AuditContext) (r : HTTPRequest) (message : string) (extra : payload)
    : AuditEvent :=
  mkAuditEvent (ac_TenantID audit) (ac_CorrelationID audit) AuditEventProxyRequestReceived (ac_Source audit)
    "" "" (ac_UpstreamID audit) "" "" (ac_Artifact audit) message
    (Some (mergePayload (basePayload (ac_Operation audit) ++
       [("method", AnyString (Method r)); ("path", AnyString (URLPath r));
        ("remote_addr", AnyString (RemoteAddr r))]) extra)) zero_time.

(** [NewAccessRequest], with the kind the caller sets. *)
Definition NewAccessRequest (r : HTTPRequest) (tenantID : string) (u : Upstream) (a : ArtifactIdentity)
    (kind : AccessRequestKind) (now : time) : AccessRequest :=
  mkRequest tenantID (ctx_RequestID r) kind a u None None now.

Section flow.
Context {W : Type} `{!Ports W, !DeliveryPorts W}.
Notation M := (M W DeliveryCall).

(** Running a program of the core services inside a handler. *)
Definition core {A} (m : Effects.M W Call A) : M A := λ st,
  let '(r, s) := m (mkSt (world st) []) in (r, mkSt (world s) (calls st ++ (DCore <$> calls s))).

Definition respond (r : Response) : M () := λ st, (Ok (), mkSt (world st) (calls st ++ [DRespond r])).
Definition add_header (name value : string) : M () := λ st,
  (Ok (), mkSt (world st) (calls st ++ [DHeader name value])).

Definition FetchMetadata (u : Upstream) (a : ArtifactIdentity) : M (option UpstreamResponse) :=
  call (DFetchMetadata u a) (client_FetchMetadata u a).
Definition FetchContent (u : Upstream) (locator : string) : M (option UpstreamResponse) :=
  call (DFetchContent u locator) (client_FetchContent u locator).
Definition HasRecentAllow (tenant : string) (a : ArtifactIdentity) : M bool :=
  call (DHasRecentAllow tenant (Ecosystem a) (Namespace a) (Name a))
    (decisions_HasRecentAllow tenant (Ecosystem a) (Namespace a) (Name a)).

(** A nil pointer is a panic. *)
Definition deref {A} (o : option A) : M A :=
  match o with Some a => mret a | None => throw nil_deref end.

Definition ResolveUpstream (r : HTTPRequest) (tenantID : string) (ecosystem : EcosystemType)
    : M (option Upstream) :=
  if decide (ctx_UpstreamID r ≠ "") then
    o ← call (DUpstreamGetByID tenantID (ctx_UpstreamID r)) (upstreamRepo_GetByID tenantID (ctx_UpstreamID r));
    u ← deref o;
    if decide (up_Ecosystem u ≠ ecosystem) then throw (sentinel_error ErrUpstreamNotFound)
    else mret (Some u)
  else core (GetByEcosystem tenantID ecosystem).

Section audit.
Context (audit_service : option AuditService).

Definition record (e : AuditEvent) : M () := core (audit_Record audit_service e).

Definition RecordRequestReceived (audit : AuditContext) (r : HTTPRequest) (message : string)
    (extra : payload) : M () := record (received_event audit r message extra).

Definition RecordRequestDenied (audit : AuditContext) (d : Decision) (message : string) : M () :=
  record (requestAuditEvent audit AuditEventRequestDenied message (Some d)
    [("reason", AnyString (dec_Reason d)); ("reasons", AnyReasons (dec_Reasons d))]).

Definition RecordRequestAllowed (audit : AuditContext) (d : Decision) (message : string) : M () :=
  record (requestAuditEvent audit AuditEventRequestAllowed message (Some d)
    [("warnings", AnyStrings (dec_Warnings d)); ("reasons", AnyReasons (dec_Reasons d))]).

Definition RecordSimpleRequestAllowed (audit : AuditContext) (message : string) : M () :=
  record (requestAuditEvent audit AuditEventRequestAllowed message None []).

Definition RecordSimpleRequestDenied (audit : AuditContext) (reason message : string) : M () :=
  record (requestAuditEvent audit AuditEventRequestDenied message None [("reason", AnyString reason)]).

Definition RecordUpstreamFetchStarted (audit : AuditContext) (message : string) : M () :=
  record (requestAuditEvent audit AuditEventUpstreamFetchStarted message None []).

Definition RecordUpstreamFetchFailed (audit : AuditContext) (message : string) (e : error) : M () :=
  record (requestAuditEvent audit AuditEventUpstreamFetchFailed message None
    [("error", AnyString (error_msg e))]).
End audit.

(** ** Lemmas *)

Lemma triple_core {A} (m : Effects.M W Call A) (Q : list DeliveryCall → result A → Prop) :
  (∀ w, Q (DCore <$> calls (m (mkSt w [])).2) (m (mkSt w [])).1) → triple (core m) Q.
Proof.
  intros H st. specialize (H (world st)). unfold core. destruct (m (mkSt (world st) [])) as [r s]. eauto.
Qed.

Lemma all_core {A} (P : DeliveryCall → Prop) (m : Effects.M W Call A) :
  (∀ c, P (DCore c)) → all P (core m).
Proof.
  intros H. apply triple_core. intros w. generalize (calls (m (mkSt w [])).2). intros l.
  induction l; constructor; auto.
Qed.

Lemma triple_respond r (Q : list DeliveryCall → result () → Prop) : Q [DRespond r] (Ok ()) → triple (respond r) Q.
Proof. intros H st. eauto. Qed.
Lemma all_respond P r : P (DRespond r) → all P (respond r).
Proof. intros H. apply triple_respond. by repeat constructor. Qed.
Lemma all_add_header P n v : P (DHeader n v) → all P (add_header n v).
Proof. intros H st. exists [DHeader n v]. split; [done|]. by repeat constructor. Qed.
Lemma all_deref {A} P (o : option A) : all P (deref o).
Proof. destruct o; [apply all_ret|apply all_throw]. Qed.
End flow.
#[export] Hint Resolve all_core all_respond all_add_header all_deref : calls.
