(* ===== verification/Delivery.v ===== *)
(** * The registry handlers

    [internal/delivery/oci/handler.go] and the tarball flow of
    [internal/delivery/npm/handler.go]: from a routed request to the upstream's
    content, or a refusal. *)

From S2P Require Import Prelude GoStrings GoPath Paths Floats Artifact Dependency Upstream PolicyConfig.
From S2P Require Import Policy Conditions Catalog Evaluator PolicyHash Effects Ports AuditLog Enrichment.
From S2P Require Import Access Valkey Memory ProxyFlow.
#[local] Open Scope list_scope.

(** ** Definitions *)

Definition StatusOK : Z := 200.
Definition StatusBadRequest : Z := 400.
Definition StatusUnauthorized : Z := 401.
Definition StatusForbidden : Z := 403.
Definition StatusNotFound : Z := 404.
Definition StatusInternalServerError : Z := 500.
Definition StatusBadGateway : Z := 502.

(** [RegistryHandler], of either protocol. *)
Record RegistryHandler : Type := mkHandler {
  h_access : AccessService;
  h_audit : option AuditService;
}.

Record npmAccessContext : Type := mkNPMAccess {
  na_tenantID : string;
  na_upstream : Upstream;
  na_artifact : ArtifactIdentity;
  na_audit : AuditContext;
  na_decision : Decision;
}.

(** [strings.TrimRight(s, "/")] *)
Definition trim_right_slash : string → string := trim_right (λ c, bool_decide (c = "/"%char)).

Definition set_BaseURL (url : string) (u : Upstream) : Upstream :=
  mkUpstream (up_ID u) (up_TenantID u) (up_Name u) (up_Ecosystem u) url (Capabilities u) (Auth u)
    (up_CreatedAt u) (up_UpdatedAt u).

Section handlers.
Context {W : Type} `{!Ports W, !DeliveryPorts W}.
Notation M := (M W DeliveryCall).
Context (h : RegistryHandler).

(** The step [if err := m(); err != nil { refuse; return false }; return true]. *)
Definition or_refuse (m : M ()) (refuse : M ()) : M bool :=
  r ← attempt m;
  match r with Ok _ => mret true | Err _ => _ ← refuse; mret false end.

(** *** npm *)

Definition writeNPMError (message : string) (status : Z) : M () := respond (RespondError status "" message).

Definition addWarningHeaders (d : Decision) : M () := for_each (add_header "npm-notice") (dec_Warnings d).

Definition startNPMRequest (r : HTTPRequest) (name version kind operation : string)
    : M (option npmAccessContext) :=
  match ctx_Tenant r with
  | None => _ ← writeNPMError "tenant not identified" StatusUnauthorized; mret None
  | Some tenant =>
      u ← attempt (ResolveUpstream r tenant EcosystemNPM);
      match u with
      | Err _ => _ ← writeNPMError "no npm upstream configured" StatusNotFound; mret None
      | Ok o =>
          upstream ← deref o;
          let artifact := mkArtifact EcosystemNPM "" name version "" in
          now ← core Now;
          let req := NewAccessRequest r tenant upstream artifact kind now in
          let audit := mkAuditContext tenant (req_RequestID req) "delivery/npm" (up_ID upstream)
                         artifact operation in
          ok ← or_refuse (RecordRequestReceived (h_audit h) audit r ("npm " +:+ operation +:+ " request received") [])
                 (writeNPMError "audit logging unavailable" StatusInternalServerError);
          if negb ok then mret None
          else
            d ← attempt (core (Evaluate (h_access h) req));
            match d with
            | Err _ => _ ← writeNPMError "policy evaluation error" StatusInternalServerError; mret None
            | Ok d => mret (Some (mkNPMAccess tenant upstream artifact audit d))
            end
      end
  end.

Definition authorizeTarball (a : npmAccessContext) : M bool :=
  let refuse := writeNPMError "audit logging unavailable" StatusInternalServerError in
  if decide (dec_Outcome (na_decision a) = DecisionDeny) then
    ok ← or_refuse (RecordRequestDenied (h_audit h) (na_audit a) (na_decision a) "npm tarball request denied") refuse;
    _ ← when ok (writeNPMError ("policy violation: " +:+ dec_Reason (na_decision a)) StatusForbidden);
    mret false
  else
    _ ← addWarningHeaders (na_decision a);
    or_refuse (RecordRequestAllowed (h_audit h) (na_audit a) (na_decision a) "npm tarball request allowed") refuse.

Definition streamTarball (u : Upstream) (audit : AuditContext) (name version : string) : M () :=
  r ← attempt (FetchContent u (tarballFilename name version));
  match r with
  | Err e =>
      if errors_Is e ErrArtifactNotFound then writeNPMError "tarball not found" StatusNotFound
      else
        _ ← ignore (RecordUpstreamFetchFailed (h_audit h) audit "npm upstream tarball fetch failed" e);
        writeNPMError "upstream error" StatusBadGateway
  | Ok o => resp ← deref o; respond (RespondStream resp)
  end.

Definition handleTarball (r : HTTPRequest) (name version : string) : M () :=
  a ← startNPMRequest r name version AccessRequestKindNPMTarball "tarball";
  match a with
  | None => mret ()
  | Some a =>
      ok ← authorizeTarball a;
      if negb ok then mret ()
      else
        ok ← or_refuse (RecordUpstreamFetchStarted (h_audit h) (na_audit a) "npm upstream tarball fetch started")
               (writeNPMError "audit logging unavailable" StatusInternalServerError);
        when ok (streamTarball (na_upstream a) (na_audit a) name version)
  end.

(** *** OCI *)

Definition writeOCIError (code message : string) (status : Z) : M () :=
  respond (RespondError status code message).

Definition audit_unavailable : M () := writeOCIError "DENIED" "audit logging unavailable" StatusInternalServerError.

Definition versionCheck : M () := respond (RespondJSON StatusOK "{}").

Definition authorizeManifest (audit : AuditContext) (d : Decision) : M bool :=
  if decide (dec_Outcome d = DecisionDeny) then
    ok ← or_refuse (RecordRequestDenied (h_audit h) audit d "oci manifest request denied") audit_unavailable;
    _ ← when ok (writeOCIError "DENIED" ("policy violation: " +:+ dec_Reason d) StatusForbidden);
    mret false
  else
    ok ← or_refuse (RecordRequestAllowed (h_audit h) audit d "oci manifest request allowed") audit_unavailable;
    if negb ok then mret false
    else or_refuse (RecordUpstreamFetchStarted (h_audit h) audit "oci manifest fetch started") audit_unavailable.

Definition streamManifest (u : Upstream) (audit : AuditContext) (artifact : ArtifactIdentity) : M () :=
  r ← attempt (FetchMetadata u artifact);
  match r with
  | Err e =>
      if errors_Is e ErrArtifactNotFound then writeOCIError "MANIFEST_UNKNOWN" "manifest not found" StatusNotFound
      else
        _ ← ignore (RecordUpstreamFetchFailed (h_audit h) (set_ac_Artifact artifact audit) "oci manifest fetch failed" e);
        writeOCIError "MANIFEST_UNKNOWN" "upstream error" StatusBadGateway
  | Ok o => resp ← deref o; respond (RespondStream resp)
  end.

Definition handleManifest (r : HTTPRequest) (repo reference : string) : M () :=
  match ctx_Tenant r with
  | None => writeOCIError "UNAUTHORIZED" "tenant not identified" StatusUnauthorized
  | Some tenant =>
      u ← attempt (ResolveUpstream r tenant EcosystemOCI);
      match u with
      | Err _ => writeOCIError "NAME_UNKNOWN" "no OCI upstream configured" StatusNotFound
      | Ok o =>
          upstream ← deref o;
          let '(namespace, name) := splitRepo repo in
          let artifact := mkArtifact EcosystemOCI namespace name reference "" in
          now ← core Now;
          let req := NewAccessRequest r tenant upstream artifact "" now in
          let audit := mkAuditContext tenant (req_RequestID req) "delivery/oci" (up_ID upstream)
                         artifact "manifest" in
          ok ← or_refuse (RecordRequestReceived (h_audit h) audit r "oci manifest request received"
                 [("reference", AnyString reference); ("repository", AnyString repo)]) audit_unavailable;
          if negb ok then mret ()
          else
            d ← attempt (core (Evaluate (h_access h) req));
            match d with
            | Err _ => writeOCIError "DENIED" "policy evaluation error" StatusInternalServerError
            | Ok d =>
                ok ← authorizeManifest audit d;
                when ok (streamManifest upstream audit (dec_Artifact d))
            end
      end
  end.

Definition authorizeBlob (tenantID : string) (artifact : ArtifactIdentity) (audit : AuditContext) : M bool :=
  allowed ← attempt (HasRecentAllow tenantID artifact);
  match allowed with
  | Err _ => _ ← writeOCIError "DENIED" "policy check error" StatusInternalServerError; mret false
  | Ok true => mret true
  | Ok false =>
      let reason := "no manifest-level allow decision for this repository" in
      ok ← or_refuse (RecordSimpleRequestDenied (h_audit h) audit reason "oci blob request denied") audit_unavailable;
      _ ← when ok (writeOCIError "DENIED" reason StatusForbidden);
      mret false
  end.

Definition streamBlob (u : Upstream) (audit : AuditContext) (digest : string) : M () :=
  r ← attempt (FetchContent u digest);
  match r with
  | Err e =>
      if errors_Is e ErrArtifactNotFound then writeOCIError "BLOB_UNKNOWN" "blob not found" StatusNotFound
      else
        _ ← ignore (RecordUpstreamFetchFailed (h_audit h) audit "oci blob fetch failed" e);
        writeOCIError "BLOB_UNKNOWN" "upstream error" StatusBadGateway
  | Ok o => resp ← deref o; respond (RespondStream resp)
  end.

Definition handleBlob (r : HTTPRequest) (repo digest : string) : M () :=
  match ctx_Tenant r with
  | None => writeOCIError "UNAUTHORIZED" "tenant not identified" StatusUnauthorized
  | Some tenant =>
      let '(namespace, name) := splitRepo repo in
      let artifact := mkArtifact EcosystemOCI namespace name "" "" in
      let audit := mkAuditContext tenant (ctx_RequestID r) "delivery/oci" ""
                     (mkArtifact EcosystemOCI namespace name "" digest) "blob" in
      ok ← or_refuse (RecordRequestReceived (h_audit h) audit r "oci blob request received"
             [("repository", AnyString repo); ("digest", AnyString digest)]) audit_unavailable;
      if negb ok then mret ()
      else
        ok ← authorizeBlob tenant artifact audit;
        if negb ok then mret ()
        else
          u ← attempt (ResolveUpstream r tenant EcosystemOCI);
          match u with
          | Err _ => writeOCIError "NAME_UNKNOWN" "no OCI upstream configured" StatusNotFound
          | Ok o =>
              upstream ← deref o;
              let blobUpstream := set_BaseURL (trim_right_slash (BaseURL upstream) +:+ "/v2/" +:+ repo) upstream in
              let audit := set_ac_UpstreamID (up_ID upstream) audit in
              ok ← or_refuse (RecordSimpleRequestAllowed (h_audit h) audit "oci blob request allowed") audit_unavailable;
              if negb ok then mret ()
              else
                ok ← or_refuse (RecordUpstreamFetchStarted (h_audit h) audit "oci blob fetch started") audit_unavailable;
                when ok (streamBlob blobUpstream audit digest)
          end
  end.

Definition oci_route (r : HTTPRequest) : M () :=
  let path := URLPath r in
  if decide (path = "/v2/" ∨ path = "/v2") then versionCheck
  else
    let rest := TrimPrefix path "/v2/" in
    match parseManifestPath rest with
    | Some (repo, ref) => handleManifest r repo ref
    | None =>
        match parseBlobPath rest with
        | Some (repo, digest) => handleBlob r repo digest
        | None => writeOCIError "NAME_UNKNOWN" "unsupported OCI endpoint" StatusNotFound
        end
    end.
End handlers.

(** ** Lemmas *)

(** Neither a fetch of upstream content nor content for the client. *)
Definition quiet_call (c : DeliveryCall) : Prop :=
  match c with
  | DFetchMetadata _ _ _ | DFetchContent _ _ _ | DRespond (RespondStream _) => False
  | _ => True
  end.

#[export] Hint Extern 1 (quiet_call _) => exact I : calls.

(** The fetch that returned a response. *)
Definition fetched (resp : UpstreamResponse) (c : DeliveryCall) : Prop :=
  match c with
  | DFetchMetadata _ _ (Ok (Some r)) | DFetchContent _ _ (Ok (Some r)) => r = resp
  | _ => False
  end.

(** All fetches are of the form [F], and content is only passed on from one. *)
Definition serves_only (F : DeliveryCall → Prop) (l : list DeliveryCall) : Prop :=
  Forall (λ c, match c with
    | DFetchMetadata _ _ _ | DFetchContent _ _ _ => F c
    | DRespond (RespondStream resp) => Exists (fetched resp) l
    | _ => True
    end) l.

Lemma serves_only_quiet F l : Forall quiet_call l → serves_only F l.
Proof.
  intros H. unfold serves_only. generalize l at 1. intros l'.
  induction H as [|c l Hc _ IH]; constructor; [|done]. by destruct c as [| | | | | |[]].
Qed.

Lemma serves_only_app F l1 l2 : serves_only F l1 → serves_only F l2 → serves_only F (l1 ++ l2).
Proof.
  intros H1 H2. apply Forall_app. split; [eapply Forall_impl; [exact H1|]|eapply Forall_impl; [exact H2|]];
    intros c Hc; destruct c as [| | | | | |[]]; try done; apply Exists_app; auto.
Qed.

Section lemmas.
Context {W : Type} `{!Ports W, !DeliveryPorts W}.
Notation M := (M W DeliveryCall).
Context (h : RegistryHandler).

(** [quietly I m]: [m] fetches nothing and sends no content, and a value it
    returns satisfies [I] of the calls made. *)
Definition quietly {A} (I : list DeliveryCall → A → Prop) (m : M A) : Prop :=
  triple m (λ l r, Forall quiet_call l ∧ ∀ a, r = Ok a → I l a).

Lemma quietly_bind {A B} I (J : list DeliveryCall → B → Prop) (m : M A) (f : A → M B) :
  quietly I m → (∀ l a, I l a → quietly (λ l', J (l ++ l')) (f a)) → quietly J (m ≫= f).
Proof.
  intros Hm Hf. eapply triple_bind; [exact Hm| |].
  - intros l a [Hl Ha]. eapply triple_mono; [exact (Hf l a (Ha a eq_refl))|].
    intros l' r [Hl' Hr]. split; [by apply Forall_app|done].
  - intros l e [Hl _]. done.
Qed.

Lemma quietly_ret {A} (I : list DeliveryCall → A → Prop) a : I [] a → quietly I (mret a).
Proof. intros H. apply triple_ret. split; [constructor|]. by intros ? [= <-]. Qed.

Lemma quietly_all {A} (m : M A) : all quiet_call m → quietly (λ _ _, True) m.
Proof. intros H. eapply triple_mono; [exact H|]. done. Qed.

(** A quiet step, then the rest. *)
Lemma quietly_then {A B} I (F : list DeliveryCall → DeliveryCall → Prop) (m : M A) (f : A → M B) :
  quietly I m →
  (∀ l a, I l a → triple (f a) (λ l' _, serves_only (F (l ++ l')) l')) →
  triple (m ≫= f) (λ l _, serves_only (F l) l).
Proof.
  intros Hm Hf. eapply triple_bind; [exact Hm| |].
  - intros l a [Hl Ha]. eapply triple_mono; [exact (Hf l a (Ha a eq_refl))|].
    intros l' r Hr. apply serves_only_app; [by apply serves_only_quiet|done].
  - intros l e [Hl _]. by apply serves_only_quiet.
Qed.

Lemma all_serves {A} F (m : M A) : all quiet_call m → triple m (λ l _, serves_only (F l) l).
Proof. intros H. eapply triple_mono; [exact H|]. intros l r Hl. by apply serves_only_quiet. Qed.

Lemma or_refuse_all P (m refuse : M ()) : all P m → all P refuse → all P (or_refuse m refuse).
Proof. intros H1 H2. unfold or_refuse. walk. Qed.

Lemma record_quiet a e : all quiet_call (record (W:=W) a e).
Proof. by apply all_core. Qed.

Lemma writeNPMError_quiet m s : all quiet_call (writeNPMError (W:=W) m s).
Proof. by apply all_respond. Qed.
Lemma writeOCIError_quiet c m s : all quiet_call (writeOCIError (W:=W) c m s).
Proof. by apply all_respond. Qed.
Lemma audit_unavailable_quiet : all quiet_call (audit_unavailable (W:=W)).
Proof. by apply all_respond. Qed.

Lemma ResolveUpstream_quiet r t e : all quiet_call (ResolveUpstream (W:=W) r t e).
Proof. unfold ResolveUpstream. walk. Qed.
End lemmas.
#[export] Hint Resolve or_refuse_all record_quiet ResolveUpstream_quiet writeNPMError_quiet
  writeOCIError_quiet audit_unavailable_quiet : calls.

Section served.
Context {W : Type} `{!Ports W, !DeliveryPorts W}.
Notation M := (M W DeliveryCall).
Context (h : RegistryHandler).

(** The access pipeline was run on the request and decided [d]. *)
Definition evaluated (l : list DeliveryCall) (req : AccessRequest) (d : Decision) : Prop :=
  ∃ w l1 l2, (Evaluate (h_access h) req (mkSt w [])).1 = Ok d ∧
    l = l1 ++ (DCore <$> calls (Evaluate (h_access h) req (mkSt w [])).2) ++ l2.

Lemma evaluated_app l0 l l' req d : evaluated l req d → evaluated (l0 ++ l ++ l') req d.
Proof.
  intros (w & l1 & l2 & H & ->). exists w, (l0 ++ l1), (l2 ++ l'). split; [done|]. by rewrite <-!app_assoc.
Qed.

Lemma evaluated_l l0 l req d : evaluated l req d → evaluated (l0 ++ l) req d.
Proof. intros H. apply (evaluated_app l0 l []) in H. by rewrite app_nil_r in H. Qed.
Lemma evaluated_r l l' req d : evaluated l req d → evaluated (l ++ l') req d.
Proof. apply (evaluated_app []). Qed.

Lemma evaluate_quietly req :
  quietly (λ l r, ∀ d, r = Ok d → evaluated l req d) (attempt (core (Evaluate (W:=W) (h_access h) req))).
Proof.
  apply triple_attempt, triple_core. intros w. split.
  - generalize (calls (Evaluate (h_access h) req (mkSt w [])).2). intros l. by induction l; constructor.
  - intros a [= <-] d Hd. exists w, [], []. split; [done|]. by rewrite app_nil_r.
Qed.

(** The upstream the request was resolved to is the one that is fetched from. *)
Definition started (r : HTTPRequest) (name version kind : string) (l : list DeliveryCall)
    (o : option npmAccessContext) : Prop :=
  ∀ a, o = Some a → na_artifact a = mkArtifact EcosystemNPM "" name version "" ∧
    ∃ now, ctx_Tenant r = Some (na_tenantID a) ∧
    evaluated l (NewAccessRequest r (na_tenantID a) (na_upstream a)
      (mkArtifact EcosystemNPM "" name version "") kind now) (na_decision a).

Lemma startNPMRequest_quietly r name version kind operation :
  quietly (started r name version kind) (startNPMRequest h r name version kind operation).
Proof.
  unfold startNPMRequest. destruct (ctx_Tenant r) as [tenant|] eqn:Ht.
  2:{ eapply quietly_bind; [apply quietly_all; walk|]. intros. by apply quietly_ret. }
  eapply quietly_bind; [apply quietly_all; walk|]. intros l1 u _. destruct u as [o|e].
  2:{ eapply quietly_bind; [apply quietly_all; walk|]. intros. by apply quietly_ret. }
  eapply quietly_bind; [apply quietly_all; walk|]. intros l2 upstream _.
  eapply quietly_bind; [apply quietly_all, all_core; done|]. intros l3 now _.
  eapply quietly_bind; [apply quietly_all; unfold RecordRequestReceived; walk|]. intros l4 ok _.
  destruct ok; [|by apply quietly_ret]. simpl.
  eapply quietly_bind; [apply evaluate_quietly|]. intros l5 d Hd. destruct d as [d|e].
  2:{ eapply quietly_bind; [apply quietly_all; walk|]. intros. by apply quietly_ret. }
  apply quietly_ret. intros a [= <-]. split; [done|]. exists now. split; [done|]. simpl.
  do 4 apply evaluated_l. by apply evaluated_r, Hd.
Qed.

Lemma authorizeTarball_quietly a :
  quietly (λ _ ok, ok = true → dec_Outcome (na_decision a) ≠ DecisionDeny) (authorizeTarball (W:=W) h a).
Proof.
  unfold authorizeTarball. case_decide as Hd.
  - eapply quietly_bind; [apply quietly_all; unfold RecordRequestDenied; walk|]. intros l1 ok _.
    eapply quietly_bind; [apply quietly_all; walk|]. intros l2 _ _. by apply quietly_ret.
  - eapply triple_mono.
    + apply quietly_all. unfold addWarningHeaders, RecordRequestAllowed. walk.
    + intros l r [Hl _]. done.
Qed.

(** Passing a fetched response on. *)
Lemma stream_serves (m : M (option UpstreamResponse)) (f : result (option UpstreamResponse) → DeliveryCall)
    (k : result (option UpstreamResponse) → M ()) (F : DeliveryCall → Prop) :
  triple m (λ l r, l = [f r]) →
  (∀ r, serves_only F [f r]) → (∀ resp, fetched resp (f (Ok (Some resp)))) →
  (∀ e, all quiet_call (k (Err e))) →
  (∀ o, k (Ok o) = (resp ← deref o; respond (RespondStream resp))) →
  triple (attempt m ≫= k) (λ l _, serves_only F l).
Proof.
  intros Hm Hf Hresp Hk Hok. eapply triple_bind with (λ l r, ∃ r', r = Ok r' ∧ l = [f r']).
  - apply triple_attempt. eapply triple_mono; [exact Hm|]. intros l r ->. eauto.
  - intros l r (r' & [= <-] & ->). destruct r as [[resp|]|e].
    + rewrite Hok. intros st. exists [DRespond (RespondStream resp)]. split; [done|].
      specialize (Hf (Ok (Some resp))). specialize (Hresp resp). apply Forall_app. split.
      * eapply Forall_impl; [exact Hf|]. intros c Hc. destruct c as [| | | | | |[]]; try done.
        by apply Exists_app; left.
      * repeat constructor. done.
    + rewrite Hok. apply triple_throw. rewrite app_nil_r. apply Hf.
    + eapply triple_mono; [exact (Hk e)|]. intros l' r Hl. apply serves_only_app; [apply Hf|].
      by apply serves_only_quiet.
  - by intros l e (r' & [=] & _).
Qed.

Lemma FetchContent_log u locator : triple (FetchContent u locator : M _) (λ l r, l = [DFetchContent u locator r]).
Proof. by apply triple_call. Qed.
Lemma FetchMetadata_log u a : triple (FetchMetadata u a : M _) (λ l r, l = [DFetchMetadata u a r]).
Proof. by apply triple_call. Qed.

Lemma streamTarball_serves u audit name version (F : DeliveryCall → Prop) :
  (∀ r, F (DFetchContent u (tarballFilename name version) r)) →
  triple (streamTarball (W:=W) h u audit name version) (λ l _, serves_only F l).
Proof.
  intros HF. unfold streamTarball. eapply stream_serves; [apply FetchContent_log|..]; try done.
  - intros r. by repeat constructor.
  - intros e. unfold RecordUpstreamFetchFailed. walk. Qed.

Lemma streamManifest_serves u audit a (F : DeliveryCall → Prop) :
  (∀ r, F (DFetchMetadata u a r)) → triple (streamManifest (W:=W) h u audit a) (λ l _, serves_only F l).
Proof.
  intros HF. unfold streamManifest. eapply stream_serves; [apply FetchMetadata_log|..]; try done.
  - intros r. by repeat constructor.
  - intros e. unfold RecordUpstreamFetchFailed. walk. Qed.

Lemma streamBlob_serves u audit digest (F : DeliveryCall → Prop) :
  (∀ r, F (DFetchContent u digest r)) → triple (streamBlob (W:=W) h u audit digest) (λ l _, serves_only F l).
Proof.
  intros HF. unfold streamBlob. eapply stream_serves; [apply FetchContent_log|..]; try done.
  - intros r. by repeat constructor.
  - intros e. unfold RecordUpstreamFetchFailed. walk. Qed.

(** A guarded step of a handler. *)
Lemma when_serves (F : list DeliveryCall → DeliveryCall → Prop) b (m : M ()) :
  (b = true → triple m (λ l _, serves_only (F l) l)) → triple (when b m) (λ l _, serves_only (F l) l).
Proof. destruct b; [auto|]. intros _. apply triple_ret. constructor. Qed.

Lemma ret_serves (F : list DeliveryCall → DeliveryCall → Prop) (a : ()) :
  triple (mret a : M ()) (λ l _, serves_only (F l) l).
Proof. apply triple_ret. constructor. Qed.

(** The fetch a tarball request may make. *)
Definition tarball_fetch (r : HTTPRequest) (name version : string) (l : list DeliveryCall) (c : DeliveryCall) : Prop :=
  match c with
  | DFetchContent u locator _ => locator = tarballFilename name version ∧
      ∃ tenant now d, ctx_Tenant r = Some tenant ∧ dec_Outcome d ≠ DecisionDeny ∧
        evaluated l (NewAccessRequest r tenant u (mkArtifact EcosystemNPM "" name version "")
          AccessRequestKindNPMTarball now) d
  | _ => False
  end.

Lemma handleTarball_serves r name version :
  triple (handleTarball (W:=W) h r name version) (λ l _, serves_only (tarball_fetch r name version l) l).
Proof.
  unfold handleTarball. eapply quietly_then; [apply startNPMRequest_quietly|].
  intros l1 [a|] Ha; [|by apply triple_ret; constructor]. destruct (Ha a eq_refl) as (_ & now & Ht & He). clear Ha.
  apply (quietly_then _ (λ l', tarball_fetch r name version (l1 ++ l')) _ _ (authorizeTarball_quietly a)).
  intros l2 [] Hok; [|by apply triple_ret; constructor]. simpl. specialize (Hok eq_refl).
  apply (quietly_then (λ _ _, True) (λ l', tarball_fetch r name version (l1 ++ l2 ++ l'))).
  { apply quietly_all. unfold RecordUpstreamFetchStarted. walk. }
  intros l3 ok _. apply when_serves. intros ->.
  eapply triple_mono; [apply (streamTarball_serves _ _ _ _ (λ c, ∀ l4, tarball_fetch r name version (l1 ++ l2 ++ l3 ++ l4) c))|].
  - intros r' l4. split; [done|]. exists (na_tenantID a), now, (na_decision a). split; [done|]. split; [done|].
    by apply (evaluated_app [] l1).
  - intros l4 res Hl. eapply Forall_impl; [exact Hl|]. intros c Hc. destruct c; auto.
Qed.

(** The fetch a manifest request may make: the artifact of the decision. *)
Definition manifest_fetch (r : HTTPRequest) (repo reference : string) (l : list DeliveryCall) (c : DeliveryCall) : Prop :=
  match c with
  | DFetchMetadata u a _ => ∃ tenant now d, ctx_Tenant r = Some tenant ∧ dec_Outcome d ≠ DecisionDeny ∧
      a = dec_Artifact d ∧
      evaluated l (NewAccessRequest r tenant u
        (mkArtifact EcosystemOCI (splitRepo repo).1 (splitRepo repo).2 reference "") "" now) d
  | _ => False
  end.

Lemma authorizeManifest_quietly audit d :
  quietly (λ _ ok, ok = true → dec_Outcome d ≠ DecisionDeny) (authorizeManifest (W:=W) h audit d).
Proof.
  unfold authorizeManifest. case_decide as Hd.
  - eapply quietly_bind; [apply quietly_all; unfold RecordRequestDenied; walk|]. intros l1 ok _.
    eapply quietly_bind; [apply quietly_all; walk|]. intros l2 _ _. by apply quietly_ret.
  - eapply triple_mono; [apply quietly_all; unfold RecordRequestAllowed, RecordUpstreamFetchStarted; walk|].
    by intros l r [Hl _].
Qed.

Lemma handleManifest_serves r repo reference :
  triple (handleManifest (W:=W) h r repo reference) (λ l _, serves_only (manifest_fetch r repo reference l) l).
Proof.
  unfold handleManifest. destruct (ctx_Tenant r) as [tenant|] eqn:Ht; [|apply all_serves; walk].
  eapply quietly_then; [apply quietly_all; walk|]. intros l1 u _. destruct u as [o|e]; [|apply all_serves; walk].
  eapply (quietly_then _ (λ l', _ (l1 ++ l'))); [apply quietly_all; walk|]. intros l2 u _.
  destruct (splitRepo repo) as [ns n] eqn:Hs.
  eapply (quietly_then _ (λ l', _ (l1 ++ l2 ++ l'))); [by apply quietly_all, all_core|]. intros l3 now _.
  eapply (quietly_then _ (λ l', _ (l1 ++ l2 ++ l3 ++ l')));
    [apply quietly_all; unfold RecordRequestReceived; walk|]. intros l4 [] _; [|by apply triple_ret; constructor]. simpl.
  eapply (quietly_then _ (λ l', _ (l1 ++ l2 ++ l3 ++ l4 ++ l'))); [apply evaluate_quietly|].
  intros l5 [d|e] Hd; [|apply all_serves; walk].
  eapply (quietly_then _ (λ l', _ (l1 ++ l2 ++ l3 ++ l4 ++ l5 ++ l'))); [apply authorizeManifest_quietly|].
  intros l6 ok Hok. apply (when_serves (λ l', _ (l1 ++ l2 ++ l3 ++ l4 ++ l5 ++ l6 ++ l'))). intros ->.
  eapply triple_mono; [apply (streamManifest_serves _ _ _
    (λ c, ∀ l7, manifest_fetch r repo reference (l1 ++ l2 ++ l3 ++ l4 ++ l5 ++ l6 ++ l7) c))|].
  - intros res l7. exists tenant, now, d. split; [done|]. split; [auto|]. split; [done|]. rewrite Hs. simpl.
    do 4 apply evaluated_l. by apply evaluated_r, Hd.
  - intros l7 res Hl. eapply Forall_impl; [exact Hl|]. intros c Hc. destruct c; auto.
Qed.

(** The fetch a blob request may make: of the requested digest, after a check
    that the tenant was recently allowed the repository. *)
Definition blob_fetch (r : HTTPRequest) (repo digest : string) (l : list DeliveryCall) (c : DeliveryCall) : Prop :=
  match c with
  | DFetchContent _ locator _ => locator = digest ∧ ∃ tenant, ctx_Tenant r = Some tenant ∧
      DHasRecentAllow tenant EcosystemOCI (splitRepo repo).1 (splitRepo repo).2 (Ok true) ∈ l
  | _ => False
  end.

(** A branch that ends in a refusal. *)
Definition refusal (m : M bool) : Prop := triple m (λ l r, Forall quiet_call l ∧ r ≠ Ok true).

Lemma refusing {A} (m : M A) (f : A → M bool) : all quiet_call m → (∀ a, refusal (f a)) → refusal (m ≫= f).
Proof.
  intros Hm Hf. eapply triple_bind; [exact Hm| |by intros l e Hl].
  intros l a Hl. eapply triple_mono; [exact (Hf a)|]. intros l' r [Hl' Hr]. split; [by apply Forall_app|done].
Qed.

Lemma refusing_ret : refusal (mret false).
Proof. apply triple_ret. split; [constructor|done]. Qed.

Lemma authorizeBlob_quietly tenant a audit :
  quietly (λ l ok, ok = true → DHasRecentAllow tenant (Ecosystem a) (Namespace a) (Name a) (Ok true) ∈ l)
    (authorizeBlob (W:=W) h tenant a audit).
Proof.
  unfold authorizeBlob. eapply triple_bind with
    (λ l r, ∃ r', r = Ok r' ∧ l = [DHasRecentAllow tenant (Ecosystem a) (Namespace a) (Name a) r']).
  - apply triple_attempt, triple_call. eauto.
  - intros l r (r' & [= <-] & ->).
    assert (∀ l' (x : result bool), Forall quiet_call l' → (x ≠ Ok true) →
      Forall quiet_call ([DHasRecentAllow tenant (Ecosystem a) (Namespace a) (Name a) r] ++ l') ∧
      ∀ ok, x = Ok ok → ok = true →
        DHasRecentAllow tenant (Ecosystem a) (Namespace a) (Name a) (Ok true) ∈
          [DHasRecentAllow tenant (Ecosystem a) (Namespace a) (Name a) r] ++ l') as Hno.
    { intros l' x Hl Hx. split; [by repeat constructor|]. by intros ok -> ->. }
    destruct r as [[]|e].
    + apply triple_ret. split; [by repeat constructor|]. intros ok [= <-] _. by left.
    + eapply triple_mono; [|intros l' x Hx; exact (Hno l' x (proj1 Hx) (proj2 Hx))].
      apply refusing; [|intros ok; apply refusing; [|intros _; apply refusing_ret]];
        unfold RecordSimpleRequestDenied; walk.
    + eapply triple_mono; [|intros l' x Hx; exact (Hno l' x (proj1 Hx) (proj2 Hx))].
      apply refusing; [walk|intros _; apply refusing_ret].
  - by intros l e (r' & [=] & _).
Qed.

Lemma handleBlob_serves r repo digest :
  triple (handleBlob (W:=W) h r repo digest) (λ l _, serves_only (blob_fetch r repo digest l) l).
Proof.
  unfold handleBlob. destruct (ctx_Tenant r) as [tenant|] eqn:Ht; [|apply all_serves; walk].
  destruct (splitRepo repo) as [ns n] eqn:Hs.
  eapply quietly_then; [apply quietly_all; unfold RecordRequestReceived; walk|].
  intros l1 [] _; [|by apply triple_ret; constructor]. simpl.
  eapply (quietly_then _ (λ l', _ (l1 ++ l'))); [apply authorizeBlob_quietly|].
  intros l2 [] Hok; [|by apply triple_ret; constructor]. specialize (Hok eq_refl). simpl in Hok |- *.
  eapply (quietly_then _ (λ l', _ (l1 ++ l2 ++ l'))); [apply quietly_all; walk|].
  intros l3 u _. destruct u as [o|e]; [|apply all_serves; walk].
  eapply (quietly_then _ (λ l', _ (l1 ++ l2 ++ l3 ++ l'))); [apply quietly_all; walk|]. intros l4 u _.
  eapply (quietly_then _ (λ l', _ (l1 ++ l2 ++ l3 ++ l4 ++ l')));
    [apply quietly_all; unfold RecordSimpleRequestAllowed; walk|]. intros l5 [] _; [|by apply triple_ret; constructor]. simpl.
  eapply (quietly_then _ (λ l', _ (l1 ++ l2 ++ l3 ++ l4 ++ l5 ++ l')));
    [apply quietly_all; unfold RecordUpstreamFetchStarted; walk|]. intros l6 ok _.
  apply (when_serves (λ l', _ (l1 ++ l2 ++ l3 ++ l4 ++ l5 ++ l6 ++ l'))). intros _.
  eapply triple_mono; [apply (streamBlob_serves _ _ _
    (λ c, ∀ l7, blob_fetch r repo digest (l1 ++ l2 ++ l3 ++ l4 ++ l5 ++ l6 ++ l7) c))|].
  - intros res l7. split; [done|]. exists tenant. split; [done|]. rewrite Hs. simpl. set_solver.
  - intros l7 res Hl. eapply Forall_impl; [exact Hl|]. intros c Hc. destruct c; auto.
Qed.
End served.

(** ** A deployment in memory *)

#[export] Instance memory_DeliveryPorts : DeliveryPorts World := {|
  upstreamRepo_GetByID t id :=
    found ErrUpstreamNotFound None;
  decisions_HasRecentAllow t e ns n w :=
    (Ok (existsb (λ d, bool_decide (dec_TenantID d = t ∧ dec_Outcome d = DecisionAllow ∧
       Ecosystem (dec_Artifact d) = e ∧ Namespace (dec_Artifact d) = ns ∧ Name (dec_Artifact d) = n))
       (w_recorded w)), w);
  client_FetchMetadata u a w := (Ok (Some (mkUpstreamResponse 200 "application/json" ∅ (CacheKey a))), w);
  client_FetchContent u locator w := (Ok (Some (mkUpstreamResponse 200 "" ∅ locator)), w);
|}.

Definition registry : RegistryHandler := mkHandler proxy (Some closed_audit).

Definition get (path : string) : HTTPRequest := mkHTTPRequest (Some "t1") "" "r1" "GET" path "client".

(** What a client of the handlers sees: status and message or body. *)
Definition seen (c : DeliveryCall) : option (Z * string) :=
  match c with
  | DRespond (RespondError s _ m) => Some (s, m)
  | DRespond (RespondJSON s b) => Some (s, b)
  | DRespond (RespondStream r) => Some (StatusCode r, Body r)
  | _ => None
  end.
Definition responses (st : St World DeliveryCall) : list (Z * string) := omap seen (calls st).

Definition delivery_world (policies : list Policy) (metadata : gmap string ArtifactMetadata) : World :=
  mkWorld ∅ {["t1" := policies]}
    (<[("t1", EcosystemNPM) := npm_upstream "u1"]> {[("t1", EcosystemOCI) := oci_upstream]})
    (<["oci:library/nginx:latest" := "sha256:ab"]> {["oci:library/nginx:1.27" := "sha256:ab"]})
    metadata [] [] None 1000.

Definition dstart (w : World) : St World DeliveryCall := mkSt w [].

(** A manifest is fetched by the digest its tag resolved to, a denied tag gets the
    policy's reason, and a blob is refused until a manifest was allowed. *)
Example manifest_allowed :
  let st := (oci_route registry (get "/v2/library/nginx/manifests/latest") (dstart (delivery_world [] ∅))).2 in
  responses st = [(200, "oci:library/nginx@sha256:ab")].
Proof. vm_compute. reflexivity. Qed.

Example manifest_denied :
  let st := (oci_route registry (get "/v2/library/nginx/manifests/latest") (dstart (delivery_world [tag_policy] ∅))).2 in
  fst <$> responses st = [403].
Proof. vm_compute. reflexivity. Qed.

Example blob_after_manifest :
  let blob := get "/v2/library/nginx/blobs/sha256:cd" in
  let st := (oci_route registry (get "/v2/library/nginx/manifests/latest") (dstart (delivery_world [] ∅))).2 in
  responses (oci_route registry blob (dstart (delivery_world [] ∅))).2 =
    [(403, "no manifest-level allow decision for this repository")] ∧
  responses (oci_route registry blob (dstart (world st))).2 = [(200, "sha256:cd")].
Proof. vm_compute. split; reflexivity. Qed.

(** A CVSS policy that denies from 7.0 up. *)
Definition cvss_policy : Policy :=
  mkPolicy "p3" "t1" "" "no-severe" "cvss_threshold" "deny" 1
    (Some (CfgCVSSThreshold (Some (mkCVSSThreshold (Some (f64_of_Z 7)) None false)))) None 1 true 1 zero_time zero_time.

Definition severe : ArtifactMetadata :=
  mkMetadata None (Some (f64_of_Z 9)) [] [] false None None.

(** ** Properties *)

(** No tarball without an allow.  Whatever the collaborators answer, the only
    upstream content an npm tarball request can cause to be fetched is the
    tarball of its own path, through the upstream the access pipeline evaluated
    it for, and only after the pipeline returned a decision on this request, of
    this tenant, that is not a denial; and the only content the client can be
    sent is what that fetch returned. *)
Theorem handleTarball_guarded {W} `{!Ports W, !DeliveryPorts W} h r name version (st : St W DeliveryCall) :
  ∃ l, calls (handleTarball h r name version st).2 = calls st ++ l ∧
    serves_only (tarball_fetch h r name version l) l.
Proof. apply (handleTarball_serves h r name version st). Qed.


(** Policies are evaluated on the lower-cased npm name, but the tarball is
    fetched under the name as it was written.  With a severe vulnerability known
    for [jsonstream] and for [JSONStream] (two different packages of the npm
    registry) and a policy against it, the first is refused and the second is
    served when only its own metadata reports the vulnerability. *)
Theorem npm_case_confuses_packages :
  let refused := delivery_world [cvss_policy] {["npm:jsonstream:1.0.0" := severe]} in
  let served := delivery_world [cvss_policy] {["npm:JSONStream:1.0.0" := severe]} in
  fst <$> responses (handleTarball registry (get "/npm/jsonstream/-/jsonstream-1.0.0.tgz") "jsonstream" "1.0.0"
    (dstart refused)).2 = [403] ∧
  responses (handleTarball registry (get "/npm/JSONStream/-/JSONStream-1.0.0.tgz") "JSONStream" "1.0.0"
    (dstart served)).2 = [(200, "JSONStream/-/JSONStream-1.0.0.tgz")].
Proof. vm_compute. split; reflexivity. Qed.
