(* ===== verification/Bundle.v ===== *)
(** * Tenant bundles

    [internal/core/service/bundle.go], [internal/core/domain/bundle.go] and
    [internal/infra/bundle]: the control plane builds a bundle of a tenant's
    policies and upstreams; a remote proxy caches bundles, refreshes them on
    demand, keeps the last good one when a refresh fails, and answers the policy,
    upstream and tenant lookups of the pipeline from it.  The cache is shared by
    concurrent requests: a lookup is a thread of lock-protected steps. *)

From S2P Require Import Prelude GoStrings GoTime Json Sha256 Artifact Dependency Upstream PolicyConfig Policy PolicyHash Effects.
#[local] Open Scope list_scope.

(** ** Definitions *)

Record TenantBundle : Type := mkTenantBundle {
  tb_Tenant : Tenant;
  tb_TenantID : string;
  Revision : string;
  GeneratedAt : time;
  tb_Policies : list Policy;
  tb_Upstreams : list Upstream;
}.

(** *** The revision of a bundle *)

Definition tenant_json (t : Tenant) : result json :=
  created ← time_json (tenant_CreatedAt t);
  updated ← time_json (tenant_UpdatedAt t);
  Ok (JObject (field "id" (JString (tenant_ID t)) ++ field "name" (JString (tenant_Name t)) ++
    field "created_at" created ++ field "updated_at" updated)).

Definition policy_json (p : Policy) : result json :=
  updated ← time_json (pol_UpdatedAt p);
  Ok (JObject (field "id" (JString (pol_ID p)) ++ omit_string "upstream_id" (pol_UpstreamID p) ++
    field "name" (JString (pol_Name p)) ++ field "type" (JString (pol_Type p)) ++
    field "action" (JString (pol_Action p)) ++ field "schema_version" (JInt (pol_SchemaVersion p)) ++
    field "config" (from_option config_json JNull (pol_Config p)) ++
    omit_option "target" target_json (pol_Target p) ++ field "priority" (JInt (pol_Priority p)) ++
    field "enabled" (JBool (pol_Enabled p)) ++ field "version" (JInt (pol_Version p)) ++
    field "updated_at" updated)).

(** The authentication without its secret. *)
Definition auth_json (a : option UpstreamAuth) : result json :=
  let '(type, username, updatedAt) :=
    match a with
    | None => (UpstreamAuthNone, "", zero_time)
    | Some a => (auth_Type a, Username a, auth_UpdatedAt a)
    end in
  updated ← time_json updatedAt;
  Ok (JObject (field "type" (JString type) ++ omit_string "username" username ++ field "updated_at" updated)).

(** Copying the capabilities turns an empty slice into a nil one. *)
Definition copied_capabilities (c : option (list UpstreamCapability)) : option (list UpstreamCapability) :=
  match c with Some (x :: l) => Some (x :: l) | _ => None end.

Definition upstream_json (u : Upstream) : result json :=
  auth ← auth_json (Auth u);
  updated ← time_json (up_UpdatedAt u);
  Ok (JObject (field "id" (JString (up_ID u)) ++ field "name" (JString (up_Name u)) ++
    field "ecosystem" (JString (up_Ecosystem u)) ++ field "base_url" (JString (BaseURL u)) ++
    field "capabilities" (from_option (λ l, JArray (JString <$> l)) JNull (copied_capabilities (Capabilities u))) ++
    field "auth" auth ++ field "updated_at" updated)).

Definition bundleRevision (tenant : Tenant) (policies : list Policy) (upstreams : list Upstream) : result string :=
  _ ← map_result (λ p, wrap_result "marshalling policy config: "
        (json_Marshal (from_option config_json JNull (pol_Config p)))) policies;
  data ← wrap_result "marshalling bundle payload: "
    (tenant ← tenant_json tenant;
     ps ← map_result policy_json policies;
     us ← map_result upstream_json upstreams;
     json_Marshal (JObject (field "tenant" tenant ++ field "policies" (JArray ps) ++ field "upstreams" (JArray us))));
  Ok (sha256_hex data).

(** *** Building a bundle *)

(** The repositories a bundle is built from. *)
Class BundlePorts (W : Type) : Type := {
  bundle_Now : W → time;
  tenants_GetByID : string → W → result (option Tenant) * W;
  bundle_Policies : string → W → result (list Policy) * W;
  bundle_Upstreams : string → W → result (list Upstream) * W;
}.

Inductive BundleCall : Type :=
| CTenantGet (tenant : string) (r : result (option Tenant))
| CBundlePolicies (tenant : string) (r : result (list Policy))
| CBundleUpstreams (tenant : string) (r : result (list Upstream)).

Section build.
Context {W : Type} `{!BundlePorts W}.
Notation M := (M W BundleCall).

Definition BuildTenantBundle (includeUpstreamAuth : bool) (tenantID : string) : M TenantBundle :=
  tenant ← wrapping "loading bundle tenant: " (call (CTenantGet tenantID) (tenants_GetByID tenantID) : M _);
  match tenant with
  | None => throw (wrap_error "loading bundle tenant: " (sentinel_error ErrTenantNotFound))
  | Some tenant =>
      policies ← wrapping "listing bundle policies: " (call (CBundlePolicies tenantID) (bundle_Policies tenantID) : M _);
      upstreams ← wrapping "listing bundle upstreams: " (call (CBundleUpstreams tenantID) (bundle_Upstreams tenantID) : M _);
      if negb includeUpstreamAuth && existsb UpstreamAuthConfigured upstreams then
        throw (sentinel_suffix ErrUpstreamAuthTransportInsecure
                 ": authenticated upstreams cannot be bundled over insecure transport")
      else
        revision ← lift (wrap_result "computing bundle revision: " (bundleRevision tenant policies upstreams));
        now ← reading bundle_Now;
        mret (mkTenantBundle tenant (tenant_ID tenant) revision now policies upstreams)
  end.
End build.

(** *** The cache of a proxy *)

Record cachedBundle : Type := mkCachedBundle { cb_bundle : option TenantBundle; refreshed : time }.

Record CachedBundleProvider : Type := mkProvider {
  refreshInterval : Z;
  entries : gmap string cachedBundle;
  lastSuccessTenant : string;
  lastSuccessRev : string;
  lastSuccessAt : time;
  lastFailureTenant : string;
  lastFailureErr : string;
  lastFailureAt : time;
}.

Definition NewCachedBundleProvider (interval : Z) : CachedBundleProvider :=
  mkProvider interval ∅ "" "" zero_time "" "" zero_time.

Definition cloneUpstream (u : Upstream) : Upstream :=
  mkUpstream (up_ID u) (up_TenantID u) (up_Name u) (up_Ecosystem u) (BaseURL u)
    (copied_capabilities (Capabilities u)) (Auth u) (up_CreatedAt u) (up_UpdatedAt u).

Definition cloneBundle (b : option TenantBundle) : option TenantBundle :=
  match b with
  | None => None
  | Some b => Some (mkTenantBundle (tb_Tenant b) (tb_TenantID b) (Revision b) (GeneratedAt b)
                      (tb_Policies b) (cloneUpstream <$> tb_Upstreams b))
  end.

Definition shouldRefresh (now : time) (p : CachedBundleProvider) (refreshed : time) : bool :=
  if decide (refreshInterval p ≤ 0) then true else refreshInterval p <=? now - refreshed.

Definition store (now : time) (tenantID : string) (b : option TenantBundle) (p : CachedBundleProvider)
    : CachedBundleProvider :=
  mkProvider (refreshInterval p) (<[tenantID := mkCachedBundle (cloneBundle b) now]> (entries p))
    (lastSuccessTenant p) (lastSuccessRev p) (lastSuccessAt p)
    (lastFailureTenant p) (lastFailureErr p) (lastFailureAt p).

Definition recordSuccess (now : time) (tenantID : string) (b : option TenantBundle) (p : CachedBundleProvider)
    : CachedBundleProvider :=
  mkProvider (refreshInterval p) (entries p) tenantID (from_option Revision (lastSuccessRev p) b) now
    (lastFailureTenant p) (lastFailureErr p) (lastFailureAt p).

Definition recordFailure (now : time) (tenantID : string) (e : error) (p : CachedBundleProvider)
    : CachedBundleProvider :=
  mkProvider (refreshInterval p) (entries p) (lastSuccessTenant p) (lastSuccessRev p) (lastSuccessAt p)
    tenantID (error_msg e) now.

(** A lookup in progress: what it read when it started, what the control plane
    answered, what remains to be done. *)
Inductive phase : Type :=
| Fetching (entry : option cachedBundle)
| Fetched (entry : option cachedBundle) (r : result (option TenantBundle))
| Recording (b : option TenantBundle)
| Done (r : result (option TenantBundle)).

(** [load] and the freshness test. *)
Definition begin_get (now : time) (tenantID : string) (p : CachedBundleProvider) : phase :=
  match entries p !! tenantID with
  | Some e => if shouldRefresh now p (refreshed e) then Fetching (Some e) else Done (Ok (cloneBundle (cb_bundle e)))
  | None => Fetching None
  end.

(** One lock-protected step of a lookup (the warning about a failed refresh reads
    the old bundle's revision); waiting for the control plane and a
    finished lookup have none. *)
Definition get_step (now : time) (tenantID : string) (ph : phase) (p : CachedBundleProvider)
    : option (phase * CachedBundleProvider) :=
  match ph with
  | Fetching _ | Done _ => None
  | Fetched _ (Ok b) => Some (Recording b, store now tenantID b p)
  | Recording b => Some (Done (Ok (cloneBundle b)), recordSuccess now tenantID b p)
  | Fetched entry (Err e) =>
      let p := recordFailure now tenantID e p in
      match entry with
      | Some (mkCachedBundle (Some b) _) => Some (Done (Ok (cloneBundle (Some b))), p)
      | Some (mkCachedBundle None _) => Some (Done (Err nil_deref), p)
      | None => Some (Done (Err (mk_error (sentinel_text ErrBundleUnavailable +:+ ": " +:+ error_msg e)
                                   [ErrBundleUnavailable])), p)
      end
  end.

(** A whole lookup without interference. *)
Definition GetTenantBundle (now : time) (fetch : string → result (option TenantBundle)) (tenantID : string)
    (p : CachedBundleProvider) : result (option TenantBundle) * CachedBundleProvider :=
  match begin_get now tenantID p with
  | Fetching entry =>
      match get_step now tenantID (Fetched entry (fetch tenantID)) p with
      | Some (Recording b, p) =>
          match get_step now tenantID (Recording b) p with
          | Some (Done r, p) => (r, p)
          | _ => (Err nil_deref, p)
          end
      | Some (Done r, p) => (r, p)
      | _ => (Err nil_deref, p)
      end
  | Done r => (r, p)
  | _ => (Err nil_deref, p)
  end.

(** *** Health *)

Record ComponentStatus : Type := mkComponentStatus {
  cs_Status : string; cs_Message : string; cs_Timestamp : time }.

Definition shortRevision (revision : string) : string :=
  if decide (String.length revision ≤ 12)%nat then revision else String.substring 0 12 revision.

Definition CheckStatus (p : CachedBundleProvider) : ComponentStatus :=
  let cachedCount := itoa (Z.of_nat (size (entries p))) in
  if decide (lastSuccessAt p < lastFailureAt p) then
    if decide (entries p ≠ ∅) then
      mkComponentStatus "stale" ("serving last-known-good bundle cache (" +:+ cachedCount +:+
        " cached); last refresh failed for tenant " +:+ quote (lastFailureTenant p) +:+ ": " +:+ lastFailureErr p)
        (lastFailureAt p)
    else
      mkComponentStatus "unavailable" ("no cached bundle available; last refresh failed for tenant " +:+
        quote (lastFailureTenant p) +:+ ": " +:+ lastFailureErr p) (lastFailureAt p)
  else if decide (lastSuccessAt p ≠ zero_time) then
    mkComponentStatus "ready" (cachedCount +:+ " cached bundle(s); last refresh succeeded for tenant " +:+
      quote (lastSuccessTenant p) +:+ " at revision " +:+ shortRevision (lastSuccessRev p)) (lastSuccessAt p)
  else mkComponentStatus "idle" "no tenant bundles loaded yet" zero_time.

(** *** Repositories over bundles

    [r] is what the provider returned for the tenant. *)

Definition with_bundle {A} (r : result (option TenantBundle)) (f : TenantBundle → result A) : result A :=
  match r with
  | Err e => Err e
  | Ok None => Err nil_deref
  | Ok (Some b) => f b
  end.

Definition PolicyRepository_GetByID (r : result (option TenantBundle)) (id : string) : result Policy :=
  with_bundle r (λ b, match filter (λ p, pol_ID p = id) (tb_Policies b) with
    | p :: _ => Ok p | [] => Err (sentinel_error ErrPolicyNotFound) end).
Definition PolicyRepository_ListByTenant (r : result (option TenantBundle)) : result (list Policy) :=
  with_bundle r (λ b, Ok (tb_Policies b)).

Definition UpstreamRepository_GetByID (r : result (option TenantBundle)) (id : string) : result Upstream :=
  with_bundle r (λ b, match filter (λ u, up_ID u = id) (tb_Upstreams b) with
    | u :: _ => Ok u | [] => Err (sentinel_error ErrUpstreamNotFound) end).
Definition UpstreamRepository_ListByTenant (r : result (option TenantBundle)) : result (list Upstream) :=
  with_bundle r (λ b, Ok (tb_Upstreams b)).

(** The loop of [GetByEcosystem]. *)
Definition newer_of (eco : EcosystemType) (selected : option Upstream) (u : Upstream) : option Upstream :=
  if decide (up_Ecosystem u ≠ eco) then selected
  else match selected with
       | None => Some u
       | Some s => if decide (up_UpdatedAt s < up_UpdatedAt u) then Some u else Some s
       end.
Definition UpstreamRepository_GetByEcosystem (r : result (option TenantBundle)) (eco : EcosystemType) : result Upstream :=
  with_bundle r (λ b, match foldl (newer_of eco) None (tb_Upstreams b) with
    | None => Err (sentinel_error ErrUpstreamNotFound) | Some u => Ok u end).

Definition policy_read_only : error := new_error "bundle policy repository is read-only".
Definition upstream_read_only : error := new_error "bundle upstream repository is read-only".

Definition TenantLookup_GetByID (r : result (option TenantBundle)) (id : string) : result Tenant :=
  match r with
  | Err e => Err e
  | Ok None => Err (sentinel_error ErrTenantNotFound)
  | Ok (Some b) =>
      let tenant := tb_Tenant b in
      let tenant := if decide (tenant_ID tenant = "") then
        mkTenant (tb_TenantID b) (tenant_Name tenant) (tenant_CreatedAt tenant) (tenant_UpdatedAt tenant) else tenant in
      if decide (tenant_ID tenant = "" ∨ tenant_ID tenant ≠ id) then Err (sentinel_error ErrTenantNotFound)
      else Ok tenant
  end.

(** *** Concurrent lookups *)

Record BundleSystem : Type := mkBundleSystem {
  provider : CachedBundleProvider;
  lookups : gmap nat (string * phase);
  answers : list (string * option TenantBundle);
}.

(** Lookups start, receive whatever the control plane answers, and step, in any
    order; [answers] are the bundles the control plane has returned so far. *)
Inductive bundle_step : BundleSystem → BundleSystem → Prop :=
| bs_start now i t p ls an :
    ls !! i = None →
    bundle_step (mkBundleSystem p ls an) (mkBundleSystem p (<[i := (t, begin_get now t p)]> ls) an)
| bs_answer i t entry b p ls an :
    ls !! i = Some (t, Fetching entry) →
    bundle_step (mkBundleSystem p ls an)
      (mkBundleSystem p (<[i := (t, Fetched entry (Ok b))]> ls) ((t, b) :: an))
| bs_failure i t entry e p ls an :
    ls !! i = Some (t, Fetching entry) →
    bundle_step (mkBundleSystem p ls an) (mkBundleSystem p (<[i := (t, Fetched entry (Err e))]> ls) an)
| bs_step now i t ph ph' p p' ls an :
    ls !! i = Some (t, ph) → get_step now t ph p = Some (ph', p') →
    bundle_step (mkBundleSystem p ls an) (mkBundleSystem p' (<[i := (t, ph')]> ls) an).

(** ** Lemmas *)

Lemma copied_idem c : copied_capabilities (copied_capabilities c) = copied_capabilities c.
Proof. by destruct c as [[|]|]. Qed.

Lemma cloneUpstream_idem u : cloneUpstream (cloneUpstream u) = cloneUpstream u.
Proof. unfold cloneUpstream. simpl. by rewrite copied_idem. Qed.

Lemma cloneBundle_idem b : cloneBundle (cloneBundle b) = cloneBundle b.
Proof.
  destruct b as [b|]; [|done]. simpl. rewrite <-list_fmap_compose. do 2 f_equal. apply list_fmap_ext. intros i u _.
  apply cloneUpstream_idem.
Qed.

(** The bundle [b] is a copy of one the control plane returned for tenant [t]. *)
Definition known (an : list (string * option TenantBundle)) (t : string) (b : option TenantBundle) : Prop :=
  ∃ b0, (t, b0) ∈ an ∧ b = cloneBundle b0.

Definition known_entry an t (e : option cachedBundle) : Prop :=
  match e with Some e => known an t (cb_bundle e) | None => True end.

Definition known_phase an t (ph : phase) : Prop :=
  match ph with
  | Fetching e => known_entry an t e
  | Fetched e r => known_entry an t e ∧ ∀ b, r = Ok b → (t, b) ∈ an
  | Recording b => (t, b) ∈ an
  | Done r => ∀ b, r = Ok b → known an t b
  end.

Record known_system (s : BundleSystem) : Prop := {
  ks_entries : ∀ t e, entries (provider s) !! t = Some e → known (answers s) t (cb_bundle e);
  ks_lookups : ∀ i t ph, lookups s !! i = Some (t, ph) → known_phase (answers s) t ph;
}.

Lemma known_clone an t b : known an t b → known an t (cloneBundle b).
Proof. intros (b0 & H & ->). exists b0. by rewrite cloneBundle_idem. Qed.

Lemma known_more an an' t b : an ⊆ an' → known an t b → known an' t b.
Proof. intros Hs (b0 & H & ->). exists b0. split; [by apply Hs|done]. Qed.

Lemma known_phase_more an an' t ph : an ⊆ an' → known_phase an t ph → known_phase an' t ph.
Proof.
  intros Hs. destruct ph as [[e|]|[e|] r|b|r]; simpl; try naive_solver eauto using known_more.
Qed.

Lemma begin_get_known now t p an :
  (∀ t e, entries p !! t = Some e → known an t (cb_bundle e)) → known_phase an t (begin_get now t p).
Proof.
  intros He. unfold begin_get. destruct (entries p !! t) as [e|] eqn:E; [|done].
  destruct (shouldRefresh now p (refreshed e)); simpl; [by apply He|].
  intros b [= <-]. by apply known_clone, He.
Qed.

(** A step records or returns what was answered, or the entry of the start. *)
Lemma get_step_known now t ph p ph' p' an :
  get_step now t ph p = Some (ph', p') → known_phase an t ph →
  (∀ t e, entries p !! t = Some e → known an t (cb_bundle e)) →
  known_phase an t ph' ∧ (∀ t e, entries p' !! t = Some e → known an t (cb_bundle e)).
Proof.
  intros Hs Hp He. destruct ph as [|entry r|b|]; simpl in *; try done.
  - destruct Hp as [Hen Hb]. destruct r as [b|e].
    + injection Hs as <- <-. simpl. specialize (Hb b eq_refl). split; [done|].
      intros t' e [[<- <-]|[_ He']]%lookup_insert_Some; [by exists b|by apply He].
    + destruct entry as [[[b|] at_]|]; injection Hs as <- <-; simpl; (split; [|done]); try done.
      intros b' [= <-]. by apply (known_clone _ _ (Some b)).
  - injection Hs as <- <-. simpl. split; [|done]. intros b' [= <-]. by exists b.
Qed.

Lemma bundle_step_known s s' : bundle_step s s' → known_system s → known_system s'.
Proof.
  destruct 1 as [now i t p ls an Hi|i t entry b p ls an Hi|i t entry e p ls an Hi|now i t ph ph' p p' ls an Hi Hs];
    intros [He Hl]; simpl in *.
  - split; simpl; [done|]. intros j t' ph [[<- [= <- <-]]|[_ Hj]]%lookup_insert_Some; [by apply begin_get_known|by eapply Hl].
  - assert (an ⊆ (t, b) :: an) as Hsub by set_solver. split; simpl; [intros; eapply known_more; eauto|].
    intros j t' ph [[<- [= <- <-]]|[_ Hj]]%lookup_insert_Some; [|by eapply known_phase_more; eauto].
    split; [by destruct entry; [eapply known_more; [done|]; apply (Hl _ _ _ Hi)|]|]. intros ? [= <-]. by left.
  - split; simpl; [done|]. intros j t' ph [[<- [= <- <-]]|[_ Hj]]%lookup_insert_Some; [|by eapply Hl].
    split; [apply (Hl _ _ _ Hi)|done].
  - destruct (get_step_known _ _ _ _ _ _ an Hs (Hl _ _ _ Hi) He) as [Hp He']. split; simpl; [done|].
    intros j t' ph0 [[<- [= <- <-]]|[_ Hj]]%lookup_insert_Some; [done|by eapply Hl].
Qed.

(** *** Availability *)

(** A lookup that found an entry. *)
Definition backed (ph : phase) : Prop :=
  match ph with
  | Fetching e | Fetched e _ => ∃ b at_, e = Some (mkCachedBundle (Some b) at_)
  | Recording _ => True
  | Done r => is_ok r = true
  end.

(** Tenant [t] is cached, with a bundle. *)
Definition cached (t : string) (p : CachedBundleProvider) : Prop :=
  ∃ b at_, entries p !! t = Some (mkCachedBundle (Some b) at_).

Lemma begin_get_backed now t p : cached t p → backed (begin_get now t p).
Proof.
  intros (b & at_ & E). unfold begin_get. rewrite E. destruct (shouldRefresh _ _ _); simpl; [by exists b, at_|done].
Qed.

Lemma get_step_backed now t ph p ph' p' :
  get_step now t ph p = Some (ph', p') → backed ph → backed ph'.
Proof.
  intros Hs Hb. destruct ph as [|entry [b|e]|b|]; simpl in *; try done; [by simplify_eq| |by simplify_eq].
  destruct Hb as (b & at_ & ->). by simplify_eq.
Qed.

(** The control plane answers with a bundle or an error. *)
Definition answers_bundles (s : BundleSystem) : Prop := ∀ t b, (t, b) ∈ answers s → is_Some b.

Lemma get_step_cached now t u ph p ph' p' :
  get_step now t ph p = Some (ph', p') → (∀ e b, ph = Fetched e (Ok b) → is_Some b) → cached u p → cached u p'.
Proof.
  intros Hs Hb (b0 & at_ & E). destruct ph as [|entry r|b|]; simpl in Hs; try done.
  - destruct r as [b|e].
    + injection Hs as <- <-. destruct (Hb entry b eq_refl) as [b1 ->]. destruct (decide (t = u)) as [->|Hne].
      * do 2 eexists. simpl. apply lookup_insert_eq.
      * exists b0, at_. simpl. by rewrite lookup_insert_ne.
    + destruct entry as [[[b|] ?]|]; injection Hs as <- <-; by exists b0, at_.
  - injection Hs as <- <-. by exists b0, at_.
Qed.

Record available (t : string) (i : nat) (s : BundleSystem) : Prop := {
  av_known : known_system s;
  av_cached : cached t (provider s);
  av_lookup : ∀ ph, lookups s !! i = Some (t, ph) → backed ph;
}.

Lemma fetched_bundle s i t e b :
  known_system s → answers_bundles s → lookups s !! i = Some (t, Fetched e (Ok b)) → is_Some b.
Proof. intros [_ Hl] Ha Hi. destruct (Hl _ _ _ Hi) as [_ Hb]. by apply (Ha t), Hb. Qed.

Lemma available_step t i s s' :
  bundle_step s s' → answers_bundles s → available t i s → available t i s'.
Proof.
  intros Hstep Ha [Hk Hc Hl]. pose proof (bundle_step_known s s' Hstep Hk) as Hk'.
  split; [done|..]; revert Hk Hc Hl Ha; clear Hk';
    destruct Hstep as [now j u p ls an Hj|j u entry b p ls an Hj|j u entry e p ls an Hj|now j u ph ph' p p' ls an Hj Hs];
    simpl; intros Hk Hc Hl Ha; try done.
  - eapply get_step_cached; [done| |done]. intros e b ->. by eapply (fetched_bundle _ j u e b Hk Ha).
  - intros ph [[<- [= -> <-]]|[_ Hi]]%lookup_insert_Some; [by apply begin_get_backed|by apply Hl].
  - intros ph [[<- [= -> <-]]|[_ Hi]]%lookup_insert_Some; [by apply (Hl _ Hj)|by apply Hl].
  - intros ph [[<- [= -> <-]]|[_ Hi]]%lookup_insert_Some; [by apply (Hl _ Hj)|by apply Hl].
  - intros ph0 [[<- [= -> <-]]|[_ Hi]]%lookup_insert_Some; [by eapply get_step_backed, Hl|by apply Hl].
Qed.

(** A lookup that is not waiting for the control plane finishes in two steps. *)
Lemma get_step_progress t ph p :
  (∀ e, ph ≠ Fetching e) → (∃ r, ph = Done r) ∨
  ∀ now, ∃ ph' p', get_step now t ph p = Some (ph', p') ∧
    ((∃ r, ph' = Done r) ∨ ∀ now', ∃ r p'', get_step now' t ph' p' = Some (Done r, p'')).
Proof.
  intros Hf. destruct ph as [e|entry [b|e]|b|r]; [by destruct (Hf e)|..|eauto]; right; intros now; simpl.
  - do 2 eexists. split; [done|]. right. intros now'. do 2 eexists. done.
  - destruct entry as [[[b|] ?]|]; do 2 eexists; (split; [done|]); eauto.
  - do 2 eexists. split; [done|]. eauto.
Qed.

Lemma known_start interval : known_system (mkBundleSystem (NewCachedBundleProvider interval) ∅ []).
Proof.
  split; simpl; [intros t e H; by rewrite lookup_empty in H|intros i t ph H; by rewrite lookup_empty in H].
Qed.

Lemma known_reachable s s' : known_system s → rtc bundle_step s s' → known_system s'.
Proof. intros Hs Hr. induction Hr as [|s s1 s' Hstep _ IH]; [done|]. apply IH. by eapply bundle_step_known. Qed.

Lemma answers_grow s s' : rtc bundle_step s s' → answers s ⊆ answers s'.
Proof.
  induction 1 as [|s s1 s' Hstep _ IH]; [done|]. etrans; [|exact IH]. destruct Hstep; set_solver.
Qed.

(** *** Selecting an upstream *)

Definition newest (eco : EcosystemType) (l : list Upstream) (u : Upstream) : Prop :=
  u ∈ l ∧ up_Ecosystem u = eco ∧ ∀ u', u' ∈ l → up_Ecosystem u' = eco → up_UpdatedAt u' ≤ up_UpdatedAt u.

Lemma newer_of_spec eco l l0 sel :
  match sel with Some u => newest eco l0 u | None => ∀ u, u ∈ l0 → up_Ecosystem u ≠ eco end →
  match foldl (newer_of eco) sel l with
  | Some u => newest eco (l0 ++ l) u
  | None => ∀ u, u ∈ l0 ++ l → up_Ecosystem u ≠ eco
  end.
Proof.
  revert l0 sel. induction l as [|u l IH]; intros l0 sel H; simpl; [by rewrite app_nil_r|].
  rewrite cons_middle, (assoc_L (++)). apply IH. unfold newer_of. case_decide as He.
  - destruct sel as [s|].
    + destruct H as (Hs & Hes & Hm). split; [set_solver|]. split; [done|]. intros u' Hu' E. apply Hm; [|done]. set_solver.
    + intros u' [Hu'|[->|Hu']%elem_of_cons]%elem_of_app; [by apply H|done|by apply elem_of_nil in Hu'].
  - destruct sel as [s|].
    + destruct H as (Hs & Hes & Hm). case_decide as Hlt; split; try set_solver; (split; [done|]);
        intros u' [Hu'|[->|Hu']%elem_of_cons]%elem_of_app E; try (by apply elem_of_nil in Hu'); try lia;
        specialize (Hm u' Hu' E); lia.
    + split; [set_solver|]. split; [done|]. intros u' [Hu'|[->|Hu']%elem_of_cons]%elem_of_app E; [by destruct (H u')|lia|].
      by apply elem_of_nil in Hu'.
Qed.

(** ** Properties *)


(** Last known good.  Once a tenant has a bundle in the cache, every lookup
    for it that starts later and finishes succeeds, whatever the control plane
    answers and however lookups interleave; and a lookup that has its answer
    finishes within two steps. *)
Theorem cached_tenant_is_served interval s now t i s' :
  rtc bundle_step (mkBundleSystem (NewCachedBundleProvider interval) ∅ []) s →
  cached t (provider s) → lookups s !! i = None →
  rtc bundle_step (mkBundleSystem (provider s) (<[i := (t, begin_get now t (provider s))]> (lookups s)) (answers s)) s' →
  answers_bundles s' →
  (∀ r, lookups s' !! i = Some (t, Done r) → is_ok r = true) ∧
  (∀ ph, lookups s' !! i = Some (t, ph) → (∀ e, ph ≠ Fetching e) → (∃ r, ph = Done r) ∨
     ∀ now, ∃ ph' p', get_step now t ph (provider s') = Some (ph', p') ∧
       ((∃ r, ph' = Done r) ∨ ∀ now', ∃ r p'', get_step now' t ph' p' = Some (Done r, p''))).
Proof.
  intros Hr Hc Hi Hr' Ha. split; [|intros ph _ Hph; by apply get_step_progress].
  set (s1 := mkBundleSystem _ _ _) in Hr'.
  assert (available t i s1) as Hs1.
  { split; [|done|].
    - apply (bundle_step_known s); [|by eapply known_reachable; [apply known_start|]].
      destruct s as [p ls an]. by apply bs_start.
    - unfold s1. simpl. intros ph [[_ [= <-]]|[? _]]%lookup_insert_Some; [by apply begin_get_backed|done]. }
  assert (available t i s') as [_ _ Hl]; [|intros r Hd; by apply (Hl (Done r))].
  clear Hr Hc Hi. clearbody s1. induction Hr' as [|s1 s2 s' Hstep Hrest IH]; [done|].
  apply IH; [done|]. eapply available_step; [done| |done]. intros u b Hub. apply (Ha u).
  apply (answers_grow s2); [done|]. apply (answers_grow s1 s2); [by apply rtc_once|done].
Qed.

(** What a bundle contains: exactly the tenant, policies and upstreams the
    repositories returned for that tenant, under the revision computed from them;
    over an insecure transport, none of its upstreams has credentials. *)
Theorem BuildTenantBundle_spec {W} `{!BundlePorts W} auth t (st : St W BundleCall) b st' :
  BuildTenantBundle auth t st = (Ok b, st') →
  calls st' = calls st ++ [CTenantGet t (Ok (Some (tb_Tenant b))); CBundlePolicies t (Ok (tb_Policies b));
                           CBundleUpstreams t (Ok (tb_Upstreams b))] ∧
  tb_TenantID b = tenant_ID (tb_Tenant b) ∧
  bundleRevision (tb_Tenant b) (tb_Policies b) (tb_Upstreams b) = Ok (Revision b) ∧
  (auth = false → Forall (λ u, UpstreamAuthConfigured u = false) (tb_Upstreams b)).
Proof.
  intros H. unfold BuildTenantBundle in H. take_step H tenant st1 H1. apply wrapping_run, call_run in H1.
  destruct tenant as [tenant|]; [|done]. take_step H policies st2 H2. apply wrapping_run, call_run in H2.
  take_step H upstreams st3 H3. apply wrapping_run, call_run in H3.
  destruct (negb auth && existsb UpstreamAuthConfigured upstreams) eqn:Ea; [done|].
  take_step H revision st4 H4. unfold lift in H4. injection H4 as Hrev <-. apply wrap_result_ok in Hrev.
  take_step H now st5 H5. injection H5 as <- <-. apply ret_Ok in H as [<- <-]. simpl.
  split; [by rewrite H3, H2, H1, <-!app_assoc|]. split; [done|]. split; [done|].
  intros ->. simpl in Ea. apply Forall_forall. intros u Hu. destruct (UpstreamAuthConfigured u) eqn:E; [|done].
  assert (existsb UpstreamAuthConfigured upstreams = true) as Hx; [|congruence].
  apply existsb_exists. exists u. split; [by apply list_elem_of_In|done].
Qed.

(** The upstream of an ecosystem is the most recently updated one. *)
Theorem GetByEcosystem_newest r b eco :
  r = Ok (Some b) →
  match UpstreamRepository_GetByEcosystem r eco with
  | Ok u => newest eco (tb_Upstreams b) u
  | Err e => e = sentinel_error ErrUpstreamNotFound ∧ ∀ u, u ∈ tb_Upstreams b → up_Ecosystem u ≠ eco
  end.
Proof.
  intros ->. simpl. pose proof (newer_of_spec eco (tb_Upstreams b) [] None) as H.
  destruct (foldl (newer_of eco) None (tb_Upstreams b)); [|split; [done|]]; apply H; by intros v ?%elem_of_nil.
Qed.

(** ** Examples and witnesses *)

Definition sample_bundle (revision : string) : TenantBundle :=
  mkTenantBundle (mkTenant "t1" "Tenant" 0 0) "t1" revision 0 [] [].

Definition sys0 (interval : Z) : BundleSystem := mkBundleSystem (NewCachedBundleProvider interval) ∅ [].

(** One lookup that fetched revision 1. *)
Definition fetched_one : BundleSystem :=
  mkBundleSystem (recordSuccess 12 "t1" (Some (sample_bundle "1")) (store 11 "t1" (Some (sample_bundle "1"))
      (NewCachedBundleProvider 100)))
    {[0%nat := ("t1", Done (Ok (Some (sample_bundle "1"))))]} [("t1", Some (sample_bundle "1"))].

Lemma fetched_one_reachable : rtc bundle_step (sys0 100) fetched_one.
Proof.
  eapply rtc_l; [by apply (bs_start 10 0 "t1")|].
  eapply rtc_l; [by apply (bs_answer 0 "t1" None (Some (sample_bundle "1")))|].
  eapply rtc_l; [by apply (bs_step 11 0 "t1" (Fetched None (Ok (Some (sample_bundle "1")))))|].
  eapply rtc_l; [by apply (bs_step 12 0 "t1" (Recording (Some (sample_bundle "1"))))|].
  apply rtc_refl.
Qed.


(** Later the interval has passed, and the control plane fails. *)
Definition after_failure : BundleSystem :=
  mkBundleSystem (recordFailure 202 "t1" (new_error "unreachable") (provider fetched_one))
    (<[1%nat := ("t1", Done (Ok (Some (sample_bundle "1"))))]> (lookups fetched_one)) (answers fetched_one).

Lemma cached_tenant_is_served_witness : is_ok (Ok (Some (sample_bundle "1"))) = true.
Proof.
  apply (cached_tenant_is_served 100 fetched_one 200 "t1" 1 after_failure fetched_one_reachable).
  - eexists _, _. reflexivity.
  - reflexivity.
  - eapply rtc_l; [by apply (bs_failure 1 "t1" (Some (mkCachedBundle (Some (sample_bundle "1")) 11)) (new_error "unreachable"))|].
    eapply rtc_l; [by apply (bs_step 202 1 "t1" (Fetched (Some (mkCachedBundle (Some (sample_bundle "1")) 11)) (Err (new_error "unreachable"))))|].
    apply rtc_refl.
  - intros t b [= -> ->]%list_elem_of_singleton. by eexists.
  - reflexivity.
Defined.

(** A slow refresh can bring an old bundle back: two concurrent lookups fetch
    revisions 1 and 2 in this order; the second stores and serves revision 2, then
    the first stores revision 1, and a third lookup, started after revision 2 was
    served, is answered revision 1 as a fresh bundle. *)
Theorem slow_refresh_regresses :
  ∃ s, rtc bundle_step (sys0 100) s ∧
    lookups s !! 1%nat = Some ("t1", Done (Ok (Some (sample_bundle "2")))) ∧
    lookups s !! 2%nat = Some ("t1", Done (Ok (Some (sample_bundle "1")))).
Proof.
  eexists. split.
  - eapply rtc_l; [by apply (bs_start 10 0 "t1")|].
    eapply rtc_l; [by apply (bs_answer 0 "t1" None (Some (sample_bundle "1")))|].
    eapply rtc_l; [by apply (bs_start 11 1 "t1")|].
    eapply rtc_l; [by apply (bs_answer 1 "t1" None (Some (sample_bundle "2")))|].
    eapply rtc_l; [by apply (bs_step 12 1 "t1" (Fetched None (Ok (Some (sample_bundle "2")))))|].
    eapply rtc_l; [by apply (bs_step 13 1 "t1" (Recording (Some (sample_bundle "2"))))|].
    eapply rtc_l; [by apply (bs_step 14 0 "t1" (Fetched None (Ok (Some (sample_bundle "1")))))|].
    eapply rtc_l; [by apply (bs_start 15 2 "t1")|].
    apply rtc_refl.
  - split; vm_compute; reflexivity.
Qed.
