(* ===== verification/GraphQueue.v ===== *)
(** * Graph jobs and context summaries

    [internal/infra/postgres/dependency_graph.go]: the job queue of the graph
    resolver and the context summaries it leaves behind.  The tables are lists of
    rows in insertion order; each method is one transaction, a function from the
    tables to its result and the next tables, and a method that fails leaves them
    as they were.  [gen_random_uuid()] and the text of constraint violations
    belong to the database and are parameters; [now()] is an argument. *)

From S2P Require Import Prelude GoStrings GoPath Json Sha256 Artifact Dependency Upstream GraphDepth Lockfile.
#[local] Open Scope list_scope.

(** ** Definitions *)

(** A row of [dependency_graph_roots]; absent texts are [None]. *)
Record GraphRoot : Type := mkGraphRoot {
  gr_ID : string;
  gr_TenantID : string;
  gr_UpstreamID : string;
  gr_PackageName : string;
  gr_Version : string;
  gr_Status : string;
  gr_GraphHash : option string;
  gr_Error : option string;
  gr_CreatedAt : time;
  gr_UpdatedAt : time;
  gr_ResolvedAt : option time;
}.

(** Rows of [dependency_graph_nodes], [dependency_graph_edges] and
    [dependency_context_summaries]. *)
Record NodeRow : Type := mkNodeRow {
  nr_ID : string; nr_Root : string; nr_Artifact : ArtifactIdentity; nr_MinDepth : Z;
  nr_DependencyTypes : list DependencyType }.
Record EdgeRow : Type := mkEdgeRow {
  er_ID : string; er_Root : string; er_Parent : string; er_Child : string; er_Type : DependencyType }.
Record SummaryRow : Type := mkSummaryRow {
  sr_Root : string; sr_TenantID : string; sr_UpstreamID : string;
  sr_Artifact : ArtifactIdentity; sr_Context : DependencyContext }.

Record GraphDB : Type := mkGraphDB {
  db_roots : list GraphRoot;
  db_nodes : list NodeRow;
  db_edges : list EdgeRow;
  db_summaries : list SummaryRow;
  db_base_urls : gmap string string;
  db_serial : nat;
}.

(** [DependencyGraphResolveRequest], of which the upstream's identifier, tenant
    and base URL are used. *)
Record ResolveRequest : Type := mkResolveJob {
  job_TenantID : string;
  job_UpstreamID : string;
  job_BaseURL : string;
  job_Root : ArtifactIdentity;
  job_RequestedAt : time;
}.

(** The unique key of a root. *)
Definition root_key (r : GraphRoot) : string * string * string * string :=
  (gr_TenantID r, gr_UpstreamID r, gr_PackageName r, gr_Version r).
Definition job_key (j : ResolveRequest) : string * string * string * string :=
  (job_TenantID j, job_UpstreamID j, FullName (job_Root j), Version (job_Root j)).

Definition set_roots (l : list GraphRoot) (db : GraphDB) : GraphDB :=
  mkGraphDB l (db_nodes db) (db_edges db) (db_summaries db) (db_base_urls db) (db_serial db).

(** The rows for which [f] gives a new row are replaced. *)
Definition update_roots (p : GraphRoot → Prop) `{∀ r, Decision (p r)} (f : GraphRoot → GraphRoot)
    (db : GraphDB) : GraphDB :=
  set_roots ((λ r, if decide (p r) then f r else r) <$> db_roots db) db.

(** Row updates of the three [UPDATE] statements. *)
Definition resolving (now : time) (r : GraphRoot) : GraphRoot :=
  mkGraphRoot (gr_ID r) (gr_TenantID r) (gr_UpstreamID r) (gr_PackageName r) (gr_Version r)
    DependencyGraphResolving (gr_GraphHash r) None (gr_CreatedAt r) now (gr_ResolvedAt r).
Definition completed (now : time) (hash : string) (r : GraphRoot) : GraphRoot :=
  mkGraphRoot (gr_ID r) (gr_TenantID r) (gr_UpstreamID r) (gr_PackageName r) (gr_Version r)
    DependencyGraphComplete (Some hash) None (gr_CreatedAt r) now (Some now).
Definition failed (message : string) (retryAfter : time) (r : GraphRoot) : GraphRoot :=
  mkGraphRoot (gr_ID r) (gr_TenantID r) (gr_UpstreamID r) (gr_PackageName r) (gr_Version r)
    DependencyGraphFailed (gr_GraphHash r) (Some message) (gr_CreatedAt r) retryAfter (gr_ResolvedAt r).

(** [dependency_graph_edges_type_check] and the unique key of an edge. *)
Definition edge_types : list DependencyType :=
  [DependencyTypeProd; DependencyTypeDev; DependencyTypePeer; DependencyTypeOptional].
Definition edge_row_key (e : EdgeRow) : string * string * string * string :=
  (er_Root e, er_Parent e, er_Child e, er_Type e).

(** *** Contexts *)

Definition dependencyTypeStrings (values : list DependencyType) : list string :=
  filter (λ v, v ≠ "") values.

Definition dependencyContextForNode (rootID : string) (node : DependencyGraphNode) : DependencyContext :=
  let '(scope, depTypes) :=
    if decide (MinDepth node = 0) then
      (DependencyScopeDirect,
       if decide (node_DependencyTypes node = []) then [DependencyTypeProd] else node_DependencyTypes node)
    else (DependencyScopeTransitive, node_DependencyTypes node) in
  mkDependencyContext scope depTypes [rootID] "".

(** The loop of [mergeDependencyContexts]. *)
Fixpoint merge_from (scope : string) (contexts : list DependencyContext) (depTypes : list DependencyType)
    (graphIDs : list string) : DependencyContext :=
  match contexts with
  | [] => context_Normalize (mkDependencyContext scope depTypes graphIDs "")
  | ctx :: contexts =>
      let ctx := context_Normalize ctx in
      if decide (Scope ctx = DependencyScopeUnknown ∨ Scope ctx ≠ scope) then NewUnknownDependencyContext
      else merge_from scope contexts (depTypes ++ ctx_DependencyTypes ctx) (graphIDs ++ GraphIDs ctx)
  end.

(** [None] is the panic on an empty slice. *)
Definition mergeDependencyContexts (contexts : list DependencyContext) : option DependencyContext :=
  match contexts with
  | [] => None
  | c :: _ => Some (merge_from (Scope c) contexts [] [])
  end.

Section queue.
Context (uuid : nat → string) (unique_violation check_violation : error).

(** *** The job queue *)

Definition EnqueueResolve (now : time) (req : ResolveRequest) (db : GraphDB) : result bool * GraphDB :=
  let rootPackage := FullName (job_Root req) in
  if decide (rootPackage = "" ∨ Version (job_Root req) = "") then
    (Err (new_error "enqueueing dependency graph resolve: root package and version are required"), db)
  else if decide (job_key req ∈ root_key <$> db_roots db) then (Ok false, db)
  else
    let r := mkGraphRoot (uuid (db_serial db)) (job_TenantID req) (job_UpstreamID req) rootPackage
               (Version (job_Root req)) DependencyGraphPending None None now now None in
    (Ok true, mkGraphDB (db_roots db ++ [r]) (db_nodes db) (db_edges db) (db_summaries db)
                (db_base_urls db) (S (db_serial db))).

(** The [WHERE] clause of the claim; the tenant ["*"] is no filter. *)
Definition claimable (now : time) (tenantID : string) (r : GraphRoot) : Prop :=
  (gr_Status r = DependencyGraphPending ∨ gr_Status r = DependencyGraphFailed) ∧
  gr_UpdatedAt r ≤ now ∧ (tenantID = "*" ∨ gr_TenantID r = tenantID).

#[export] Instance claimable_dec now tenantID r : Decision (claimable now tenantID r).
Proof. unfold claimable. apply _. Defined.

Definition earlier (a b : GraphRoot) : bool := gr_UpdatedAt a <? gr_UpdatedAt b.

(** The job found, and the tables with it marked; the marking is committed before
    the identity is normalised. *)
Definition ClaimNextResolveJob (tenantID : string) (now dbnow : time) (db : GraphDB)
    : result (option ResolveRequest) * GraphDB :=
  let tenantID := TrimSpace tenantID in
  if decide (tenantID = "") then
    (Err (new_error "claiming dependency graph resolve: tenant_id is required"), db)
  else match sort_by earlier (filter (claimable now tenantID) (db_roots db)) with
  | [] => (Ok None, db)
  | next :: _ =>
      match db_base_urls db !! gr_UpstreamID next with
      | None => (Ok None, db)
      | Some baseURL =>
          let db := update_roots (λ r, gr_ID r = gr_ID next) (resolving dbnow) db in
          match NormalizeArtifactIdentity
                  (mkArtifact EcosystemNPM "" (gr_PackageName next) (gr_Version next) "") with
          | Err e => (Err (wrap_error "normalizing claimed root artifact: " e), db)
          | Ok root => (Ok (Some (mkResolveJob (gr_TenantID next) (gr_UpstreamID next) baseURL root now)), db)
          end
      end
  end.

Definition dependencyGraphRootID (req : ResolveRequest) (db : GraphDB) : result string :=
  match filter (λ r, root_key r = job_key req) (db_roots db) with
  | r :: _ => Ok (gr_ID r)
  | [] => Err (new_error "loading dependency graph root: no rows in result set")
  end.

(** Deleting the nodes deletes their edges. *)
Definition clearDependencyGraph (rootID : string) (db : GraphDB) : GraphDB :=
  let gone := nr_ID <$> filter (λ n, nr_Root n = rootID) (db_nodes db) in
  mkGraphDB (db_roots db) (filter (λ n, nr_Root n ≠ rootID) (db_nodes db))
    (filter (λ e, er_Parent e ∉ gone ∧ er_Child e ∉ gone) (db_edges db))
    (filter (λ s, sr_Root s ≠ rootID) (db_summaries db)) (db_base_urls db) (db_serial db).

Definition insertDependencyContextSummary (req : ResolveRequest) (rootID : string) (a : ArtifactIdentity)
    (c : DependencyContext) (db : GraphDB) : result GraphDB :=
  if decide (Exists (λ s, sr_Root s = rootID ∧ sr_Artifact s = a) (db_summaries db)) then
    Err (wrap_error "inserting dependency context summary: " unique_violation)
  else Ok (mkGraphDB (db_roots db) (db_nodes db) (db_edges db)
             (db_summaries db ++ [mkSummaryRow rootID (job_TenantID req) (job_UpstreamID req) a (context_Normalize c)])
             (db_base_urls db) (db_serial db)).

(** Node keys to row identifiers, and the tables. *)
Fixpoint insertDependencyGraphNodes (req : ResolveRequest) (rootID : string)
    (nodes : list DependencyGraphNode) (nodeIDs : gmap string string) (db : GraphDB)
    : result (gmap string string * GraphDB) :=
  match nodes with
  | [] => Ok (nodeIDs, db)
  | node :: nodes =>
      if decide (Exists (λ n, nr_Root n = rootID ∧ nr_Artifact n = node_Artifact node) (db_nodes db))
      then Err (wrap_error "inserting dependency graph node: " unique_violation)
      else
        let nodeID := uuid (db_serial db) in
        let db := mkGraphDB (db_roots db) (db_nodes db ++
                    [mkNodeRow nodeID rootID (node_Artifact node) (MinDepth node)
                       (dependencyTypeStrings (node_DependencyTypes node))]) (db_edges db)
                    (db_summaries db) (db_base_urls db) (S (db_serial db)) in
        let key := if decide (node_ID node = "") then CacheKey (node_Artifact node) else node_ID node in
        let c := context_Normalize (dependencyContextForNode rootID node) in
        db ← insertDependencyContextSummary req rootID (node_Artifact node) c db;
        insertDependencyGraphNodes req rootID nodes (<[key := nodeID]> nodeIDs) db
  end.

Fixpoint insertDependencyGraphEdges (rootID : string) (nodeIDs : gmap string string)
    (edges : list DependencyGraphEdge) (db : GraphDB) : result GraphDB :=
  match edges with
  | [] => Ok db
  | edge :: edges =>
      match nodeIDs !! ParentNodeID edge, nodeIDs !! ChildNodeID edge with
      | None, _ => Err (new_error ("inserting dependency graph edge: parent node " +:+
                          quote (ParentNodeID edge) +:+ " not found"))
      | _, None => Err (new_error ("inserting dependency graph edge: child node " +:+
                          quote (ChildNodeID edge) +:+ " not found"))
      | Some parentID, Some childID =>
          if decide (edge_DependencyType edge ∉ edge_types) then
            Err (wrap_error "inserting dependency graph edge: " check_violation)
          else
            let row := mkEdgeRow (uuid (db_serial db)) rootID parentID childID (edge_DependencyType edge) in
            let db := if decide (edge_row_key row ∈ edge_row_key <$> db_edges db) then db
                      else mkGraphDB (db_roots db) (db_nodes db) (db_edges db ++ [row]) (db_summaries db)
                             (db_base_urls db) (S (db_serial db)) in
            insertDependencyGraphEdges rootID nodeIDs edges db
      end
  end.

Definition markDependencyGraphComplete (dbnow : time) (rootID graphHash : string) (db : GraphDB) : GraphDB :=
  update_roots (λ r, gr_ID r = rootID) (completed dbnow graphHash) db.

Definition complete_tx (dbnow : time) (req : ResolveRequest) (nodes : list DependencyGraphNode)
    (edges : list DependencyGraphEdge) (graphHash : string) (db : GraphDB) : result GraphDB :=
  rootID ← dependencyGraphRootID req db;
  '(nodeIDs, db) ← insertDependencyGraphNodes req rootID nodes ∅ (clearDependencyGraph rootID db);
  db ← insertDependencyGraphEdges rootID nodeIDs edges db;
  Ok (markDependencyGraphComplete dbnow rootID graphHash db).

(** A failed transaction is rolled back. *)
Definition CompleteResolve (dbnow : time) (req : ResolveRequest) (nodes : list DependencyGraphNode)
    (edges : list DependencyGraphEdge) (graphHash : string) (db : GraphDB) : result () * GraphDB :=
  match complete_tx dbnow req nodes edges graphHash db with
  | Ok db' => (Ok (), db')
  | Err e => (Err e, db)
  end.

Definition FailResolve (req : ResolveRequest) (message : string) (retryAfter : time) (db : GraphDB)
    : result () * GraphDB :=
  (Ok (), update_roots (λ r, root_key r = job_key req) (failed message retryAfter) db).

(** *** Lookup *)

Definition LookupContext (tenantID upstreamID : string) (a : ArtifactIdentity) (db : GraphDB)
    : result DependencyContext :=
  let rows := filter (λ s, sr_TenantID s = tenantID ∧ sr_UpstreamID s = upstreamID ∧ sr_Artifact s = a)
                (db_summaries db) in
  let contexts := (λ s, context_Normalize (sr_Context s)) <$> rows in
  match mergeDependencyContexts contexts with
  | None => Err (sentinel_error ErrArtifactNotFound)
  | Some merged => Ok merged
  end.

(** *** Reading back *)

(** [DependencyGraphSnapshot]. *)
Record Snapshot : Type := mkSnapshot {
  snap_Root : GraphRoot; snap_Nodes : list DependencyGraphNode; snap_Edges : list DependencyGraphEdge }.

Definition later (a b : GraphRoot) : bool := gr_UpdatedAt b <? gr_UpdatedAt a.

Definition ListRoots (tenantID : string) (limit : Z) (db : GraphDB) : list GraphRoot :=
  let limit := if decide (limit ≤ 0 ∨ limit > 500) then 100 else limit in
  take (Z.to_nat limit) (sort_by later (filter (λ r, gr_TenantID r = tenantID) (db_roots db))).

(** The text order of the database is its collation. *)
Context (collate : string → string → bool).

Definition node_row_less : NodeRow → NodeRow → bool :=
  lex_less nr_MinDepth Z.ltb (lex_less (λ n, Name (nr_Artifact n)) collate
    (λ a b, collate (Version (nr_Artifact a)) (Version (nr_Artifact b)))).
Definition edge_row_less : EdgeRow → EdgeRow → bool :=
  lex_less er_Parent str_ltb (lex_less er_Child str_ltb (λ a b, collate (er_Type a) (er_Type b))).

Definition GetSnapshot (tenantID rootID : string) (db : GraphDB) : result Snapshot :=
  match filter (λ r, gr_TenantID r = tenantID ∧ gr_ID r = rootID) (db_roots db) with
  | [] => Err (sentinel_error ErrArtifactNotFound)
  | root :: _ =>
      let nodes := sort_by node_row_less (filter (λ n, nr_Root n = rootID) (db_nodes db)) in
      let edges := sort_by edge_row_less (filter (λ e, er_Root e = rootID) (db_edges db)) in
      Ok (mkSnapshot root
            ((λ n, mkNode (nr_ID n) (nr_Root n) (nr_Artifact n) (nr_MinDepth n) (nr_DependencyTypes n)) <$> nodes)
            ((λ e, mkEdge (er_ID e) (er_Root e) (er_Parent e) (er_Child e) (er_Type e)) <$> edges))
  end.
End queue.

(** ** Lemmas *)

(** *** Identities that survive the round trip through the table *)

(** The root of a job: what npm normalisation gives for an unscoped request. *)
Definition canonical_root (a : ArtifactIdentity) : Prop :=
  ∃ a0, Namespace a0 = "" ∧ normalizeNPM a0 = Ok a.

Lemma ToLower_cons c s : ToLower (String c s) = String (lower_ascii c) (ToLower s).
Proof. done. Qed.

Lemma lower_ascii_at c : lower_ascii c = "@"%char ↔ c = "@"%char.
Proof. split; [|by intros ->]. destruct c as [[] [] [] [] [] [] [] []]; by compute. Qed.

Lemma lower_ascii_slash c : lower_ascii c = "/"%char ↔ c = "/"%char.
Proof. split; [|by intros ->]. destruct c as [[] [] [] [] [] [] [] []]; by compute. Qed.

Lemma HasPrefix_at_lower s : HasPrefix (ToLower s) "@" = HasPrefix s "@".
Proof.
  destruct s as [|c s]; [done|]. rewrite ToLower_cons, !HasPrefix_char.
  apply bool_decide_ext. rewrite !(eq_comm "@"%char). apply lower_ascii_at.
Qed.

Lemma SplitOnce_lower s a b :
  SplitOnce "/"%char s = Some (a, b) →
  SplitOnce "/"%char (ToLower a +:+ String "/"%char (ToLower b)) = Some (ToLower a, ToLower b).
Proof.
  revert a. induction s as [|c s IH]; intros a; simpl; [done|].
  destruct (decide (c = "/"%char)) as [->|Hc]; [by intros [= <- <-]|].
  destruct (SplitOnce "/" s) as [[a' b']|]; [|done]. intros [= <- <-].
  rewrite ToLower_cons, sapp_cons. simpl. rewrite decide_False by by rewrite lower_ascii_slash.
  by rewrite (IH a' eq_refl).
Qed.

(** A claimed job names the root that was enqueued. *)
Lemma canonical_root_again a :
  canonical_root a →
  ∃ b, NormalizeArtifactIdentity (mkArtifact EcosystemNPM "" (FullName a) (Version a) "") = Ok b ∧
    canonical_root b ∧ FullName b = FullName a ∧ Version b = Version a.
Proof.
  intros (a0 & Hns & H). pose proof (normalizeNPM_inv _ _ H) as (Hn & Hd & Hv & _ & _ & Hl & _).
  assert (∃ b, normalizeNPM (mkArtifact EcosystemNPM "" (FullName a) (Version a) "") = Ok b ∧
    FullName b = FullName a ∧ Version b = Version a) as (b & Hb & HF & HV).
  { unfold normalizeNPM in H. apply result_bind_ok in H as (c & Hc & H).
    repeat case_decide; try done. do 2 (case_match; [done|]). injection H as ->.
    destruct (HasPrefix (Name a0) "@") eqn:Hp.
    - destruct (SplitOnce "/" (Name a0)) as [[s r]|] eqn:Hs; [|done]. case_decide; [done|]. simplify_eq/=.
      assert (HasPrefix (ToLower s) "@" = true ∧ ToLower s ≠ "") as [Hat Hsne].
      { rewrite HasPrefix_at_lower, ToLower_empty. apply SplitOnce_spec in Hs. rewrite Hs in Hp.
        destruct s as [|x s]; [discriminate Hp|].
        rewrite sapp_cons, HasPrefix_char in Hp. by rewrite HasPrefix_char. }
      unfold normalizeNPM, FullName. simpl. rewrite decide_True by done.
      assert (HasPrefix (ToLower s +:+ "/" +:+ ToLower r) "@" = true) as ->.
      { destruct (ToLower s); [done|]. by rewrite sapp_cons, HasPrefix_char in *. }
      change ("/" +:+ ToLower r) with (String "/" (ToLower r)). rewrite (SplitOnce_lower _ _ _ Hs).
      rewrite decide_False by done. simpl. rewrite !ToLower_idem, decide_False by done.
      repeat case_match; try congruence. eexists. split; [done|]. simpl. by rewrite decide_True.
    - simplify_eq/=. unfold normalizeNPM, FullName. simpl. rewrite Hns, decide_False by auto. simpl.
      rewrite HasPrefix_at_lower, Hp. simpl. rewrite ToLower_idem, decide_False by done.
      repeat case_match; try congruence. by eexists. }
  exists b. split; [exact Hb|]. split; [|done].
  by exists (mkArtifact EcosystemNPM "" (FullName a) (Version a) "").
Qed.

(** *** The tables *)

Definition root_tag (r : GraphRoot) : string * string * string := (gr_ID r, gr_TenantID r, gr_UpstreamID r).

(** Well-formed roots: unique keys and identifiers, every status one of the four,
    every name the full name of a canonical root, every completed root hashed. *)
Record root_ok (r : GraphRoot) : Prop := {
  ro_status : gr_Status r ∈ [DependencyGraphPending; DependencyGraphResolving;
                             DependencyGraphComplete; DependencyGraphFailed];
  ro_name : ∃ a, canonical_root a ∧ FullName a = gr_PackageName r ∧ Version a = gr_Version r;
  ro_hash : gr_Status r = DependencyGraphComplete → is_Some (gr_GraphHash r) ∧ is_Some (gr_ResolvedAt r);
}.

Section facts.
Context (uuid : nat → string) (uuid_inj : ∀ i j, uuid i = uuid j → i = j).
Context (unique_violation check_violation : error).

Definition issued (n : nat) (x : string) : Prop := ∃ k, (k < n)%nat ∧ x = uuid k.

(** The invariant of the tables. *)
Record wf (db : GraphDB) : Prop := {
  wf_keys : NoDup (root_key <$> db_roots db);
  wf_ids : NoDup (gr_ID <$> db_roots db);
  wf_issued : Forall (λ r, issued (db_serial db) (gr_ID r)) (db_roots db);
  wf_roots : Forall root_ok (db_roots db);
  wf_nodes : Forall (λ n, nr_Root n ∈ gr_ID <$> db_roots db) (db_nodes db);
  wf_node_keys : NoDup ((λ n, (nr_Root n, nr_Artifact n)) <$> db_nodes db);
  wf_edges : Forall (λ e, er_Type e ∈ edge_types ∧ (er_Root e, er_Parent e) ∈ (λ n, (nr_Root n, nr_ID n)) <$> db_nodes db ∧
    (er_Root e, er_Child e) ∈ (λ n, (nr_Root n, nr_ID n)) <$> db_nodes db) (db_edges db);
  wf_edge_keys : NoDup (edge_row_key <$> db_edges db);
  wf_summaries : Forall (λ s, (sr_Root s, sr_TenantID s, sr_UpstreamID s) ∈ root_tag <$> db_roots db) (db_summaries db);
  wf_summary_keys : NoDup ((λ s, (sr_Root s, sr_Artifact s)) <$> db_summaries db);
}.

Lemma update_roots_fmap {B} (g : GraphRoot → B) p `{∀ r, Decision (p r)} f db :
  (∀ r, g (f r) = g r) → g <$> db_roots (update_roots p f db) = g <$> db_roots db.
Proof.
  intros Hg. simpl. rewrite <-list_fmap_compose. apply list_fmap_ext. intros i r _. simpl.
  case_decide; [apply Hg|done].
Qed.

(** A row update that keeps keys and identifiers and stores legal rows. *)
Lemma update_roots_wf p `{∀ r, Decision (p r)} f db :
  (∀ r, root_key (f r) = root_key r ∧ gr_ID (f r) = gr_ID r ∧ (root_ok r → root_ok (f r))) →
  wf db → wf (update_roots p f db).
Proof.
  intros Hf Hwf.
  assert (root_tag <$> db_roots (update_roots p f db) = root_tag <$> db_roots db) as Htag.
  { apply update_roots_fmap. intros r. destruct (Hf r) as ([= Ht Hu _ _] & Hid & _).
    unfold root_tag. by rewrite Hid, Ht, Hu. }
  split; rewrite ?Htag, ?update_roots_fmap by apply Hf; try apply Hwf.
  - apply Forall_fmap, (Forall_impl _ _ _ (wf_issued _ Hwf)). intros r Hr. simpl. case_decide; [|done].
    by rewrite (proj1 (proj2 (Hf r))).
  - apply Forall_fmap, (Forall_impl _ _ _ (wf_roots _ Hwf)). intros r Hr. simpl. case_decide; [|done]. by apply Hf.
Qed.

Lemma resolving_ok now r : root_ok r → root_ok (resolving now r).
Proof. intros [H1 H2 H3]. split; [by do 2 constructor|done|done]. Qed.
Lemma failed_ok msg t r : root_ok r → root_ok (failed msg t r).
Proof. intros [H1 H2 H3]. split; [by do 4 constructor|done|done]. Qed.
Lemma completed_ok now hash r : root_ok r → root_ok (completed now hash r).
Proof. intros [H1 H2 H3]. split; [by do 3 constructor|done|done]. Qed.

Lemma update_wf p `{∀ r, Decision (p r)} f db :
  ((∃ now, f = resolving now) ∨ (∃ msg t, f = failed msg t) ∨ (∃ now hash, f = completed now hash)) →
  wf db → wf (update_roots p f db).
Proof.
  intros Hf. apply update_roots_wf. intros r.
  destruct Hf as [[? ->]|[(? & ? & ->)|(? & ? & ->)]]; (split; [done|split; [done|]]);
    auto using resolving_ok, failed_ok, completed_ok.
Qed.

Lemma issued_mono n m x : (n ≤ m)%nat → issued n x → issued m x.
Proof. intros Hn (k & Hk & ->). exists k. split; [lia|done]. Qed.

Lemma not_issued n l : Forall (issued n) l → uuid n ∉ l.
Proof. rewrite Forall_forall. intros H (k & Hk & E)%H. apply uuid_inj in E. lia. Qed.

Lemma EnqueueResolve_wf now req db :
  canonical_root (job_Root req) → wf db → wf (EnqueueResolve uuid now req db).2.
Proof.
  intros Hc H. unfold EnqueueResolve. case_decide; [done|]. case_decide as Hk; [done|].
  assert (Forall (issued (db_serial db)) (gr_ID <$> db_roots db)) as Hi by apply Forall_fmap, (wf_issued _ H).
  split; simpl; rewrite ?fmap_app; simpl; try apply H.
  - apply NoDup_snoc_2; [apply H|done].
  - apply NoDup_snoc_2; [apply H|by apply not_issued].
  - apply Forall_app. split; [|apply Forall_singleton; exists (db_serial db); split; [lia|done]].
    eapply Forall_impl; [apply (wf_issued _ H)|]. intros r. apply issued_mono. lia.
  - apply Forall_app. split; [apply H|]. apply Forall_singleton. split; simpl; [by left|by eexists|done].
  - eapply Forall_impl; [apply (wf_nodes _ H)|]. intros n Hn. apply elem_of_app. by left.
  - eapply Forall_impl; [apply (wf_summaries _ H)|]. intros n Hn. apply elem_of_app. by left.
Qed.

Lemma FailResolve_wf req msg t db : wf db → wf (FailResolve req msg t db).2.
Proof. intros H. simpl. apply update_wf; [|done]. right; left. eauto. Qed.

Lemma ClaimNextResolveJob_wf tenant now dbnow db : wf db → wf (ClaimNextResolveJob tenant now dbnow db).2.
Proof.
  intros H. unfold ClaimNextResolveJob. case_decide; [done|]. destruct (sort_by _ _) as [|next ?]; [done|].
  destruct (_ !! _); [|done]. destruct (NormalizeArtifactIdentity _); simpl; apply update_wf; eauto.
Qed.

Lemma clearDependencyGraph_wf rootID db : wf db → wf (clearDependencyGraph rootID db).
Proof.
  intros H. unfold clearDependencyGraph. set (gone := nr_ID <$> _).
  split; simpl; try apply H.
  - apply Forall_filter_2, H.
  - apply NoDup_fmap_filter, H.
  - apply Forall_forall. intros e [[Hp Hc] He]%list_elem_of_filter.
    pose proof (proj1 (Forall_forall _ _) (wf_edges _ H) e He) as (Ht & Hep & Hec). split; [done|].
    assert (∀ id, id ∉ gone → (er_Root e, id) ∈ (λ n, (nr_Root n, nr_ID n)) <$> db_nodes db →
      (er_Root e, id) ∈ (λ n, (nr_Root n, nr_ID n)) <$> filter (λ n, nr_Root n ≠ rootID) (db_nodes db)) as Hkeep.
    { intros id Hid (n & [= Hr ->] & Hn)%list_elem_of_fmap. apply list_elem_of_fmap. exists n.
      split; [by rewrite Hr|]. apply list_elem_of_filter. split; [|done]. intros E. apply Hid.
      apply list_elem_of_fmap. exists n. split; [done|]. by apply list_elem_of_filter. }
    split; by apply Hkeep.
  - apply NoDup_fmap_filter, H.
  - apply Forall_filter_2, H.
  - apply NoDup_fmap_filter, H.
Qed.

Abbreviation node_tags := (fmap (λ n, (nr_Root n, nr_ID n))).

(** Inserting one node row and its summary. *)
Lemma insert_node_wf rootID req n c db :
  wf db → (rootID, job_TenantID req, job_UpstreamID req) ∈ root_tag <$> db_roots db →
  nr_Root n = rootID → nr_ID n = uuid (db_serial db) →
  ¬ Exists (λ m, nr_Root m = rootID ∧ nr_Artifact m = nr_Artifact n) (db_nodes db) →
  ¬ Exists (λ s, sr_Root s = rootID ∧ sr_Artifact s = nr_Artifact n) (db_summaries db) →
  wf (mkGraphDB (db_roots db) (db_nodes db ++ [n]) (db_edges db)
        (db_summaries db ++ [mkSummaryRow rootID (job_TenantID req) (job_UpstreamID req) (nr_Artifact n) c])
        (db_base_urls db) (S (db_serial db))).
Proof.
  intros H Hr <- Hid Hn Hs. rewrite <-Forall_Exists_neg, Forall_forall in Hn. rewrite <-Forall_Exists_neg, Forall_forall in Hs.
  split; simpl; rewrite ?fmap_app; simpl; try apply H.
  - eapply Forall_impl; [apply (wf_issued _ H)|]. intros r. apply issued_mono. lia.
  - apply Forall_app. split; [apply H|]. apply Forall_singleton.
    apply list_elem_of_fmap in Hr as (r & [= -> _ _] & Hr). by apply list_elem_of_fmap_2.
  - apply NoDup_snoc_2; [apply H|]. intros (m & [= Hm Ha] & Hm')%list_elem_of_fmap.
    by apply (Hn m Hm').
  - eapply Forall_impl; [apply (wf_edges _ H)|]. intros e (? & ? & ?). split; [done|].
    split; apply elem_of_app; by left.
  - apply Forall_app. split; [apply H|]. by apply Forall_singleton.
  - apply NoDup_snoc_2; [apply H|]. intros (m & [= Hm Ha] & Hm')%list_elem_of_fmap.
    by apply (Hs m Hm').
Qed.

(** What the loop over the nodes returns and leaves: the rows of its own root only. *)
Lemma insert_nodes_wf req rootID nodes ids db ids' db' :
  wf db → (rootID, job_TenantID req, job_UpstreamID req) ∈ root_tag <$> db_roots db →
  (∀ k x, ids !! k = Some x → (rootID, x) ∈ node_tags (db_nodes db)) →
  insertDependencyGraphNodes uuid unique_violation req rootID nodes ids db = Ok (ids', db') →
  wf db' ∧ db_roots db' = db_roots db ∧ (∀ k x, ids' !! k = Some x → (rootID, x) ∈ node_tags (db_nodes db')).
Proof.
  revert ids db. induction nodes as [|n nodes IH]; intros ids db H Hr Hids Hi; simpl in Hi; [by simplify_eq|].
  case_decide as Hn; [done|]. unfold insertDependencyContextSummary in Hi. cbn [db_summaries] in Hi.
  destruct (decide (Exists _ (db_summaries db))) as [|Hs]; [done|]. simpl in Hi. apply IH in Hi; [done| |done|].
  - by apply (insert_node_wf rootID req (mkNodeRow _ rootID (node_Artifact n) _ _)).
  - simpl. intros k x [[_ <-]|[_ Hx]]%lookup_insert_Some; rewrite fmap_app, elem_of_app; [by right; left|].
    left. by eapply Hids.
Qed.

Lemma insert_edges_wf rootID ids es db db' :
  wf db → (∀ k x, ids !! k = Some x → (rootID, x) ∈ node_tags (db_nodes db)) →
  insertDependencyGraphEdges uuid check_violation rootID ids es db = Ok db' →
  wf db' ∧ db_roots db' = db_roots db ∧ db_nodes db' = db_nodes db ∧ db_summaries db' = db_summaries db.
Proof.
  revert db. induction es as [|e es IH]; intros db H Hids Hi; simpl in Hi; [by simplify_eq|].
  destruct (ids !! ParentNodeID e) as [p|] eqn:Hp; [|done]. destruct (ids !! ChildNodeID e) as [c|] eqn:Hc; [|done].
  destruct (decide (edge_DependencyType e ∉ edge_types)) as [|Ht%dec_stable]; [done|].
  case_decide as Hk; [by apply IH|].
  apply IH in Hi; [done| |done]. split; simpl; rewrite ?fmap_app; simpl; try apply H.
  - eapply Forall_impl; [apply (wf_issued _ H)|]. intros r. apply issued_mono. lia.
  - apply Forall_app. split; [apply H|]. apply Forall_singleton. simpl. split; [done|].
    split; by eapply Hids.
  - by apply NoDup_snoc_2; [apply H|].
Qed.

Lemma dependencyGraphRootID_spec req db id :
  dependencyGraphRootID req db = Ok id ↔ ∃ r l, filter (λ r, root_key r = job_key req) (db_roots db) = r :: l ∧ gr_ID r = id.
Proof. unfold dependencyGraphRootID. destruct (filter _ _) as [|r l]; naive_solver. Qed.

Lemma CompleteResolve_wf now req nodes es h db :
  wf db → wf (CompleteResolve uuid unique_violation check_violation now req nodes es h db).2.
Proof.
  intros H. unfold CompleteResolve. destruct (complete_tx _ _ _ _ _ _ _ _ _) as [db'|] eqn:E; [|done]. simpl.
  unfold complete_tx in E. apply result_bind_ok in E as (id & (r & l & Hr & <-)%dependencyGraphRootID_spec & E).
  apply result_bind_ok in E as ([ids db1] & E1 & E). apply result_bind_ok in E as (db2 & E2 & [= <-]).
  assert (r ∈ db_roots db ∧ root_key r = job_key req) as [Hin [= Ht Hu _ _]].
  { assert (r ∈ filter (λ r, root_key r = job_key req) (db_roots db)) as []%list_elem_of_filter; [|done].
    rewrite Hr. by left. }
  apply insert_nodes_wf in E1 as (H1 & _ & Hids); [|by apply clearDependencyGraph_wf| |].
  - apply insert_edges_wf in E2 as (H2 & _); [|done..]. apply update_wf; [|done]. right; right. eauto.
  - simpl. apply list_elem_of_fmap. exists r. split; [|done]. unfold root_tag. by rewrite Ht, Hu.
  - intros k x Hx. by rewrite lookup_empty in Hx.
Qed.

(** *** Traces

    The workers and the proxies interleave whole transactions. *)

Inductive queue_op : Type :=
| OpEnqueue (now : time) (req : ResolveRequest)
| OpClaim (tenantID : string) (now dbnow : time)
| OpComplete (dbnow : time) (req : ResolveRequest) (nodes : list DependencyGraphNode)
    (edges : list DependencyGraphEdge) (graphHash : string)
| OpFail (req : ResolveRequest) (message : string) (retryAfter : time).

(** The job an operation hands out, and the next tables. *)
Definition run_op (o : queue_op) (db : GraphDB) : option ResolveRequest * GraphDB :=
  match o with
  | OpEnqueue now req => (None, (EnqueueResolve uuid now req db).2)
  | OpClaim tenantID now dbnow =>
      let '(r, db) := ClaimNextResolveJob tenantID now dbnow db in
      (match r with Ok j => j | Err _ => None end, db)
  | OpComplete dbnow req nodes edges h =>
      (None, (CompleteResolve uuid unique_violation check_violation dbnow req nodes edges h db).2)
  | OpFail req message retryAfter => (None, (FailResolve req message retryAfter db).2)
  end.

Fixpoint run_ops (ops : list queue_op) (db : GraphDB) : list ResolveRequest * GraphDB :=
  match ops with
  | [] => ([], db)
  | o :: ops =>
      let '(j, db) := run_op o db in
      let '(js, db) := run_ops ops db in
      (option_list j ++ js, db)
  end.

(** Requests enqueue canonical roots. *)
Definition legal_op (o : queue_op) : Prop :=
  match o with OpEnqueue _ req => canonical_root (job_Root req) | _ => True end.

(** The job whose work an operation ends. *)
Definition ends_job (o : queue_op) : option (string * string * string * string) :=
  match o with
  | OpComplete _ req _ _ _ | OpFail req _ _ => Some (job_key req)
  | _ => None
  end.

Lemma run_op_wf o db : legal_op o → wf db → wf (run_op o db).2.
Proof.
  destruct o as [now req|tenant now dbnow|dbnow req ns es h|req msg t]; simpl; intros Hl H.
  - by apply EnqueueResolve_wf.
  - pose proof (ClaimNextResolveJob_wf tenant now dbnow db H) as Hc.
    by destruct (ClaimNextResolveJob tenant now dbnow db).
  - by apply CompleteResolve_wf.
  - by apply FailResolve_wf.
Qed.

Lemma wf_key_inj db r r' :
  wf db → r ∈ db_roots db → r' ∈ db_roots db → root_key r = root_key r' → r = r'.
Proof.
  intros H [i Hi]%list_elem_of_lookup [j Hj]%list_elem_of_lookup E.
  assert (i = j) as <-; [|congruence].
  apply (NoDup_lookup _ i j (root_key r) (wf_keys _ H)); rewrite list_lookup_fmap, ?Hi, ?Hj; csimpl; by rewrite ?E.
Qed.

Lemma wf_id_inj db r r' :
  wf db → r ∈ db_roots db → r' ∈ db_roots db → gr_ID r = gr_ID r' → r = r'.
Proof.
  intros H [i Hi]%list_elem_of_lookup [j Hj]%list_elem_of_lookup E.
  assert (i = j) as <-; [|congruence].
  apply (NoDup_lookup _ i j (gr_ID r) (wf_ids _ H)); rewrite list_lookup_fmap, ?Hi, ?Hj; csimpl; by rewrite ?E.
Qed.

(** What a claim does: it takes a claimable root with the least retry time, marks
    it, and hands out the job of its key. *)
Record claimed_row (tenantID : string) (now dbnow : time) (db : GraphDB) (j : ResolveRequest)
    (db' : GraphDB) (r : GraphRoot) : Prop := {
  cr_in : r ∈ db_roots db;
  cr_claimable : claimable now (TrimSpace tenantID) r;
  cr_first : ∀ r', r' ∈ db_roots db → claimable now (TrimSpace tenantID) r' → gr_UpdatedAt r ≤ gr_UpdatedAt r';
  cr_key : job_key j = root_key r;
  cr_db : db' = update_roots (λ r', gr_ID r' = gr_ID r) (resolving dbnow) db;
}.

#[local] Instance earlier_weak : StrictWeak earlier.
Proof. split; unfold earlier; intros *; rewrite ?Z.ltb_lt, ?Z.ltb_ge; lia. Qed.

Lemma claim_row tenantID now dbnow db j db' :
  wf db → ClaimNextResolveJob tenantID now dbnow db = (Ok (Some j), db') →
  ∃ r, claimed_row tenantID now dbnow db j db' r.
Proof.
  intros H. unfold ClaimNextResolveJob. case_decide; [done|].
  destruct (sort_by _ _) as [|r l] eqn:Es; [done|]. destruct (_ !! _); [|done].
  assert (∀ x, x ∈ r :: l ↔ claimable now (TrimSpace tenantID) x ∧ x ∈ db_roots db) as Hin.
  { intros x. by rewrite <-Es, sort_by_elem, list_elem_of_filter. }
  destruct (proj1 (Hin r)) as [Hc Hr]; [by left|].
  destruct (ro_name _ (proj1 (Forall_forall _ _) (wf_roots _ H) r Hr)) as (a & Ha & HF & HV).
  destruct (canonical_root_again a Ha) as (b & Hb & _ & HF' & HV'). rewrite HF, HV in Hb. rewrite Hb.
  intros [= <- <-]. exists r. split; try done.
  - intros r' Hr' Hc'. pose proof (sort_by_sorted earlier (filter (claimable now (TrimSpace tenantID)) (db_roots db))) as Hs.
    rewrite Es in Hs. apply StronglySorted_inv in Hs as [_ Hs].
    assert (r' ∈ r :: l) as [->|Hl]%elem_of_cons by by apply Hin. { lia. }
    rewrite Forall_forall in Hs. specialize (Hs r' Hl). unfold earlier in Hs. lia.
  - unfold job_key, root_key. simpl. by rewrite HF', HV', HF, HV.
Qed.

(** *** A job that is being resolved *)

Definition busy (k : string * string * string * string) (db : GraphDB) : Prop :=
  ∃ r, r ∈ db_roots db ∧ root_key r = k ∧ gr_Status r = DependencyGraphResolving.

Lemma busy_update k p `{∀ r, Decision (p r)} f db :
  (∀ r, root_key (f r) = root_key r) →
  (∀ r, r ∈ db_roots db → root_key r = k → p r → gr_Status (f r) = DependencyGraphResolving) →
  busy k db → busy k (update_roots p f db).
Proof.
  intros Hk Hf (r & Hr & <- & Hs). exists (if decide (p r) then f r else r). split; [|split].
  - simpl. apply list_elem_of_fmap. by exists r.
  - by case_decide.
  - case_decide; [by apply Hf|done].
Qed.

(** Completing replaces the root's rows and marks it, or changes nothing. *)
Lemma CompleteResolve_roots now req nodes es h db :
  wf db → let '(res, db') := CompleteResolve uuid unique_violation check_violation now req nodes es h db in
  match res with
  | Err _ => db' = db
  | Ok _ => ∃ r, r ∈ db_roots db ∧ root_key r = job_key req ∧
      db_roots db' = db_roots (update_roots (λ r', gr_ID r' = gr_ID r) (completed now h) db)
  end.
Proof.
  intros H. unfold CompleteResolve. destruct (complete_tx _ _ _ _ _ _ _ _ _) as [db'|] eqn:E; [|done].
  unfold complete_tx in E. apply result_bind_ok in E as (id & (r & l & Hr & <-)%dependencyGraphRootID_spec & E).
  apply result_bind_ok in E as ([ids db1] & E1 & E). apply result_bind_ok in E as (db2 & E2 & [= <-]).
  assert (r ∈ db_roots db ∧ root_key r = job_key req) as [Hin Hk].
  { assert (r ∈ filter (λ r, root_key r = job_key req) (db_roots db)) as []%list_elem_of_filter; [|done].
    rewrite Hr. by left. }
  exists r. split; [done|]. split; [done|]. injection Hk as Ht Hu _ _.
  apply insert_nodes_wf in E1 as (H1 & R1 & Hids); [|by apply clearDependencyGraph_wf| |].
  - apply insert_edges_wf in E2 as (H2 & R2 & _); [|done..]. simpl. by rewrite R2, R1.
  - simpl. apply list_elem_of_fmap. exists r. split; [|done]. unfold root_tag. by rewrite Ht, Hu.
  - intros k x Hx. by rewrite lookup_empty in Hx.
Qed.

Lemma claimable_idle k now t r db :
  wf db → busy k db → r ∈ db_roots db → claimable now t r → root_key r ≠ k.
Proof.
  intros H (r' & Hr' & Hk & Hs) Hr [Hc _] E.
  assert (r = r') as -> by (eapply wf_key_inj; [done..|by rewrite E]). rewrite Hs in Hc. by destruct Hc.
Qed.

(** A busy root stays busy, and is not handed out, until an operation ends it. *)
Lemma busy_step o k db :
  wf db → busy k db → ends_job o ≠ Some k →
  busy k (run_op o db).2 ∧ ∀ j, (run_op o db).1 = Some j → job_key j ≠ k.
Proof.
  intros H Hb He. destruct o as [now req|tenant now dbnow|dbnow req ns es h|req msg t]; simpl in *.
  - split; [|done]. unfold EnqueueResolve. do 2 (case_decide; [done|]). destruct Hb as (r & Hr & ? & ?).
    exists r. split; [|done]. simpl. apply elem_of_app. by left.
  - destruct (ClaimNextResolveJob tenant now dbnow db) as [res db'] eqn:E.
    assert (busy k db') as Hb'.
    { revert E. unfold ClaimNextResolveJob. case_decide; [by intros [= _ <-]|].
      destruct (sort_by _ _); [by intros [= _ <-]|]. destruct (_ !! _); [|by intros [= _ <-]].
      destruct (NormalizeArtifactIdentity _); intros [= _ <-]; by apply busy_update. }
    split; [done|]. destruct res as [[j|]|]; try done. intros ? [= <-].
    destruct (claim_row _ _ _ _ _ _ H E) as (r & [Hr Hc _ -> _]). by eapply claimable_idle.
  - split; [|done]. pose proof (CompleteResolve_roots dbnow req ns es h db H) as Hc.
    destruct (CompleteResolve _ _ _ _ _ _ _ _ _) as [[]] eqn:E; simpl; [|by subst].
    destruct Hc as (r & Hr & Hk & Hroots). unfold busy. rewrite Hroots.
    apply (busy_update k (λ r', gr_ID r' = gr_ID r) (completed dbnow h) db); [done| |done].
    intros r' Hr' <- Eid. assert (r' = r) as -> by by eapply wf_id_inj. congruence.
  - split; [|done]. apply busy_update; [done| |done]. intros r _ <- E. congruence.
Qed.

(** A claimed root is busy, and so is every root that was. *)
Lemma claim_busy tenantID now dbnow db j db' :
  wf db → ClaimNextResolveJob tenantID now dbnow db = (Ok (Some j), db') →
  busy (job_key j) db' ∧ ¬ busy (job_key j) db.
Proof.
  intros H E. destruct (claim_row _ _ _ _ _ _ H E) as (r & [Hr Hc _ Hk ->]). rewrite Hk. split.
  - exists (resolving dbnow r). split; [|done]. simpl. apply list_elem_of_fmap. exists r. by rewrite decide_True.
  - intros Hb. by eapply claimable_idle.
Qed.

(** *** The waiting roots *)

Definition waiting (now : time) (tenantID : string) (db : GraphDB) : list GraphRoot :=
  sort_by earlier (filter (claimable now (TrimSpace tenantID)) (db_roots db)).

(** Every root's upstream exists: the foreign key of the table. *)
Definition upstreams_known (db : GraphDB) : Prop :=
  Forall (λ r, is_Some (db_base_urls db !! gr_UpstreamID r)) (db_roots db).

Lemma waiting_claimed dbnow now tenantID db r l :
  wf db → waiting now tenantID db = r :: l →
  waiting now tenantID (update_roots (λ r', gr_ID r' = gr_ID r) (resolving dbnow) db) = l.
Proof.
  intros H E. unfold waiting in *. simpl.
  assert (∀ rs, filter (claimable now (TrimSpace tenantID))
      ((λ r', if decide (gr_ID r' = gr_ID r) then resolving dbnow r' else r') <$> rs) =
    filter (λ x, gr_ID x ≠ gr_ID r) (filter (claimable now (TrimSpace tenantID)) rs)) as ->.
  { intros rs. induction rs as [|x rs IH]; [done|]. rewrite fmap_cons, !(filter_cons _ _ rs), filter_cons, IH.
    destruct (decide (gr_ID x = gr_ID r)) as [Ex|Ex].
    - rewrite (decide_False (P := claimable _ _ (resolving dbnow x))) by (by intros [[|] _]).
      case_decide; [|done]. by rewrite filter_cons_False by (by intros []).
    - case_decide; [by rewrite filter_cons_True|done]. }
  rewrite (sort_by_filter earlier (λ x, gr_ID x ≠ gr_ID r)).
  change (filter (λ x, gr_ID x ≠ gr_ID r) (waiting now tenantID db) = l). unfold waiting. rewrite E,  filter_cons_False by (by intros Hne; apply Hne).
  apply filter_Forall_id.
  assert (NoDup (gr_ID <$> r :: l)) as Hnd.
  { rewrite <-E, sort_by_perm. by apply NoDup_fmap_filter, H. }
  rewrite fmap_cons in Hnd. apply NoDup_cons in Hnd as [Hn _]. apply Forall_forall. intros x Hx Ex.
  apply Hn. rewrite <-Ex. by apply list_elem_of_fmap_2.
Qed.

(** A claim takes the first waiting root, if there is one. *)
Lemma claim_waiting tenantID now dbnow db :
  wf db → upstreams_known db → TrimSpace tenantID ≠ "" →
  match waiting now tenantID db with
  | [] => ClaimNextResolveJob tenantID now dbnow db = (Ok None, db)
  | r :: l => ∃ j db', ClaimNextResolveJob tenantID now dbnow db = (Ok (Some j), db') ∧
      job_key j = root_key r ∧ db' = update_roots (λ r', gr_ID r' = gr_ID r) (resolving dbnow) db
  end.
Proof.
  intros H Hu Ht. unfold waiting. unfold ClaimNextResolveJob. rewrite decide_False by done.
  destruct (sort_by _ _) as [|r l] eqn:Es; [done|].
  assert (r ∈ db_roots db) as Hr.
  { assert (r ∈ filter (claimable now (TrimSpace tenantID)) (db_roots db)) as []%list_elem_of_filter; [|done].
    rewrite <-(sort_by_elem earlier), Es. by left. }
  destruct (proj1 (Forall_forall _ _) Hu r Hr) as [url Hurl]. rewrite Hurl.
  destruct (ro_name _ (proj1 (Forall_forall _ _) (wf_roots _ H) r Hr)) as (a & Ha & HF & HV).
  destruct (canonical_root_again a Ha) as (b & Hb & _ & HF' & HV'). rewrite HF, HV in Hb. rewrite Hb.
  do 2 eexists. split; [done|]. split; [|done]. unfold job_key, root_key. simpl. by rewrite HF', HV', HF, HV.
Qed.

Lemma upstreams_known_update p `{∀ r, Decision (p r)} f db :
  (∀ r, root_key (f r) = root_key r) → upstreams_known db → upstreams_known (update_roots p f db).
Proof.
  intros Hf Hu. apply Forall_fmap, (Forall_impl _ _ _ Hu). intros r Hr. simpl. case_decide; [|done].
  destruct (Hf r) as []. by injection (Hf r) as _ -> _ _.
Qed.

(** *** Completing a job *)

Definition node_key (n : DependencyGraphNode) : string :=
  if decide (node_ID n = "") then CacheKey (node_Artifact n) else node_ID n.

Definition summary_of (req : ResolveRequest) (rootID : string) (n : DependencyGraphNode) : SummaryRow :=
  mkSummaryRow rootID (job_TenantID req) (job_UpstreamID req) (node_Artifact n)
    (context_Normalize (context_Normalize (dependencyContextForNode rootID n))).

Lemma insert_nodes_ok req rootID nodes ids db :
  NoDup (node_Artifact <$> nodes) →
  (∀ n, n ∈ nodes → ¬ Exists (λ m, nr_Root m = rootID ∧ nr_Artifact m = node_Artifact n) (db_nodes db) ∧
     ¬ Exists (λ s, sr_Root s = rootID ∧ sr_Artifact s = node_Artifact n) (db_summaries db)) →
  ∃ ids' db', insertDependencyGraphNodes uuid unique_violation req rootID nodes ids db = Ok (ids', db') ∧
    (∀ k, k ∈ dom ids ∨ k ∈ node_key <$> nodes → is_Some (ids' !! k)) ∧
    db_roots db' = db_roots db ∧ db_base_urls db' = db_base_urls db ∧
    db_summaries db' = db_summaries db ++ (summary_of req rootID <$> nodes).
Proof.
  revert ids db. induction nodes as [|n nodes IH]; intros ids db Hnd Hn.
  { exists ids, db. simpl. rewrite app_nil_r. split; [done|]. split; [|done].
    intros k [Hk%elem_of_dom|?%elem_of_nil]; done. }
  apply NoDup_cons in Hnd as [Hni Hnd]. destruct (Hn n) as [H1 H2]; [by left|].
  rewrite fmap_cons. cbn [insertDependencyGraphNodes]. destruct (decide (Exists _ (db_nodes db))) as [|_]; [done|].
  unfold insertDependencyContextSummary. cbn [db_summaries].
  destruct (decide (Exists _ (db_summaries db))) as [|_]; [done|]. simpl. edestruct IH as (ids' & db' & -> & Hids & R & B & S); [done| |].
  - intros m Hm. destruct (Hn m) as [M1 M2]; [by right|]. simpl.
    assert (node_Artifact n ≠ node_Artifact m) as Hne.
    { intros E. apply Hni. rewrite E. by apply list_elem_of_fmap_2. }
    split; rewrite Exists_app, Exists_cons, Exists_nil; simpl; naive_solver.
  - exists ids', db'. split; [done|]. split; [|rewrite R, B, S; simpl; by rewrite <-app_assoc].
    intros k Hk. apply Hids. rewrite dom_insert, elem_of_union, elem_of_singleton.
    rewrite elem_of_cons in Hk. destruct Hk as [?|[->|?]]; [by left; right|left; by left|by right].
Qed.

Lemma insert_edges_ok rootID ids es db :
  Forall (λ e, is_Some (ids !! ParentNodeID e) ∧ is_Some (ids !! ChildNodeID e) ∧ edge_DependencyType e ∈ edge_types) es →
  ∃ db', insertDependencyGraphEdges uuid check_violation rootID ids es db = Ok db' ∧
    db_roots db' = db_roots db ∧ db_base_urls db' = db_base_urls db ∧ db_summaries db' = db_summaries db.
Proof.
  intros H. revert db. induction H as [|e es ([p Hp] & [c Hc] & Ht) _ IH]; intros db; [by exists db|].
  simpl. rewrite Hp, Hc, decide_False by auto. set (db1 := if decide _ then _ else _).
  destruct (IH db1) as (db' & -> & R & B & S). exists db'. rewrite R, B, S. unfold db1. by case_decide.
Qed.

(** A graph without duplicates, whose edges join its nodes, is stored: the root is
    complete, and its summaries are those of the nodes. *)
Lemma CompleteResolve_ok now req nodes es h db r :
  wf db → r ∈ db_roots db → root_key r = job_key req → NoDup (node_Artifact <$> nodes) →
  Forall (λ e, ParentNodeID e ∈ node_key <$> nodes ∧ ChildNodeID e ∈ node_key <$> nodes ∧
    edge_DependencyType e ∈ edge_types) es →
  ∃ db', CompleteResolve uuid unique_violation check_violation now req nodes es h db = (Ok (), db') ∧
    db_roots db' = db_roots (update_roots (λ r', gr_ID r' = gr_ID r) (completed now h) db) ∧
    db_base_urls db' = db_base_urls db ∧
    db_summaries db' = filter (λ s, sr_Root s ≠ gr_ID r) (db_summaries db) ++ (summary_of req (gr_ID r) <$> nodes).
Proof.
  intros H Hr Hk Hnd Hes. unfold CompleteResolve, complete_tx.
  assert (filter (λ r', root_key r' = job_key req) (db_roots db) = [r]) as Hf.
  { assert (NoDup (filter (λ r', root_key r' = job_key req) (db_roots db))) as Hn.
    { eapply NoDup_fmap_1, NoDup_fmap_filter, H. }
    destruct (filter _ _) as [|a [|b l]] eqn:E.
    - assert (r ∈ filter (λ r', root_key r' = job_key req) (db_roots db)) as Hin by by apply list_elem_of_filter.
      rewrite E in Hin. by apply elem_of_nil in Hin.
    - assert (a ∈ filter (λ r', root_key r' = job_key req) (db_roots db)) as [Ha ?]%list_elem_of_filter by (rewrite E; left).
      f_equal. eapply wf_key_inj; [done..|congruence].
    - assert (a ∈ filter (λ r', root_key r' = job_key req) (db_roots db)) as [Ha ?]%list_elem_of_filter by (rewrite E; left).
      assert (b ∈ filter (λ r', root_key r' = job_key req) (db_roots db)) as [Hb ?]%list_elem_of_filter by (rewrite E; right; left).
      assert (a = b) as -> by (eapply wf_key_inj; [done..|congruence]).
      apply NoDup_cons in Hn as [Hn _]. destruct Hn. by left. }
  unfold dependencyGraphRootID. rewrite Hf. simpl.
  destruct (insert_nodes_ok req (gr_ID r) nodes ∅ (clearDependencyGraph (gr_ID r) db)) as (ids & db1 & -> & Hids & R1 & B1 & S1); [done| |].
  { intros n _. rewrite <-!Forall_Exists_neg. simpl. split; apply Forall_forall; intros m [Hm _]%list_elem_of_filter; naive_solver. }
  simpl. destruct (insert_edges_ok (gr_ID r) ids es db1) as (db2 & -> & R2 & B2 & S2).
  { eapply Forall_impl; [exact Hes|]. intros e (Hp & Hc & Ht). auto. }
  simpl. eexists. split; [done|]. simpl. by rewrite R2, R1, B2, B1, S2, S1.
Qed.
End facts.

(** *** Merging the evidence about one artifact *)

(** All contexts agree on a known scope. *)
Definition agreed (scope : string) (cs : list DependencyContext) : Prop :=
  scope ≠ DependencyScopeUnknown ∧ Forall (λ c, Scope (context_Normalize c) = scope) cs.

Lemma merge_from_agreed scope cs types ids :
  agreed scope cs →
  merge_from scope cs types ids = context_Normalize (mkDependencyContext scope
    (types ++ (cs ≫= λ c, ctx_DependencyTypes (context_Normalize c)))
    (ids ++ (cs ≫= λ c, GraphIDs (context_Normalize c))) "").
Proof.
  intros [Hu H]. revert types ids. induction H as [|c cs Hc _ IH]; intros types ids; cbn [merge_from].
  - csimpl. by rewrite !app_nil_r.
  - rewrite decide_False by (rewrite Hc; tauto). rewrite IH. csimpl. by rewrite !app_assoc.
Qed.

Lemma merge_from_disagreed scope cs types ids :
  cs ≠ [] → ¬ agreed scope cs → merge_from scope cs types ids = NewUnknownDependencyContext.
Proof.
  intros Hne Ha. assert (scope = DependencyScopeUnknown ∨ ¬ Forall (λ c, Scope (context_Normalize c) = scope) cs) as H.
  { unfold agreed in Ha. destruct (decide (scope = DependencyScopeUnknown)); tauto. }
  clear Ha. revert types ids H Hne. induction cs as [|c cs IH]; intros types ids H Hne; [done|]. cbn [merge_from].
  case_decide as Hd; [done|].
  assert (Scope (context_Normalize c) = scope) as Hc by (apply dec_stable; tauto). apply IH.
  - destruct H as [->|H]; [by left|]. right. intros Hf. apply H. by constructor.
  - intros ->. destruct H as [->|H]; [tauto|]. apply H. by constructor.
Qed.

Lemma normalized_scope c : Scope (context_Normalize (context_Normalize c)) = Scope (context_Normalize c).
Proof.
  assert (∀ c, Scope (context_Normalize c) = if decide (Scope c = "") then DependencyScopeUnknown else Scope c) as H.
  { intros d. unfold context_Normalize. by case_decide. }
  rewrite (H (context_Normalize c)). case_decide as E; [|done]. rewrite H in E. by case_decide.
Qed.

(** The evidence stored about an artifact. *)
Definition evidence (t u : string) (a : ArtifactIdentity) (db : GraphDB) : list DependencyContext :=
  (λ s, context_Normalize (sr_Context s)) <$>
    filter (λ s, sr_TenantID s = t ∧ sr_UpstreamID s = u ∧ sr_Artifact s = a) (db_summaries db).

Lemma merge_agreed scope cs :
  cs ≠ [] → Forall (λ c, Scope (context_Normalize c) = Scope c) cs → agreed scope cs →
  mergeDependencyContexts cs = Some (context_Normalize (mkDependencyContext scope
    (cs ≫= λ c, ctx_DependencyTypes (context_Normalize c)) (cs ≫= λ c, GraphIDs (context_Normalize c)) "")).
Proof.
  intros Hne Hn Ha. destruct cs as [|c cs]; [done|]. unfold mergeDependencyContexts.
  assert (Scope c = scope) as ->. { destruct Ha as [_ Ha]. inversion Hn. inversion Ha. congruence. }
  by rewrite merge_from_agreed.
Qed.

Lemma merge_disagreed cs :
  cs ≠ [] → (∀ scope, ¬ agreed scope cs) →
  mergeDependencyContexts cs = Some NewUnknownDependencyContext.
Proof.
  intros Hne Ha. destruct cs as [|c cs]; [done|]. unfold mergeDependencyContexts.
  by rewrite merge_from_disagreed.
Qed.

Lemma evidence_normal t u a db : Forall (λ c, Scope (context_Normalize c) = Scope c) (evidence t u a db).
Proof. unfold evidence. apply Forall_fmap, Forall_true. intros s. apply normalized_scope. Qed.

Lemma evidence_perm t u a db db' :
  db_summaries db ≡ₚ db_summaries db' → evidence t u a db ≡ₚ evidence t u a db'.
Proof. intros H. unfold evidence. by rewrite H. Qed.

Lemma LookupContext_evidence t u a db :
  LookupContext t u a db =
    match mergeDependencyContexts (evidence t u a db) with
    | None => Err (sentinel_error ErrArtifactNotFound) | Some c => Ok c end.
Proof. done. Qed.

Lemma agreed_dec scope cs : agreed scope cs ∨ ¬ agreed scope cs.
Proof.
  unfold agreed. destruct (decide (scope = DependencyScopeUnknown)); [tauto|].
  destruct (decide (Forall (λ c, Scope (context_Normalize c) = scope) cs)); tauto.
Qed.

Lemma agreed_or_not cs : cs ≠ [] → (∃ scope, agreed scope cs) ∨ (∀ scope, ¬ agreed scope cs).
Proof.
  destruct cs as [|c cs]; [done|]. intros _. destruct (agreed_dec (Scope (context_Normalize c)) (c :: cs)); [eauto|].
  right. intros scope [Hu Hf]. inversion Hf; subst. apply H. done.
Qed.

Lemma merged_perm cs cs' :
  Forall (λ c, Scope (context_Normalize c) = Scope c) cs → cs ≡ₚ cs' →
  mergeDependencyContexts cs = mergeDependencyContexts cs'.
Proof.
  intros Hn Hp. destruct (decide (cs = [])) as [->|Hne]; [by apply Permutation_nil_l in Hp as ->|].
  assert (cs' ≠ []) as Hne' by (intros ->; by apply Permutation_nil_r in Hp).
  assert (Forall (λ c, Scope (context_Normalize c) = Scope c) cs') as Hn' by by rewrite <-Hp.
  destruct (agreed_or_not cs Hne) as [[scope Ha]|Ha].
  - assert (agreed scope cs') as Ha' by (unfold agreed in *; by rewrite <-Hp).
    rewrite (merge_agreed scope cs), (merge_agreed scope cs') by done. f_equal.
    apply context_Normalize_ext; [done..| |]; intros x _; simpl; [|rewrite !list_elem_of_fmap; split];
      by setoid_rewrite Hp || (intros (y & -> & Hy); exists y; split; [done|]; revert Hy; by setoid_rewrite Hp).
  - rewrite !merge_disagreed; [done..| |done|done]. intros scope [Hu Hf]. apply (Ha scope).
    split; [done|]. by rewrite Hp.
Qed.

(** ** Properties *)

(** What a context lookup answers.  Without evidence about the
    artifact, that it is not found; when all the evidence agrees on a known
    scope, that scope with the union of the dependency types and graphs; otherwise
    the unknown context.  The order in which the database returns the rows cannot
    be seen in the answer. *)
Theorem LookupContext_merges t u a db :
  let cs := evidence t u a db in
  (cs = [] → LookupContext t u a db = Err (sentinel_error ErrArtifactNotFound)) ∧
  (∀ scope, cs ≠ [] → agreed scope cs →
     LookupContext t u a db = Ok (context_Normalize (mkDependencyContext scope
       (cs ≫= λ c, ctx_DependencyTypes (context_Normalize c)) (cs ≫= λ c, GraphIDs (context_Normalize c)) ""))) ∧
  (cs ≠ [] → (∀ scope, ¬ agreed scope cs) → LookupContext t u a db = Ok NewUnknownDependencyContext) ∧
  (∀ db', db_summaries db' ≡ₚ db_summaries db → LookupContext t u a db' = LookupContext t u a db).
Proof.
  intros cs. rewrite LookupContext_evidence. fold cs. split; [by intros ->|]. split; [|split].
  - intros scope Hne Ha. by rewrite (merge_agreed scope) by (done || apply evidence_normal).
  - intros Hne Ha. by rewrite merge_disagreed.
  - intros db' Hp. rewrite LookupContext_evidence.
    by rewrite (merged_perm _ cs (evidence_normal _ _ _ _) (evidence_perm _ _ _ _ _ Hp)).
Qed.
