(* ===== verification/GraphWorker.v ===== *)
(** * The graph resolver

    [internal/core/service/dependency_graph_worker.go]: the worker processes that
    claim jobs, run npm and store the graph, as transitions of one system whose
    state is the shared tables and the jobs each worker is resolving.  Running npm
    in its scratch directory and decoding the lock file it writes is the parameter
    [npm]; a worker's goroutines are interleaved at the queue's transactions. *)

From S2P Require Import Prelude GoStrings GoPath Json Sha256 Artifact Dependency Upstream GraphDepth Lockfile GraphQueue.
#[local] Open Scope list_scope.

(** ** Definitions *)

(** Durations are nanoseconds. *)
Record DependencyGraphWorkerConfig : Type := mkWorkerConfig {
  Enabled : bool;
  wcfg_TenantID : string;
  PollInterval : Z;
  Timeout : Z;
  Concurrency : Z;
  RetryDelay : Z;
}.

Definition second : Z := 1000000000.

(** The defaults [Run] fills in before its loop. *)
Definition effective_config (c : DependencyGraphWorkerConfig) : DependencyGraphWorkerConfig :=
  let or_default v d := if decide (v ≤ 0) then d else v in
  let tenant := TrimSpace (wcfg_TenantID c) in
  mkWorkerConfig (Enabled c) (if decide (tenant = "") then "*" else tenant)
    (or_default (PollInterval c) (5 * second)) (or_default (Timeout c) (120 * second))
    (or_default (Concurrency c) 1) (or_default (RetryDelay c) (300 * second)).

(** The command line of the resolver. *)
Definition npm_args (job : ResolveRequest) : list string :=
  ["install"; "--package-lock-only"; "--ignore-scripts"; "--no-audit"; "--no-fund"; "--allow-git=none"] ++
  (let registry := TrimSpace (job_BaseURL job) in
   if decide (registry ≠ "") then ["--registry"; registry] else []) ++
  ["--"; FullName (job_Root job) +:+ "@" +:+ Version (job_Root job)].

Section worker.
Context (uuid : nat → string) (unique_violation check_violation : error).

Definition resolveNPMGraph (npm : list string → result lockPackages) (order : MapOrder) (job : ResolveRequest)
    : result (option (list DependencyGraphNode) * list DependencyGraphEdge * string) :=
  packages ← npm (npm_args job); ParsePackageLock order (job_Root job) packages.

(** The errors of the two queue calls are only logged. *)
Definition resolveJob (npm : list string → result lockPackages) (order : MapOrder)
    (cfg : DependencyGraphWorkerConfig) (now dbnow : time) (job : ResolveRequest) (db : GraphDB) : GraphDB :=
  match resolveNPMGraph npm order job with
  | Err e => (FailResolve job (error_msg e) (now + RetryDelay cfg) db).2
  | Ok (nodes, es, h) =>
      (CompleteResolve uuid unique_violation check_violation dbnow job (default [] nodes) es h db).2
  end.

(** The loop of [claimAvailableJobs], with [free] places left in the semaphore. *)
Fixpoint claimAvailableJobs (free : nat) (cfg : DependencyGraphWorkerConfig) (now dbnow : time) (db : GraphDB)
    : list ResolveRequest * GraphDB :=
  match free with
  | O => ([], db)
  | S free =>
      match ClaimNextResolveJob (wcfg_TenantID cfg) now dbnow db with
      | (Ok (Some job), db) =>
          let '(jobs, db) := claimAvailableJobs free cfg now dbnow db in (job :: jobs, db)
      | (_, db) => ([], db)
      end
  end.

(** What [Run]'s [select] can receive. *)
Inductive wake : Type := Tick | Notified | WatcherClosed.

(** *** The system *)

Record System : Type := mkSystem {
  sys_db : GraphDB;
  running : list (nat * ResolveRequest);
}.

Definition running_of (w : nat) (s : System) : list (nat * ResolveRequest) :=
  filter (λ j, j.1 = w) (running s).

Definition free_slots (cfg : DependencyGraphWorkerConfig) (w : nat) (s : System) : nat :=
  Z.to_nat (Concurrency cfg) - length (running_of w s).

(** One turn of worker [w]'s loop. *)
Definition on_wake (cfg : DependencyGraphWorkerConfig) (w : nat) (e : wake) (now dbnow : time)
    (s : System) : System :=
  match e with
  | WatcherClosed => s
  | Tick | Notified =>
      let '(jobs, db) := claimAvailableJobs (free_slots cfg w s) cfg now dbnow (sys_db s) in
      mkSystem db (running s ++ (pair w <$> jobs))
  end.

(** Requests enqueue roots, workers wake up and finish jobs, a crash loses one. *)
Inductive sys_step (cfg : nat → DependencyGraphWorkerConfig) : System → System → Prop :=
| sys_enqueue now req s :
    canonical_root (job_Root req) →
    sys_step cfg s (mkSystem (EnqueueResolve uuid now req (sys_db s)).2 (running s))
| sys_wake w e now dbnow s :
    sys_step cfg s (on_wake (effective_config (cfg w)) w e now dbnow s)
| sys_finish npm order w job js1 js2 now dbnow db :
    sys_step cfg (mkSystem db (js1 ++ (w, job) :: js2))
      (mkSystem (resolveJob npm order (effective_config (cfg w)) now dbnow job db) (js1 ++ js2))
| sys_crash j js1 js2 db :
    sys_step cfg (mkSystem db (js1 ++ j :: js2)) (mkSystem db (js1 ++ js2)).
End worker.

(** *** Specification: the life of a root *)

Definition status (k : string * string * string * string) (db : GraphDB) : option string :=
  gr_Status <$> head (filter (λ r, root_key r = k) (db_roots db)).

Inductive life : option string → option string → Prop :=
| life_new : life None (Some DependencyGraphPending)
| life_claim s : s = DependencyGraphPending ∨ s = DependencyGraphFailed →
    life (Some s) (Some DependencyGraphResolving)
| life_complete : life (Some DependencyGraphResolving) (Some DependencyGraphComplete)
| life_fail : life (Some DependencyGraphResolving) (Some DependencyGraphFailed).

(** ** Lemmas *)

Section facts.
Context (uuid : nat → string) (uuid_inj : ∀ i j, uuid i = uuid j → i = j).
Context (unique_violation check_violation : error).

Abbreviation finish_job := (resolveJob uuid unique_violation check_violation).
Abbreviation sys_step := (sys_step uuid unique_violation check_violation).
Abbreviation CompleteResolve := (CompleteResolve uuid unique_violation check_violation).

(** *** What npm's lock file gives is storable *)

Lemma parsed_storable order root packages nodes es h :
  ParsePackageLock order root packages = Ok (nodes, es, h) →
  NoDup (node_Artifact <$> default [] nodes) ∧
  Forall (λ e, ParentNodeID e ∈ node_key <$> default [] nodes ∧ ChildNodeID e ∈ node_key <$> default [] nodes ∧
    edge_DependencyType e ∈ edge_types) es.
Proof.
  intros (ns & -> & Hnd & _ & Hids & Hns & Hes & _)%parse_graph. simpl.
  assert (∀ n, n ∈ ns → node_ID n = CacheKey (node_Artifact n) ∧ node_key n = node_ID n) as Hkey.
  { intros n Hn. rewrite Forall_forall in Hns. destruct (Hns n Hn) as (E & _). split; [done|].
    unfold node_key. by case_decide. }
  split.
  - apply (NoDup_fmap_fmap node_ID); [|done]. intros x y Hx Hy E. destruct (Hkey x Hx) as [-> _], (Hkey y Hy) as [-> _].
    by rewrite E.
  - assert (∀ x, x ∈ node_ID <$> ns → x ∈ node_key <$> ns) as Hk.
    { intros x (n & -> & Hn)%list_elem_of_fmap. apply list_elem_of_fmap. exists n. split; [|done].
      symmetry. by apply Hkey. }
    apply Forall_forall. intros e He. destruct (Hes e He) as (p & c & t & ap & ac & Hd & Hp & Hc & ->). simpl.
    split; [apply Hk, Hids; eauto|]. split; [apply Hk, Hids; eauto|]. by eapply depends_type.
Qed.

(** *** The claim loop *)

Lemma claim_loop cfg now dbnow free db :
  wf uuid db → upstreams_known db → TrimSpace (wcfg_TenantID cfg) ≠ "" →
  let '(jobs, db') := claimAvailableJobs free cfg now dbnow db in
  job_key <$> jobs = take free (root_key <$> waiting now (wcfg_TenantID cfg) db) ∧
  waiting now (wcfg_TenantID cfg) db' = drop free (waiting now (wcfg_TenantID cfg) db) ∧
  wf uuid db' ∧ upstreams_known db'.
Proof.
  revert db. induction free as [|free IH]; intros db H Hu Ht; [done|]. cbn [claimAvailableJobs].
  pose proof (claim_waiting uuid (wcfg_TenantID cfg) now dbnow db H Hu Ht) as Hc.
  destruct (waiting now (wcfg_TenantID cfg) db) as [|r l] eqn:Ew.
  - rewrite Hc. done.
  - destruct Hc as (j & db' & E & Hj & Hdb). rewrite E.
    pose proof (ClaimNextResolveJob_wf uuid (wcfg_TenantID cfg) now dbnow db H) as H'. rewrite E in H'. simpl in H'.
    assert (upstreams_known db') as Hu' by (subst db'; by apply upstreams_known_update).
    specialize (IH db' H' Hu' Ht). destruct (claimAvailableJobs free cfg now dbnow db') as [js db''].
    assert (waiting now (wcfg_TenantID cfg) db' = l) as El.
    { subst db'. by eapply (waiting_claimed uuid). }
    rewrite El in IH. destruct IH as (Hk & Hw & ? & ?). csimpl. by rewrite Hj, Hk.
Qed.

(** What a batch of claims hands out: at most [free] distinct jobs that were idle
    and are busy afterwards; busy roots stay busy and are not among them. *)
Record handed_out (free : nat) (db : GraphDB) (jobs : list ResolveRequest) (db' : GraphDB) : Prop := {
  ho_wf : wf uuid db';
  ho_length : (length jobs ≤ free)%nat;
  ho_distinct : NoDup (job_key <$> jobs);
  ho_kept : ∀ k, busy k db → busy k db' ∧ k ∉ job_key <$> jobs;
  ho_busy : Forall (λ j, busy (job_key j) db') jobs;
}.

Lemma handed_out_nil free db db' :
  wf uuid db' → (∀ k, busy k db → busy k db') → handed_out free db [] db'.
Proof.
  intros H Hb. split; simpl; [done|lia|constructor| |constructor]. intros k Hk.
  split; [by apply Hb|apply not_elem_of_nil].
Qed.

Lemma claim_keeps tenant now dbnow db r db' :
  wf uuid db → ClaimNextResolveJob tenant now dbnow db = (r, db') →
  wf uuid db' ∧ ∀ k, busy k db → busy k db'.
Proof.
  intros H E. split.
  - pose proof (ClaimNextResolveJob_wf uuid tenant now dbnow db H) as H1. by rewrite E in H1.
  - intros k Hk. destruct (busy_step uuid unique_violation check_violation (OpClaim tenant now dbnow) k db H Hk)
      as [Hk' _]; [done|]. cbn [run_op] in Hk'. by rewrite E in Hk'.
Qed.

Lemma claim_loop_busy cfg now dbnow free db jobs db' :
  wf uuid db → claimAvailableJobs free cfg now dbnow db = (jobs, db') → handed_out free db jobs db'.
Proof.
  revert db jobs. induction free as [|free IH]; intros db jobs H E; cbn [claimAvailableJobs] in E.
  { injection E as <- <-. by apply handed_out_nil. }
  destruct (ClaimNextResolveJob _ _ _ db) as [r db1] eqn:Ec.
  destruct (claim_keeps _ _ _ _ _ _ H Ec) as [H1 Hm].
  destruct r as [[j|]|e]; [|injection E as <- <-; by apply handed_out_nil..].
  destruct (claimAvailableJobs free cfg now dbnow db1) as [js db2] eqn:E2. injection E as <- <-.
  destruct (IH db1 js H1 E2) as [H2 Hl Hnd Hb Hf].
  destruct (claim_busy uuid _ _ _ _ _ _ H Ec) as [Hj Hi]. destruct (Hb _ Hj) as [Hj2 Hnj].
  split; csimpl; [done|lia|by constructor| |by constructor].
  intros k Hk. destruct (Hb k (Hm k Hk)) as [? ?]. split; [done|]. rewrite elem_of_cons. intros [->|?]; auto.
Qed.

(** *** Finishing a job *)

Lemma resolveJob_wf npm order cfg now dbnow job db :
  wf uuid db → wf uuid (finish_job npm order cfg now dbnow job db).
Proof.
  intros H. unfold resolveJob.
  destruct (resolveNPMGraph npm order job) as [[[ns es] h]|e]; [by apply CompleteResolve_wf|by apply FailResolve_wf].
Qed.

Lemma resolveJob_busy npm order cfg now dbnow job db k :
  wf uuid db → busy k db → k ≠ job_key job → busy k (finish_job npm order cfg now dbnow job db).
Proof.
  intros H Hb Hk. unfold resolveJob.
  destruct (resolveNPMGraph npm order job) as [[[ns es] h]|e].
  - apply (busy_step uuid unique_violation check_violation (OpComplete dbnow job (default [] ns) es h) k db H Hb).
    simpl. congruence.
  - apply (busy_step uuid unique_violation check_violation (OpFail job (error_msg e) (now + RetryDelay cfg)) k db H Hb).
    simpl. congruence.
Qed.

(** *** The invariant of the system *)

Record sys_inv (cfg : nat → DependencyGraphWorkerConfig) (s : System) : Prop := {
  si_wf : wf uuid (sys_db s);
  si_distinct : NoDup (job_key ∘ snd <$> running s);
  si_busy : Forall (λ j, busy (job_key j.2) (sys_db s)) (running s);
  si_bound : ∀ w, (length (running_of w s) ≤ Z.to_nat (Concurrency (effective_config (cfg w))))%nat;
}.

Lemma sys_inv_less cfg db db' js1 j js2 :
  sys_inv cfg (mkSystem db (js1 ++ j :: js2)) → wf uuid db' →
  (∀ k, busy k db → k ≠ job_key j.2 → busy k db') → sys_inv cfg (mkSystem db' (js1 ++ js2)).
Proof.
  intros [H Hd Hb Hn] H' Hk. simpl in *.
  assert (js1 ++ j :: js2 ≡ₚ j :: (js1 ++ js2)) as Hp by by rewrite Permutation_middle.
  rewrite Hp in Hd, Hb. apply NoDup_cons in Hd as [Hj Hd]. apply Forall_cons in Hb as [_ Hb].
  split; simpl; [done|done| |].
  - rewrite Forall_forall in Hb |- *. intros x Hx. apply Hk; [by apply Hb|]. intros E. apply Hj.
    apply list_elem_of_fmap. by exists x.
  - intros w. specialize (Hn w). unfold running_of in *. simpl in *. rewrite Hp, filter_cons in Hn.
    case_decide; simpl in Hn; lia.
Qed.

Lemma running_of_new v w (jobs : list ResolveRequest) :
  length (filter (λ j : nat * ResolveRequest, j.1 = v) (pair w <$> jobs)) = if decide (v = w) then length jobs else 0%nat.
Proof.
  induction jobs as [|j jobs IH]; [by case_decide|]. rewrite fmap_cons, filter_cons. simpl.
  destruct (decide (w = v)) as [E|E]; cbn [length]; rewrite IH.
  - by rewrite !decide_True.
  - by rewrite !decide_False by auto.
Qed.

Lemma sys_wake_inv cfg w e now dbnow s :
  sys_inv cfg s → sys_inv cfg (on_wake (effective_config (cfg w)) w e now dbnow s).
Proof.
  intros Hs. unfold on_wake.
  assert (∀ E, E = on_wake (effective_config (cfg w)) w Tick now dbnow s → sys_inv cfg E) as Hgo; [|destruct e; auto].
  intros E ->. simpl. destruct Hs as [H Hd Hb Hn].
  destruct (claimAvailableJobs _ _ _ _ _) as [jobs db'] eqn:Ec. apply claim_loop_busy in Ec as [H' Hl Hnd Hk Hf]; [|done].
  split; cbn [sys_db running]; [done| | |].
  - rewrite fmap_app, <-list_fmap_compose. apply NoDup_app. split; [done|]. split; [|done].
    intros k (x & -> & Hx)%list_elem_of_fmap Hj. rewrite Forall_forall in Hb.
    by destruct (Hk (job_key x.2) (Hb x Hx)) as [_ []].
  - apply Forall_app. split; [|by apply Forall_fmap]. eapply Forall_impl; [exact Hb|]. intros x Hx. by apply Hk.
  - intros v. specialize (Hn v). unfold running_of, free_slots in *. cbn [running]. rewrite filter_app, length_app.
    rewrite running_of_new. case_decide as Hv; [subst v|]; unfold running_of in Hl; lia.
Qed.

Lemma sys_step_inv cfg s s' : sys_step cfg s s' → sys_inv cfg s → sys_inv cfg s'.
Proof.
  destruct 1 as [now req s Hc|w e now dbnow s|npm order w job js1 js2 now dbnow db|j js1 js2 db]; intros Hs.
  - destruct Hs as [H Hd Hb Hn]. split; simpl; [by apply EnqueueResolve_wf|done| |done].
    eapply Forall_impl; [exact Hb|]. intros x Hx.
    by apply (busy_step uuid unique_violation check_violation (OpEnqueue now req) _ _ H Hx).
  - by apply sys_wake_inv.
  - eapply sys_inv_less; [exact Hs|by apply resolveJob_wf, Hs|]. intros k Hk Hne.
    apply resolveJob_busy; [apply Hs|done|done].
  - eapply sys_inv_less; [exact Hs|apply Hs|auto].
Qed.

Lemma sys_inv_reachable cfg s s' : sys_inv cfg s → rtc (sys_step cfg) s s' → sys_inv cfg s'.
Proof. intros Hs Hr. induction Hr as [|s s1 s' Hstep _ IH]; [done|]. apply IH. by eapply sys_step_inv. Qed.

Lemma sys_inv_idle cfg db : wf uuid db → sys_inv cfg (mkSystem db []).
Proof. intros H. split; simpl; [done|constructor|constructor|intros w; simpl; lia]. Qed.

(** *** The status of a root *)

Lemma filter_complement {A} (P : A → Prop) `{∀ x, Decision (P x)} (l : list A) :
  filter P (filter (λ x, ¬ P x) l) = [].
Proof.
  induction l as [|x l IH]; [done|]. rewrite (filter_cons (λ x, ¬ P x)). case_decide; [|done].
  by rewrite filter_cons_False.
Qed.

Lemma status_spec db k x : wf uuid db →
  status k db = Some x ↔ ∃ r, r ∈ db_roots db ∧ root_key r = k ∧ gr_Status r = x.
Proof.
  intros H. unfold status.
  assert (∀ r, r ∈ filter (λ r, root_key r = k) (db_roots db) ↔ root_key r = k ∧ r ∈ db_roots db) as Hin.
  { intros r. by rewrite list_elem_of_filter. }
  destruct (filter _ _) as [|r l]; simpl.
  - split; [done|]. intros (r & Hr & Hk & _). exfalso. eapply elem_of_nil, Hin; eauto.
  - destruct (proj1 (Hin r)) as [Hk Hr]; [by left|]. split; [intros [= <-]; eauto|].
    intros (r' & Hr' & Hk' & <-). assert (r = r') as ->; [|done]. eapply wf_key_inj; [done..|congruence].
Qed.

Lemma status_roots db db' k : db_roots db' = db_roots db → status k db' = status k db.
Proof. intros E. unfold status. by rewrite E. Qed.

Lemma status_update db r f k :
  wf uuid db → r ∈ db_roots db → (∀ x, root_key (f x) = root_key x) →
  wf uuid (update_roots (λ x, gr_ID x = gr_ID r) f db) →
  status k (update_roots (λ x, gr_ID x = gr_ID r) f db) =
    if decide (root_key r = k) then Some (gr_Status (f r)) else status k db.
Proof.
  intros H Hr Hf H'. case_decide as Ek.
  - apply status_spec; [done|]. exists (f r). split; [|by rewrite Hf].
    simpl. apply list_elem_of_fmap. exists r. by rewrite decide_True.
  - apply option_eq. intros x. rewrite !status_spec by done. split.
    + intros (y & (z & -> & Hz)%list_elem_of_fmap & Hy & <-). exists z. split; [done|].
      case_decide as E; [|done]. assert (z = r) as -> by exact (wf_id_inj uuid db z r H Hz Hr E). by rewrite Hf in Hy.
    + intros (z & Hz & Hk & Hs). exists z. split; [|done]. simpl. apply list_elem_of_fmap. exists z.
      split; [|done]. rewrite decide_False; [done|]. intros E. assert (z = r) as -> by exact (wf_id_inj uuid db z r H Hz Hr E). done.
Qed.

Lemma update_by_key db r f :
  wf uuid db → r ∈ db_roots db →
  update_roots (λ x, root_key x = root_key r) f db = update_roots (λ x, gr_ID x = gr_ID r) f db.
Proof.
  intros H Hr. unfold update_roots. f_equal. apply list_fmap_ext. intros i x Hx%list_elem_of_lookup_2.
  repeat case_decide; try done; exfalso.
  - assert (x = r) as -> by (by eapply wf_key_inj). done.
  - assert (x = r) as -> by (by eapply wf_id_inj). done.
Qed.

Lemma claim_life tenant now dbnow db res db' k :
  wf uuid db → ClaimNextResolveJob tenant now dbnow db = (res, db') → rtc life (status k db) (status k db').
Proof.
  intros H. unfold ClaimNextResolveJob. case_decide; [by intros [= _ <-]|].
  destruct (sort_by _ _) as [|r l] eqn:Es; [by intros [= _ <-]|]. destruct (_ !! _); [|by intros [= _ <-]].
  assert (claimable now (TrimSpace tenant) r ∧ r ∈ db_roots db) as [[Hc _] Hr].
  { rewrite <-list_elem_of_filter, <-(sort_by_elem earlier), Es. by left. }
  intros E. assert (db' = update_roots (λ x, gr_ID x = gr_ID r) (resolving dbnow) db) as ->
    by by destruct (NormalizeArtifactIdentity _); injection E.
  rewrite status_update; [|done..|by apply update_wf; eauto]. case_decide as Ek; [|done].
  assert (status k db = Some (gr_Status r)) as -> by (apply status_spec; eauto). by apply rtc_once, life_claim.
Qed.

Lemma claim_loop_life cfg now dbnow free db k :
  wf uuid db → rtc life (status k db) (status k (claimAvailableJobs free cfg now dbnow db).2).
Proof.
  revert db. induction free as [|free IH]; intros db H; cbn [claimAvailableJobs]; [done|].
  destruct (ClaimNextResolveJob _ _ _ db) as [res db1] eqn:Ec. pose proof (claim_life _ _ _ _ _ _ k H Ec) as Hl.
  destruct (claim_keeps _ _ _ _ _ _ H Ec) as [H1 _]. specialize (IH db1 H1).
  destruct res as [[j|]|]; [|done..]. destruct (claimAvailableJobs free cfg now dbnow db1). by etrans.
Qed.

(** The two ways a job ends, and where they leave its root. *)
Lemma resolveJob_roots npm order cfg now dbnow job db :
  wf uuid db → busy (job_key job) db → ∃ r, r ∈ db_roots db ∧ root_key r = job_key job ∧
  db_roots (finish_job npm order cfg now dbnow job db) = db_roots (update_roots (λ x, gr_ID x = gr_ID r)
    (match resolveNPMGraph npm order job with
     | Ok (_, _, h) => completed dbnow h | Err e => failed (error_msg e) (now + RetryDelay cfg) end) db) ∧
  match resolveNPMGraph npm order job with
  | Ok (ns, _, _) => db_summaries (finish_job npm order cfg now dbnow job db) =
      filter (λ s, sr_Root s ≠ gr_ID r) (db_summaries db) ++ (summary_of job (gr_ID r) <$> default [] ns)
  | Err _ => db_summaries (finish_job npm order cfg now dbnow job db) = db_summaries db
  end.
Proof.
  intros H (r & Hr & Hk & _). exists r. split; [done|]. split; [done|]. unfold resolveJob.
  destruct (resolveNPMGraph npm order job) as [[[ns es] h]|e] eqn:E.
  - unfold resolveNPMGraph in E. apply result_bind_ok in E as (packages & _ & E).
    destruct (parsed_storable _ _ _ _ _ _ E) as [Hnd Hes].
    destruct (CompleteResolve_ok uuid unique_violation check_violation dbnow job (default [] ns) es h db r H Hr Hk Hnd Hes)
      as (db' & -> & R & _ & S). done.
  - unfold FailResolve. cbn [snd]. rewrite <-Hk, (update_by_key _ _ _ H Hr). done.
Qed.

Lemma finish_life npm order cfg now dbnow job db k :
  wf uuid db → busy (job_key job) db →
  rtc life (status k db) (status k (finish_job npm order cfg now dbnow job db)).
Proof.
  intros H Hb. destruct (resolveJob_roots npm order cfg now dbnow job db H Hb) as (r & Hr & Hk & R & _).
  rewrite (status_roots _ _ _ R). destruct Hb as (r' & Hr' & Hk' & Hs).
  assert (r' = r) as -> by (eapply wf_key_inj; [done..|congruence]).
  assert (status (root_key r) db = Some DependencyGraphResolving) as Hst by (apply status_spec; eauto).
  destruct (resolveNPMGraph npm order job) as [[[ns es] h]|e]; (rewrite status_update; [|done..|by apply update_wf; eauto 7]);
    (case_decide as E; [subst k; rewrite Hst|done]); apply rtc_once; constructor.
Qed.

Lemma sys_step_life cfg s s' k :
  sys_inv cfg s → sys_step cfg s s' → rtc life (status k (sys_db s)) (status k (sys_db s')).
Proof.
  intros Hs. destruct 1 as [now req s Hc|w e now dbnow s|npm order w job js1 js2 now dbnow db|j js1 js2 db]; simpl; [| | |done].
  - unfold EnqueueResolve. do 2 (case_decide; [done|]). simpl. unfold status. simpl. rewrite filter_app, head_app.
    destruct (filter _ (db_roots _)) as [|r l] eqn:E; [|done]. simpl. rewrite filter_cons. case_decide; [|done].
    apply rtc_once, life_new.
  - unfold on_wake. destruct e; [..|done].
    all: pose proof (claim_loop_life (effective_config (cfg w)) now dbnow (free_slots (effective_config (cfg w)) w s)
      (sys_db s) k (si_wf _ _ Hs)) as Hl; by destruct (claimAvailableJobs _ _ _ _ _).
  - apply finish_life; [apply Hs|]. pose proof (si_busy _ _ Hs) as Hb. simpl in Hb. apply Forall_app in Hb as [_ Hb].
    by apply Forall_cons in Hb as [Hb _].
Qed.
End facts.

(** ** Properties *)




(** Claiming drains the queue in order: a wake-up claims the first waiting
    roots, as many as there are free places, and leaves exactly the others
    waiting. *)
Theorem claimAvailableJobs_drains uuid cfg now dbnow free db :
  wf uuid db → upstreams_known db → TrimSpace (wcfg_TenantID cfg) ≠ "" →
  let '(jobs, db') := claimAvailableJobs free cfg now dbnow db in
  job_key <$> jobs = take free (root_key <$> waiting now (wcfg_TenantID cfg) db) ∧
  waiting now (wcfg_TenantID cfg) db' = drop free (waiting now (wcfg_TenantID cfg) db).
Proof.
  intros H Hu Ht. pose proof (claim_loop uuid cfg now dbnow free db H Hu Ht) as Hc.
  destruct (claimAvailableJobs free cfg now dbnow db). tauto.
Qed.

(** ** Examples and witnesses *)

Definition sample_uuid (n : nat) : string := "row-" +:+ itoa (Z.of_nat n).

Lemma sample_uuid_inj i j : sample_uuid i = sample_uuid j → i = j.
Proof. intros H%sapp_inj_l%itoa_inj. lia. Qed.

Definition empty_db : GraphDB := mkGraphDB [] [] [] [] {["up" := "https://registry.example"]} 0.

Lemma empty_db_wf : wf sample_uuid empty_db.
Proof. split; constructor. Qed.

Definition sample_cfg : DependencyGraphWorkerConfig := mkWorkerConfig true " " 0 0 0 0.

Definition app_job (requested : time) : ResolveRequest :=
  mkResolveJob "t1" "up" "https://registry.example" sample_root requested.

Lemma sample_root_canonical : canonical_root sample_root.
Proof. by exists (mkArtifact EcosystemNPM "" "App" "0.0.1" ""). Qed.

Definition db_error : error := new_error "constraint violation".
Abbreviation sample_step := (sys_step sample_uuid db_error db_error (λ _, sample_cfg)).
Definition sample_npm (args : list string) : result lockPackages :=
  if decide (args = npm_args (app_job 7)) then Ok sample_lock else Err (new_error "npm failed").

(** The tables after one request, and after a worker has claimed its job. *)
Definition queued_db : GraphDB := (EnqueueResolve sample_uuid 5 (app_job 5) empty_db).2.
Definition claimed_sys : System := on_wake (effective_config sample_cfg) 0 Tick 7 8 (mkSystem queued_db []).
Definition finished_sys : System :=
  mkSystem (resolveJob sample_uuid db_error db_error sample_npm default_order (effective_config sample_cfg) 9 10
    (app_job 7) (sys_db claimed_sys)) [].

Example claimed_sys_running : running claimed_sys = [(0%nat, app_job 7)].
Proof. vm_compute. reflexivity. Qed.

Lemma claimed_reachable : rtc sample_step (mkSystem empty_db []) claimed_sys.
Proof.
  eapply rtc_l; [exact (sys_enqueue _ _ _ _ 5 (app_job 5) (mkSystem empty_db []) sample_root_canonical)|].
  apply rtc_once. exact (sys_wake _ _ _ _ 0 Tick 7 8 (mkSystem queued_db [])).
Qed.


Lemma finishing_step : sample_step claimed_sys finished_sys.
Proof.
  pose proof (sys_finish sample_uuid db_error db_error (λ _, sample_cfg) sample_npm default_order 0 (app_job 7) [] []
    9 10 (sys_db claimed_sys)) as H. exact H.
Qed.


Lemma claimed_wf : wf sample_uuid (sys_db claimed_sys).
Proof.
  apply (sys_inv_reachable sample_uuid sample_uuid_inj db_error db_error (λ _, sample_cfg) (mkSystem empty_db []));
    [apply sys_inv_idle, empty_db_wf|apply claimed_reachable].
Qed.

Lemma claimed_busy : busy (job_key (app_job 7)) (sys_db claimed_sys).
Proof. eexists. split; [by left|done]. Qed.


Lemma claimAvailableJobs_drains_witness :
  let '(jobs, db') := claimAvailableJobs 1 (effective_config sample_cfg) 7 8 queued_db in
  job_key <$> jobs = take 1 (root_key <$> waiting 7 "*" queued_db) ∧ waiting 7 "*" db' = drop 1 (waiting 7 "*" queued_db).
Proof.
  apply (claimAvailableJobs_drains sample_uuid (effective_config sample_cfg) 7 8 1 queued_db).
  - exact (EnqueueResolve_wf sample_uuid sample_uuid_inj 5 (app_job 5) empty_db sample_root_canonical empty_db_wf).
  - repeat constructor. by eexists.
  - vm_compute. discriminate.
Defined.

(** Direct dependencies are stored as transitive: the packages the root of
    the sample lock file depends on have depth 1 in its graph, which the design
    calls direct, and the context stored for them says transitive; only the root
    itself is direct. *)
Theorem direct_dependencies_are_transitive :
  let scope a := match LookupContext "t1" "up" a (sys_db finished_sys) with Ok c => Some (Scope c) | Err _ => None end in
  (∃ ns es h, resolveNPMGraph sample_npm default_order (app_job 7) = Ok (Some ns, es, h) ∧
     (mkNode "npm:a:1.0.0" "" (mkArtifact EcosystemNPM "" "a" "1.0.0" "") 1 ["prod"]) ∈ ns) ∧
  scope (mkArtifact EcosystemNPM "" "a" "1.0.0" "") = Some DependencyScopeTransitive ∧
  scope sample_root = Some DependencyScopeDirect.
Proof.
  split; [|vm_compute; done].
  destruct (resolveNPMGraph sample_npm default_order (app_job 7)) as [[[[ns|] es] h]|e] eqn:E; vm_compute in E; try discriminate E.
  injection E as <- _ _. do 3 eexists. split; [done|]. by do 1 right; left.
Qed.
