(* ===== verification/AdminTables.v ===== *)
(** * The tables behind the control plane

    The PostgreSQL tables of [internal/infra/postgres] (policy*.go, upstream.go)
    with the constraints of [migrations]: tenants, upstreams, policies with their
    versions, tenant revisions, and the evaluation records that refer to
    policies.  A statement is a function on the tables that may be stopped by a
    constraint; a repository method is one transaction, which leaves the tables
    alone when it fails.  Primary and unique keys of generated rows are map keys.

    JSON columns are kept decoded ([stored_config] also covers texts of earlier
    releases, which no longer decode).  Every statement reaches the database;
    identifiers are well-formed UUIDs.  [gen_random_uuid()], the texts of
    constraint violations, and the order of rows an [ORDER BY] leaves open belong
    to the database: the first two are parameters, the last follows the map. *)

From S2P Require Import Prelude GoStrings Artifact Dependency Upstream PolicyConfig Policy.
#[local] Open Scope list_scope.

(** ** Definitions *)

(** What [DecodeStoredConfigJSON] makes of a config column: what was written, or
    the error for a text it does not accept. *)
Definition stored_config : Type := result (option PolicyConfig).

(** The columns [policies] and [policy_versions] share. *)
Record PolicyBody : Type := mkPolicyBody {
  bd_UpstreamID : option string;
  bd_Name : string;
  bd_Type : PolicyType;
  bd_Action : PolicyAction;
  bd_SchemaVersion : Z;
  bd_Config : stored_config;
  bd_Target : option PolicyTarget;
  bd_Priority : Z;
  bd_Enabled : bool;
}.

Record PolicyRow : Type := mkPolicyRow {
  pr_TenantID : string;
  pr_Body : PolicyBody;
  pr_Version : Z;
  pr_CreatedAt : time;
  pr_UpdatedAt : time;
}.

Record VersionRow : Type := mkVersionRow { vr_Body : PolicyBody; vr_CreatedAt : time }.

Record UpstreamRow : Type := mkUpstreamRow {
  us_TenantID : string;
  us_Name : string;
  us_Ecosystem : EcosystemType;
  us_BaseURL : string;
  us_Capabilities : list string;
  us_AuthType : string;
  us_AuthUsername : option string;
  us_AuthSecret : option string;
  us_AuthUpdatedAt : option time;
  us_CreatedAt : time;
  us_UpdatedAt : time;
}.

Record RevisionRow : Type := mkRevisionRow { rv_TenantID : string; rv_Generation : Z; rv_PolicyHash : string }.

(** [evaluations] and [decisions]: tenant and policy; [evaluation_reasons]:
    evaluation and policy. *)
Record AdminDB : Type := mkAdminDB {
  tenants : gset string;
  upstreams : gmap string UpstreamRow;
  policies : gmap string PolicyRow;
  versions : gmap (string * Z) VersionRow;
  evaluations : gmap string (string * option string);
  decisions : gmap string (string * option string);
  evaluation_reasons : gmap string (string * option string);
  revisions : list RevisionRow;
  db_serial : nat;
  db_now : time;
}.

(** [pgconn.PgError] *)
Record PgError : Type := mkPgError { pg_Code : string; pg_ConstraintName : string }.

Definition unique_violation : string := "23505".
Definition foreign_key_violation : string := "23503".

Definition set_upstreams (m : gmap string UpstreamRow) (db : AdminDB) : AdminDB :=
  mkAdminDB (tenants db) m (policies db) (versions db) (evaluations db) (decisions db)
    (evaluation_reasons db) (revisions db) (db_serial db) (db_now db).
Definition set_policies (p : gmap string PolicyRow) (v : gmap (string * Z) VersionRow) (db : AdminDB) : AdminDB :=
  mkAdminDB (tenants db) (upstreams db) p v (evaluations db) (decisions db)
    (evaluation_reasons db) (revisions db) (db_serial db) (db_now db).
Definition set_references (e d r : gmap string (string * option string)) (db : AdminDB) : AdminDB :=
  mkAdminDB (tenants db) (upstreams db) (policies db) (versions db) e d r (revisions db) (db_serial db) (db_now db).
Definition set_revisions (l : list RevisionRow) (db : AdminDB) : AdminDB :=
  mkAdminDB (tenants db) (upstreams db) (policies db) (versions db) (evaluations db) (decisions db)
    (evaluation_reasons db) l (db_serial db) (db_now db).
Definition next_serial (db : AdminDB) : AdminDB :=
  mkAdminDB (tenants db) (upstreams db) (policies db) (versions db) (evaluations db) (decisions db)
    (evaluation_reasons db) (revisions db) (S (db_serial db)) (db_now db).

(** [errors.go]: the domain error of a unique constraint; [None] leaves the error
    as it is. *)
Definition mapConstraintError (e : PgError) (constraints : gmap string sentinel) : option sentinel :=
  if decide (pg_Code e = unique_violation) then constraints !! pg_ConstraintName e else None.

Definition nullableString (value : string) : option string :=
  if decide (value = "") then None else Some value.

(** *** Constraints *)

(** What stops a row of [policies]: the unique name, then the foreign keys. *)
Definition name_taken (db : AdminDB) (id tenant name : string) : Prop :=
  map_Exists (λ i r, i ≠ id ∧ pr_TenantID r = tenant ∧ bd_Name (pr_Body r) = name) (policies db).
#[export] Instance name_taken_dec db id tenant name : base.Decision (name_taken db id tenant name).
Proof. unfold name_taken. apply _. Defined.

Definition missing_upstream (db : AdminDB) (u : option string) : Prop :=
  match u with Some u => upstreams db !! u = None | None => False end.
#[export] Instance missing_upstream_dec db u : base.Decision (missing_upstream db u).
Proof. unfold missing_upstream. destruct u; apply _. Defined.

Definition policy_constraint (db : AdminDB) (id tenant : string) (b : PolicyBody) : option PgError :=
  if decide (name_taken db id tenant (bd_Name b)) then
    Some (mkPgError unique_violation "policies_tenant_id_name_key")
  else if decide (tenant ∉ tenants db) then
    Some (mkPgError foreign_key_violation "policies_tenant_id_fkey")
  else if decide (missing_upstream db (bd_UpstreamID b)) then
    Some (mkPgError foreign_key_violation "fk_policies_upstream_id")
  else None.

(** Whether a row of the evaluation tables refers to the policy. *)
Definition refers (id : string) (m : gmap string (string * option string)) : Prop :=
  map_Exists (λ _ r, r.2 = Some id) m.
#[export] Instance refers_dec id m : base.Decision (refers id m).
Proof. unfold refers. apply _. Defined.

Definition policy_referenced (db : AdminDB) (id : string) : option PgError :=
  if decide (refers id (evaluations db)) then
    Some (mkPgError foreign_key_violation "evaluations_policy_id_fkey")
  else if decide (refers id (evaluation_reasons db)) then
    Some (mkPgError foreign_key_violation "evaluation_reasons_policy_id_fkey")
  else if decide (refers id (decisions db)) then
    Some (mkPgError foreign_key_violation "decisions_policy_id_fkey")
  else None.

(** What keeps an upstream: a policy, or a version of one, that is scoped to it. *)
Definition upstream_referenced (db : AdminDB) (id : string) : option PgError :=
  if decide (map_Exists (λ _ r, bd_UpstreamID (pr_Body r) = Some id) (policies db)) then
    Some (mkPgError foreign_key_violation "fk_policies_upstream_id")
  else if decide (map_Exists (λ _ r, bd_UpstreamID (vr_Body r) = Some id) (versions db)) then
    Some (mkPgError foreign_key_violation "fk_policy_versions_upstream_id")
  else None.

(** What stops a row of [upstreams]. *)
Definition upstream_constraint (db : AdminDB) (id : string) (r : UpstreamRow) : option PgError :=
  if decide (map_Exists (λ i r', i ≠ id ∧ us_TenantID r' = us_TenantID r ∧ us_Name r' = us_Name r) (upstreams db)) then
    Some (mkPgError unique_violation "upstreams_tenant_id_name_key")
  else if decide (map_Exists (λ i r', i ≠ id ∧ us_TenantID r' = us_TenantID r ∧
      us_Ecosystem r' = us_Ecosystem r ∧ us_BaseURL r' = us_BaseURL r) (upstreams db)) then
    Some (mkPgError unique_violation "uq_upstreams_tenant_ecosystem_base_url")
  else if decide (us_TenantID r ∉ tenants db) then
    Some (mkPgError foreign_key_violation "upstreams_tenant_id_fkey")
  else None.

(** [ON DELETE CASCADE] of [policy_versions]. *)
Definition without_policy (id : string) (db : AdminDB) : AdminDB :=
  set_policies (delete id (policies db)) (filter (λ kv, kv.1.1 ≠ id) (versions db)) db.
