(* ===== verification/PgValues.v ===== *)
(** * Values, patterns and pages in PostgreSQL

    What the statements of [internal/infra/postgres] that store decisions and audit
    events use of the database: the texts and JSON values a column takes, [ILIKE]
    with the search patterns the repositories build, and [LIMIT]/[OFFSET].  A [_]
    of a pattern stands for one character, here one byte. *)

From S2P Require Import Prelude GoStrings Json JsonDecode JsonParse AdminTables.
#[local] Open Scope list_scope.

(** ** Definitions *)

(** [text]: well-formed UTF-8 without the zero byte. *)
Fixpoint nul_free (s : string) : bool :=
  match s with "" => true | String c s => negb (is_char 0 c) && nul_free s end.
Definition text_ok (s : string) : bool := utf8_ok s && nul_free s.

Definition invalid_text : PgError := mkPgError "22021" "".
Definition invalid_json_text : PgError := mkPgError "22P05" "".
Definition invalid_uuid_text : PgError := mkPgError "22P02" "".
Definition invalid_limit : PgError := mkPgError "2201W" "".
Definition invalid_offset : PgError := mkPgError "2201X" "".

(** The first check that stops a statement. *)
Fixpoint first_violation (checks : list (option PgError)) : option PgError :=
  match checks with
  | [] => None
  | Some e :: _ => Some e
  | None :: checks => first_violation checks
  end.

Definition text_params (l : list string) : option PgError :=
  if forallb text_ok l then None else Some invalid_text.

(** [jsonb]: a document none of whose strings holds the zero byte. *)
Fixpoint json_nul_free (j : json) : bool :=
  match j with
  | JString s => nul_free s
  | JArray l => forallb json_nul_free l
  | JObject kvs => forallb (λ kv, nul_free kv.1 && json_nul_free kv.2) kvs
  | _ => true
  end.

Definition jsonb_input (text : string) : PgError + json :=
  match Parse text with
  | Some v => if json_nul_free v then inr v else inl invalid_json_text
  | None => inl invalid_uuid_text
  end.

(** [LIKE]: [%] for any text, [_] for one character, a backslash before a
    character that stands for itself. *)
Fixpoint like (p s : string) : bool :=
  match p with
  | "" => bool_decide (s = "")
  | String c p' =>
      if is_char 37 c then
        (fix any s := like p' s || match s with "" => false | String _ s => any s end) s
      else if is_char 95 c then match s with "" => false | String _ s => like p' s end
      else if is_char 92 c then
        match p' with
        | "" => false
        | String c' p'' => match s with "" => false | String d s => bool_decide (c' = d) && like p'' s end
        end
      else match s with "" => false | String d s => bool_decide (c = d) && like p' s end
  end.

Definition ilike (s p : string) : bool := like (ToLower p) (ToLower s).

(** ['%' || $n || '%'] *)
Definition containing (search : string) : string := "%" +:+ search +:+ "%".

(** [LIMIT l OFFSET o] *)
Definition pg_page {A} (limit offset : Z) (l : list A) : PgError + list A :=
  if limit <? 0 then inl invalid_limit
  else if offset <? 0 then inl invalid_offset
  else inr (take (Z.to_nat limit) (drop (Z.to_nat offset) l)).

Example ilike_ex :
  ilike "@Scope/Left-Pad" (containing "left") = true ∧ ilike "left-pad" (containing "leftpad") = false ∧
  ilike "left-pad" (containing "left_pad") = true ∧ ilike "left-pad" (containing "l%d") = true ∧
  ilike "left-pad" (containing ("left" +:+ backslash +:+ "_pad")) = false.
Proof. vm_compute. repeat split. Qed.

(** ** Lemmas *)

Lemma first_violation_None checks : first_violation checks = None ↔ Forall (λ c, c = None) checks.
Proof.
  induction checks as [|[e|] checks IH]; simpl; [by split|split; [done|by inversion 1]|]. rewrite Forall_cons, IH. naive_solver.
Qed.

(** A boolean that holds of a concrete list. *)
Lemma Forall_by_bool {A} (f : A → bool) l : forallb f l = true → Forall (λ x, f x = true) l.
Proof. rewrite forallb_forall, Forall_forall. intros H x Hx. apply H. by apply list_elem_of_In. Qed.

Lemma text_params_None l : text_params l = None ↔ Forall (λ s, text_ok s = true) l.
Proof.
  unfold text_params. induction l as [|s l IH]; simpl; [by split|].
  rewrite Forall_cons, <-IH. destruct (text_ok s); simpl; [destruct (forallb text_ok l)|]; naive_solver.
Qed.

Lemma nul_free_app a b : nul_free (a +:+ b) = nul_free a && nul_free b.
Proof. induction a as [|c a IH]; [done|]. rewrite sapp_cons. simpl. by rewrite IH, andb_assoc. Qed.

(** The characters with a meaning in a pattern. *)
Definition wildcard (c : ascii) : bool := is_char 37 c || is_char 95 c || is_char 92 c.

Lemma like_any p s : like (String "%" p) s = true ↔ ∃ a b, s = a +:+ b ∧ like p b = true.
Proof.
  induction s as [|c s IH].
  - change (like p "" || false = true ↔ ∃ a b, "" = a +:+ b ∧ like p b = true). rewrite orb_false_r. split.
    + intros H. by exists "", "".
    + intros (a & b & E & H). destruct a; [|done]. by destruct b.
  - change (like p (String c s) || like (String "%" p) s = true ↔ ∃ a b, String c s = a +:+ b ∧ like p b = true).
    rewrite orb_true_iff, IH. split.
    + intros [H|(a & b & -> & H)]; [by exists "", (String c s)|by exists (String c a), b].
    + intros (a & b & E & H). destruct a as [|d a]; [left; change (String c s = b) in E; by subst b|].
      rewrite sapp_cons in E. injection E as <- ->. right. by exists a, b.
Qed.

Lemma like_plain q p s : free_of wildcard q →
  like (q +:+ p) s = true ↔ ∃ b, s = q +:+ b ∧ like p b = true.
Proof.
  revert s. induction q as [|c q IH]; intros s Hq.
  { change ("" +:+ p) with p. split; [intros H; by exists s|by intros (b & -> & H)]. }
  rewrite sapp_cons. destruct Hq as [Hc Hq]. unfold wildcard in Hc.
  apply orb_false_iff in Hc as [[H1 H2]%orb_false_iff H3].
  cbn [like]. rewrite H1, H2, H3. destruct s as [|d s].
  { split; [done|]. by intros (b & E & _). }
  rewrite andb_true_iff, bool_decide_eq_true, IH by done. split.
  - intros [<- (b & -> & H)]. by exists b.
  - intros (b & E & H). rewrite sapp_cons in E. injection E as -> ->. split; [done|]. by exists b.
Qed.

Lemma wildcard_lower c : wildcard c = false → wildcard (lower_ascii c) = false.
Proof. destruct c as [[] [] [] [] [] [] [] []]; by vm_compute. Qed.

Lemma ToLower_wildcards q : free_of wildcard q → free_of wildcard (ToLower q).
Proof. apply free_of_map, wildcard_lower. Qed.

(** A search without wildcards matches the texts it occurs in, in either case. *)
Lemma ilike_containing s q : free_of wildcard q →
  ilike s (containing q) = true ↔ ∃ a b, ToLower s = a +:+ ToLower q +:+ b.
Proof.
  intros Hq. unfold ilike, containing, ToLower at 1. rewrite !string_map_app.
  change (string_map lower_ascii "%") with (String "%" ""). rewrite sapp_cons. change ("" +:+ ?x) with x.
  rewrite like_any. apply ToLower_wildcards in Hq. split.
  - intros (a & b & E & H). apply like_plain in H as (c & -> & _); [|done]. by exists a, c.
  - intros (a & b & E). exists a, (ToLower q +:+ b). split; [done|]. apply like_plain; [done|].
    exists b. split; [done|]. apply like_any. exists b, "". by rewrite sapp_nil_r.
Qed.

Lemma pg_page_ok {A} limit offset (l l' : list A) :
  pg_page limit offset l = inr l' ↔ 0 ≤ limit ∧ 0 ≤ offset ∧ l' = take (Z.to_nat limit) (drop (Z.to_nat offset) l).
Proof.
  unfold pg_page. destruct (limit <? 0) eqn:E1; [split; [done|lia]|].
  destruct (offset <? 0) eqn:E2; [split; [done|lia]|]. apply Z.ltb_ge in E1, E2. naive_solver.
Qed.

(** *** ORDER BY ... DESC of rows that are already in strict order *)

Lemma StronglySorted_filter {A} (R : relation A) (P : A → Prop) `{∀ x, base.Decision (P x)} l :
  StronglySorted R l → StronglySorted R (filter P l).
Proof.
  induction 1 as [|x l _ IH Hx]; [constructor|]. rewrite filter_cons. case_decide; [|done]. constructor; [done|].
  rewrite Forall_forall in Hx |- *. intros y [_ Hy]%list_elem_of_filter. by apply Hx.
Qed.

Lemma insert_by_last {A} (less : A → A → bool) x l :
  Forall (λ y, less y x = true) l → insert_by less x l = l ++ [x].
Proof. induction 1 as [|y l Hy _ IH]; [done|]. simpl. by rewrite Hy, IH. Qed.

Lemma sort_by_reverse {A} (less : A → A → bool) l :
  StronglySorted (λ x y, less y x = true) l → sort_by less l = reverse l.
Proof.
  induction 1 as [|x l _ IH Hx]; [done|]. change (sort_by less (x :: l)) with (insert_by less x (sort_by less l)).
  rewrite IH, reverse_cons. apply insert_by_last. apply Forall_forall. intros y Hy. rewrite elem_of_reverse in Hy.
  exact (proj1 (Forall_forall _ _) Hx y Hy).
Qed.
