(* ===== verification/DecisionStore.v ===== *)
(** * The decision repository

    [internal/infra/postgres/decision.go] over the tables [artifacts], [decisions],
    [evaluations] and [evaluation_reasons], and [core/service/evaluation.go].  The
    tables are lists of rows in insertion order; [Record] is one transaction.  The
    tenants and policies that foreign keys refer to are those of [AdminTables]. *)

From S2P Require Import Prelude GoStrings Json JsonDecode JsonParse Artifact Dependency Upstream PolicyConfig Policy.
From S2P Require Import AdminTables PgValues.
#[local] Open Scope list_scope.

(** ** Definitions *)

Record ArtifactRow : Type := mkArtifactRow { at_ID : string; at_TenantID : string; at_Artifact : ArtifactIdentity }.

Record DecisionRow : Type := mkDecisionRow {
  dr_ID : string;
  dr_TenantID : string;
  dr_ArtifactID : option string;
  dr_Outcome : DecisionOutcome;
  dr_PolicyID : option string;
  dr_PolicyHash : option string;
  dr_Reason : string;
  dr_Warnings : list string;
  dr_Context : option json;
  dr_CachedAt : option time;
  dr_EvaluatedAt : time;
}.

Record EvaluationRow : Type := mkEvaluationRow {
  el_ID : string;
  el_TenantID : string;
  el_ArtifactID : option string;
  el_Outcome : DecisionOutcome;
  el_PolicyID : option string;
  el_Reason : string;
  el_Context : option json;
  el_EvaluatedAt : time;
}.

Record ReasonRow : Type := mkReasonRow {
  rr_EvaluationID : string;
  rr_PolicyID : option string;
  rr_PolicyName : string;
  rr_Category : ReasonCategory;
  rr_Action : PolicyAction;
  rr_Message : string;
}.

Record EvidenceDB : Type := mkEvidenceDB {
  known_tenants : gset string;
  known_policies : gset string;
  artifact_rows : list ArtifactRow;
  decision_rows : list DecisionRow;
  evaluation_rows : list EvaluationRow;
  reason_rows : list ReasonRow;
  ev_serial : nat;
  ev_now : time;
}.

(** *** JSON of a dependency context *)

Definition context_json (c : DependencyContext) : json :=
  JObject (field "scope" (JString (Scope c)) ++ omit_strings "dependency_types" (ctx_DependencyTypes c) ++
           omit_strings "graph_ids" (GraphIDs c) ++ field "context_hash" (JString (ContextHash c))).

Definition context_fields : fields DependencyContext :=
  let place := into_field "DependencyContext" in
  [("scope", λ v c, s ← dec_string (place "scope") "domain.DependencyScope" v (Scope c);
             Ok (mkDependencyContext s (ctx_DependencyTypes c) (GraphIDs c) (ContextHash c)));
   ("dependency_types", λ v c,
      l ← dec_slice (place "dependency_types") "[]domain.DependencyType"
            (dec_string (place "dependency_types") "domain.DependencyType") "" v (ctx_DependencyTypes c);
      Ok (mkDependencyContext (Scope c) l (GraphIDs c) (ContextHash c)));
   ("graph_ids", λ v c,
      l ← dec_slice (place "graph_ids") "[]string" (dec_string (place "graph_ids") "string") "" v (GraphIDs c);
      Ok (mkDependencyContext (Scope c) (ctx_DependencyTypes c) l (ContextHash c)));
   ("context_hash", λ v c, s ← dec_string (place "context_hash") "string" v (ContextHash c);
             Ok (mkDependencyContext (Scope c) (ctx_DependencyTypes c) (GraphIDs c) s))].

(** [var dependencyContext domain.DependencyContext] *)
Definition zero_context : DependencyContext := mkDependencyContext "" [] [] "".

Definition set_dec_Context (c : option DependencyContext) (d : Decision) : Decision :=
  set_PolicyHash_Context (dec_PolicyHash d) c d.

Definition decodeDecisionDependencyContext (data : option json) (d : Decision) : result Decision :=
  match data with
  | None => Ok d
  | Some v =>
      c ← wrap_result "decoding decision dependency context: "
            (unmarshal_struct "domain.DependencyContext" context_fields v zero_context);
      Ok (set_dec_Context (Some (context_Normalize c)) d)
  end.

(** *** Record *)

Section repository.
Context (uuid : nat → string) (pg_text : PgError → error) (pg_time : time → time).

(** A statement that a check stops. *)
Definition pg_Errorf {A} (what : string) (e : PgError) : result A := Err (wrap_error what (pg_text e)).

Definition unknown_tenant (t constraint : string) (db : EvidenceDB) : option PgError :=
  if decide (t ∈ known_tenants db) then None else Some (mkPgError foreign_key_violation constraint).
Definition unknown_policy (p : option string) (constraint : string) (db : EvidenceDB) : option PgError :=
  match p with
  | Some p => if decide (p ∈ known_policies db) then None else Some (mkPgError foreign_key_violation constraint)
  | None => None
  end.

(** The unique key of [artifacts]. *)
Definition artifact_of (t : string) (a : ArtifactIdentity) (db : EvidenceDB) : option ArtifactRow :=
  head (filter (λ r, at_TenantID r = t ∧ at_Artifact r = a) (artifact_rows db)).

Definition with_artifact (r : ArtifactRow) (db : EvidenceDB) : EvidenceDB :=
  mkEvidenceDB (known_tenants db) (known_policies db) (artifact_rows db ++ [r]) (decision_rows db)
    (evaluation_rows db) (reason_rows db) (S (ev_serial db)) (ev_now db).
Definition with_decision (r : DecisionRow) (db : EvidenceDB) : EvidenceDB :=
  mkEvidenceDB (known_tenants db) (known_policies db) (artifact_rows db) (decision_rows db ++ [r])
    (evaluation_rows db) (reason_rows db) (S (ev_serial db)) (ev_now db).
Definition with_evaluation (r : EvaluationRow) (db : EvidenceDB) : EvidenceDB :=
  mkEvidenceDB (known_tenants db) (known_policies db) (artifact_rows db) (decision_rows db)
    (evaluation_rows db ++ [r]) (reason_rows db) (S (ev_serial db)) (ev_now db).
Definition with_reason (r : ReasonRow) (db : EvidenceDB) : EvidenceDB :=
  mkEvidenceDB (known_tenants db) (known_policies db) (artifact_rows db) (decision_rows db)
    (evaluation_rows db) (reason_rows db ++ [r]) (S (ev_serial db)) (ev_now db).

Definition upsertDecisionArtifact (d : Decision) (db : EvidenceDB) : result (option string * EvidenceDB) :=
  let a := dec_Artifact d in
  if decide (Name a = "") then Ok (None, db)
  else
    match text_params [Ecosystem a; Namespace a; Name a; Version a; Digest a] with
    | Some e => pg_Errorf "upserting artifact: " e
    | None =>
        match artifact_of (dec_TenantID d) a db with
        | Some r => Ok (Some (at_ID r), db)
        | None =>
            match unknown_tenant (dec_TenantID d) "artifacts_tenant_id_fkey" db with
            | Some e => pg_Errorf "upserting artifact: " e
            | None =>
                let id := uuid (ev_serial db) in
                Ok (Some id, with_artifact (mkArtifactRow id (dec_TenantID d) a) db)
            end
        end
    end.

(** A JSON parameter, NULL when there is none. *)
Definition nullableJSON (text : string) (valid : bool) : PgError + option json :=
  if valid then match jsonb_input text with inl e => inl e | inr v => inr (Some v) end else inr None.

(** [RETURNING id, evaluated_at] into the decision. *)
Definition set_returned (id : string) (t : time) (d : Decision) : Decision :=
  mkDecision id (dec_TenantID d) (dec_Artifact d) (dec_Outcome d) (dec_PolicyID d) (dec_PolicyHash d)
    (dec_DependencyContext d) (dec_Reason d) (dec_Reasons d) (dec_Warnings d) (dec_CachedAt d) t.

(** The row, and the JSON text of the context. *)
Definition insertDecision (d : Decision) (artifactID : option string) (db : EvidenceDB)
    : result (Decision * string * EvidenceDB) :=
  let policyID := nullableString (dec_PolicyID d) in
  text ← wrap_result "marshalling dependency context: "
           (json_Marshal (from_option context_json JNull (dec_DependencyContext d)));
  match nullableJSON text (bool_decide (dec_DependencyContext d ≠ None)) with
  | inl e => pg_Errorf "inserting decision: " e
  | inr context =>
      match first_violation [text_params (dec_Outcome d :: dec_PolicyHash d :: dec_Reason d :: dec_Warnings d);
                             unknown_tenant (dec_TenantID d) "decisions_tenant_id_fkey" db;
                             unknown_policy policyID "decisions_policy_id_fkey" db] with
      | Some e => pg_Errorf "inserting decision: " e
      | None =>
          let id := uuid (ev_serial db) in
          let row := mkDecisionRow id (dec_TenantID d) artifactID (dec_Outcome d) policyID (Some (dec_PolicyHash d))
                       (dec_Reason d) (dec_Warnings d) context (pg_time <$> dec_CachedAt d) (ev_now db) in
          Ok (set_returned id (ev_now db) d, text, with_decision row db)
      end
  end.

Fixpoint insertReasons (evaluationID : string) (reasons : list EvaluationReason) (db : EvidenceDB) : result EvidenceDB :=
  match reasons with
  | [] => Ok db
  | reason :: reasons =>
      let reasonPolicyID := nullableString (rsn_PolicyID reason) in
      match first_violation [text_params [rsn_PolicyName reason; rsn_Category reason; rsn_Action reason; rsn_Message reason];
                             unknown_policy reasonPolicyID "evaluation_reasons_policy_id_fkey" db] with
      | Some e => pg_Errorf "inserting evaluation reason: " e
      | None =>
          insertReasons evaluationID reasons
            (with_reason (mkReasonRow evaluationID reasonPolicyID (rsn_PolicyName reason) (rsn_Category reason)
                            (rsn_Action reason) (rsn_Message reason)) db)
      end
  end.

Definition insertDecisionEvaluation (d : Decision) (artifactID : option string) (contextJSON : string) (db : EvidenceDB)
    : result EvidenceDB :=
  if decide (dec_Reasons d = []) then Ok db
  else
    let policyID := nullableString (dec_PolicyID d) in
    match nullableJSON contextJSON (bool_decide (dec_DependencyContext d ≠ None)) with
    | inl e => pg_Errorf "inserting evaluation: " e
    | inr context =>
        match first_violation [text_params [dec_Outcome d; dec_Reason d];
                               unknown_tenant (dec_TenantID d) "evaluations_tenant_id_fkey" db;
                               unknown_policy policyID "evaluations_policy_id_fkey" db] with
        | Some e => pg_Errorf "inserting evaluation: " e
        | None =>
            let id := uuid (ev_serial db) in
            insertReasons id (dec_Reasons d)
              (with_evaluation (mkEvaluationRow id (dec_TenantID d) artifactID (dec_Outcome d) policyID
                                  (dec_Reason d) context (ev_now db)) db)
        end
    end.

(** [DecisionRepository.Record]: the decision with the fields written through its
    pointer, which a later failure leaves in it, and the rows when the
    transaction is committed. *)
Definition DecisionRepository_Record (d : Decision) (db : EvidenceDB) : (Decision * option error) * EvidenceDB :=
  match upsertDecisionArtifact d db with
  | Err e => ((d, Some e), db)
  | Ok (artifactID, db1) =>
      match insertDecision d artifactID db1 with
      | Err e => ((d, Some e), db)
      | Ok (d', contextJSON, db2) =>
          match insertDecisionEvaluation d' artifactID contextJSON db2 with
          | Err e => ((d', Some e), db)
          | Ok db3 => ((d', None), db3)
          end
      end
  end.

(** *** Queries *)

Definition artifact_row (id : string) (db : EvidenceDB) : option ArtifactRow :=
  head (filter (λ r, at_ID r = id) (artifact_rows db)).

(** [LEFT JOIN artifacts a ON d.artifact_id = a.id] *)
Definition joined (db : EvidenceDB) : list (DecisionRow * option ArtifactRow) :=
  (λ r, (r, id ← dr_ArtifactID r; artifact_row id db)) <$> decision_rows db.

Definition latest (a b : DecisionRow * option ArtifactRow) : bool := dr_EvaluatedAt b.1 <? dr_EvaluatedAt a.1.

(** [scanListedDecision]; the columns of an absent artifact are NULL. *)
Definition scanListedDecision (row : DecisionRow * option ArtifactRow) : result Decision :=
  let '(r, a) := row in
  decodeDecisionDependencyContext (dr_Context r)
    (mkDecision (dr_ID r) (dr_TenantID r) (from_option at_Artifact (mkArtifact "" "" "" "" "") a) (dr_Outcome r)
       (default "" (dr_PolicyID r)) (default "" (dr_PolicyHash r)) None (dr_Reason r) [] (dr_Warnings r)
       (dr_CachedAt r) (dr_EvaluatedAt r)).

Definition GetByArtifact (tenantID : string) (a : ArtifactIdentity) (db : EvidenceDB) : result Decision :=
  match text_params [Ecosystem a; Namespace a; Name a; Version a; Digest a] with
  | Some e => pg_Errorf "querying decision by artifact: " e
  | None =>
      match sort_by latest (filter (λ row, dr_TenantID row.1 = tenantID ∧ at_Artifact <$> row.2 = Some a) (joined db)) with
      | [] => Err (sentinel_error ErrArtifactNotFound)
      | row :: _ => scanListedDecision row
      end
  end.

(** [CONCAT_WS('/', NULLIF(a.namespace, ''), COALESCE(a.name, ''))] *)
Definition qualified_name (a : ArtifactIdentity) : string :=
  if decide (Namespace a = "") then Name a else Namespace a +:+ "/" +:+ Name a.

Definition search_matches (search : string) (a : ArtifactIdentity) : Prop :=
  search = "" ∨ Exists (λ column, ilike column (containing search) = true)
                  [Namespace a; Name a; Version a; Digest a; qualified_name a].
#[export] Instance search_matches_dec search a : base.Decision (search_matches search a).
Proof. unfold search_matches. apply _. Defined.

Definition row_artifact (row : DecisionRow * option ArtifactRow) : ArtifactIdentity :=
  from_option at_Artifact (mkArtifact "" "" "" "" "") row.2.

Definition DecisionRepository_ListByTenant (tenantID : string) (limit offset : Z) (search : string) (db : EvidenceDB)
    : result (list Decision) :=
  match text_params [search] with
  | Some e => pg_Errorf "iterating decision rows: " e
  | None =>
      match pg_page limit offset (sort_by latest
              (filter (λ row, dr_TenantID row.1 = tenantID ∧ search_matches search (row_artifact row)) (joined db))) with
      | inl e => pg_Errorf "iterating decision rows: " e
      | inr rows => map_result scanListedDecision rows
      end
  end.

Definition one_hour : Z := 3600 * 10 ^ 9.

Definition recent_allow (tenantID ecosystem namespace name : string) (now : time) (row : DecisionRow * option ArtifactRow) : Prop :=
  dr_TenantID row.1 = tenantID ∧ dr_Outcome row.1 = DecisionAllow ∧ now - one_hour < dr_EvaluatedAt row.1 ∧
  from_option (λ a, Ecosystem (at_Artifact a) = ecosystem ∧ Namespace (at_Artifact a) = namespace ∧
                    Name (at_Artifact a) = name) False row.2.
#[export] Instance recent_allow_dec t e ns n now row : base.Decision (recent_allow t e ns n now row).
Proof. unfold recent_allow. destruct row as [? []]; apply _. Defined.

Definition DecisionRepository_HasRecentAllow (tenantID ecosystem namespace name : string) (db : EvidenceDB) : result bool :=
  match text_params [ecosystem; namespace; name] with
  | Some e => pg_Errorf "checking recent allow decision: " e
  | None => Ok (bool_decide (Exists (recent_allow tenantID ecosystem namespace name (ev_now db)) (joined db)))
  end.

(** [EvaluationService.ListByTenant] (core/service/evaluation.go) *)
Definition EvaluationService_ListByTenant (tenantID : string) (limit offset : Z) (search : string) (db : EvidenceDB)
    : result (list Decision) :=
  wrap_result "listing evaluations: " (DecisionRepository_ListByTenant tenantID limit offset search db).

(** ** What the repository promises: a log of decisions *)

(** What a reader sees of a recorded decision: reasons are not listed, the context
    is in canonical form, and a decision about no package keeps no artifact. *)
Definition logged_decision (id : string) (now : time) (d : Decision) : Decision :=
  mkDecision id (dec_TenantID d)
    (if decide (Name (dec_Artifact d) = "") then mkArtifact "" "" "" "" "" else dec_Artifact d)
    (dec_Outcome d) (dec_PolicyID d) (dec_PolicyHash d) (context_Normalize <$> dec_DependencyContext d)
    (dec_Reason d) [] (dec_Warnings d) (pg_time <$> dec_CachedAt d) now.

(** The queries on the log, newest first. *)
Definition about (t : string) (a : ArtifactIdentity) (d : Decision) : Prop :=
  dec_TenantID d = t ∧ Name a ≠ "" ∧ dec_Artifact d = a.
Definition listed (t search : string) (d : Decision) : Prop :=
  dec_TenantID d = t ∧ search_matches search (dec_Artifact d).
Definition allows_recently (t ecosystem namespace name : string) (now : time) (d : Decision) : Prop :=
  dec_TenantID d = t ∧ dec_Outcome d = DecisionAllow ∧ now - one_hour < dec_EvaluatedAt d ∧ Name (dec_Artifact d) ≠ "" ∧
  Ecosystem (dec_Artifact d) = ecosystem ∧ Namespace (dec_Artifact d) = namespace ∧ Name (dec_Artifact d) = name.
#[export] Instance about_dec t a d : base.Decision (about t a d).
Proof. unfold about. apply _. Defined.
#[export] Instance listed_dec t search d : base.Decision (listed t search d).
Proof. unfold listed. apply _. Defined.
#[export] Instance allows_recently_dec t e ns n now d : base.Decision (allows_recently t e ns n now d).
Proof. unfold allows_recently. apply _. Defined.

(** Strings that JSON carries unchanged. *)
Definition context_utf8 (c : DependencyContext) : Prop :=
  utf8_ok (Scope c) = true ∧ Forall (λ s, utf8_ok s = true) (ctx_DependencyTypes c) ∧
  Forall (λ s, utf8_ok s = true) (GraphIDs c) ∧ utf8_ok (ContextHash c) = true.
Definition decision_utf8 (d : Decision) : Prop := from_option context_utf8 True (dec_DependencyContext d).

(** What the tables take. *)
Definition accepted_reason (db : EvidenceDB) (r : EvaluationReason) : Prop :=
  Forall (λ s, text_ok s = true) [rsn_PolicyName r; rsn_Category r; rsn_Action r; rsn_Message r] ∧
  (rsn_PolicyID r = "" ∨ rsn_PolicyID r ∈ known_policies db).
Definition accepted (d : Decision) (db : EvidenceDB) : Prop :=
  let a := dec_Artifact d in
  (Name a = "" ∨ Forall (λ s, text_ok s = true) [Ecosystem a; Namespace a; Name a; Version a; Digest a]) ∧
  Forall (λ s, text_ok s = true) (dec_Outcome d :: dec_PolicyHash d :: dec_Reason d :: dec_Warnings d) ∧
  dec_TenantID d ∈ known_tenants db ∧ (dec_PolicyID d = "" ∨ dec_PolicyID d ∈ known_policies db) ∧
  from_option (λ c, json_nul_free (context_json c) = true) True (dec_DependencyContext d) ∧
  Forall (accepted_reason db) (dec_Reasons d).

(** The tables stand for the log. *)
Record logs (db : EvidenceDB) (log : list Decision) : Prop := {
  lg_rows : Forall2 (λ row d, scanListedDecision row = Ok d) (joined db) (reverse log);
  lg_times : StronglySorted (λ r r', dr_EvaluatedAt r < dr_EvaluatedAt r') (decision_rows db);
  lg_ids : Forall (λ r, ∃ k, (k < ev_serial db)%nat ∧ at_ID r = uuid k) (artifact_rows db);
  lg_unique : NoDup (at_ID <$> artifact_rows db);
  lg_artifacts : Forall (λ r, Name (at_Artifact r) ≠ "") (artifact_rows db);
  lg_found : Forall (λ r, ∀ id, dr_ArtifactID r = Some id → is_Some (artifact_row id db)) (decision_rows db);
}.

Definition empty_evidence (tenants policies : gset string) (now : time) : EvidenceDB :=
  mkEvidenceDB tenants policies [] [] [] [] 0 now.
Definition evidence_later (d : Z) (db : EvidenceDB) : EvidenceDB :=
  mkEvidenceDB (known_tenants db) (known_policies db) (artifact_rows db) (decision_rows db) (evaluation_rows db)
    (reason_rows db) (ev_serial db) (ev_now db + d).

(** ** Lemmas *)

Lemma logs_empty tenants policies now : logs (empty_evidence tenants policies now) [].
Proof. split; simpl; constructor. Qed.

Lemma logs_later δ db log : logs db log → logs (evidence_later δ db) log.
Proof. by intros []. Qed.

(** *** JSON of the context *)

Lemma writable_strings l : Forall (λ s, utf8_ok s = true) l → forallb writable (JString <$> l) = true.
Proof. induction 1 as [|s l Hs _ IH]; csimpl; [done|]. by rewrite Hs. Qed.
Lemma float_free_strings l : forallb float_free (JString <$> l) = true.
Proof. by induction l. Qed.

Lemma context_json_writable c : context_utf8 c → writable (context_json c) = true.
Proof.
  intros (H1 & H2%writable_strings & H3%writable_strings & H4). unfold context_json, omit_strings, omit_if.
  do 2 case_bool_decide; csimpl; rewrite ?H1, ?H2, ?H3, ?H4; done.
Qed.
Lemma context_json_float_free c : float_free (context_json c) = true.
Proof.
  unfold context_json, omit_strings, omit_if. do 2 case_bool_decide; csimpl; rewrite ?float_free_strings; done.
Qed.

Lemma dec_elements_strings place ty l old : dec_elements (dec_string place ty) "" (JString <$> l) old = Ok l.
Proof. induction l as [|s l IH] in old |- *; csimpl; [done|]. by rewrite IH. Qed.

Lemma context_fields_read c : unmarshal_struct "domain.DependencyContext" context_fields (context_json c) zero_context = Ok c.
Proof.
  destruct c as [scope types ids hash]. unfold context_json, omit_strings, omit_if.
  do 2 case_bool_decide; simpl in *; subst; cbn -[dec_elements dec_string];
    repeat (rewrite dec_elements_strings; cbn -[dec_elements dec_string]); done.
Qed.

(** The JSON parameter of a context, and what is read back from the column. *)
Lemma context_column c : context_utf8 c →
  ∃ text, json_Marshal (context_json c) = Ok text ∧
    jsonb_input text = if json_nul_free (context_json c) then inr (context_json c) else inl invalid_json_text.
Proof.
  intros H. destruct (written_reads _ (context_json_writable c H)) as (text & v & Ht & Hp & Hr).
  apply reads_exact in Hr as ->; [|apply context_json_float_free]. exists text. split; [done|].
  unfold jsonb_input. by rewrite Hp.
Qed.

#[local] Opaque context_json.
#[local] Arguments first_violation : simpl never.

(** *** Rows and joins *)

Lemma head_filter_app {A} (P : A → Prop) `{∀ x, base.Decision (P x)} l l' x :
  head (filter P l) = Some x → head (filter P (l ++ l')) = Some x.
Proof. rewrite filter_app. by destruct (filter P l). Qed.

Lemma head_filter_elem {A} (P : A → Prop) `{∀ x, base.Decision (P x)} l x :
  head (filter P l) = Some x → P x ∧ x ∈ l.
Proof.
  intros E. assert (x ∈ filter P l) as Hx%list_elem_of_filter; [|done].
  destruct (filter P l); [done|]. injection E as ->. left.
Qed.

Lemma head_filter_None {A} (P : A → Prop) `{∀ x, base.Decision (P x)} l :
  head (filter P l) = None → ∀ x, x ∈ l → ¬ P x.
Proof.
  intros E x Hx Hp. assert (x ∈ filter P l) as H' by (by apply list_elem_of_filter). destruct (filter P l); [by apply not_elem_of_nil in H'|done].
Qed.

(** The row of an identifier that occurs once. *)
Lemma artifact_row_found db r : NoDup (at_ID <$> artifact_rows db) → r ∈ artifact_rows db →
  artifact_row (at_ID r) db = Some r.
Proof.
  unfold artifact_row. induction (artifact_rows db) as [|x l IH]; [by intros _ ?%not_elem_of_nil|].
  rewrite fmap_cons, NoDup_cons. intros [Hx Hl] [->|Hr]%elem_of_cons; rewrite filter_cons.
  - by rewrite decide_True.
  - rewrite decide_False; [by apply IH|]. intros E. destruct Hx. rewrite E. by apply (list_elem_of_fmap_2 at_ID).
Qed.

Definition same_rows (db db' : EvidenceDB) : Prop :=
  artifact_rows db' = artifact_rows db ∧ decision_rows db' = decision_rows db ∧ (ev_serial db ≤ ev_serial db')%nat ∧ ev_now db' = ev_now db.

Lemma logs_same db db' log : same_rows db db' → logs db log → logs db' log.
Proof.
  intros (Ea & Ed & Hs & _) [H1 H2 H3 H4 H5 H6]. assert (∀ id, artifact_row id db' = artifact_row id db) as Er.
  { intros id. unfold artifact_row. by rewrite Ea. }
  split; rewrite ?Ea, ?Ed; [|done| |done|done|].
  - unfold joined in *. rewrite Ed. erewrite list_fmap_ext; [exact H1|]. intros i r _. simpl. f_equal.
    destruct (dr_ArtifactID r); [apply Er|done].
  - eapply Forall_impl; [exact H3|]. intros r (k & Hk & E). exists k. split; [lia|done].
  - eapply Forall_impl; [exact H6|]. intros r Hr id Hid. rewrite Er. by apply Hr.
Qed.

(** *** The statements of Record *)

Lemma unknown_tenant_None t c db : unknown_tenant t c db = None ↔ t ∈ known_tenants db.
Proof. unfold unknown_tenant. case_decide; naive_solver. Qed.
Lemma unknown_policy_None p c db :
  unknown_policy (nullableString p) c db = None ↔ p = "" ∨ p ∈ known_policies db.
Proof. unfold nullableString, unknown_policy. repeat case_decide; naive_solver. Qed.

Lemma upsert_ok d db : dec_TenantID d ∈ known_tenants db →
  is_ok (upsertDecisionArtifact d db) = true ↔
  Name (dec_Artifact d) = "" ∨
  Forall (λ s, text_ok s = true) [Ecosystem (dec_Artifact d); Namespace (dec_Artifact d); Name (dec_Artifact d);
                                  Version (dec_Artifact d); Digest (dec_Artifact d)].
Proof.
  intros Ht. rewrite <-text_params_None. unfold upsertDecisionArtifact. case_decide; [naive_solver|].
  destruct (text_params _) eqn:E; [naive_solver|]. destruct (artifact_of _ _ _); [naive_solver|].
  assert (unknown_tenant (dec_TenantID d) "artifacts_tenant_id_fkey" db = None) as -> by (by apply unknown_tenant_None).
  naive_solver.
Qed.

(** The row of the artifact is there afterwards; the tables stand for the same log. *)
Lemma upsert_spec `{!Inj (=) (=) uuid} d db log ai db1 : logs db log → upsertDecisionArtifact d db = Ok (ai, db1) →
  logs db1 log ∧ decision_rows db1 = decision_rows db ∧ ev_now db1 = ev_now db ∧
  known_tenants db1 = known_tenants db ∧ known_policies db1 = known_policies db ∧
  at_Artifact <$> (ai ≫= λ id, artifact_row id db1) =
    (if decide (Name (dec_Artifact d) = "") then None else Some (dec_Artifact d)) ∧
  (∀ id, ai = Some id → is_Some (artifact_row id db1)).
Proof.
  intros Hl. unfold upsertDecisionArtifact. case_decide as Hn; [by intros [= <- <-]|].
  destruct (text_params _); [done|]. destruct (artifact_of _ _ db) as [r|] eqn:Er.
  { intros [= <- <-]. apply head_filter_elem in Er as [[_ Ea] Hr].
    pose proof (artifact_row_found db r (lg_unique _ _ Hl) Hr) as E. simpl. rewrite E. simpl. rewrite Ea.
    repeat (split; [done|]). intros id [= <-]. by rewrite E. }
  destruct (unknown_tenant _ _ _); [done|]. intros [= <- <-].
  set (r := mkArtifactRow (uuid (ev_serial db)) (dec_TenantID d) (dec_Artifact d)).
  assert (Hnd : NoDup (at_ID <$> artifact_rows (with_artifact r db))).
  { simpl. rewrite fmap_app. apply NoDup_snoc_2; [apply (lg_unique _ _ Hl)|]. intros (x & Ex & Hx)%list_elem_of_fmap.
    pose proof (lg_ids _ _ Hl) as Hids. rewrite Forall_forall in Hids. destruct (Hids x Hx) as (k & Hk & E).
    simpl in Ex. rewrite E in Ex. apply (inj uuid) in Ex. lia. }
  assert (Hnew : artifact_row (uuid (ev_serial db)) (with_artifact r db) = Some r).
  { apply (artifact_row_found (with_artifact r db) r Hnd). simpl. apply elem_of_app. right. left. }
  assert (Hold : ∀ id x, artifact_row id db = Some x → artifact_row id (with_artifact r db) = Some x).
  { intros id x. apply head_filter_app. }
  split; [|simpl; rewrite Hnew; repeat (split; [done|]); intros id [= <-]; by rewrite Hnew].
  destruct Hl as [H1 H2 H3 H4 H5 H6]. split; simpl; [|done| | | |].
  - unfold joined in *. simpl. erewrite list_fmap_ext; [exact H1|]. intros i x Hx. simpl. f_equal.
    destruct (dr_ArtifactID x) as [id|] eqn:Eid; [|done]. simpl.
    rewrite Forall_lookup in H6. destruct (H6 i x Hx id Eid) as [y Hy]. rewrite Hy. by apply Hold.
  - apply Forall_app. split; [|constructor; [|done]; exists (ev_serial db); split; [lia|done]].
    eapply Forall_impl; [exact H3|]. intros x (k & Hk & E). exists k. split; [lia|done].
  - exact Hnd.
  - apply Forall_app. by split; [|constructor].
  - eapply Forall_impl; [exact H6|]. intros x Hx id Hid. destruct (Hx id Hid) as [y Hy]. exists y. by apply Hold.
Qed.

(** The context parameter of both INSERT statements. *)
Lemma nullable_column d : decision_utf8 d →
  ∃ text, json_Marshal (from_option context_json JNull (dec_DependencyContext d)) = Ok text ∧
    nullableJSON text (bool_decide (dec_DependencyContext d ≠ None)) =
      match dec_DependencyContext d with
      | None => inr None
      | Some c => if json_nul_free (context_json c) then inr (Some (context_json c)) else inl invalid_json_text
      end.
Proof.
  unfold decision_utf8. destruct (dec_DependencyContext d) as [c|]; simpl; [|by eexists].
  intros (text & Ht & Hj)%context_column. exists text. split; [done|]. rewrite Hj. by destruct (json_nul_free _).
Qed.

(** A chain of checks and an insertion. *)
Lemma first_violation_ok {A} what checks (a : result A) :
  is_ok (match first_violation checks with Some e => pg_Errorf what e | None => a end) = true ↔
  Forall (λ c, c = None) checks ∧ is_ok a = true.
Proof. rewrite <-first_violation_None. destruct (first_violation checks); naive_solver. Qed.

Lemma insertDecision_ok d ai db : decision_utf8 d →
  is_ok (insertDecision d ai db) = true ↔
  from_option (λ c, json_nul_free (context_json c) = true) True (dec_DependencyContext d) ∧
  Forall (λ s, text_ok s = true) (dec_Outcome d :: dec_PolicyHash d :: dec_Reason d :: dec_Warnings d) ∧
  dec_TenantID d ∈ known_tenants db ∧ (dec_PolicyID d = "" ∨ dec_PolicyID d ∈ known_policies db).
Proof.
  intros (text & Ht & Hc)%nullable_column. unfold insertDecision. cbv zeta. rewrite Ht. cbn [wrap_result mbind result_bind].
  rewrite Hc. destruct (dec_DependencyContext d) as [c|]; cbn [from_option]; [destruct (json_nul_free (context_json c));
    [|split; [done|naive_solver]]|].
  all: rewrite first_violation_ok; do 3 rewrite Forall_cons; rewrite text_params_None, unknown_tenant_None, unknown_policy_None; naive_solver.
Qed.

Lemma default_nullable s : default "" (nullableString s) = s.
Proof. unfold nullableString. case_decide as E; [by rewrite E|done]. Qed.

Lemma insertDecision_spec d ai db d' text db2 : decision_utf8 d → insertDecision d ai db = Ok (d', text, db2) →
  d' = set_returned (uuid (ev_serial db)) (ev_now db) d ∧
  json_Marshal (from_option context_json JNull (dec_DependencyContext d)) = Ok text ∧
  ∃ row, db2 = with_decision row db ∧ dr_ArtifactID row = ai ∧ dr_EvaluatedAt row = ev_now db ∧
    ∀ a, at_Artifact <$> a = (if decide (Name (dec_Artifact d) = "") then None else Some (dec_Artifact d)) →
      scanListedDecision (row, a) = Ok (logged_decision (uuid (ev_serial db)) (ev_now db) d).
Proof.
  intros (text' & Ht & Hc)%nullable_column. unfold insertDecision. cbv zeta. rewrite Ht. cbn [wrap_result mbind result_bind].
  rewrite Hc. intros H.
  assert (∃ col, match dec_DependencyContext d with
                 | None => col = None | Some c => col = Some (context_json c) end ∧
    Ok (d', text, db2) = Ok (set_returned (uuid (ev_serial db)) (ev_now db) d, text',
      with_decision (mkDecisionRow (uuid (ev_serial db)) (dec_TenantID d) ai (dec_Outcome d) (nullableString (dec_PolicyID d))
        (Some (dec_PolicyHash d)) (dec_Reason d) (dec_Warnings d) col (pg_time <$> dec_CachedAt d) (ev_now db)) db))
    as (col & Hcol & [= -> -> ->]).
  { destruct (dec_DependencyContext d) as [c|]; [destruct (json_nul_free (context_json c))|]; try done;
      (destruct (first_violation _); [done|]); eexists; (split; [|by rewrite H]); done. }
  split; [done|]. split; [done|]. eexists. split; [done|]. do 2 (split; [done|]). intros a Ha.
  assert (Hart : from_option at_Artifact (mkArtifact "" "" "" "" "") a =
                 if decide (Name (dec_Artifact d) = "") then mkArtifact "" "" "" "" "" else dec_Artifact d).
  { destruct a; case_decide; simpl in *; congruence. }
  unfold scanListedDecision. cbn [dr_Context dr_ID dr_TenantID dr_Outcome dr_PolicyID dr_PolicyHash dr_Reason dr_Warnings dr_CachedAt dr_EvaluatedAt].
  rewrite default_nullable, Hart. unfold logged_decision. destruct (dec_DependencyContext d) as [c|]; subst col; [|done].
  unfold decodeDecisionDependencyContext. by rewrite context_fields_read.
Qed.

Lemma insertReasons_spec id reasons db :
  (is_ok (insertReasons id reasons db) = true ↔ Forall (accepted_reason db) reasons) ∧
  ∀ db', insertReasons id reasons db = Ok db' → same_rows db db'.
Proof.
  revert db. induction reasons as [|r reasons IH]; intros db; simpl.
  { split; [split; [constructor|done]|]. by intros db' [= <-]. }
  set (next := with_reason _ db). destruct (IH next) as [IH1 IH2]. split.
  - rewrite first_violation_ok, IH1. do 3 rewrite Forall_cons. rewrite text_params_None, unknown_policy_None.
    change (known_policies next) with (known_policies db). unfold accepted_reason. naive_solver.
  - intros db'. destruct (first_violation _); [done|]. intros (H1 & H2 & H3 & H4)%IH2. simpl in *. repeat split; [done..|lia|done].
Qed.

Lemma insertEvaluation_spec d ai text db : decision_utf8 d →
  json_Marshal (from_option context_json JNull (dec_DependencyContext d)) = Ok text →
  (Forall (λ s, text_ok s = true) [dec_Outcome d; dec_Reason d] → dec_TenantID d ∈ known_tenants db →
   (dec_PolicyID d = "" ∨ dec_PolicyID d ∈ known_policies db) →
   from_option (λ c, json_nul_free (context_json c) = true) True (dec_DependencyContext d) →
   is_ok (insertDecisionEvaluation d ai text db) = true ↔ Forall (accepted_reason db) (dec_Reasons d)) ∧
  ∀ db', insertDecisionEvaluation d ai text db = Ok db' → same_rows db db'.
Proof.
  intros (text' & Ht & Hc)%nullable_column Ht'. rewrite Ht in Ht'. injection Ht' as ->.
  unfold insertDecisionEvaluation. cbv zeta. rewrite Hc. clear Ht Hc.
  case_decide as He; [rewrite He; split; [by intros; split; [constructor|]|by intros db' [= <-]]|].
  assert (H : ∀ row, (is_ok (insertReasons (uuid (ev_serial db)) (dec_Reasons d) (with_evaluation row db)) = true ↔
      Forall (accepted_reason db) (dec_Reasons d)) ∧
    ∀ db', insertReasons (uuid (ev_serial db)) (dec_Reasons d) (with_evaluation row db) = Ok db' → same_rows db db').
  { intros row. destruct (insertReasons_spec (uuid (ev_serial db)) (dec_Reasons d) (with_evaluation row db)) as [H1 H2].
    split; [exact H1|].
    intros db' (E1 & E2 & E3 & E4)%H2. simpl in *. repeat split; [done..|lia|done]. }
  split.
  - intros H1 H2 H3 H4. destruct (dec_DependencyContext d) as [c|]; [rewrite H4|]; rewrite first_violation_ok, (proj1 (H _));
      (split; [naive_solver|]; intros; split; [|done]);
      do 3 rewrite Forall_cons; by rewrite text_params_None, unknown_tenant_None, unknown_policy_None.
  - intros db'. destruct (dec_DependencyContext d) as [c|]; [destruct (json_nul_free _)|]; try done;
      (destruct (first_violation _); [done|]; apply (H _)).
Qed.

(** *** Record and the log *)

Lemma record_accepted `{!Inj (=) (=) uuid} d db log : logs db log → decision_utf8 d →
  (DecisionRepository_Record d db).1.2 = None ↔ accepted d db.
Proof.
  intros Hl Hu. unfold DecisionRepository_Record, accepted. cbv zeta.
  destruct (decide (dec_TenantID d ∈ known_tenants db)) as [Ht|Ht]; last first.
  { split; [|naive_solver]. destruct (upsertDecisionArtifact d db) as [[ai db1]|e] eqn:E1; [|done].
    destruct (upsert_spec d db log ai db1 Hl E1) as (_ & _ & _ & Hk & _).
    destruct (insertDecision d ai db1) as [[[d' text] db2]|e] eqn:E2; [|done].
    pose proof (insertDecision_ok d ai db1 Hu) as H. rewrite E2 in H. destruct H as [(_ & _ & H & _) _]; [done|].
    rewrite Hk in H. done. }
  pose proof (upsert_ok d db Ht) as H1. destruct (upsertDecisionArtifact d db) as [[ai db1]|e] eqn:E1; simpl in H1; [|naive_solver].
  destruct (upsert_spec d db log ai db1 Hl E1) as (_ & _ & _ & Hk & Hp & _).
  pose proof (insertDecision_ok d ai db1 Hu) as H2. rewrite Hk, Hp in H2.
  destruct (insertDecision d ai db1) as [[[d' text] db2]|e] eqn:E2; simpl in H2; [|naive_solver].
  destruct (insertDecision_spec d ai db1 d' text db2 Hu E2) as (-> & Htext & row & -> & _).
  destruct (insertEvaluation_spec (set_returned (uuid (ev_serial db1)) (ev_now db1) d) ai text (with_decision row db1) Hu Htext)
    as [H3 _]. simpl in H3. rewrite Hk, Hp in H3. unfold accepted_reason in *. simpl in H3. rewrite Hp in H3.
  destruct H2 as [H2 _]. destruct (H2 eq_refl) as (Hn & Htx & _ & Hpol).
  assert (Hshort : Forall (λ s, text_ok s = true) [dec_Outcome d; dec_Reason d]).
  { apply Forall_cons in Htx as [? [_ [? _]%Forall_cons]%Forall_cons]. by repeat constructor. }
  specialize (H3 Hshort Ht Hpol Hn). destruct (insertDecisionEvaluation _ _ _ _) as [db3|e]; simpl in *; naive_solver.
Qed.

(** A recorded decision is the newest of the log. *)
Lemma record_logs `{!Inj (=) (=) uuid} d d' db db' log : logs db log → decision_utf8 d →
  Forall (λ r, dr_EvaluatedAt r < ev_now db) (decision_rows db) →
  DecisionRepository_Record d db = ((d', None), db') →
  d' = set_returned (dec_ID d') (ev_now db) d ∧ logs db' (logged_decision (dec_ID d') (ev_now db) d :: log).
Proof.
  intros Hl Hu Hnow. unfold DecisionRepository_Record.
  destruct (upsertDecisionArtifact d db) as [[ai db1]|e] eqn:E1; [|done].
  destruct (upsert_spec d db log ai db1 Hl E1) as (Hl1 & Hrows & Htime & _ & _ & Hart & Hfound).
  destruct (insertDecision d ai db1) as [[[d'' text] db2]|e] eqn:E2; [|done].
  destruct (insertDecision_spec d ai db1 d'' text db2 Hu E2) as (-> & Htext & row & -> & Hai & Hat & Hscan).
  destruct (insertEvaluation_spec (set_returned (uuid (ev_serial db1)) (ev_now db1) d) ai text (with_decision row db1) Hu Htext)
    as [_ H3].
  destruct (insertDecisionEvaluation _ _ _ _) as [db3|e] eqn:E3; [|done]. intros [= <- <-]. specialize (H3 db3 eq_refl).
  rewrite Htime in *. split; [done|]. apply (logs_same _ _ _ H3). simpl.
  destruct Hl1 as [G1 G2 G3 G4 G5 G6]. split; simpl; [| | |done|done|].
  - unfold joined in *. simpl. rewrite fmap_app, reverse_cons. apply Forall2_app; [exact G1|]. constructor; [|constructor].
    rewrite Hai. apply Hscan. exact Hart.
  - apply StronglySorted_app_2; [|done|repeat constructor]. intros r r' Hr ->%list_elem_of_singleton. rewrite Hat. rewrite Hrows in Hr.
    rewrite Forall_forall in Hnow. by apply Hnow.
  - eapply Forall_impl; [exact G3|]. intros r (k & Hk & E). exists k. split; [lia|done].
  - apply Forall_app. split; [exact G6|]. constructor; [|done]. rewrite Hai. exact Hfound.
Qed.

Lemma record_refused d d' e db db' : DecisionRepository_Record d db = ((d', Some e), db') → db' = db.
Proof.
  unfold DecisionRepository_Record. destruct (upsertDecisionArtifact _ _) as [[ai db1]|]; [|by intros [= _ _ <-]].
  destruct (insertDecision _ _ _) as [[[? ?] ?]|]; [|by intros [= _ _ <-]].
  destruct (insertDecisionEvaluation _ _ _ _); by intros [= _ _ <-].
Qed.

(** *** Queries and the log *)

Lemma scan_fields row d : scanListedDecision row = Ok d →
  dec_TenantID d = dr_TenantID row.1 ∧ dec_Artifact d = row_artifact row ∧ dec_Outcome d = dr_Outcome row.1 ∧
  dec_EvaluatedAt d = dr_EvaluatedAt row.1.
Proof.
  destruct row as [r a]. unfold scanListedDecision, decodeDecisionDependencyContext. destruct (dr_Context r) as [v|].
  - intros (c & _ & [= <-])%result_bind_ok. done.
  - by intros [= <-].
Qed.

Lemma joined_artifact db log row a : logs db log → row ∈ joined db → row.2 = Some a → Name (at_Artifact a) ≠ "".
Proof.
  intros Hl (r & -> & Hr)%list_elem_of_fmap. simpl. intros (id & Hid & Ha)%bind_Some.
  apply head_filter_elem in Ha as [_ Ha]. pose proof (lg_artifacts _ _ Hl) as H. rewrite Forall_forall in H. by apply H.
Qed.

Lemma Exists_filter_length {A} (P : A → Prop) `{∀ x, base.Decision (P x)} l : Exists P l ↔ (0 < length (filter P l))%nat.
Proof.
  induction l as [|x l IH]; [split; [by inversion 1|simpl; lia]|].
  rewrite Exists_cons, filter_cons, IH. case_decide; simpl; [split; [lia|by left]|naive_solver].
Qed.

(** A selection of the rows, newest first, is the same selection of the log. *)
Lemma select_rows (P : DecisionRow * option ArtifactRow → Prop) (Q : Decision → Prop)
    `{∀ row, base.Decision (P row), ∀ d, base.Decision (Q d)} db log : logs db log →
  (∀ row d, row ∈ joined db → scanListedDecision row = Ok d → P row ↔ Q d) →
  Forall2 (λ row d, scanListedDecision row = Ok d) (sort_by latest (filter P (joined db))) (filter Q log).
Proof.
  intros Hl HPQ. rewrite sort_by_reverse; last first.
  { apply StronglySorted_filter. unfold joined. eapply StronglySorted_fmap; [|exact (lg_times _ _ Hl)].
    intros r r' Hr. unfold latest. simpl. by apply Z.ltb_lt. }
  pose proof (Forall2_reverse _ _ _ (lg_rows _ _ Hl)) as Hr. rewrite reverse_involutive in Hr. rewrite <-filter_reverse.
  assert (Hin : Forall (λ row, row ∈ joined db) (reverse (joined db))).
  { apply Forall_forall. intros row. by rewrite elem_of_reverse. }
  clear Hl. induction Hr as [|row d rows ds Hrow _ IH]; [constructor|]. apply Forall_cons in Hin as [Hi Hin]. rewrite !filter_cons.
  specialize (HPQ row d Hi Hrow). specialize (IH Hin). repeat case_decide; [by constructor|tauto|tauto|done].
Qed.
End repository.

(** ** Properties *)

(** C10: The decision repository keeps a log of decisions.  Whatever tables stand for
    a log of decisions, newest first: a decision is recorded exactly when its texts
    fit the columns and its tenant and policies exist, it is then the newest of the
    log with the identifier and time returned, and a refused one leaves the tables
    as they were; [GetByArtifact] answers the newest decision of the tenant about the
    artifact, [ListByTenant] the page of the tenant's decisions that match the
    search, newest first, and [HasRecentAllow] whether the tenant allowed some
    version of the package within the hour. *)
Theorem decision_store_keeps_the_log uuid pg_text pg_time `{!Inj (=) (=) uuid} db log :
  logs uuid db log →
  (∀ d, decision_utf8 d → Forall (λ r, dr_EvaluatedAt r < ev_now db) (decision_rows db) →
     let '((d', e), db') := DecisionRepository_Record uuid pg_text pg_time d db in
     (e = None ↔ accepted d db) ∧
     (e = None → d' = set_returned (dec_ID d') (ev_now db) d ∧
                 logs uuid db' (logged_decision pg_time (dec_ID d') (ev_now db) d :: log)) ∧
     (e ≠ None → db' = db)) ∧
  (∀ t a, Forall (λ s, text_ok s = true) [Ecosystem a; Namespace a; Name a; Version a; Digest a] →
     GetByArtifact pg_text t a db =
       match filter (about t a) log with d :: _ => Ok d | [] => Err (sentinel_error ErrArtifactNotFound) end) ∧
  (∀ t limit offset search, 0 ≤ limit → 0 ≤ offset → text_ok search = true →
     DecisionRepository_ListByTenant pg_text t limit offset search db =
       Ok (take (Z.to_nat limit) (drop (Z.to_nat offset) (filter (listed t search) log)))) ∧
  (∀ t e ns n, Forall (λ s, text_ok s = true) [e; ns; n] →
     DecisionRepository_HasRecentAllow pg_text t e ns n db =
       Ok (bool_decide (Exists (allows_recently t e ns n (ev_now db)) log))).
Proof.
  intros Hl. split; [|split; [|split]].
  - intros d Hu Hnow. destruct (DecisionRepository_Record _ _ _ d db) as [[d' e] db'] eqn:E.
    pose proof (record_accepted uuid pg_text pg_time d db log Hl Hu) as Ha. rewrite E in Ha. split; [exact Ha|]. split.
    + intros ->. by apply (record_logs uuid pg_text pg_time d d' db db' log).
    + intros He. destruct e; [by apply record_refused in E|done].
  - intros t a Ha. unfold GetByArtifact. apply text_params_None in Ha as ->.
    pose proof (select_rows uuid (λ row, dr_TenantID row.1 = t ∧ at_Artifact <$> row.2 = Some a) (about t a) db log Hl) as H.
    destruct H as [|row d rows ds Hrow _]; [|done|exact Hrow].
    intros row d Hi (E1 & E2 & _)%scan_fields. unfold about. rewrite E1, E2. unfold row_artifact.
    destruct row.2 as [r|] eqn:Er; simpl; [pose proof (joined_artifact uuid db log row r Hl Hi Er)|]; naive_solver.
  - intros t limit offset search H1 H2 Hs. unfold DecisionRepository_ListByTenant.
    assert (text_params [search] = None) as -> by (by apply text_params_None; repeat constructor).
    destruct (pg_page _ _ _) as [e|l] eqn:E.
    { unfold pg_page in E. rewrite !(proj2 (Z.ltb_ge _ _)) in E; done. }
    apply pg_page_ok in E as (_ & _ & ->). apply map_result_Forall2, Forall2_take, Forall2_drop.
    apply (select_rows uuid _ _ db log Hl).
    intros row d Hi (E1 & E2 & _)%scan_fields. unfold listed. by rewrite E1, E2.
  - intros t e ns n Ht. unfold DecisionRepository_HasRecentAllow. apply text_params_None in Ht as ->. f_equal.
    apply bool_decide_ext. rewrite !Exists_filter_length.
    assert (Forall2 (λ row d, scanListedDecision row = Ok d)
      (sort_by latest (filter (recent_allow t e ns n (ev_now db)) (joined db)))
      (filter (allows_recently t e ns n (ev_now db)) log)) as H%Forall2_length.
    { apply (select_rows uuid _ _ db log Hl). intros row d Hi (E1 & E2 & E3 & E4)%scan_fields.
      unfold recent_allow, allows_recently. rewrite E1, E2, E3, E4. unfold row_artifact.
      destruct row.2 as [r|] eqn:Er; simpl; [pose proof (joined_artifact uuid db log row r Hl Hi Er)|]; naive_solver. }
    by rewrite <-H, sort_by_perm.
Qed.

(** A denial of a scoped package is recorded with its reason, and then found. *)
Definition sample_decision : Decision :=
  mkDecision "" "t1" (mkArtifact "npm" "@scope" "left-pad" "1.3.0" "") "deny" "p1" "hash"
    (Some (mkDependencyContext "direct" ["prod"] [] "h")) "too young" [mkReason "p1" "min age" "policy_match" "deny" "too young"]
    [] None zero_time.
Definition sample_evidence : EvidenceDB := empty_evidence {["t1"]} {["p1"]} 1000.

Definition row_id (n : nat) : string := itoa (Z.of_nat n).
#[local] Instance row_id_inj : Inj (=) (=) row_id.
Proof. intros i j E%itoa_inj. lia. Qed.

Lemma decision_store_keeps_the_log_witness :
  let '((d, e), db) := DecisionRepository_Record row_id (λ _, new_error "pg") id sample_decision sample_evidence in
  e = None ∧ GetByArtifact (λ _, new_error "pg") "t1" (dec_Artifact sample_decision) db =
    Ok (logged_decision id (dec_ID d) 1000 sample_decision).
Proof.
  pose proof (decision_store_keeps_the_log row_id (λ _, new_error "pg") id sample_evidence [] (logs_empty _ _ _ _)) as H.
  destruct H as [H _]. specialize (H sample_decision).
  destruct (DecisionRepository_Record _ _ _ _ _) as [[d e] db] eqn:E.
  destruct H as (Ha & Hlog & _); [by repeat split; apply Forall_by_bool|constructor|].
  assert (e = None) as ->.
  { apply Ha. split; [right; by apply Forall_by_bool|]. split; [by apply Forall_by_bool|].
    split; [vm_compute; reflexivity|]. split; [right; vm_compute; reflexivity|]. split; [vm_compute; reflexivity|].
    constructor; [|constructor]. split; [by apply Forall_by_bool|right; vm_compute; reflexivity]. }
  split; [reflexivity|]. destruct (Hlog eq_refl) as [_ Hl]. vm_compute in E. injection E as <- <-. vm_compute. reflexivity.
Defined.
