(* ===== verification/PolicyStore.v ===== *)
(** * The policy repository

    [internal/infra/postgres/policy.go], [policy_versions.go], [policy_scan.go]
    and [policy_revision.go] over the tables of [AdminTables]. *)

From S2P Require Import Prelude GoStrings Json Artifact Dependency Upstream PolicyConfig Policy Catalog PolicyHash AdminTables.
#[local] Open Scope list_scope.

(** ** Definitions *)

Definition retainedPolicyVersionCount : Z := MaxRetainedPolicyVersions.

Definition policyConstraintErrors : gmap string sentinel := {[ "policies_tenant_id_name_key" := ErrPolicyNameConflict ]}.

(** *** Rows *)

Definition decodePolicyTarget (data : option PolicyTarget) : result (option PolicyTarget) :=
  match data with
  | None => Ok None
  | Some t => match target_Validate (Some t) with
              | Err e => Err e
              | Ok t => Ok (target_Normalize t)
              end
  end.

Definition scanPolicy (id : string) (r : PolicyRow) : result Policy :=
  let b := pr_Body r in
  config ← wrap_result "decoding policy config: " (bd_Config b);
  target ← wrap_result "decoding policy target: " (decodePolicyTarget (bd_Target b));
  Ok (mkPolicy id (pr_TenantID r) (default "" (bd_UpstreamID b)) (bd_Name b) (bd_Type b) (bd_Action b)
        (bd_SchemaVersion b) config target (bd_Priority b) (bd_Enabled b) (pr_Version r)
        (pr_CreatedAt r) (pr_UpdatedAt r)).

Definition scanPolicyVersion (k : string * Z) (r : VersionRow) : result PolicyVersion :=
  let b := vr_Body r in
  config ← wrap_result "decoding policy version config: " (bd_Config b);
  target ← wrap_result "decoding policy version target: " (decodePolicyTarget (bd_Target b));
  Ok (mkPolicyVersion k.1 k.2 (default "" (bd_UpstreamID b)) (bd_Name b) (bd_Type b) (bd_Action b)
        (bd_SchemaVersion b) config target (bd_Priority b) (bd_Enabled b) (vr_CreatedAt r)).

(** The columns that are written for a policy. *)
Definition policy_columns (p : Policy) : PolicyBody :=
  mkPolicyBody (nullableString (pol_UpstreamID p)) (pol_Name p) (pol_Type p) (pol_Action p)
    (pol_SchemaVersion p) (Ok (pol_Config p)) (pol_Target p) (pol_Priority p) (pol_Enabled p).

(** [json.Marshal] of the config, which fails on a number JSON does not have. *)
Definition marshal_config (prefix : string) (c : option PolicyConfig) : result string :=
  wrap_result prefix (json_Marshal (from_option config_json JNull c)).

(** *** policy_versions.go: pruning *)

(** The place of a version in the order of versions, newest first. *)
Definition version_rank (id : string) (v : Z) (vs : gmap (string * Z) VersionRow) : Z :=
  Z.of_nat (size (filter (λ kv, kv.1.1 = id ∧ v < kv.1.2) vs)).

Definition prunePolicyVersions (id : string) (vs : gmap (string * Z) VersionRow) : gmap (string * Z) VersionRow :=
  filter (λ kv, kv.1.1 = id → version_rank id kv.1.2 vs < retainedPolicyVersionCount) vs.

Section repository.
Context (uuid : nat → string) (pg_text : PgError → error).

(** *** policy.go *)

Definition GetByID (tenantID id : string) (db : AdminDB) : result Policy :=
  match policies db !! id with
  | Some r => if decide (pr_TenantID r = tenantID)
              then wrap_result "querying policy by id: " (scanPolicy id r)
              else Err (sentinel_error ErrPolicyNotFound)
  | None => Err (sentinel_error ErrPolicyNotFound)
  end.

Definition by_priority (a b : string * PolicyRow) : bool := bd_Priority (pr_Body a.2) <? bd_Priority (pr_Body b.2).

Definition ListByTenant (tenantID : string) (db : AdminDB) : result (list Policy) :=
  map_result (λ kv, scanPolicy kv.1 kv.2)
    (sort_by by_priority (filter (λ kv, pr_TenantID kv.2 = tenantID) (map_to_list (policies db)))).

(** What [Create] and [Update] do before they reach the database. *)
Definition prepare (p : Policy) : result Policy :=
  p ← (if decide (pol_SchemaVersion p = 0) then
         v ← normalizeSchemaVersion (pol_Type p) (pol_SchemaVersion p);
         Ok (set_SchemaVersion v p)
       else Ok p);
  p ← ValidatePolicy p;
  _ ← marshal_config "marshalling policy config: " (pol_Config p);
  Ok p.

(** The version row of a write and the pruning that follows it. *)
Definition record_version (id : string) (v : Z) (b : PolicyBody) (db : AdminDB) : gmap (string * Z) VersionRow :=
  prunePolicyVersions id (<[(id, v) := mkVersionRow b (db_now db)]> (versions db)).

Definition set_row_fields (id : string) (v : Z) (created updated : time) (p : Policy) : Policy :=
  mkPolicy id (pol_TenantID p) (pol_UpstreamID p) (pol_Name p) (pol_Type p) (pol_Action p)
    (pol_SchemaVersion p) (pol_Config p) (pol_Target p) (pol_Priority p) (pol_Enabled p) v created updated.

(** What stops the row of a version. *)
Definition version_constraint (id : string) (v : Z) (db : AdminDB) : option PgError :=
  if decide (versions db !! (id, v) = None) then None
  else Some (mkPgError unique_violation "policy_versions_policy_id_version_key").

Definition constraint_error (what : string) (constraints : gmap string sentinel) (e : PgError) : error :=
  match mapConstraintError e constraints with
  | Some s => sentinel_error s
  | None => wrap_error what (pg_text e)
  end.

Definition Create (p : Policy) (db : AdminDB) : result Policy * AdminDB :=
  match prepare p with
  | Err e => (Err e, db)
  | Ok p =>
      let id := uuid (db_serial db) in
      let b := policy_columns p in
      match policy_constraint db id (pol_TenantID p) b with
      | Some e => (Err (constraint_error "inserting policy: " policyConstraintErrors e), db)
      | None =>
          match version_constraint id 1 db with
          | Some e => (Err (wrap_error "inserting initial policy version: " (pg_text e)), db)
          | None =>
              (Ok (set_row_fields id 1 (db_now db) (db_now db) p),
               next_serial (set_policies (<[id := mkPolicyRow (pol_TenantID p) b 1 (db_now db) (db_now db)]> (policies db))
                 (record_version id 1 b db) db))
          end
      end
  end.

(** [UPDATE policies SET ... version = version + 1 ... RETURNING]: the new row. *)
Definition updated_row (r : PolicyRow) (b : PolicyBody) (now : time) : PolicyRow :=
  mkPolicyRow (pr_TenantID r) b (pr_Version r + 1) (pr_CreatedAt r) now.

Definition tenant_policy (tenantID id : string) (db : AdminDB) : option PolicyRow :=
  match policies db !! id with
  | Some r => if decide (pr_TenantID r = tenantID) then Some r else None
  | None => None
  end.

Definition write_version (id : string) (r : PolicyRow) (b : PolicyBody) (db : AdminDB) : AdminDB :=
  let r' := updated_row r b (db_now db) in
  set_policies (<[id := r']> (policies db)) (record_version id (pr_Version r') b db) db.

Definition Update (p : Policy) (db : AdminDB) : result Policy * AdminDB :=
  match prepare p with
  | Err e => (Err e, db)
  | Ok p =>
      let b := policy_columns p in
      match tenant_policy (pol_TenantID p) (pol_ID p) db with
      | None => (Err (sentinel_error ErrPolicyNotFound), db)
      | Some r =>
          match policy_constraint db (pol_ID p) (pol_TenantID p) b with
          | Some e => (Err (constraint_error "updating policy: " policyConstraintErrors e), db)
          | None =>
              match version_constraint (pol_ID p) (pr_Version r + 1) db with
              | Some e => (Err (wrap_error "inserting policy version: " (pg_text e)), db)
              | None => (Ok (set_row_fields (pol_ID p) (pr_Version r + 1) (pol_CreatedAt p) (db_now db) p),
                         write_version (pol_ID p) r b db)
              end
          end
      end
  end.

(** References of a tenant's records are cleared. *)
Definition clear_references (tenantID id : string) (m : gmap string (string * option string)) :
    gmap string (string * option string) :=
  (λ r, if decide (r.1 = tenantID ∧ r.2 = Some id) then (r.1, None) else r) <$> m.

(** Those of reasons whose evaluation is the tenant's. *)
Definition clear_reasons (tenantID id : string) (db : AdminDB) : gmap string (string * option string) :=
  (λ r, if decide (r.2 = Some id ∧ (fst <$> evaluations db !! r.1) = Some tenantID) then (r.1, None) else r)
    <$> evaluation_reasons db.

Definition forceDelete (tenantID id : string) (db : AdminDB) : result () * AdminDB :=
  let db' := set_references (clear_references tenantID id (evaluations db))
               (clear_references tenantID id (decisions db)) (clear_reasons tenantID id db) db in
  match tenant_policy tenantID id db' with
  | None => (Err (sentinel_error ErrPolicyNotFound), db)
  | Some _ =>
      match policy_referenced db' id with
      | Some e => (Err (wrap_error "force deleting policy: " (pg_text e)), db)
      | None => (Ok (), without_policy id db')
      end
  end.

Definition Delete (tenantID id : string) (force : bool) (db : AdminDB) : result () * AdminDB :=
  if force then forceDelete tenantID id db
  else
    match tenant_policy tenantID id db with
    | None => (Err (sentinel_error ErrPolicyNotFound), db)
    | Some _ =>
        match policy_referenced db id with
        | Some e => (Err (if decide (pg_Code e = foreign_key_violation) then sentinel_error ErrPolicyInUse
                          else wrap_error "deleting policy: " (pg_text e)), db)
        | None => (Ok (), without_policy id db)
        end
    end.

(** *** policy_versions.go *)

Definition newest_first (a b : string * Z * VersionRow) : bool := b.1.2 <? a.1.2.

Definition versions_of (id : string) (db : AdminDB) : list (string * Z * VersionRow) :=
  sort_by newest_first (filter (λ kv, kv.1.1 = id) (map_to_list (versions db))).

Definition ListVersions (tenantID policyID : string) (limit : Z) (db : AdminDB) : result (list PolicyVersion) :=
  let limit := if decide (limit <= 0) then retainedPolicyVersionCount else limit in
  let rows := match tenant_policy tenantID policyID db with
              | Some _ => take (Z.to_nat limit) (versions_of policyID db)
              | None => []
              end in
  vs ← map_result (λ kv, scanPolicyVersion kv.1 kv.2) rows;
  if decide (vs = []) then
    _ ← GetByID tenantID policyID db;
    Ok vs
  else Ok vs.

Definition loadRollbackPolicyVersion (tenantID policyID : string) (version : Z) (db : AdminDB) : result PolicyVersion :=
  match tenant_policy tenantID policyID db, versions db !! (policyID, version) with
  | Some _, Some r => wrap_result "loading policy version: " (scanPolicyVersion (policyID, version) r)
  | _, _ =>
      _ ← GetByID tenantID policyID db;
      Err (sentinel_error ErrPolicyVersionNotFound)
  end.

Definition rollbackPolicy (tenantID policyID : string) (target : PolicyVersion) : Policy :=
  mkPolicy policyID tenantID (ver_UpstreamID target) (ver_Name target) (ver_Type target) (ver_Action target)
    (ver_SchemaVersion target) (ver_Config target) (ver_Target target) (ver_Priority target) (ver_Enabled target)
    0 zero_time zero_time.

(** [ValidatePolicy] writes through the pointers the version and the policy
    share, so what is marshalled is the validated configuration. *)
Definition RollbackToVersion (tenantID policyID : string) (version : Z) (db : AdminDB) : result Policy * AdminDB :=
  match (target ← loadRollbackPolicyVersion tenantID policyID version db;
         policyDef ← ValidatePolicy (rollbackPolicy tenantID policyID target);
         _ ← marshal_config "marshalling rolled back config: " (pol_Config policyDef);
         Ok policyDef) with
  | Err e => (Err e, db)
  | Ok policyDef =>
      let b := policy_columns policyDef in
      match tenant_policy tenantID policyID db with
      | None => (Err (sentinel_error ErrPolicyNotFound), db)
      | Some r =>
          match policy_constraint db policyID tenantID b with
          | Some e => (Err (wrap_error "updating policy during rollback: " (pg_text e)), db)
          | None =>
              match version_constraint policyID (pr_Version r + 1) db with
              | Some e => (Err (wrap_error "recording rollback policy version: " (pg_text e)), db)
              | None => (Ok (set_row_fields policyID (pr_Version r + 1) (pr_CreatedAt r) (db_now db) policyDef),
                         write_version policyID r b db)
              end
          end
      end
  end.

(** *** policy_revision.go *)

Definition last_generation (tenantID : string) (l : list RevisionRow) : Z :=
  foldr (λ r n, if decide (rv_TenantID r = tenantID) then Z.max (rv_Generation r) n else n) 0 l.

Definition CreateRevision (tenantID policyHash : string) (db : AdminDB) : result () * AdminDB :=
  if decide (tenantID ∈ tenants db) then
    (Ok (), set_revisions (revisions db ++ [mkRevisionRow tenantID (last_generation tenantID (revisions db) + 1) policyHash]) db)
  else (Err (wrap_error "inserting tenant policy revision: "
               (pg_text (mkPgError foreign_key_violation "tenant_policy_revisions_tenant_id_fkey"))), db).
End repository.

(** ** The window of retained versions *)

Definition window (vs : gmap (string * Z) VersionRow) (id : string) (lo hi : Z) : Prop :=
  ∀ v, is_Some (vs !! (id, v)) ↔ lo <= v <= hi.

Lemma version_rank_window vs id lo hi v :
  window vs id lo hi → lo <= v <= hi → version_rank id v vs = hi - v.
Proof.
  intros Hw Hv. unfold version_rank.
  assert (dom (filter (λ kv : string * Z * VersionRow, kv.1.1 = id ∧ v < kv.1.2) vs) =
          list_to_set (pair id <$> seqZ (v + 1) (hi - v))) as Hd.
  { apply set_eq. intros [i x]. rewrite elem_of_list_to_set, list_elem_of_fmap, elem_of_dom. split.
    - intros [r [Hr [Hi Hx]]%map_lookup_filter_Some]. simpl in *. subst i. exists x. split; [done|].
      rewrite elem_of_seqZ. destruct (proj1 (Hw x)); [eauto|]. lia.
    - intros (y & [= -> ->] & Hy%elem_of_seqZ). destruct (proj2 (Hw y)) as [r Hr]; [lia|].
      exists r. apply map_lookup_filter_Some. simpl. split; [done|]. split; [done|lia]. }
  rewrite <-size_dom, Hd, size_list_to_set.
  - rewrite length_fmap, length_seqZ. lia.
  - apply NoDup_fmap_2; [intros x y; congruence|apply NoDup_seqZ].
Qed.

Lemma prune_lookup id vs i v :
  prunePolicyVersions id vs !! (i, v) =
  if decide (i = id → version_rank id v vs < retainedPolicyVersionCount) then vs !! (i, v) else None.
Proof.
  unfold prunePolicyVersions. rewrite map_lookup_filter. case_decide as H.
  - destruct (vs !! (i, v)) eqn:E; [|done]. simpl. rewrite option_guard_True; [done|exact H].
  - destruct (vs !! (i, v)) eqn:E; [|done]. simpl. rewrite option_guard_False; [done|exact H].
Qed.

(** Writing the next version of a window and pruning keeps the three newest. *)
Lemma record_version_window id b db lo hi :
  window (versions db) id lo hi → lo <= hi + 1 →
  window (record_version id (hi + 1) b db) id (Z.max lo (hi - 1)) (hi + 1).
Proof.
  intros Hw Hlo v. unfold record_version. set (vs := <[_ := _]> _).
  assert (Hw' : window vs id lo (hi + 1)).
  { intros x. unfold vs. destruct (decide (x = hi + 1)) as [->|Hx].
    - rewrite lookup_insert_eq. split; [lia|eauto].
    - rewrite lookup_insert_ne by congruence. rewrite (Hw x). lia. }
  rewrite prune_lookup. case_decide as Hr.
  - rewrite (Hw' v). split; [|lia]. intros Hv. specialize (Hr eq_refl).
    rewrite (version_rank_window _ _ _ _ _ Hw' Hv) in Hr. unfold retainedPolicyVersionCount, MaxRetainedPolicyVersions in Hr. lia.
  - split; [by intros []|]. intros Hv. destruct Hr. intros _.
    rewrite (version_rank_window _ _ lo (hi + 1)); [|done|lia].
    unfold retainedPolicyVersionCount, MaxRetainedPolicyVersions. lia.
Qed.

Lemma record_version_new id b db lo hi :
  window (versions db) id lo hi → lo <= hi + 1 →
  record_version id (hi + 1) b db !! (id, hi + 1) = Some (mkVersionRow b (db_now db)).
Proof.
  intros Hw Hlo. pose proof (record_version_window id b db lo hi Hw Hlo (hi + 1)) as H.
  unfold record_version in *. rewrite prune_lookup in *. case_decide; [by rewrite lookup_insert_eq|].
  destruct (proj2 H) as [? ?]; [lia|done].
Qed.

Lemma record_version_old id v b db i x r :
  record_version id v b db !! (i, x) = Some r → (i, x) = (id, v) ∧ r = mkVersionRow b (db_now db) ∨ versions db !! (i, x) = Some r.
Proof.
  unfold record_version. rewrite prune_lookup. case_decide; [|done].
  rewrite lookup_insert_Some. intros [[<- <-]|[_ ?]]; auto.
Qed.

Lemma record_version_other id v b db i x : i ≠ id → record_version id v b db !! (i, x) = versions db !! (i, x).
Proof.
  intros Hi. unfold record_version. rewrite prune_lookup, decide_True by done. apply lookup_insert_ne. congruence.
Qed.
