(* ===== verification/UpstreamStore.v ===== *)
(** * The upstream repository

    [internal/infra/postgres/upstream.go] over the tables of [AdminTables].
    Secrets are encrypted by a codec ([SecretCodec], the [secretCodec] interface);
    a repository may have none.  Encryption is randomised: it takes the serial
    number of the statement. *)

From S2P Require Import Prelude GoStrings Artifact Dependency Upstream PolicyConfig Policy AdminTables PolicyStore.
#[local] Open Scope list_scope.

(** ** Definitions *)

Record SecretCodec : Type := mkSecretCodec {
  Encrypt : nat → string → result string;
  Decrypt : string → result string;
}.

(** What is encrypted is what is decrypted. *)
Definition codec_ok (c : SecretCodec) : Prop := ∀ n s t, Encrypt c n s = Ok t → t ≠ "" ∧ Decrypt c t = Ok s.

Definition upstreamConstraintErrors : gmap string sentinel :=
  {[ "upstreams_tenant_id_name_key" := ErrUpstreamNameConflict;
     "uq_upstreams_tenant_ecosystem_base_url" := ErrUpstreamRegistryConflict ]}.

(** Both conversions keep the strings; nil becomes the empty slice. *)
Definition UpstreamCapabilityStrings (c : option (list UpstreamCapability)) : list string := default [] c.
Definition ParseUpstreamCapabilities (values : list string) : option (list UpstreamCapability) := Some values.

Definition upstream_of (id : string) (r : UpstreamRow) (auth : option UpstreamAuth) : Upstream :=
  mkUpstream id (us_TenantID r) (us_Name r) (us_Ecosystem r) (us_BaseURL r)
    (ParseUpstreamCapabilities (us_Capabilities r)) auth (us_CreatedAt r) (us_UpdatedAt r).

Definition attachBundleAuthMetadata (id : string) (r : UpstreamRow) : Upstream :=
  if decide (us_AuthType r = "" ∨ us_AuthType r = UpstreamAuthNone) then upstream_of id r None
  else upstream_of id r (Some (mkUpstreamAuth (us_AuthType r) (default "" (us_AuthUsername r)) ""
                                 (default zero_time (us_AuthUpdatedAt r)))).

Section repository.
Context (codec : option SecretCodec) (uuid : nat → string) (pg_text : PgError → error).

(** The three columns of the credentials: type, user name and secret. *)
Definition authColumns (nonce : nat) (auth : option UpstreamAuth) : result (string * option string * option string) :=
  if negb (auth_Configured auth) then Ok (UpstreamAuthNone, None, None)
  else match codec, auth with
  | Some c, Some a =>
      encrypted ← wrap_result "encrypting upstream auth: " (Encrypt c nonce (Secret a));
      Ok (auth_Type a, if decide (auth_Type a = UpstreamAuthBasic) then Some (Username a) else None, Some encrypted)
  | _, _ => Err (sentinel_error ErrUpstreamAuthKeyUnavailable)
  end.

Definition attachAuth (id : string) (r : UpstreamRow) : result Upstream :=
  if decide (us_AuthType r = "" ∨ us_AuthType r = UpstreamAuthNone) then Ok (upstream_of id r None)
  else match codec with
  | None => Err (sentinel_error ErrUpstreamAuthKeyUnavailable)
  | Some c =>
      match us_AuthSecret r with
      | None | Some "" => Err (sentinel_suffix ErrUpstreamAuthInvalid ": stored secret is empty")
      | Some encrypted =>
          plaintext ← wrap_result "decrypting upstream auth: " (Decrypt c encrypted);
          Ok (upstream_of id r (Some (mkUpstreamAuth (us_AuthType r) (default "" (us_AuthUsername r)) plaintext
                                        (default zero_time (us_AuthUpdatedAt r)))))
      end
  end.

Definition tenant_upstream (tenantID id : string) (db : AdminDB) : option UpstreamRow :=
  match upstreams db !! id with
  | Some r => if decide (us_TenantID r = tenantID) then Some r else None
  | None => None
  end.

Definition UpstreamRepository_GetByID (tenantID id : string) (db : AdminDB) : result Upstream :=
  match tenant_upstream tenantID id db with
  | None => Err (sentinel_error ErrUpstreamNotFound)
  | Some r => attachAuth id r
  end.

(** [ORDER BY updated_at DESC, created_at DESC] *)
Definition newer (a b : string * UpstreamRow) : bool :=
  lex_less (λ a, - us_UpdatedAt a.2) Z.ltb (λ a b, - us_CreatedAt a.2 <? - us_CreatedAt b.2) a b.

Definition UpstreamRepository_GetByEcosystem (tenantID : string) (eco : EcosystemType) (db : AdminDB) : result Upstream :=
  match sort_by newer (filter (λ kv, us_TenantID kv.2 = tenantID ∧ us_Ecosystem kv.2 = eco) (map_to_list (upstreams db))) with
  | [] => Err (sentinel_error ErrUpstreamNotFound)
  | (id, r) :: _ => attachAuth id r
  end.

Definition by_creation (tenantID : string) (db : AdminDB) : list (string * UpstreamRow) :=
  sort_by (λ a b, us_CreatedAt a.2 <? us_CreatedAt b.2)
    (filter (λ kv, us_TenantID kv.2 = tenantID) (map_to_list (upstreams db))).

Definition UpstreamRepository_ListByTenant (tenantID : string) (db : AdminDB) : result (list Upstream) :=
  map_result (λ kv, attachAuth kv.1 kv.2) (by_creation tenantID db).

Definition ListBundleByTenant (tenantID : string) (db : AdminDB) : list Upstream :=
  (λ kv, attachBundleAuthMetadata kv.1 kv.2) <$> by_creation tenantID db.

(** [CASE WHEN type = 'none' THEN NULL ELSE now() END] *)
Definition auth_time (authType : string) (now : time) : option time :=
  if decide (authType = UpstreamAuthNone) then None else Some now.

(** The write of [auth_updated_at] through the auth pointer. *)
Definition stamp_auth (t : option time) (a : option UpstreamAuth) : option UpstreamAuth :=
  match t, a with
  | Some t, Some a => Some (mkUpstreamAuth (auth_Type a) (Username a) (Secret a) t)
  | _, _ => a
  end.

Definition UpstreamRepository_Create (u : Upstream) (db : AdminDB) : result Upstream * AdminDB :=
  match authColumns (db_serial db) (Auth u) with
  | Err e => (Err e, db)
  | Ok (authType, authUsername, authSecret) =>
      let id := uuid (db_serial db) in
      let now := db_now db in
      let authUpdatedAt := auth_time authType now in
      let r := mkUpstreamRow (up_TenantID u) (up_Name u) (up_Ecosystem u) (BaseURL u)
                 (UpstreamCapabilityStrings (Capabilities u)) authType authUsername authSecret authUpdatedAt now now in
      match upstream_constraint db id r with
      | Some e => (Err (constraint_error pg_text "creating upstream: " upstreamConstraintErrors e), db)
      | None =>
          (Ok (mkUpstream id (up_TenantID u) (up_Name u) (up_Ecosystem u) (BaseURL u) (Capabilities u)
                 (stamp_auth authUpdatedAt (Auth u)) now now),
           next_serial (set_upstreams (<[id := r]> (upstreams db)) db))
      end
  end.

(** The columns an update sets; the credentials are a second statement, sent
    when the update carries an auth value. *)
Definition updated_upstream (u : Upstream) (now : time) (r : UpstreamRow) : UpstreamRow :=
  mkUpstreamRow (us_TenantID r) (up_Name u) (up_Ecosystem u) (BaseURL u) (UpstreamCapabilityStrings (Capabilities u))
    (us_AuthType r) (us_AuthUsername r) (us_AuthSecret r) (us_AuthUpdatedAt r) (us_CreatedAt r) now.
Definition updated_auth (authType : string) (username secret : option string) (now : time) (r : UpstreamRow) : UpstreamRow :=
  mkUpstreamRow (us_TenantID r) (us_Name r) (us_Ecosystem r) (us_BaseURL r) (us_Capabilities r)
    authType username secret (auth_time authType now) (us_CreatedAt r) now.

Definition UpstreamRepository_Update (u : Upstream) (db : AdminDB) : result Upstream * AdminDB :=
  match tenant_upstream (up_TenantID u) (up_ID u) db with
  | None => (Err (sentinel_error ErrUpstreamNotFound), db)
  | Some r =>
      let now := db_now db in
      let r := updated_upstream u now r in
      match upstream_constraint db (up_ID u) r with
      | Some e => (Err (constraint_error pg_text "updating upstream: " upstreamConstraintErrors e), db)
      | None =>
          match Auth u with
          | None => (Ok u, set_upstreams (<[up_ID u := r]> (upstreams db)) db)
          | Some _ =>
              match authColumns (db_serial db) (Auth u) with
              | Err e => (Err e, db)
              | Ok (authType, authUsername, authSecret) =>
                  (Ok (mkUpstream (up_ID u) (up_TenantID u) (up_Name u) (up_Ecosystem u) (BaseURL u) (Capabilities u)
                         (stamp_auth (auth_time authType now) (Auth u)) (up_CreatedAt u) (up_UpdatedAt u)),
                   next_serial (set_upstreams
                     (<[up_ID u := updated_auth authType authUsername authSecret now r]> (upstreams db)) db))
              end
          end
      end
  end.

Definition UpstreamRepository_Delete (tenantID id : string) (db : AdminDB) : result () * AdminDB :=
  match tenant_upstream tenantID id db with
  | None => (Err (sentinel_error ErrUpstreamNotFound), db)
  | Some _ =>
      match upstream_referenced db id with
      | Some e => (Err (if decide (pg_Code e = foreign_key_violation ∧ pg_ConstraintName e = "fk_policies_upstream_id")
                        then sentinel_error ErrUpstreamInUse
                        else wrap_error "deleting upstream: " (pg_text e)), db)
      | None => (Ok (), set_upstreams (delete id (upstreams db)) db)
      end
  end.

(** [wrap] is the caller's function on the plain secret; [None] when it is nil. *)
Definition RewrapUpstreamAuthSecret (tenantID upstreamID : string) (wrap : option (string → result string))
    (db : AdminDB) : result string :=
  match wrap, codec with
  | None, _ => Err (new_error "upstream auth secret wrapper is not configured")
  | _, None => Err (sentinel_error ErrUpstreamAuthKeyUnavailable)
  | Some wrap, Some c =>
      match tenant_upstream tenantID upstreamID db with
      | None => Err (sentinel_error ErrUpstreamNotFound)
      | Some r =>
          if decide (us_AuthType r = UpstreamAuthNone) then Err (sentinel_error ErrUpstreamNotFound)
          else match us_AuthSecret r with
          | None | Some "" => Err (sentinel_suffix ErrUpstreamAuthInvalid ": stored secret is empty")
          | Some encrypted =>
              plaintext ← wrap_result "decrypting upstream auth for bundle: " (Decrypt c encrypted);
              wrap_result "rewrapping upstream auth for bundle: " (wrap plaintext)
          end
      end
  end.
End repository.
