(* ===== verification/Secrets.v ===== *)
(** * Secrets at rest and in transit

    [internal/infra/secrets]: the codec that encrypts upstream credentials in the
    database (AES-256-GCM in a JSON envelope, [codec.go]), and the hybrid envelopes
    in which a bundle carries them to one proxy ([hybrid.go]).  The primitives of
    the [crypto] packages and of [hkdf] are the operations of [Crypto], what is
    documented of them the laws of [CryptoLaws]; byte strings and keys are
    [string]s.  Randomness is indexed: the [i]-th read of run [n]. *)

From stdpp Require Import pretty.
From S2P Require Import Prelude GoStrings Json JsonDecode JsonParse Base64 Artifact Dependency Upstream PolicyConfig Policy.
From S2P Require Import AdminTables PolicyStore UpstreamStore.
#[local] Open Scope list_scope.

(** ** Definitions *)

(** The curves of [crypto/elliptic]. *)
Inductive EC : Set := P224 | P256 | P384 | P521 | OtherCurve.
#[export] Instance EC_eq_dec : EqDecision EC.
Proof. solve_decision. Defined.

(** The dynamic type of a key: one the package handles, or another named [ty]. *)
Inductive PublicKey : Type :=
| RSAPublicKey (k : string) | ECDSAPublicKey (c : EC) (k : string) | OtherPublicKey (ty : string).
Inductive PrivateKey : Type :=
| RSAPrivateKey (k : string) | ECDSAPrivateKey (c : EC) (k : string) | OtherPrivateKey (ty : string).

Class Crypto : Type := {
  rand_Read : nat → nat → nat → result string;
  gcm_Seal : string → string → string → string;
  gcm_Open : string → string → string → result string;
  rsa_Public : string → string;
  EncryptOAEP : nat → nat → string → string → string → result string;
  DecryptOAEP : string → string → string → result string;
  ecdsa_Public : EC → string → string;
  public_ECDH : EC → string → result string;
  private_ECDH : EC → string → result string;
  GenerateKey : EC → nat → nat → result string;
  ecdh_PublicKey : EC → string → string;
  NewPublicKey : EC → string → result string;
  ECDH : EC → string → string → result string;
  hkdf_Read : nat → string → string → result string;
  json_syntax_error : string → error;
}.

(** Reads have the length asked for, opening undoes sealing and unwrapping undoes
    wrapping, key agreement is symmetric, and encodings of keys parse. *)
Class CryptoLaws `{!Crypto} : Prop := {
  rand_length n i len s : rand_Read n i len = Ok s → String.length s = len;
  hkdf_length len secret info s : hkdf_Read len secret info = Ok s → String.length s = len;
  gcm_opens k n p : String.length k = 32%nat → String.length n = 12%nat → gcm_Open k n (gcm_Seal k n p) = Ok p;
  gcm_tagged k n p : gcm_Seal k n p ≠ "";
  oaep_opens n i k m l c : EncryptOAEP n i (rsa_Public k) m l = Ok c → c ≠ "" ∧ DecryptOAEP k c l = Ok m;
  ecdh_convert c k p : public_ECDH c (ecdsa_Public c k) = Ok p →
    ∃ k', private_ECDH c k = Ok k' ∧ p = ecdh_PublicKey c k';
  ecdh_parse c n i e : GenerateKey c n i = Ok e →
    ecdh_PublicKey c e ≠ "" ∧ NewPublicKey c (ecdh_PublicKey c e) = Ok (ecdh_PublicKey c e);
  ecdh_comm c a b : ECDH c a (ecdh_PublicKey c b) = ECDH c b (ecdh_PublicKey c a);
}.

Definition gcm_nonce_size : nat := 12.
Definition aes256KeySize : nat := 32.

(** The run-time panic of [Open] for a nonce of another size, as a value. *)
Definition gcm_nonce_panic : error := new_error "crypto/cipher: incorrect nonce length given to GCM".

Section secrets.
Context `{!Crypto}.

(** [aead.Open], with the caller's prefix for its error: a panic is not wrapped. *)
Definition Open (prefix key nonce ciphertext : string) : result string :=
  if decide (String.length nonce = gcm_nonce_size) then wrap_result prefix (gcm_Open key nonce ciphertext)
  else Err gcm_nonce_panic.

(** *** codec.go *)

Record envelope : Type := mkEnvelope { env_Version : Z; env_Nonce : string; env_Ciphertext : string }.

Definition zero_envelope : envelope := mkEnvelope 0 "" "".
Definition envelopeVersion : Z := 1.

Definition envelope_json (e : envelope) : json :=
  JObject (field "version" (JInt (env_Version e)) ++ field "nonce" (JString (env_Nonce e)) ++
           field "ciphertext" (JString (env_Ciphertext e))).

Definition envelope_fields : fields envelope :=
  [("version", λ v e, version ← dec_int (into_field "envelope" "version") v (env_Version e);
                      Ok (mkEnvelope version (env_Nonce e) (env_Ciphertext e)));
   ("nonce", λ v e, nonce ← dec_string (into_field "envelope" "nonce") "string" v (env_Nonce e);
                    Ok (mkEnvelope (env_Version e) nonce (env_Ciphertext e)));
   ("ciphertext", λ v e, ciphertext ← dec_string (into_field "envelope" "ciphertext") "string" v (env_Ciphertext e);
                         Ok (mkEnvelope (env_Version e) (env_Nonce e) ciphertext))].

Record AESGCMCodec : Type := mkAESGCMCodec { aead_key : string }.

Definition NewAESGCMCodec (key : string) : result AESGCMCodec :=
  if decide (String.length key = aes256KeySize) then Ok (mkAESGCMCodec key)
  else Err (new_error ("secret key must be " +:+ itoa (Z.of_nat aes256KeySize) +:+ " bytes")).

Definition NewAESGCMCodecFromBase64 (encoded : string) : result AESGCMCodec :=
  key ← wrap_result "decoding secret key: " (b64_DecodeString encoded); NewAESGCMCodec key.

Definition codec_missing : error := new_error "secret codec is not configured".

(** [None] is a nil codec. *)
Definition AESGCMCodec_Encrypt (c : option AESGCMCodec) (run : nat) (plaintext : string) : result string :=
  match c with
  | None => Err codec_missing
  | Some c =>
      nonce ← wrap_result "generating secret nonce: " (rand_Read run 0 gcm_nonce_size);
      let ciphertext := gcm_Seal (aead_key c) nonce plaintext in
      wrap_result "marshalling secret envelope: "
        (json_Marshal (envelope_json (mkEnvelope envelopeVersion (b64_encode nonce) (b64_encode ciphertext))))
  end.

Definition AESGCMCodec_Decrypt (c : option AESGCMCodec) (payload : string) : result string :=
  match c with
  | None => Err codec_missing
  | Some c =>
      env ← wrap_result "unmarshalling secret envelope: "
        (json_Unmarshal json_syntax_error "secrets.envelope" envelope_fields payload zero_envelope);
      if decide (env_Version env ≠ envelopeVersion) then
        Err (new_error ("unsupported secret envelope version " +:+ itoa (env_Version env)))
      else
        nonce ← wrap_result "decoding secret nonce: " (b64_DecodeString (env_Nonce env));
        ciphertext ← wrap_result "decoding secret ciphertext: " (b64_DecodeString (env_Ciphertext env));
        Open "decrypting secret: " (aead_key c) nonce ciphertext
  end.

(** The codec of an upstream repository. *)
Definition secret_codec (c : AESGCMCodec) : SecretCodec :=
  mkSecretCodec (AESGCMCodec_Encrypt (Some c)) (AESGCMCodec_Decrypt (Some c)).

(** *** hybrid.go *)

Definition HybridEnvelopeVersion : Z := 2.
Definition AlgECIESP256AES256GCM : string := "ecies-p256-aes256gcm".
Definition AlgECIESP384AES256GCM : string := "ecies-p384-aes256gcm".
Definition AlgECIESP521AES256GCM : string := "ecies-p521-aes256gcm".
Definition AlgRSAOAEPAES256GCM : string := "rsa-oaep-aes256gcm".
Definition hybridHKDFInfo : string := "dependency-firewall bundle upstream auth v2".

Record HybridEnvelope : Type := mkHybridEnvelope {
  he_Version : Z;
  he_Alg : string;
  EphemeralPub : string;
  EncryptedKey : string;
  he_Nonce : string;
  he_Ciphertext : string;
}.

Definition zero_hybrid : HybridEnvelope := mkHybridEnvelope 0 "" "" "" "" "".

Definition hybrid_json (e : HybridEnvelope) : json :=
  JObject (field "version" (JInt (he_Version e)) ++ field "alg" (JString (he_Alg e)) ++
    omit_string "ephemeral_pub" (EphemeralPub e) ++ omit_string "encrypted_key" (EncryptedKey e) ++
    field "nonce" (JString (he_Nonce e)) ++ field "ciphertext" (JString (he_Ciphertext e))).

Definition hybrid_string (name : string) (get : HybridEnvelope → string) (set : string → HybridEnvelope → HybridEnvelope)
    : string * (json → HybridEnvelope → result HybridEnvelope) :=
  (name, λ v e, s ← dec_string (into_field "HybridEnvelope" name) "string" v (get e); Ok (set s e)).

Definition hybrid_fields : fields HybridEnvelope :=
  [("version", λ v e, version ← dec_int (into_field "HybridEnvelope" "version") v (he_Version e);
     Ok (mkHybridEnvelope version (he_Alg e) (EphemeralPub e) (EncryptedKey e) (he_Nonce e) (he_Ciphertext e)));
   hybrid_string "alg" he_Alg
     (λ s e, mkHybridEnvelope (he_Version e) s (EphemeralPub e) (EncryptedKey e) (he_Nonce e) (he_Ciphertext e));
   hybrid_string "ephemeral_pub" EphemeralPub
     (λ s e, mkHybridEnvelope (he_Version e) (he_Alg e) s (EncryptedKey e) (he_Nonce e) (he_Ciphertext e));
   hybrid_string "encrypted_key" EncryptedKey
     (λ s e, mkHybridEnvelope (he_Version e) (he_Alg e) (EphemeralPub e) s (he_Nonce e) (he_Ciphertext e));
   hybrid_string "nonce" he_Nonce
     (λ s e, mkHybridEnvelope (he_Version e) (he_Alg e) (EphemeralPub e) (EncryptedKey e) s (he_Ciphertext e));
   hybrid_string "ciphertext" he_Ciphertext
     (λ s e, mkHybridEnvelope (he_Version e) (he_Alg e) (EphemeralPub e) (EncryptedKey e) (he_Nonce e) s)].

Definition unmarshal_hybrid (payload : string) : result HybridEnvelope :=
  json_Unmarshal json_syntax_error "secrets.HybridEnvelope" hybrid_fields payload zero_hybrid.

Definition ec_algorithms : list string := [AlgECIESP256AES256GCM; AlgECIESP384AES256GCM; AlgECIESP521AES256GCM].

Definition isWellFormedHybridEnvelope (env : HybridEnvelope) : bool :=
  if decide (he_Alg env = "" ∨ he_Nonce env = "" ∨ he_Ciphertext env = "") then false
  else if decide (he_Alg env = AlgRSAOAEPAES256GCM) then bool_decide (EncryptedKey env ≠ "" ∧ EphemeralPub env = "")
  else if decide (he_Alg env ∈ ec_algorithms) then bool_decide (EphemeralPub env ≠ "" ∧ EncryptedKey env = "")
  else false.

Definition IsHybridEnvelope (payload : string) : bool :=
  match unmarshal_hybrid payload with
  | Err _ => false
  | Ok env => bool_decide (he_Version env = HybridEnvelopeVersion) && isWellFormedHybridEnvelope env
  end.

Definition marshalHybridEnvelope (env : HybridEnvelope) : result string :=
  wrap_result "marshalling hybrid secret envelope: " (json_Marshal (hybrid_json env)).

Definition aesGCM (key : string) : result string :=
  if decide (String.length key = aes256KeySize) then Ok key
  else Err (new_error ("hybrid secret key must be " +:+ itoa (Z.of_nat aes256KeySize) +:+ " bytes")).

(** The nonce is read [i] of the run. *)
Definition encryptAESGCM (run i : nat) (key plaintext : string) : result (string * string) :=
  aead ← aesGCM key;
  nonce ← wrap_result "generating hybrid nonce: " (rand_Read run i gcm_nonce_size);
  Ok (nonce, gcm_Seal aead nonce plaintext).

Definition decryptAESGCM (key encodedNonce encodedCiphertext : string) : result string :=
  nonce ← wrap_result "decoding hybrid nonce: " (b64_DecodeString encodedNonce);
  ciphertext ← wrap_result "decoding hybrid ciphertext: " (b64_DecodeString encodedCiphertext);
  aead ← aesGCM key;
  Open "decrypting hybrid ciphertext: " aead nonce ciphertext.

Definition deriveHybridKey (sharedSecret : string) : result string :=
  wrap_result "deriving hybrid session key: " (hkdf_Read aes256KeySize sharedSecret hybridHKDFInfo).

Definition ecdhCurveForPublicKey (c : EC) : result (EC * string) :=
  match c with
  | P256 => Ok (P256, AlgECIESP256AES256GCM)
  | P384 => Ok (P384, AlgECIESP384AES256GCM)
  | P521 => Ok (P521, AlgECIESP521AES256GCM)
  | _ => Err (new_error "unsupported ec public key curve")
  end.

Definition ecdhCurveForAlgorithm (alg : string) : result EC :=
  if decide (alg = AlgECIESP256AES256GCM) then Ok P256
  else if decide (alg = AlgECIESP384AES256GCM) then Ok P384
  else if decide (alg = AlgECIESP521AES256GCM) then Ok P521
  else Err (new_error ("unsupported ec hybrid algorithm " +:+ quote alg)).

Definition encryptRSA (run : nat) (publicKey plaintext : string) : result string :=
  sessionKey ← wrap_result "generating rsa hybrid session key: " (rand_Read run 0 aes256KeySize);
  encryptedKey ← wrap_result "encrypting rsa hybrid session key: " (EncryptOAEP run 1 publicKey sessionKey hybridHKDFInfo);
  nc ← encryptAESGCM run 2 sessionKey plaintext;
  marshalHybridEnvelope (mkHybridEnvelope HybridEnvelopeVersion AlgRSAOAEPAES256GCM "" (b64_encode encryptedKey)
                           (b64_encode nc.1) (b64_encode nc.2)).

Definition decryptRSA (privateKey : string) (env : HybridEnvelope) : result string :=
  encryptedKey ← wrap_result "decoding rsa hybrid encrypted key: " (b64_DecodeString (EncryptedKey env));
  sessionKey ← wrap_result "decrypting rsa hybrid session key: " (DecryptOAEP privateKey encryptedKey hybridHKDFInfo);
  decryptAESGCM sessionKey (he_Nonce env) (he_Ciphertext env).

Definition encryptEC (run : nat) (c : EC) (publicKey plaintext : string) : result string :=
  ca ← ecdhCurveForPublicKey c;
  let '(curve, alg) := (ca : EC * string) in
  peerPublicKey ← wrap_result "converting peer public key to ecdh: " (public_ECDH c publicKey);
  ephemeralPrivateKey ← wrap_result "generating ephemeral ecdh key: " (GenerateKey curve run 0);
  sharedSecret ← wrap_result "computing ecdh shared secret: " (ECDH curve ephemeralPrivateKey peerPublicKey);
  sessionKey ← deriveHybridKey sharedSecret;
  nc ← encryptAESGCM run 1 sessionKey plaintext;
  marshalHybridEnvelope (mkHybridEnvelope HybridEnvelopeVersion alg (b64_encode (ecdh_PublicKey curve ephemeralPrivateKey)) ""
                           (b64_encode nc.1) (b64_encode nc.2)).

Definition decryptEC (c : EC) (privateKey : string) (env : HybridEnvelope) : result string :=
  curve ← ecdhCurveForAlgorithm (he_Alg env);
  ownPrivateKey ← wrap_result "converting private key to ecdh: " (private_ECDH c privateKey);
  if decide (c ≠ curve) then Err (new_error "hybrid envelope curve does not match private key")
  else
    rawEphemeralPublicKey ← wrap_result "decoding ephemeral public key: " (b64_DecodeString (EphemeralPub env));
    ephemeralPublicKey ← wrap_result "parsing ephemeral public key: " (NewPublicKey curve rawEphemeralPublicKey);
    sharedSecret ← wrap_result "computing ecdh shared secret: " (ECDH curve ownPrivateKey ephemeralPublicKey);
    sessionKey ← deriveHybridKey sharedSecret;
    decryptAESGCM sessionKey (he_Nonce env) (he_Ciphertext env).

(** The text of [%T]. *)
Definition type_name (k : PublicKey) : string :=
  match k with RSAPublicKey _ => "*rsa.PublicKey" | ECDSAPublicKey _ _ => "*ecdsa.PublicKey" | OtherPublicKey ty => ty end.

Definition EncryptForPublicKey (run : nat) (publicKey : PublicKey) (plaintext : string) : result string :=
  match publicKey with
  | RSAPublicKey key => encryptRSA run key plaintext
  | ECDSAPublicKey c key => encryptEC run c key plaintext
  | OtherPublicKey _ => Err (new_error ("unsupported public key type " +:+ type_name publicKey))
  end.

Definition DecryptWithPrivateKey (privateKey : PrivateKey) (payload : string) : result string :=
  env ← wrap_result "unmarshalling hybrid secret envelope: " (unmarshal_hybrid payload);
  if decide (he_Version env ≠ HybridEnvelopeVersion) then
    Err (new_error ("unsupported hybrid secret envelope version " +:+ itoa (he_Version env) +:+ " (expected " +:+
                    itoa HybridEnvelopeVersion +:+ ")"))
  else if negb (isWellFormedHybridEnvelope env) then Err (new_error "invalid hybrid secret envelope")
  else if decide (he_Alg env = AlgRSAOAEPAES256GCM) then
    match privateKey with
    | RSAPrivateKey key => decryptRSA key env
    | _ => Err (new_error "rsa hybrid envelope requires rsa private key")
    end
  else if decide (he_Alg env ∈ ec_algorithms) then
    match privateKey with
    | ECDSAPrivateKey c key => decryptEC c key env
    | _ => Err (new_error "ec hybrid envelope requires ecdsa private key")
    end
  else Err (new_error ("unsupported hybrid secret algorithm " +:+ quote (he_Alg env))).

Record HybridPrivateKeyResolver : Type := mkResolver { privateKey : option PrivateKey; strict : bool }.

Definition NewHybridPrivateKeyResolver (k : option PrivateKey) : HybridPrivateKeyResolver := mkResolver k false.
Definition NewStrictHybridPrivateKeyResolver (k : option PrivateKey) : HybridPrivateKeyResolver := mkResolver k true.

(** [None] is a nil resolver. *)
Definition ResolveSecret (r : option HybridPrivateKeyResolver) (payload : string) : result string :=
  if negb (IsHybridEnvelope payload) then
    if from_option strict false r then Err (new_error "hybrid secret envelope is required") else Ok payload
  else match r with
       | Some (mkResolver (Some key) _) => DecryptWithPrivateKey key payload
       | _ => Err (new_error "hybrid private key resolver is not configured")
       end.

(** *** The use of a resolved secret

    [infra/upstream/oci_auth.go]: the secret of an upstream's credentials, with the
    client's resolver ([None] where none is configured). *)
Definition resolveAuthSecret (resolver : option HybridPrivateKeyResolver) (auth : option UpstreamAuth) : result string :=
  match auth with
  | None => Ok ""
  | Some a =>
      if decide (Secret a = "") then Ok ""
      else match resolver with
      | None => Ok (Secret a)
      | Some r => wrap_result "resolving upstream auth secret: " (ResolveSecret (Some r) (Secret a))
      end
  end.

(** The [Authorization] header it sets, if it does. *)
Definition applyRegistryAuth (resolver : option HybridPrivateKeyResolver) (auth : option UpstreamAuth) : result (option string) :=
  match auth with
  | None => Ok None
  | Some a =>
      secret ← resolveAuthSecret resolver auth;
      Ok (if decide (auth_Type a = UpstreamAuthBearerToken) then Some ("Bearer " +:+ secret)
          else if decide (auth_Type a = UpstreamAuthBasic) then Some ("Basic " +:+ b64_encode (Username a +:+ ":" +:+ secret))
          else None)
  end.
End secrets.

(** ** Lemmas *)

Section proofs.
Context `{!Crypto} `{!CryptoLaws}.

Lemma envelope_text nonce ciphertext :
  ∃ t, json_Marshal (envelope_json (mkEnvelope envelopeVersion (b64_encode nonce) (b64_encode ciphertext))) = Ok t ∧ t ≠ "" ∧
    json_Unmarshal json_syntax_error "secrets.envelope" envelope_fields t zero_envelope =
      Ok (mkEnvelope envelopeVersion (b64_encode nonce) (b64_encode ciphertext)).
Proof.
  set (j := envelope_json _). assert (writable j = true) as Hw by (cbn; by rewrite !b64_encode_utf8).
  destruct (written_reads j Hw) as (t & w & Ht & Hp & _). exists t. split; [done|]. split; [by intros ->|].
  by rewrite (Unmarshal_Marshal _ _ _ j).
Qed.

Lemma Open_Seal prefix key nonce s :
  String.length key = aes256KeySize → String.length nonce = gcm_nonce_size → Open prefix key nonce (gcm_Seal key nonce s) = Ok s.
Proof. intros Hk Hn. unfold Open. rewrite decide_True by done. by rewrite gcm_opens. Qed.

Lemma hybrid_text env :
  he_Version env = HybridEnvelopeVersion → utf8_ok (he_Alg env) = true → utf8_ok (EphemeralPub env) = true →
  utf8_ok (EncryptedKey env) = true → utf8_ok (he_Nonce env) = true → utf8_ok (he_Ciphertext env) = true →
  ∃ t, marshalHybridEnvelope env = Ok t ∧ unmarshal_hybrid t = Ok env.
Proof.
  destruct env as [v alg pub key nonce ct]. simpl. intros -> Ha Hp Hk Hn Hc.
  set (env := mkHybridEnvelope HybridEnvelopeVersion alg pub key nonce ct).
  assert (writable (hybrid_json env) = true ∧ float_free (hybrid_json env) = true) as [Hw Hf].
  { unfold hybrid_json, omit_string, omit_if. cbn -[utf8_ok]. destruct (bool_decide (pub = "")), (bool_decide (key = ""));
      cbn -[utf8_ok]; by rewrite Ha, ?Hp, ?Hk, Hn, Hc. }
  destruct (written_reads _ Hw) as (t & w & Ht & _). exists t. unfold marshalHybridEnvelope. rewrite Ht. split; [done|].
  unfold unmarshal_hybrid. rewrite (Unmarshal_Marshal _ _ _ _ _ _ Hw Hf Ht). unfold hybrid_json, omit_string, omit_if.
  cbn [he_Version he_Alg EphemeralPub EncryptedKey he_Nonce he_Ciphertext env].
  destruct (decide (pub = "")) as [->|?], (decide (key = "")) as [->|?]; by rewrite ?bool_decide_true, ?bool_decide_false by done.
Qed.

Lemma encryptAESGCM_ok run i key s nonce ct :
  encryptAESGCM run i key s = Ok (nonce, ct) →
  b64_encode nonce ≠ "" ∧ b64_encode ct ≠ "" ∧ decryptAESGCM key (b64_encode nonce) (b64_encode ct) = Ok s.
Proof.
  unfold encryptAESGCM, aesGCM. case_decide as Hk; [|done]. simpl. intros E.
  destruct (rand_Read run i gcm_nonce_size) as [n|] eqn:Hr; [|done]. apply rand_length in Hr. simplify_eq/=.
  split; [apply b64_encode_nonempty; by destruct nonce|]. split; [apply b64_encode_nonempty, gcm_tagged|].
  unfold decryptAESGCM, aesGCM. rewrite !b64_roundtrip. csimpl. rewrite decide_True by done. csimpl. by rewrite Open_Seal.
Qed.

(** The public half of a private key. *)
Definition public_of (k : PrivateKey) : PublicKey :=
  match k with
  | RSAPrivateKey k => RSAPublicKey (rsa_Public k)
  | ECDSAPrivateKey c k => ECDSAPublicKey c (ecdsa_Public c k)
  | OtherPrivateKey ty => OtherPublicKey ty
  end.

(** An envelope of this package is recognised and decrypted by its key. *)
Lemma decrypt_envelope k env t :
  marshalHybridEnvelope env = Ok t → unmarshal_hybrid t = Ok env →
  he_Version env = HybridEnvelopeVersion → isWellFormedHybridEnvelope env = true →
  IsHybridEnvelope t = true ∧
  (he_Alg env = AlgRSAOAEPAES256GCM → DecryptWithPrivateKey (RSAPrivateKey k) t = decryptRSA k env) ∧
  (he_Alg env ∈ ec_algorithms → ∀ c, DecryptWithPrivateKey (ECDSAPrivateKey c k) t = decryptEC c k env).
Proof.
  intros Ht Hu Hv Hw. split.
  { unfold IsHybridEnvelope. by rewrite Hu, Hw, bool_decide_true. }
  split; [intros Ha|intros Ha c]; unfold DecryptWithPrivateKey; rewrite Hu; csimpl; rewrite decide_False, Hw by (intros []; done);
    csimpl.
  - by rewrite decide_True.
  - rewrite decide_False, decide_True by (done || (intros E; rewrite E in Ha; vm_compute in Ha; set_solver)). done.
Qed.

Lemma encryptRSA_opens run k s t :
  encryptRSA run (rsa_Public k) s = Ok t →
  IsHybridEnvelope t = true ∧ DecryptWithPrivateKey (RSAPrivateKey k) t = Ok s.
Proof.
  unfold encryptRSA. destruct (rand_Read run 0 aes256KeySize) as [key|]; [|done]. csimpl.
  destruct (EncryptOAEP run 1 _ key _) as [wrapped|] eqn:Eo; [|done]. csimpl. apply oaep_opens in Eo as [Hne Ho].
  destruct (encryptAESGCM run 2 key s) as [[nonce ct]|] eqn:Ea; [|done]. csimpl. apply encryptAESGCM_ok in Ea as (Hn & Hc & Hd).
  set (env := mkHybridEnvelope _ _ _ _ _ _). intros Ht.
  destruct (hybrid_text env) as (t' & Ht' & Hu); [done|done|done|apply b64_encode_utf8..|].
  rewrite Ht in Ht'. injection Ht' as <-.
  destruct (decrypt_envelope k env t) as (Hh & Hrsa & _); [done|done|done| |].
  { unfold isWellFormedHybridEnvelope. rewrite decide_False by naive_solver. rewrite decide_True by done.
    apply bool_decide_true. split; [by apply b64_encode_nonempty|done]. }
  split; [done|]. rewrite Hrsa by done. unfold decryptRSA. cbn [env EncryptedKey he_Nonce he_Ciphertext].
  by rewrite b64_roundtrip; csimpl; rewrite Ho.
Qed.

Lemma encryptEC_opens run c k s t :
  encryptEC run c (ecdsa_Public c k) s = Ok t →
  IsHybridEnvelope t = true ∧ DecryptWithPrivateKey (ECDSAPrivateKey c k) t = Ok s.
Proof.
  unfold encryptEC. destruct (ecdhCurveForPublicKey c) as [[curve alg]|] eqn:Ecv; [|done]. csimpl.
  assert (curve = c ∧ ecdhCurveForAlgorithm alg = Ok c ∧ alg ∈ ec_algorithms ∧ utf8_ok alg = true ∧ alg ≠ "" ∧ alg ≠ AlgRSAOAEPAES256GCM)
    as (-> & Halg & Hin & Hutf & Hne & Hnr).
  { destruct c; simpl in Ecv; simplify_eq; repeat split; try done; vm_compute; set_solver. }
  destruct (public_ECDH c _) as [peer|] eqn:Ep; [|done]. csimpl. apply ecdh_convert in Ep as (own & Hown & ->).
  destruct (GenerateKey c run 0) as [eph|] eqn:Eg; [|done]. csimpl. apply ecdh_parse in Eg as [Hpn Hparse].
  destruct (ECDH c eph _) as [secret|] eqn:Es; [|done]. csimpl. rewrite ecdh_comm in Es.
  destruct (deriveHybridKey secret) as [key|] eqn:Ek; [|done]. csimpl.
  destruct (encryptAESGCM run 1 key s) as [[nonce ct]|] eqn:Ea; [|done]. csimpl. apply encryptAESGCM_ok in Ea as (Hn & Hc & Hd).
  set (env := mkHybridEnvelope _ _ _ _ _ _). intros Ht.
  destruct (hybrid_text env) as (t' & Ht' & Hu); [done|done|apply b64_encode_utf8|done|apply b64_encode_utf8..|].
  rewrite Ht in Ht'. injection Ht' as <-.
  destruct (decrypt_envelope k env t) as (Hh & _ & Hec); [done|done|done| |].
  { unfold isWellFormedHybridEnvelope. rewrite decide_False by naive_solver. rewrite decide_False, decide_True by done.
    apply bool_decide_true. split; [by apply b64_encode_nonempty|done]. }
  split; [done|]. rewrite Hec by done. unfold decryptEC. cbn [env he_Alg EphemeralPub he_Nonce he_Ciphertext].
  rewrite Halg. csimpl. rewrite Hown. csimpl. rewrite decide_False by (intros []; done). rewrite b64_roundtrip. csimpl.
  rewrite Hparse. csimpl. rewrite Es. csimpl. rewrite Ek. csimpl. done.
Qed.

(** Every AES-GCM codec that can be built keeps the contract the upstream repository
    relies on ([codec_ok]): what it encrypts is not empty and decrypts to the same
    bytes, whatever they are. *)
Lemma AESGCMCodec_is_codec key c : NewAESGCMCodec key = Ok c → codec_ok (secret_codec c).
Proof.
  unfold NewAESGCMCodec. case_decide as Hk; [|done]. intros [= <-] run s t. cbn [secret_codec Encrypt Decrypt].
  unfold AESGCMCodec_Encrypt, AESGCMCodec_Decrypt. cbn [aead_key]. destruct (rand_Read run 0 gcm_nonce_size) as [nonce|] eqn:Hr; [|done]. apply rand_length in Hr.
  cbn [wrap_result mbind result_bind]. intros Ht.
  destruct (envelope_text nonce (gcm_Seal key nonce s)) as (t' & Ht' & Hne & Hu). rewrite Ht' in Ht. injection Ht as <-.
  split; [done|]. rewrite Hu. csimpl. rewrite !b64_roundtrip. csimpl. by rewrite Open_Seal.
Qed.

(** What [EncryptForPublicKey] makes of a secret for the public key of a proxy, RSA or on
    a NIST curve, is a hybrid envelope, and the proxy's resolver, strict or not,
    resolves it to the secret. *)
Lemma hybrid_opens run k s t b :
  EncryptForPublicKey run (public_of k) s = Ok t →
  IsHybridEnvelope t = true ∧ ResolveSecret (Some (mkResolver (Some k) b)) t = Ok s.
Proof.
  intros E. assert (IsHybridEnvelope t = true ∧ DecryptWithPrivateKey k t = Ok s) as [Hh Hd].
  { destruct k as [k|c k|ty]; [by apply encryptRSA_opens in E|by apply encryptEC_opens in E|done]. }
  split; [done|]. unfold ResolveSecret. by rewrite Hh.
Qed.
End proofs.

(** A strict resolver never passes a payload through: a secret it returns was
    decrypted by its private key from a well-formed version-2 envelope.  A lenient one
    passes everything else through unchanged. *)
Theorem ResolveSecret_strict `{!Crypto} k p :
  (∀ s, ResolveSecret (Some (mkResolver k true)) p = Ok s →
    IsHybridEnvelope p = true ∧ ∃ key, k = Some key ∧ DecryptWithPrivateKey key p = Ok s) ∧
  (IsHybridEnvelope p = false → ResolveSecret (Some (mkResolver k false)) p = Ok p ∧ ResolveSecret None p = Ok p).
Proof.
  unfold ResolveSecret. split.
  - intros s E. destruct (IsHybridEnvelope p); [|done]. destruct k as [key|]; [|done]. split; [done|]. by exists key.
  - by intros ->.
Qed.

(** *** From the administrator to the proxy *)

(** The secret the repository holds for an upstream. *)
Definition stored_secret (c : SecretCodec) (db : AdminDB) (tenantID id s : string) : Prop :=
  ∃ r encrypted, tenant_upstream tenantID id db = Some r ∧ us_AuthType r ≠ UpstreamAuthNone ∧
    us_AuthSecret r = Some encrypted ∧ encrypted ≠ "" ∧ Decrypt c encrypted = Ok s.

(** A rewrap hands the stored secret to the wrapper, and only fails as that or the
    lookup does. *)
Lemma Rewrap_stored c tenantID id wrap db t :
  RewrapUpstreamAuthSecret (Some c) tenantID id (Some wrap) db = Ok t ↔
  ∃ s, stored_secret c db tenantID id s ∧ wrap s = Ok t.
Proof.
  unfold RewrapUpstreamAuthSecret, stored_secret. destruct (tenant_upstream tenantID id db) as [r|].
  2: { split; [done|]. by intros (s & (r & e & H & _) & _). }
  case_decide as Hn. { split; [done|]. intros (s & (r' & e & [= <-] & H & _) & _). done. }
  destruct (us_AuthSecret r) as [e|] eqn:Es.
  2: { split; [done|]. intros (s & (r' & e & [= <-] & _ & H & _) & _). congruence. }
  destruct (decide (e = "")) as [->|Hne].
  { split; [done|]. intros (s & (r' & e & [= <-] & _ & H & Hne & _) & _). congruence. }
  assert (∀ (x y : result string), match e with EmptyString => x | String _ _ => y end = y) as E by (by destruct e).
  rewrite E, result_bind_ok. setoid_rewrite wrap_result_ok. split.
  - intros (s & Hs & Ht). exists s. split; [|done]. exists r, e. done.
  - intros (s & (r' & e' & [= <-] & _ & He & _ & Hs) & Ht). exists s. split; [congruence|done].
Qed.

(** A created upstream holds its secret. *)
Lemma Create_stores_secret c uuid pg_text u db u' db' a :
  codec_ok c → UpstreamRepository_Create (Some c) uuid pg_text u db = (Ok u', db') →
  Auth u = Some a → auth_Configured (Auth u) = true → stored_secret c db' (up_TenantID u) (up_ID u') (Secret a).
Proof.
  intros Hc H Ha Hconf. unfold UpstreamRepository_Create, authColumns in H. rewrite Hconf, Ha in H. cbn [negb] in H.
  destruct (Encrypt c (db_serial db) (Secret a)) as [e|] eqn:Ee; [|done]. cbn [wrap_result mbind result_bind] in H.
  destruct (upstream_constraint _ _ _); [done|]. injection H as <- <-.
  destruct (Hc _ _ _ Ee) as [Hne Hd]. do 2 eexists. unfold tenant_upstream. cbn [upstreams set_upstreams next_serial up_ID].
  rewrite lookup_insert_eq. cbn [us_TenantID]. rewrite decide_True by done. split; [done|]. cbn [us_AuthType us_AuthSecret].
  split; [|done]. rewrite Ha in Hconf. apply bool_decide_eq_true in Hconf. naive_solver.
Qed.

(** C17: The way of a secret.  A credential an administrator stores with an upstream, in a
    repository whose codec has a valid key, is what a proxy with private key [k] gets
    when it resolves the envelope that the control plane makes for the proxy's
    public key, if it makes one; and that it makes none is the fault of the
    encryption for that key alone. *)
Theorem secret_reaches_proxy {CR : Crypto} {CL : CryptoLaws} key codec uuid pg_text u db u' db' a run k strict :
  NewAESGCMCodec key = Ok codec →
  UpstreamRepository_Create (Some (secret_codec codec)) uuid pg_text u db = (Ok u', db') →
  Auth u = Some a → auth_Configured (Auth u) = true →
  match EncryptForPublicKey run (public_of k) (Secret a) with
  | Ok envelope =>
      RewrapUpstreamAuthSecret (Some (secret_codec codec)) (up_TenantID u) (up_ID u')
        (Some (EncryptForPublicKey run (public_of k))) db' = Ok envelope ∧
      ResolveSecret (Some (mkResolver (Some k) strict)) envelope = Ok (Secret a)
  | Err _ => ∀ envelope, RewrapUpstreamAuthSecret (Some (secret_codec codec)) (up_TenantID u) (up_ID u')
                           (Some (EncryptForPublicKey run (public_of k))) db' ≠ Ok envelope
  end.
Proof.
  intros Hkey Hcreate Ha Hconf. pose proof (AESGCMCodec_is_codec _ _ Hkey) as Hc.
  pose proof (Create_stores_secret _ _ _ _ _ _ _ _ Hc Hcreate Ha Hconf) as Hs.
  destruct (EncryptForPublicKey run (public_of k) (Secret a)) as [envelope|e] eqn:Ee.
  - split; [apply Rewrap_stored; eauto|]. by apply (hybrid_opens run k (Secret a) envelope strict Ee).
  - intros envelope (s & Hs' & Hw)%Rewrap_stored.
    destruct Hs as (r & x & Hr & _ & Hx & _ & Hd), Hs' as (r' & x' & Hr' & _ & Hx' & _ & Hd').
    rewrite Hr in Hr'. injection Hr' as <-. rewrite Hx in Hx'. injection Hx' as <-. rewrite Hd in Hd'. injection Hd' as <-.
    congruence.
Qed.

(** ** Witnesses *)

(** Primitives with the laws and no secrecy: sealing prepends a tag, wrapping a
    mark, and the shared secret of two keys is the sum of their lengths. *)
Module Toy.
#[export] Instance toy_crypto : Crypto := {|
  rand_Read n i len := Ok (repeat_char (ascii_at (97 + Z.of_nat (n + i) mod 26)) len);
  gcm_Seal k n p := String "#" p;
  gcm_Open k n c := match c with String _ p => Ok p | EmptyString => Err (new_error "cipher: message authentication failed") end;
  rsa_Public k := k;
  EncryptOAEP n i k m l := Ok (String "!" m);
  DecryptOAEP k c l := match c with String _ m => Ok m | EmptyString => Err (new_error "crypto/rsa: decryption error") end;
  ecdsa_Public c k := k;
  public_ECDH c k := Ok (String "p" k);
  private_ECDH c k := Ok k;
  GenerateKey c n i := Ok "ephemeral";
  ecdh_PublicKey c k := String "p" k;
  NewPublicKey c k := Ok k;
  ECDH c a b := Ok (itoa (Z.of_nat (S (String.length a) + String.length b)));
  hkdf_Read len secret info := Ok (repeat_char "k" len);
  json_syntax_error s := new_error "invalid character";
|}.

Lemma repeat_char_length c n : String.length (repeat_char c n) = n.
Proof. induction n; simpl; lia. Qed.

#[export] Instance toy_laws : CryptoLaws.
Proof.
  split; cbn.
  - intros n i len s [= <-]. apply repeat_char_length.
  - intros len secret info s [= <-]. apply repeat_char_length.
  - done.
  - done.
  - intros n i k m l c [= <-]. done.
  - intros c k p [= <-]. eauto.
  - done.
  - intros c a b. do 3 f_equal. lia.
Qed.
End Toy.
Import Toy.

Definition sample_key : string := repeat_char "k" 32.
Definition sample_codec : AESGCMCodec := mkAESGCMCodec sample_key.

Lemma sample_codec_built : NewAESGCMCodec sample_key = Ok sample_codec.
Proof. vm_compute. reflexivity. Qed.

Lemma ResolveSecret_strict_witness :
  ResolveSecret (Some (NewHybridPrivateKeyResolver None)) "legacy" = Ok "legacy".
Proof. apply (proj2 (ResolveSecret_strict None "legacy")). vm_compute. reflexivity. Defined.

(** An envelope with a nonce of another size makes [Open] panic. *)
Example short_nonce_panics :
  AESGCMCodec_Decrypt (Some sample_codec) (quoted "{'version':1,'nonce':'AAAA','ciphertext':'AAAA'}") =
  Err gcm_nonce_panic.
Proof. vm_compute. reflexivity. Qed.

Definition sample_store : AdminDB := mkAdminDB {[ "t1" ]} ∅ ∅ ∅ ∅ ∅ ∅ [] 0 5.
Definition authenticated_upstream : Upstream :=
  mkUpstream "" "t1" "registry" EcosystemOCI "https://registry.example" None
    (Some (mkUpstreamAuth UpstreamAuthBasic "robot" "s3cret" 0)) 0 0.
Definition upstream_uuid (n : nat) : string := "upstream-" +:+ itoa (Z.of_nat n).
Definition pg_error (e : PgError) : error := new_error (pg_Code e).
Definition sample_created : result Upstream * AdminDB :=
  UpstreamRepository_Create (Some (secret_codec sample_codec)) upstream_uuid pg_error authenticated_upstream sample_store.

Lemma secret_reaches_proxy_witness :
  ∃ envelope,
    RewrapUpstreamAuthSecret (Some (secret_codec sample_codec)) "t1" "upstream-0"
      (Some (EncryptForPublicKey 3 (RSAPublicKey "proxy"))) sample_created.2 = Ok envelope ∧
    ResolveSecret (Some (NewStrictHybridPrivateKeyResolver (Some (RSAPrivateKey "proxy")))) envelope = Ok "s3cret".
Proof.
  destruct sample_created as [[u'|e] db'] eqn:E; [|vm_compute in E; discriminate E].
  assert (up_ID u' = "upstream-0") as Hid.
  { assert (match sample_created.1 with Ok u => up_ID u | Err _ => "" end = "upstream-0") as H by (vm_compute; reflexivity).
    rewrite E in H. exact H. }
  pose proof (secret_reaches_proxy sample_key sample_codec upstream_uuid pg_error authenticated_upstream sample_store u' db'
    (mkUpstreamAuth UpstreamAuthBasic "robot" "s3cret" 0) 3 (RSAPrivateKey "proxy") true
    sample_codec_built E eq_refl eq_refl) as H.
  destruct (EncryptForPublicKey 3 (public_of (RSAPrivateKey "proxy")) _) as [envelope|e] eqn:Ee;
    [|vm_compute in Ee; discriminate Ee].
  exists envelope. rewrite Hid in H. exact H.
Defined.
