(* ===== verification/AdminStore.v ===== *)
(** * The control-plane store as a state machine

    Every reachable state of the tables of [AdminTables] under the operations of
    [PolicyStore] and [UpstreamStore]: the invariant, and what the operations do
    in reachable states. *)

From S2P Require Import Prelude GoStrings Json Artifact Dependency Upstream PolicyConfig Policy Catalog PolicyHash.
From S2P Require Import Evaluator AdminTables PolicyStore UpstreamStore.
#[local] Open Scope list_scope.

(** ** Steps *)

Section store.
Context (codec : option SecretCodec) (uuid : nat → string) (pg_text : PgError → error).

(** The rows of the evaluation tables refer to stored policies. *)
Definition references_ok (db : AdminDB) : Prop :=
  ∀ id, policies db !! id = None →
    ¬ refers id (evaluations db) ∧ ¬ refers id (decisions db) ∧ ¬ refers id (evaluation_reasons db).

Definition later (d : Z) (db : AdminDB) : AdminDB :=
  mkAdminDB (tenants db) (upstreams db) (policies db) (versions db) (evaluations db) (decisions db)
    (evaluation_reasons db) (revisions db) (db_serial db) (db_now db + d).
Definition with_tenant (t : string) (db : AdminDB) : AdminDB :=
  mkAdminDB ({[t]} ∪ tenants db) (upstreams db) (policies db) (versions db) (evaluations db) (decisions db)
    (evaluation_reasons db) (revisions db) (db_serial db) (db_now db).

(** One transaction of some request, the insertion of a tenant, a change of the
    evaluation tables within their foreign keys, or the passing of time. *)
Inductive admin_step (db : AdminDB) : AdminDB → Prop :=
| as_create p : admin_step db (Create uuid pg_text p db).2
| as_update p : admin_step db (Update pg_text p db).2
| as_delete t id f : admin_step db (Delete pg_text t id f db).2
| as_rollback t id v : admin_step db (RollbackToVersion pg_text t id v db).2
| as_revision t h : admin_step db (CreateRevision pg_text t h db).2
| as_upstream_create u : admin_step db (UpstreamRepository_Create codec uuid pg_text u db).2
| as_upstream_update u : admin_step db (UpstreamRepository_Update codec pg_text u db).2
| as_upstream_delete t id : admin_step db (UpstreamRepository_Delete pg_text t id db).2
| as_tenant t : admin_step db (with_tenant t db)
| as_records e d r : references_ok (set_references e d r db) → admin_step db (set_references e d r db)
| as_later d : admin_step db (later d db).

Definition empty_db (now : time) : AdminDB := mkAdminDB ∅ ∅ ∅ ∅ ∅ ∅ ∅ [] 0 now.

(** ** The invariant *)

(** What validation accepts and JSON can carry. *)
Definition storable (p : Policy) : Prop :=
  ValidatePolicy p = Ok p ∧ is_ok (json_Marshal (from_option config_json JNull (pol_Config p))) = true.

(** The columns of a policy that passed validation, for a tenant. *)
Definition valid_body (t : string) (b : PolicyBody) : Prop :=
  ∃ p, storable p ∧ pol_TenantID p = t ∧ policy_columns p = b.

Record wf (db : AdminDB) : Prop := {
  wf_name i j r s : policies db !! i = Some r → policies db !! j = Some s → pr_TenantID r = pr_TenantID s →
    bd_Name (pr_Body r) = bd_Name (pr_Body s) → i = j;
  wf_window id r : policies db !! id = Some r →
    1 <= pr_Version r ∧ window (versions db) id (Z.max 1 (pr_Version r - 2)) (pr_Version r);
  wf_current id r : policies db !! id = Some r →
    ∃ v, versions db !! (id, pr_Version r) = Some v ∧ vr_Body v = pr_Body r;
  wf_version id v x : versions db !! (id, v) = Some x →
    ∃ r, policies db !! id = Some r ∧ valid_body (pr_TenantID r) (vr_Body x) ∧
         ¬ missing_upstream db (bd_UpstreamID (vr_Body x));
  wf_tenant id r : policies db !! id = Some r → pr_TenantID r ∈ tenants db;
  wf_references : references_ok db;
}.

(** A current row inherits what its version row has. *)
Lemma wf_body db id r : wf db → policies db !! id = Some r →
  valid_body (pr_TenantID r) (pr_Body r) ∧ ¬ missing_upstream db (bd_UpstreamID (pr_Body r)).
Proof.
  intros H Hr. destruct (wf_current _ H id r Hr) as (v & Hv & <-).
  destruct (wf_version _ H id _ v Hv) as (r' & Hr' & Hb & Hm). by simplify_eq.
Qed.

Lemma policy_constraint_None db id t b :
  policy_constraint db id t b = None →
  (∀ i r, policies db !! i = Some r → pr_TenantID r = t → bd_Name (pr_Body r) = bd_Name b → i = id) ∧
  t ∈ tenants db ∧ ¬ missing_upstream db (bd_UpstreamID b).
Proof.
  unfold policy_constraint. case_decide as Hn; [done|]. case_decide as Ht; [done|]. case_decide as Hu; [done|].
  intros _. split; [|split; [done|done]].
  intros i r Hr E1 E2. destruct (decide (i = id)) as [|Hi]; [done|]. destruct Hn. by exists i, r.
Qed.

(** Writing a policy's next version: the one lemma behind create, update and
    rollback. *)
Lemma write_wf db id t b created v :
  wf db → valid_body t b → policy_constraint db id t b = None →
  match policies db !! id with
  | Some r => pr_TenantID r = t ∧ v = pr_Version r + 1
  | None => v = 1
  end →
  wf (set_policies (<[id := mkPolicyRow t b v created (db_now db)]> (policies db)) (record_version id v b db) db).
Proof.
  intros H Hb (Hname & Ht & Hu)%policy_constraint_None Hv.
  assert (Hw : ∃ lo hi, window (versions db) id lo hi ∧ v = hi + 1 ∧ lo <= v ∧ 1 <= v ∧ Z.max lo (hi - 1) = Z.max 1 (v - 2)).
  { destruct (policies db !! id) as [r|] eqn:Hr.
    - destruct Hv as [_ ->]. destruct (wf_window _ H id r Hr) as [H1 Hw]. exists (Z.max 1 (pr_Version r - 2)), (pr_Version r).
      split; [done|]. lia.
    - subst v. exists 1, 0. split; [|lia]. intros x. split; [|lia]. intros [y Hy].
      destruct (wf_version _ H id x y Hy) as (r & Hr' & _). congruence. }
  destruct Hw as (lo & hi & Hw & -> & Hlo & H1 & Hmax).
  pose proof (record_version_window id b db lo hi Hw ltac:(lia)) as Hw'.
  pose proof (record_version_new id b db lo hi Hw ltac:(lia)) as Hnew.
  split; simpl.
  - intros i j r s. rewrite !lookup_insert_Some.
    intros [[<- <-]|[Hi Hri]] [[<- <-]|[Hj Hsj]] E1 E2; simpl in *; try done.
    + symmetry. by apply (Hname j s).
    + by apply (Hname i r).
    + by eapply (wf_name _ H).
  - intros i r. rewrite lookup_insert_Some. intros [[<- <-]|[Hi Hr]]; simpl.
    + rewrite <-Hmax. by split.
    + destruct (wf_window _ H i r Hr) as [? Hwi]. split; [done|]. intros x. rewrite record_version_other by done. apply Hwi.
  - intros i r. rewrite lookup_insert_Some. intros [[<- <-]|[Hi Hr]]; simpl.
    + eexists. split; [exact Hnew|done].
    + rewrite record_version_other by done. by apply (wf_current _ H).
  - intros i x y Hy. apply record_version_old in Hy as [[[= -> ->] ->]|Hy].
    + eexists. rewrite lookup_insert_eq. by split.
    + destruct (wf_version _ H i x y Hy) as (r & Hr & Hb' & Hu'). destruct (decide (i = id)) as [->|Hi].
      * rewrite lookup_insert_eq. eexists. split; [done|]. rewrite Hr in Hv. destruct Hv as [Hv _]. simpl. by rewrite <-Hv.
      * rewrite lookup_insert_ne by done. eauto.
  - intros i r. rewrite lookup_insert_Some. intros [[<- <-]|[Hi Hr]]; simpl; [done|by eapply (wf_tenant _ H)].
  - intros i. simpl. rewrite lookup_insert_None. intros [Hi _]. by apply (wf_references _ H).
Qed.

Lemma ValidatePolicy_tenant p p' : ValidatePolicy p = Ok p' → pol_TenantID p' = pol_TenantID p ∧ pol_ID p' = pol_ID p.
Proof. rewrite ValidatePolicy_spec. by intros [_ (? & ? & ? & _ & _ & _ & _ & ->)]. Qed.

(** What is written is a validated policy of the tenant. *)
Lemma marshal_config_ok pre c x : marshal_config pre c = Ok x →
  is_ok (json_Marshal (from_option config_json JNull c)) = true.
Proof. unfold marshal_config. by intros ->%wrap_result_ok. Qed.

Lemma storable_marshal pre p : storable p → ∃ x, marshal_config pre (pol_Config p) = Ok x.
Proof. unfold marshal_config. intros [_ H]. destruct (json_Marshal _); [by eexists|done]. Qed.

Lemma prepare_valid p p' : prepare p = Ok p' →
  storable p' ∧ pol_TenantID p' = pol_TenantID p ∧ pol_ID p' = pol_ID p.
Proof.
  unfold prepare. intros (p1 & H1 & H2)%result_bind_ok. apply result_bind_ok in H2 as (p2 & H2 & H3).
  apply result_bind_ok in H3 as (x & Hx & [= <-]). apply marshal_config_ok in Hx.
  split; [split; [by eapply ValidatePolicy_fixed|done]|].
  apply ValidatePolicy_tenant in H2 as [-> ->]. case_decide; [|by injection H1 as <-].
  apply result_bind_ok in H1 as (v & _ & [= <-]). done.
Qed.

Lemma valid_columns p : storable p → valid_body (pol_TenantID p) (policy_columns p).
Proof. by exists p. Qed.

Lemma tenant_policy_Some t id db r :
  tenant_policy t id db = Some r → policies db !! id = Some r ∧ pr_TenantID r = t.
Proof. unfold tenant_policy. destruct (policies db !! id); [|done]. case_decide; [by intros [= <-]|done]. Qed.

Lemma write_version_wf db id t b r :
  wf db → valid_body t b → policy_constraint db id t b = None → tenant_policy t id db = Some r →
  wf (write_version id r b db).
Proof.
  intros H Hb Hc [Hr Ht]%tenant_policy_Some. unfold write_version, updated_row. cbn [pr_Version]. rewrite Ht.
  apply write_wf; [done..|]. by rewrite Hr.
Qed.

Lemma next_serial_wf db : wf db → wf (next_serial db).
Proof. intros []. by split. Qed.

Lemma Create_wf p db : wf db → policies db !! uuid (db_serial db) = None → wf (Create uuid pg_text p db).2.
Proof.
  intros H Hf. unfold Create. destruct (prepare p) as [p'|] eqn:Hp; [|done].
  apply prepare_valid in Hp as (Hv & _ & _). destruct (policy_constraint _ _ _ _) eqn:Hc; [done|].
  destruct (version_constraint _ _ _); [done|]. apply next_serial_wf, write_wf; [done|by apply valid_columns|done|].
  by rewrite Hf.
Qed.

Lemma Update_wf p db : wf db → wf (Update pg_text p db).2.
Proof.
  intros H. unfold Update. destruct (prepare p) as [p'|] eqn:Hp; [|done].
  apply prepare_valid in Hp as (Hv & _ & _). destruct (tenant_policy _ _ _) as [r|] eqn:Hr; [|done].
  destruct (policy_constraint _ _ _ _) eqn:Hc; [done|]. destruct (version_constraint _ _ _); [done|].
  eapply write_version_wf; [done|by apply valid_columns|done..].
Qed.

(** A rollback writes the stored version again, as validated. *)
Definition rollback_def (t id : string) (v : Z) (db : AdminDB) : result Policy :=
  target ← loadRollbackPolicyVersion t id v db;
  policyDef ← ValidatePolicy (rollbackPolicy t id target);
  _ ← marshal_config "marshalling rolled back config: " (pol_Config policyDef);
  Ok policyDef.

Lemma rollback_def_valid t id v db p : rollback_def t id v db = Ok p →
  storable p ∧ pol_TenantID p = t ∧ pol_ID p = id.
Proof.
  unfold rollback_def. intros (x & _ & H)%result_bind_ok. apply result_bind_ok in H as (p' & H & H').
  apply result_bind_ok in H' as (? & Hx & [= <-]). apply marshal_config_ok in Hx.
  split; [split; [by eapply ValidatePolicy_fixed|done]|].
  apply ValidatePolicy_tenant in H as [-> ->]. done.
Qed.

Lemma Rollback_wf t id v db : wf db → wf (RollbackToVersion pg_text t id v db).2.
Proof.
  intros H. unfold RollbackToVersion. fold (rollback_def t id v db).
  destruct (rollback_def t id v db) as [p|] eqn:Hp; [|done]. apply rollback_def_valid in Hp as (Hv & Ht & Hi).
  destruct (tenant_policy _ _ _) as [r|] eqn:Hr; [|done].
  destruct (policy_constraint _ _ _ _) eqn:Hc; [done|]. destruct (version_constraint _ _ _); [done|].
  eapply (write_version_wf db id t); [done|rewrite <-Ht; by apply valid_columns|done..].
Qed.

Lemma policy_referenced_None db id :
  policy_referenced db id = None →
  ¬ refers id (evaluations db) ∧ ¬ refers id (decisions db) ∧ ¬ refers id (evaluation_reasons db).
Proof. unfold policy_referenced. repeat case_decide; done. Qed.

(** Deleting an unreferenced policy, with its versions. *)
Lemma without_policy_wf db id : wf db → policy_referenced db id = None → wf (without_policy id db).
Proof.
  intros H Href%policy_referenced_None. unfold without_policy. split; simpl.
  - intros i j r s [_ Hr]%lookup_delete_Some [_ Hs]%lookup_delete_Some. by apply (wf_name _ H).
  - intros i r [Hi Hr]%lookup_delete_Some. destruct (wf_window _ H i r Hr) as [? Hw]. split; [done|].
    intros x. rewrite map_lookup_filter. rewrite <-(Hw x). destruct (versions db !! (i, x)); [|done]. simpl.
    by rewrite option_guard_True by done.
  - intros i r [Hi Hr]%lookup_delete_Some. destruct (wf_current _ H i r Hr) as (v & Hv & Hb). exists v.
    split; [|done]. apply map_lookup_filter_Some. by split.
  - intros i x y [Hy Hi]%map_lookup_filter_Some. simpl in Hi. destruct (wf_version _ H i x y Hy) as (r & Hr & Hb & Hu).
    exists r. by rewrite lookup_delete_ne.
  - intros i r [_ Hr]%lookup_delete_Some. by eapply (wf_tenant _ H).
  - intros i. simpl. rewrite lookup_delete_None. intros [<-|Hi]; [done|]. by apply (wf_references _ H).
Qed.

Lemma refers_clear id t i m : refers id (clear_references t i m) → refers id m.
Proof.
  intros (k & r & Hk & Hr). unfold clear_references in Hk. apply lookup_fmap_Some in Hk as (r' & Hr' & Hk).
  exists k, r'. split; [done|]. by case_decide; subst r.
Qed.

Lemma refers_clear_reasons id t i db : refers id (clear_reasons t i db) → refers id (evaluation_reasons db).
Proof.
  intros (k & r & Hk & Hr). unfold clear_reasons in Hk. apply lookup_fmap_Some in Hk as (r' & Hr' & Hk).
  exists k, r'. split; [done|]. by case_decide; subst r.
Qed.

Lemma Delete_wf t id f db : wf db → wf (Delete pg_text t id f db).2.
Proof.
  intros H. unfold Delete, forceDelete. destruct f.
  - set (db' := set_references _ _ _ db).
    assert (H' : wf db').
    { destruct H as [? ? ? ? ? Href]. split; try done. intros i Hi. destruct (Href i Hi) as (H1 & H2 & H3).
      split; [|split].
      - by intros ?%refers_clear.
      - by intros ?%refers_clear.
      - by intros ?%refers_clear_reasons. }
    destruct (tenant_policy t id db'); [|done]. destruct (policy_referenced db' id) eqn:Hr; [done|].
    by apply without_policy_wf.
  - destruct (tenant_policy t id db); [|done]. destruct (policy_referenced db id) eqn:Hr; [done|].
    by apply without_policy_wf.
Qed.

(** A change of the upstreams that keeps those a version is scoped to. *)
Lemma set_upstreams_wf db m :
  wf db →
  (∀ k x u, versions db !! k = Some x → bd_UpstreamID (vr_Body x) = Some u → is_Some (upstreams db !! u) → is_Some (m !! u)) →
  wf (set_upstreams m db).
Proof.
  intros H Hm. destruct H as [? ? ? Hv ? ?]. split; try done.
  intros id x y Hy. destruct (Hv id x y Hy) as (r & Hr & Hb & Hu). exists r. split; [done|]. split; [done|].
  unfold missing_upstream in *. destruct (bd_UpstreamID (vr_Body y)) as [u|] eqn:E; [|done]. simpl.
  destruct (Hm _ y u Hy E) as [? ->]; [|done]. by destruct (upstreams db !! u).
Qed.

Lemma insert_upstream_wf db id r : wf db → wf (set_upstreams (<[id := r]> (upstreams db)) db).
Proof.
  intros H. apply set_upstreams_wf; [done|]. intros k x u _ _ [y Hy]. destruct (decide (u = id)) as [->|].
  - rewrite lookup_insert_eq. eauto.
  - rewrite lookup_insert_ne by done. eauto.
Qed.

Lemma Upstream_Create_wf u db : wf db → wf (UpstreamRepository_Create codec uuid pg_text u db).2.
Proof.
  intros H. unfold UpstreamRepository_Create. destruct (authColumns _ _ _) as [[[ty un] se]|]; [|done].
  destruct (upstream_constraint _ _ _); [done|]. by apply next_serial_wf, insert_upstream_wf.
Qed.

Lemma Upstream_Update_wf u db : wf db → wf (UpstreamRepository_Update codec pg_text u db).2.
Proof.
  intros H. unfold UpstreamRepository_Update. destruct (tenant_upstream _ _ _); [|done].
  destruct (upstream_constraint _ _ _); [done|]. destruct (Auth u); [|by apply insert_upstream_wf].
  destruct (authColumns _ _ _) as [[[ty un] se]|]; [|done]. by apply next_serial_wf, insert_upstream_wf.
Qed.

Lemma Upstream_Delete_wf t id db : wf db → wf (UpstreamRepository_Delete pg_text t id db).2.
Proof.
  intros H. unfold UpstreamRepository_Delete. destruct (tenant_upstream _ _ _); [|done].
  destruct (upstream_referenced db id) eqn:E; [done|]. apply set_upstreams_wf; [done|].
  intros k x w Hk Hu Hs. rewrite lookup_delete_ne; [done|]. intros <-.
  unfold upstream_referenced in E. case_decide; [done|]. case_decide as Hno; [done|]. destruct Hno. by exists k, x.
Qed.

Lemma admin_step_wf db db' :
  policies db !! uuid (db_serial db) = None → wf db → admin_step db db' → wf db'.
Proof.
  intros Hf H Hs. destruct Hs.
  - by apply Create_wf.
  - by apply Update_wf.
  - by apply Delete_wf.
  - by apply Rollback_wf.
  - unfold CreateRevision. case_decide; [|done]. destruct H. by split.
  - by apply Upstream_Create_wf.
  - by apply Upstream_Update_wf.
  - by apply Upstream_Delete_wf.
  - destruct H. split; simpl; try done. intros id r Hr. set_solver.
  - destruct H. by split.
  - destruct H. by split.
Qed.

(** Generated identifiers are new. *)
Definition fresh (db : AdminDB) : Prop := ∀ n, (db_serial db ≤ n)%nat → policies db !! uuid n = None.

Context (uuid_inj : ∀ n m, uuid n = uuid m → n = m).

Lemma write_version_fresh id r b t db :
  tenant_policy t id db = Some r → fresh db → fresh (write_version id r b db).
Proof.
  intros [Hr _]%tenant_policy_Some Hf n Hn. simpl. rewrite lookup_insert_ne; [by apply Hf|].
  intros E. specialize (Hf n Hn). rewrite <-E in Hf. congruence.
Qed.

Lemma without_policy_fresh id db : fresh db → fresh (without_policy id db).
Proof. intros Hf n Hn. simpl. rewrite lookup_delete_None. right. by apply Hf. Qed.

Lemma admin_step_fresh db db' : fresh db → admin_step db db' → fresh db'.
Proof.
  intros Hf Hs. destruct Hs; try done.
  - unfold Create. destruct (prepare p); [|done]. destruct (policy_constraint _ _ _ _); [done|].
    destruct (version_constraint _ _ _); [done|]. intros n Hn. simpl in *. rewrite lookup_insert_ne.
    + apply Hf. lia.
    + intros E%uuid_inj. lia.
  - unfold Update. destruct (prepare p); [|done]. destruct (tenant_policy _ _ _) eqn:Hr; [|done].
    destruct (policy_constraint _ _ _ _); [done|]. destruct (version_constraint _ _ _); [done|].
    by eapply write_version_fresh.
  - unfold Delete, forceDelete. destruct f.
    + set (db' := set_references _ _ _ db). destruct (tenant_policy t id db'); [|done].
      destruct (policy_referenced db' id); [done|]. by apply without_policy_fresh.
    + destruct (tenant_policy t id db); [|done]. destruct (policy_referenced db id); [done|]. by apply without_policy_fresh.
  - unfold RollbackToVersion. fold (rollback_def t id v db). destruct (rollback_def t id v db); [|done].
    destruct (tenant_policy _ _ _) eqn:Hr; [|done]. destruct (policy_constraint _ _ _ _); [done|].
    destruct (version_constraint _ _ _); [done|]. by eapply write_version_fresh.
  - unfold CreateRevision. by case_decide.
  - unfold UpstreamRepository_Create. destruct (authColumns _ _ _) as [[[ty un] se]|]; [|done].
    destruct (upstream_constraint _ _ _); [done|]. intros n Hn. apply Hf. simpl in Hn. lia.
  - unfold UpstreamRepository_Update. destruct (tenant_upstream _ _ _); [|done].
    destruct (upstream_constraint _ _ _); [done|]. destruct (Auth u); [|done].
    destruct (authColumns _ _ _) as [[[ty un] se]|]; [|done]. intros n Hn. apply Hf. simpl in Hn. lia.
  - unfold UpstreamRepository_Delete. destruct (tenant_upstream _ _ _); [|done]. by destruct (upstream_referenced _ _).
Qed.

Lemma reachable_wf now db : rtc admin_step (empty_db now) db → wf db ∧ fresh db.
Proof.
  intros Hr. assert (wf (empty_db now) ∧ fresh (empty_db now)) as H.
  { split; [|done]. split; try done. intros id _. split; [|split]; by intros (k & r & Hk & _). }
  induction Hr as [|x y z Hxy _ IH]; [done|]. apply IH. destruct H as [Hw Hf]. split.
  - eapply admin_step_wf; [by apply Hf|done..].
  - by eapply admin_step_fresh.
Qed.
End store.

(** ** Reading back what was written *)

Lemma target_Normalize_valid t : target_Validate t = Ok t → target_Validate (target_Normalize t) = Ok (target_Normalize t).
Proof.
  destruct t as [t|]; [|done]. intros H. destruct (target_Validate_spec t) as (_ & H2 & _).
  rewrite H in H2. specialize (H2 eq_refl). destruct (target_Validate (target_Normalize (Some t))) as [x|] eqn:E; [|done].
  f_equal. cbn [target_Normalize] in *. set (n := mkPolicyTarget _ _ _) in *.
  assert (default_OnUnknown n = n) as Hn.
  { unfold default_OnUnknown at 1. rewrite decide_False; [done|]. unfold n. simpl. unfold default_OnUnknown. by case_decide. }
  unfold target_Validate in E. rewrite Hn in E. repeat case_match; by simplify_eq.
Qed.

Lemma nullable_default u : default "" (nullableString u) = u.
Proof. unfold nullableString. by case_decide. Qed.

(** The policy a row reads as, when it holds the columns of [p]. *)
Definition read_back (id : string) (r : PolicyRow) (p : Policy) : Policy :=
  set_row_fields id (pr_Version r) (pr_CreatedAt r) (pr_UpdatedAt r)
    (set_Config_Target (pol_Config p) (target_Normalize (pol_Target p)) p).

Lemma validated_target p : ValidatePolicy p = Ok p → target_Validate (pol_Target p) = Ok (pol_Target p).
Proof. rewrite ValidatePolicy_spec. intros [_ (c & c' & t' & _ & _ & _ & Ht & Hp)]. rewrite Ht. by rewrite Hp. Qed.

Lemma decodePolicyTarget_valid t : target_Validate t = Ok t → decodePolicyTarget t = Ok (target_Normalize t).
Proof. intros H. unfold decodePolicyTarget. destruct t as [t|]; [|done]. by rewrite H. Qed.

Lemma scanPolicy_columns id r p :
  ValidatePolicy p = Ok p → pr_Body r = policy_columns p → pr_TenantID r = pol_TenantID p →
  scanPolicy id r = Ok (read_back id r p).
Proof.
  intros Hv Hb Ht. unfold scanPolicy. rewrite Hb. cbn [policy_columns bd_Config bd_Target wrap_result mbind result_bind].
  rewrite decodePolicyTarget_valid by by apply validated_target. cbn [wrap_result mbind result_bind].
  unfold read_back, set_row_fields. cbn. by rewrite nullable_default, Ht.
Qed.

Lemma read_back_valid id r p : ValidatePolicy p = Ok p → ValidatePolicy (read_back id r p) = Ok (read_back id r p).
Proof.
  intros Hv. pose proof (validated_target p Hv) as Ht. rewrite ValidatePolicy_spec in Hv |- *.
  destruct Hv as [Hh (c & c' & t' & Hc & Hm & Hcv & _ & Hp)].
  assert (c' = c) as -> by (apply (f_equal pol_Config) in Hp; simpl in Hp; congruence).
  split; [exact Hh|]. exists c, c, (target_Normalize (pol_Target p)).
  split; [exact Hc|]. split; [exact Hm|]. split; [done|]. split; [by apply target_Normalize_valid|].
  unfold read_back, set_row_fields, set_Config_Target. simpl. by rewrite Hc.
Qed.

Lemma row_valid db id r : wf db → policies db !! id = Some r →
  ∃ p, scanPolicy id r = Ok p ∧ ValidatePolicy p = Ok p ∧ pol_ID p = id ∧ pol_TenantID p = pr_TenantID r ∧
       pol_Name p = bd_Name (pr_Body r).
Proof.
  intros H Hr. destruct (wf_body db id r H Hr) as [(p & [Hv _] & Ht & Hb) _].
  exists (read_back id r p). split; [by apply scanPolicy_columns|]. split; [by apply read_back_valid|].
  rewrite <-Hb. split; [done|]. split; [exact Ht|done].
Qed.

Lemma scan_rows db t rows :
  wf db → Forall (λ kv, policies db !! kv.1 = Some kv.2 ∧ pr_TenantID kv.2 = t) rows → NoDup rows.*1 →
  ∃ ps, map_result (λ kv, scanPolicy kv.1 kv.2) rows = Ok ps ∧ Forall2 (λ p p', ValidatePolicy p = Ok p') ps ps ∧
    pol_Name <$> ps = (λ kv, bd_Name (pr_Body kv.2)) <$> rows ∧ NoDup (pol_Name <$> ps).
Proof.
  intros H Hr. induction Hr as [|[k r] rows [Hk Ht] Hr IH]; intros Hnd; [by exists []; repeat constructor|].
  csimpl in *. apply NoDup_cons in Hnd as [Hnk Hnd]. destruct (IH Hnd) as (ps & Hps & Hv & Hn & Hnn).
  destruct (row_valid db k r H Hk) as (p & Hp & Hpv & _ & _ & Hpn). exists (p :: ps). rewrite Hp, Hps. csimpl.
  split; [done|]. split; [by constructor|]. split; [by rewrite Hpn, Hn|]. apply NoDup_cons. split; [|done].
  rewrite Hn, Hpn. intros ([k' r'] & E & Hin)%list_elem_of_fmap. simpl in E.
  rewrite Forall_forall in Hr. destruct (Hr _ Hin) as [Hk' Ht']. simpl in *.
  apply Hnk, list_elem_of_fmap. exists (k', r'). split; [|done]. simpl.
  eapply (wf_name _ H); [done|done|congruence|done].
Qed.

(** A tenant's policies load, and are a valid set. *)
Lemma ListByTenant_valid db t : wf db → ∃ ps, ListByTenant t db = Ok ps ∧ ValidatePolicies ps = Ok ps.
Proof.
  intros H. unfold ListByTenant. edestruct (scan_rows db t) as (ps & Hps & Hv & _ & Hn); [done| | |].
  3:{ exists ps. split; [exact Hps|]. unfold ValidatePolicies. apply validate_from_spec. split; [done|]. split; [done|].
      intros p _. apply lookup_empty. }
  - apply Forall_forall. intros [k r]. rewrite sort_by_elem, list_elem_of_filter, elem_of_map_to_list. simpl. tauto.
  - rewrite (fmap_Permutation _ _ _ (sort_by_perm _ _)). apply NoDup_fmap_filter, NoDup_fst_map_to_list.
Qed.

Lemma target_Normalize_idem t : target_Normalize (target_Normalize t) = target_Normalize t.
Proof. destruct t as [t|]; [|done]. by destruct (target_Validate_spec t) as (_ & _ & ?). Qed.

(** ** Rolling back *)

Definition set_bd_Target (t : option PolicyTarget) (b : PolicyBody) : PolicyBody :=
  mkPolicyBody (bd_UpstreamID b) (bd_Name b) (bd_Type b) (bd_Action b) (bd_SchemaVersion b) (bd_Config b) t
    (bd_Priority b) (bd_Enabled b).

(** The body a rollback writes: that of the version, its target in normal form. *)
Definition normal_body (b : PolicyBody) : PolicyBody := set_bd_Target (target_Normalize (bd_Target b)) b.

Definition at_zero (id : string) (p : Policy) : Policy :=
  set_row_fields id 0 zero_time zero_time (set_Config_Target (pol_Config p) (target_Normalize (pol_Target p)) p).

Lemma at_zero_read_back id p :
  at_zero id p = read_back id (mkPolicyRow "" (policy_columns p) 0 zero_time zero_time) p.
Proof. done. Qed.

Lemma at_zero_columns id p : policy_columns (at_zero id p) = normal_body (policy_columns p).
Proof. done. Qed.

Lemma loadRollback_version t id v db x p :
  (∃ r, tenant_policy t id db = Some r) → versions db !! (id, v) = Some x →
  storable p → pol_TenantID p = t → policy_columns p = vr_Body x →
  rollback_def t id v db = Ok (at_zero id p).
Proof.
  intros [r Hr] Hx Hp Ht Hb. pose proof Hp as [Hv _].
  unfold rollback_def, loadRollbackPolicyVersion. rewrite Hr, Hx. unfold scanPolicyVersion. rewrite <-Hb.
  cbn [policy_columns bd_Config bd_Target wrap_result mbind result_bind].
  rewrite decodePolicyTarget_valid by by apply validated_target. cbn [wrap_result mbind result_bind].
  unfold rollbackPolicy. cbn. rewrite nullable_default.
  replace (mkPolicy _ _ _ _ _ _ _ _ _ _ _ _ _ _) with (at_zero id p); [|by rewrite <-Ht].
  rewrite at_zero_read_back, read_back_valid, <-at_zero_read_back by done. cbn.
  destruct (storable_marshal "marshalling rolled back config: " p Hp) as [y Hy]. by rewrite Hy.
Qed.

Lemma no_next_version db id r : wf db → policies db !! id = Some r → version_constraint id (pr_Version r + 1) db = None.
Proof.
  intros H Hr. destruct (wf_window _ H id r Hr) as [_ Hw]. unfold version_constraint. rewrite decide_True; [done|].
  destruct (versions db !! (id, pr_Version r + 1)) eqn:E; [|done]. destruct (proj1 (Hw (pr_Version r + 1))); [by eexists|lia].
Qed.

Lemma tenant_policy_None t id db : tenant_policy t id db = None → GetByID t id db = Err (sentinel_error ErrPolicyNotFound).
Proof. unfold tenant_policy, GetByID. destruct (policies db !! id); [|done]. by case_decide. Qed.

(** Reading a policy of the tenant, as its row says. *)
Lemma GetByID_row t id db r p :
  tenant_policy t id db = Some r → storable p → pol_TenantID p = t → policy_columns p = pr_Body r →
  GetByID t id db = Ok (read_back id r p).
Proof.
  intros [Hr Ht]%tenant_policy_Some [Hv _] Hp Hb. unfold GetByID. rewrite Hr, decide_True by done.
  rewrite (scanPolicy_columns id r p); [done|done|done|congruence].
Qed.

Lemma tenant_policy_write t id r b db :
  tenant_policy t id db = Some r →
  tenant_policy t id (write_version id r b db) = Some (updated_row r b (db_now db)).
Proof.
  intros [_ Ht]%tenant_policy_Some. unfold tenant_policy, write_version. simpl. rewrite lookup_insert_eq.
  by rewrite decide_True.
Qed.

(** A normalised policy reads back as it was returned. *)
Lemma read_back_at_zero id r p :
  read_back id r (at_zero id p) = set_row_fields id (pr_Version r) (pr_CreatedAt r) (pr_UpdatedAt r) (at_zero id p).
Proof. unfold read_back, at_zero, set_row_fields, set_Config_Target. simpl. by rewrite target_Normalize_idem. Qed.

Lemma at_zero_storable id p : storable p → storable (at_zero id p).
Proof. intros [Hv Hm]. split; [|exact Hm]. rewrite at_zero_read_back. by apply read_back_valid. Qed.

Lemma set_row_valid id v c u p : storable p → ValidatePolicy (set_row_fields id v c u p) = Ok (set_row_fields id v c u p).
Proof.
  intros [[H (x & x' & t' & H1 & H2 & H3 & H4 & H5)]%ValidatePolicy_spec _]. apply ValidatePolicy_spec.
  split; [exact H|]. exists x, x', t'. split; [done|]. split; [done|]. split; [done|]. split; [done|].
  apply (f_equal (set_row_fields id v c u)) in H5. exact H5.
Qed.

Section rollback.
Context (pg_text : PgError → error).

(** What a rollback to a retained version of a policy of the tenant does. *)
Lemma Rollback_run t id v db r x :
  wf db → tenant_policy t id db = Some r → versions db !! (id, v) = Some x →
  if decide (name_taken db id t (bd_Name (vr_Body x))) then
    RollbackToVersion pg_text t id v db =
      (Err (wrap_error "updating policy during rollback: "
              (pg_text (mkPgError unique_violation "policies_tenant_id_name_key"))), db)
  else
    ∃ p, RollbackToVersion pg_text t id v db = (Ok p, write_version id r (normal_body (vr_Body x)) db) ∧
      ValidatePolicy p = Ok p ∧ pol_Version p = pr_Version r + 1 ∧
      policy_columns p = normal_body (vr_Body x) ∧
      GetByID t id (write_version id r (normal_body (vr_Body x)) db) = Ok p.
Proof.
  intros H Hr Hx. destruct (tenant_policy_Some _ _ _ _ Hr) as [Hr' Ht].
  destruct (wf_version _ H id v x Hx) as (r' & Hr'' & (p & Hp & Hpt & Hb) & Hu). simplify_eq.
  assert (Hdef : rollback_def (pr_TenantID r) id v db = Ok (at_zero id p)).
  { apply (loadRollback_version _ _ _ _ x); eauto. }
  unfold RollbackToVersion. fold (rollback_def (pr_TenantID r) id v db). rewrite Hdef, Hr.
  unfold policy_constraint. rewrite at_zero_columns, Hb. cbn [normal_body set_bd_Target bd_Name bd_UpstreamID].
  case_decide as Hn; [done|]. rewrite decide_False by (intros []; by eapply (wf_tenant _ H)).
  rewrite decide_False by done. rewrite no_next_version by done.
  eexists. split; [done|].
  pose proof (at_zero_storable id p Hp) as Hz. pose proof Hz as [Hv _].
  split; [|split; [done|split; [by rewrite <-Hb|]]].
  - pose proof (read_back_valid id (updated_row r (normal_body (vr_Body x)) (db_now db)) _ Hv) as Hrb.
    by rewrite read_back_at_zero in Hrb.
  - rewrite (GetByID_row _ _ _ (updated_row r (normal_body (vr_Body x)) (db_now db)) (at_zero id p)).
    + by rewrite read_back_at_zero.
    + by apply tenant_policy_write.
    + done.
    + done.
    + rewrite at_zero_columns, Hb. done.
Qed.

(** C7: What a rollback does, on every branch, in every reachable state of the
    store.  A policy the tenant does not have, and a version that is not
    retained, are the two not-found errors; a version whose name another policy
    of the tenant has taken since is refused with the database's error.  Any
    other rollback succeeds: it appends one version with the body of the old one
    (its target in normal form), which is valid and is what a reader gets next;
    of the earlier versions the two newest stay; and no other policy, and no
    version of one, is touched. *)
Theorem RollbackToVersion_spec (uuid : nat → string) (codec : option SecretCodec) now db t id v :
  (∀ n m, uuid n = uuid m → n = m) →
  rtc (admin_step codec uuid pg_text) (empty_db now) db →
  match tenant_policy t id db, versions db !! (id, v) with
  | None, _ => RollbackToVersion pg_text t id v db = (Err (sentinel_error ErrPolicyNotFound), db)
  | Some _, None => RollbackToVersion pg_text t id v db = (Err (sentinel_error ErrPolicyVersionNotFound), db)
  | Some r, Some x =>
      if decide (name_taken db id t (bd_Name (vr_Body x))) then
        RollbackToVersion pg_text t id v db =
          (Err (wrap_error "updating policy during rollback: "
                  (pg_text (mkPgError unique_violation "policies_tenant_id_name_key"))), db)
      else
        ∃ p db', RollbackToVersion pg_text t id v db = (Ok p, db') ∧
          ValidatePolicy p = Ok p ∧ pol_Version p = pr_Version r + 1 ∧
          policy_columns p = normal_body (vr_Body x) ∧ GetByID t id db' = Ok p ∧
          (∀ w, is_Some (versions db' !! (id, w)) ↔ Z.max 1 (pr_Version r - 1) ≤ w ≤ pr_Version r + 1) ∧
          (∀ i, i ≠ id → policies db' !! i = policies db !! i ∧ ∀ w, versions db' !! (i, w) = versions db !! (i, w))
  end.
Proof.
  intros Hinj Hreach. destruct (reachable_wf codec uuid pg_text Hinj now db Hreach) as [H _].
  destruct (tenant_policy t id db) as [r|] eqn:Hr.
  2:{ unfold RollbackToVersion, loadRollbackPolicyVersion. by rewrite Hr, (tenant_policy_None _ _ _ Hr). }
  destruct (tenant_policy_Some _ _ _ _ Hr) as [Hr' Ht].
  destruct (versions db !! (id, v)) as [x|] eqn:Hx.
  2:{ destruct (wf_body db id r H Hr') as [(p & Hp & Hpt & Hb) _].
      unfold RollbackToVersion, loadRollbackPolicyVersion.
      rewrite Hr, Hx, (GetByID_row _ _ _ r p); [done|done|done|congruence|done]. }
  pose proof (Rollback_run t id v db r x H Hr Hx) as Hrun. case_decide as Hn; [done|].
  destruct Hrun as (p & Hrun & Hv & Hver & Hcol & Hget). exists p. eexists. split; [exact Hrun|].
  split; [done|]. split; [done|]. split; [done|]. split; [done|].
  destruct (wf_window _ H id r Hr') as [H1 Hw]. split.
  - intros w. simpl. replace (Z.max 1 (pr_Version r - 1)) with (Z.max (Z.max 1 (pr_Version r - 2)) (pr_Version r - 1)) by lia.
    apply record_version_window; [done|lia].
  - intros i Hi. simpl. rewrite lookup_insert_ne by done. split; [done|]. intros w. by apply record_version_other.
Qed.

(** C6: The invariant of the control-plane store.  In every state that the
    repositories, other writers of the evaluation tables and the passing of time
    can reach: a tenant has no two policies of one name; the versions of a policy
    are the three newest, gap-free up to its current one, which holds the policy
    as it is; every policy and every retained version is one that validation
    accepts, of a tenant and an upstream that exist; and so the policies of every
    tenant load and are a valid set. *)
Theorem store_invariant (uuid : nat → string) (codec : option SecretCodec) now db :
  (∀ n m, uuid n = uuid m → n = m) →
  rtc (admin_step codec uuid pg_text) (empty_db now) db →
  wf db ∧ ∀ t, ∃ ps, ListByTenant t db = Ok ps ∧ ValidatePolicies ps = Ok ps.
Proof.
  intros Hinj Hreach. destruct (reachable_wf codec uuid pg_text Hinj now db Hreach) as [H _].
  split; [done|]. intros t. by apply ListByTenant_valid.
Qed.

(** What [Create] and [Update] return is what a reader finds: they fill in the
    policy's schema version, accept it only when it is valid, and afterwards
    [GetByID] returns what they returned, its target in normal form; a creation
    starts at version 1 under an identifier no policy had, an update adds one to
    the version and leaves the creation time of the row. *)
Theorem writes_read_back (uuid : nat → string) (codec : option SecretCodec) now db p p' db' :
  (∀ n m, uuid n = uuid m → n = m) →
  rtc (admin_step codec uuid pg_text) (empty_db now) db →
  (Create uuid pg_text p db = (Ok p', db') →
     policies db !! pol_ID p' = None ∧ ValidatePolicy p' = Ok p' ∧ pol_Version p' = 1 ∧
     GetByID (pol_TenantID p) (pol_ID p') db' = Ok (set_Config_Target (pol_Config p') (target_Normalize (pol_Target p')) p')) ∧
  (Update pg_text p db = (Ok p', db') →
     ∃ r, policies db !! pol_ID p = Some r ∧ pr_TenantID r = pol_TenantID p ∧ ValidatePolicy p' = Ok p' ∧
     pol_Version p' = pr_Version r + 1 ∧
     GetByID (pol_TenantID p) (pol_ID p) db' =
       Ok (set_row_fields (pol_ID p) (pol_Version p') (pr_CreatedAt r) (db_now db)
             (set_Config_Target (pol_Config p') (target_Normalize (pol_Target p')) p'))).
Proof.
  intros Hinj Hreach. destruct (reachable_wf codec uuid pg_text Hinj now db Hreach) as [H Hf]. split.
  - unfold Create. destruct (prepare p) as [q|] eqn:Hq; [|done]. apply prepare_valid in Hq as (Hs & Ht & _).
    destruct (policy_constraint _ _ _ _) eqn:Hc; [done|]. destruct (version_constraint _ _ _); [done|].
    intros [= <- <-]. split; [by apply Hf|]. split; [by apply set_row_valid|]. split; [done|]. simpl.
    rewrite (GetByID_row _ _ _ (mkPolicyRow (pol_TenantID q) (policy_columns q) 1 (db_now db) (db_now db)) q); [done|..|done].
    + unfold tenant_policy. simpl. rewrite lookup_insert_eq. simpl. by rewrite Ht, decide_True.
    + done.
    + done.
  - unfold Update. destruct (prepare p) as [q|] eqn:Hq; [|done]. apply prepare_valid in Hq as (Hs & Ht & Hi).
    rewrite Ht, Hi. destruct (tenant_policy _ _ _) as [r|] eqn:Hr; [|done].
    destruct (policy_constraint _ _ _ _) eqn:Hc; [done|]. destruct (version_constraint _ _ _); [done|].
    intros [= <- <-]. destruct (tenant_policy_Some _ _ _ _ Hr) as [Hr' Hrt].
    exists r. split; [done|]. split; [done|]. split; [by apply set_row_valid|]. split; [done|].
    rewrite (GetByID_row _ _ _ (updated_row r (policy_columns q) (db_now db)) q); [done|..|done].
    + by apply tenant_policy_write.
    + done.
    + done.
Qed.
End rollback.

(** ** A concrete store *)

Definition serial_uuid (n : nat) : string := itoa (Z.of_nat n).
Definition pg_message (e : PgError) : error := new_error (pg_Code e +:+ " " +:+ pg_ConstraintName e).

Lemma serial_uuid_inj n m : serial_uuid n = serial_uuid m → n = m.
Proof. intros H%itoa_inj. lia. Qed.

Definition set_pol_Name (n : string) (p : Policy) : Policy :=
  mkPolicy (pol_ID p) (pol_TenantID p) (pol_UpstreamID p) n (pol_Type p) (pol_Action p) (pol_SchemaVersion p)
    (pol_Config p) (pol_Target p) (pol_Priority p) (pol_Enabled p) (pol_Version p) (pol_CreatedAt p) (pol_UpdatedAt p).

(** A policy of tenant t1, created and then renamed. *)
Definition stored_once : AdminDB := (Create serial_uuid pg_message block_policy (with_tenant "t1" (empty_db 5))).2.
Definition stored_twice : AdminDB :=
  (Update pg_message (set_pol_ID (serial_uuid 0) (set_pol_Name "renamed" block_policy)) stored_once).2.

Lemma stored_twice_reachable : rtc (admin_step None serial_uuid pg_message) (empty_db 5) stored_twice.
Proof.
  eapply rtc_l; [apply (as_tenant _ _ _ _ "t1")|]. eapply rtc_l; [apply (as_create _ _ _ _ block_policy)|].
  eapply rtc_l; [apply (as_update _ _ _ _ (set_pol_ID (serial_uuid 0) (set_pol_Name "renamed" block_policy)))|].
  apply rtc_refl.
Qed.

Lemma name_free id : ¬ name_taken stored_twice id "t1" "block".
Proof. intros (i & r & Hr & _ & _ & Hn). apply elem_of_map_to_list in Hr. vm_compute in Hr. set_solver. Qed.

Lemma store_invariant_witness :
  wf stored_twice ∧ ∃ ps, ListByTenant "t1" stored_twice = Ok ps ∧ ValidatePolicies ps = Ok ps ∧ length ps = 1%nat.
Proof.
  destruct (store_invariant pg_message serial_uuid None 5 stored_twice serial_uuid_inj stored_twice_reachable) as [H Hl].
  split; [exact H|]. destruct (Hl "t1") as (ps & E & Hv). exists ps. split; [exact E|]. split; [exact Hv|].
  assert (length <$> ListByTenant "t1" stored_twice = Ok 1%nat) as E' by (vm_compute; reflexivity).
  rewrite E in E'. simpl in E'. by injection E'.
Defined.

Lemma RollbackToVersion_spec_witness :
  ∃ p db', RollbackToVersion pg_message "t1" (serial_uuid 0) 1 stored_twice = (Ok p, db') ∧
    pol_Version p = 3 ∧ GetByID "t1" (serial_uuid 0) db' = Ok p.
Proof.
  pose proof (RollbackToVersion_spec pg_message serial_uuid None 5 stored_twice "t1" (serial_uuid 0) 1
    serial_uuid_inj stored_twice_reachable) as H.
  destruct (tenant_policy "t1" (serial_uuid 0) stored_twice) as [r|] eqn:Er; [|vm_compute in Er; discriminate Er].
  assert (pr_Version r = 2) as Hv by (vm_compute in Er; by injection Er as <-).
  destruct (versions stored_twice !! (serial_uuid 0, 1)) as [x|] eqn:Ex; [|vm_compute in Ex; discriminate Ex].
  rewrite decide_False in H.
  - destruct H as (p & db' & H1 & _ & H2 & _ & H3 & _). exists p, db'. split; [exact H1|]. split; [lia|exact H3].
  - vm_compute in Ex. injection Ex as <-. exact (name_free (serial_uuid 0)).
Defined.

Lemma writes_read_back_witness :
  ∃ p' db', Create serial_uuid pg_message (set_pol_Name "second" block_policy) stored_twice = (Ok p', db') ∧
    GetByID "t1" (pol_ID p') db' = Ok (set_Config_Target (pol_Config p') (target_Normalize (pol_Target p')) p').
Proof.
  destruct (Create serial_uuid pg_message (set_pol_Name "second" block_policy) stored_twice) as [[p'|e] db'] eqn:E;
    [|vm_compute in E; discriminate E].
  exists p', db'. split; [reflexivity|].
  destruct (proj1 (writes_read_back pg_message serial_uuid None 5 stored_twice _ _ _ serial_uuid_inj
    stored_twice_reachable) E) as (_ & _ & _ & H). exact H.
Defined.
