(* ===== verification/ControlPlane.v ===== *)
(** * The control plane: services, store and decision cache together

    The services of [PolicyAdmin] run on the repositories of [PolicyStore] and
    [UpstreamStore] and on the decision cache of [Valkey]. *)

From S2P Require Import Prelude GoStrings Artifact Dependency Upstream PolicyConfig Policy Catalog PolicyHash Effects Ports.
From S2P Require Import Evaluator Valkey PolicyAdmin AdminTables PolicyStore UpstreamStore AdminStore.
#[local] Open Scope list_scope.

(** ** Definitions *)

Record Plane (W : Type) : Type := mkPlane { pl_db : AdminDB; pl_cache : W }.
Arguments mkPlane {W} _ _.
Arguments pl_db {W} _.
Arguments pl_cache {W} _.

Section plane.
Context (codec : option SecretCodec) (uuid : nat → string) (pg_text : PgError → error).
Context {W : Type} `{!KV W}.

Definition on_db {A} (f : AdminDB → result A * AdminDB) (w : Plane W) : result A * Plane W :=
  let '(r, db) := f (pl_db w) in (r, mkPlane db (pl_cache w)).

Definition from_db {A} (f : AdminDB → result A) (w : Plane W) : result A * Plane W := (f (pl_db w), w).

(** A method that returns a pointer returns one when it succeeds. *)
Definition non_nil {A} (r : result A) : result (option A) := a ← r; Ok (Some a).

Definition on_cache (m : M W unit ()) (w : Plane W) : result () * Plane W :=
  let '(r, st) := m (mkSt (pl_cache w) []) in (r, mkPlane (pl_db w) (world st)).

Definition plane_ports : AdminPorts (Plane W) := {|
  repo_GetByID t i := from_db (λ db, non_nil (PolicyStore.GetByID t i db));
  repo_ListByTenant t := from_db (ListByTenant t);
  repo_ListVersions t i n := from_db (PolicyStore.ListVersions t i n);
  repo_RollbackToVersion t i v := on_db (λ db, let '(r, db) := PolicyStore.RollbackToVersion pg_text t i v db in (non_nil r, db));
  repo_Create p := on_db (Create uuid pg_text p);
  repo_Update p := on_db (Update pg_text p);
  repo_Delete t i f := on_db (Delete pg_text t i f);
  revisions_Create t h := on_db (CreateRevision pg_text t h);
  cache_InvalidateTenant t := on_cache (DecisionCache_InvalidateTenant t);
  upstreams_GetByID t i := from_db (λ db, non_nil (UpstreamRepository_GetByID codec t i db));
  upstreams_Create u := on_db (UpstreamRepository_Create codec uuid pg_text u);
  upstreams_Update u := on_db (UpstreamRepository_Update codec pg_text u);
  upstreams_Delete t i := on_db (UpstreamRepository_Delete pg_text t i);
  upstreams_ListByTenant t := from_db (UpstreamRepository_ListByTenant codec t);
|}.
End plane.

(** What a logged call says about the world before and after it. *)
Definition performed {W} `{!AdminPorts W} (w : W) (c : AdminCall) (w' : W) : Prop :=
  match c with
  | AGetPolicy t i r => repo_GetByID t i w = (r, w')
  | AListPolicies t r => repo_ListByTenant t w = (r, w')
  | AListVersions t i n r => repo_ListVersions t i n w = (r, w')
  | ARollback t i v r => repo_RollbackToVersion t i v w = (r, w')
  | ACreate p r => repo_Create p w = (r, w')
  | AUpdate p r => repo_Update p w = (r, w')
  | ADelete t i f r => repo_Delete t i f w = (r, w')
  | ARevision t h r => revisions_Create t h w = (r, w')
  | AInvalidate t r => cache_InvalidateTenant t w = (r, w')
  | AGetUpstream t i r => upstreams_GetByID t i w = (r, w')
  | ACreateUpstream u r => upstreams_Create u w = (r, w')
  | AUpdateUpstream u r => upstreams_Update u w = (r, w')
  | ADeleteUpstream t i r => upstreams_Delete t i w = (r, w')
  | AListUpstreams t r => upstreams_ListByTenant t w = (r, w')
  end.

(** ** Every workflow does what it logs *)

Section follows.
Context {W : Type} `{!AdminPorts W}.
Notation follows := (follows (performed (W:=W))).

#[local] Ltac performed := cbn [performed]; apply surjective_pairing.

Lemma pointed_follows {A} (o : option A) : follows (pointed o).
Proof. destruct o; [apply follows_ret|apply follows_throw]. Qed.
#[local] Hint Resolve pointed_follows : calls.

Lemma scope_follows s t u pt : follows (validateUpstreamScope s t u pt).
Proof. unfold validateUpstreamScope, GetUpstream. follow; performed. Qed.
#[local] Hint Resolve scope_follows : calls.

Lemma finalize_follows t : follows (finalizeTenantMutation t).
Proof.
  unfold finalizeTenantMutation, revision_errors, ListPolicies, Revision_call, InvalidateTenant. follow; performed.
Qed.
#[local] Hint Resolve finalize_follows : calls.

Lemma Create_follows s p : follows (CreatePolicy s p).
Proof. unfold CreatePolicy, validatePolicyMutation, Create_call. follow; performed. Qed.
Lemma Update_follows s p : follows (UpdatePolicy s p).
Proof. unfold UpdatePolicy, validatePolicyMutation, Update_call. follow; performed. Qed.
Lemma Delete_follows t i f : follows (DeletePolicy t i f).
Proof. unfold DeletePolicy, GetPolicy, Delete_call. follow; performed. Qed.
Lemma Rollback_follows s t i v : follows (PolicyAdmin.RollbackToVersion s t i v).
Proof. unfold PolicyAdmin.RollbackToVersion, ListVersions_call, Rollback_call. follow; performed. Qed.

Lemma prepare_each_follows s t ps : follows (prepare_each s t ps).
Proof. induction ps; simpl; follow. Qed.
#[local] Hint Resolve prepare_each_follows : calls.

Lemma persist_follows m l ex : follows (persistImportedPolicies m l ex).
Proof.
  induction l as [|p l IH] in m, ex |- *; cbn [persistImportedPolicies]; follow; try apply IH.
  unfold persistImportedPolicy, Create_call, Update_call. follow; performed.
Qed.
#[local] Hint Resolve persist_follows : calls.

Lemma Import_follows s t ps : follows (ImportPolicies s t ps).
Proof.
  unfold ImportPolicies, prepareImportedPolicies, existingPoliciesByName, importPersistenceError, ListPolicies.
  follow; performed.
Qed.
End follows.

(** ** The invariant of the plane *)

Section invariant.
Context (codec : option SecretCodec) (uuid : nat → string) (pg_text : PgError → error).
Context (uuid_inj : ∀ n m, uuid n = uuid m → n = m).
Context {W : Type} `{!KV W, !WorkingKV W}.
#[local] Instance ports : AdminPorts (Plane W) := plane_ports codec uuid pg_text.

Record plane_ok (w : Plane W) : Prop := {
  ok_wf : wf (pl_db w);
  ok_fresh : fresh uuid (pl_db w);
  ok_cache : cache_inv (view (pl_cache w));
}.

Definition tenant_rows (t : string) (db : AdminDB) : gmap string PolicyRow :=
  filter (λ kv, pr_TenantID kv.2 = t) (policies db).

(** No decision of the tenant can be read from the cache. *)
Definition unread (t : string) (c : W) : Prop :=
  ∀ a h, (DecisionCache_Get t a h (mkSt c [])).1 = Err (sentinel_error ErrCacheMiss).

(** What is cached was decided under the policies the tenant still has. *)
Definition current (t : string) (db0 : AdminDB) (w : Plane W) : Prop :=
  tenant_rows t (pl_db w) = tenant_rows t db0 ∨ unread t (pl_cache w).

Lemma db_step w db :
  plane_ok w → admin_step codec uuid pg_text (pl_db w) db → plane_ok (mkPlane db (pl_cache w)).
Proof.
  intros [Hw Hf Hc] Hs. split; simpl; [|by eapply admin_step_fresh|done].
  eapply admin_step_wf; [by apply Hf|done..].
Qed.

(** A failed write leaves the tables alone. *)
Lemma failed_write t p i f v (db : AdminDB) :
  (is_ok (Create uuid pg_text p db).1 = false → (Create uuid pg_text p db).2 = db) ∧
  (is_ok (Update pg_text p db).1 = false → (Update pg_text p db).2 = db) ∧
  (is_ok (Delete pg_text t i f db).1 = false → (Delete pg_text t i f db).2 = db) ∧
  (is_ok (PolicyStore.RollbackToVersion pg_text t i v db).1 = false →
     (PolicyStore.RollbackToVersion pg_text t i v db).2 = db).
Proof.
  unfold Create, Update, Delete, forceDelete, PolicyStore.RollbackToVersion.
  split; [|split; [|split]]; repeat case_match; done.
Qed.

Lemma upstream_writes_keep_policies u t i (db : AdminDB) :
  policies (UpstreamRepository_Create codec uuid pg_text u db).2 = policies db ∧
  policies (UpstreamRepository_Update codec pg_text u db).2 = policies db ∧
  policies (UpstreamRepository_Delete pg_text t i db).2 = policies db.
Proof.
  unfold UpstreamRepository_Create, UpstreamRepository_Update, UpstreamRepository_Delete.
  split; [|split]; repeat case_match; done.
Qed.

Lemma rolled_back_valid t i v db p :
  (PolicyStore.RollbackToVersion pg_text t i v db).1 = Ok p → ValidatePolicy p = Ok p.
Proof.
  unfold PolicyStore.RollbackToVersion. fold (rollback_def t i v db).
  destruct (rollback_def t i v db) as [q|] eqn:Hq; [|done]. apply rollback_def_valid in Hq as (Hs & _ & _).
  repeat case_match; intros [= <-]; try done. by apply set_row_valid.
Qed.

(** Whether the tenant's cached decisions are out of date, call by call. *)
Definition tracked (t : string) (db0 : AdminDB) (stale : bool) (w : Plane W) : Prop :=
  plane_ok w ∧ (stale = false → current t db0 w).

Lemma tracked_db t db0 b w {A} (f : AdminDB → result A * AdminDB) r w' :
  tracked t db0 b w → on_db f w = (r, w') → admin_step codec uuid pg_text (pl_db w) (f (pl_db w)).2 →
  policies (f (pl_db w)).2 = policies (pl_db w) → tracked t db0 b w'.
Proof.
  intros [Ho Hb] H Hs Hp. unfold on_db in H. destruct (f (pl_db w)) as [r' db]. injection H as _ <-.
  split; [by apply db_step|]. intros H. destruct (Hb H) as [E|E]; [left|by right].
  unfold tenant_rows in *. simpl in *. by rewrite Hp.
Qed.

(** A mutation of the policies: stale when it succeeds, nothing when it fails. *)
Lemma tracked_mutation t db0 b w {A} (f : AdminDB → result A * AdminDB) r w' :
  tracked t db0 b w → on_db f w = (r, w') →
  admin_step codec uuid pg_text (pl_db w) (f (pl_db w)).2 →
  (is_ok (f (pl_db w)).1 = false → (f (pl_db w)).2 = pl_db w) →
  tracked t db0 (match r with Ok _ => true | Err _ => b end) w'.
Proof.
  intros Ht H Hs Hf. unfold on_db in H. destruct (f (pl_db w)) as [r' db] eqn:E. injection H as -> <-. simpl in *.
  destruct r.
  - split; [|done]. by apply db_step, Hs; destruct Ht.
  - rewrite Hf by done. by destruct w.
Qed.

Lemma tracked_invalidate t t' db0 b w r w' :
  free_of is_colon t → tracked t db0 b w → on_cache (DecisionCache_InvalidateTenant t') w = (r, w') →
  tracked t db0 (if decide (t' = t) then false else b) w'.
Proof.
  intros Hfree [[Hw Hf Hc] Hb] H. unfold on_cache in H.
  pose proof (invalidated_ok t' (mkSt (pl_cache w) []) Hc) as [_ Hc'].
  pose proof (invalidated_miss t' (mkSt (pl_cache w) []) Hc) as Hmiss.
  pose proof (invalidated_other t' (mkSt (pl_cache w) []) Hc) as Hother.
  destruct (DecisionCache_InvalidateTenant t' _) as [r' st]. injection H as -> <-. simpl in *.
  assert (Hget : ∀ a h, (DecisionCache_Get t a h (mkSt (world st) [])).1 = (DecisionCache_Get t a h st).1).
  { intros a h. by rewrite !DecisionCache_Get_run. }
  split; [by split|]. case_decide as Ht; [subst t'|].
  - intros _. right. intros a h. simpl. rewrite Hget. by apply Hmiss.
  - intros [E|E]%Hb; [by left|right]. intros a h. simpl. rewrite Hget, Hother by done. apply E.
Qed.

Lemma rollback_step t i v db :
  admin_step codec uuid pg_text db
    (let '(r, db) := PolicyStore.RollbackToVersion pg_text t i v db in (non_nil r, db)).2.
Proof.
  pose proof (as_rollback codec uuid pg_text db t i v) as H.
  by destruct (PolicyStore.RollbackToVersion pg_text t i v db).
Qed.

Definition no_upstream : Upstream := mkUpstream "" "" "" EcosystemNPM "" None None zero_time zero_time.

Lemma performed_tracked t db0 b w c w' :
  free_of is_colon t → tracked t db0 b w → performed w c w' → tracked t db0 (track t b c) w'.
Proof.
  intros Hfree Ht Hc. destruct c; cbv [performed track ports plane_ports repo_GetByID repo_ListByTenant
    repo_ListVersions repo_RollbackToVersion repo_Create repo_Update repo_Delete revisions_Create
    cache_InvalidateTenant upstreams_GetByID upstreams_Create upstreams_Update upstreams_Delete from_db] in *;
    try by injection Hc as _ <-.
  - eapply tracked_mutation in Hc; [by destruct r|done|apply rollback_step|].
    destruct (failed_write tenant block_policy id false version (pl_db w)) as (_ & _ & _ & Hw).
    destruct (PolicyStore.RollbackToVersion _ _ _ _ _) as [[]]; [done|exact Hw].
  - eapply tracked_mutation in Hc; [by destruct r|done|apply as_create|apply (failed_write "" p "" false 0)].
  - eapply tracked_mutation in Hc; [by destruct r|done|apply as_update|apply (failed_write "" p "" false 0)].
  - eapply tracked_mutation in Hc; [by destruct r|done|apply as_delete|apply (failed_write tenant block_policy id force 0)].
  - eapply tracked_db in Hc; [exact Hc|done|apply as_revision|]. unfold CreateRevision. by case_decide.
  - by eapply tracked_invalidate.
  - eapply tracked_db in Hc; [exact Hc|done|apply as_upstream_create|apply (upstream_writes_keep_policies _ "" "")].
  - eapply tracked_db in Hc; [exact Hc|done|apply as_upstream_update|apply (upstream_writes_keep_policies _ "" "")].
  - eapply tracked_db in Hc; [exact Hc|done|apply as_upstream_delete|]. apply (upstream_writes_keep_policies no_upstream).
Qed.

#[local] Instance ports_keep : KeepsTenant (Plane W).
Proof.
  split; intros p w p'; cbn; unfold on_db.
  - unfold Create. destruct (prepare p) as [q|] eqn:Hq; [|done]. apply prepare_valid in Hq as (_ & Ht & _).
    destruct (policy_constraint _ _ _ _); [done|]. destruct (version_constraint _ _ _); [done|]. by intros [= <-].
  - unfold Update. destruct (prepare p) as [q|] eqn:Hq; [|done]. apply prepare_valid in Hq as (_ & Ht & _).
    destruct (tenant_policy _ _ _); [|done]. destruct (policy_constraint _ _ _ _); [done|].
    destruct (version_constraint _ _ _); [done|]. by intros [= <-].
Qed.

(** The rollbacks of a history restored valid policies. *)
Lemma history_rollbacks w l w' t i v :
  history (performed (W:=Plane W)) w l w' →
  Forall (λ c, ∀ o, c = ARollback t i v (Ok o) → ∃ p, o = Some p ∧ ValidatePolicy p = Ok p) l.
Proof.
  apply (history_forall _ (λ _, True)); [|done]. intros x c y _ Hc. split; [done|]. intros o ->. cbn in Hc. unfold on_db in Hc.
  destruct (PolicyStore.RollbackToVersion _ _ _ _ _) as [[p|e] db] eqn:E; [|done]. injection Hc as <- _. exists p.
  split; [done|]. by apply (rolled_back_valid t i v (pl_db x)); rewrite E.
Qed.

Lemma history_current t w l w' :
  free_of is_colon t → plane_ok w → settled t l → history (performed (W:=Plane W)) w l w' →
  current t (pl_db w) w'.
Proof.
  intros Hf Hw Hs Hh.
  pose proof (history_ind_inv performed (track t) (tracked t (pl_db w)) false w l w') as H.
  destruct H as [_ H]; [..|by apply H, Hs].
  - intros b x c y. by apply performed_tracked.
  - split; [done|]. by left.
  - done.
Qed.

(** A workflow that settles its tenant leaves nothing stale behind. *)
Lemma ends_current {A} t (m : M (Plane W) AdminCall A) st :
  free_of is_colon t → plane_ok (world st) → follows (performed (W:=Plane W)) m → ends t m →
  current t (pl_db (world st)) (world (m st).2).
Proof.
  intros Hf Hw Hm He. destruct (follows_run _ m _ st Hm He) as (l & _ & Hh & Hs). by eapply history_current.
Qed.

(** ** The recorded revision *)

(** The newest revision of the tables is the tenant's, with the hash of the
    policies the tenant has. *)
Definition recorded (t : string) (w : Plane W) : Prop :=
  ∃ ps ps' h g, ListByTenant t (pl_db w) = Ok ps ∧ ValidatePolicies ps = Ok ps' ∧ HashPolicies ps' = Ok h ∧
    last (revisions (pl_db w)) = Some (mkRevisionRow t g h).

Lemma finalize_records t st st' : finalizeTenantMutation t st = (Ok (), st') → recorded t (world st').
Proof.
  intros H. destruct (finalize_success t st st' H) as (ps & ps' & h & Hcalls & Hv & Hh).
  destruct (finalize_follows t st) as (l & Hl & Hist). rewrite H in Hl, Hist. simpl in *.
  rewrite Hcalls in Hl. apply app_inv_head in Hl as <-.
  inversion Hist as [|? ? w1 ? ? H1 Hist1]; subst. inversion Hist1 as [|? ? w2 ? ? H2 Hist2]; subst.
  inversion Hist2 as [|? ? w3 ? ? H3 Hist3]; subst. inversion Hist3; subst. clear Hist Hist1 Hist2 Hist3.
  cbn in H1, H2, H3. unfold from_db in H1. injection H1 as H1 Hw1. subst w1.
  unfold on_db, CreateRevision in H2. case_decide; [|done]. injection H2 as <-.
  unfold on_cache in H3. destruct (DecisionCache_InvalidateTenant _ _) as [r x]. injection H3 as _ Hw.
  exists ps, ps', h, (last_generation t (revisions (pl_db (world st))) + 1). rewrite <-Hw. simpl.
  split; [exact H1|]. split; [done|]. split; [done|]. by rewrite last_snoc.
Qed.

Lemma finalize_tail {A} p t (a b : A) st st' :
  (_ ← wrapping p (finalizeTenantMutation t); mret a) st = (Ok b, st') → recorded t (world st') ∧ a = b.
Proof.
  intros H. take_step H u st1 H1. apply ret_Ok in H as [<- <-]. apply wrapping_run in H1. destruct u.
  split; [by eapply finalize_records|done].
Qed.

Lemma plane_ok_run {A} (m : M (Plane W) AdminCall A) st :
  follows (performed (W:=Plane W)) m → plane_ok (world st) → plane_ok (world (m st).2).
Proof.
  intros Hm Hok. destruct (Hm st) as (l & _ & Hh).
  eapply (history_ind_inv performed (track "") (tracked "" (pl_db (world st))) true); [|by split|exact Hh].
  intros b x c y. by apply performed_tracked.
Qed.

Lemma recorded_current {A} (m : M (Plane W) AdminCall A) t st :
  follows (performed (W:=Plane W)) m → plane_ok (world st) → recorded t (world (m st).2) →
  ∃ ps h g, ListByTenant t (pl_db (world (m st).2)) = Ok ps ∧ HashPolicies ps = Ok h ∧
    last (revisions (pl_db (world (m st).2))) = Some (mkRevisionRow t g h).
Proof.
  intros Hm Hok (ps & ps' & h & g & Hps & Hv & Hh & Hl).
  destruct (plane_ok_run m st Hm Hok) as [Hw _ _].
  destruct (ListByTenant_valid _ t Hw) as (qs & Hq & Hqv).
  rewrite Hps in Hq. injection Hq as <-. rewrite Hqv in Hv. injection Hv as <-. by exists ps, h, g.
Qed.

Lemma is_ok_run {A} (m : M (Plane W) AdminCall A) st :
  is_ok (m st).1 = true → ∃ a st', m st = (Ok a, st').
Proof. destruct (m st) as [[a|e] st']; [by exists a, st'|done]. Qed.

(** What is offered to the repository keeps its tenant. *)
Lemma validated_same_tenant s p q st st' : validatePolicyMutation s p st = (Ok q, st') → pol_TenantID q = pol_TenantID p.
Proof. intros H. by destruct (runs_run _ _ _ _ _ _ (validatePolicyMutation_runs s p) H) as (l & _ & _ & Ht & _). Qed.

Lemma Create_recorded s p st :
  is_ok (CreatePolicy s p st).1 = true → recorded (pol_TenantID p) (world (CreatePolicy s p st).2).
Proof.
  intros (p' & st' & H)%is_ok_run. rewrite H. simpl. unfold CreatePolicy in H.
  take_step H q st1 H1. take_step H q' st2 H2. apply wrapping_run in H2. apply finalize_tail in H as [H _].
  unfold Create_call, call in H2. destruct (repo_Create q (world st1)) as [r w] eqn:E. injection H2 as -> _.
  rewrite <-(validated_same_tenant _ _ _ _ _ H1). rewrite <-(create_tenant q (world st1) q'); [done|by rewrite E].
Qed.

Lemma Update_recorded s p st :
  is_ok (UpdatePolicy s p st).1 = true → recorded (pol_TenantID p) (world (UpdatePolicy s p st).2).
Proof.
  intros (p' & st' & H)%is_ok_run. rewrite H. simpl. unfold UpdatePolicy in H.
  take_step H q st1 H1. take_step H q' st2 H2. apply wrapping_run in H2. apply finalize_tail in H as [H _].
  unfold Update_call, call in H2. destruct (repo_Update q (world st1)) as [r w] eqn:E. injection H2 as -> _.
  rewrite <-(validated_same_tenant _ _ _ _ _ H1). rewrite <-(update_tenant q (world st1) q'); [done|by rewrite E].
Qed.

Lemma Delete_recorded t i f st :
  is_ok (DeletePolicy t i f st).1 = true → recorded t (world (DeletePolicy t i f st).2).
Proof.
  intros ([] & st' & H)%is_ok_run. rewrite H. simpl. unfold DeletePolicy in H.
  take_step H o st1 H1. take_step H p st2 H2. destruct (pol_Enabled p); [done|]. take_step H u st3 H3.
  apply wrapping_run in H. by eapply finalize_records.
Qed.

Lemma Rollback_recorded s t i v st :
  is_ok (PolicyAdmin.RollbackToVersion s t i v st).1 = true →
  recorded t (world (PolicyAdmin.RollbackToVersion s t i v st).2).
Proof.
  intros (p & st' & H)%is_ok_run. rewrite H. simpl. unfold PolicyAdmin.RollbackToVersion in H.
  take_step H vs st1 H1. take_step H u st2 H2. take_step H o st3 H3. take_step H q st4 H4. take_step H q' st5 H5.
  by apply finalize_tail in H as [H _].
Qed.

Lemma prepare_each_length s t ps st l st' : prepare_each s t ps st = (Ok l, st') → length l = length ps.
Proof.
  induction ps as [|p ps IH] in st, l, st' |- *; simpl; intros H; [by apply ret_Ok in H as [<- _]|].
  take_step H u st1 H1. take_step H qs st2 H2. apply ret_Ok in H as [<- _]. simpl. f_equal. by eapply IH.
Qed.

Lemma Import_recorded s t ps st :
  is_ok (ImportPolicies s t ps st).1 = true → ps ≠ [] → recorded t (world (ImportPolicies s t ps st).2).
Proof.
  intros (n & st' & H)%is_ok_run Hps. rewrite H. simpl. unfold ImportPolicies in H.
  take_step H qs st1 H1. take_step H old st2 H2. take_step H failed st3 H3.
  destruct failed as [[[m name] e]|]; [by take_step H e' st4 H4|].
  take_step H u st4 H4. apply ret_Ok in H as [_ <-]. destruct u. rewrite bool_decide_true in H4.
  - apply wrapping_run in H4. by eapply finalize_records.
  - intros ->. apply Hps. unfold prepareImportedPolicies in H1. take_step H1 l st5 H5. apply wrapping_run in H1.
    injection H1 as H1 _. apply prepare_each_length in H5. destruct l; [by destruct ps|]. exfalso.
    unfold ValidatePolicies in H1. apply validate_from_spec in H1 as [H1 _]. by inversion H1.
Qed.


(** C8: A policy change that succeeds is on record.  After a successful creation,
    update, deletion, rollback or (non-empty) import, the newest revision is the
    tenant's and carries the hash of exactly the policies the tenant now has, which
    all load. *)
Theorem successful_changes_are_recorded now s t p ps id v force (st : St (Plane W) AdminCall) :
  rtc (admin_step codec uuid pg_text) (empty_db now) (pl_db (world st)) →
  cache_inv (view (pl_cache (world st))) →
  let on_record t w := ∃ l h g, ListByTenant t (pl_db w) = Ok l ∧ HashPolicies l = Ok h ∧
    last (revisions (pl_db w)) = Some (mkRevisionRow t g h) in
  (is_ok (CreatePolicy s p st).1 = true → on_record (pol_TenantID p) (world (CreatePolicy s p st).2)) ∧
  (is_ok (UpdatePolicy s p st).1 = true → on_record (pol_TenantID p) (world (UpdatePolicy s p st).2)) ∧
  (is_ok (DeletePolicy t id force st).1 = true → on_record t (world (DeletePolicy t id force st).2)) ∧
  (is_ok (ImportPolicies s t ps st).1 = true → ps ≠ [] → on_record t (world (ImportPolicies s t ps st).2)) ∧
  (is_ok (PolicyAdmin.RollbackToVersion s t id v st).1 = true →
     on_record t (world (PolicyAdmin.RollbackToVersion s t id v st).2)).
Proof.
  intros Hreach Hc on_record. destruct (reachable_wf codec uuid pg_text uuid_inj now _ Hreach) as [Hw Hfr].
  assert (plane_ok (world st)) as Hok by by split.
  split; [|split; [|split; [|split]]]; intros H.
  - apply recorded_current; [apply Create_follows|done|by apply Create_recorded].
  - apply recorded_current; [apply Update_follows|done|by apply Update_recorded].
  - apply recorded_current; [apply Delete_follows|done|by apply Delete_recorded].
  - intros Hps. apply recorded_current; [apply Import_follows|done|by apply Import_recorded].
  - apply recorded_current; [apply Rollback_follows|done|by apply Rollback_recorded].
Qed.
End invariant.

(** ** A concrete control plane *)

#[local] Instance memory_plane : AdminPorts (Plane (gmap string KVValue)) := plane_ports None serial_uuid pg_message.

Definition sample_plane : St (Plane (gmap string KVValue)) AdminCall :=
  mkSt (mkPlane stored_twice (world (DecisionCache_Set sample_cached 1 empty_server).2)) [].

Lemma sample_plane_cache : cache_inv (view (pl_cache (world sample_plane))).
Proof. apply (cache_inv_insert ∅ sample_cached 0); [vm_compute; tauto|apply cache_inv_empty|reflexivity]. Qed.


Lemma successful_changes_are_recorded_witness :
  ∃ l h g, ListByTenant "t1" (pl_db (world (CreatePolicy (mkPolicyService true) allow_policy sample_plane).2)) = Ok l ∧
    HashPolicies l = Ok h ∧
    last (revisions (pl_db (world (CreatePolicy (mkPolicyService true) allow_policy sample_plane).2))) =
      Some (mkRevisionRow "t1" g h).
Proof.
  apply (successful_changes_are_recorded None serial_uuid pg_message serial_uuid_inj 5 (mkPolicyService true) "t1"
    allow_policy [] "" 1 false sample_plane stored_twice_reachable sample_plane_cache).
  vm_compute. reflexivity.
Defined.
