(* ===== verification/Authz.v ===== *)
(** * Remote procedure calls and the authorization of their callers

    [internal/infra/controlplanegrpc/authz.go]: the control plane accepts calls of
    remote proxies over mutual TLS and lets the identities of a client certificate
    act for the tenants its configuration lists.  gRPC itself is not modelled: a
    call is a function of a request, and its failure is a status. *)

From S2P Require Import Prelude GoStrings Effects.
#[local] Open Scope list_scope.

(** ** Definitions *)

(** *** Statuses *)

Inductive Code : Set :=
| OK | Canceled | Unknown | InvalidArgument | DeadlineExceeded | NotFound | AlreadyExists | PermissionDenied
| ResourceExhausted | FailedPrecondition | Aborted | OutOfRange | Unimplemented | Internal | Unavailable | DataLoss
| Unauthenticated.

#[export] Instance Code_eq_dec : EqDecision Code.
Proof. solve_decision. Defined.

(** [codes.Code.String] *)
Definition Code_String (c : Code) : string :=
  match c with
  | OK => "OK" | Canceled => "Canceled" | Unknown => "Unknown" | InvalidArgument => "InvalidArgument"
  | DeadlineExceeded => "DeadlineExceeded" | NotFound => "NotFound" | AlreadyExists => "AlreadyExists"
  | PermissionDenied => "PermissionDenied" | ResourceExhausted => "ResourceExhausted"
  | FailedPrecondition => "FailedPrecondition" | Aborted => "Aborted" | OutOfRange => "OutOfRange"
  | Unimplemented => "Unimplemented" | Internal => "Internal" | Unavailable => "Unavailable"
  | DataLoss => "DataLoss" | Unauthenticated => "Unauthenticated"
  end.

Record Status : Type := mkStatus { st_Code : Code; st_Message : string }.

(** A status as the Go error a client is given: no sentinel is in its chain. *)
Definition status_error (s : Status) : error :=
  new_error ("rpc error: code = " +:+ Code_String (st_Code s) +:+ " desc = " +:+ st_Message s).

(** What a handler returns. *)
Inductive rpc (A : Type) : Type := Reply (a : A) | Failed (s : Status).
Arguments Reply {A} a.
Arguments Failed {A} s.

Definition RPC (W C A : Type) : Type := St W C → rpc A * St W C.

Section rpc.
Context {W C : Type}.

#[export] Instance RPC_ret : MRet (RPC W C) := λ A a s, (Reply a, s).
#[export] Instance RPC_bind : MBind (RPC W C) := λ A B f m s,
  match m s with (Reply a, s) => f a s | (Failed st, s) => (Failed st, s) end.

Definition fail {A} (st : Status) : RPC W C A := λ s, (Failed st, s).

(** [x, err := m(); if err != nil { return nil, to(err) }] *)
Definition or_status {A} (to : error → Status) (m : M W C A) : RPC W C A := λ s,
  match m s with (Ok a, s) => (Reply a, s) | (Err e, s) => (Failed (to e), s) end.

(** An error that is no status reaches the client as [codes.Unknown]. *)
Definition unknown_status (e : error) : Status := mkStatus Unknown (error_msg e).
End rpc.

(** *** Peers *)

(** The parts of an [x509.Certificate] the code reads. *)
Record Certificate (PublicKey : Type) : Type := mkCertificate {
  URIs : list string;
  DNSNames : list string;
  EmailAddresses : list string;
  CommonName : string;
  cert_PublicKey : option PublicKey;
}.
Arguments mkCertificate {_}. Arguments URIs {_}. Arguments DNSNames {_}. Arguments EmailAddresses {_}.
Arguments CommonName {_}. Arguments cert_PublicKey {_}.

(** What [peer.FromContext] finds: nothing, or the authentication of the connection. *)
Inductive AuthInfo (PublicKey : Type) : Type :=
| TLSInfo (PeerCertificates : list (Certificate PublicKey))
| OtherAuthInfo.
Arguments TLSInfo {_}. Arguments OtherAuthInfo {_}.
Abbreviation Peer := (λ PublicKey, option (AuthInfo PublicKey)) (only parsing).

(** *** Authorized clients *)

Record BundleTLSAuthorizedClient : Type := mkAuthorizedClient { Identity : string; TenantIDs : list string }.

Abbreviation tenantAuthorizer := (gmap string (gset string)) (only parsing).

Definition add_tenant (tenants : gset string) (tenantID : string) : gset string :=
  let tenantID := TrimSpace tenantID in if decide (tenantID = "") then tenants else {[ tenantID ]} ∪ tenants.

Definition add_client (result : tenantAuthorizer) (client : BundleTLSAuthorizedClient) : tenantAuthorizer :=
  let identity := TrimSpace (Identity client) in
  if decide (identity = "") then result
  else <[ identity := foldl add_tenant (default ∅ (result !! identity)) (TenantIDs client) ]> result.

Definition newTenantAuthorizer (clients : list BundleTLSAuthorizedClient) : tenantAuthorizer :=
  foldl add_client ∅ clients.

Fixpoint authorized (a : tenantAuthorizer) (identities : list string) (tenantID : string) : bool :=
  match identities with
  | [] => false
  | identity :: identities =>
      match a !! identity with
      | None => authorized a identities tenantID
      | Some tenants =>
          if decide ("*" ∈ tenants) then true
          else if decide (tenantID ∈ tenants) then true
          else authorized a identities tenantID
      end
  end.

Section identities.
Context {PublicKey : Type}.

Definition certificateIdentities (cert : Certificate PublicKey) : list string :=
  URIs cert ++ DNSNames cert ++ EmailAddresses cert ++
  (if decide (CommonName cert = "") then [] else [CommonName cert]).

Definition peerCertificateIdentities (p : Peer PublicKey) : list string :=
  match p with
  | Some (TLSInfo (cert :: _)) => certificateIdentities cert
  | _ => []
  end.
End identities.

(** *** The interceptors *)

Record DeniedEvent : Type := mkDeniedEvent {
  den_TenantID : string;
  ClientIdentities : list string;
  FullMethod : string;
  den_Reason : string;
  PermissionMessage : string;
}.

Definition trimmed_event (e : DeniedEvent) : DeniedEvent :=
  let message := TrimSpace (PermissionMessage e) in
  mkDeniedEvent (TrimSpace (den_TenantID e)) (ClientIdentities e) (TrimSpace (FullMethod e)) (TrimSpace (den_Reason e))
    (if decide (message = "") then "control-plane grpc request denied" else message).

Section interceptor.
Context {W C Req PublicKey : Type}.
(** The audit sink, where one is configured. *)
Context (deniedRecorder : option (DeniedEvent → M W C ())).
Context (clients : list BundleTLSAuthorizedClient).
Context (extractTenantID : option (Req → string)).

Definition deny (event : DeniedEvent) (code : Code) : RPC W C () := λ s,
  let event := trimmed_event event in
  let s := match deniedRecorder with Some record => (record event s).2 | None => s end in
  (Failed (mkStatus code (PermissionMessage event)), s).

(** What [authorize] decides: the denial and its code, or none. *)
Definition denial (p : Peer PublicKey) (req : Req) (fullMethod : string) : option (DeniedEvent * Code) :=
  match extractTenantID with
  | None => Some (mkDeniedEvent "" [] fullMethod "tenant_id_extractor_missing" "tenant id extractor is not configured",
                  Internal)
  | Some extract =>
      let tenantID := TrimSpace (extract req) in
      if decide (tenantID = "") then
        Some (mkDeniedEvent "" [] fullMethod "tenant_id_missing" "tenant_id is required", InvalidArgument)
      else
        let identities := peerCertificateIdentities p in
        if decide (identities = []) then
          Some (mkDeniedEvent tenantID [] fullMethod "client_certificate_identity_missing"
                  "client certificate identity is required", Unauthenticated)
        else if authorized (newTenantAuthorizer clients) identities tenantID then None
        else Some (mkDeniedEvent tenantID identities fullMethod "client_certificate_not_authorized_for_tenant"
                     ("client certificate is not authorized for tenant " +:+ quote tenantID), PermissionDenied)
  end.

Definition authorize (p : Peer PublicKey) (req : Req) (fullMethod : string) : RPC W C () :=
  match denial p req fullMethod with
  | Some (event, code) => deny event code
  | None => mret ()
  end.

Definition TenantAuthorizationInterceptor {A} (p : Peer PublicKey) (req : Req) (fullMethod : string)
    (handler : RPC W C A) : RPC W C A :=
  _ ← authorize p req fullMethod; handler.

(** The stream keeps whether a message has been authorized yet; [message] is what
    the underlying stream receives next. *)
Definition RecvMsg (p : Peer PublicKey) (fullMethod : string) (isAuthorized : bool) (message : rpc Req)
    : RPC W C (Req * bool) :=
  match message with
  | Failed st => fail st
  | Reply req =>
      if isAuthorized then mret (req, true)
      else _ ← authorize p req fullMethod; mret (req, true)
  end.
End interceptor.

(** ** Who may act for a tenant *)

(** The configuration lets [identity] act for [tenantID]. *)
Definition entitled (clients : list BundleTLSAuthorizedClient) (identity tenantID : string) : Prop :=
  ∃ client t, client ∈ clients ∧ TrimSpace (Identity client) = identity ∧ t ∈ TenantIDs client ∧
    (TrimSpace t = tenantID ∨ TrimSpace t = "*").

(** Some identity of the peer's certificate may act for the tenant of the request. *)
Definition may_act {PublicKey} (clients : list BundleTLSAuthorizedClient) (p : Peer PublicKey) (tenantID : string) : Prop :=
  ∃ identity, identity ∈ peerCertificateIdentities p ∧ identity ≠ "" ∧ entitled clients identity tenantID.

Lemma add_tenants_spec l s t :
  t ∈ foldl add_tenant s l ↔ t ∈ s ∨ t ≠ "" ∧ ∃ x, x ∈ l ∧ TrimSpace x = t.
Proof.
  induction l as [|y l IH] in s |- *; simpl; [set_solver|]. rewrite IH. unfold add_tenant. case_decide; set_solver.
Qed.

Lemma authorizer_lookup clients a identity t :
  identity ≠ "" →
  t ∈ default ∅ (foldl add_client a clients !! identity) ↔
  t ∈ default ∅ (a !! identity) ∨
  t ≠ "" ∧ ∃ client x, client ∈ clients ∧ TrimSpace (Identity client) = identity ∧ x ∈ TenantIDs client ∧ TrimSpace x = t.
Proof.
  intros Hi. induction clients as [|c clients IH] in a |- *; simpl; [set_solver|]. rewrite IH. unfold add_client.
  case_decide as Hc; [set_solver|].
  destruct (decide (TrimSpace (Identity c) = identity)) as [<-|Hne].
  - rewrite lookup_insert_eq. simpl. rewrite add_tenants_spec. set_solver.
  - rewrite lookup_insert_ne by done. set_solver.
Qed.

Lemma authorized_iff a identities t :
  authorized a identities t = true ↔
  ∃ identity tenants, identity ∈ identities ∧ a !! identity = Some tenants ∧ ("*" ∈ tenants ∨ t ∈ tenants).
Proof.
  induction identities as [|i l IH]; simpl; [set_solver|].
  destruct (a !! i) as [tenants|] eqn:E.
  - repeat case_decide; [set_solver..|]. rewrite IH. split; [set_solver|].
    intros (j & ts & [->|Hj]%elem_of_cons & Hl & Ht); [naive_solver|]. eauto.
  - rewrite IH. split; [set_solver|]. intros (j & ts & [->|Hj]%elem_of_cons & Hl & Ht); [congruence|]. eauto.
Qed.

Lemma add_client_no_empty clients a : a !! "" = None → foldl add_client a clients !! "" = None.
Proof.
  induction clients as [|c clients IH] in a |- *; simpl; [done|]. intros Ha. apply IH. unfold add_client.
  case_decide as Hc; [done|]. by rewrite lookup_insert_ne.
Qed.

(** The compiled table authorizes exactly what the configuration says. *)
Lemma newTenantAuthorizer_spec clients identities t :
  t ≠ "" →
  authorized (newTenantAuthorizer clients) identities t = true ↔
  ∃ identity, identity ∈ identities ∧ identity ≠ "" ∧ entitled clients identity t.
Proof.
  intros Ht. rewrite authorized_iff. unfold newTenantAuthorizer.
  assert (Hs : ∀ i x, i ≠ "" → (∃ ts, foldl add_client ∅ clients !! i = Some ts ∧ x ∈ ts) ↔
    x ∈ default ∅ (foldl add_client ∅ clients !! i)).
  { intros i x _. destruct (foldl add_client ∅ clients !! i) as [ts|]; simpl; [naive_solver|]. set_solver. }
  split.
  - intros (i & ts & Hi & Hl & H). assert (i ≠ "") as Hne.
    { intros ->. by rewrite add_client_no_empty in Hl. }
    exists i. split; [done|]. split; [done|].
    destruct H as [H|H]; (pose proof (proj1 (Hs i _ Hne) (ex_intro _ ts (conj Hl H))) as Hd);
      apply authorizer_lookup in Hd as [Hd|(_ & c & x & Hc & Hic & Hx & Hxt)]; try done;
      try (rewrite lookup_empty in Hd; simpl in Hd; set_solver); exists c, x; eauto.
  - intros (i & Hi & Hne & c & x & Hc & Hic & Hx & Hxt).
    assert (∃ y, y ∈ default ∅ (foldl add_client ∅ clients !! i) ∧ (y = "*" ∨ y = t)) as (y & Hy & Hyt).
    { destruct Hxt as [Hxt|Hxt]; [exists t|exists "*"]; (split; [|tauto]); apply authorizer_lookup; try done;
        right; (split; [done|]); exists c, x; auto. }
    apply Hs in Hy as (ts & Hl & Hts); [|done]. exists i, ts. destruct Hyt as [->| ->]; auto.
Qed.

Section spec.
Context {W C Req PublicKey : Type}.
Context (clients : list BundleTLSAuthorizedClient) (extractTenantID : option (Req → string)).

Lemma denial_None (p : Peer PublicKey) req m :
  denial clients extractTenantID p req m = None ↔
  ∃ extract, extractTenantID = Some extract ∧ TrimSpace (extract req) ≠ "" ∧ may_act clients p (TrimSpace (extract req)).
Proof.
  unfold denial. destruct extractTenantID as [extract|]; [|naive_solver].
  case_decide as Ht; [naive_solver|]. unfold may_act. case_decide as Hi.
  { split; [done|]. intros (? & [= <-] & _ & i & Hin & _). rewrite Hi in Hin. by apply not_elem_of_nil in Hin. }
  destruct (authorized _ _ _) eqn:E.
  - split; [|done]. intros _. exists extract. apply newTenantAuthorizer_spec in E; [|done]. done.
  - split; [done|]. intros (? & [= <-] & _ & H). apply newTenantAuthorizer_spec in H; [|done]. congruence.
Qed.

(** The codes a caller is refused with. *)
Lemma denial_code (p : Peer PublicKey) req m event code :
  denial clients extractTenantID p req m = Some (event, code) →
  match extractTenantID with
  | None => code = Internal
  | Some extract =>
      let t := TrimSpace (extract req) in
      t = "" ∧ code = InvalidArgument ∨
      t ≠ "" ∧ peerCertificateIdentities p = [] ∧ code = Unauthenticated ∨
      t ≠ "" ∧ peerCertificateIdentities p ≠ [] ∧ ¬ may_act clients p t ∧ code = PermissionDenied
  end.
Proof.
  unfold denial. destruct extractTenantID as [extract|]; [|naive_solver]. cbv zeta.
  case_decide as Ht; [naive_solver|]. case_decide as Hi; [naive_solver|].
  destruct (authorized _ _ _) eqn:E; [done|]. intros [= <- <-]. right. right. repeat split; try done.
  unfold may_act. intros H. apply newTenantAuthorizer_spec in H; [|done]. congruence.
Qed.

(** A call that is passed on was authorized; one that is not makes the audit
    record and nothing else. *)
Lemma interceptor_cases {A} recorder (p : Peer PublicKey) req m (handler : RPC W C A) :
  match denial clients extractTenantID p req m with
  | None => TenantAuthorizationInterceptor recorder clients extractTenantID p req m handler = handler
  | Some (event, code) => ∀ s,
      TenantAuthorizationInterceptor recorder clients extractTenantID p req m handler s =
      (Failed (mkStatus code (PermissionMessage (trimmed_event event))),
       from_option (λ record, (record (trimmed_event event) s).2) s recorder)
  end.
Proof.
  unfold TenantAuthorizationInterceptor, authorize. destruct (denial _ _ _ _ _) as [[event code]|]; [|done].
  intros s. unfold mbind, RPC_bind, deny. by destruct recorder.
Qed.

(** C15: Only authorized clients get through.  Behind the interceptor a handler runs,
    and runs unchanged, exactly when an identity of the peer's verified certificate
    is listed for the (trimmed, non-empty) tenant of the request, or for every
    tenant; any other call, whatever the handler, does nothing but record the
    denial and fails with [InvalidArgument], [Unauthenticated] or
    [PermissionDenied] by what is missing.  The first message of a stream is
    held to the same rule. *)
Theorem interceptor_authorizes {A} recorder (p : Peer PublicKey) req m (handler : RPC W C A) extract :
  extractTenantID = Some extract →
  let t := TrimSpace (extract req) in
  let call := TenantAuthorizationInterceptor recorder clients extractTenantID p req m handler in
  (t ≠ "" ∧ may_act clients p t ∧ call = handler ∧
     ∀ s, RecvMsg recorder clients extractTenantID p m false (Reply req) s = (Reply (req, true), s)) ∨
  ((t = "" ∨ ¬ may_act clients p t) ∧ ∃ event code,
     code = (if decide (t = "") then InvalidArgument
             else if decide (peerCertificateIdentities p = []) then Unauthenticated else PermissionDenied) ∧
     ∀ s, let s' := from_option (λ record, (record event s).2) s recorder in
       (call s).2 = s' ∧ (∃ msg, (call s).1 = Failed (mkStatus code msg)) ∧
       ∃ msg, RecvMsg recorder clients extractTenantID p m false (Reply req) s = (Failed (mkStatus code msg), s')).
Proof.
  intros He t call.
  pose proof (interceptor_cases recorder p req m handler) as Hc.
  pose proof (interceptor_cases recorder p req m (mret (req, true))) as Hr.
  destruct (denial clients extractTenantID p req m) as [[event code]|] eqn:E.
  - right. pose proof (denial_code _ _ _ _ _ E) as Hd. rewrite He in Hd. cbv zeta in Hd. fold t in Hd. split.
    { destruct Hd as [[Ht _]|[(Ht & Hi & _)|(Ht & _ & Hm & _)]]; [by left|right|by right].
      intros (i & Hin & _). rewrite Hi in Hin. by apply not_elem_of_nil in Hin. }
    exists (trimmed_event event), code. split.
    { destruct Hd as [[Ht ->]|[(Ht & Hi & ->)|(Ht & Hi & _ & ->)]]; [by rewrite decide_True|..];
        rewrite decide_False by done; [by rewrite decide_True|by rewrite decide_False]. }
    intros s s'. unfold call. rewrite Hc. split; [done|]. split; [by eexists|]. eexists. exact (Hr s).
  - left. apply denial_None in E as (? & He' & Ht & Hm). rewrite He in He'. injection He' as <-.
    split; [done|]. split; [done|]. split; [done|]. intros s. exact (f_equal (λ f, f s) Hr).
Qed.
End spec.

Definition sample_clients : list BundleTLSAuthorizedClient :=
  [mkAuthorizedClient " proxy.acme " ["t1"; "t2 "]; mkAuthorizedClient "worker" ["*"]].
Definition sample_peer (name : string) : Peer nat := Some (TLSInfo [mkCertificate [] [name] [] "" None]).

Lemma interceptor_authorizes_witness :
  let call p req := TenantAuthorizationInterceptor (W := ()) (C := ()) None sample_clients (Some id) p req "/m"
                      (mret 5 : RPC () () Z) in
  call (sample_peer "proxy.acme") "t2" = mret 5 ∧
  ∃ msg, ∀ s, call (sample_peer "proxy.acme") "t3" s = (Failed (mkStatus PermissionDenied msg), s).
Proof.
  intros call. split.
  - destruct (interceptor_authorizes (W := ()) (C := ()) sample_clients (Some id) None (sample_peer "proxy.acme") "t2" "/m"
      (mret 5) id eq_refl) as [(_ & _ & H & _)|[[H|H] _]]; [exact H|vm_compute in H; discriminate H|].
    exfalso. apply H. exists "proxy.acme". split; [set_solver|]. split; [done|].
    exists (mkAuthorizedClient " proxy.acme " ["t1"; "t2 "]), "t2 ". split; [set_solver|].
    split; [vm_compute; reflexivity|]. split; [set_solver|]. left. vm_compute. reflexivity.
  - exists (PermissionMessage (trimmed_event (mkDeniedEvent "" [] "" ""
      ("client certificate is not authorized for tenant " +:+ quote "t3")))). intros s. vm_compute. reflexivity.
Defined.
