(* ===== verification/Notifier.v ===== *)
(** * Wake-up signals for graph workers

    [internal/core/service/dependency_graph_notifier.go]: a broadcast to the workers
    waiting for queued jobs.  Every subscriber has a channel with room for one
    signal and a goroutine that removes it when its context ends.  The state is
    changed by the operations of any number of goroutines in any order; an
    operation on a closed channel that Go answers with a run-time panic is
    [Panic]. *)

From S2P Require Import Prelude GoStrings.
#[local] Open Scope list_scope.

(** ** Definitions *)

(** Where the goroutine of a subscriber is: waiting for its context to end, between
    the removal under the lock and [close], or done. *)
Inductive Phase : Set := Watching | Removed | Closed.

#[export] Instance Phase_eq_dec : EqDecision Phase.
Proof. solve_decision. Defined.

Record Channel : Type := mkChannel { buffered : nat; phase : Phase }.

(** [make(chan struct{}, 1)] *)
Definition capacity : nat := 1.

(** [subscribers] maps the channel, by its number, to its tenant scope. *)
Record DependencyGraphJobNotifier : Type := mkNotifier {
  subscribers : gmap nat string;
  channels : gmap nat Channel;
}.

Definition NewDependencyGraphJobNotifier : DependencyGraphJobNotifier := mkNotifier ∅ ∅.

Inductive outcome (A : Type) : Type := Next (a : A) | Blocked | Panic.
Arguments Next {A} a. Arguments Blocked {A}. Arguments Panic {A}.

(** [select { case subscriber <- struct{}{}: default: }] *)
Definition try_send (c : Channel) : outcome Channel :=
  if decide (phase c = Closed) then Panic
  else if (buffered c <? capacity)%nat then Next (mkChannel (S (buffered c)) (phase c))
  else Next c.

Definition in_scope (tenantScope tenantID : string) : bool := bool_decide (tenantScope = "*" ∨ tenantScope = tenantID).

(** The loop over the subscribers, in some order. *)
Fixpoint notify_each (order : list (nat * string)) (tenantID : string) (chans : gmap nat Channel)
    : outcome (gmap nat Channel) :=
  match order with
  | [] => Next chans
  | (subscriber, tenantScope) :: order =>
      if in_scope tenantScope tenantID then
        match chans !! subscriber with
        | None => Panic
        | Some c => match try_send c with
                    | Next c => notify_each order tenantID (<[ subscriber := c ]> chans)
                    | Blocked => Blocked
                    | Panic => Panic
                    end
        end
      else notify_each order tenantID chans
  end.

Definition Notify (tenantID : string) (n : DependencyGraphJobNotifier) : outcome DependencyGraphJobNotifier :=
  match notify_each (map_to_list (subscribers n)) tenantID (channels n) with
  | Next chans => Next (mkNotifier (subscribers n) chans)
  | Blocked => Blocked
  | Panic => Panic
  end.

Definition watch_scope (tenantID : string) : string :=
  let tenantID := TrimSpace tenantID in if decide (tenantID = "") then "*" else tenantID.

Definition WatchResolveJobs (tenantID : string) (n : DependencyGraphJobNotifier) : nat * DependencyGraphJobNotifier :=
  let subscriber := fresh (dom (channels n)) in
  (subscriber, mkNotifier (<[ subscriber := watch_scope tenantID ]> (subscribers n))
                 (<[ subscriber := mkChannel 0 Watching ]> (channels n))).

(** The two steps of the subscriber's goroutine once its context is done. *)
Definition remove_subscriber (c : nat) (n : DependencyGraphJobNotifier) : outcome DependencyGraphJobNotifier :=
  match channels n !! c with
  | Some (mkChannel b Watching) => Next (mkNotifier (delete c (subscribers n)) (<[ c := mkChannel b Removed ]> (channels n)))
  | _ => Blocked
  end.

Definition close_subscriber (c : nat) (n : DependencyGraphJobNotifier) : outcome DependencyGraphJobNotifier :=
  match channels n !! c with
  | Some (mkChannel b Removed) => Next (mkNotifier (subscribers n) (<[ c := mkChannel b Closed ]> (channels n)))
  | _ => Blocked
  end.

(** [<-notifications]: a signal, the news that the channel is closed, or waiting. *)
Definition receive (c : nat) (n : DependencyGraphJobNotifier) : outcome (bool * DependencyGraphJobNotifier) :=
  match channels n !! c with
  | Some (mkChannel (S b) p) => Next (true, mkNotifier (subscribers n) (<[ c := mkChannel b p ]> (channels n)))
  | Some (mkChannel O Closed) => Next (false, n)
  | _ => Blocked
  end.

Inductive Event : Type :=
| EWatch (tenantID : string)
| ENotify (tenantID : string)
| ERemove (c : nat)
| EClose (c : nat)
| EReceive (c : nat).

Definition step (e : Event) (n : DependencyGraphJobNotifier) : outcome DependencyGraphJobNotifier :=
  match e with
  | EWatch t => Next (WatchResolveJobs t n).2
  | ENotify t => Notify t n
  | ERemove c => remove_subscriber c n
  | EClose c => close_subscriber c n
  | EReceive c => match receive c n with Next (_, n) => Next n | Blocked => Blocked | Panic => Panic end
  end.

Fixpoint steps (l : list Event) (n : DependencyGraphJobNotifier) : outcome DependencyGraphJobNotifier :=
  match l with
  | [] => Next n
  | e :: l => match step e n with Next n => steps l n | Blocked => Blocked | Panic => Panic end
  end.

(** ** The invariant *)

(** A subscriber is listed exactly while its goroutine waits, and holds at most one
    signal. *)
Record wf (n : DependencyGraphJobNotifier) : Prop := {
  wf_listed c : is_Some (subscribers n !! c) ↔ phase <$> channels n !! c = Some Watching;
  wf_bound c ch : channels n !! c = Some ch → (buffered ch ≤ capacity)%nat;
}.

Definition signalled (n : DependencyGraphJobNotifier) (c : nat) : Prop :=
  ∃ ch, channels n !! c = Some ch ∧ (0 < buffered ch)%nat.

(** Some entry of [order] is for [c] and in scope. *)
Definition reached (order : list (nat * string)) (t : string) (c : nat) : bool :=
  existsb (λ kv, bool_decide (kv.1 = c) && in_scope kv.2 t) order.

Lemma reached_fresh order t c : c ∉ order.*1 → reached order t c = false.
Proof.
  intros H. unfold reached. induction order as [|[c' s] order IH]; [done|]. csimpl in *.
  apply not_elem_of_cons in H as [Hne H]. rewrite bool_decide_eq_false_2 by congruence. by apply IH.
Qed.

(** A notification goes through, fills the channels in scope and leaves the rest. *)
Lemma notify_each_spec order t chans :
  NoDup order.*1 →
  (∀ c, c ∈ order.*1 → phase <$> chans !! c = Some Watching) →
  (∀ c ch, chans !! c = Some ch → (buffered ch ≤ capacity)%nat) →
  ∃ chans', notify_each order t chans = Next chans' ∧ ∀ c,
    chans' !! c = if reached order t c then (λ ch, mkChannel capacity (phase ch)) <$> chans !! c else chans !! c.
Proof.
  induction order as [|[c0 s0] order IH] in chans |- *; csimpl; intros Hnd Hw Hb; [by exists chans|].
  apply NoDup_cons in Hnd as [Hc0 Hnd]. destruct (in_scope s0 t) eqn:Es.
  - pose proof (Hw c0 ltac:(set_solver)) as H0. destruct (chans !! c0) as [[b p]|] eqn:E0; [|done]. injection H0 as ->.
    assert (try_send (mkChannel b Watching) = Next (mkChannel capacity Watching)) as ->.
    { unfold try_send. rewrite decide_False by done. apply Hb in E0. simpl in E0 |- *. unfold capacity in *.
      destruct b as [|[|]]; [done..|lia]. }
    destruct (IH (<[c0:=mkChannel capacity Watching]> chans)) as (chans' & He & Hl); [done|..].
    { intros c Hc. rewrite lookup_insert_ne by set_solver. apply Hw. set_solver. }
    { intros c ch. destruct (decide (c = c0)) as [->|]; [rewrite lookup_insert_eq; by intros [= <-]|].
      rewrite lookup_insert_ne by done. apply Hb. }
    exists chans'. split; [done|]. intros c. rewrite Hl. destruct (decide (c = c0)) as [->|Hne].
    + rewrite lookup_insert_eq, E0, reached_fresh by done. simpl. by rewrite bool_decide_eq_true_2.
    + rewrite lookup_insert_ne by done. simpl. by rewrite bool_decide_eq_false_2 by done.
  - destruct (IH chans) as (chans' & He & Hl); [done|..]; [intros c Hc; apply Hw; set_solver|done|].
    exists chans'. split; [done|]. intros c. rewrite Hl. simpl. by rewrite andb_false_r.
Qed.

Lemma reached_subscribers (m : gmap nat string) t c :
  reached (map_to_list m) t c = from_option (λ s, in_scope s t) false (m !! c).
Proof.
  apply eq_true_iff_eq. unfold reached. rewrite existsb_exists. split.
  - intros ([c' s] & Hin%list_elem_of_In%elem_of_map_to_list & [Hc Hs]%andb_true_iff).
    apply bool_decide_eq_true in Hc. simpl in *. subst. by rewrite Hin.
  - destruct (m !! c) as [s|] eqn:E; [|done]. simpl. intros Hs. exists (c, s).
    split; [by apply list_elem_of_In, elem_of_map_to_list|]. simpl. by rewrite bool_decide_eq_true_2.
Qed.

Lemma Notify_spec t n :
  wf n → ∃ chans, Notify t n = Next (mkNotifier (subscribers n) chans) ∧ ∀ c,
    chans !! c = if from_option (λ s, in_scope s t) false (subscribers n !! c)
                 then (λ ch, mkChannel capacity (phase ch)) <$> channels n !! c else channels n !! c.
Proof.
  intros [Hl Hb]. destruct (notify_each_spec (map_to_list (subscribers n)) t (channels n)) as (chans & He & Hc).
  - apply NoDup_fst_map_to_list.
  - intros c ([c' s] & -> & Hin%elem_of_map_to_list)%list_elem_of_fmap. apply Hl. eauto.
  - done.
  - exists chans. unfold Notify. rewrite He. split; [done|]. intros c. by rewrite Hc, reached_subscribers.
Qed.

Lemma wf_new : wf NewDependencyGraphJobNotifier.
Proof. split; simpl; intros c; rewrite ?lookup_empty; [by split; [intros []|]|done]. Qed.

(** No step panics, and every step keeps the invariant. *)
Lemma step_wf e n : wf n → step e n ≠ Panic ∧ ∀ n', step e n = Next n' → wf n'.
Proof.
  intros Hwf. pose proof Hwf as [Hl Hb].
  destruct e as [t|t|c|c|c]; simpl; [| |unfold remove_subscriber|unfold close_subscriber|unfold receive].
  - split; [done|]. intros n' [= <-]. set (c := fresh (dom (channels n))).
    assert (channels n !! c = None) as Hc by apply not_elem_of_dom, is_fresh.
    split; simpl; intros c'; (destruct (decide (c' = c)) as [->|Hne];
      [rewrite ?lookup_insert_eq|rewrite ?lookup_insert_ne by done; eauto]).
    + split; [done|eauto].
    + intros ch [= <-]. simpl. lia.
  - destruct (Notify_spec t n Hwf) as (chans & -> & Hc). split; [done|]. intros n' [= <-]. split; simpl; intros c'; rewrite Hc.
    + rewrite Hl. destruct (from_option _ _ _); [|done]. by destruct (channels n !! c') as [[]|].
    + destruct (from_option _ _ _); [|apply Hb]. destruct (channels n !! c') as [[b p]|] eqn:E; simpl; [|done]. by intros ? [= <-].
  - destruct (channels n !! c) as [[b []]|] eqn:E; (split; [done|]); [|done..]. intros n' [= <-].
    split; simpl; intros c'; (destruct (decide (c' = c)) as [->|Hne];
      [rewrite ?lookup_insert_eq, ?lookup_delete_eq|rewrite ?lookup_insert_ne, ?lookup_delete_ne by done; eauto]).
    + split; [by intros []|done].
    + intros ch [= <-]. exact (Hb _ _ E).
  - destruct (channels n !! c) as [[b []]|] eqn:E; (split; [done|]); try done. intros n' [= <-].
    split; simpl; intros c'; (destruct (decide (c' = c)) as [->|Hne];
      [rewrite ?lookup_insert_eq|rewrite ?lookup_insert_ne by done; eauto]).
    + rewrite Hl, E. simpl. split; congruence.
    + intros ch [= <-]. exact (Hb _ _ E).
  - destruct (channels n !! c) as [[[|b] p]|] eqn:E; [destruct p|..]; (split; [done|]); try done; [by intros ? [= <-]|].
    intros n' [= <-]. split; simpl; intros c'; (destruct (decide (c' = c)) as [->|Hne];
      [rewrite ?lookup_insert_eq|rewrite ?lookup_insert_ne by done; eauto]).
    + by rewrite Hl, E.
    + intros ch [= <-]. apply Hb in E. simpl in *. lia.
Qed.

Lemma steps_app l l' n : steps (l ++ l') n = match steps l n with Next n => steps l' n | o => o end.
Proof. induction l as [|e l IH] in n |- *; simpl; [done|]. by destruct (step e n). Qed.

Lemma steps_wf l n : wf n → steps l n ≠ Panic ∧ ∀ n', steps l n = Next n' → wf n'.
Proof.
  induction l as [|e l IH] in n |- *; simpl; intros Hwf; [by split; [|intros ? [= <-]]|].
  destruct (step_wf e n Hwf) as [Hp Hn]. destruct (step e n) as [n1| |]; [|done..]. auto.
Qed.

(** Only its receiver takes a signal. *)
Lemma step_signalled e n n' c : wf n → step e n = Next n' → e ≠ EReceive c → signalled n c → signalled n' c.
Proof.
  intros Hwf Hs He (ch & Hc & Hb). destruct e as [t|t|c0|c0|c0]; simpl in Hs.
  - injection Hs as <-. exists ch. split; [|done]. simpl. rewrite lookup_insert_ne; [done|].
    intros Hf. pose proof (is_fresh (dom (channels n))) as Hfr. rewrite Hf in Hfr. apply Hfr, elem_of_dom. eauto.
  - destruct (Notify_spec t n Hwf) as (chans & Hn & Hl). rewrite Hn in Hs. injection Hs as <-. unfold signalled. simpl.
    rewrite Hl, Hc. destruct (from_option _ _ _); [|eauto]. eexists. split; [done|]. simpl. unfold capacity. lia.
  - unfold remove_subscriber in Hs. destruct (channels n !! c0) as [[b []]|] eqn:E; try done. injection Hs as <-. unfold signalled. simpl.
    destruct (decide (c0 = c)) as [->|]; [rewrite lookup_insert_eq|rewrite lookup_insert_ne by done; eauto].
    rewrite Hc in E. injection E as ->. eexists. split; [done|]. done.
  - unfold close_subscriber in Hs. destruct (channels n !! c0) as [[b []]|] eqn:E; try done. injection Hs as <-. unfold signalled. simpl.
    destruct (decide (c0 = c)) as [->|]; [rewrite lookup_insert_eq|rewrite lookup_insert_ne by done; eauto].
    rewrite Hc in E. injection E as ->. eexists. split; [done|]. done.
  - unfold receive in Hs. destruct (channels n !! c0) as [[[|b] p]|] eqn:E; [destruct p|..]; try done; injection Hs as <-; [by exists ch|].
    unfold signalled. simpl. rewrite lookup_insert_ne by congruence. eauto.
Qed.

Lemma steps_signalled l n n' c : wf n → steps l n = Next n' → EReceive c ∉ l → signalled n c → signalled n' c.
Proof.
  induction l as [|e l IH] in n |- *; simpl; intros Hwf Hs Hc Hsig; [by injection Hs as <-|].
  destruct (step_wf e n Hwf) as [_ Hn]. destruct (step e n) as [n1| |] eqn:E; try done.
  apply not_elem_of_cons in Hc as [Hne Hc]. apply (IH n1); auto. eapply step_signalled; eauto.
Qed.

(** C23: No wake-up is lost and none blows up.  Whatever workers subscribe, leave and
    receive, in any order, no operation touches a closed channel and a subscriber
    holds at most one signal.  When a job is announced for a tenant, every worker
    then waiting for the tenant, or for all tenants, is left with a signal that
    only its own receive takes away: until then it can receive at once, even if
    its subscription ends in between. *)
Theorem wake_ups_are_not_lost before t after n1 n3 c scope :
  steps before NewDependencyGraphJobNotifier = Next n1 →
  subscribers n1 !! c = Some scope → scope = "*" ∨ scope = t →
  steps (ENotify t :: after) n1 = Next n3 → EReceive c ∉ after →
  steps (before ++ ENotify t :: after) NewDependencyGraphJobNotifier ≠ Panic ∧
  (∀ c ch, channels n3 !! c = Some ch → (buffered ch ≤ 1)%nat) ∧
  ∃ n4, receive c n3 = Next (true, n4).
Proof.
  intros H1 Hsub Hscope H3 Hc. destruct (steps_wf before _ wf_new) as [_ Hwf1]. specialize (Hwf1 n1 H1).
  destruct (steps_wf (ENotify t :: after) n1 Hwf1) as [_ Hwf3]. specialize (Hwf3 n3 H3).
  split; [by destruct (steps_wf (before ++ ENotify t :: after) _ wf_new)|]. split; [exact (wf_bound _ Hwf3)|].
  simpl in H3. destruct (Notify_spec t n1 Hwf1) as (chans & Hn & Hl). rewrite Hn in H3.
  assert (wf (mkNotifier (subscribers n1) chans)) as Hwf2.
  { destruct (step_wf (ENotify t) n1 Hwf1) as [_ Hw]. exact (Hw _ Hn). }
  destruct (steps_signalled after _ n3 c Hwf2 H3 Hc) as (ch & Hch & Hb).
  - pose proof (proj1 (wf_listed _ Hwf1 c) (ex_intro _ _ Hsub)) as Hp.
    destruct (channels n1 !! c) as [ch|] eqn:E; [|done]. exists (mkChannel capacity (phase ch)).
    simpl. rewrite Hl, Hsub, E. simpl. unfold in_scope. rewrite bool_decide_eq_true_2 by done. split; [done|]. simpl. unfold capacity. lia.
  - unfold receive. rewrite Hch. destruct ch as [[|b] p]; simpl in *; [lia|]. eauto.
Qed.

(** A worker for all tenants that leaves right after the announcement. *)
Lemma wake_ups_are_not_lost_witness :
  ∃ n3 n4, steps [EWatch " "; EWatch "t2"; ENotify "t1"; ERemove 0; EClose 0] NewDependencyGraphJobNotifier = Next n3 ∧
    receive 0 n3 = Next (true, n4).
Proof.
  destruct (steps [EWatch " "; EWatch "t2"] NewDependencyGraphJobNotifier) as [n1| |] eqn:E1; [|discriminate E1..].
  destruct (steps [ENotify "t1"; ERemove 0; EClose 0] n1) as [n3| |] eqn:E3;
    [|vm_compute in E1; injection E1 as <-; vm_compute in E3; discriminate E3..].
  destruct (wake_ups_are_not_lost [EWatch " "; EWatch "t2"] "t1" [ERemove 0; EClose 0] n1 n3 0 "*" E1) as (_ & _ & n4 & H4).
  - vm_compute in E1. injection E1 as <-. vm_compute. reflexivity.
  - left. reflexivity.
  - exact E3.
  - set_solver.
  - exists n3, n4. split; [|exact H4]. change (steps ([EWatch " "; EWatch "t2"] ++ [ENotify "t1"; ERemove 0; EClose 0]) NewDependencyGraphJobNotifier = Next n3).
    rewrite steps_app, E1. exact E3.
Defined.
