(* ===== verification/IngestWire.v ===== *)
(** * What proxies send to the control plane

    [internal/wire/ingestgrpc/types.go]: the requests and responses of the proxy
    ingestion service, the conversions between them and the domain, and the way
    errors cross the connection.  The JSON codec of the connection carries these
    values as they are: a value is identified with its JSON document, and an audit
    payload with the document of its map. *)

From S2P Require Import Prelude GoStrings GoTime TimeParse Artifact Dependency GraphDepth Upstream Policy Ports Authz.
#[local] Open Scope list_scope.

(** ** Definitions *)

(** *** Data *)

Record WireArtifact : Type := mkWireArtifact {
  wa_Ecosystem : EcosystemType;
  wa_Namespace : string;
  wa_Name : string;
  wa_Version : string;
  wa_Digest : string;
}.

Record WireReason : Type := mkWireReason {
  wr_PolicyID : string;
  wr_PolicyName : string;
  wr_Category : ReasonCategory;
  wr_Action : PolicyAction;
  wr_Message : string;
}.

Record WireDecision : Type := mkWireDecision {
  wd_ID : string;
  wd_TenantID : string;
  wd_Artifact : WireArtifact;
  wd_Outcome : DecisionOutcome;
  wd_PolicyID : string;
  wd_PolicyHash : string;
  wd_DependencyContext : option DependencyContext;
  wd_Reason : string;
  wd_Reasons : list WireReason;
  wd_Warnings : list string;
  wd_CachedAt : option string;
  wd_EvaluatedAt : string;
}.

Record WireUpstream : Type := mkWireUpstream {
  wu_ID : string;
  wu_TenantID : string;
  wu_Name : string;
  wu_Ecosystem : EcosystemType;
  wu_BaseURL : string;
}.

(** An audit event of the domain with the identifier the store gives it, which
    [Ports.AuditEvent] leaves out. *)
Record StoredEvent : Type := mkStoredEvent { ev_ID : string; ev_Event : AuditEvent }.

Record WireEvent : Type := mkWireEvent {
  we_ID : string;
  we_TenantID : string;
  we_CorrelationID : string;
  we_EventType : AuditEventType;
  we_Source : string;
  we_EntityType : string;
  we_EntityID : string;
  we_UpstreamID : string;
  we_PolicyID : string;
  we_Outcome : DecisionOutcome;
  we_Artifact : WireArtifact;
  we_Message : string;
  we_Payload : option (list (string * Any));
  we_CreatedAt : string;
}.

Record WireResolve : Type := mkWireResolve {
  wq_TenantID : string;
  wq_Upstream : WireUpstream;
  wq_Root : WireArtifact;
}.

(** *** Requests and responses *)

Record RecordDecisionRequest : Type := mkRecordDecisionRequest { rdq_Decision : WireDecision }.
Record RecordDecisionResponse : Type := mkRecordDecisionResponse { rds_Decision : WireDecision }.
Record GetDecisionByArtifactRequest : Type := mkGetDecisionRequest { gdq_TenantID : string; gdq_Artifact : WireArtifact }.
Record GetDecisionByArtifactResponse : Type := mkGetDecisionResponse { gds_Decision : WireDecision }.
Record ListDecisionsByTenantRequest : Type := mkListDecisionsRequest {
  ldq_TenantID : string; ldq_Limit : Z; ldq_Offset : Z; ldq_Search : string;
}.
Record ListDecisionsByTenantResponse : Type := mkListDecisionsResponse { lds_Decisions : list WireDecision }.
Record HasRecentAllowRequest : Type := mkHasRecentAllowRequest {
  haq_TenantID : string; haq_Ecosystem : EcosystemType; haq_Namespace : string; haq_Name : string;
}.
Record HasRecentAllowResponse : Type := mkHasRecentAllowResponse { has_Allowed : bool }.
Record RecordAuditEventRequest : Type := mkRecordAuditRequest { raq_Event : WireEvent }.
Record RecordAuditEventResponse : Type := mkRecordAuditResponse { ras_Event : WireEvent }.
Record EnqueueDependencyGraphResolveResponse : Type := mkEnqueueResponse { eqs_Enqueued : bool }.
Record ClaimDependencyGraphResolveRequest : Type := mkClaimRequest { clq_TenantID : string; clq_Now : string }.
Record ClaimDependencyGraphResolveResponse : Type := mkClaimResponse { cls_Job : option WireResolve }.
Record CompleteDependencyGraphResolveRequest : Type := mkCompleteRequest {
  coq_Job : WireResolve;
  coq_Nodes : list DependencyGraphNode;
  coq_Edges : list DependencyGraphEdge;
  coq_GraphHash : string;
}.
Record FailDependencyGraphResolveRequest : Type := mkFailRequest {
  faq_Job : WireResolve; faq_Message : string; faq_RetryAfter : string;
}.
Record LookupDependencyGraphContextRequest : Type := mkLookupRequest {
  luq_TenantID : string; luq_UpstreamID : string; luq_Artifact : WireArtifact;
}.
Record LookupDependencyGraphContextResponse : Type := mkLookupResponse { lus_Context : option DependencyContext }.

(** The requests the authorization interceptor sees. *)
Inductive IngestRequest : Type :=
| QRecordDecision (q : RecordDecisionRequest)
| QGetDecisionByArtifact (q : GetDecisionByArtifactRequest)
| QListDecisionsByTenant (q : ListDecisionsByTenantRequest)
| QHasRecentAllow (q : HasRecentAllowRequest)
| QRecordAuditEvent (q : RecordAuditEventRequest)
| QEnqueueDependencyGraphResolve (q : WireResolve)
| QClaimDependencyGraphResolve (q : ClaimDependencyGraphResolveRequest)
| QLookupDependencyGraphContext (q : LookupDependencyGraphContextRequest)
| QWatchDependencyGraphResolve (tenantID : string)
| QCompleteDependencyGraphResolve (q : CompleteDependencyGraphResolveRequest)
| QFailDependencyGraphResolve (q : FailDependencyGraphResolveRequest).

Definition TenantIDFromRequest (req : IngestRequest) : string :=
  match req with
  | QRecordDecision q => wd_TenantID (rdq_Decision q)
  | QGetDecisionByArtifact q => gdq_TenantID q
  | QListDecisionsByTenant q => ldq_TenantID q
  | QHasRecentAllow q => haq_TenantID q
  | QRecordAuditEvent q => we_TenantID (raq_Event q)
  | QEnqueueDependencyGraphResolve q => wq_TenantID q
  | QClaimDependencyGraphResolve q => clq_TenantID q
  | QLookupDependencyGraphContext q => luq_TenantID q
  | QWatchDependencyGraphResolve t => t
  | QCompleteDependencyGraphResolve q => wq_TenantID (coq_Job q)
  | QFailDependencyGraphResolve q => wq_TenantID (faq_Job q)
  end.

(** *** Conversions *)

Definition formatTime (value : time) : string := if decide (value = zero_time) then "" else rfc3339 value.

Definition parseTime (value : string) : result time :=
  if decide (TrimSpace value = "") then Ok zero_time else time_Parse value.

Definition cloneDependencyContext (source : option DependencyContext) : option DependencyContext :=
  match source with None => None | Some c => Some (context_Normalize c) end.

Definition FromDomainArtifactIdentity (a : ArtifactIdentity) : WireArtifact :=
  mkWireArtifact (Ecosystem a) (Namespace a) (Name a) (Version a) (Digest a).
Definition artifact_ToDomain (a : WireArtifact) : ArtifactIdentity :=
  mkArtifact (wa_Ecosystem a) (wa_Namespace a) (wa_Name a) (wa_Version a) (wa_Digest a).

Definition FromDomainEvaluationReason (r : EvaluationReason) : WireReason :=
  mkWireReason (rsn_PolicyID r) (rsn_PolicyName r) (rsn_Category r) (rsn_Action r) (rsn_Message r).
Definition reason_ToDomain (r : WireReason) : EvaluationReason :=
  mkReason (wr_PolicyID r) (wr_PolicyName r) (wr_Category r) (wr_Action r) (wr_Message r).

Definition FromDomainDecision (d : Decision) : WireDecision :=
  mkWireDecision (dec_ID d) (dec_TenantID d) (FromDomainArtifactIdentity (dec_Artifact d)) (dec_Outcome d) (dec_PolicyID d)
    (dec_PolicyHash d) (cloneDependencyContext (dec_DependencyContext d)) (dec_Reason d)
    (FromDomainEvaluationReason <$> dec_Reasons d) (dec_Warnings d) (formatTime <$> dec_CachedAt d)
    (formatTime (dec_EvaluatedAt d)).

Definition decision_ToDomain (d : WireDecision) : result Decision :=
  evaluatedAt ← wrap_result "parsing evaluated_at: " (parseTime (wd_EvaluatedAt d));
  cachedAt ← match wd_CachedAt d with
             | None => Ok None
             | Some c => Some <$> wrap_result "parsing cached_at: " (parseTime c)
             end;
  Ok (mkDecision (wd_ID d) (wd_TenantID d) (artifact_ToDomain (wd_Artifact d)) (wd_Outcome d) (wd_PolicyID d)
        (wd_PolicyHash d) (cloneDependencyContext (wd_DependencyContext d)) (wd_Reason d) (reason_ToDomain <$> wd_Reasons d)
        (wd_Warnings d) cachedAt evaluatedAt).

Definition FromDomainUpstream (u : Upstream) : WireUpstream :=
  mkWireUpstream (up_ID u) (up_TenantID u) (up_Name u) (up_Ecosystem u) (BaseURL u).
Definition upstream_ToDomain (u : WireUpstream) : Upstream :=
  mkUpstream (wu_ID u) (wu_TenantID u) (wu_Name u) (wu_Ecosystem u) (wu_BaseURL u) None None zero_time zero_time.

Definition FromDomainAuditEvent (e : StoredEvent) : WireEvent :=
  let ev := ev_Event e in
  mkWireEvent (ev_ID e) (ev_TenantID ev) (ev_CorrelationID ev) (ev_EventType ev) (ev_Source ev) (ev_EntityType ev)
    (ev_EntityID ev) (ev_UpstreamID ev) (ev_PolicyID ev) (ev_Outcome ev) (FromDomainArtifactIdentity (ev_Artifact ev))
    (ev_Message ev) (ev_Payload ev) (formatTime (ev_CreatedAt ev)).

Definition event_ToDomain (e : WireEvent) : result StoredEvent :=
  createdAt ← wrap_result "parsing created_at: " (parseTime (we_CreatedAt e));
  Ok (mkStoredEvent (we_ID e) (mkAuditEvent (we_TenantID e) (we_CorrelationID e) (we_EventType e) (we_Source e)
        (we_EntityType e) (we_EntityID e) (we_UpstreamID e) (we_PolicyID e) (we_Outcome e)
        (artifact_ToDomain (we_Artifact e)) (we_Message e) (we_Payload e) createdAt)).

Definition FromDomainDependencyGraphResolveRequest (r : DependencyGraphResolveRequest) : WireResolve :=
  mkWireResolve (rr_TenantID r) (FromDomainUpstream (rr_Upstream r)) (FromDomainArtifactIdentity (rr_Root r)).
Definition resolve_ToDomain (r : WireResolve) : DependencyGraphResolveRequest :=
  mkResolveRequest (wq_TenantID r) (upstream_ToDomain (wq_Upstream r)) (artifact_ToDomain (wq_Root r)) zero_time.

(** *** Errors *)

Definition MapClientError (st : Status) : error :=
  if decide (st_Code st = NotFound ∧ st_Message st = sentinel_text ErrArtifactNotFound)
  then sentinel_error ErrArtifactNotFound else status_error st.

Definition ToStatusError (e : error) : Status :=
  if errors_Is e ErrArtifactNotFound then mkStatus NotFound (sentinel_text ErrArtifactNotFound)
  else mkStatus Internal (error_msg e).

(** ** What crosses the connection *)

(** Go's [time.RFC3339Nano] writes the year of the time. *)
Definition time_ok (t : time) : Prop := 0 ≤ year_of t < 10000.

Definition decision_times (d : Decision) : Prop :=
  time_ok (dec_EvaluatedAt d) ∧ from_option time_ok True (dec_CachedAt d).

(** The decision with its dependency context in canonical form. *)
Definition canonical_decision (d : Decision) : Decision :=
  set_PolicyHash_Context (dec_PolicyHash d) (context_Normalize <$> dec_DependencyContext d) d.

(** A request without what the wire leaves out. *)
Definition carried_upstream (u : Upstream) : Upstream :=
  mkUpstream (up_ID u) (up_TenantID u) (up_Name u) (up_Ecosystem u) (BaseURL u) None None zero_time zero_time.
Definition carried_request (r : DependencyGraphResolveRequest) : DependencyGraphResolveRequest :=
  mkResolveRequest (rr_TenantID r) (carried_upstream (rr_Upstream r)) (rr_Root r) zero_time.

Lemma trim_right_last p s c : p c = false → trim_right p (s +:+ String c "") ≠ "".
Proof.
  intros Hc. induction s as [|d s IH]; simpl; [by rewrite Hc|].
  destruct (trim_right p (s +:+ String c "")); [done|]. done.
Qed.

Lemma trim_left_last p s c : p c = false → ∃ s', trim_left p (s +:+ String c "") = s' +:+ String c "".
Proof.
  intros Hc. induction s as [|d s [s' IH]]; simpl; [rewrite Hc; by exists ""|].
  destruct (p d); [eauto|]. by exists (String d s).
Qed.

Lemma TrimSpace_last s c : is_space c = false → TrimSpace (s +:+ String c "") ≠ "".
Proof.
  intros Hc. unfold TrimSpace, trim_by. destruct (trim_left_last is_space s c Hc) as [s' ->]. by apply trim_right_last.
Qed.

Lemma rfc3339_visible t : TrimSpace (rfc3339 t) ≠ "".
Proof.
  unfold rfc3339. destruct (date_of_days _) as [[y m] d].
  rewrite <-!sapp_assoc. apply (TrimSpace_last _ "Z"). done.
Qed.

Lemma parseTime_formatTime t : time_ok t → parseTime (formatTime t) = Ok t.
Proof.
  intros Ht. unfold formatTime, parseTime. destruct (decide (t = zero_time)) as [->|]; [done|].
  rewrite decide_False by apply rfc3339_visible. by apply time_Parse_rfc3339.
Qed.

Lemma artifact_roundtrip a : artifact_ToDomain (FromDomainArtifactIdentity a) = a.
Proof. by destruct a. Qed.
Lemma reasons_roundtrip (l : list EvaluationReason) : reason_ToDomain <$> (FromDomainEvaluationReason <$> l) = l.
Proof. induction l as [|[] l IH]; csimpl; [done|]. by rewrite IH. Qed.
Lemma resolve_roundtrip r : resolve_ToDomain (FromDomainDependencyGraphResolveRequest r) = carried_request r.
Proof. by destruct r as [? [] []]. Qed.

Lemma canonical_context_again c : context_Normalize (context_Normalize c) = context_Normalize c.
Proof. apply context_Normalize_idempotent. Qed.

Lemma cloneDependencyContext_twice c : cloneDependencyContext (cloneDependencyContext c) = context_Normalize <$> c.
Proof. destruct c; simpl; [|done]. by rewrite canonical_context_again. Qed.

Lemma canonical_decision_idem d : canonical_decision (canonical_decision d) = canonical_decision d.
Proof.
  destruct d as [? ? ? ? ? ? [c|] ? ? ? ? ?]; [|done]. unfold canonical_decision, set_PolicyHash_Context. simpl.
  by rewrite canonical_context_again.
Qed.

Lemma decision_roundtrip d :
  decision_times d → decision_ToDomain (FromDomainDecision d) = Ok (canonical_decision d).
Proof.
  intros [He Hc]. unfold decision_ToDomain. simpl. rewrite parseTime_formatTime by done. simpl.
  destruct d as [? ? ? ? ? ? ctx ? ? ? [ca|] ?]; simpl in *; rewrite ?parseTime_formatTime by done; simpl;
    by rewrite cloneDependencyContext_twice, artifact_roundtrip, reasons_roundtrip.
Qed.

Lemma event_roundtrip e : time_ok (ev_CreatedAt (ev_Event e)) → event_ToDomain (FromDomainAuditEvent e) = Ok e.
Proof.
  intros H. unfold event_ToDomain. simpl. rewrite parseTime_formatTime by done. simpl. rewrite artifact_roundtrip.
  by destruct e as [? []].
Qed.

(** Of the sentinels a failure wraps only [ErrArtifactNotFound] is still found by the
    client. *)
Lemma client_sentinels e s :
  errors_Is (MapClientError (ToStatusError e)) s = true ↔ s = ErrArtifactNotFound ∧ errors_Is e s = true.
Proof.
  unfold ToStatusError. destruct (errors_Is e ErrArtifactNotFound) eqn:E.
  - unfold MapClientError. rewrite decide_True by done. unfold errors_Is at 1. simpl. rewrite bool_decide_eq_true, list_elem_of_singleton.
    split; [by intros ->|by intros [-> _]].
  - unfold MapClientError. rewrite decide_False by (by intros []). unfold errors_Is at 1. simpl.
    split; [done|]. intros [-> ?]. congruence.
Qed.
