(* ===== verification/TenantStore.v ===== *)
(** * Tenants

    [internal/infra/postgres/tenant.go] over the table [tenants], and the services
    [core/service/tenant.go] and [cache.go].  Names are unique.  What stops the
    deletion of a tenant whose rows other rows refer to, [gen_random_uuid()] and the
    collation of names belong to the database. *)

From S2P Require Import Prelude GoStrings Artifact Dependency Upstream PolicyConfig Policy AdminTables PgValues.
#[local] Open Scope list_scope.

(** ** Definitions *)

Record TenantRow : Type := mkTenantRow { tn_Name : string; tn_CreatedAt : time; tn_UpdatedAt : time }.
Record TenantDB : Type := mkTenantDB { tenant_table : gmap string TenantRow; tn_serial : nat; tn_now : time }.

Definition tenantConstraintErrors : gmap string sentinel := {[ "tenants_name_key" := ErrTenantNameConflict ]}.

Definition tenant_of (kv : string * TenantRow) : Tenant := mkTenant kv.1 (tn_Name kv.2) (tn_CreatedAt kv.2) (tn_UpdatedAt kv.2).

Definition name_in_use (id name : string) (db : TenantDB) : Prop :=
  map_Exists (λ i r, i ≠ id ∧ tn_Name r = name) (tenant_table db).
#[export] Instance name_in_use_dec id name db : base.Decision (name_in_use id name db).
Proof. unfold name_in_use. apply _. Defined.

Section repository.
Context (uuid : nat → string) (pg_text : PgError → error) (collate : string → string → bool).
(** What refers to the rows a deletion cascades to, and is not deleted with them. *)
Context (restricted : string → option PgError).

Definition tenant_error (what : string) (e : PgError) : error :=
  match mapConstraintError e tenantConstraintErrors with
  | Some s => sentinel_error s
  | None => wrap_error what (pg_text e)
  end.

Definition tenant_checks (id name : string) (db : TenantDB) : option PgError :=
  first_violation [text_params [name];
                   if decide (name_in_use id name db) then Some (mkPgError unique_violation "tenants_name_key") else None].

Definition TenantRepository_GetByID (id : string) (db : TenantDB) : result Tenant :=
  match tenant_table db !! id with
  | Some r => Ok (tenant_of (id, r))
  | None => Err (sentinel_error ErrTenantNotFound)
  end.

Definition by_tenant_name (a b : string * TenantRow) : bool := collate (tn_Name a.2) (tn_Name b.2).
Definition TenantRepository_List (db : TenantDB) : result (list Tenant) :=
  Ok (tenant_of <$> sort_by by_tenant_name (map_to_list (tenant_table db))).

(** The identifier and times are written through the pointer. *)
Definition TenantRepository_Create (t : Tenant) (db : TenantDB) : result Tenant * TenantDB :=
  let id := uuid (tn_serial db) in
  match tenant_checks id (tenant_Name t) db with
  | Some e => (Err (tenant_error "creating tenant: " e), db)
  | None =>
      let r := mkTenantRow (tenant_Name t) (tn_now db) (tn_now db) in
      (Ok (tenant_of (id, r)), mkTenantDB (<[id := r]> (tenant_table db)) (S (tn_serial db)) (tn_now db))
  end.

Definition TenantRepository_Update (t : Tenant) (db : TenantDB) : result () * TenantDB :=
  match tenant_table db !! tenant_ID t with
  | None => (match text_params [tenant_Name t] with
             | Some e => Err (tenant_error "updating tenant: " e)
             | None => Err (sentinel_error ErrTenantNotFound)
             end, db)
  | Some r =>
      match tenant_checks (tenant_ID t) (tenant_Name t) db with
      | Some e => (Err (tenant_error "updating tenant: " e), db)
      | None => (Ok (), mkTenantDB (<[tenant_ID t := mkTenantRow (tenant_Name t) (tn_CreatedAt r) (tn_now db)]> (tenant_table db))
                          (tn_serial db) (tn_now db))
      end
  end.

Definition TenantRepository_Delete (id : string) (db : TenantDB) : result () * TenantDB :=
  match tenant_table db !! id with
  | None => (Err (sentinel_error ErrTenantNotFound), db)
  | Some _ =>
      match restricted id with
      | Some e => (Err (wrap_error "deleting tenant: " (pg_text e)), db)
      | None => (Ok (), mkTenantDB (delete id (tenant_table db)) (tn_serial db) (tn_now db))
      end
  end.

(** *** core/service/tenant.go *)

Definition wrap_first {A W} (prefix : string) (p : result A * W) : result A * W := (wrap_result prefix p.1, p.2).

Definition TenantService_Create (t : Tenant) (db : TenantDB) : result Tenant * TenantDB :=
  wrap_first "creating tenant: " (TenantRepository_Create t db).
Definition TenantService_GetByID (id : string) (db : TenantDB) : result Tenant :=
  wrap_result "getting tenant: " (TenantRepository_GetByID id db).
Definition TenantService_List (db : TenantDB) : result (list Tenant) :=
  wrap_result "listing tenants: " (TenantRepository_List db).
Definition TenantService_Update (t : Tenant) (db : TenantDB) : result () * TenantDB :=
  wrap_first "updating tenant: " (TenantRepository_Update t db).
Definition TenantService_Delete (id : string) (db : TenantDB) : result () * TenantDB :=
  wrap_first "deleting tenant: " (TenantRepository_Delete id db).

(** ** The invariant *)

Inductive tenant_step (db : TenantDB) : TenantDB → Prop :=
| ts_create t : tenant_step db (TenantService_Create t db).2
| ts_update t : tenant_step db (TenantService_Update t db).2
| ts_delete id : tenant_step db (TenantService_Delete id db).2
| ts_later d : tenant_step db (mkTenantDB (tenant_table db) (tn_serial db) (tn_now db + d)).

Record tenants_ok (db : TenantDB) : Prop := {
  to_unique i j r s : tenant_table db !! i = Some r → tenant_table db !! j = Some s → tn_Name r = tn_Name s → i = j;
  to_fresh n : (tn_serial db ≤ n)%nat → tenant_table db !! uuid n = None;
}.

Context (uuid_inj : ∀ n m, uuid n = uuid m → n = m).

Lemma tenant_checks_None id name db :
  tenant_checks id name db = None ↔ text_ok name = true ∧ ¬ name_in_use id name db.
Proof using Type.
  unfold tenant_checks. rewrite first_violation_None, !Forall_cons, text_params_None, Forall_singleton.
  clear collate restricted. case_decide; naive_solver.
Qed.

Lemma tenant_name_free id name db : ¬ name_in_use id name db ↔
  ∀ i r, tenant_table db !! i = Some r → tn_Name r = name → i = id.
Proof using Type.
  unfold name_in_use. split.
  - intros H i r Hi Hn. destruct (decide (i = id)) as [|Hne]; [done|]. destruct H. by exists i, r.
  - intros H (i & r & Hi & Hne & Hn). by apply Hne, (H i r).
Qed.

(** Writing a free name keeps names unique. *)
Lemma insert_unique id r db :
  tenants_ok db → ¬ name_in_use id (tn_Name r) db →
  ∀ i j a b, <[id := r]> (tenant_table db) !! i = Some a → <[id := r]> (tenant_table db) !! j = Some b →
    tn_Name a = tn_Name b → i = j.
Proof using Type.
  intros H Hf i j a b. pose proof (proj1 (tenant_name_free _ _ _) Hf) as Hf'. clear Hf. rename Hf' into Hf.
  rewrite !lookup_insert_Some. intros [[<- <-]|[_ Ha]] [[<- <-]|[_ Hb]] E; [done| | |by eapply (to_unique _ H)].
  - symmetry. by apply (Hf j b).
  - by apply (Hf i a).
Qed.

Lemma tenant_step_ok db db' : tenants_ok db → tenant_step db db' → tenants_ok db'.
Proof using uuid_inj.
  intros H Hs. destruct Hs; unfold TenantService_Create, TenantService_Update, TenantService_Delete, wrap_first; cbn [snd].
  - unfold TenantRepository_Create. destruct (tenant_checks _ _ _) eqn:E; [done|]. apply tenant_checks_None in E as [_ Hf].
    split; simpl; [by apply (insert_unique _ (mkTenantRow _ _ _))|]. intros n Hn. rewrite lookup_insert_ne.
    + apply (to_fresh _ H). lia.
    + intros E%uuid_inj. lia.
  - unfold TenantRepository_Update. destruct (tenant_table db !! tenant_ID t) as [r|] eqn:Hr; [|done].
    destruct (tenant_checks _ _ _) eqn:E; [done|]. apply tenant_checks_None in E as [_ Hf].
    split; simpl; [by apply (insert_unique _ (mkTenantRow _ _ _))|]. intros n Hn. pose proof (to_fresh _ H n Hn) as Hnew.
    rewrite lookup_insert_ne; [done|]. congruence.
  - unfold TenantRepository_Delete. destruct (tenant_table db !! id); [|done]. destruct (restricted id); [done|].
    split; simpl.
    + intros i j r s [_ Hi]%lookup_delete_Some [_ Hj]%lookup_delete_Some. by apply (to_unique _ H).
    + intros n Hn. rewrite lookup_delete_None. right. by apply (to_fresh _ H).
  - by destruct H.
Qed.
End repository.

(** The errors of the repository keep their sentinels through the service. *)
Definition new_tenant (name : string) : Tenant := mkTenant "" name zero_time zero_time.

(** Tenants are an inventory with unique names.  In every reachable state a
    tenant can be created exactly when its name is a text the database takes and no
    tenant has it: it is then found under the new identifier and no other tenant is
    touched; a taken name is the conflict error and changes nothing.  A rename does
    the same for an existing tenant, and names never become ambiguous. *)
Theorem tenant_inventory uuid pg_text restricted (uuid_inj : ∀ n m, uuid n = uuid m → n = m) now db :
  rtc (tenant_step uuid pg_text restricted) (mkTenantDB ∅ 0 now) db →
  (∀ i j r s, tenant_table db !! i = Some r → tenant_table db !! j = Some s → tn_Name r = tn_Name s → i = j) ∧
  (∀ name, let '(r, db') := TenantService_Create uuid pg_text (new_tenant name) db in
     match r with
     | Ok t => text_ok name = true ∧ ¬ name_in_use (tenant_ID t) name db ∧ tenant_table db !! tenant_ID t = None ∧
               tenant_Name t = name ∧ TenantService_GetByID (tenant_ID t) db' = Ok t ∧
               ∀ i, i ≠ tenant_ID t → tenant_table db' !! i = tenant_table db !! i
     | Err e => db' = db ∧ (text_ok name = true → errors_Is e ErrTenantNameConflict = true ∧
                            ∃ i r, tenant_table db !! i = Some r ∧ tn_Name r = name)
     end) ∧
  (∀ id name, let '(r, db') := TenantService_Update pg_text (mkTenant id name zero_time zero_time) db in
     match r with
     | Ok _ => (tn_Name <$> tenant_table db' !! id = Some name) ∧ ∀ i, i ≠ id → tenant_table db' !! i = tenant_table db !! i
     | Err e => db' = db ∧ (text_ok name = true → errors_Is e ErrTenantNotFound = true ∨ errors_Is e ErrTenantNameConflict = true)
     end).
Proof.
  intros Hr. assert (tenants_ok uuid db) as H.
  { assert (tenants_ok uuid (mkTenantDB ∅ 0 now)) as H0 by by split.
    revert H0. induction Hr as [|x y z Hxy _ IH]; [done|]. intros H0. by apply IH, (tenant_step_ok uuid pg_text restricted uuid_inj x). }
  split; [apply (to_unique _ _ H)|]. split.
  - intros name. unfold TenantService_Create, TenantRepository_Create, wrap_first. simpl.
    destruct (tenant_checks _ _ _) as [e|] eqn:E; cbn [fst snd wrap_result].
    + split; [done|]. intros Ht. unfold tenant_checks in E.
      assert (text_params [name] = None) as Hp by (apply text_params_None; by repeat constructor). rewrite Hp in E. simpl in E.
      case_decide as Hu; [|done]. injection E as <-. split; [done|]. destruct Hu as (i & r & Hi & _ & Hn). by exists i, r.
    + apply tenant_checks_None in E as [Ht Hf]. split; [done|]. split; [done|]. split; [by apply (to_fresh _ _ H)|].
      split; [done|]. unfold TenantService_GetByID, TenantRepository_GetByID. simpl. rewrite lookup_insert_eq.
      split; [done|]. intros i Hi. by rewrite lookup_insert_ne.
  - intros id name. unfold TenantService_Update, TenantRepository_Update, wrap_first. simpl.
    destruct (tenant_table db !! id) as [r|] eqn:Hid; [destruct (tenant_checks id name db) as [e|] eqn:E|]; cbn [fst snd wrap_result].
    + split; [done|]. intros Ht. right. unfold tenant_checks in E.
      assert (text_params [name] = None) as Hp by (apply text_params_None; by repeat constructor). rewrite Hp in E. simpl in E.
      case_decide; [|done]. by injection E as <-.
    + simpl. rewrite lookup_insert_eq. split; [done|]. intros i Hi. by rewrite lookup_insert_ne.
    + assert (text_ok name = true → text_params [name] = None) as Hp by (intros; apply text_params_None; by repeat constructor).
      destruct (text_params [name]); simpl; (split; [done|]); intros Ht; [by specialize (Hp Ht)|by left].
Qed.

Lemma tenant_inventory_witness :
  let db := mkTenantDB ∅ 0 5 in
  let '(r, db') := TenantService_Create (λ n, itoa (Z.of_nat n)) (λ _, new_error "pg") (new_tenant "acme") db in
  is_ok r = true ∧ tenant_table db' !! "0" = Some (mkTenantRow "acme" 5 5).
Proof.
  assert (∀ n m : nat, itoa (Z.of_nat n) = itoa (Z.of_nat m) → n = m) as Hinj by (intros n m E%itoa_inj; lia).
  destruct (tenant_inventory (λ n, itoa (Z.of_nat n)) (λ _, new_error "pg") (λ _, None) Hinj 5 (mkTenantDB ∅ 0 5) (rtc_refl _ _))
    as (_ & H & _). specialize (H "acme"). cbv zeta.
  destruct (TenantService_Create _ _ _ _) as [[t|e] db'] eqn:E; [|vm_compute in E; discriminate E].
  split; [reflexivity|]. vm_compute in E. injection E as <- <-. vm_compute. reflexivity.
Defined.
