(* ===== verification/AuditStore.v ===== *)
(** * The audit repository

    [internal/infra/postgres/audit.go] over the table [audit_events], and the
    recorders of [internal/infra/audit/recorder.go].  The table is a list of rows in
    insertion order.  The payload column is JSONB: it keeps the JSON value of the
    text it is given.  [gen_random_uuid()], the syntax of UUIDs, the text of a JSONB
    value and the resolution of a timestamp belong to the database. *)

From S2P Require Import Prelude GoStrings Floats Json JsonDecode JsonParse GoTime Artifact Dependency Upstream PolicyConfig Policy.
From S2P Require Import Effects Ports AuditLog IngestWire AdminTables PgValues.
#[local] Open Scope list_scope.

(** ** Definitions *)

Record AuditRow : Type := mkAuditRow {
  au_ID : string;
  au_TenantID : string;
  au_EventType : string;
  au_EntityType : option string;
  au_EntityID : option string;
  au_Payload : json;
  au_CreatedAt : time;
}.

Record AuditDB : Type := mkAuditDB { audit_tenants : gset string; audit_rows : list AuditRow; audit_serial : nat }.

(** *** The payload *)

Definition vulnerability_json (v : Vulnerability) : json :=
  JObject [("ID", JString (vuln_ID v)); ("Severity", JString (Severity v)); ("CVSS", JFloat (CVSS v));
           ("Summary", JString (vuln_Summary v))].
Definition artifact_json (a : ArtifactIdentity) : json :=
  JObject [("Ecosystem", JString (Ecosystem a)); ("Namespace", JString (Namespace a)); ("Name", JString (Name a));
           ("Version", JString (Version a)); ("Digest", JString (Digest a))].
Definition reason_json (r : EvaluationReason) : json :=
  JObject [("PolicyID", JString (rsn_PolicyID r)); ("PolicyName", JString (rsn_PolicyName r));
           ("Category", JString (rsn_Category r)); ("Action", JString (rsn_Action r)); ("Message", JString (rsn_Message r))].

(** What [encoding/json] makes of a value of a payload; maps are written in the
    order of their keys. *)
Fixpoint any_json (a : Any) : json :=
  match a with
  | AnyString s => JString s
  | AnyInt z => JInt z
  | AnyBool b => JBool b
  | AnyFloat f => JFloat f
  | AnyTime t => JString (rfc3339 (t / 10 ^ 9 * 10 ^ 9))
  | AnyStrings l => slice_json JString l
  | AnyVulnerabilities l => slice_json vulnerability_json l
  | AnyArtifact a => artifact_json a
  | AnyReasons l => slice_json reason_json l
  | AnyMap m => JObject (members ((λ kv, (kv.1, any_json kv.2)) <$> m))
  | AnyJson j => j
  end.

Definition details_json (payload : option (list (string * Any))) : json :=
  match payload with
  | None => JNull
  | Some m => JObject (members ((λ kv, (kv.1, any_json kv.2)) <$> m))
  end.

(** [json.Marshal] writes the maps with their keys in order. *)
Definition payload_object (e : AuditEvent) (details : json) : json :=
  JObject [("artifact", JObject [("digest", JString (Digest (ev_Artifact e))); ("ecosystem", JString (Ecosystem (ev_Artifact e)));
                                 ("name", JString (Name (ev_Artifact e))); ("namespace", JString (Namespace (ev_Artifact e)));
                                 ("version", JString (Version (ev_Artifact e)))]);
           ("correlation_id", JString (ev_CorrelationID e)); ("details", details); ("message", JString (ev_Message e));
           ("outcome", JString (ev_Outcome e)); ("policy_id", JString (ev_PolicyID e)); ("source", JString (ev_Source e));
           ("upstream_id", JString (ev_UpstreamID e))].
Definition buildAuditPayload (e : AuditEvent) : json := payload_object e (details_json (ev_Payload e)).

Definition nullableAuditString (value : string) : option string := nullableString (TrimSpace value).

Definition byte_is (n : nat) (c : ascii) (s : string) : bool :=
  match String.get n s with Some d => bool_decide (d = c) | None => false end.
Definition looksLikeUUID (value : string) : bool :=
  (String.length value =? 36)%nat && byte_is 8 "-" value && byte_is 13 "-" value && byte_is 18 "-" value && byte_is 23 "-" value.

(** The struct [decodeAuditPayload] decodes into.  The fields of the artifact have
    no tags and match in either case. *)
Record AuditPayload : Type := mkAuditPayload {
  pl_CorrelationID : string; pl_Source : string; pl_Message : string; pl_Outcome : string; pl_UpstreamID : string;
  pl_PolicyID : string; pl_Artifact : ArtifactIdentity; pl_Details : option (list (string * json)) }.

Definition zero_payload : AuditPayload := mkAuditPayload "" "" "" "" "" "" (mkArtifact "" "" "" "" "") None.

Definition artifact_fields : fields ArtifactIdentity :=
  let text (name ty : string) (set : string → ArtifactIdentity → ArtifactIdentity) (get : ArtifactIdentity → string) :=
    (name, λ v a, s ← dec_string (into_field "ArtifactIdentity" ("artifact." +:+ name)) ty v (get a); Ok (set s a)) in
  [text "Ecosystem" "domain.EcosystemType" (λ s a, mkArtifact s (Namespace a) (Name a) (Version a) (Digest a)) Ecosystem;
   text "Namespace" "string" set_Namespace Namespace; text "Name" "string" set_Name Name;
   text "Version" "string" set_Version Version; text "Digest" "string" set_Digest Digest].

(** [map[string]any] *)
Definition dec_any_map (place : string) (v : json) (old : option (list (string * json))) : result (option (list (string * json))) :=
  match v with
  | JNull => Ok None
  | JObject _ => v ← any_of v; match v with
                             | JObject l => Ok (Some (match old with None => l | Some m => members (m ++ l) end))
                             | _ => Ok old end
  | _ => Err (cannot_unmarshal (json_kind v) place "map[string]interface {}")
  end.

Definition payload_fields : fields AuditPayload :=
  let place (name : string) := into_field "" name in
  let text (name : string) (set : string → AuditPayload → AuditPayload) (get : AuditPayload → string) :=
    (name, λ v p, s ← dec_string (place name) "string" v (get p); Ok (set s p)) in
  [text "correlation_id" (λ s p, mkAuditPayload s (pl_Source p) (pl_Message p) (pl_Outcome p) (pl_UpstreamID p) (pl_PolicyID p) (pl_Artifact p) (pl_Details p)) pl_CorrelationID;
   text "source" (λ s p, mkAuditPayload (pl_CorrelationID p) s (pl_Message p) (pl_Outcome p) (pl_UpstreamID p) (pl_PolicyID p) (pl_Artifact p) (pl_Details p)) pl_Source;
   text "message" (λ s p, mkAuditPayload (pl_CorrelationID p) (pl_Source p) s (pl_Outcome p) (pl_UpstreamID p) (pl_PolicyID p) (pl_Artifact p) (pl_Details p)) pl_Message;
   text "outcome" (λ s p, mkAuditPayload (pl_CorrelationID p) (pl_Source p) (pl_Message p) s (pl_UpstreamID p) (pl_PolicyID p) (pl_Artifact p) (pl_Details p)) pl_Outcome;
   text "upstream_id" (λ s p, mkAuditPayload (pl_CorrelationID p) (pl_Source p) (pl_Message p) (pl_Outcome p) s (pl_PolicyID p) (pl_Artifact p) (pl_Details p)) pl_UpstreamID;
   text "policy_id" (λ s p, mkAuditPayload (pl_CorrelationID p) (pl_Source p) (pl_Message p) (pl_Outcome p) (pl_UpstreamID p) s (pl_Artifact p) (pl_Details p)) pl_PolicyID;
   ("artifact", λ v p, a ← unmarshal_struct "domain.ArtifactIdentity" artifact_fields v (pl_Artifact p);
      Ok (mkAuditPayload (pl_CorrelationID p) (pl_Source p) (pl_Message p) (pl_Outcome p) (pl_UpstreamID p) (pl_PolicyID p) a (pl_Details p)));
   ("details", λ v p, d ← dec_any_map (place "details") v (pl_Details p);
      Ok (mkAuditPayload (pl_CorrelationID p) (pl_Source p) (pl_Message p) (pl_Outcome p) (pl_UpstreamID p) (pl_PolicyID p) (pl_Artifact p) d))].

(** The values of a decoded [map[string]any]. *)
Definition decoded_payload (d : list (string * json)) : list (string * Any) := map (λ kv, (kv.1, AnyJson kv.2)) d.

(** The payload in the fields of the event.  The column of a row this repository
    wrote holds an object, so the name of the struct's type, which only an error
    would show, is not spelled out. *)
Definition decodeAuditPayload (data : json) (e : AuditEvent) : result AuditEvent :=
  p ← unmarshal_struct "struct {...}" payload_fields data zero_payload;
  Ok (mkAuditEvent (ev_TenantID e) (pl_CorrelationID p) (ev_EventType e) (pl_Source p) (ev_EntityType e) (ev_EntityID e)
        (pl_UpstreamID p) (pl_PolicyID p) (pl_Outcome p) (pl_Artifact p) (pl_Message p)
        (match pl_Details p with Some d => Some (decoded_payload d) | None => None end) (ev_CreatedAt e)).

Definition scanAuditEvent (r : AuditRow) : result StoredEvent :=
  e ← wrap_result "decoding audit payload: " (decodeAuditPayload (au_Payload r)
        (mkAuditEvent (au_TenantID r) "" (au_EventType r) "" (default "" (au_EntityType r)) (default "" (au_EntityID r)) "" "" ""
           (mkArtifact "" "" "" "" "") "" None (au_CreatedAt r)));
  Ok (mkStoredEvent (au_ID r) e).

(** *** The repository *)

(** [AuditEventFilter] *)
Record AuditEventFilter : Type := mkAuditFilter {
  fl_TenantID : string;
  fl_Limit : Z;
  fl_Offset : Z;
  fl_Search : string;
  fl_EventType : string;
  fl_Outcome : string;
  fl_CorrelationID : string;
  fl_PolicyID : string;
  fl_Source : string;
  fl_Since : option time;
  fl_Until : option time;
}.

Definition auditEventPage (f : AuditEventFilter) : Z * Z :=
  (if fl_Limit f <=? 0 then 50 else fl_Limit f, if fl_Offset f <? 0 then 0 else fl_Offset f).

(** [v -> k], and [COALESCE(v ->> k, '')]. *)
Fixpoint json_member (k : string) (kvs : list (string * json)) : option json :=
  match kvs with [] => None | (k', v) :: kvs => if decide (k' = k) then Some v else json_member k kvs end.
Definition json_get (k : string) (v : json) : option json := match v with JObject kvs => json_member k kvs | _ => None end.

Section repository.
Context (uuid : nat → string) (is_uuid : string → bool) (jsonb_text : json → string).
Context (pg_text : PgError → error) (pg_time : time → time).
(** JSONB has one type of number. *)
Context (jsonb_reads : ∀ v w, reads v w → jsonb_text w = jsonb_text v).

Definition text_of_member (k : string) (v : json) : string :=
  match json_get k v with
  | None | Some JNull => ""
  | Some (JString s) => s
  | Some v => jsonb_text v
  end.

Definition audit_checks (e : AuditEvent) (payload : PgError + json) (db : AuditDB) : option PgError :=
  first_violation
    [text_params (ev_EventType e :: option_list (nullableAuditString (ev_EntityType e)));
     if looksLikeUUID (ev_EntityID e) && negb (is_uuid (ev_EntityID e)) then Some invalid_uuid_text else None;
     match payload with inl e => Some e | inr _ => None end;
     if decide (ev_TenantID e ∈ audit_tenants db) then None
     else Some (mkPgError foreign_key_violation "audit_events_tenant_id_fkey")].

Definition AuditEventRepository_Record (e : AuditEvent) (db : AuditDB) : result () * AuditDB :=
  match json_Marshal (buildAuditPayload e) with
  | Err err => (Err (wrap_error "encoding audit payload: " err), db)
  | Ok text =>
      match audit_checks e (jsonb_input text) db, jsonb_input text with
      | None, inr v =>
          let row := mkAuditRow (uuid (audit_serial db)) (ev_TenantID e) (ev_EventType e) (nullableAuditString (ev_EntityType e))
                       (if looksLikeUUID (ev_EntityID e) then Some (ev_EntityID e) else None) v (pg_time (ev_CreatedAt e)) in
          (Ok (), mkAuditDB (audit_tenants db) (audit_rows db ++ [row]) (S (audit_serial db)))
      | Some err, _ | None, inl err => (Err (wrap_error "inserting audit event: " (pg_text err)), db)
      end
  end.

(** The [WHERE] clause of [listAuditEventsQuery]. *)
Definition equals_or_any (param value : string) : Prop := param = "" ∨ value = param.
#[export] Instance equals_or_any_dec p v : base.Decision (equals_or_any p v).
Proof. unfold equals_or_any. apply _. Defined.

Definition searched_columns (r : AuditRow) : list string :=
  let p := au_Payload r in
  let artifact := default JNull (json_get "artifact" p) in
  [au_EventType r; default "" (au_EntityType r); text_of_member "message" p; text_of_member "correlation_id" p;
   text_of_member "policy_id" p; text_of_member "upstream_id" p; text_of_member "namespace" artifact;
   text_of_member "name" artifact; text_of_member "version" artifact; text_of_member "digest" artifact;
   jsonb_text (default (JObject []) (json_get "details" p))].

Definition audit_where (f : AuditEventFilter) (r : AuditRow) : Prop :=
  au_TenantID r = fl_TenantID f ∧ equals_or_any (fl_EventType f) (au_EventType r) ∧
  equals_or_any (fl_Outcome f) (text_of_member "outcome" (au_Payload r)) ∧
  equals_or_any (TrimSpace (fl_CorrelationID f)) (text_of_member "correlation_id" (au_Payload r)) ∧
  equals_or_any (TrimSpace (fl_PolicyID f)) (text_of_member "policy_id" (au_Payload r)) ∧
  equals_or_any (TrimSpace (fl_Source f)) (text_of_member "source" (au_Payload r)) ∧
  from_option (λ t, pg_time t <= au_CreatedAt r) True (fl_Since f) ∧
  from_option (λ t, au_CreatedAt r <= pg_time t) True (fl_Until f) ∧
  (TrimSpace (fl_Search f) = "" ∨
   Exists (λ column, ilike column (containing (TrimSpace (fl_Search f))) = true) (searched_columns r)).
#[export] Instance audit_where_dec f r : base.Decision (audit_where f r).
Proof. unfold audit_where. destruct (fl_Since f), (fl_Until f); simpl; apply _. Defined.

Definition newest (a b : AuditRow) : bool := au_CreatedAt b <? au_CreatedAt a.

Definition AuditEventRepository_ListByTenant (f : AuditEventFilter) (db : AuditDB) : result (list StoredEvent) :=
  let '(limit, offset) := auditEventPage f in
  match text_params [fl_EventType f; fl_Outcome f; TrimSpace (fl_CorrelationID f); TrimSpace (fl_PolicyID f);
                     TrimSpace (fl_Source f); TrimSpace (fl_Search f)] with
  | Some e => Err (wrap_error "iterating audit event rows: " (pg_text e))
  | None =>
      match pg_page limit offset (sort_by newest (filter (audit_where f) (audit_rows db))) with
      | inl e => Err (wrap_error "iterating audit event rows: " (pg_text e))
      | inr rows => map_result scanAuditEvent rows
      end
  end.

(** ** What the repository promises: a log of events *)

(** Payloads that JSON carries: well-formed texts, finite numbers. *)
Definition audit_readable (e : AuditEvent) : Prop :=
  writable (buildAuditPayload e) = true ∧ is_ok (any_of (details_json (ev_Payload e))) = true.

(** What a reader sees of a recorded event: the entity type without the space
    around it, an entity identifier only if it has the shape of a UUID, and the
    payload as the values JSON decodes to. *)
Definition logged_payload (payload : option (list (string * Any))) : option (list (string * Any)) :=
  match payload, any_of (details_json payload) with
  | Some _, Ok (JObject l) => Some (decoded_payload l)
  | _, _ => None
  end.
Definition logged_event (ie : string * AuditEvent) : StoredEvent :=
  let e := ie.2 in
  mkStoredEvent ie.1 (mkAuditEvent (ev_TenantID e) (ev_CorrelationID e) (ev_EventType e) (ev_Source e) (TrimSpace (ev_EntityType e))
    (if looksLikeUUID (ev_EntityID e) then ev_EntityID e else "") (ev_UpstreamID e) (ev_PolicyID e) (ev_Outcome e) (ev_Artifact e)
    (ev_Message e) (logged_payload (ev_Payload e)) (pg_time (ev_CreatedAt e))).

Definition audit_accepted (e : AuditEvent) (db : AuditDB) : Prop :=
  text_ok (ev_EventType e) = true ∧ text_ok (TrimSpace (ev_EntityType e)) = true ∧
  (looksLikeUUID (ev_EntityID e) = true → is_uuid (ev_EntityID e) = true) ∧
  json_nul_free (buildAuditPayload e) = true ∧ ev_TenantID e ∈ audit_tenants db.

(** The filter on events. *)
Definition event_texts (e : AuditEvent) : list string :=
  [ev_EventType e; TrimSpace (ev_EntityType e); ev_Message e; ev_CorrelationID e; ev_PolicyID e; ev_UpstreamID e;
   Namespace (ev_Artifact e); Name (ev_Artifact e); Version (ev_Artifact e); Digest (ev_Artifact e);
   jsonb_text (details_json (ev_Payload e))].
Definition selects (f : AuditEventFilter) (ie : string * AuditEvent) : Prop :=
  let e := ie.2 in
  ev_TenantID e = fl_TenantID f ∧ equals_or_any (fl_EventType f) (ev_EventType e) ∧ equals_or_any (fl_Outcome f) (ev_Outcome e) ∧
  equals_or_any (TrimSpace (fl_CorrelationID f)) (ev_CorrelationID e) ∧
  equals_or_any (TrimSpace (fl_PolicyID f)) (ev_PolicyID e) ∧ equals_or_any (TrimSpace (fl_Source f)) (ev_Source e) ∧
  from_option (λ t, pg_time t <= pg_time (ev_CreatedAt e)) True (fl_Since f) ∧
  from_option (λ t, pg_time (ev_CreatedAt e) <= pg_time t) True (fl_Until f) ∧
  (TrimSpace (fl_Search f) = "" ∨
   Exists (λ text, ilike text (containing (TrimSpace (fl_Search f))) = true) (event_texts e)).
#[export] Instance selects_dec f ie : base.Decision (selects f ie).
Proof. unfold selects. destruct (fl_Since f), (fl_Until f); simpl; apply _. Defined.

Definition newest_event (a b : string * AuditEvent) : bool := pg_time (ev_CreatedAt b.2) <? pg_time (ev_CreatedAt a.2).

Definition row_of (r : AuditRow) (ie : string * AuditEvent) : Prop :=
  let e := ie.2 in
  au_ID r = ie.1 ∧ au_TenantID r = ev_TenantID e ∧ au_EventType r = ev_EventType e ∧
  au_EntityType r = nullableAuditString (ev_EntityType e) ∧
  au_EntityID r = (if looksLikeUUID (ev_EntityID e) then Some (ev_EntityID e) else None) ∧
  au_CreatedAt r = pg_time (ev_CreatedAt e) ∧ audit_readable e ∧
  ∃ details, au_Payload r = payload_object e details ∧ reads (details_json (ev_Payload e)) details.

Definition audit_logs (db : AuditDB) (log : list (string * AuditEvent)) : Prop := Forall2 row_of (audit_rows db) log.

(** ** Lemmas *)

Lemma json_nul_free_reads j w : reads j w → json_nul_free w = json_nul_free j.
Proof.
  revert w. induction j as [|b|z|f|s|l IH|kvs IH] using json_nested_ind; intros w Hr;
    inversion Hr as [| |? l' Hl|? l' Hl]; subst; try done; simpl; clear Hr.
  - induction Hl as [|a b l l' Hab _ IHl]; [done|]. apply Forall_cons in IH as [Ha IH]. simpl. by rewrite (Ha b), IHl.
  - induction Hl as [|[k a] [k' b] l l' [Hk Hab] _ IHl]; [done|]. apply Forall_cons in IH as [Ha IH]. simpl in *. subst k'.
    by rewrite (Ha b), IHl.
Qed.

Lemma any_of_reads j w v : any_of j = Ok v → reads j w → any_of w = Ok v.
Proof.
  revert w v. induction j as [|b|z|f|s|l IH|kvs IH] using json_nested_ind; intros w v Hv Hr;
    inversion Hr as [|? z' E|? l' Hl|? l' Hl]; subst; try done; clear Hr; cbn [any_of] in Hv |- *.
  - cbn in Hv |- *. by destruct (json_float _).
  - assert (∀ vs, map_result any_of l = Ok vs → map_result any_of l' = Ok vs) as H; [clear Hv|].
    + induction Hl as [|a b l l' Hab _ IHl]; [done|]. apply Forall_cons in IH as [Ha IH]. cbn [map_result]. intros vs.
      intros (x & Hx & (y & Hy & [= <-])%result_bind_ok)%result_bind_ok.
      by rewrite (Ha b x), (IHl IH y).
    + destruct (map_result any_of l) as [vs|]; [|done]. by rewrite (H vs).
  - match goal with |- (_ <$> map_result ?f _) = _ =>
      assert (∀ vs, map_result f kvs = Ok vs → map_result f l' = Ok vs) as H; [clear Hv|] end.
    + induction Hl as [|[k a] [k' b] l l' [Hk Hab] _ IHl]; [done|]. apply Forall_cons in IH as [Ha IH]. simpl in Hk, Hab, Ha. subst k'.
      cbn [map_result]. intros vs.
      intros (x & (x' & Hx & [= <-])%result_bind_ok & (y & Hy & [= <-])%result_bind_ok)%result_bind_ok.
      by rewrite (Ha b x'), (IHl IH y).
    + destruct (map_result _ kvs) as [vs|]; [|done]. by rewrite (H vs).
Qed.

(** Only the details of a payload are not texts. *)
Lemma reads_member k v l w :
  reads_fields ((k, v) :: l) w → ∃ v' l', w = (k, v') :: l' ∧ reads v v' ∧ reads_fields l l'.
Proof. inversion 1 as [|? [k' v'] ? l' [E Hv] Hl]; subst. simpl in *. subst. eauto. Qed.

Lemma payload_reads e d w : reads (payload_object e d) w → ∃ d', w = payload_object e d' ∧ reads d d'.
Proof.
  unfold payload_object. intros (l & -> & H)%reads_object_inv.
  apply reads_member in H as (va & l1 & -> & (la & -> & Ha)%reads_object_inv & H).
  do 5 (apply reads_member in Ha as (? & ? & -> & ->%reads_string & Ha)). apply Forall2_nil_inv_l in Ha as ->.
  apply reads_member in H as (? & ? & -> & ->%reads_string & H). apply reads_member in H as (d' & ? & -> & Hd & H).
  do 5 (apply reads_member in H as (? & ? & -> & ->%reads_string & H)). apply Forall2_nil_inv_l in H as ->. by exists d'.
Qed.

Lemma any_of_object kvs v : any_of (JObject kvs) = Ok v → ∃ l, v = JObject l.
Proof. cbn [any_of]. destruct (map_result _ kvs); [|done]. intros [= <-]. by eexists. Qed.

(** The details of a readable payload decode to the values of [logged_payload]. *)
Lemma details_read payload d : is_ok (any_of (details_json payload)) = true → reads (details_json payload) d →
  ∃ l, (∀ place, dec_any_map place d None = Ok l) ∧
    match l with Some d => Some (decoded_payload d) | None => None end = logged_payload payload.
Proof.
  intros [v Hv]%is_ok_spec Hr. pose proof (any_of_reads _ _ _ Hv Hr) as Hd. unfold logged_payload.
  destruct payload as [m|].
  - rewrite Hv. apply reads_object_inv in Hr as (l' & -> & _). destruct (any_of_object _ _ Hd) as [l ->].
    exists (Some l). split; [|done]. intros place. cbn [dec_any_map]. by rewrite Hd.
  - assert (d = JNull) as -> by (simpl in Hr; by inversion Hr). by exists None.
Qed.

Lemma nullable_entity s : default "" (nullableAuditString s) = TrimSpace s.
Proof. unfold nullableAuditString, nullableString. case_decide as E; [by rewrite E|done]. Qed.

Lemma decode_payload_object e d l base : (∀ place, dec_any_map place d None = Ok l) →
  decodeAuditPayload (payload_object e d) base =
    Ok (mkAuditEvent (ev_TenantID base) (ev_CorrelationID e) (ev_EventType base) (ev_Source e) (ev_EntityType base) (ev_EntityID base)
          (ev_UpstreamID e) (ev_PolicyID e) (ev_Outcome e) (ev_Artifact e) (ev_Message e)
          (match l with Some d => Some (decoded_payload d) | None => None end) (ev_CreatedAt base)).
Proof.
  intros H. destruct e as [? ? ? ? ? ? ? ? ? [] ? ? ?], base. lazy -[dec_any_map decoded_payload]. rewrite H.
  lazy -[decoded_payload]. done.
Qed.

Lemma scan_row r ie : row_of r ie → scanAuditEvent r = Ok (logged_event ie).
Proof.
  destruct ie as [i e], r as [id t ty et ei p c]. unfold row_of. cbn [fst snd au_ID au_TenantID au_EventType au_EntityType au_EntityID au_CreatedAt au_Payload].
  intros (-> & -> & -> & -> & -> & -> & [_ Hok] & d & -> & Hd).
  destruct (details_read _ d Hok Hd) as (l & Hl & Hlog).
  unfold scanAuditEvent. cbn [au_Payload]. rewrite (decode_payload_object _ _ l) by done.
  cbn. unfold logged_event. cbn. rewrite Hlog, nullable_entity. by destruct (looksLikeUUID _).
Qed.

(** *** Record *)

Lemma text_params_entity ty s :
  text_params (ty :: option_list (nullableAuditString s)) = None ↔ text_ok ty = true ∧ text_ok (TrimSpace s) = true.
Proof.
  rewrite text_params_None. unfold nullableAuditString, nullableString. rewrite Forall_cons.
  case_decide as E; simpl; [rewrite E; naive_solver|]. rewrite Forall_singleton. done.
Qed.

Lemma audit_record_spec e db log : audit_logs db log → audit_readable e →
  let '(r, db') := AuditEventRepository_Record e db in
  (is_ok r = true ↔ audit_accepted e db) ∧
  (is_ok r = true → audit_logs db' (log ++ [(uuid (audit_serial db), e)])) ∧
  (is_ok r = false → db' = db).
Proof.
  intros Hl He. destruct (written_reads _ (proj1 He)) as (text & w & Ht & Hp & Hr).
  unfold AuditEventRepository_Record. rewrite Ht. unfold jsonb_input. rewrite Hp, (json_nul_free_reads _ _ Hr).
  assert (Hc : ∀ q, audit_checks e q db = None ↔ (text_ok (ev_EventType e) = true ∧ text_ok (TrimSpace (ev_EntityType e)) = true) ∧
    (looksLikeUUID (ev_EntityID e) = true → is_uuid (ev_EntityID e) = true) ∧ (∃ v, q = inr v) ∧ ev_TenantID e ∈ audit_tenants db).
  { intros q. unfold audit_checks. rewrite first_violation_None. do 4 rewrite Forall_cons. rewrite text_params_entity.
    destruct (looksLikeUUID _), (is_uuid _), q, (decide (ev_TenantID e ∈ audit_tenants db)); naive_solver. }
  unfold audit_accepted. destruct (json_nul_free (buildAuditPayload e)) eqn:En.
  - destruct (audit_checks e (inr w) db) as [err|] eqn:E; simpl.
    + split; [|done]. split; [done|]. intros (H1 & H2 & H3 & _ & H5).
      assert (audit_checks e (inr w) db = None) as E' by (apply Hc; split; [done|]; split; [done|]; split; [by exists w|done]). congruence.
    + apply Hc in E as ([? ?] & ? & _ & ?). split; [done|]. split; [|done]. intros _. apply Forall2_app; [exact Hl|].
      apply payload_reads in Hr as (d & -> & Hd). constructor; [|constructor]. unfold row_of. cbn.
      do 6 (split; [done|]). split; [exact He|]. by exists d.
  - destruct (audit_checks e (inl _) db) as [err|] eqn:E; simpl; (split; [|done]); (split; [done|]); naive_solver.
Qed.

(** *** ListByTenant *)

Lemma where_selects f r ie : row_of r ie → audit_where f r ↔ selects f ie.
Proof.
  destruct ie as [i e], r as [id t ty et ei p c]. unfold row_of. cbn [fst snd au_ID au_TenantID au_EventType au_EntityType au_EntityID au_CreatedAt au_Payload].
  intros (-> & -> & -> & -> & -> & -> & _ & d & -> & Hd).
  assert (Hs : searched_columns (mkAuditRow i (ev_TenantID e) (ev_EventType e) (nullableAuditString (ev_EntityType e))
      (if looksLikeUUID (ev_EntityID e) then Some (ev_EntityID e) else None) (payload_object e d) (pg_time (ev_CreatedAt e))) =
    event_texts e).
  { unfold event_texts. rewrite <-(jsonb_reads _ _ Hd), <-nullable_entity. reflexivity. }
  unfold audit_where. rewrite Hs. done.
Qed.

Lemma Forall2_insert_by {A B} (R : A → B → Prop) (less : A → A → bool) (less' : B → B → bool) x y l k :
  (∀ a a' b b', R a b → R a' b' → less a a' = less' b b') → R x y → Forall2 R l k →
  Forall2 R (insert_by less x l) (insert_by less' y k).
Proof.
  intros Hless Hx. induction 1 as [|a b l k Hab Hl IH]; simpl; [by repeat constructor|].
  rewrite (Hless a x b y) by done. destruct (less' b y); by repeat constructor.
Qed.
Lemma Forall2_sort_by {A B} (R : A → B → Prop) (less : A → A → bool) (less' : B → B → bool) l k :
  (∀ a a' b b', R a b → R a' b' → less a a' = less' b b') → Forall2 R l k → Forall2 R (sort_by less l) (sort_by less' k).
Proof. intros Hless. induction 1 as [|a b l k Hab _ IH]; [constructor|]. by apply Forall2_insert_by. Qed.

Lemma list_rows f db log limit offset : audit_logs db log → 
  map_result scanAuditEvent (take limit (drop offset (sort_by newest (filter (audit_where f) (audit_rows db))))) =
    Ok (logged_event <$> take limit (drop offset (sort_by newest_event (filter (selects f) log)))).
Proof.
  intros Hl. apply map_result_Forall2, Forall2_fmap_r. eapply Forall2_impl; [|intros r ie; apply scan_row].
  apply Forall2_take, Forall2_drop, Forall2_sort_by.
  - intros a a' b b' (_ & _ & _ & _ & _ & E & _) (_ & _ & _ & _ & _ & E' & _). unfold newest, newest_event. by rewrite E, E'.
  - eapply Forall2_filter; [|exact Hl]. intros r ie. apply where_selects.
Qed.
End repository.

(** *** Recorders (infra/audit/recorder.go) *)

(** [FanoutRecorder.Record]: every sink gets the event, whatever the others answer. *)
Fixpoint fan_out {W} (recorders : list (AuditEvent → W → result () * W)) (e : AuditEvent) (failures : list string) (w : W)
    : list string * W :=
  match recorders with
  | [] => (failures, w)
  | record :: recorders =>
      match record e w with
      | (Ok _, w) => fan_out recorders e failures w
      | (Err err, w) => fan_out recorders e (failures ++ [error_msg err]) w
      end
  end.

Definition FanoutRecorder_Record {W} (recorders : list (AuditEvent → W → result () * W)) (e : AuditEvent) (w : W) : result () * W :=
  match fan_out recorders e [] w with
  | ([], w) => (Ok (), w)
  | (failures, w) => (Err (new_error ("recording audit event: " +:+ Join "; " failures)), w)
  end.

(** What every sink answers. *)
Fixpoint run_all {W} (recorders : list (AuditEvent → W → result () * W)) (e : AuditEvent) (w : W) : list (result ()) * W :=
  match recorders with
  | [] => ([], w)
  | record :: recorders =>
      let '(r, w) := record e w in let '(rs, w) := run_all recorders e w in (r :: rs, w)
  end.
Definition failure_messages (rs : list (result ())) : list string :=
  omap (λ r : result (), match r with Ok _ => None | Err err => Some (error_msg err) end) rs.

Lemma fan_out_spec {W} (recorders : list (AuditEvent → W → result () * W)) e failures w :
  fan_out recorders e failures w = (failures ++ failure_messages (run_all recorders e w).1, (run_all recorders e w).2).
Proof.
  revert failures w. induction recorders as [|record recorders IH]; intros failures w; simpl; [by rewrite app_nil_r|].
  destruct (record e w) as [[a|err] w']; rewrite IH; destruct (run_all recorders e w') as [rs w'']; [done|].
  simpl. by rewrite <-app_assoc.
Qed.

Lemma failure_messages_nil rs : failure_messages rs = [] ↔ Forall (λ r, is_ok r = true) rs.
Proof. induction rs as [|[[]|e] rs IH]; simpl; rewrite ?Forall_cons; naive_solver. Qed.

(** Every sink is given the event; the recording succeeds when all of them do. *)
Lemma FanoutRecorder_Record_spec {W} (recorders : list (AuditEvent → W → result () * W)) e w :
  (FanoutRecorder_Record recorders e w).2 = (run_all recorders e w).2 ∧
  (is_ok (FanoutRecorder_Record recorders e w).1 = true ↔ Forall (λ r, is_ok r = true) (run_all recorders e w).1).
Proof.
  unfold FanoutRecorder_Record. rewrite fan_out_spec. simpl. rewrite <-failure_messages_nil.
  by destruct (failure_messages _).
Qed.

(** ** Properties *)

(** C11: The audit repository keeps a log of events.  An event is stored exactly when
    its texts fit the columns, no text of its payload holds the zero byte, an entity
    identifier of the shape of a UUID is one, and the tenant exists; it is then
    appended to the log, and a refused event changes nothing.  [ListByTenant] answers
    the page of the tenant's events that match every given filter, newest first, at
    most 50 if no limit is given, with every field of the recorded event but the
    space around the entity type and an entity identifier that is no UUID. *)
Theorem audit_store_keeps_the_log uuid is_uuid jsonb_text pg_text pg_time
    (jsonb_reads : ∀ v w, reads v w → jsonb_text w = jsonb_text v) db log :
  audit_logs pg_time db log →
  (∀ e, audit_readable e →
     let '(r, db') := AuditEventRepository_Record uuid is_uuid pg_text pg_time e db in
     (is_ok r = true ↔ audit_accepted is_uuid e db) ∧
     (is_ok r = true → audit_logs pg_time db' (log ++ [(uuid (audit_serial db), e)])) ∧
     (is_ok r = false → db' = db)) ∧
  (∀ f, Forall (λ s, text_ok s = true) [fl_EventType f; fl_Outcome f; TrimSpace (fl_CorrelationID f);
                                         TrimSpace (fl_PolicyID f); TrimSpace (fl_Source f); TrimSpace (fl_Search f)] →
     AuditEventRepository_ListByTenant jsonb_text pg_text pg_time f db =
       Ok (logged_event pg_time <$>
             take (if fl_Limit f <=? 0 then 50%nat else Z.to_nat (fl_Limit f))
               (drop (Z.to_nat (fl_Offset f))
                 (sort_by (newest_event pg_time) (filter (selects jsonb_text pg_time f) log))))).
Proof.
  intros Hl. split; [intros e; by apply audit_record_spec|]. intros f Hf.
  unfold AuditEventRepository_ListByTenant, auditEventPage. apply text_params_None in Hf as ->.
  destruct (pg_page _ _ _) as [err|rows] eqn:E.
  { unfold pg_page in E. destruct (fl_Limit f <=? 0) eqn:E1; apply Z.leb_gt in E1 || apply Z.leb_le in E1;
      destruct (fl_Offset f <? 0) eqn:E2; apply Z.ltb_ge in E2 || apply Z.ltb_lt in E2; repeat case_match; done || lia. }
  apply pg_page_ok in E as (_ & _ & ->). rewrite (list_rows _ _ jsonb_reads f db log) by done. do 2 f_equal.
  assert (Z.to_nat (if fl_Offset f <? 0 then 0 else fl_Offset f) = Z.to_nat (fl_Offset f)) as ->.
  { destruct (fl_Offset f <? 0) eqn:E; [apply Z.ltb_lt in E; lia|done]. }
  by destruct (fl_Limit f <=? 0).
Qed.

(** A request for a path with an encoded zero byte, and one without. *)
Definition received_at (path : string) : AuditEvent :=
  mkAuditEvent "t1" "c1" AuditEventProxyRequestReceived "proxy/npm" "" "" "u1" "" "" (mkArtifact "npm" "" "left-pad" "" "")
    "request received" (Some [("operation", AnyString "metadata"); ("path", AnyString path)]) 5000.
Definition zero_byte : string := String (ascii_at 0) "".
Definition sample_audit : AuditDB := mkAuditDB {["t1"]} [] 0.

Lemma audit_store_keeps_the_log_witness :
  let record e := AuditEventRepository_Record (λ n, itoa (Z.of_nat n)) (λ _, true) (λ _, new_error "pg") id e sample_audit in
  is_ok (record (received_at "/npm/left-pad")).1 = true ∧
  is_ok (record (received_at ("/npm/left-pad" +:+ zero_byte))).1 = false ∧
  (record (received_at ("/npm/left-pad" +:+ zero_byte))).2 = sample_audit.
Proof.
  assert (audit_logs id sample_audit []) as Hl by constructor.
  pose proof (audit_store_keeps_the_log (λ n, itoa (Z.of_nat n)) (λ _, true) (λ _, "") (λ _, new_error "pg") id
    (λ _ _ _, eq_refl) sample_audit [] Hl) as [H _]. cbv zeta. split.
  - specialize (H (received_at "/npm/left-pad")). destruct (AuditEventRepository_Record _ _ _ _ _ _) as [r db'].
    destruct H as (Ha & _); [split; vm_compute; reflexivity|]. apply Ha. split; [vm_compute; reflexivity|].
    split; [vm_compute; reflexivity|]. split; [intros; reflexivity|]. split; [vm_compute; reflexivity|]. vm_compute. reflexivity.
  - specialize (H (received_at ("/npm/left-pad" +:+ zero_byte))). destruct (AuditEventRepository_Record _ _ _ _ _ _) as [r db'].
    destruct H as (Ha & _ & Hr); [split; vm_compute; reflexivity|].
    assert (is_ok r = false) as E.
    { destruct (is_ok r); [|reflexivity]. destruct (proj1 Ha eq_refl) as (_ & _ & _ & Hn & _). vm_compute in Hn. discriminate Hn. }
    split; [exact E|exact (Hr E)].
Defined.
