(* ===== verification/Ingest.v ===== *)
(** * Proxy ingestion: what proxies store in the control plane

    [internal/core/service/ingest.go] (the service), [internal/delivery/ingestgrpc]
    (its gRPC server), the client functions of [internal/wire/ingestgrpc/types.go]
    and the adapters of [internal/infra/ingest].  A proxy in the control plane's
    process calls the service; a remote proxy calls the client, whose connection
    reaches the server.  A request the server is given is never nil. *)

From S2P Require Import Prelude GoStrings GoTime TimeParse Artifact Dependency GraphDepth Upstream Policy.
From S2P Require Import Effects Ports Authz IngestWire.
#[local] Open Scope list_scope.

(** ** Definitions *)

(** What a [Record] call leaves behind: it writes the stored values through its
    pointer, also when it fails later. *)
Inductive persisted (R : Type) : Type :=
| Persisted (r : R)
| NotPersisted (left_as : option R) (e : error).
Arguments Persisted {R}. Arguments NotPersisted {R}.

(** The repositories, queue and notifier behind the service. *)
Class IngestPorts (W : Type) : Type := {
  ing_Now : W → time;
  repo_Record : Decision → W → (Decision * option error) * W;
  repo_GetByArtifact : string → ArtifactIdentity → W → result Decision * W;
  repo_ListByTenant : string → Z → Z → string → W → result (list Decision) * W;
  repo_HasRecentAllow : string → EcosystemType → string → string → W → result bool * W;
  audit_store : StoredEvent → W → (StoredEvent * option error) * W;
  graph_Enqueue : DependencyGraphResolveRequest → W → result bool * W;
  graph_Lookup : ContextKey → W → result (option DependencyContext) * W;
  graph_Claim : string → time → W → result (option DependencyGraphResolveRequest) * W;
  graph_Complete : DependencyGraphResolveRequest → list DependencyGraphNode → list DependencyGraphEdge → string → W →
    result () * W;
  graph_Fail : DependencyGraphResolveRequest → string → time → W → result () * W;
  notifier_Notify : string → W → W;
  notifier_Watch : string → W → nat * W;
}.

Inductive IngestCall : Type :=
| ICRecord (d : Decision)
| ICGet (t : string) (a : ArtifactIdentity)
| ICList (t : string) (limit offset : Z) (search : string)
| ICHasRecentAllow (t : string) (e : EcosystemType) (ns name : string)
| ICAudit (e : StoredEvent)
| ICEnqueue (q : DependencyGraphResolveRequest)
| ICLookup (k : ContextKey)
| ICClaim (t : string) (now : time)
| ICComplete (q : DependencyGraphResolveRequest)
| ICFail (q : DependencyGraphResolveRequest)
| ICNotify (t : string)
| ICWatch (t : string)
| ICDenied (e : DeniedEvent).

(** The tenant whose data a call reads or writes. *)
Definition ingest_tenant (c : IngestCall) : option string :=
  match c with
  | ICRecord d => Some (dec_TenantID d)
  | ICGet t _ | ICList t _ _ _ | ICHasRecentAllow t _ _ _ | ICClaim t _ | ICNotify t | ICWatch t => Some t
  | ICAudit e => Some (ev_TenantID (ev_Event e))
  | ICEnqueue q | ICComplete q | ICFail q => Some (rr_TenantID q)
  | ICLookup k => Some (key_TenantID k)
  | ICDenied _ => None
  end.

Definition blank (s : string) : Prop := TrimSpace s = "".
#[export] Instance blank_dec s : base.Decision (blank s) := decide (TrimSpace s = "").

(** *** The service *)

(** Which of the collaborators are there. *)
Record ProxyIngestService : Type := mkIngestService {
  svc_decisions : bool;
  svc_audits : bool;
  svc_graphs : bool;
  graphResolver : bool;
  graphContexts : bool;
  graphNotifier : bool;
}.

(** [graphs]: nil, or whether it is also a resolver and a context lookup. *)
Definition NewProxyIngestService (decisions audits : bool) (graphs : option (bool * bool)) (notifier : bool)
    : ProxyIngestService :=
  mkIngestService decisions audits (bool_decide (is_Some graphs)) (from_option fst false graphs)
    (from_option snd false graphs) notifier.

Section service.
Context {W : Type} `{!IngestPorts W}.
Notation M := (M W IngestCall).
Notation RPC := (RPC W IngestCall).
Implicit Types s : ProxyIngestService.

(** A call through a port that always returns. *)
Definition port_call {A} (c : IngestCall) (f : W → A * W) : M A :=
  call (λ _, c) (λ w, let '(x, w) := f w in (Ok x, w)).

Definition refuse {A} (m : string) : M A := throw (new_error m).

Definition persist_record {R} (available : bool) (unavailable missing no_tenant : string) (tenant : R → string)
    (record : R → M (R * option error)) (r : option R) : M (persisted R) :=
  if negb available then mret (NotPersisted r (new_error unavailable))
  else match r with
  | None => mret (NotPersisted None (new_error missing))
  | Some x =>
      if decide (blank (tenant x)) then mret (NotPersisted r (new_error no_tenant))
      else '(x, e) ← record x; mret (match e with None => Persisted x | Some e => NotPersisted (Some x) e end)
  end.

Definition svc_RecordDecision s : option Decision → M (persisted Decision) :=
  persist_record (svc_decisions s) "recording decision: repository unavailable" "recording decision: decision is required"
    "recording decision: tenant_id is required" dec_TenantID (λ d, port_call (ICRecord d) (repo_Record d)).

Definition svc_RecordAuditEvent s : option StoredEvent → M (persisted StoredEvent) :=
  persist_record (svc_audits s) "recording audit event: recorder unavailable" "recording audit event: event is required"
    "recording audit event: tenant_id is required" (λ e, ev_TenantID (ev_Event e)) (λ e, port_call (ICAudit e) (audit_store e)).

Definition svc_GetDecisionByArtifact s (t : string) (a : ArtifactIdentity) : M Decision :=
  if negb (svc_decisions s) then refuse "getting decision by artifact: repository unavailable"
  else if decide (blank t) then refuse "getting decision by artifact: tenant_id is required"
  else call (λ _, ICGet t a) (repo_GetByArtifact t a).

Definition svc_ListDecisionsByTenant s (t : string) (limit offset : Z) (search : string) : M (list Decision) :=
  if negb (svc_decisions s) then refuse "listing decisions: repository unavailable"
  else if decide (blank t) then refuse "listing decisions: tenant_id is required"
  else call (λ _, ICList t limit offset search) (repo_ListByTenant t limit offset search).

Definition svc_HasRecentAllow s (t : string) (e : EcosystemType) (ns name : string) : M bool :=
  if negb (svc_decisions s) then refuse "checking recent allow: repository unavailable"
  else if decide (blank t) then refuse "checking recent allow: tenant_id is required"
  else call (λ _, ICHasRecentAllow t e ns name) (repo_HasRecentAllow t e ns name).

(** A nil notifier does nothing. *)
Definition notify s (t : string) : M () :=
  if graphNotifier s then port_call (ICNotify t) (λ w, ((), notifier_Notify t w)) else mret ().

Definition svc_EnqueueDependencyGraphResolve s (q : DependencyGraphResolveRequest) : M bool :=
  if negb (svc_graphs s) then refuse "enqueueing dependency graph resolve: queue unavailable"
  else if decide (blank (rr_TenantID q)) then refuse "enqueueing dependency graph resolve: tenant_id is required"
  else enqueued ← (call (λ _, ICEnqueue q) (graph_Enqueue q) : M _);
       _ ← (when enqueued (notify s (rr_TenantID q)) : M _);
       mret enqueued.

Definition svc_WatchDependencyGraphResolve s (t : string) : M nat :=
  if negb (graphNotifier s) then refuse "watching dependency graph resolve: notifier unavailable"
  else if decide (blank t) then refuse "watching dependency graph resolve: tenant_id is required"
  else port_call (ICWatch t) (notifier_Watch t).

Definition svc_LookupDependencyGraphContext s (k : ContextKey) : M (option DependencyContext) :=
  if negb (graphContexts s) then refuse "looking up dependency graph context: lookup unavailable"
  else if decide (blank (key_TenantID k)) then refuse "looking up dependency graph context: tenant_id is required"
  else call (λ _, ICLookup k) (graph_Lookup k).

Definition svc_ClaimDependencyGraphResolve s (t : string) (now : time) : M (option DependencyGraphResolveRequest) :=
  if negb (graphResolver s) then refuse "claiming dependency graph resolve: resolver unavailable"
  else if decide (blank t) then refuse "claiming dependency graph resolve: tenant_id is required"
  else clock ← (reading ing_Now : M _);
       let now := if decide (now = zero_time) then clock else now in
       call (λ _, ICClaim t now) (graph_Claim t now).

Definition svc_CompleteDependencyGraphResolve s (q : DependencyGraphResolveRequest) (nodes : list DependencyGraphNode)
    (edges : list DependencyGraphEdge) (hash : string) : M () :=
  if negb (graphResolver s) then refuse "completing dependency graph resolve: resolver unavailable"
  else if decide (blank (rr_TenantID q)) then refuse "completing dependency graph resolve: tenant_id is required"
  else if decide (blank hash) then refuse "completing dependency graph resolve: graph_hash is required"
  else call (λ _, ICComplete q) (graph_Complete q nodes edges hash).

Definition svc_FailDependencyGraphResolve s (q : DependencyGraphResolveRequest) (message : string) (retryAfter : time) : M () :=
  if negb (graphResolver s) then refuse "failing dependency graph resolve: resolver unavailable"
  else if decide (blank (rr_TenantID q)) then refuse "failing dependency graph resolve: tenant_id is required"
  else if decide (retryAfter = zero_time) then refuse "failing dependency graph resolve: retry_after is required"
  else call (λ _, ICFail q) (graph_Fail q message retryAfter).

(** *** The server's handlers *)

Definition invalid {A} (m : string) : RPC A := fail (mkStatus InvalidArgument m).
Definition with_tenant {A} (t : string) (m : RPC A) : RPC A :=
  if decide (blank t) then invalid "tenant_id is required" else m.

(** [x, err := f(); if err != nil { return InvalidArgument(prefix: err) }] *)
Definition parsed {A} (prefix : string) (r : result A) : RPC A :=
  match r with Ok a => mret a | Err e => invalid (prefix +:+ error_msg e) end.

Definition persistTenantRecord {R Resp} (record : R) (tenant missing : string)
    (persist : option R → M (persisted R)) (toResponse : R → Resp) : RPC Resp :=
  if decide (blank tenant) then invalid missing
  else p ← or_status ToStatusError (persist (Some record));
       match p with
       | Persisted r => mret (toResponse r)
       | NotPersisted _ e => fail (ToStatusError e)
       end.

Definition srv_RecordDecision s (q : RecordDecisionRequest) : RPC RecordDecisionResponse :=
  d ← parsed "invalid decision: " (decision_ToDomain (rdq_Decision q));
  persistTenantRecord d (dec_TenantID d) "decision tenant_id is required" (svc_RecordDecision s)
    (λ d, mkRecordDecisionResponse (FromDomainDecision d)).

Definition srv_GetDecisionByArtifact s (q : GetDecisionByArtifactRequest) : RPC GetDecisionByArtifactResponse :=
  with_tenant (gdq_TenantID q)
    (d ← or_status ToStatusError (svc_GetDecisionByArtifact s (gdq_TenantID q) (artifact_ToDomain (gdq_Artifact q)));
     mret (mkGetDecisionResponse (FromDomainDecision d))).

Definition srv_ListDecisionsByTenant s (q : ListDecisionsByTenantRequest) : RPC ListDecisionsByTenantResponse :=
  with_tenant (ldq_TenantID q)
    (ds ← or_status ToStatusError (svc_ListDecisionsByTenant s (ldq_TenantID q) (ldq_Limit q) (ldq_Offset q) (ldq_Search q));
     mret (mkListDecisionsResponse (FromDomainDecision <$> ds))).

Definition srv_HasRecentAllow s (q : HasRecentAllowRequest) : RPC HasRecentAllowResponse :=
  with_tenant (haq_TenantID q)
    (b ← or_status ToStatusError (svc_HasRecentAllow s (haq_TenantID q) (haq_Ecosystem q) (haq_Namespace q) (haq_Name q));
     mret (mkHasRecentAllowResponse b)).

Definition srv_RecordAuditEvent s (q : RecordAuditEventRequest) : RPC RecordAuditEventResponse :=
  e ← parsed "invalid event: " (event_ToDomain (raq_Event q));
  persistTenantRecord e (ev_TenantID (ev_Event e)) "event tenant_id is required" (svc_RecordAuditEvent s)
    (λ e, mkRecordAuditResponse (FromDomainAuditEvent e)).

Definition srv_EnqueueDependencyGraphResolve s (q : WireResolve) : RPC EnqueueDependencyGraphResolveResponse :=
  with_tenant (wq_TenantID q)
    (b ← or_status ToStatusError (svc_EnqueueDependencyGraphResolve s
           (mkResolveRequest (wq_TenantID q) (upstream_ToDomain (wq_Upstream q)) (artifact_ToDomain (wq_Root q)) zero_time));
     mret (mkEnqueueResponse b)).

Definition srv_ClaimDependencyGraphResolve s (q : ClaimDependencyGraphResolveRequest)
    : RPC ClaimDependencyGraphResolveResponse :=
  with_tenant (clq_TenantID q)
    (clock ← or_status ToStatusError (reading ing_Now : M _);
     now ← (if decide (blank (clq_Now q)) then mret clock else parsed "invalid now: " (time_Parse (clq_Now q)));
     job ← or_status ToStatusError (svc_ClaimDependencyGraphResolve s (clq_TenantID q) now);
     mret (mkClaimResponse (FromDomainDependencyGraphResolveRequest <$> job))).

Definition srv_CompleteDependencyGraphResolve s (q : CompleteDependencyGraphResolveRequest) : RPC () :=
  with_tenant (wq_TenantID (coq_Job q))
    (if decide (blank (coq_GraphHash q)) then invalid "graph_hash is required"
     else or_status ToStatusError (svc_CompleteDependencyGraphResolve s (resolve_ToDomain (coq_Job q)) (coq_Nodes q)
            (coq_Edges q) (coq_GraphHash q))).

Definition srv_FailDependencyGraphResolve s (q : FailDependencyGraphResolveRequest) : RPC () :=
  with_tenant (wq_TenantID (faq_Job q))
    (retryAfter ← parsed "invalid retry_after: " (time_Parse (faq_RetryAfter q));
     or_status ToStatusError (svc_FailDependencyGraphResolve s (resolve_ToDomain (faq_Job q)) (faq_Message q) retryAfter)).

Definition srv_LookupDependencyGraphContext s (q : LookupDependencyGraphContextRequest)
    : RPC LookupDependencyGraphContextResponse :=
  with_tenant (luq_TenantID q)
    (c ← or_status ToStatusError (svc_LookupDependencyGraphContext s
           (mkContextKey (luq_TenantID q) (luq_UpstreamID q) (artifact_ToDomain (luq_Artifact q))));
     mret (mkLookupResponse c)).

Definition srv_WatchDependencyGraphResolve s (t : string) : RPC nat :=
  with_tenant t (or_status (λ _, mkStatus Unimplemented "dependency graph job notifications are unavailable")
                   (svc_WatchDependencyGraphResolve s t)).
End service.

(** *** The registered methods *)

(** Mutual TLS: who may act for whom, the audit sink, and the peer of this call. *)
Record Tls (W PublicKey : Type) : Type := mkTls {
  tls_recorder : option (DeniedEvent → M W IngestCall ());
  tls_clients : list BundleTLSAuthorizedClient;
  tls_peer : Peer PublicKey;
}.
Arguments mkTls {W PublicKey}. Arguments tls_recorder {W PublicKey}. Arguments tls_clients {W PublicKey}.
Arguments tls_peer {W PublicKey}.

Definition ServiceName : string := "dependencyfirewall.proxyingest.v1.ProxyIngestService".
Definition full_method (methodName : string) : string := "/" +:+ ServiceName +:+ "/" +:+ methodName.

Section server.
Context {W PublicKey : Type} `{!IngestPorts W}.
Notation M := (M W IngestCall).
Notation RPC := (RPC W IngestCall).
(** The interceptor: none without mutual TLS. *)
Context (tls : option (Tls W PublicKey)) (s : ProxyIngestService).

Definition dispatchUnary {A} (methodName : string) (req : IngestRequest) (invoke : RPC A) : RPC A :=
  match tls with
  | None => invoke
  | Some t => TenantAuthorizationInterceptor (tls_recorder t) (tls_clients t) (Some TenantIDFromRequest) (tls_peer t)
                req (full_method methodName) invoke
  end.

(** The stream handler up to its subscription. *)
Definition watchDependencyGraphResolveHandler (message : rpc IngestRequest) : RPC nat :=
  req ← match tls with
        | None => match message with Reply req => mret req | Failed st => fail st end
        | Some t => '(req, _) ← RecvMsg (tls_recorder t) (tls_clients t) (Some TenantIDFromRequest) (tls_peer t)
                      (full_method "WatchDependencyGraphResolve") false message;
                    mret req
        end;
  srv_WatchDependencyGraphResolve s (TenantIDFromRequest req).
End server.

(** *** The client *)

(** A connection, one function per method. *)
Record IngestConn (W : Type) : Type := mkConn {
  rpc_RecordDecision : RecordDecisionRequest → RPC W IngestCall RecordDecisionResponse;
  rpc_GetDecisionByArtifact : GetDecisionByArtifactRequest → RPC W IngestCall GetDecisionByArtifactResponse;
  rpc_ListDecisionsByTenant : ListDecisionsByTenantRequest → RPC W IngestCall ListDecisionsByTenantResponse;
  rpc_HasRecentAllow : HasRecentAllowRequest → RPC W IngestCall HasRecentAllowResponse;
  rpc_RecordAuditEvent : RecordAuditEventRequest → RPC W IngestCall RecordAuditEventResponse;
  rpc_Enqueue : WireResolve → RPC W IngestCall EnqueueDependencyGraphResolveResponse;
  rpc_Claim : ClaimDependencyGraphResolveRequest → RPC W IngestCall ClaimDependencyGraphResolveResponse;
  rpc_Complete : CompleteDependencyGraphResolveRequest → RPC W IngestCall ();
  rpc_Fail : FailDependencyGraphResolveRequest → RPC W IngestCall ();
  rpc_Lookup : LookupDependencyGraphContextRequest → RPC W IngestCall LookupDependencyGraphContextResponse;
}.
Arguments rpc_RecordDecision {W}. Arguments rpc_GetDecisionByArtifact {W}. Arguments rpc_ListDecisionsByTenant {W}.
Arguments rpc_HasRecentAllow {W}. Arguments rpc_RecordAuditEvent {W}. Arguments rpc_Enqueue {W}. Arguments rpc_Claim {W}.
Arguments rpc_Complete {W}. Arguments rpc_Fail {W}. Arguments rpc_Lookup {W}. Arguments mkConn {W}.

(** The connection that reaches the server. *)
Definition server_conn {W PublicKey} `{!IngestPorts W} (tls : option (Tls W PublicKey)) (s : ProxyIngestService)
    : IngestConn W :=
  let on {Q A : Type} (name : string) (inject : Q → IngestRequest) (invoke : Q → RPC W IngestCall A) (q : Q) :=
    dispatchUnary tls name (inject q) (invoke q) in
  mkConn (on "RecordDecision" QRecordDecision (srv_RecordDecision s))
    (on "GetDecisionByArtifact" QGetDecisionByArtifact (srv_GetDecisionByArtifact s))
    (on "ListDecisionsByTenant" QListDecisionsByTenant (srv_ListDecisionsByTenant s))
    (on "HasRecentAllow" QHasRecentAllow (srv_HasRecentAllow s))
    (on "RecordAuditEvent" QRecordAuditEvent (srv_RecordAuditEvent s))
    (on "EnqueueDependencyGraphResolve" QEnqueueDependencyGraphResolve (srv_EnqueueDependencyGraphResolve s))
    (on "ClaimDependencyGraphResolve" QClaimDependencyGraphResolve (srv_ClaimDependencyGraphResolve s))
    (on "CompleteDependencyGraphResolve" QCompleteDependencyGraphResolve (srv_CompleteDependencyGraphResolve s))
    (on "FailDependencyGraphResolve" QFailDependencyGraphResolve (srv_FailDependencyGraphResolve s))
    (on "LookupDependencyGraphContext" QLookupDependencyGraphContext (srv_LookupDependencyGraphContext s)).

Section client.
Context {W : Type} (conn : IngestConn W).
Notation M := (M W IngestCall).

(** [if err := conn.Invoke(...); err != nil { return MapClientError(err) }] *)
Definition invoked {A} (m : RPC W IngestCall A) : M A := λ s,
  match m s with (Reply a, s) => (Ok a, s) | (Failed st, s) => (Err (MapClientError st), s) end.

(** [GRPCClient.RecordDecision]: the caller's record becomes the stored one. *)
Definition cli_record {R Resp} (missing : string) (record : R → RPC W IngestCall Resp) (back : Resp → result R) (r : option R)
    : M (persisted R) :=
  match r with
  | None => mret (NotPersisted None (new_error missing))
  | Some x =>
      resp ← attempt (invoked (record x));
      mret (match resp ≫= back with Ok x => Persisted x | Err e => NotPersisted r e end)
  end.

Definition cli_RecordDecision : option Decision → M (persisted Decision) :=
  cli_record "decision is required" (λ d, rpc_RecordDecision conn (mkRecordDecisionRequest (FromDomainDecision d)))
    (λ resp, decision_ToDomain (rds_Decision resp)).

Definition cli_RecordAuditEvent : option StoredEvent → M (persisted StoredEvent) :=
  cli_record "event is required" (λ e, rpc_RecordAuditEvent conn (mkRecordAuditRequest (FromDomainAuditEvent e)))
    (λ resp, event_ToDomain (ras_Event resp)).

Definition cli_GetDecisionByArtifact (t : string) (a : ArtifactIdentity) : M Decision :=
  resp ← invoked (rpc_GetDecisionByArtifact conn (mkGetDecisionRequest t (FromDomainArtifactIdentity a)));
  lift (decision_ToDomain (gds_Decision resp)).

Definition cli_ListDecisionsByTenant (t : string) (limit offset : Z) (search : string) : M (list Decision) :=
  resp ← invoked (rpc_ListDecisionsByTenant conn (mkListDecisionsRequest t limit offset search));
  lift (map_result (λ d, wrap_result "decoding decision: " (decision_ToDomain d)) (lds_Decisions resp)).

Definition cli_HasRecentAllow (t : string) (e : EcosystemType) (ns name : string) : M bool :=
  resp ← invoked (rpc_HasRecentAllow conn (mkHasRecentAllowRequest t e ns name)); mret (has_Allowed resp).

Definition cli_EnqueueDependencyGraphResolve (q : DependencyGraphResolveRequest) : M bool :=
  resp ← invoked (rpc_Enqueue conn (FromDomainDependencyGraphResolveRequest q)); mret (eqs_Enqueued resp).

Definition cli_ClaimDependencyGraphResolve (t : string) (now : time) : M (option DependencyGraphResolveRequest) :=
  resp ← invoked (rpc_Claim conn (mkClaimRequest t (formatTime now))); mret (resolve_ToDomain <$> cls_Job resp).

Definition cli_CompleteDependencyGraphResolve (q : DependencyGraphResolveRequest) (nodes : list DependencyGraphNode)
    (edges : list DependencyGraphEdge) (hash : string) : M () :=
  invoked (rpc_Complete conn (mkCompleteRequest (FromDomainDependencyGraphResolveRequest q) nodes edges hash)).

Definition cli_FailDependencyGraphResolve (q : DependencyGraphResolveRequest) (message : string) (retryAfter : time) : M () :=
  invoked (rpc_Fail conn (mkFailRequest (FromDomainDependencyGraphResolveRequest q) message (formatTime retryAfter))).

Definition cli_LookupDependencyGraphContext (k : ContextKey) : M (option DependencyContext) :=
  resp ← invoked (rpc_Lookup conn
           (mkLookupRequest (key_TenantID k) (key_UpstreamID k) (FromDomainArtifactIdentity (key_Artifact k))));
  match lus_Context resp with
  | None => throw (sentinel_error ErrArtifactNotFound)
  | Some c => mret (Some (context_Normalize c))
  end.
End client.

(** *** What a proxy uses *)

(** The operations of a proxy's decision repository, audit recorder, graph queue,
    resolver and context lookup. *)
Record ProxyBackend (W : Type) : Type := mkBackend {
  be_RecordDecision : option Decision → M W IngestCall (persisted Decision);
  be_RecordAuditEvent : option StoredEvent → M W IngestCall (persisted StoredEvent);
  be_GetByArtifact : string → ArtifactIdentity → M W IngestCall Decision;
  be_ListByTenant : string → Z → Z → string → M W IngestCall (list Decision);
  be_HasRecentAllow : string → EcosystemType → string → string → M W IngestCall bool;
  be_EnqueueResolve : DependencyGraphResolveRequest → M W IngestCall bool;
  be_ClaimNextResolveJob : string → time → M W IngestCall (option DependencyGraphResolveRequest);
  be_CompleteResolve : DependencyGraphResolveRequest → list DependencyGraphNode → list DependencyGraphEdge → string →
    M W IngestCall ();
  be_FailResolve : DependencyGraphResolveRequest → string → time → M W IngestCall ();
  be_LookupContext : ContextKey → M W IngestCall (option DependencyContext);
}.
Arguments mkBackend {W}. Arguments be_RecordDecision {W}. Arguments be_RecordAuditEvent {W}.
Arguments be_GetByArtifact {W}. Arguments be_ListByTenant {W}. Arguments be_HasRecentAllow {W}.
Arguments be_EnqueueResolve {W}. Arguments be_ClaimNextResolveJob {W}. Arguments be_CompleteResolve {W}.
Arguments be_FailResolve {W}. Arguments be_LookupContext {W}.

(** In the control plane's process ([infra/ingest/local.go] and the local queue). *)
Definition local {W} `{!IngestPorts W} (s : ProxyIngestService) : ProxyBackend W :=
  mkBackend (svc_RecordDecision s) (svc_RecordAuditEvent s) (svc_GetDecisionByArtifact s) (svc_ListDecisionsByTenant s)
    (svc_HasRecentAllow s) (svc_EnqueueDependencyGraphResolve s) (svc_ClaimDependencyGraphResolve s)
    (svc_CompleteDependencyGraphResolve s) (svc_FailDependencyGraphResolve s) (svc_LookupDependencyGraphContext s).

(** Over a connection ([infra/ingest/grpc.go] and the adapters). *)
Definition remote {W} (conn : IngestConn W) : ProxyBackend W :=
  mkBackend (cli_RecordDecision conn) (cli_RecordAuditEvent conn) (cli_GetDecisionByArtifact conn)
    (cli_ListDecisionsByTenant conn) (cli_HasRecentAllow conn) (cli_EnqueueDependencyGraphResolve conn)
    (cli_ClaimDependencyGraphResolve conn) (cli_CompleteDependencyGraphResolve conn)
    (cli_FailDependencyGraphResolve conn) (cli_LookupDependencyGraphContext conn).

(** ** The remote client refines the service *)

(** Of a failure the client keeps that it is one, and whether it is
    [ErrArtifactNotFound]. *)
Definition same_failure (e e' : error) : Prop :=
  ∀ x, errors_Is e' x = true ↔ x = ErrArtifactNotFound ∧ errors_Is e x = true.

(** The same effects, and the result [f] makes of the service's. *)
Definition mirrors {W A} (f : A → result A) (l r : M W IngestCall A) : Prop := ∀ st,
  (r st).2 = (l st).2 ∧
  match (l st).1 with
  | Ok a => (r st).1 = f a
  | Err e => ∃ e', (r st).1 = Err e' ∧ same_failure e e'
  end.

Definition carried_persisted {R} (canon : R → R) (sent : option R) (p : persisted R) (q : persisted R) : Prop :=
  match p with
  | Persisted x => q = Persisted (canon x)
  | NotPersisted _ e => ∃ e', q = NotPersisted sent e' ∧ same_failure e e'
  end.

Definition mirrors_record {W R} (canon : R → R) (sent : R) (l r : M W IngestCall (persisted R)) : Prop := ∀ st,
  (r st).2 = (l st).2 ∧ ∃ p q, (l st).1 = Ok p ∧ (r st).1 = Ok q ∧ carried_persisted canon (Some sent) p q.

(** Whoever calls for the tenant is let through. *)
Definition admitted {W PublicKey} (tls : option (Tls W PublicKey)) (t : string) : Prop :=
  match tls with
  | None => True
  | Some x => TrimSpace t ≠ "" ∧ may_act (tls_clients x) (tls_peer x) (TrimSpace t)
  end.

Lemma dispatch_admitted {W PublicKey A} (tls : option (Tls W PublicKey)) name req (m : RPC W IngestCall A) t :
  admitted tls t → TenantIDFromRequest req = t → dispatchUnary tls name req m = m.
Proof.
  destruct tls as [x|]; [|done]. intros [Ht Hm] <-. unfold dispatchUnary.
  pose proof (interceptor_cases (tls_clients x) (Some TenantIDFromRequest) (tls_recorder x) (tls_peer x) req (full_method name) m) as H.
  destruct (denial _ _ _ _ _) eqn:E; [|done]. exfalso.
  assert (denial (tls_clients x) (Some TenantIDFromRequest) (tls_peer x) req (full_method name) = None) as E'; [|congruence].
  apply denial_None. eauto.
Qed.

Lemma failure_status e : same_failure e (MapClientError (ToStatusError e)).
Proof. intros x. apply client_sentinels. Qed.

Lemma failure_invalid m m' : same_failure (new_error m) (MapClientError (mkStatus InvalidArgument m')).
Proof. intros x. unfold MapClientError. rewrite decide_False by (by intros []). by split; [|intros [_ ?]]. Qed.

Section mirror.
Context {W : Type} `{!IngestPorts W}.
Notation M := (M W IngestCall).

(** A handler that calls the service and answers, and a client that reads the answer. *)
Lemma mirrors_through {A B} (f : A → result A) (l : M A) (to_resp : A → B) (back : B → result A) t :
  (blank t → ∃ m, l = refuse m) → (∀ st a, (l st).1 = Ok a → back (to_resp a) = f a) →
  mirrors f l (invoked (with_tenant t (a ← or_status ToStatusError l; mret (to_resp a))) ≫= λ r, lift (back r)).
Proof.
  intros Hb Hf st. unfold with_tenant. case_decide as Ht.
  - destruct (Hb Ht) as [m ->]. split; [done|]. exists (MapClientError (mkStatus InvalidArgument "tenant_id is required")).
    split; [done|]. apply failure_invalid.
  - specialize (Hf st). unfold invoked, mbind, M_bind, RPC_bind, or_status, lift. destruct (l st) as [[a|e] st'].
    + split; [done|]. simpl. by apply Hf.
    + split; [done|]. eexists. split; [done|]. apply failure_status.
Qed.

Lemma mirrors_ext {A} (f : A → result A) (l r r' : M A) : (∀ st, r st = r' st) → mirrors f l r' → mirrors f l r.
Proof. intros H Hm st. rewrite H. apply Hm. Qed.

(** The same without an answer to read. *)
Lemma mirrors_plain (l : M ()) t (guard : RPC W IngestCall () → RPC W IngestCall ()) :
  (blank t → ∃ m, l = refuse m) →
  (∀ st, guard (or_status ToStatusError l) st = or_status ToStatusError l st ∨
         ∃ m m', l = refuse m ∧ guard (or_status ToStatusError l) st = invalid m' st) →
  mirrors Ok l (invoked (with_tenant t (guard (or_status ToStatusError l)))).
Proof.
  intros Hb Hg st. unfold with_tenant. case_decide as Ht.
  - destruct (Hb Ht) as [m ->]. split; [done|]. exists (MapClientError (mkStatus InvalidArgument "tenant_id is required")).
    split; [done|]. apply failure_invalid.
  - unfold invoked. destruct (Hg st) as [->|(m & m' & -> & ->)].
    + unfold or_status. destruct (l st) as [[a|e] st']; simpl; [done|]. split; [done|]. eexists. split; [done|]. apply failure_status.
    + split; [done|]. eexists. split; [done|]. apply failure_invalid.
Qed.

Lemma mirrors_record_through {R Resp} (canon : R → R) (sent : R) available m1 m2 m3 (tenant : R → string)
    (record : R → M (R * option error)) missing prefix sentm (req : result R) (to_resp : R → Resp) (back : Resp → result R) :
  req = Ok (canon sent) →
  (∀ x st st', record (canon sent) st = (Ok (x, None), st') → back (to_resp x) = Ok (canon x)) →
  (∀ st, is_ok (record (canon sent) st).1 = true) →
  mirrors_record canon sent
    (persist_record available m1 m2 m3 tenant record (Some (canon sent)))
    (cli_record sentm (λ _, x ← parsed prefix req;
        persistTenantRecord x (tenant x) missing (persist_record available m1 m2 m3 tenant record) to_resp) back (Some sent)).
Proof.
  intros -> Hback Hok st. unfold cli_record, persistTenantRecord, persist_record, parsed.
  unfold attempt, invoked, mbind, M_bind, RPC_bind, mret, M_ret, RPC_ret. destruct (negb available).
  { case_decide; (split; [done|]); do 2 eexists; (split; [done|]); (split; [done|]); simpl; eexists; (split; [done|]);
      [apply failure_invalid|apply failure_status]. }
  case_decide as Ht.
  { split; [done|]. do 2 eexists. split; [done|]. split; [done|]. simpl. eexists. split; [done|]. apply failure_invalid. }
  unfold or_status. specialize (Hok st).
  destruct (record (canon sent) st) as [[[x [e|]]|e] st'] eqn:E; simpl in Hok; [| |done].
  - split; [done|]. do 2 eexists. split; [done|]. split; [done|]. simpl. eexists. split; [done|]. apply failure_status.
  - split; [done|]. do 2 eexists. split; [done|]. split; [done|]. simpl. by rewrite (Hback x st st' E).
Qed.
End mirror.

(** The store returns times that RFC 3339 can write. *)
Record stored_times (W : Type) `{!IngestPorts W} : Prop := {
  st_record d w : decision_times d → decision_times (repo_Record d w).1.1;
  st_get t a w d : (repo_GetByArtifact t a w).1 = Ok d → decision_times d;
  st_list t limit offset search w ds : (repo_ListByTenant t limit offset search w).1 = Ok ds → Forall decision_times ds;
  st_audit e w : time_ok (ev_CreatedAt (ev_Event e)) → time_ok (ev_CreatedAt (ev_Event (audit_store e w).1.1));
}.

(** [r] does for tenant [t] what [l] does with the same values in canonical form, of
    which requests keep what the wire carries. *)
Record refines {W} (t : string) (l r : ProxyBackend W) : Prop := {
  rf_decision d : dec_TenantID d = t → decision_times d →
    mirrors_record canonical_decision d (be_RecordDecision l (Some (canonical_decision d))) (be_RecordDecision r (Some d));
  rf_audit e : ev_TenantID (ev_Event e) = t → time_ok (ev_CreatedAt (ev_Event e)) →
    mirrors_record id e (be_RecordAuditEvent l (Some e)) (be_RecordAuditEvent r (Some e));
  rf_get a : mirrors (λ d, Ok (canonical_decision d)) (be_GetByArtifact l t a) (be_GetByArtifact r t a);
  rf_list limit offset search : mirrors (λ ds, Ok (canonical_decision <$> ds))
    (be_ListByTenant l t limit offset search) (be_ListByTenant r t limit offset search);
  rf_allow e ns name : mirrors Ok (be_HasRecentAllow l t e ns name) (be_HasRecentAllow r t e ns name);
  rf_enqueue q : rr_TenantID q = t → mirrors Ok (be_EnqueueResolve l (carried_request q)) (be_EnqueueResolve r q);
  rf_claim now : time_ok now → mirrors (λ j, Ok (carried_request <$> j))
    (be_ClaimNextResolveJob l t now) (be_ClaimNextResolveJob r t now);
  rf_complete q nodes edges hash : rr_TenantID q = t → mirrors Ok
    (be_CompleteResolve l (carried_request q) nodes edges hash) (be_CompleteResolve r q nodes edges hash);
  rf_fail q message retryAfter : rr_TenantID q = t → time_ok retryAfter → mirrors Ok
    (be_FailResolve l (carried_request q) message retryAfter) (be_FailResolve r q message retryAfter);
  rf_lookup k : key_TenantID k = t → mirrors
    (λ c, match c with None => Err (sentinel_error ErrArtifactNotFound) | Some c => Ok (Some (context_Normalize c)) end)
    (be_LookupContext l k) (be_LookupContext r k);
}.

(** A service method refuses a blank tenant. *)
Lemma refuses_blank {W A} `{!IngestPorts W} (b : bool) t m1 m2 (m : M W IngestCall A) :
  blank t → ∃ msg, (if negb b then refuse m1 else if decide (blank t) then refuse m2 else m) = refuse msg.
Proof. intros H. destruct (negb b); [eauto|]. rewrite decide_True by done. eauto. Qed.

(** Taking a port's answer out of a guarded service method. *)
Lemma service_answer {W A} `{!IngestPorts W} (b : bool) t m1 m2 c (f : W → result A * W) st a :
  ((if negb b then refuse m1 else if decide (blank t) then refuse m2 else call (λ _, c) f) st).1 = Ok a →
  (f (world st)).1 = Ok a.
Proof. destruct (negb b); [done|]. case_decide; [done|]. unfold call. by destruct (f (world st)). Qed.

Section refinement.
Context {W PublicKey : Type} `{!IngestPorts W}.
Context (tls : option (Tls W PublicKey)) (s : ProxyIngestService) (t : string).
Context (Hadm : admitted tls t) (Htimes : stored_times W).

Lemma remote_decision d :
  dec_TenantID d = t → decision_times d →
  mirrors_record canonical_decision d (svc_RecordDecision s (Some (canonical_decision d)))
    (cli_RecordDecision (server_conn tls s) (Some d)).
Proof using Hadm Htimes.
  intros Ht Hd.
  change (mirrors_record canonical_decision d (svc_RecordDecision s (Some (canonical_decision d)))
    (cli_record "decision is required" (λ _, dispatchUnary tls "RecordDecision"
       (QRecordDecision (mkRecordDecisionRequest (FromDomainDecision d)))
       (srv_RecordDecision s (mkRecordDecisionRequest (FromDomainDecision d))))
       (λ resp, decision_ToDomain (rds_Decision resp)) (Some d))).
  rewrite (dispatch_admitted tls _ _ _ t Hadm) by done.
  apply (mirrors_record_through canonical_decision d); [by apply decision_roundtrip| |].
  - intros x st st' H. simpl. apply decision_roundtrip.
    assert ((repo_Record (canonical_decision d) (world st)).1.1 = x) as <-; [|apply (st_record _ Htimes); by destruct d].
    unfold port_call, call in H. by destruct (repo_Record (canonical_decision d) (world st)) as [[? ?] ?]; simplify_eq/=.
  - intros st. unfold port_call, call. by destruct (repo_Record (canonical_decision d) (world st)).
Qed.

Lemma remote_audit e :
  ev_TenantID (ev_Event e) = t → time_ok (ev_CreatedAt (ev_Event e)) →
  mirrors_record id e (svc_RecordAuditEvent s (Some e)) (cli_RecordAuditEvent (server_conn tls s) (Some e)).
Proof using Hadm Htimes.
  intros Ht He.
  change (mirrors_record id e (svc_RecordAuditEvent s (Some e))
    (cli_record "event is required" (λ _, dispatchUnary tls "RecordAuditEvent"
       (QRecordAuditEvent (mkRecordAuditRequest (FromDomainAuditEvent e)))
       (srv_RecordAuditEvent s (mkRecordAuditRequest (FromDomainAuditEvent e))))
       (λ resp, event_ToDomain (ras_Event resp)) (Some e))).
  rewrite (dispatch_admitted tls _ _ _ t Hadm) by done.
  apply (mirrors_record_through id e); [by apply event_roundtrip| |].
  - intros x st st' H. simpl. apply event_roundtrip.
    assert ((audit_store e (world st)).1.1 = x) as <-; [|by apply (st_audit _ Htimes)].
    unfold port_call, call in H. by destruct (audit_store (id e) (world st)) as [[? ?] ?] eqn:E; simplify_eq/=; rewrite E.
  - intros st. unfold port_call, call. by destruct (audit_store (id e) (world st)).
Qed.

Lemma decisions_roundtrip ds :
  Forall decision_times ds →
  map_result (λ d, wrap_result "decoding decision: " (decision_ToDomain d)) (FromDomainDecision <$> ds) =
  Ok (canonical_decision <$> ds).
Proof. induction 1 as [|d ds Hd _ IH]; [done|]. csimpl. by rewrite decision_roundtrip, IH by done. Qed.

Lemma reading_status {A B} to (f : W → A) (k : A → RPC W IngestCall B) st :
  (or_status to (reading f) ≫= k) st = k (f (world st)) st.
Proof using. done. Qed.

Lemma sent_now now clock :
  time_ok now →
  (if decide (blank (formatTime now)) then mret clock else parsed "invalid now: " (time_Parse (formatTime now))) =
  (mret (if decide (now = zero_time) then clock else now) : RPC W IngestCall time).
Proof using.
  intros Hn. unfold formatTime. destruct (decide (now = zero_time)); [done|]. rewrite decide_False by apply rfc3339_visible.
  by rewrite time_Parse_rfc3339.
Qed.

(** The time of the claim is the one the client sent, or the server's clock. *)
Lemma srv_claim_now now st :
  time_ok now →
  srv_ClaimDependencyGraphResolve s (mkClaimRequest t (formatTime now)) st =
  with_tenant t (job ← or_status ToStatusError (svc_ClaimDependencyGraphResolve s t now);
                 mret (mkClaimResponse (FromDomainDependencyGraphResolveRequest <$> job))) st.
Proof using.
  intros Hn. unfold srv_ClaimDependencyGraphResolve, with_tenant. simpl. case_decide as Ht; [done|].
  rewrite reading_status, sent_now by done.
  unfold svc_ClaimDependencyGraphResolve, or_status, mbind, RPC_bind, M_bind, mret, RPC_ret, reading.
  destruct (negb _); [done|]. rewrite !decide_False by done. cbn beta iota.
  destruct (decide (now = zero_time)) as [->|Hz]; [|by rewrite !decide_False by done].
  destruct (decide (ing_Now (world st) = zero_time)); by rewrite ?(decide_False (P := blank t)) by done.
Qed.

End refinement.

(** ** Calls stay within the tenants of the caller *)

(** Whatever [m] does, its calls satisfy [P]. *)
Definition rpc_calls {W A} (P : IngestCall → Prop) (m : RPC W IngestCall A) : Prop :=
  ∀ st, ∃ l, calls (m st).2 = calls st ++ l ∧ Forall P l.

Section rpc_calls.
Context {W : Type} `{!IngestPorts W} (P : IngestCall → Prop).
Notation RPC := (RPC W IngestCall).

Lemma rpc_calls_ret {A} (a : A) : rpc_calls P (mret a : RPC A).
Proof. intros st. exists []. by rewrite app_nil_r. Qed.
Lemma rpc_calls_fail {A} e : rpc_calls P (fail e : RPC A).
Proof. intros st. exists []. by rewrite app_nil_r. Qed.
Lemma rpc_calls_bind {A B} (m : RPC A) (f : A → RPC B) :
  rpc_calls P m → (∀ a, rpc_calls P (f a)) → rpc_calls P (m ≫= f).
Proof.
  intros Hm Hf st. destruct (Hm st) as (l & Hl & Hp). unfold mbind, RPC_bind. destruct (m st) as [[a|e] st']; simpl in Hl; [|eauto].
  destruct (Hf a st') as (l' & Hl' & Hp'). exists (l ++ l'). split; [|by apply Forall_app]. by rewrite Hl', Hl, app_assoc.
Qed.
Lemma rpc_calls_status {A} to (m : M W IngestCall A) : all P m → rpc_calls P (or_status to m).
Proof. intros Hm st. destruct (Hm st) as (l & Hl & Hp). exists l. unfold or_status. destruct (m st) as [[a|e] st']; done. Qed.
Lemma rpc_calls_tenant {A} t (m : RPC A) : rpc_calls P m → rpc_calls P (with_tenant t m).
Proof. unfold with_tenant. case_decide; [|done]. intros _. apply rpc_calls_fail. Qed.
Lemma rpc_calls_parsed {A} p (r : result A) : rpc_calls P (parsed p r : RPC A).
Proof. destruct r; [apply rpc_calls_ret|apply rpc_calls_fail]. Qed.
Lemma rpc_calls_mono {A} (Q : IngestCall → Prop) (m : RPC A) : (∀ c, P c → Q c) → rpc_calls P m → rpc_calls Q m.
Proof. intros H Hm st. destruct (Hm st) as (l & Hl & Hp). exists l. split; [done|]. exact (Forall_impl _ _ _ Hp H). Qed.

Lemma all_port {A} c (f : W → A * W) : P c → all P (port_call c f).
Proof. intros H. apply all_call. done. Qed.
Lemma all_refuse {A} m : all P (refuse m : M W IngestCall A).
Proof. apply all_throw. Qed.

Lemma all_persist {R} b m1 m2 m3 tenant (record : R → M W IngestCall (R * option error)) r :
  (∀ x, r = Some x → all P (record x)) → all P (persist_record b m1 m2 m3 tenant record r).
Proof.
  intros H. unfold persist_record. destruct (negb b); [apply all_ret|]. destruct r as [x|]; [|apply all_ret].
  case_decide; [apply all_ret|]. apply all_bind; [by apply H|]. intros [y e]. apply all_ret.
Qed.

Lemma rpc_calls_persist {R Resp} (x : R) t m (persist : option R → M W IngestCall (persisted R)) (to : R → Resp) :
  all P (persist (Some x)) → rpc_calls P (persistTenantRecord x t m persist to).
Proof.
  intros H. unfold persistTenantRecord. case_decide; [apply rpc_calls_fail|].
  apply rpc_calls_bind; [by apply rpc_calls_status|]. intros [r|]; [apply rpc_calls_ret|apply rpc_calls_fail].
Qed.
End rpc_calls.

(** What the handler of a request does behind the interceptor. *)
Definition serve {W PublicKey} `{!IngestPorts W} (tls : option (Tls W PublicKey)) (s : ProxyIngestService)
    (req : IngestRequest) : RPC W IngestCall () :=
  let conn := server_conn tls s in
  let run {A : Type} (m : RPC W IngestCall A) : RPC W IngestCall () := _ ← m; mret () in
  match req with
  | QRecordDecision q => run (rpc_RecordDecision conn q)
  | QGetDecisionByArtifact q => run (rpc_GetDecisionByArtifact conn q)
  | QListDecisionsByTenant q => run (rpc_ListDecisionsByTenant conn q)
  | QHasRecentAllow q => run (rpc_HasRecentAllow conn q)
  | QRecordAuditEvent q => run (rpc_RecordAuditEvent conn q)
  | QEnqueueDependencyGraphResolve q => run (rpc_Enqueue conn q)
  | QClaimDependencyGraphResolve q => run (rpc_Claim conn q)
  | QLookupDependencyGraphContext q => run (rpc_Lookup conn q)
  | QWatchDependencyGraphResolve t => run (watchDependencyGraphResolveHandler tls s (Reply req))
  | QCompleteDependencyGraphResolve q => run (rpc_Complete conn q)
  | QFailDependencyGraphResolve q => run (rpc_Fail conn q)
  end.

Ltac calls_step :=
  match goal with
  | |- rpc_calls _ (mret _) => apply rpc_calls_ret
  | |- rpc_calls _ (fail _) => apply rpc_calls_fail
  | |- rpc_calls _ (invalid _) => apply rpc_calls_fail
  | |- rpc_calls _ (_ ≫= _) => apply rpc_calls_bind; [|intros ?]
  | |- rpc_calls _ (or_status _ _) => apply rpc_calls_status
  | |- rpc_calls _ (with_tenant _ _) => apply rpc_calls_tenant
  | |- rpc_calls _ (parsed _ _) => apply rpc_calls_parsed
  | |- rpc_calls _ (persistTenantRecord _ _ _ _ _) => apply rpc_calls_persist
  | |- all _ (refuse _) => apply all_refuse
  | |- all _ (persist_record _ _ _ _ _ _ _) => apply all_persist; intros ? [= <-]
  | |- all _ (port_call _ _) => apply all_port
  | |- all _ (call _ _) => apply all_call; intros ?
  | |- all _ (reading _) => apply all_reading
  | |- all _ (when _ _) => apply all_when
  | |- all _ (mret _) => apply all_ret
  | |- all _ (_ ≫= _) => apply all_bind; [|intros ?]
  | |- _ (if decide ?b then _ else _) => destruct (decide b)
  | |- _ (if ?b then _ else _) => destruct b
  end.

Section tenants.
Context {W PublicKey : Type} `{!IngestPorts W} (s : ProxyIngestService).

Definition only_tenant (t : string) (c : IngestCall) : Prop := ingest_tenant c = Some t.

Lemma decision_ToDomain_tenant d d' : decision_ToDomain d = Ok d' → dec_TenantID d' = wd_TenantID d.
Proof. unfold decision_ToDomain. intros (? & _ & (? & _ & [= <-])%result_bind_ok)%result_bind_ok. done. Qed.
Lemma event_ToDomain_tenant e e' : event_ToDomain e = Ok e' → ev_TenantID (ev_Event e') = we_TenantID e.
Proof. unfold event_ToDomain. intros (? & _ & [= <-])%result_bind_ok. done. Qed.

Lemma parsed_calls {A B} P p (r : result A) (f : A → RPC W IngestCall B) :
  (∀ a, r = Ok a → rpc_calls P (f a)) → rpc_calls P (parsed p r ≫= f).
Proof.
  intros H. destruct r as [a|e]; [exact (H a eq_refl)|]. intros st. exists []. by rewrite app_nil_r.
Qed.

Lemma srv_calls :
  (∀ q, rpc_calls (only_tenant (wd_TenantID (rdq_Decision q))) (srv_RecordDecision s q)) ∧
  (∀ q, rpc_calls (only_tenant (we_TenantID (raq_Event q))) (srv_RecordAuditEvent s q)) ∧
  (∀ q, rpc_calls (only_tenant (gdq_TenantID q)) (srv_GetDecisionByArtifact s q)) ∧
  (∀ q, rpc_calls (only_tenant (ldq_TenantID q)) (srv_ListDecisionsByTenant s q)) ∧
  (∀ q, rpc_calls (only_tenant (haq_TenantID q)) (srv_HasRecentAllow s q)) ∧
  (∀ q, rpc_calls (only_tenant (wq_TenantID q)) (srv_EnqueueDependencyGraphResolve s q)) ∧
  (∀ q, rpc_calls (only_tenant (clq_TenantID q)) (srv_ClaimDependencyGraphResolve s q)) ∧
  (∀ q, rpc_calls (only_tenant (wq_TenantID (coq_Job q))) (srv_CompleteDependencyGraphResolve s q)) ∧
  (∀ q, rpc_calls (only_tenant (wq_TenantID (faq_Job q))) (srv_FailDependencyGraphResolve s q)) ∧
  (∀ q, rpc_calls (only_tenant (luq_TenantID q)) (srv_LookupDependencyGraphContext s q)) ∧
  (∀ t, rpc_calls (only_tenant t) (srv_WatchDependencyGraphResolve s t)).
Proof.
  repeat split; intros q.
  - apply parsed_calls. intros d Hd%decision_ToDomain_tenant. rewrite <-Hd. unfold svc_RecordDecision. by repeat calls_step.
  - apply parsed_calls. intros d Hd%event_ToDomain_tenant. rewrite <-Hd. unfold svc_RecordAuditEvent. by repeat calls_step.
  - unfold srv_GetDecisionByArtifact, svc_GetDecisionByArtifact. by repeat calls_step.
  - unfold srv_ListDecisionsByTenant, svc_ListDecisionsByTenant. by repeat calls_step.
  - unfold srv_HasRecentAllow, svc_HasRecentAllow. by repeat calls_step.
  - unfold srv_EnqueueDependencyGraphResolve, svc_EnqueueDependencyGraphResolve, notify. by repeat calls_step.
  - unfold srv_ClaimDependencyGraphResolve, svc_ClaimDependencyGraphResolve. by repeat calls_step.
  - unfold srv_CompleteDependencyGraphResolve, svc_CompleteDependencyGraphResolve. by repeat calls_step.
  - unfold srv_FailDependencyGraphResolve, svc_FailDependencyGraphResolve. by repeat calls_step.
  - unfold srv_LookupDependencyGraphContext, svc_LookupDependencyGraphContext. by repeat calls_step.
  - unfold srv_WatchDependencyGraphResolve, svc_WatchDependencyGraphResolve. by repeat calls_step.
Qed.
End tenants.

Section authorized.
Context {W PublicKey : Type} `{!IngestPorts W} (tls : option (Tls W PublicKey)) (s : ProxyIngestService).

(** The audit sink touches no tenant's ingested data. *)
Definition quiet_sink : Prop :=
  match tls with
  | Some (mkTls (Some record) _ _) => ∀ e, all (λ c, ingest_tenant c = None) (record e)
  | _ => True
  end.

Definition permitted (req : IngestRequest) (c : IngestCall) : Prop :=
  ∀ t, ingest_tenant c = Some t → t = TenantIDFromRequest req ∧ admitted tls t.

Lemma dispatch_calls {A} name req (m : RPC W IngestCall A) :
  quiet_sink → rpc_calls (only_tenant (TenantIDFromRequest req)) m → rpc_calls (permitted req) (dispatchUnary tls name req m).
Proof using.
  unfold dispatchUnary, permitted, admitted, quiet_sink. destruct tls as [[recorder clients p]|]; intros Hq Hm; simpl.
  - pose proof (interceptor_cases clients (Some TenantIDFromRequest) recorder p req (full_method name) m) as Hi.
    destruct (denial _ _ _ _ _) as [[event code]|] eqn:E.
    + intros st. rewrite Hi. destruct recorder as [record|]; simpl; [|exists []; by rewrite app_nil_r].
      destruct (Hq (trimmed_event event) st) as (l & Hl & Hp). exists l. split; [done|].
      eapply Forall_impl; [exact Hp|]. simpl. intros c -> t [=].
    + rewrite Hi. apply denial_None in E as (? & [= <-] & Ht & Hmay).
      eapply rpc_calls_mono; [|exact Hm]. intros c Hc t Hct. unfold only_tenant in Hc. rewrite Hc in Hct. by injection Hct as <-.
  - eapply rpc_calls_mono; [|exact Hm]. intros c Hc t Hct. unfold only_tenant in Hc. rewrite Hc in Hct. by injection Hct as <-.
Qed.

Lemma watch_dispatch req st :
  watchDependencyGraphResolveHandler tls s (Reply req) st =
  dispatchUnary tls "WatchDependencyGraphResolve" req (srv_WatchDependencyGraphResolve s (TenantIDFromRequest req)) st.
Proof using.
  unfold watchDependencyGraphResolveHandler, dispatchUnary, RecvMsg, TenantAuthorizationInterceptor.
  destruct tls as [[recorder clients p]|]; [|done]. simpl. unfold mbind, RPC_bind.
  destruct (authorize _ _ _ _ _ _ st) as [[a|e] st']; done.
Qed.

End authorized.

(** ** Witnesses *)

(** A store of decisions per tenant, newest first, and a queue. *)
Record SampleStore : Type := mkSampleStore { kept : list Decision; queued : list DependencyGraphResolveRequest }.

Definition at_epoch (d : Decision) : Decision :=
  mkDecision (dec_ID d) (dec_TenantID d) (dec_Artifact d) (dec_Outcome d) (dec_PolicyID d) (dec_PolicyHash d)
    (dec_DependencyContext d) (dec_Reason d) (dec_Reasons d) (dec_Warnings d) None 0.

#[local] Instance sample_ports : IngestPorts SampleStore := {|
  ing_Now w := 0;
  repo_Record d w := ((d, None), mkSampleStore (d :: kept w) (queued w));
  repo_GetByArtifact t a w :=
    (match filter (λ d, dec_TenantID d = t ∧ dec_Artifact d = a) (kept w) with
     | d :: _ => Ok (at_epoch d)
     | [] => Err (sentinel_error ErrArtifactNotFound)
     end, w);
  repo_ListByTenant t limit offset search w := (Ok [], w);
  repo_HasRecentAllow t e ns name w := (Ok (bool_decide (Exists (λ d, dec_TenantID d = t ∧ Name (dec_Artifact d) = name) (kept w))), w);
  audit_store e w := ((e, None), w);
  graph_Enqueue q w := (Ok true, mkSampleStore (kept w) (q :: queued w));
  graph_Lookup k w := (Ok None, w);
  graph_Claim t now w := (Ok (head (queued w)), w);
  graph_Complete q nodes edges hash w := (Ok (), w);
  graph_Fail q m t w := (Ok (), w);
  notifier_Notify t w := w;
  notifier_Watch t w := (0%nat, w);
|}.

Lemma sample_stored_times : stored_times SampleStore.
Proof.
  split.
  - done.
  - intros t a w d H. simpl in H. destruct (filter _ _) as [|d' l]; [done|]. injection H as <-. by vm_compute.
  - intros t limit offset search w ds [= <-]. constructor.
  - done.
Qed.

Definition sample_service : ProxyIngestService := NewProxyIngestService true true (Some (true, true)) true.
Definition sample_tls : Tls SampleStore nat := mkTls None sample_clients (sample_peer "proxy.acme").
Definition sample_request : DependencyGraphResolveRequest :=
  mkResolveRequest "t1" (mkUpstream "u1" "t1" "npm" "npm" "https://r" (Some ["licenses"]) None 7 8)
    (mkArtifact "npm" "" "left-pad" "1.0.0" "") 5.


