(* ===== verification/BundleWire.v ===== *)
(** * Bundles on the wire

    [internal/wire/bundlegrpc/types.go] (the messages and the client),
    [internal/delivery/bundlegrpc/service.go] (the server: it encrypts each
    upstream's secret for the certificate of the proxy that asks) and
    [internal/infra/bundle/grpc.go].  The messages themselves are assumed to arrive
    as they were sent. *)

From stdpp Require Import pretty.
From S2P Require Import Prelude GoStrings GoTime TimeParse Json JsonDecode JsonParse Artifact Dependency Upstream PolicyConfig Policy.
From S2P Require Import Conditions Catalog Evaluator PolicyHash ConfigDecode Effects Bundle AdminTables PolicyStore UpstreamStore Secrets.
From S2P Require Import GraphDepth Ports Authz IngestWire.
#[local] Open Scope list_scope.

(** ** Definitions *)

(** *** Messages *)

Record GetTenantBundleRequest : Type := mkBundleRequest { req_TenantID : string }.

Record BundleTenant : Type := mkBundleTenant { bt_ID : string; bt_Name : string; bt_CreatedAt : string; bt_UpdatedAt : string }.

(** [Config] is the text of a JSON document. *)
Record BundlePolicy : Type := mkBundlePolicy {
  bp_ID : string;
  bp_TenantID : string;
  bp_UpstreamID : string;
  bp_Name : string;
  bp_Type : PolicyType;
  bp_Action : PolicyAction;
  bp_SchemaVersion : Z;
  bp_Config : string;
  bp_Target : option PolicyTarget;
  bp_Priority : Z;
  bp_Enabled : bool;
  bp_Version : Z;
  bp_CreatedAt : string;
  bp_UpdatedAt : string;
}.

Record BundleUpstreamAuth : Type := mkBundleAuth { ba_Type : string; ba_Username : string; ba_Secret : string; ba_UpdatedAt : string }.

Record BundleUpstream : Type := mkBundleUpstream {
  bu_ID : string;
  bu_TenantID : string;
  bu_Name : string;
  bu_Ecosystem : EcosystemType;
  bu_BaseURL : string;
  bu_Capabilities : list string;
  bu_Auth : option BundleUpstreamAuth;
  bu_CreatedAt : string;
  bu_UpdatedAt : string;
}.

Record WireBundle : Type := mkWireBundle {
  wb_Tenant : BundleTenant;
  wb_TenantID : string;
  wb_Revision : string;
  wb_GeneratedAt : string;
  wb_Policies : list BundlePolicy;
  wb_Upstreams : list BundleUpstream;
}.

(** The requests of both services of the control plane. *)
Inductive ControlPlaneRequest : Type :=
| BundleReq (q : GetTenantBundleRequest)
| IngestReq (q : IngestRequest).

Definition bundle_TenantIDFromRequest (req : ControlPlaneRequest) : string :=
  match req with BundleReq q => req_TenantID q | _ => "" end.

(** [bootstrap/modes.go] *)
Definition controlPlaneTenantIDFromRequest (req : ControlPlaneRequest) : string :=
  let tenantID := bundle_TenantIDFromRequest req in
  if decide (tenantID ≠ "") then tenantID
  else match req with IngestReq q => TenantIDFromRequest q | _ => "" end.

(** *** The client's side *)

Definition parseBundleTime (raw : string) : result time := if decide (raw = "") then Ok zero_time else time_Parse raw.

Definition bundle_time (what raw : string) : result time := wrap_result ("parsing " +:+ what +:+ ": ") (parseBundleTime raw).

Definition tenant_toDomain (t : BundleTenant) : result Tenant :=
  createdAt ← bundle_time "tenant created_at" (bt_CreatedAt t);
  updatedAt ← bundle_time "tenant updated_at" (bt_UpdatedAt t);
  Ok (mkTenant (bt_ID t) (bt_Name t) createdAt updatedAt).

Section toDomain.
(** The error for a configuration that is no document. *)
Context (syntax_error : string → error).

(** [DecodeConfigJSON] of a text. *)
Definition decode_config_text (t : PolicyType) (v : Z) (raw : string) : result PolicyConfig :=
  match Parse raw with
  | Some w => DecodeConfigJSON t v (Some w)
  | None => if decide (TrimSpace raw = "") then DecodeConfigJSON t v None else Err (syntax_error raw)
  end.

Definition policy_toDomain (p : BundlePolicy) : result Policy :=
  createdAt ← bundle_time "policy created_at" (bp_CreatedAt p);
  updatedAt ← bundle_time "policy updated_at" (bp_UpdatedAt p);
  config ← wrap_result "decoding policy config: " (decode_config_text (bp_Type p) (bp_SchemaVersion p) (bp_Config p));
  target ← match bp_Target p with
           | None => Ok None
           | Some t => t ← wrap_result "validating policy target: " (target_Validate (Some t)); Ok (target_Normalize t)
           end;
  Ok (mkPolicy (bp_ID p) (bp_TenantID p) (bp_UpstreamID p) (bp_Name p) (bp_Type p) (bp_Action p) (bp_SchemaVersion p)
        (Some config) target (bp_Priority p) (bp_Enabled p) (bp_Version p) createdAt updatedAt).

Definition upstream_toDomain (u : BundleUpstream) : result Upstream :=
  createdAt ← bundle_time "upstream created_at" (bu_CreatedAt u);
  updatedAt ← bundle_time "upstream updated_at" (bu_UpdatedAt u);
  auth ← match bu_Auth u with
         | None => Ok None
         | Some a =>
             if decide (ba_Type a = "" ∨ ba_Type a = UpstreamAuthNone) then Ok None
             else authUpdatedAt ← bundle_time "upstream auth updated_at" (ba_UpdatedAt a);
                  Ok (Some (mkUpstreamAuth (ba_Type a) (ba_Username a) (ba_Secret a) authUpdatedAt))
         end;
  Ok (mkUpstream (bu_ID u) (bu_TenantID u) (bu_Name u) (bu_Ecosystem u) (bu_BaseURL u)
        (ParseUpstreamCapabilities (bu_Capabilities u)) auth createdAt updatedAt).

Definition bundle_ToDomain (b : WireBundle) : result TenantBundle :=
  generatedAt ← wrap_result "parsing bundle generated_at: " (parseBundleTime (wb_GeneratedAt b));
  tenant ← tenant_toDomain (wb_Tenant b);
  let tenantID := if decide (wb_TenantID b = "") then tenant_ID tenant else wb_TenantID b in
  let tenant := if decide (tenant_ID tenant = "")
                then mkTenant tenantID (tenant_Name tenant) (tenant_CreatedAt tenant) (tenant_UpdatedAt tenant) else tenant in
  policies ← map_result policy_toDomain (wb_Policies b);
  upstreams ← map_result upstream_toDomain (wb_Upstreams b);
  Ok (mkTenantBundle tenant tenantID (wb_Revision b) generatedAt policies upstreams).
End toDomain.

(** *** The server *)

(** The bundle service and the upstream repository behind the server; [next_run]
    numbers the uses of the random source. *)
Class BundleServerPorts (W : Type) : Type := {
  bundle_provide : string → W → result TenantBundle * W;
  bundle_rewrap : string → string → (string → result string) → W → result string * W;
  next_run : W → nat * W;
}.

Inductive BundleServerCall : Type :=
| CProvide (tenant : string)
| CRewrap (tenant upstream : string)
| CRandom
| CBundleDenied (e : DeniedEvent).

Definition toBundleTenant (t : Tenant) : BundleTenant :=
  mkBundleTenant (tenant_ID t) (tenant_Name t) (rfc3339 (tenant_CreatedAt t)) (rfc3339 (tenant_UpdatedAt t)).

(** [newBundleResponse], with the lists it is filled with. *)
Definition newBundleResponse (b : TenantBundle) (policies : list BundlePolicy) (upstreams : list BundleUpstream) : WireBundle :=
  let tenant := tb_Tenant b in
  let tenant := if decide (tenant_ID tenant = "")
                then mkTenant (tb_TenantID b) (tenant_Name tenant) (tenant_CreatedAt tenant) (tenant_UpdatedAt tenant) else tenant in
  mkWireBundle (toBundleTenant tenant) (tenant_ID tenant) (Revision b) (rfc3339 (GeneratedAt b)) policies upstreams.

Definition toBundlePolicy (p : Policy) : result BundlePolicy :=
  config ← wrap_result "marshalling bundle policy config: " (json_Marshal (from_option config_json JNull (pol_Config p)));
  Ok (mkBundlePolicy (pol_ID p) (pol_TenantID p) (pol_UpstreamID p) (pol_Name p) (pol_Type p) (pol_Action p)
        (pol_SchemaVersion p) config (pol_Target p) (pol_Priority p) (pol_Enabled p) (pol_Version p)
        (rfc3339 (pol_CreatedAt p)) (rfc3339 (pol_UpdatedAt p))).

Definition peerCertificate (p : Peer PublicKey) : result (Certificate PublicKey) :=
  match p with
  | Some (TLSInfo (cert :: _)) => Ok cert
  | _ => Err (new_error "peer certificate is required for encrypted upstream auth")
  end.

Definition peerCertificatePublicKey (p : Peer PublicKey) : result PublicKey :=
  cert ← peerCertificate p;
  match cert_PublicKey cert with
  | Some k => Ok k
  | None => Err (new_error "peer certificate public key is missing")
  end.

Section server.
Context `{!Crypto} {W : Type} `{!BundleServerPorts W}.
Notation M := (M W BundleServerCall).
Context (p : Peer PublicKey).

Definition random_run : M nat := call (λ _, CRandom) (λ w, let '(n, w) := next_run w in (Ok n, w)).

(** The public key of the peer is looked up once per bundle: [key] is what is known
    of it. *)
Definition bundleUpstreamAuthSecret (tenantID : string) (u : Upstream) (key : option PublicKey)
    : M (string * option PublicKey) :=
  if negb (auth_Configured (Auth u)) then mret ("", key)
  else if decide (from_option Secret "" (Auth u) ≠ "") then
    throw (sentinel_suffix ErrUpstreamAuthInvalid ": bundle upstream auth secret must not be present in domain bundle")
  else
    publicKey ← match key with Some k => mret k | None => lift (peerCertificatePublicKey p) end;
    run ← random_run;
    encrypted ← (call (λ _, CRewrap tenantID (up_ID u))
      (bundle_rewrap tenantID (up_ID u) (EncryptForPublicKey run publicKey)) : M _);
    mret (encrypted, Some publicKey).

Definition toBundleUpstreamAuth (tenantID : string) (u : Upstream) (key : option PublicKey)
    : M (option BundleUpstreamAuth * option PublicKey) :=
  match Auth u with
  | None => mret (None, key)
  | Some a =>
      '(secret, key) ← bundleUpstreamAuthSecret tenantID u key;
      mret (Some (mkBundleAuth (auth_Type a) (Username a) secret
                    (if decide (auth_UpdatedAt a = zero_time) then "" else rfc3339 (auth_UpdatedAt a))), key)
  end.

Definition toBundleUpstream (tenantID : string) (u : Upstream) (key : option PublicKey)
    : M (BundleUpstream * option PublicKey) :=
  '(auth, key) ← toBundleUpstreamAuth tenantID u key;
  mret (mkBundleUpstream (up_ID u) (up_TenantID u) (up_Name u) (up_Ecosystem u) (BaseURL u)
          (UpstreamCapabilityStrings (Some (EffectiveCapabilities u))) auth (rfc3339 (up_CreatedAt u)) (rfc3339 (up_UpdatedAt u)),
        key).

Fixpoint toBundleUpstreams (tenantID : string) (l : list Upstream) (key : option PublicKey) : M (list BundleUpstream) :=
  match l with
  | [] => mret []
  | u :: l => '(u, key) ← toBundleUpstream tenantID u key; us ← toBundleUpstreams tenantID l key; mret (u :: us)
  end.

Definition toBundleResponse (b : TenantBundle) : M WireBundle :=
  policies ← lift (map_result toBundlePolicy (tb_Policies b));
  upstreams ← toBundleUpstreams (tb_TenantID b) (tb_Upstreams b) None;
  mret (newBundleResponse b policies upstreams).

Definition srv_GetTenantBundle (req : GetTenantBundleRequest) : M WireBundle :=
  if decide (req_TenantID req = "") then throw (new_error "tenant_id is required")
  else
    b ← (call (λ _, CProvide (req_TenantID req)) (bundle_provide (req_TenantID req)) : M _);
    toBundleResponse b.
End server.

(** Mutual TLS: who may act for whom, the audit sink, and the peer of this call. *)
Record BundleTls (W : Type) : Type := mkBundleTls {
  btls_recorder : option (DeniedEvent → M W BundleServerCall ());
  btls_clients : list BundleTLSAuthorizedClient;
  btls_peer : Peer PublicKey;
}.
Arguments mkBundleTls {W}. Arguments btls_recorder {W}. Arguments btls_clients {W}. Arguments btls_peer {W}.

Definition GetTenantBundleMethod : string := "/dependencyfirewall.bundle.v1.BundleService/GetTenantBundle".

Section call.
Context `{!Crypto} {W : Type} `{!BundleServerPorts W}.
Notation M := (M W BundleServerCall).
Notation RPC := (RPC W BundleServerCall).

(** Without mutual TLS there is no interceptor and no peer certificate. *)
Definition getTenantBundleHandler (tls : option (BundleTls W)) (req : GetTenantBundleRequest) : RPC WireBundle :=
  match tls with
  | None => or_status unknown_status (srv_GetTenantBundle None req)
  | Some t => TenantAuthorizationInterceptor (btls_recorder t) (btls_clients t) (Some controlPlaneTenantIDFromRequest) (btls_peer t)
                (BundleReq req) GetTenantBundleMethod (or_status unknown_status (srv_GetTenantBundle (btls_peer t) req))
  end.

(** The call over the connection. *)
Definition FetchTenantBundleResponse (tls : option (BundleTls W)) (tenantID : string) : M WireBundle := λ s,
  match getTenantBundleHandler tls (mkBundleRequest tenantID) s with
  | (Reply b, s) => (Ok b, s)
  | (Failed st, s) => (Err (status_error st), s)
  end.

(** [GRPCClient.GetTenantBundle] *)
Definition client_GetTenantBundle (tls : option (BundleTls W)) (tenantID : string) : M TenantBundle :=
  response ← FetchTenantBundleResponse tls tenantID;
  lift (bundle_ToDomain json_syntax_error response).
End call.

(** ** What a proxy receives *)

Definition set_target (t : option PolicyTarget) (p : Policy) : Policy :=
  mkPolicy (pol_ID p) (pol_TenantID p) (pol_UpstreamID p) (pol_Name p) (pol_Type p) (pol_Action p) (pol_SchemaVersion p)
    (pol_Config p) t (pol_Priority p) (pol_Enabled p) (pol_Version p) (pol_CreatedAt p) (pol_UpdatedAt p).

(** The policies the control plane stores: valid, with a configuration JSON can carry. *)
Definition deliverable_policy (p : Policy) : Prop :=
  ValidatePolicy p = Ok p ∧ time_ok (pol_CreatedAt p) ∧ time_ok (pol_UpdatedAt p) ∧
  ∃ c, pol_Config p = Some c ∧ config_of_schema p c ∧ writable (config_json c) = true ∧ config_ints_ok c = true.

Definition delivered_policy (p : Policy) : Policy := set_target (target_Normalize (pol_Target p)) p.

Definition upstream_times (u : Upstream) : Prop :=
  time_ok (up_CreatedAt u) ∧ time_ok (up_UpdatedAt u) ∧ from_option (λ a, time_ok (auth_UpdatedAt a)) True (Auth u).

(** The credentials as the proxy holds them: the same but for the secret, which is an
    envelope that the proxy's key opens to a secret that is [stored]. *)
Definition delivered_auth `{!Crypto} (stored : string → Prop) (k : PrivateKey) (a : UpstreamAuth) (a' : option UpstreamAuth) : Prop :=
  if auth_Configured (Some a) then
    ∃ envelope s, a' = Some (mkUpstreamAuth (auth_Type a) (Username a) envelope (auth_UpdatedAt a)) ∧
      IsHybridEnvelope envelope = true ∧ stored s ∧
      ∀ strict, resolveAuthSecret (Some (mkResolver (Some k) strict)) a' = Ok s
  else a' = None.

Record delivered_upstream `{!Crypto} (stored : string → string → Prop) (k : PrivateKey) (u u' : Upstream) : Prop := {
  du_same : u' = mkUpstream (up_ID u) (up_TenantID u) (up_Name u) (up_Ecosystem u) (BaseURL u)
                   (Some (EffectiveCapabilities u)) (Auth u') (up_CreatedAt u) (up_UpdatedAt u);
  du_auth : from_option (λ a, delivered_auth (stored (up_ID u)) k a (Auth u')) (Auth u' = None) (Auth u);
}.

Record deliverable_bundle (b : TenantBundle) : Prop := {
  db_tenant : time_ok (tenant_CreatedAt (tb_Tenant b)) ∧ time_ok (tenant_UpdatedAt (tb_Tenant b));
  db_generated : time_ok (GeneratedAt b);
  db_policies : Forall deliverable_policy (tb_Policies b);
  db_upstreams : Forall upstream_times (tb_Upstreams b);
}.

(** The tenant's identifier, whichever of the two fields holds it. *)
Definition bundle_tenant_id (b : TenantBundle) : string :=
  if decide (tenant_ID (tb_Tenant b) = "") then tb_TenantID b else tenant_ID (tb_Tenant b).

Record delivered `{!Crypto} (stored : string → string → string → Prop) (k : PrivateKey) (b b' : TenantBundle) : Prop := {
  dl_tenant : tb_Tenant b' = mkTenant (bundle_tenant_id b) (tenant_Name (tb_Tenant b)) (tenant_CreatedAt (tb_Tenant b))
                               (tenant_UpdatedAt (tb_Tenant b));
  dl_tenant_id : tb_TenantID b' = bundle_tenant_id b;
  dl_revision : Revision b' = Revision b;
  dl_generated : GeneratedAt b' = GeneratedAt b;
  dl_policies : tb_Policies b' = delivered_policy <$> tb_Policies b;
  dl_upstreams : Forall2 (delivered_upstream (stored (tb_TenantID b)) k) (tb_Upstreams b) (tb_Upstreams b');
}.

Lemma bundle_time_ok what t : time_ok t → bundle_time what (rfc3339 t) = Ok t.
Proof.
  intros H. unfold bundle_time, parseBundleTime. apply time_Parse_rfc3339 in H. case_decide as E; [|by rewrite H].
  rewrite E in H. by vm_compute in H.
Qed.

Lemma target_valid p : ValidatePolicy p = Ok p → target_Validate (pol_Target p) = Ok (pol_Target p).
Proof. intros [_ (c & c' & t' & _ & _ & _ & Ht & E)]%ValidatePolicy_spec. rewrite E at 2. done. Qed.

Lemma policy_delivered syntax_error p :
  deliverable_policy p → ∃ wp, toBundlePolicy p = Ok wp ∧ policy_toDomain syntax_error wp = Ok (delivered_policy p).
Proof.
  intros (Hv & Hc & Hu & c & Hcfg & Hs & Hw & Hi). destruct (written_reads _ Hw) as (t & w & Ht & Hp & Hr).
  unfold toBundlePolicy. rewrite Hcfg. cbn [from_option]. rewrite Ht. cbn [wrap_result mbind result_bind].
  eexists. split; [done|]. unfold policy_toDomain. cbn [bp_CreatedAt bp_UpdatedAt bp_Type bp_SchemaVersion bp_Config bp_Target].
  rewrite !bundle_time_ok by done. cbn [wrap_result mbind result_bind]. unfold decode_config_text. rewrite Hp.
  destruct (stored_config_reads p c w) as [-> _]; [done..|unfold config_json_ok; by rewrite Ht|done|done|].
  cbn [wrap_result mbind result_bind]. pose proof (target_valid p Hv) as Htv. unfold delivered_policy, set_target.
  destruct (pol_Target p) as [tg|]; [rewrite Htv|]; csimpl; by rewrite Hcfg.
Qed.

Lemma policies_delivered syntax_error ps :
  Forall deliverable_policy ps →
  ∃ wps, map_result toBundlePolicy ps = Ok wps ∧ map_result (policy_toDomain syntax_error) wps = Ok (delivered_policy <$> ps).
Proof.
  induction 1 as [|p ps Hp _ (wps & Hw & Hd)]; [by exists []|].
  destruct (policy_delivered syntax_error p Hp) as (wp & Hwp & Hdp). exists (wp :: wps). csimpl.
  rewrite Hwp. csimpl. rewrite Hw. csimpl. rewrite Hdp. csimpl. by rewrite Hd.
Qed.

Section upstreams.
Context {CR : Crypto} {CL : CryptoLaws} {W : Type} `{!BundleServerPorts W}.
Notation M := (M W BundleServerCall).
(** The secrets the repository holds: what a rewrap hands to its wrapper. *)
Context (stored : string → string → string → Prop).
Context (Hstored : ∀ t u f w c w', bundle_rewrap t u f w = (Ok c, w') → ∃ s, stored t u s ∧ f s = Ok c).
(** The peer presents the certificate of a private key. *)
Context (p : Peer PublicKey) (k : PrivateKey) (Hpeer : peerCertificatePublicKey p = Ok (public_of k)).

Definition known_key (key : option PublicKey) : Prop := from_option (λ x, x = public_of k) True key.

Lemma hybrid_nonempty t : IsHybridEnvelope t = true → t ≠ "".
Proof using. by intros H ->. Qed.

(** The secret is the empty string, or an envelope of a stored secret for the peer. *)
Lemma secret_delivered tid u key st secret key' st' :
  known_key key → bundleUpstreamAuthSecret p tid u key st = (Ok (secret, key'), st') →
  known_key key' ∧
  if auth_Configured (Auth u) then
    IsHybridEnvelope secret = true ∧
    ∃ s, stored tid (up_ID u) s ∧ ∀ strict, ResolveSecret (Some (mkResolver (Some k) strict)) secret = Ok s
  else secret = "".
Proof using CL Hpeer Hstored.
  intros Hk H. unfold bundleUpstreamAuthSecret in H. destruct (auth_Configured (Auth u)); cbn [negb] in H; [|by injection H as <- <- <-].
  case_decide; [done|]. unfold mbind, M_bind in H.
  assert ((match key with Some k => mret k | None => lift (peerCertificatePublicKey p) end : M PublicKey) st = (Ok (public_of k), st))
    as E by (destruct key; [by simpl in Hk; subst|by unfold lift; rewrite Hpeer]).
  rewrite E in H. unfold random_run, call in H. destruct (next_run (world st)) as [run w] eqn:Er. cbn [world] in H.
  destruct (bundle_rewrap tid (up_ID u) (EncryptForPublicKey run (public_of k)) w) as [[c|e] w'] eqn:Ew; [|done].
  injection H as <- <- <-. split; [done|]. destruct (Hstored _ _ _ _ _ _ Ew) as (s & Hs & Hc).
  destruct (hybrid_opens run k s c true Hc) as [Hh _]. split; [done|]. exists s. split; [done|]. intros strict.
  by apply (hybrid_opens run k s c strict Hc).
Qed.

Lemma configured_type a : auth_Configured (Some a) = true ↔ ¬ (auth_Type a = "" ∨ auth_Type a = UpstreamAuthNone).
Proof using. unfold auth_Configured. rewrite bool_decide_eq_true. naive_solver. Qed.

Lemma upstream_delivered tid u key st wu key' st' :
  known_key key → upstream_times u → toBundleUpstream p tid u key st = (Ok (wu, key'), st') →
  known_key key' ∧ ∃ u', upstream_toDomain wu = Ok u' ∧ delivered_upstream (stored tid) k u u'.
Proof using CL Hpeer Hstored.
  intros Hk (Hc & Hu & Ha) H. unfold toBundleUpstream, mbind, M_bind in H.
  destruct (toBundleUpstreamAuth p tid u key st) as [[[auth key1]|e] st1] eqn:Eauth; [|done]. injection H as <- <- <-.
  unfold upstream_toDomain. cbn [bu_CreatedAt bu_UpdatedAt bu_Auth]. rewrite !bundle_time_ok by done. cbn [mbind result_bind].
  unfold toBundleUpstreamAuth in Eauth. destruct (Auth u) as [a|] eqn:Ea.
  2: { injection Eauth as <- <- <-. split; [done|]. eexists. split; [done|]. split; [done|]. by rewrite Ea. }
  unfold mbind, M_bind in Eauth.
  destruct (bundleUpstreamAuthSecret p tid u key st) as [[[secret key2]|e] st2] eqn:Es; [|done]. injection Eauth as <- <- <-.
  destruct (secret_delivered _ _ _ _ _ _ _ Hk Es) as [Hk2 Hsec]. split; [done|]. rewrite Ea in Hsec. cbn [ba_Type].
  destruct (auth_Configured (Some a)) eqn:Ec.
  - destruct Hsec as (Hh & s & Hs & Hres). pose proof (proj1 (configured_type a) Ec) as Hn.
    rewrite (decide_False (P := auth_Type a = "" ∨ auth_Type a = UpstreamAuthNone)) by done.
    assert (bundle_time "upstream auth updated_at" (if decide (auth_UpdatedAt a = zero_time) then "" else rfc3339 (auth_UpdatedAt a))
            = Ok (auth_UpdatedAt a)) as Ht by (case_decide as Hz; [by rewrite Hz|by apply bundle_time_ok]).
    cbn [ba_UpdatedAt]. rewrite Ht. cbn [mbind result_bind]. eexists. split; [done|]. split; [done|]. rewrite Ea. cbn.
    unfold delivered_auth. rewrite Ec. exists secret, s. split; [done|]. split; [done|]. split; [done|]. intros strict.
    unfold resolveAuthSecret. cbn [Secret]. rewrite decide_False by (by apply hybrid_nonempty). by rewrite Hres.
  - assert (auth_Type a = "" ∨ auth_Type a = UpstreamAuthNone) as Hn
      by (apply dec_stable; intros Hn; apply configured_type in Hn; congruence).
    rewrite (decide_True (P := auth_Type a = "" ∨ auth_Type a = UpstreamAuthNone)) by done. eexists. split; [done|]. split; [done|]. rewrite Ea. cbn. unfold delivered_auth. by rewrite Ec.
Qed.

Lemma upstreams_delivered tid us key st wus st' :
  known_key key → Forall upstream_times us → toBundleUpstreams p tid us key st = (Ok wus, st') →
  ∃ us', map_result upstream_toDomain wus = Ok us' ∧ Forall2 (delivered_upstream (stored tid) k) us us'.
Proof using CL Hpeer Hstored.
  intros Hk Ht. revert key st wus Hk. induction Ht as [|u us Hu _ IH]; intros key st wus Hk H; cbn [toBundleUpstreams] in H.
  { injection H as <- <-. by exists []. }
  unfold mbind, M_bind in H. destruct (toBundleUpstream p tid u key st) as [[[wu key1]|e] st1] eqn:E1; [|done].
  destruct (toBundleUpstreams p tid us key1 st1) as [[wus1|e] st2] eqn:E2; [|done]. injection H as <- <-.
  destruct (upstream_delivered _ _ _ _ _ _ _ Hk Hu E1) as (Hk1 & u' & Hw & Hd).
  destruct (IH _ _ _ Hk1 E2) as (us' & Hws & Hds). exists (u' :: us'). csimpl. rewrite Hw. csimpl. rewrite Hws.
  split; [done|]. by constructor.
Qed.

Lemma response_delivered syntax_error b st resp st' :
  deliverable_bundle b → toBundleResponse p b st = (Ok resp, st') →
  ∃ b', bundle_ToDomain syntax_error resp = Ok b' ∧ delivered stored k b b'.
Proof using CL Hpeer Hstored.
  intros [[Hct Hut] Hg Hps Hus] H. unfold toBundleResponse in H.
  destruct (policies_delivered syntax_error _ Hps) as (wps & Hwps & Hdps). rewrite Hwps in H.
  unfold mbind, M_bind, lift in H. destruct (toBundleUpstreams p _ _ None st) as [[wus|e] st1] eqn:Ews; [|done].
  injection H as <- <-. destruct (upstreams_delivered _ _ None _ _ _ I Hus Ews) as (us' & Hws & Hds).
  unfold bundle_ToDomain, newBundleResponse, tenant_toDomain.
  cbn [wb_GeneratedAt wb_Tenant wb_TenantID wb_Policies wb_Upstreams wb_Revision toBundleTenant bt_CreatedAt bt_UpdatedAt bt_ID bt_Name].
  assert (∀ what x y, bundle_time what x = Ok y → parseBundleTime x = Ok y) as Hp
    by (intros what x y Hxy; unfold bundle_time in Hxy; by destruct (parseBundleTime x)).
  rewrite (Hp "" _ _ (bundle_time_ok _ _ Hg)). cbn [wrap_result mbind result_bind].
  assert (∀ t n c u, toBundleTenant (mkTenant t n c u) = mkBundleTenant t n (rfc3339 c) (rfc3339 u)) as Ett by done.
  destruct (tb_Tenant b) as [tid tname tc tu] eqn:Etb. cbn [tenant_ID tenant_CreatedAt tenant_UpdatedAt tenant_Name] in *.
  assert (delivered stored k b (mkTenantBundle (mkTenant (bundle_tenant_id b) tname tc tu) (bundle_tenant_id b) (Revision b)
            (GeneratedAt b) (delivered_policy <$> tb_Policies b) us')) as Hd
    by (split; cbn; rewrite ?Etb; done).
  unfold bundle_tenant_id in Hd. rewrite Etb in Hd. cbn [tenant_ID] in Hd.
  destruct (decide (tid = "")) as [->|Hne]; cbn [tenant_ID tenant_CreatedAt tenant_UpdatedAt tenant_Name];
    rewrite !bundle_time_ok by done; cbn [mbind result_bind tenant_ID]; rewrite Hdps; cbn [mbind result_bind]; rewrite Hws;
    cbn [mbind result_bind]; eexists; (split; [done|]).
  - case_decide as He; [|done]. rewrite He in Hd |- *. exact Hd.
  - rewrite !decide_False by done. exact Hd.
Qed.
End upstreams.

(** *** The lookup of a remote proxy *)

(** What a remote proxy is given.  For a caller entitled to the tenant whose
    certificate carries the public key of [k], and a control plane whose bundles hold
    stored (deliverable) data, a lookup returns exactly the bundle of the bundle
    service: the same tenant, revision, time and policies (targets in normal form),
    the upstreams with their effective capabilities spelt out, and each credential
    with an envelope that [k] opens to a stored secret; or it fails with the error
    of the service or of the encryption.  Reading the answer never fails. *)
Theorem remote_bundle_delivery {CR : Crypto} {CL : CryptoLaws} {W} `{!BundleServerPorts W}
    (stored : string → string → string → Prop) (k : PrivateKey) (tls : BundleTls W) (t : string) st :
  (∀ t u f w c w', bundle_rewrap t u f w = (Ok c, w') → ∃ s, stored t u s ∧ f s = Ok c) →
  (∀ w b w', bundle_provide t w = (Ok b, w') → deliverable_bundle b) →
  peerCertificatePublicKey (btls_peer tls) = Ok (public_of k) →
  t ≠ "" → TrimSpace t ≠ "" → may_act (btls_clients tls) (btls_peer tls) (TrimSpace t) →
  match bundle_provide t (world st) with
  | (Err e, w) => client_GetTenantBundle (Some tls) t st =
                  (Err (status_error (unknown_status e)), mkSt w (calls st ++ [CProvide t]))
  | (Ok b, w) =>
      match toBundleResponse (btls_peer tls) b (mkSt w (calls st ++ [CProvide t])) with
      | (Err e, st') => client_GetTenantBundle (Some tls) t st = (Err (status_error (unknown_status e)), st')
      | (Ok _, st') => ∃ b', client_GetTenantBundle (Some tls) t st = (Ok b', st') ∧ delivered stored k b b'
      end
  end.
Proof.
  intros Hstored Hprov Hpeer Ht Htrim Hmay.
  assert (getTenantBundleHandler (Some tls) (mkBundleRequest t) =
          or_status unknown_status (srv_GetTenantBundle (btls_peer tls) (mkBundleRequest t))) as Hh.
  { unfold getTenantBundleHandler.
    pose proof (interceptor_cases (btls_clients tls) (Some controlPlaneTenantIDFromRequest) (btls_recorder tls) (btls_peer tls)
      (BundleReq (mkBundleRequest t)) GetTenantBundleMethod
      (or_status unknown_status (srv_GetTenantBundle (btls_peer tls) (mkBundleRequest t)))) as H.
    destruct (denial _ _ _ _ _) eqn:E; [|done]. exfalso.
    assert (denial (btls_clients tls) (Some controlPlaneTenantIDFromRequest) (btls_peer tls) (BundleReq (mkBundleRequest t))
              GetTenantBundleMethod = None) as E'; [|congruence].
    assert (controlPlaneTenantIDFromRequest (BundleReq (mkBundleRequest t)) = t) as Hid
      by (unfold controlPlaneTenantIDFromRequest; simpl; by case_decide).
    apply denial_None. eexists. split; [done|]. by rewrite Hid. }
  unfold client_GetTenantBundle, FetchTenantBundleResponse, lift. rewrite Hh. unfold or_status, srv_GetTenantBundle. cbn [req_TenantID].
  rewrite decide_False by done. unfold mbind, M_bind, call. destruct (bundle_provide t (world st)) as [[b|e] w] eqn:Ep; [|done].
  cbn [fst snd]. destruct (toBundleResponse (btls_peer tls) b _) as [[resp|e] st'] eqn:Er; [|done].
  destruct (response_delivered stored Hstored _ k Hpeer json_syntax_error b _ resp st' (Hprov _ _ _ Ep) Er) as (b' & Hb & Hd).
  exists b'. by rewrite Hb.
Qed.

(** *** Capabilities *)

(** The capabilities of an upstream on a proxy that serves a cached copy of a
    delivered bundle are those the control plane computes, with one exception: an
    upstream whose capabilities were all switched off gets every capability of its
    ecosystem back, because the copy of an empty list is nil, which means "not
    configured". *)
Theorem delivered_capabilities `{!Crypto} stored k u u' :
  delivered_upstream stored k u u' →
  EffectiveCapabilities (cloneUpstream u') =
  (if decide (EffectiveCapabilities u = []) then DefaultUpstreamCapabilities (up_Ecosystem u) else EffectiveCapabilities u) ∧
  ∀ c, UpstreamSupports u c = true → UpstreamSupports (cloneUpstream u') c = true.
Proof.
  intros [-> _]. assert (EffectiveCapabilities (cloneUpstream (mkUpstream (up_ID u) (up_TenantID u) (up_Name u) (up_Ecosystem u)
      (BaseURL u) (Some (EffectiveCapabilities u)) (Auth u') (up_CreatedAt u) (up_UpdatedAt u))) =
      (if decide (EffectiveCapabilities u = []) then DefaultUpstreamCapabilities (up_Ecosystem u) else EffectiveCapabilities u)) as E.
  { unfold EffectiveCapabilities at 1, cloneUpstream. cbn [up_Ecosystem Capabilities].
    destruct (EffectiveCapabilities u) as [|c l] eqn:Ec; [done|]. rewrite decide_False by done. cbn [copied_capabilities].
    unfold EffectiveUpstreamCapabilities. case_decide as Hl; [|done]. unfold EffectiveCapabilities, EffectiveUpstreamCapabilities in Ec.
    destruct (Capabilities u) as [caps|] eqn:Ecaps; [|done]. case_decide as Hl'; [done|]. by rewrite Ec in Hl'. }
  split; [done|]. intros c. unfold UpstreamSupports. rewrite E, !bool_decide_eq_true. case_decide as Hn; [|done].
  rewrite Hn. by intros ?%not_elem_of_nil.
Qed.

(** *** Witnesses *)

(** A control plane with one tenant, whose upstream has all capabilities switched off. *)
Definition sample_upstream : Upstream :=
  mkUpstream "u1" "t1" "registry" EcosystemNPM "https://registry.example" (Some [])
    (Some (mkUpstreamAuth UpstreamAuthBearerToken "" "" 0)) 0 0.
Definition sample_bundle : TenantBundle :=
  mkTenantBundle (mkTenant "t1" "Tenant One" 0 1000000000) "t1" "rev-1" 2000000000 [sample_score_policy] [sample_upstream].

#[local] Instance sample_ports : BundleServerPorts nat := {|
  bundle_provide t w := (if decide (t = "t1") then Ok sample_bundle else Err (sentinel_error ErrTenantNotFound), w);
  bundle_rewrap t u f w := (f "s3cret", w);
  next_run w := (w, S w);
|}.

Definition sample_tls : BundleTls nat :=
  mkBundleTls None [mkAuthorizedClient "spiffe://proxy" ["t1"]]
    (Some (TLSInfo [mkCertificate ["spiffe://proxy"] [] [] "" (Some (ECDSAPublicKey P384 "proxy"))])).

Lemma sample_bundle_deliverable : deliverable_bundle sample_bundle.
Proof.
  split.
  - vm_compute. split; split; congruence.
  - vm_compute. split; congruence.
  - constructor; [|constructor]. split; [vm_compute; reflexivity|]. split; [vm_compute; split; congruence|].
    split; [vm_compute; split; congruence|]. exists sample_score_config. split; [done|]. split; [|split; [vm_compute; done|done]].
    exists 1. split; vm_compute; reflexivity.
  - constructor; [|constructor]. vm_compute. repeat split; congruence.
Qed.

Lemma sample_may_act : may_act (btls_clients sample_tls) (btls_peer sample_tls) (TrimSpace "t1").
Proof.
  exists "spiffe://proxy". split; [vm_compute; set_solver|]. split; [done|].
  exists (mkAuthorizedClient "spiffe://proxy" ["t1"]), "t1". vm_compute. set_solver.
Qed.

Import Toy.

Lemma remote_bundle_delivery_witness :
  ∃ b' st', client_GetTenantBundle (Some sample_tls) "t1" (mkSt 0%nat []) = (Ok b', st') ∧
    delivered (λ _ _ s, s = "s3cret") (ECDSAPrivateKey P384 "proxy") sample_bundle b'.
Proof.
  pose proof (remote_bundle_delivery (λ _ _ s, s = "s3cret") (ECDSAPrivateKey P384 "proxy") sample_tls "t1" (mkSt 0%nat [])) as H.
  destruct (toBundleResponse (btls_peer sample_tls) sample_bundle (mkSt 0%nat [CProvide "t1"])) as [[resp|e] st'] eqn:E;
    [|vm_compute in E; discriminate E].
  cbn [bundle_provide sample_ports world calls app] in H. rewrite decide_True in H by reflexivity. rewrite E in H.
  destruct H as (b' & Hc & Hd).
  - intros t u f w c w' Hf. exists "s3cret". split; [reflexivity|]. exact (f_equal fst Hf).
  - intros w b w' Hb. injection Hb as <- <-. apply sample_bundle_deliverable.
  - reflexivity.
  - discriminate.
  - vm_compute. discriminate.
  - apply sample_may_act.
  - exists b', st'. by split.
Defined.

Lemma delivered_capabilities_witness :
  EffectiveCapabilities sample_upstream = [] ∧
  EffectiveCapabilities (cloneUpstream (mkUpstream "u1" "t1" "registry" EcosystemNPM "https://registry.example" (Some []) None 0 0)) =
    DefaultUpstreamCapabilities EcosystemNPM.
Proof.
  split; [reflexivity|].
  refine (proj1 (delivered_capabilities (λ _ _, True) (OtherPrivateKey "") 
    (mkUpstream "u1" "t1" "registry" EcosystemNPM "https://registry.example" (Some []) None 0 0)
    (mkUpstream "u1" "t1" "registry" EcosystemNPM "https://registry.example" (Some []) None 0 0) _)).
  split; reflexivity.
Defined.
