(* ===== verification/FileSystem.v ===== *)
(** * Programs that work on a file system

    The on-disk cache of [internal/infra/ocicache] runs in many goroutines (and
    processes) at once over one directory tree.  A method is therefore a tree of
    file operations ([Prog]): run alone it is a function ([run]); several of them
    interleave at their operations, any of which may fail ([step]).  A process
    that dies is one that makes no more steps.  [safe] is the proof rule the
    methods share: it says which operations a program performs on files it does
    not own, and every pool of safe programs keeps what is published at final
    paths within [Pub].

    The operations are those of packages [os] and [path/filepath].  The name that
    [os.CreateTemp] picks is made of a counter, so no two are ever equal: the
    random suffix of the real one is taken to be as good. *)

From S2P Require Import Prelude GoStrings GoPath Artifact Upstream Json.
From stdpp Require Import pretty.
#[local] Open Scope list_scope.

(** ** Definitions *)

(** The document kept beside a cached body. *)
Record artifactMetadata : Type := mkArtifactMetadata {
  meta_ContentType : string;
  meta_Headers : gmap string string;
}.

(** What a file holds: bytes, or the JSON text of a document (kept decoded).
    Bytes, such as a torn document, do not decode ([ReadDoc] gives [None]). *)
Inductive Content : Type :=
| Bytes (s : string)
| Doc (m : artifactMetadata).

Definition metadata_json (m : artifactMetadata) : json :=
  JObject [("content_type", JString (meta_ContentType m));
           ("headers", if decide (meta_Headers m = ∅) then JNull else json_map JString (meta_Headers m))].

Definition size_of (c : Content) : Z :=
  match c with
  | Bytes s => Z.of_nat (String.length s)
  | Doc m => match json_Marshal (metadata_json m) with Ok s => Z.of_nat (String.length s) | Err _ => 0 end
  end.

Record File : Type := mkFile { content : Content; modTime : time }.

(** Directories are implicit: [MkdirAll] has no effect on files. *)
Record World : Type := mkWorld {
  files : gmap string File;
  next_temp : nat;
  clock : time;
}.

Inductive file_op : Type → Type :=
| MkdirAll (dir : string) : file_op ()
| CreateTemp (dir prefix suffix : string) : file_op string
| WriteBytes (path data : string) : file_op ()
| CloseFile (path : string) : file_op ()
| WriteDoc (path : string) (m : artifactMetadata) : file_op ()
| ReadDoc (path : string) : file_op (option artifactMetadata)
| Open (path : string) : file_op Content
| Stat (path : string) : file_op ()
| Rename (old new : string) : file_op ()
| Remove (path : string) : file_op ()
| WalkDir (root : string) : file_op (list string)
| Info (path : string) : file_op (Z * time)
| TimeNow : file_op time.

(** A failure the environment injects: its message, and how many bytes a failing
    write has written. *)
Definition fault : Type := option (string * nat).

Definition os_error (op path msg : string) : error := new_error (op +:+ " " +:+ path +:+ ": " +:+ msg).
Definition no_such_file (op path : string) : error :=
  mk_error (op +:+ " " +:+ path +:+ ": no such file or directory") [ErrNotExist].

Definition set_files (f : gmap string File) (w : World) : World := mkWorld f (next_temp w) (clock w).
Definition append_bytes (data : string) (c : Content) : Content :=
  match c with Bytes s => Bytes (s +:+ data) | Doc m => Doc m end.

(** Writing at the end of an open file; a file that was unlinked stays so. *)
Definition append_to (path data : string) (w : World) : World :=
  set_files (alter (λ f, mkFile (append_bytes data (content f)) (clock w)) path (files w)) w.

(** The elements of [path] below [root]. *)
Definition below (root path : string) : option (list string) :=
  if HasPrefix path (root +:+ "/") then Some (Split "/" (TrimPrefix path (root +:+ "/"))) else None.

(** A walk skips the directories called [skip], the root included. *)
Definition visited (skip root path : string) : bool :=
  match below root path with
  | Some l => bool_decide (skip ∉ removelast l ∧ SplitLast root "/" ≠ skip)
  | None => false
  end.

Fixpoint components_less (a b : list string) : bool :=
  match a, b with
  | x :: a, y :: b => str_ltb x y || bool_decide (x = y) && components_less a b
  | [], _ :: _ => true
  | _, [] => false
  end.

(** [filepath.WalkDir]: the files below [root] in lexical order, except below a
    directory called [.tmp] (the callback of the only caller skips those).  The
    directories are listed at once. *)
Definition walk (root : string) (fs : gmap string File) : list string :=
  sort_by (λ a b, components_less (Split "/" a) (Split "/" b))
    (filter (λ p, visited ".tmp" root p = true) (map_to_list fs).*1).

Definition exec {B} (op : file_op B) (f : fault) (w : World) : result B * World :=
  match op in file_op B return result B * World with
  | MkdirAll dir => (match f with Some (m, _) => Err (os_error "mkdir" dir m) | None => Ok () end, w)
  | CreateTemp dir prefix suffix =>
      let path := dir +:+ "/" +:+ prefix +:+ itoa (Z.of_nat (next_temp w)) +:+ suffix in
      match f with
      | Some (m, _) => (Err (os_error "open" path m), w)
      | None => (Ok path, mkWorld (<[path := mkFile (Bytes "") (clock w)]> (files w)) (S (next_temp w)) (clock w))
      end
  | WriteBytes path data =>
      match f with
      | Some (m, n) => (Err (os_error "write" path m), append_to path (String.substring 0 n data) w)
      | None => (Ok (), append_to path data w)
      end
  | CloseFile path => (match f with Some (m, _) => Err (os_error "close" path m) | None => Ok () end, w)
  | WriteDoc path d =>
      match f with
      | Some (m, n) =>
          let text := match json_Marshal (metadata_json d) with Ok s => s | Err _ => "" end in
          (Err (os_error "open" path m), set_files (<[path := mkFile (Bytes (String.substring 0 n text)) (clock w)]> (files w)) w)
      | None => (Ok (), set_files (<[path := mkFile (Doc d) (clock w)]> (files w)) w)
      end
  | ReadDoc path =>
      match f, files w !! path with
      | Some (m, _), _ => (Err (os_error "open" path m), w)
      | None, None => (Err (no_such_file "open" path), w)
      | None, Some (mkFile (Doc d) _) => (Ok (Some d), w)
      | None, Some (mkFile (Bytes _) _) => (Ok None, w)
      end
  | Open path =>
      match f, files w !! path with
      | Some (m, _), _ => (Err (os_error "open" path m), w)
      | None, None => (Err (no_such_file "open" path), w)
      | None, Some x => (Ok (content x), w)
      end
  | Stat path =>
      match f, files w !! path with
      | Some (m, _), _ => (Err (os_error "stat" path m), w)
      | None, None => (Err (no_such_file "stat" path), w)
      | None, Some _ => (Ok (), w)
      end
  | Rename old new =>
      match f, files w !! old with
      | Some (m, _), _ => (Err (os_error "rename" old m), w)
      | None, None => (Err (no_such_file "rename" old), w)
      | None, Some x => (Ok (), set_files (<[new := x]> (delete old (files w))) w)
      end
  | Remove path =>
      match f, files w !! path with
      | Some (m, _), _ => (Err (os_error "remove" path m), w)
      | None, None => (Err (no_such_file "remove" path), w)
      | None, Some _ => (Ok (), set_files (delete path (files w)) w)
      end
  | WalkDir root =>
      (match f with Some (m, _) => Err (os_error "open" root m) | None => Ok (walk root (files w)) end, w)
  | Info path =>
      match f, files w !! path with
      | Some (m, _), _ => (Err (os_error "lstat" path m), w)
      | None, None => (Err (no_such_file "lstat" path), w)
      | None, Some x => (Ok (size_of (content x), modTime x), w)
      end
  | TimeNow => (Ok (clock w), w)
  end.

(** *** Programs *)

Inductive Prog (A : Type) : Type :=
| Ret (a : A)
| Do {B : Type} (op : file_op B) (k : result B → Prog A).
Arguments Ret {A} a.
Arguments Do {A B} op k.

Fixpoint prog_bind {A B} (f : A → Prog B) (p : Prog A) : Prog B :=
  match p with
  | Ret a => f a
  | Do op k => Do op (λ r, prog_bind f (k r))
  end.
#[export] Instance Prog_ret : MRet Prog := @Ret.
#[export] Instance Prog_bind : MBind Prog := @prog_bind.

Definition perform {B} (op : file_op B) : Prog (result B) := Do op Ret.

(** A program alone; [faults] says which operations fail ([] = none). *)
Fixpoint run {A} (p : Prog A) (faults : list fault) (w : World) : A * World :=
  match p with
  | Ret a => (a, w)
  | Do op k => let '(r, w) := exec op (default None (head faults)) w in run (k r) (tail faults) w
  end.

Definition advance {A} (p : Prog A) (f : fault) (w : World) : option (Prog A * World) :=
  match p with
  | Ret _ => None
  | Do op k => let '(r, w) := exec op f w in Some (k r, w)
  end.

(** *** Interleaving *)

Definition pool (A : Type) : Type := (list (Prog A) * World)%type.

Definition tick (d : Z) (w : World) : World := mkWorld (files w) (next_temp w) (clock w + d).

Inductive step {A} : pool A → pool A → Prop :=
| step_run ps w i p f q w' :
    ps !! i = Some p → advance p f w = Some (q, w') → step (ps, w) (<[i := q]> ps, w')
| step_tick ps w d : step (ps, w) (ps, tick d w).

(** A schedule: which program makes its next operation, and what happens to it. *)
Fixpoint play {A} (schedule : list (nat * fault)) (s : pool A) : pool A :=
  match schedule with
  | [] => s
  | (i, f) :: schedule =>
      match s.1 !! i ≫= λ p, advance p f s.2 with
      | Some (q, w) => play schedule (<[i := q]> s.1, w)
      | None => play schedule s
      end
  end.

Lemma play_steps {A} schedule (s : pool A) : rtc step s (play schedule s).
Proof.
  revert s. induction schedule as [|[i f] l IH]; intros [ps w]; [done|]. cbn [play fst snd].
  destruct (ps !! i) as [p|] eqn:Hi; [|apply IH]. simpl.
  destruct (advance p f w) as [[q w']|] eqn:Ha; [|apply IH]. eapply rtc_l; [|apply IH]. by eapply step_run.
Qed.

(** ** Laws of programs *)

Lemma run_bind {A B} (f : A → Prog B) (p : Prog A) w :
  run (p ≫= f) [] w = run (f (run p [] w).1) [] (run p [] w).2.
Proof.
  revert w. induction p as [a|C op k IH]; intros w; [done|].
  change (Do op k ≫= f) with (Do op (λ r, k r ≫= f)). cbn [run head tail default].
  destruct (exec op _ w) as [r w']. apply IH.
Qed.

(** ** Names of files *)

Definition temp_suffixes : list string := [".part"; ".part.meta"].

(** A name made by the [n]-th [CreateTemp] of the cache, or the name of the
    document that is staged beside it. *)
Definition temp_name (n : nat) (p : string) : Prop :=
  ∃ d s, s ∈ temp_suffixes ∧ p = d +:+ "-" +:+ itoa (Z.of_nat n) +:+ s.

(** The names of published files. *)
Definition final_name (p : string) : Prop := ∃ a, p = a +:+ ".data" ∨ p = a +:+ ".meta.json".

Lemma sapp_inj_tail (a b x y : string) :
  String.length x = String.length y → a +:+ x = b +:+ y → a = b ∧ x = y.
Proof.
  intros Hl H. assert (Hab : String.length a = String.length b).
  { pose proof (f_equal String.length H) as H'. rewrite !sapp_length in H'. lia. }
  clear Hl. revert b Hab H. induction a as [|c a IH]; intros [|d b]; try done.
  - intros Hab H. rewrite !sapp_cons in H. injection H as -> H. injection Hab as Hab.
    by destruct (IH b Hab H) as [-> ->].
Qed.

Lemma temp_not_final n p : temp_name n p → final_name p → False.
Proof.
  intros (d & s & Hs & ->) (a & Ha).
  set (x := d +:+ "-" +:+ itoa (Z.of_nat n)). assert (Hx : ∀ t, d +:+ "-" +:+ itoa (Z.of_nat n) +:+ t = x +:+ t).
  { intros t. unfold x. by rewrite !sapp_assoc. }
  rewrite Hx in Ha. clearbody x. unfold temp_suffixes in Hs. rewrite !elem_of_cons, elem_of_nil in Hs.
  destruct Hs as [->|[->|[]]]; destruct Ha as [Ha|Ha].
  - by apply sapp_inj_tail in Ha as [_ ?].
  - change ".meta.json" with (".meta" +:+ ".json") in Ha. rewrite <-sapp_assoc in Ha.
    by apply sapp_inj_tail in Ha as [_ ?].
  - change ".part.meta" with (".part" +:+ ".meta") in Ha. rewrite <-sapp_assoc in Ha.
    by apply sapp_inj_tail in Ha as [_ ?].
  - by apply sapp_inj_tail in Ha as [_ ?].
Qed.

Lemma itoa_no_dash n : free_of (λ c, bool_decide (c = "-"%char)) (itoa (Z.of_nat n)).
Proof.
  destruct n as [|n]; [by split|]. change (free_of (λ c, bool_decide (c = "-"%char)) (pretty_N_go (N.pos (Pos.of_succ_nat n)) "")).
  apply pretty_N_free; [|done]. repeat constructor.
Qed.

Lemma dash_inj d e n m : d +:+ "-" +:+ itoa (Z.of_nat n) = e +:+ "-" +:+ itoa (Z.of_nat m) → n = m.
Proof.
  intros H. apply (f_equal (λ s, CutLast s "-")) in H.
  change ("-" +:+ itoa (Z.of_nat n)) with (String "-" (itoa (Z.of_nat n))) in H.
  change ("-" +:+ itoa (Z.of_nat m)) with (String "-" (itoa (Z.of_nat m))) in H.
  rewrite !(CutLast_char "-"%char) in H by apply itoa_no_dash.
  injection H as _ H. apply itoa_inj in H. lia.
Qed.

Lemma temp_name_inj n m p : temp_name n p → temp_name m p → n = m.
Proof.
  intros (d & s & Hs & ->) (e & t & Ht & H).
  rewrite <-!sapp_assoc in H. unfold temp_suffixes in Hs, Ht. rewrite !elem_of_cons, elem_of_nil in Hs, Ht.
  assert (Hd : ".part.meta" = ".part" +:+ ".meta") by done.
  destruct Hs as [->|[->|[]]], Ht as [->|[->|[]]].
  - apply sapp_inj_tail in H as [H _]; [|done]. rewrite !sapp_assoc in H. by apply dash_inj in H.
  - rewrite Hd, <-sapp_assoc in H. by apply sapp_inj_tail in H as [_ ?].
  - rewrite Hd, <-sapp_assoc in H. by apply sapp_inj_tail in H as [_ ?].
  - apply sapp_inj_tail in H as [H _]; [|done]. rewrite !sapp_assoc in H. by apply dash_inj in H.
Qed.

Lemma create_temp_name n dir k : temp_name n (dir +:+ "/" +:+ (k +:+ "-") +:+ itoa (Z.of_nat n) +:+ ".part").
Proof.
  exists (dir +:+ "/" +:+ k), ".part". split; [unfold temp_suffixes; set_solver|]. by rewrite !sapp_assoc.
Qed.

Lemma temp_meta_name n d :
  temp_name n ((d +:+ "-" +:+ itoa (Z.of_nat n) +:+ ".part") +:+ ".meta").
Proof.
  exists d, ".part.meta". split; [unfold temp_suffixes; set_solver|]. by rewrite !sapp_assoc.
Qed.

(** ** Safe programs *)

Section safety.
(** What may be published under a final name. *)
Context (Pub : string → Content → Prop).

(** What a program owns: the numbers of its temporary files, and the contents
    it knows them to have. *)
Record owned : Type := mkOwned { numbers : gset nat; known : gmap string Content }.

Definition owns (o : owned) (p : string) : Prop := ∃ n, n ∈ numbers o ∧ temp_name n p.

Definition allowed {B} (o : owned) (op : file_op B) : Prop :=
  match op with
  | CreateTemp _ prefix suffix => (∃ k, prefix = k +:+ "-") ∧ suffix = ".part"
  | WriteBytes p _ | WriteDoc p _ => owns o p
  | Rename p q => owns o p ∧ final_name q ∧ ∃ c, known o !! p = Some c ∧ Pub q c
  | Remove p => owns o p ∨ final_name p
  | _ => True
  end.

Definition set_known (k : gmap string Content) (o : owned) : owned := mkOwned (numbers o) k.

(** What the program knows after an operation, from its result. *)
Definition after {B} (o : owned) (op : file_op B) (r : result B) (o' : owned) : Prop :=
  match op in file_op B return result B → Prop with
  | CreateTemp _ _ _ => λ r, match r with
      | Ok p => ∃ n, temp_name n p ∧ temp_name n (p +:+ ".meta") ∧
                     o' = mkOwned ({[n]} ∪ numbers o) (<[p := Bytes ""]> (known o))
      | Err _ => o' = o
      end
  | WriteBytes p d => λ r,
      o' = set_known (if is_ok r then alter (append_bytes d) p (known o) else delete p (known o)) o
  | WriteDoc p m => λ r, o' = set_known (if is_ok r then <[p := Doc m]> (known o) else delete p (known o)) o
  | Rename p _ => λ r, o' = set_known (if is_ok r then delete p (known o) else known o) o
  | Remove p => λ _, o' = set_known (delete p (known o)) o
  | Open p => λ r, o' = o ∧ ∀ c, r = Ok c → final_name p → Pub p c
  | ReadDoc p => λ r, o' = o ∧ ∀ m, r = Ok (Some m) → final_name p → Pub p (Doc m)
  | _ => λ _, o' = o
  end r.

Fixpoint safe {A} (Q : owned → A → Prop) (o : owned) (p : Prog A) : Prop :=
  match p with
  | Ret a => Q o a
  | Do op k => allowed o op ∧ ∀ r o', after o op r o' → safe Q o' (k r)
  end.

Lemma safe_mono {A} (Q Q' : owned → A → Prop) (p : Prog A) o :
  safe Q o p → (∀ o' a, Q o' a → Q' o' a) → safe Q' o p.
Proof.
  intros H HQ. revert o H. induction p as [a|B op k IH]; simpl; [eauto|].
  intros o [Ha H]. split; [done|]. intros r o' Ho. by apply IH, H.
Qed.

Lemma safe_bind {A B} (Q : owned → A → Prop) (R : owned → B → Prop) (p : Prog A) (f : A → Prog B) o :
  safe Q o p → (∀ o' a, Q o' a → safe R o' (f a)) → safe R o (p ≫= f).
Proof.
  intros H Hf. revert o H. induction p as [a|C op k IH]; [eauto|].
  change (Do op k ≫= f) with (Do op (λ r, k r ≫= f)). intros o [Ha H]. split; [done|].
  intros r o' Ho. by apply IH, H.
Qed.

Lemma safe_perform {B} (Q : owned → result B → Prop) (op : file_op B) o :
  allowed o op → (∀ r o', after o op r o' → Q o' r) → safe Q o (perform op).
Proof. done. Qed.

Lemma safe_do {A B} (Q : owned → A → Prop) (op : file_op B) (f : result B → Prog A) o :
  allowed o op → (∀ r o', after o op r o' → safe Q o' (f r)) → safe Q o (perform op ≫= f).
Proof. done. Qed.

Lemma safe_ret {A} (Q : owned → A → Prop) o a : Q o a → safe Q o (Ret a).
Proof. done. Qed.

(** *** Every pool of safe programs stays within [Pub] *)

Definition shows (w : World) (p : string) : option Content := content <$> files w !! p.

Record holds (w : World) (g : nat → owned) : Prop := {
  holds_old i n : n ∈ numbers (g i) → (n < next_temp w)%nat;
  holds_apart i j n : n ∈ numbers (g i) → n ∈ numbers (g j) → i = j;
  holds_known i p c : known (g i) !! p = Some c → owns (g i) p ∧ shows w p = Some c;
  holds_pub p c : final_name p → shows w p = Some c → Pub p c;
}.

Definition give (i : nat) (o : owned) (g : nat → owned) : nat → owned :=
  λ j, if decide (j = i) then o else g j.

Lemma holds_update w g i w' o' :
  holds w g → (next_temp w ≤ next_temp w')%nat →
  (∀ n, n ∈ numbers o' → n ∈ numbers (g i) ∨ n = next_temp w ∧ (n < next_temp w')%nat) →
  (∀ p, owns o' p ∨ final_name p ∨ shows w' p = shows w p) →
  (∀ p c, known o' !! p = Some c → owns o' p ∧ shows w' p = Some c) →
  (∀ p c, final_name p → shows w' p = Some c → Pub p c) →
  holds w' (give i o' g).
Proof.
  intros [Hold Hap Hk Hp] Hn Hnum Hframe Hk' Hp'.
  assert (Hother : ∀ j n, j ≠ i → n ∈ numbers o' → n ∉ numbers (g j)).
  { intros j n Hj Hn' Hnj. destruct (Hnum n Hn') as [?|[-> _]]; [by apply Hj, (Hap j i n)|].
    specialize (Hold j _ Hnj). lia. }
  unfold give. split; [| | |done].
  - intros j n. case_decide; [|intros ?%Hold; lia]. intros [?%Hold|[-> ?]]%Hnum; lia.
  - intros j k n. repeat case_decide; subst; try done.
    + intros H1 H2. by destruct (Hother k n).
    + intros H1 H2. by destruct (Hother j n).
    + apply Hap.
  - intros j p c. case_decide; [apply Hk'|]. intros Hkn. destruct (Hk j p c Hkn) as [Ho Hs].
    split; [done|]. destruct Ho as (n & Hn' & Ht). destruct (Hframe p) as [(m & Hm & Hmt)|[Hf| ->]]; [| |done].
    + pose proof (temp_name_inj _ _ _ Ht Hmt) as ->. by destruct (Hother j m).
    + by destruct (temp_not_final n p).
Qed.

Lemma shows_insert w p x q :
  shows (set_files (<[p := x]> (files w)) w) q = if decide (q = p) then Some (content x) else shows w q.
Proof.
  unfold shows. simpl. case_decide; [subst; by rewrite lookup_insert_eq|by rewrite lookup_insert_ne].
Qed.
Lemma shows_delete w p q :
  shows (set_files (delete p (files w)) w) q = if decide (q = p) then None else shows w q.
Proof.
  unfold shows. simpl. case_decide; [subst; by rewrite lookup_delete_eq|by rewrite lookup_delete_ne].
Qed.
Lemma shows_append w p d q :
  shows (append_to p d w) q = if decide (q = p) then append_bytes d <$> shows w q else shows w q.
Proof.
  unfold shows, append_to. simpl. case_decide; [subst; rewrite lookup_alter_eq|by rewrite lookup_alter_ne].
  by destruct (files w !! p).
Qed.

(** An operation that leaves the files, and what is known, alone. *)
Lemma holds_same w g i : holds w g → holds w (give i (g i) g).
Proof.
  intros H. apply (holds_update w g i w); try done; [by left|by right; right|apply H|apply H].
Qed.

Lemma owns_not_final o p : owns o p → ¬ final_name p.
Proof. intros (n & _ & Ht) Hf. by eapply temp_not_final. Qed.

Lemma set_known_same o : set_known (known o) o = o.
Proof. by destruct o. Qed.

Lemma lookup_delete_inv (k : gmap string Content) p q c :
  delete p k !! q = Some c → q ≠ p ∧ k !! q = Some c.
Proof. rewrite lookup_delete_Some. naive_solver. Qed.

(** An operation on a file the program owns. *)
Lemma holds_own w g i w' k p :
  holds w g → owns (g i) p → next_temp w' = next_temp w →
  (∀ q, q ≠ p → shows w' q = shows w q) →
  (∀ q c, q ≠ p → k !! q = Some c → known (g i) !! q = Some c) →
  (∀ c, k !! p = Some c → shows w' p = Some c) →
  holds w' (give i (set_known k (g i)) g).
Proof.
  intros H Ho Hn Hsame Hk Hp. apply (holds_update w); try done.
  - by rewrite Hn.
  - by left.
  - intros q. destruct (decide (q = p)) as [->|Hq]; [by left|right; right; by apply Hsame].
  - intros q c Hq. destruct (decide (q = p)) as [->|Hne]; [auto|].
    destruct (holds_known _ _ H i q c (Hk _ _ Hne Hq)) as [? ?]. by rewrite Hsame.
  - intros q c Hf Hs. eapply holds_pub; [exact H|done|]. rewrite <-Hs. symmetry. apply Hsame.
    intros ->. by apply owns_not_final in Ho.
Qed.

Lemma exec_CreateTemp w g i dir k f r w' :
  holds w g → exec (CreateTemp dir (k +:+ "-") ".part") f w = (r, w') →
  ∃ o', after (g i) (CreateTemp dir (k +:+ "-") ".part") r o' ∧ holds w' (give i o' g).
Proof.
  intros H. destruct f as [[m l]|]; cbn [exec].
  - intros [= <- <-]. exists (g i). split; [done|]. by apply holds_same.
  - intros [= <- <-]. set (n := next_temp w).
    set (p := dir +:+ "/" +:+ (k +:+ "-") +:+ itoa (Z.of_nat n) +:+ ".part").
    assert (Hp : temp_name n p) by apply create_temp_name.
    exists (mkOwned ({[n]} ∪ numbers (g i)) (<[p := Bytes ""]> (known (g i)))). split.
    { exists n. split; [done|]. split; [|done]. unfold p.
      pose proof (temp_meta_name n (dir +:+ "/" +:+ k)) as Ht. by rewrite !sapp_assoc in Ht |- *. }
    set (w' := mkWorld _ _ _).
    assert (Hs : ∀ q, shows w' q = if decide (q = p) then Some (Bytes "") else shows w q).
    { intros q. apply (shows_insert w p (mkFile (Bytes "") (clock w))). }
    apply (holds_update w); [done|simpl; lia| | | |].
    + intros m. simpl. rewrite elem_of_union, elem_of_singleton. intros [->|?]; [right; split; [done|lia]|by left].
    + intros q. rewrite Hs. destruct (decide (q = p)) as [->|]; [left; exists n; set_solver|by right; right].
    + intros q c. cbn [known]. rewrite Hs, lookup_insert. do 2 case_decide; subst; try done.
      * intros ?. split; [exists n; set_solver|congruence].
      * intros Hq. destruct (holds_known _ _ H _ _ _ Hq) as [(m & Hm & Ht) ?].
        split; [exists m; set_solver|done].
    + intros q c Hf. rewrite Hs. case_decide; [subst; by destruct (temp_not_final n p)|]. by apply H.
Qed.

Lemma exec_Rename w g i p q f r w' :
  holds w g → allowed (g i) (Rename p q) → exec (Rename p q) f w = (r, w') →
  ∃ o', after (g i) (Rename p q) r o' ∧ holds w' (give i o' g).
Proof.
  intros H (Ho & Hq & c & Hk & Hc). destruct (holds_known _ _ H _ _ _ Hk) as [_ Hs].
  unfold shows in Hs. cbn [exec]. destruct (files w !! p) as [x|] eqn:Hx; [|done]. injection Hs as Hs.
  destruct f as [[m l]|]; intros [= <- <-]; (eexists; split; [done|]).
  { cbn [is_ok]. rewrite set_known_same. by apply holds_same. }
  assert (Hpq : p ≠ q) by (intros ->; by apply owns_not_final in Ho).
  set (w' := set_files _ _).
  assert (Hw : ∀ y, shows w' y = if decide (y = q) then Some c else if decide (y = p) then None else shows w y).
  { intros y. unfold w', shows, set_files. cbn [files]. case_decide.
    - subst. by rewrite lookup_insert_eq.
    - rewrite lookup_insert_ne by done. case_decide; [subst; by rewrite lookup_delete_eq|by rewrite lookup_delete_ne]. }
  apply (holds_update w); [done|done|by left| | |].
  - intros y. rewrite Hw. repeat case_decide; subst; auto.
  - intros y d [Hne Hy]%lookup_delete_inv. destruct (holds_known _ _ H _ _ _ Hy) as [Hoy Hsy].
    split; [done|]. rewrite Hw. rewrite decide_False, decide_False; [done|done|].
    intros ->. by apply owns_not_final in Hoy.
  - intros y d Hf. rewrite Hw. repeat case_decide; subst; [by intros [= <-]|done|]. by apply H.
Qed.

Lemma exec_Remove w g i p f r w' :
  holds w g → allowed (g i) (Remove p) → exec (Remove p) f w = (r, w') →
  ∃ o', after (g i) (Remove p) r o' ∧ holds w' (give i o' g).
Proof.
  intros H Ha He. eexists; split; [done|].
  assert (Hw : next_temp w' = next_temp w ∧ ∀ q, q ≠ p → shows w' q = shows w q).
  { cbn [exec] in He. destruct f as [[m l]|]; [by injection He as _ <-|].
    destruct (files w !! p); injection He as _ <-; [|done]. split; [done|]. intros q Hq. by rewrite shows_delete, decide_False. }
  destruct Hw as [Hn Hw]. destruct Ha as [Ho|Hp].
  - apply (holds_own w g i w' _ p); try done.
    + by intros q c _ [_ ?]%lookup_delete_inv.
    + intros c [? _]%lookup_delete_inv. done.
  - apply (holds_update w); [done|by rewrite Hn|by left| | |].
    + intros q. destruct (decide (q = p)) as [->|]; auto.
    + intros q c [Hne Hq]%lookup_delete_inv. rewrite Hw by done. by apply (holds_known _ _ H).
    + intros q c Hf. destruct (decide (q = p)) as [->|]; [|rewrite Hw by done; by apply H].
      cbn [exec] in He. destruct f as [[m l]|]; [injection He as _ <-; by apply H|].
      destruct (files w !! p); injection He as _ <-; [|by apply H]. by rewrite shows_delete, decide_True.
Qed.

Lemma exec_Write w g i p f r w' (data : string) :
  holds w g → owns (g i) p → exec (WriteBytes p data) f w = (r, w') →
  ∃ o', after (g i) (WriteBytes p data) r o' ∧ holds w' (give i o' g).
Proof.
  intros H Ho He. eexists; split; [done|].
  assert (∃ d, w' = append_to p d w ∧ (is_ok r = true → d = data)) as (d & -> & Hd).
  { cbn [exec] in He. destruct f as [[m l]|]; injection He as <- <-; by eexists. }
  apply (holds_own w g i _ _ p); try done.
  - intros q Hq. by rewrite shows_append, decide_False.
  - intros q c Hq. destruct (is_ok r); [by rewrite lookup_alter_ne|by intros [_ ?]%lookup_delete_inv].
  - intros c. destruct (is_ok r) eqn:E; [|by intros [? _]%lookup_delete_inv].
    rewrite lookup_alter_eq, shows_append, decide_True by done. specialize (Hd eq_refl) as ->.
    destruct (known (g i) !! p) as [b|] eqn:Hb; [|done]. by destruct (holds_known _ _ H _ _ _ Hb) as [_ ->].
Qed.

Lemma exec_WriteDoc w g i p f r w' m :
  holds w g → owns (g i) p → exec (WriteDoc p m) f w = (r, w') →
  ∃ o', after (g i) (WriteDoc p m) r o' ∧ holds w' (give i o' g).
Proof.
  intros H Ho He. eexists; split; [done|].
  assert (∃ c, w' = set_files (<[p := mkFile c (clock w)]> (files w)) w ∧ (is_ok r = true → c = Doc m)) as (c & -> & Hc).
  { cbn [exec] in He. destruct f as [[? l]|]; injection He as <- <-; by eexists. }
  apply (holds_own w g i _ _ p); try done.
  - intros q Hq. by rewrite shows_insert, decide_False.
  - intros q d Hq. destruct (is_ok r); [by rewrite lookup_insert_ne|by intros [_ ?]%lookup_delete_inv].
  - intros d. destruct (is_ok r); [|by intros [? _]%lookup_delete_inv].
    rewrite lookup_insert_eq, shows_insert, decide_True by done. by rewrite Hc.
Qed.

Lemma exec_holds {B} w g i (op : file_op B) f r w' :
  holds w g → allowed (g i) op → exec op f w = (r, w') →
  ∃ o', after (g i) op r o' ∧ holds w' (give i o' g).
Proof.
  intros H Ha He. assert (Hsame : w' = w → holds w' (give i (g i) g)) by (intros ->; by apply holds_same).
  destruct op as [d|d pre suf|p d|p|p m|p|p|p|p q|p|d|p|].
  - exists (g i). split; [done|]. apply Hsame. by injection He as _ <-.
  - destruct Ha as [(k & ->) ->]. by eapply exec_CreateTemp.
  - by eapply exec_Write.
  - exists (g i). split; [done|]. apply Hsame. by injection He as _ <-.
  - by eapply exec_WriteDoc.
  - exists (g i). cbn [exec] in He.
    destruct f as [[? ?]|]; [injection He as <- <-; split; [by split|by apply Hsame]|].
    destruct (files w !! p) as [[[s|m] t]|] eqn:Hp; injection He as <- <-; (split; [split; [done|]|auto]); [done| |done].
    intros m' [= <-] Hf. eapply holds_pub; [exact H|done|]. unfold shows. by rewrite Hp.
  - exists (g i). cbn [exec] in He.
    destruct f as [[? ?]|]; [injection He as <- <-; split; [by split|by apply Hsame]|].
    destruct (files w !! p) as [x|] eqn:Hp; injection He as <- <-; (split; [split; [done|]|auto]); [|done].
    intros c [= <-] Hf. eapply holds_pub; [exact H|done|]. unfold shows. by rewrite Hp.
  - exists (g i). split; [done|]. apply Hsame. cbn [exec] in He. destruct f as [[? ?]|], (files w !! p); by injection He as _ <-.
  - by eapply exec_Rename.
  - by eapply exec_Remove.
  - exists (g i). split; [done|]. apply Hsame. by injection He as _ <-.
  - exists (g i). split; [done|]. apply Hsame. cbn [exec] in He. destruct f as [[? ?]|], (files w !! p); by injection He as _ <-.
  - exists (g i). split; [done|]. apply Hsame. by injection He as _ <-.
Qed.

(** The invariant of a pool. *)
Definition pool_ok {A} (Q : nat → owned → A → Prop) (s : pool A) : Prop :=
  ∃ g, holds s.2 g ∧ ∀ i p, s.1 !! i = Some p → safe (Q i) (g i) p.

Lemma step_ok {A} (Q : nat → owned → A → Prop) s s' : pool_ok Q s → step s s' → pool_ok Q s'.
Proof.
  intros (g & Hg & Hsafe) Hstep. destruct Hstep as [ps w i p f q w' Hi Ha|ps w d]; simpl in *.
  - pose proof (Hsafe i p Hi) as Hp. destruct p as [a|B op k]; [done|]. simpl in Ha, Hp.
    destruct (exec op f w) as [r w1] eqn:He. injection Ha as <- <-. destruct Hp as [Hal Hk].
    destruct (exec_holds _ _ _ _ _ _ _ Hg Hal He) as (o' & Ho & Hg').
    exists (give i o' g). split; [done|]. intros j p. simpl. unfold give.
    destruct (decide (j = i)) as [->|Hj].
    + rewrite list_lookup_insert_eq by (by eapply lookup_lt_Some). intros [= <-]. by apply Hk.
    + rewrite list_lookup_insert_ne by done. apply Hsafe.
  - exists g. split; [|done]. destruct Hg. by split.
Qed.

Lemma pool_published {A} (Q : nat → owned → A → Prop) ps w s :
  (∀ p c, final_name p → shows w p = Some c → Pub p c) →
  (∀ i p, ps !! i = Some p → safe (Q i) (mkOwned ∅ ∅) p) →
  rtc step (ps, w) s →
  (∀ p c, final_name p → shows s.2 p = Some c → Pub p c) ∧
  ∀ i a, s.1 !! i = Some (Ret a) → ∃ o, Q i o a.
Proof.
  intros Hw Hps Hr. assert (pool_ok Q s) as (g & Hg & Hs).
  { assert (H0 : pool_ok Q (ps, w)).
    { exists (λ _, mkOwned ∅ ∅). split; [|done]. split; [set_solver|set_solver|done|done]. }
    clear Hw Hps. induction Hr as [|x y z Hxy _ IH]; [done|]. apply IH. by eapply step_ok. }
  split; [intros p c; apply Hg|]. intros i a Hi. exists (g i). by apply (Hs i _ Hi).
Qed.
End safety.
