(* ===== verification/OciCache.v ===== *)
(** * The on-disk OCI content cache

    [internal/infra/ocicache/disk.go].  Manifests and blobs are kept per tenant,
    upstream, kind and digest as two files, the body and a document with the
    response headers; a write is staged in a temporary file and renamed into
    place by [Commit], which also enforces the limits of the scope.  Methods are
    programs over the file system ([FileSystem]); a [diskWriteSession] is the
    state of one writer.  [json.Marshal] of a metadata document cannot fail. *)

From S2P Require Import Prelude GoStrings GoPath Artifact Upstream PolicyConfig Policy Conditions Json FileSystem.
#[local] Open Scope list_scope.

(** ** Definitions *)

(** *** Standard library *)

Definition upper_hex (n : nat) : string :=
  String (Ascii.ascii_of_nat (if n <? 10 then n + 48 else n + 55)%nat) "".

Definition lower_alnum (c : ascii) : bool := in_range 97 122 c || in_range 48 57 c.
Definition upper_alpha (c : ascii) : bool := in_range 65 90 c.
Definition one_of (chars : list ascii) (c : ascii) : bool := bool_decide (c ∈ chars).

(** [url.PathEscape]: what may stand in a path segment is kept. *)
Definition segment_char (c : ascii) : bool :=
  lower_alnum c || upper_alpha c ||
  one_of ["-"; "_"; "."; "~"; "$"; "&"; "+"; ":"; "="; "@"]%char c.
Definition escape_char (c : ascii) : string :=
  if segment_char c then String c ""
  else "%" +:+ upper_hex (byte_of c / 16) +:+ upper_hex (byte_of c mod 16).
Fixpoint PathEscape (s : string) : string :=
  match s with "" => "" | String c s => escape_char c +:+ PathEscape s end.

(** [filepath.Ext] *)
Definition Ext (path : string) : string :=
  match CutLast path "." with
  | Some (_, b) => if bool_decide (Cut b "/" = None) then "." +:+ b else ""
  | None => ""
  end.

(** [sort.Slice] is not stable: any function with these laws may stand for it. *)
Class SortSlice := {
  sort_Slice {A} : (A → A → bool) → list A → list A;
  sort_Slice_perm {A} less (l : list A) : sort_Slice less l ≡ₚ l;
  sort_Slice_sorted {A} less (l : list A) : StrictWeak less → sorted less (sort_Slice less l);
}.

(** int64 addition *)
Definition wrap64 (z : Z) : Z := (z + 2 ^ 63) mod 2 ^ 64 - 2 ^ 63.

(** *** Paths *)

(** [type OCIArtifactKind string] *)
Definition OCIArtifactManifest : string := "manifests".
Definition OCIArtifactBlob : string := "blobs".

Record DiskCache : Type := mkDiskCache {
  rootDir : string;
  maxBytes : Z;
  maxAge : Z;
  maxEntries : Z;
}.

Definition DiskCacheOptions : Type := DiskCache.

Definition NewDiskCache (opts : DiskCacheOptions) : Prog (result DiskCache) :=
  let root := TrimSpace (rootDir opts) in
  if decide (root = "") then Ret (Err (new_error "disk cache root directory is required"))
  else
    r ← perform (MkdirAll root);
    match r with
    | Err e => Ret (Err (wrap_error "creating cache root: " e))
    | Ok _ => Ret (Ok (mkDiskCache root (maxBytes opts) (maxAge opts) (maxEntries opts)))
    end.

(** The algorithm of a digest up to its colon; [ready]: the last byte was
    alphanumeric. *)
Fixpoint digest_algorithm (ready : bool) (s : string) : option string :=
  match s with
  | "" => None
  | String c s =>
      if lower_alnum c then digest_algorithm true s
      else if ready && one_of ["+"; "."; "_"; "-"]%char c then digest_algorithm false s
      else if ready && bool_decide (c = ":"%char) then Some s
      else None
  end.
Definition encoded_char (c : ascii) : bool :=
  lower_alnum c || upper_alpha c || one_of ["="; "_"; "-"]%char c.
Fixpoint every_char (p : ascii → bool) (s : string) : bool :=
  match s with "" => true | String c s => p c && every_char p s end.
Definition ociDigestRE (s : string) : bool :=
  match digest_algorithm false s with
  | Some encoded => negb (bool_decide (encoded = "")) && every_char encoded_char encoded
  | None => false
  end.

Definition invalid_digest (digest : string) : error := new_error ("invalid OCI digest " +:+ quote digest).

Definition splitDigest (digest : string) : result (string * string) :=
  let digest := TrimSpace digest in
  if negb (ociDigestRE digest) then Err (invalid_digest digest)
  else match Cut digest ":" with
       | Some r => Ok r
       | None => Err (invalid_digest digest)
       end.

Definition pathComponent (name value : string) : result string :=
  let trimmed := TrimSpace value in
  if decide (trimmed = "") then Err (new_error ("OCI cache " +:+ name +:+ " is required"))
  else Ok (PathEscape trimmed).

Definition scopeRoot (c : DiskCache) (tenantID upstreamID : string) : result string :=
  tenantComponent ← pathComponent "tenant_id" tenantID;
  upstreamComponent ← pathComponent "upstream_id" upstreamID;
  Ok (PathJoin [rootDir c; tenantComponent; upstreamComponent]).

Definition finalPaths (c : DiskCache) (tenantID upstreamID kind digest : string) : result (string * string) :=
  '(algo, encoded) ← splitDigest digest;
  root ← scopeRoot c tenantID upstreamID;
  let base := PathJoin [root; kind; algo; encoded] in
  Ok (base +:+ ".data", base +:+ ".meta.json").

(** *** Reading *)

(** [port.UpstreamResponse], over the kind of body. *)
Record ArtifactResponse (B : Type) : Type := mkArtifactResponse {
  art_StatusCode : Z;
  art_ContentType : string;
  art_Headers : gmap string string;
  art_Body : option B;
}.
Arguments mkArtifactResponse {B} _ _ _ _.
Arguments art_StatusCode {B} _.
Arguments art_ContentType {B} _.
Arguments art_Headers {B} _.
Arguments art_Body {B} _.

(** The body is an open file, whose contents no one changes. *)
Definition Get (c : DiskCache) (tenantID upstreamID kind digest : string) :
    Prog (result (ArtifactResponse Content)) :=
  match finalPaths c tenantID upstreamID kind digest with
  | Err e => Ret (Err e)
  | Ok (dataPath, metaPath) =>
      meta ← perform (ReadDoc metaPath);
      match meta with
      | Err e => Ret (Err (if errors_Is e ErrNotExist then sentinel_error ErrCacheMiss
                           else wrap_error "reading cache metadata: " e))
      | Ok None => Ret (Err (wrap_error "decoding cache metadata: " (new_error "unexpected end of JSON input")))
      | Ok (Some meta) =>
          file ← perform (Open dataPath);
          match file with
          | Err e => Ret (Err (if errors_Is e ErrNotExist then sentinel_error ErrCacheMiss
                               else wrap_error "opening cached artifact: " e))
          | Ok file => Ret (Ok (mkArtifactResponse 200 (meta_ContentType meta) (meta_Headers meta) (Some file)))
          end
      end
  end.

(** *** Writing *)

(** [file_open] is the state of the [os.File]. *)
Record diskWriteSession : Type := mkSession {
  cache : DiskCache;
  ses_tenantID : string;
  ses_upstreamID : string;
  ses_kind : string;
  ses_digest : string;
  file_open : bool;
  tempDataPath : string;
  finalData : string;
  finalMeta : string;
  descriptor : artifactMetadata;
  aborted : bool;
  committed : bool;
}.

Definition set_flags (open ab com : bool) (s : diskWriteSession) : diskWriteSession :=
  mkSession (cache s) (ses_tenantID s) (ses_upstreamID s) (ses_kind s) (ses_digest s) open
    (tempDataPath s) (finalData s) (finalMeta s) (descriptor s) ab com.

(** [filepath.Dir] of a data path is not read: [MkdirAll] has no effect on files. *)
Definition StartWrite (c : DiskCache) (tenantID upstreamID kind digest : string) (d : artifactMetadata) :
    Prog (result diskWriteSession) :=
  match finalPaths c tenantID upstreamID kind digest with
  | Err e => Ret (Err e)
  | Ok (data, meta) =>
      r ← perform (MkdirAll (PathDir data));
      match r with
      | Err e => Ret (Err (wrap_error "creating cache directory: " e))
      | Ok _ =>
          match scopeRoot c tenantID upstreamID with
          | Err e => Ret (Err e)
          | Ok root =>
              let tempDir := PathJoin [root; ".tmp"] in
              r ← perform (MkdirAll tempDir);
              match r with
              | Err e => Ret (Err (wrap_error "creating cache temp directory: " e))
              | Ok _ =>
                  file ← perform (CreateTemp tempDir (kind +:+ "-") ".part");
                  match file with
                  | Err e => Ret (Err (wrap_error "creating cache temp file: " e))
                  | Ok path =>
                      Ret (Ok (mkSession c tenantID upstreamID kind digest true path data meta d false false))
                  end
              end
          end
      end
  end.

Definition session_Write (s : diskWriteSession) (p : string) : Prog (result ()) :=
  if aborted s || committed s then Ret (Err (new_error "cache write session already closed"))
  else if file_open s then perform (WriteBytes (tempDataPath s) p)
  else Ret (Err (os_error "write" (tempDataPath s) "file already closed")).

(** [s.file.Close()] *)
Definition close_file (s : diskWriteSession) : Prog (result ()) :=
  if file_open s then perform (CloseFile (tempDataPath s))
  else Ret (Err (os_error "close" (tempDataPath s) "file already closed")).

(** [_ = os.Remove(path)] *)
Definition remove_quietly (path : string) : Prog () := _ ← perform (Remove path); Ret ().

Definition session_Abort (s : diskWriteSession) : Prog (diskWriteSession * result ()) :=
  if aborted s || committed s then Ret (s, Ok ())
  else
    _ ← close_file s;
    let s := set_flags false true (committed s) s in
    r ← perform (Remove (tempDataPath s));
    match r with
    | Err e => if errors_Is e ErrNotExist then Ret (s, Ok ())
               else Ret (s, Err (wrap_error "removing cache temp file: " e))
    | Ok _ => Ret (s, Ok ())
    end.

(** *** Limits *)

Record cachedFile : Type := mkCachedFile {
  dataPath : string;
  metaPath : string;
  size : Z;
  cf_modTime : time;
}.

(** [os.Remove] of a file that may be gone. *)
Definition remove_if_present (what path : string) : Prog (result ()) :=
  r ← perform (Remove path);
  Ret (match r with
       | Err e => if errors_Is e ErrNotExist then Ok () else Err (wrap_error what e)
       | Ok _ => Ok ()
       end).

Definition removeCachedFile (f : cachedFile) : Prog (result ()) :=
  r ← remove_if_present "removing cached artifact: " (dataPath f);
  match r with
  | Err e => Ret (Err e)
  | Ok _ => remove_if_present "removing cached metadata: " (metaPath f)
  end.

(** The callback of the walk, for the files it visits. *)
Fixpoint collect_files (paths : list string) : Prog (result (list cachedFile)) :=
  match paths with
  | [] => Ret (Ok [])
  | path :: paths =>
      if decide (Ext path ≠ ".data") then collect_files paths
      else
        info ← perform (Info path);
        match info with
        | Err e => Ret (Err e)
        | Ok (n, t) =>
            rest ← collect_files paths;
            Ret (match rest with
                 | Err e => Err e
                 | Ok rest => Ok (mkCachedFile path (TrimSuffix path ".data" +:+ ".meta.json") n t :: rest)
                 end)
        end
  end.

(** A scope whose directory does not exist has no files below it either. *)
Definition collectScopedFiles (root : string) : Prog (result (list cachedFile)) :=
  paths ← perform (WalkDir root);
  match paths with
  | Err e => Ret (Err (wrap_error "walking OCI cache scope: " e))
  | Ok paths =>
      files ← collect_files paths;
      Ret (wrap_result "walking OCI cache scope: " files)
  end.

Fixpoint keep_fresh (c : DiskCache) (now : time) (l : list cachedFile) : Prog (result (list cachedFile)) :=
  match l with
  | [] => Ret (Ok [])
  | file :: l =>
      if decide (time_Sub now (cf_modTime file) <= maxAge c) then
        kept ← keep_fresh c now l;
        Ret (match kept with Ok kept => Ok (file :: kept) | Err e => Err e end)
      else
        r ← removeCachedFile file;
        match r with
        | Err e => Ret (Err e)
        | Ok _ => keep_fresh c now l
        end
  end.

Definition removeExpiredFiles (c : DiskCache) (l : list cachedFile) (now : time) : Prog (result (list cachedFile)) :=
  if decide (maxAge c <= 0) then Ret (Ok l) else keep_fresh c now l.

Definition cachedFilesSize (l : list cachedFile) : Z := foldl (λ n f, wrap64 (n + size f)) 0 l.

Definition capacityExceeded (c : DiskCache) (entryCount totalBytes : Z) : bool :=
  let tooManyEntries := bool_decide (0 < maxEntries c) && bool_decide (maxEntries c < entryCount) in
  let tooManyBytes := bool_decide (0 < maxBytes c) && bool_decide (maxBytes c < totalBytes) in
  tooManyEntries || tooManyBytes.

Definition older (a b : cachedFile) : bool := cf_modTime a <? cf_modTime b.

(** The loop of [enforceCapacityLimits], over files sorted by age. *)
Fixpoint evict (c : DiskCache) (totalBytes : Z) (l : list cachedFile) : Prog (result ()) :=
  match l with
  | [] => Ret (Ok ())
  | oldest :: rest =>
      if capacityExceeded c (Z.of_nat (length l)) totalBytes then
        r ← removeCachedFile oldest;
        match r with
        | Err e => Ret (Err e)
        | Ok _ => evict c (wrap64 (totalBytes - size oldest)) rest
        end
      else Ret (Ok ())
  end.

Section limits.
Context {sorter : SortSlice}.

Definition enforceCapacityLimits (c : DiskCache) (l : list cachedFile) : Prog (result ()) :=
  if decide (maxEntries c <= 0 ∧ maxBytes c <= 0) then Ret (Ok ())
  else
    let l := sort_Slice older l in
    evict c (cachedFilesSize l) l.

Definition enforceLimits (c : DiskCache) (tenantID upstreamID : string) : Prog (result ()) :=
  if decide (maxAge c <= 0 ∧ maxEntries c <= 0 ∧ maxBytes c <= 0) then Ret (Ok ())
  else match scopeRoot c tenantID upstreamID with
  | Err e => Ret (Err e)
  | Ok root =>
      files ← collectScopedFiles root;
      match files with
      | Err e => Ret (Err e)
      | Ok files =>
          now ← perform TimeNow;
          match now with
          | Err e => Ret (Err e)
          | Ok now =>
              files ← removeExpiredFiles c files now;
              match files with
              | Err e => Ret (Err e)
              | Ok files => enforceCapacityLimits c files
              end
          end
      end
  end.

Definition session_Commit (s : diskWriteSession) : Prog (diskWriteSession * result ()) :=
  if aborted s || committed s then Ret (s, Ok ())
  else
    r ← close_file s;
    let s := set_flags false (aborted s) (committed s) s in
    match r with
    | Err e => _ ← remove_quietly (tempDataPath s); Ret (s, Err (wrap_error "closing cache temp file: " e))
    | Ok _ =>
        let tempMeta := tempDataPath s +:+ ".meta" in
        r ← perform (WriteDoc tempMeta (descriptor s));
        match r with
        | Err e => _ ← remove_quietly (tempDataPath s); Ret (s, Err (wrap_error "writing cache metadata: " e))
        | Ok _ =>
            r ← perform (Stat (finalData s));
            match r with
            | Ok _ =>
                _ ← remove_quietly (tempDataPath s);
                _ ← remove_quietly tempMeta;
                Ret (set_flags false (aborted s) true s, Ok ())
            | Err e =>
                if negb (errors_Is e ErrNotExist) then
                  _ ← remove_quietly (tempDataPath s);
                  _ ← remove_quietly tempMeta;
                  Ret (s, Err (wrap_error "checking cache destination: " e))
                else
                  r ← perform (Rename (tempDataPath s) (finalData s));
                  match r with
                  | Err e =>
                      _ ← remove_quietly (tempDataPath s);
                      _ ← remove_quietly tempMeta;
                      Ret (s, Err (wrap_error "promoting cached artifact: " e))
                  | Ok _ =>
                      r ← perform (Rename tempMeta (finalMeta s));
                      match r with
                      | Err e =>
                          _ ← remove_quietly (finalData s);
                          _ ← remove_quietly tempMeta;
                          Ret (s, Err (wrap_error "promoting cache metadata: " e))
                      | Ok _ =>
                          let s := set_flags false (aborted s) true s in
                          r ← enforceLimits (cache s) (ses_tenantID s) (ses_upstreamID s);
                          Ret (s, wrap_result "enforcing cache limits: " r)
                      end
                  end
            end
        end
    end.
End limits.

(** ** Paths never collide *)

Fixpoint PathUnescape (fuel : nat) (s : string) : string :=
  match fuel, s with
  | S n, String "%" (String a (String b s)) =>
      let hex c := (if byte_of c <? 58 then byte_of c - 48 else byte_of c - 55)%nat in
      String (Ascii.ascii_of_nat (16 * hex a + hex b)) (PathUnescape n s)
  | S n, String c s => String c (PathUnescape n s)
  | _, _ => ""
  end.

Lemma escape_char_head c n t : PathUnescape (S n) (escape_char c +:+ t) = String c (PathUnescape n t).
Proof. destruct c as [[] [] [] [] [] [] [] []]; reflexivity. Qed.

Lemma PathUnescape_escape s : PathUnescape (String.length s) (PathEscape s) = s.
Proof. induction s as [|c s IH]; [done|]. cbn [PathEscape String.length]. by rewrite escape_char_head, IH. Qed.

Lemma PathUnescape_more n s : (String.length s ≤ n)%nat → PathUnescape n (PathEscape s) = s.
Proof.
  revert n. induction s as [|c s IH]; intros n Hn; [by destruct n|].
  destruct n as [|n]; [simpl in Hn; lia|]. cbn [PathEscape]. rewrite escape_char_head, IH; [done|]. simpl in Hn. lia.
Qed.

Lemma PathEscape_inj a b : PathEscape a = PathEscape b → a = b.
Proof.
  intros H. set (n := Nat.max (String.length a) (String.length b)).
  rewrite <-(PathUnescape_more n a), <-(PathUnescape_more n b) by (unfold n; lia). by rewrite H.
Qed.

Notation slash := (λ c, bool_decide (c = "/"%char)).

Lemma escape_char_free c : free_of slash (escape_char c).
Proof. destruct c as [[] [] [] [] [] [] [] []]; vm_compute; tauto. Qed.

Lemma PathEscape_clean s : s ≠ "" → s ≠ "." → s ≠ ".." → clean_seg (PathEscape s).
Proof.
  intros H1 H2 H3. split; [|split; [|split]].
  - intros H. by apply (PathEscape_inj s "") in H.
  - intros H. by apply (PathEscape_inj s ".") in H.
  - intros H. by apply (PathEscape_inj s "..") in H.
  - clear. induction s as [|c s IH]; [done|]. cbn [PathEscape]. apply free_of_app. split; [apply escape_char_free|done].
Qed.

Lemma every_char_free (p q : ascii → bool) s :
  (∀ c, p c = true → q c = false) → every_char p s = true → free_of q s.
Proof. intros H. induction s as [|c s IH]; [done|]. simpl. rewrite andb_true_iff. intros [Hc Hs]. split; auto. Qed.

Definition algorithm_char (c : ascii) : bool := lower_alnum c || one_of ["+"; "."; "_"; "-"]%char c.

Lemma algorithm_char_free c : algorithm_char c = true → bool_decide (c = "/"%char) = false ∧ bool_decide (c = ":"%char) = false.
Proof. destruct c as [[] [] [] [] [] [] [] []]; by vm_compute. Qed.
Lemma encoded_char_free c : encoded_char c = true → bool_decide (c = "/"%char) = false ∧ bool_decide (c = "."%char) = false.
Proof. destruct c as [[] [] [] [] [] [] [] []]; by vm_compute. Qed.

Lemma digest_algorithm_spec ready s rest :
  digest_algorithm ready s = Some rest →
  ∃ a, s = a +:+ String ":" rest ∧ every_char algorithm_char a = true ∧
       (ready = false → ∃ c t, a = String c t ∧ lower_alnum c = true).
Proof.
  revert ready. induction s as [|c s IH]; intros ready; [done|]. cbn [digest_algorithm].
  destruct (lower_alnum c) eqn:Hc; [|destruct (ready && _) eqn:Hr; [|destruct (ready && bool_decide _) eqn:Hd; [|done]]].
  - intros (a & -> & Ha & _)%IH. exists (String c a). split; [done|]. split; [|eauto].
    cbn [every_char]. unfold algorithm_char at 1. by rewrite Hc, Ha.
  - apply andb_true_iff in Hr as [-> Hr]. intros (a & -> & Ha & _)%IH. exists (String c a). split; [done|].
    split; [|done]. cbn [every_char]. unfold algorithm_char at 1. by rewrite Hr, Ha, orb_true_r.
  - intros [= <-]. apply andb_true_iff in Hd as [-> ->%bool_decide_eq_true]. by exists "".
Qed.

(** The two components of a digest are ordinary path elements, the encoded one
    without a dot, and they determine the digest. *)
Lemma splitDigest_spec digest algo encoded :
  splitDigest digest = Ok (algo, encoded) →
  TrimSpace digest = algo +:+ ":" +:+ encoded ∧ clean_seg algo ∧ clean_seg encoded ∧
  free_of (λ c, bool_decide (c = "."%char)) encoded.
Proof.
  unfold splitDigest, ociDigestRE. set (d := TrimSpace digest).
  destruct (digest_algorithm false d) as [rest|] eqn:E; [|done].
  apply digest_algorithm_spec in E as (a & Hd & Ha & Hc). destruct (Hc eq_refl) as (c & t & -> & Hl). clear Hc.
  destruct (negb (bool_decide (rest = "")) && every_char encoded_char rest) eqn:Hr; [|done].
  apply andb_true_iff in Hr as [Hne Hr]. apply negb_true_iff, bool_decide_eq_false in Hne. cbn [negb].
  rewrite Hd, (Cut_char ":"%char) by (eapply every_char_free; [|exact Ha]; by intros x [? ?]%algorithm_char_free).
  intros [= <- <-]. split; [done|]. split; [|split].
  - split; [done|]. split; [by intros [= -> ->]|]. split; [by intros [= -> ->]|].
    eapply every_char_free; [|exact Ha]. by intros x [? ?]%algorithm_char_free.
  - split; [done|]. split; [by intros ->|]. split; [by intros ->|].
    eapply every_char_free; [|exact Hr]. by intros x [? ?]%encoded_char_free.
  - eapply every_char_free; [|exact Hr]. by intros x [? ?]%encoded_char_free.
Qed.

(** A scope identifier that [filepath.Join] does not interpret. *)
Definition plain_id (id : string) : Prop := TrimSpace id ≠ "." ∧ TrimSpace id ≠ "..".

Lemma pathComponent_clean name id x :
  plain_id id → pathComponent name id = Ok x → clean_seg x ∧ x = PathEscape (TrimSpace id).
Proof.
  intros [H1 H2]. unfold pathComponent. case_decide; [done|]. intros [= <-]. split; [by apply PathEscape_clean|done].
Qed.

Definition kind_ok (kind : string) : Prop := kind = OCIArtifactManifest ∨ kind = OCIArtifactBlob.
Lemma kind_clean kind : kind_ok kind → clean_seg kind.
Proof. intros [->| ->]; by vm_compute. Qed.

(** All elements of an explicit list are ordinary. *)
#[local] Ltac plain_segs :=
  repeat apply Forall_cons_2; try apply Forall_nil_2; try assumption; by apply kind_clean.

Lemma Ok_pair_inj {A B} (a a' : A) (b b' : B) : Ok (a, b) = Ok (a', b') → a' = a ∧ b' = b.
Proof. intros H. by injection H. Qed.

Section paths.
Context (c : DiskCache) (root_ok : rootDir c ≠ "").

Definition root_stack : list string := path_stack (rootDir c).
Notation rooted := (HasPrefix (rootDir c) "/").

(** The elements of the data path of an entry, without its extension. *)
Definition entry_stack (t u k algo encoded : string) : list string :=
  [encoded; algo; k; PathEscape (TrimSpace u); PathEscape (TrimSpace t)] ++ root_stack.

Lemma scopeRoot_render t u root :
  plain_id t → plain_id u → scopeRoot c t u = Ok root →
  let st := [PathEscape (TrimSpace u); PathEscape (TrimSpace t)] ++ root_stack in
  root = render rooted st ∧ stack_ok rooted st.
Proof.
  intros Ht Hu. unfold scopeRoot.
  destruct (pathComponent "tenant_id" t) as [x|] eqn:Ex; [|done].
  destruct (pathComponent "upstream_id" u) as [y|] eqn:Ey; [|done]. intros E.
  assert (root = PathJoin [rootDir c; x; y]) as -> by (injection E as <-; done). clear E.
  apply pathComponent_clean in Ex as [Hx ->]; [|done]. apply pathComponent_clean in Ey as [Hy ->]; [|done].
  split; [|apply (stack_ok_app _ [PathEscape (TrimSpace u); PathEscape (TrimSpace t)]); [plain_segs|apply path_stack_ok]].
  rewrite PathJoin_below; [done|done|done|plain_segs].
Qed.

Lemma finalPaths_render t u k d p q :
  plain_id t → plain_id u → kind_ok k → finalPaths c t u k d = Ok (p, q) →
  ∃ algo encoded, TrimSpace d = algo +:+ ":" +:+ encoded ∧
    let st := entry_stack t u k algo encoded in
    stack_ok rooted st ∧ p = render rooted st +:+ ".data" ∧ q = render rooted st +:+ ".meta.json".
Proof.
  intros Ht Hu Hk. unfold finalPaths.
  destruct (splitDigest d) as [[algo encoded]|] eqn:Ed; [|done]. apply splitDigest_spec in Ed as (Hd & Ha & He & _).
  cbn [mbind result_bind]. destruct (scopeRoot c t u) as [root|] eqn:Er; [|done].
  apply scopeRoot_render in Er as [-> Hst]; [|done..].
  intros [-> ->]%Ok_pair_inj. exists algo, encoded. split; [done|].
  pose proof (path_stack_render _ _ Hst) as (Hne & Hr & Hps).
  rewrite PathJoin_below; [|done|done|plain_segs].
  rewrite Hr, Hps. split; [|done]. apply (stack_ok_app _ [encoded; algo; k]); [|done].
  plain_segs.
Qed.

Lemma finalPaths_inj t u k d t' u' k' d' p q p' q' :
  plain_id t → plain_id u → plain_id t' → plain_id u' → kind_ok k → kind_ok k' →
  finalPaths c t u k d = Ok (p, q) → finalPaths c t' u' k' d' = Ok (p', q') → p = p' ∨ q = q' →
  TrimSpace t = TrimSpace t' ∧ TrimSpace u = TrimSpace u' ∧ k = k' ∧ TrimSpace d = TrimSpace d'.
Proof.
  intros Ht Hu Ht' Hu' Hk Hk' H H'.
  apply finalPaths_render in H as (a & e & -> & Hs & -> & ->); [|done..].
  apply finalPaths_render in H' as (a' & e' & -> & Hs' & -> & ->); [|done..]. intros E.
  assert (render rooted (entry_stack t u k a e) = render rooted (entry_stack t' u' k' a' e')) as Er.
  { destruct E as [E|E]; by apply sapp_inj_tail in E as [E _]. }
  apply render_inj in Er; [|done..]. injection Er as -> -> -> Eu Et.
  split; [by apply PathEscape_inj|]. split; [by apply PathEscape_inj|done].
Qed.
End paths.

(** ** Limits *)

Definition drop_file (fs : gmap string File) (f : cachedFile) : gmap string File :=
  delete (metaPath f) (delete (dataPath f) fs).
Definition drop_all (l : list cachedFile) (fs : gmap string File) : gmap string File := foldl drop_file fs l.

Definition total_size (l : list cachedFile) : Z := foldr (λ f n, size f + n) 0 l.

Definition entry_of (path : string) (x : File) : cachedFile :=
  mkCachedFile path (TrimSuffix path ".data" +:+ ".meta.json") (size_of (content x)) (modTime x).

(** The entries of a scope. *)
Definition entries (root : string) (fs : gmap string File) : list cachedFile :=
  omap (λ p, if decide (Ext p ≠ ".data") then None else entry_of p <$> fs !! p) (walk root fs).

Definition expired (c : DiskCache) (now : time) (f : cachedFile) : Prop :=
  0 < maxAge c ∧ maxAge c < time_Sub now (cf_modTime f).

(** More entries, or more bytes, than a positive limit allows. *)
Definition over (c : DiskCache) (l : list cachedFile) : Prop :=
  0 < maxEntries c < Z.of_nat (length l) ∨ 0 < maxBytes c < total_size l.

Record within_limits (c : DiskCache) (now : time) (l : list cachedFile) : Prop := {
  wl_age : Forall (λ f, ¬ expired c now f) l;
  wl_capacity : ¬ over c l;
}.

(** Why an entry may go: it has expired, or it is the oldest of entries that
    exceed the capacity together. *)
Definition may_go (c : DiskCache) (now : time) (left : list cachedFile) (f : cachedFile) : Prop :=
  expired c now f ∨
  ∃ later, let l := f :: later ++ left in
    over c l ∧ Forall (λ g, cf_modTime f <= cf_modTime g) (later ++ left).

Lemma capacityExceeded_spec c l :
  capacityExceeded c (Z.of_nat (length l)) (total_size l) = true ↔ over c l.
Proof.
  unfold capacityExceeded, over. cbv zeta. rewrite orb_true_iff, !andb_true_iff, !bool_decide_eq_true. tauto.
Qed.

Lemma set_files_same w : set_files (files w) w = w.
Proof. by destruct w. Qed.

Lemma set_files_twice f g w : set_files f (set_files g w) = set_files f w.
Proof. done. Qed.

Lemma run_remove_quietly p w : run (remove_quietly p) [] w = (tt, set_files (delete p (files w)) w).
Proof.
  unfold remove_quietly. rewrite run_bind. cbn [perform run head tail default exec].
  destruct (files w !! p) eqn:E; cbn [fst snd run]; [done|].
  rewrite delete_id by done. by rewrite set_files_same.
Qed.

Lemma run_remove_if_present what p w :
  run (remove_if_present what p) [] w = (Ok (), set_files (delete p (files w)) w).
Proof.
  unfold remove_if_present. rewrite run_bind. cbn [perform run head tail default exec].
  destruct (files w !! p) eqn:E; cbn [fst snd run]; [done|].
  rewrite delete_id by done. by rewrite set_files_same.
Qed.

Lemma run_removeCachedFile f w :
  run (removeCachedFile f) [] w = (Ok (), set_files (drop_file (files w) f) w).
Proof. unfold removeCachedFile. rewrite run_bind, run_remove_if_present. cbn [fst snd]. by rewrite run_remove_if_present. Qed.

Definition not_fresh (c : DiskCache) (now : time) (f : cachedFile) : Prop := ¬ time_Sub now (cf_modTime f) <= maxAge c.
#[local] Instance not_fresh_dec c now f : base.Decision (not_fresh c now f).
Proof. unfold not_fresh. apply _. Defined.

Lemma run_keep_fresh c now l w :
  run (keep_fresh c now l) [] w =
  (Ok (filter (λ f, ¬ not_fresh c now f) l), set_files (drop_all (filter (not_fresh c now) l) (files w)) w).
Proof.
  revert w. induction l as [|f l IH]; intros w; [by simpl; rewrite set_files_same|]. cbn [keep_fresh].
  rewrite !filter_cons. case_decide as H.
  - rewrite (decide_True (P := ¬ not_fresh c now f)) by (unfold not_fresh; tauto).
    rewrite (decide_False (P := not_fresh c now f)) by (unfold not_fresh; tauto). by rewrite run_bind, IH.
  - rewrite (decide_False (P := ¬ not_fresh c now f)) by (unfold not_fresh; tauto).
    rewrite (decide_True (P := not_fresh c now f)) by done.
    rewrite run_bind, run_removeCachedFile. cbn [fst snd]. by rewrite IH.
Qed.

Lemma run_collect_files ps w :
  Forall (λ p, is_Some (files w !! p)) ps →
  run (collect_files ps) [] w =
  (Ok (omap (λ p, if decide (Ext p ≠ ".data") then None else entry_of p <$> files w !! p) ps), w).
Proof.
  induction 1 as [|p ps [x Hx] _ IH]; [done|]. cbn [collect_files omap list_omap].
  case_decide; [done|]. rewrite run_bind. cbn [perform run head tail default exec]. rewrite Hx. cbn [fst snd].
  rewrite run_bind, IH. done.
Qed.

Lemma walk_elem root fs p : p ∈ walk root fs ↔ is_Some (fs !! p) ∧ visited ".tmp" root p = true.
Proof.
  unfold walk. rewrite sort_by_elem, list_elem_of_filter. rewrite list_elem_of_fmap.
  split.
  - intros [? ([q x] & -> & H)]. apply elem_of_map_to_list in H. eauto.
  - intros [[x H] ?]. split; [done|]. exists (p, x). split; [done|]. by apply elem_of_map_to_list.
Qed.

Lemma walk_NoDup root fs : NoDup (walk root fs).
Proof. unfold walk. rewrite sort_by_perm. apply NoDup_filter, NoDup_fst_map_to_list. Qed.

Lemma run_collectScopedFiles root w :
  run (collectScopedFiles root) [] w = (Ok (entries root (files w)), w).
Proof.
  unfold collectScopedFiles. rewrite run_bind. cbn [perform run head tail default exec fst snd].
  rewrite run_bind, run_collect_files; [done|]. apply Forall_forall. by intros p [? _]%walk_elem.
Qed.

Lemma wrap64_small z : 0 <= z < 2 ^ 63 → wrap64 z = z.
Proof. intros H. unfold wrap64. rewrite Z.mod_small; lia. Qed.

Notation sized l := (Forall (λ f, 0 <= size f) l).

Lemma total_size_nonneg l : sized l → 0 <= total_size l.
Proof. induction 1; cbn [total_size foldr]; [lia|]. unfold total_size in *. lia. Qed.

Lemma total_size_app a b : total_size (a ++ b) = total_size a + total_size b.
Proof. induction a as [|f a IH]; [done|]. cbn [app total_size foldr]. unfold total_size in *. rewrite IH. lia. Qed.

Lemma total_size_perm a b : a ≡ₚ b → total_size a = total_size b.
Proof. induction 1; unfold total_size in *; simpl; lia. Qed.

Lemma cachedFilesSize_total l : sized l → total_size l < 2 ^ 63 → cachedFilesSize l = total_size l.
Proof.
  intros Hs Hl. unfold cachedFilesSize.
  assert (∀ n, 0 <= n → n + total_size l < 2 ^ 63 → foldl (λ n f, wrap64 (n + size f)) n l = n + total_size l) as H.
  { clear Hl. induction Hs as [|f l Hf Hs IH]; intros n Hn Hl; [simpl; lia|].
    pose proof (total_size_nonneg l Hs). change (total_size (f :: l)) with (size f + total_size l) in *.
    cbn [foldl]. rewrite wrap64_small, IH by lia. lia. }
  rewrite H; lia.
Qed.

(** The loop evicts a prefix of the files, the shortest that fits. *)
Lemma run_evict c l w :
  sized l → total_size l < 2 ^ 63 →
  ∃ gone kept, l = gone ++ kept ∧
    run (evict c (total_size l) l) [] w = (Ok (), set_files (drop_all gone (files w)) w) ∧
    ¬ over c kept ∧ ∀ a f b, gone = a ++ f :: b → over c (f :: b ++ kept).
Proof.
  intros Hs. revert w. induction Hs as [|f l Hf Hs IH]; intros w Hl.
  - exists [], []. cbn [evict run app drop_all foldl]. rewrite set_files_same. split; [done|]. split; [done|].
    split; [unfold over; simpl; lia|intros [|] ? ?; done].
  - pose proof (total_size_nonneg l Hs). change (total_size (f :: l)) with (size f + total_size l) in *.
    cbn [evict]. change (size f + total_size l) with (total_size (f :: l)).
    destruct (capacityExceeded c _ _) eqn:E.
    + destruct (IH (set_files (drop_file (files w) f) w)) as (gone & kept & -> & Hr & Hk & Hg); [lia|].
      exists (f :: gone), kept. split; [done|]. split; [|split; [done|]].
      * rewrite run_bind, run_removeCachedFile. cbn [fst snd].
        change (total_size (f :: gone ++ kept)) with (size f + total_size (gone ++ kept)). rewrite wrap64_small by lia.
        replace (size f + total_size (gone ++ kept) - size f) with (total_size (gone ++ kept)) by lia. by rewrite Hr.
      * apply capacityExceeded_spec in E. intros [|g a] h b [= -> Hgb]; [by subst b|]. by eapply Hg.
    + exists [], (f :: l). cbn [run drop_all foldl app]. rewrite set_files_same. split; [done|]. split; [done|].
      split; [rewrite <-capacityExceeded_spec; congruence|]. intros [|] ? ?; done.
Qed.

Lemma Ext_data p : Ext p = ".data" → ∃ a, p = a +:+ ".data".
Proof.
  unfold Ext. destruct (CutLast p ".") as [[a b]|] eqn:E; [|done]. apply CutLast_spec in E as ->.
  case_bool_decide; [|done]. intros H'. exists a. by rewrite H'.
Qed.

Lemma meta_of_data a : TrimSuffix (a +:+ ".data") ".data" +:+ ".meta.json" = a +:+ ".meta.json".
Proof. unfold TrimSuffix. by rewrite CutSuffix_app. Qed.

Lemma meta_not_data a b : a +:+ ".meta.json" ≠ b +:+ ".data".
Proof.
  intros H. change ".meta.json" with (".meta" +:+ ".json") in H. rewrite <-sapp_assoc in H.
  by apply sapp_inj_tail in H as [_ ?].
Qed.

Lemma entries_elem root fs e :
  e ∈ entries root fs ↔
  ∃ x, fs !! dataPath e = Some x ∧ e = entry_of (dataPath e) x ∧
       visited ".tmp" root (dataPath e) = true ∧ Ext (dataPath e) = ".data".
Proof.
  unfold entries. rewrite list_elem_of_omap. split.
  - intros (p & [_ Hv]%walk_elem & H). case_decide as Hd; [done|].
    destruct (fs !! p) as [x|] eqn:Hx; [|done]. injection H as <-. exists x. simpl. by rewrite Hd.
  - intros (x & Hx & He & Hv & Hd). exists (dataPath e). split; [apply walk_elem; eauto|].
    rewrite decide_False by tauto. rewrite Hx. simpl. by rewrite <-He.
Qed.

Lemma entries_NoDup root fs : NoDup (entries root fs).
Proof.
  unfold entries. pose proof (walk_NoDup root fs) as H. induction H as [|p l Hp _ IH]; [constructor|].
  simpl. case_decide; [done|]. destruct (fs !! p) as [x|]; [|done]. simpl. constructor; [|done].
  intros (q & Hq & E)%list_elem_of_omap. case_decide; [done|]. destruct (fs !! q) as [y|]; [|done].
  injection E as -> _ _ _. done.
Qed.

Lemma entries_sized root fs : sized (entries root fs).
Proof.
  apply Forall_forall. intros e (x & _ & -> & _)%entries_elem. simpl.
  unfold size_of. repeat case_match; lia.
Qed.

Lemma entries_paths root fs e :
  e ∈ entries root fs → ∃ a, dataPath e = a +:+ ".data" ∧ metaPath e = a +:+ ".meta.json".
Proof.
  intros (x & _ & He & _ & [a Ha]%Ext_data)%entries_elem. exists a. split; [done|].
  rewrite He, Ha. apply meta_of_data.
Qed.

Lemma drop_all_None l fs f p : f ∈ l → p = dataPath f ∨ p = metaPath f → drop_all l fs !! p = None.
Proof.
  assert (Hkeep : ∀ l fs, fs !! p = None → drop_all l fs !! p = None).
  { clear. induction l as [|g l IH]; intros fs H; [done|]. apply IH. unfold drop_file.
    rewrite !lookup_delete. repeat case_decide; done. }
  intros Hf Hp. revert fs. induction l as [|g l IH]; intros fs; [by apply elem_of_nil in Hf|].
  apply elem_of_cons in Hf as [<-|Hf]; [|by apply IH].
  change (drop_all (f :: l) fs) with (drop_all l (drop_file fs f)). apply Hkeep. unfold drop_file. destruct Hp as [->| ->]; [|by rewrite lookup_delete_eq].
  rewrite !lookup_delete. repeat case_decide; done.
Qed.

Lemma drop_all_other l fs p :
  Forall (λ f, p ≠ dataPath f ∧ p ≠ metaPath f) l → drop_all l fs !! p = fs !! p.
Proof.
  intros H. revert fs. induction H as [|f l [H1 H2] _ IH]; intros fs; [done|].
  unfold drop_all in *. cbn [foldl]. rewrite IH. unfold drop_file. by rewrite !lookup_delete_ne.
Qed.

Lemma drop_all_app a b fs : drop_all (a ++ b) fs = drop_all b (drop_all a fs).
Proof. apply foldl_app. Qed.

Lemma entries_drop root fs gone e :
  (∀ f, f ∈ gone → f ∈ entries root fs) →
  e ∈ entries root (drop_all gone fs) ↔ e ∈ entries root fs ∧ e ∉ gone.
Proof.
  intros Hg. rewrite !entries_elem. split.
  - intros (x & Hx & He & Hv & Hd).
    assert (Hno : ∀ f, f ∈ gone → dataPath e ≠ dataPath f ∧ dataPath e ≠ metaPath f).
    { intros f Hf. split; intros E; rewrite (drop_all_None gone fs f) in Hx; auto; done. }
    split; [|by intros [[] _]%Hno]. exists x.
    rewrite drop_all_other in Hx by (by apply Forall_forall). done.
  - intros [(x & Hx & He & Hv & Hd) Hn]. exists x. split; [|done].
    rewrite drop_all_other; [done|]. apply Forall_forall. intros f Hf. specialize (Hg f Hf). split; intros E.
    + apply entries_elem in Hg as (y & Hy & Hfe & _). rewrite <-E in Hy, Hfe. destruct Hn. congruence.
    + apply entries_paths in Hg as (a & _ & Hm). destruct (Ext_data _ Hd) as [b Hb].
      apply (meta_not_data a b). congruence.
Qed.

Lemma entries_remain root fs gone kept :
  entries root fs ≡ₚ gone ++ kept → entries root (drop_all gone fs) ≡ₚ kept.
Proof.
  intros Hp. pose proof (entries_NoDup root fs) as Hnd. rewrite Hp in Hnd.
  apply NoDup_app in Hnd as (_ & Hd & Hk). apply NoDup_Permutation; [apply entries_NoDup|done|].
  intros e. rewrite entries_drop by (intros f Hf; rewrite Hp; set_solver). rewrite Hp. set_solver.
Qed.

#[export] Instance older_weak : StrictWeak older.
Proof. unfold older. split; intros *; rewrite ?Z.ltb_lt, ?Z.ltb_ge; lia. Qed.

Section enforcement.
Context {sorter : SortSlice}.

Lemma over_off c l : maxEntries c <= 0 → maxBytes c <= 0 → ¬ over c l.
Proof. unfold over. lia. Qed.

Lemma over_perm c l l' : l ≡ₚ l' → over c l → over c l'.
Proof. intros H. unfold over. by rewrite (Permutation_length H), (total_size_perm _ _ H). Qed.

Lemma run_enforceCapacityLimits c now l w :
  sized l → total_size l < 2 ^ 63 →
  ∃ gone kept, l ≡ₚ gone ++ kept ∧
    run (enforceCapacityLimits c l) [] w = (Ok (), set_files (drop_all gone (files w)) w) ∧
    ¬ over c kept ∧ Forall (may_go c now kept) gone.
Proof.
  intros Hs Hl. unfold enforceCapacityLimits. case_decide as Hoff.
  { exists [], l. cbn [run drop_all foldl]. rewrite set_files_same. split; [done|]. split; [done|].
    split; [by apply over_off; apply Hoff|constructor]. }
  pose proof (sort_Slice_perm older l) as Hp. pose proof (sort_Slice_sorted older l _) as Ho.
  set (l' := sort_Slice older l) in *. rewrite <-Hp in Hs. rewrite <-(total_size_perm _ _ Hp) in Hl.
  destruct (run_evict c l' w Hs Hl) as (gone & kept & Hl' & Hr & Hk & Hg). exists gone, kept.
  split; [by rewrite <-Hp, Hl'|]. rewrite cachedFilesSize_total by done. split; [done|]. split; [done|].
  apply Forall_forall. intros f Hf. right. apply list_elem_of_split in Hf as (a & b & Hgone).
  exists b. split; [by eapply Hg|]. rewrite Hl', Hgone in Ho. rewrite <-app_assoc in Ho. cbn [app] in Ho.
  apply StronglySorted_app in Ho as (_ & _ & Ho). apply StronglySorted_inv in Ho as [_ Ho].
  eapply Forall_impl; [exact Ho|]. unfold older. intros g. rewrite Z.ltb_ge. done.
Qed.

Lemma run_removeExpiredFiles c l now w :
  ∃ stale fresh, l ≡ₚ stale ++ fresh ∧
    run (removeExpiredFiles c l now) [] w = (Ok fresh, set_files (drop_all stale (files w)) w) ∧
    Forall (expired c now) stale ∧ Forall (λ f, ¬ expired c now f) fresh.
Proof.
  unfold removeExpiredFiles, expired. case_decide as Hoff.
  - exists [], l. cbn [run drop_all foldl]. rewrite set_files_same. split; [done|]. split; [done|].
    split; [constructor|]. apply Forall_forall. lia.
  - exists (filter (not_fresh c now) l), (filter (λ f, ¬ not_fresh c now f) l).
    split; [symmetry; apply filter_app_complement|]. split; [apply run_keep_fresh|].
    split; apply Forall_forall; intros f [Hf _]%list_elem_of_filter; unfold not_fresh in Hf; lia.
Qed.


(** C33: when no file operation fails, [Commit]'s clean-up leaves in the scope
    only entries within the age, count and size limits.  It removes nothing
    else: every removed entry has expired, or is the oldest of a set of entries
    that exceed the capacity together; no other file is touched. *)
Theorem enforceLimits_bounds c t u root w :
  scopeRoot c t u = Ok root → total_size (entries root (files w)) < 2 ^ 63 →
  ∃ gone w', run (enforceLimits c t u) [] w = (Ok (), w') ∧
    files w' = drop_all gone (files w) ∧
    (∀ f, f ∈ gone → f ∈ entries root (files w)) ∧
    within_limits c (clock w) (entries root (files w')) ∧
    Forall (may_go c (clock w) (entries root (files w'))) gone.
Proof.
  intros Hroot Hsize. unfold enforceLimits. case_decide as Hoff.
  { exists [], w. split; [done|]. split; [done|]. split; [set_solver|]. split; [|constructor]. split.
    - apply Forall_forall. intros f _ [? _]. lia.
    - apply over_off; tauto. }
  rewrite Hroot, run_bind, run_collectScopedFiles. cbn [fst snd]. rewrite run_bind.
  cbn [perform run head tail default exec fst snd]. rewrite run_bind.
  pose proof (entries_sized root (files w)) as Hsized.
  destruct (run_removeExpiredFiles c (entries root (files w)) (clock w) w) as (stale & fresh & Hes & -> & Hstale & Hfresh).
  cbn [fst snd]. rewrite Hes in Hsized. rewrite (total_size_perm _ _ Hes), total_size_app in Hsize.
  apply Forall_app in Hsized as [Hs1 Hs2]. pose proof (total_size_nonneg _ Hs1).
  destruct (run_enforceCapacityLimits c (clock w) fresh (set_files (drop_all stale (files w)) w))
    as (gone & kept & Hf & -> & Hcap & Hgo); [done|lia|].
  assert (Hall : entries root (files w) ≡ₚ (stale ++ gone) ++ kept) by (by rewrite Hes, Hf, app_assoc).
  exists (stale ++ gone). eexists. split; [done|]. rewrite Hf in Hfresh. apply Forall_app in Hfresh as [_ Hkept].
  cbn [files set_files]. rewrite <-drop_all_app. split; [done|]. split; [intros f Hin; rewrite Hall; set_solver|].
  pose proof (entries_remain _ _ _ _ Hall) as Hr. split.
  - split; [by rewrite Hr|]. intros Ho. by apply Hcap, (over_perm _ _ _ Hr).
  - apply Forall_app. split; [by eapply Forall_impl; [exact Hstale|]; left|].
    eapply Forall_impl; [exact Hgo|]. intros f [?|(later & Hx & Hl)]; [by left|right].
    assert (Hp : f :: later ++ kept ≡ₚ f :: later ++ entries root (drop_all (stale ++ gone) (files w))) by (by rewrite Hr).
    exists later. split; [by apply (over_perm _ _ _ Hp)|by rewrite Hr].
Qed.
End enforcement.

Lemma finalPaths_base c t u k d p q :
  finalPaths c t u k d = Ok (p, q) → ∃ base, p = base +:+ ".data" ∧ q = base +:+ ".meta.json".
Proof.
  unfold finalPaths. destruct (splitDigest d) as [[a e]|]; [|done]. cbn [mbind result_bind].
  destruct (scopeRoot c t u); [|done]. intros [-> ->]%Ok_pair_inj. by eexists.
Qed.

Lemma finalPaths_final c t u k d p q : finalPaths c t u k d = Ok (p, q) → final_name p ∧ final_name q.
Proof. intros (a & -> & ->)%finalPaths_base. split; exists a; [by left|by right]. Qed.

Lemma finalPaths_data_meta c t u k d p q t' u' k' d' p' q' :
  finalPaths c t u k d = Ok (p, q) → finalPaths c t' u' k' d' = Ok (p', q') → p ≠ q'.
Proof. intros (a & -> & _)%finalPaths_base (a' & _ & ->)%finalPaths_base H. by eapply meta_not_data. Qed.

(** ** Sessions publish what was written *)

Section publication.
Context (Pub : string → Content → Prop) {sorter : SortSlice}.
Notation safe := (safe Pub).
Notation anything := (λ _ _, True).

(** The state of an open session that has written [b]. *)
Record session_ok (o : owned) (s : diskWriteSession) (b : string) : Prop := {
  so_open : file_open s = true ∧ aborted s = false ∧ committed s = false;
  so_temp : owns o (tempDataPath s);
  so_meta : owns o (tempDataPath s +:+ ".meta");
  so_data : final_name (finalData s) ∧ final_name (finalMeta s);
  so_known : known o !! tempDataPath s = Some (Bytes b);
}.

Lemma temp_meta_other p : p +:+ ".meta" ≠ p.
Proof. intros H. apply (f_equal String.length) in H. rewrite sapp_length in H. simpl in H. lia. Qed.

Lemma remove_quietly_safe {A} (Q : owned → A → Prop) o p (k : () → Prog A) :
  owns o p ∨ final_name p → safe Q (set_known (delete p (known o)) o) (k ()) → safe Q o (remove_quietly p ≫= k).
Proof. intros Hp Hk. split; [exact Hp|]. intros r o' ->. exact Hk. Qed.

Lemma remove_if_present_safe what o p : final_name p → safe anything o (remove_if_present what p).
Proof. intros Hp. by split; [right|]. Qed.

Lemma removeCachedFile_safe o f :
  final_name (dataPath f) → final_name (metaPath f) → safe anything o (removeCachedFile f).
Proof.
  intros H1 H2. eapply safe_bind; [by apply remove_if_present_safe|].
  intros o' [u|e] _; [by apply remove_if_present_safe|done].
Qed.

Definition final_file (f : cachedFile) : Prop := final_name (dataPath f) ∧ final_name (metaPath f).

Lemma collect_files_safe o ps :
  safe (λ _ r, ∀ l, r = Ok l → Forall final_file l) o (collect_files ps).
Proof.
  revert o. induction ps as [|p ps IH]; intros o; cbn [collect_files].
  - intros l [= <-]. constructor.
  - case_decide as Hd; [apply IH|]. apply safe_do; [done|]. intros [[n t]|e] o' _; [|done].
    eapply safe_bind; [apply IH|]. intros o2 [l|e] Hl; [|done]. intros l' [= <-].
    constructor; [|by apply Hl]. apply Ext_data in Hd as [a ->].
    split; [by exists a; left|]. cbn [metaPath]. rewrite meta_of_data. by exists a; right.
Qed.

Lemma keep_fresh_safe c now o l :
  Forall final_file l → safe (λ _ r, ∀ l, r = Ok l → Forall final_file l) o (keep_fresh c now l).
Proof.
  intros H. revert o. induction H as [|f l [H1 H2] _ IH]; intros o; cbn [keep_fresh].
  - intros l [= <-]. constructor.
  - case_decide.
    + eapply safe_bind; [apply IH|]. intros o2 [k|e] Hk; [|done]. intros l' [= <-].
      constructor; [done|by apply Hk].
    + eapply safe_bind; [by apply removeCachedFile_safe|]. intros o2 [u|e] _; [apply IH|done].
Qed.

Lemma evict_safe c n o l : Forall final_file l → safe anything o (evict c n l).
Proof.
  intros H. revert o n. induction H as [|f l [H1 H2] _ IH]; intros o n; cbn [evict]; [done|].
  destruct (capacityExceeded _ _ _); [|done]. eapply safe_bind; [by apply removeCachedFile_safe|].
  intros o2 [u|e] _; [apply IH|done].
Qed.

Lemma enforceLimits_safe c t u o : safe anything o (enforceLimits c t u).
Proof.
  unfold enforceLimits. case_decide; [done|]. destruct (scopeRoot c t u) as [root|e]; [|done].
  eapply safe_bind with (Q := λ _ r, ∀ l, r = Ok l → Forall final_file l).
  - apply safe_do; [done|]. intros [ps|e] o' _; [|done].
    eapply safe_bind; [apply collect_files_safe|]. intros o2 [l|e] Hl; [|done]. intros l' [= <-]. by apply Hl.
  - intros o1 [l|e] Hl; [|done]. apply safe_do; [done|]. intros [now|e] o2 _; [|done].
    eapply safe_bind with (Q := λ _ r, ∀ l, r = Ok l → Forall final_file l).
    + unfold removeExpiredFiles. case_decide; [by intros l' [= <-]; apply Hl|by apply keep_fresh_safe, Hl].
    + intros o3 [l'|e] Hl'; [|done]. unfold enforceCapacityLimits. case_decide; [done|].
      apply evict_safe. rewrite sort_Slice_perm. by apply Hl'.
Qed.

Lemma StartWrite_safe c t u k d desc o :
  safe (λ o' r, ∀ s, r = Ok s → session_ok o' s "" ∧
          finalPaths c t u k d = Ok (finalData s, finalMeta s) ∧ descriptor s = desc) o
    (StartWrite c t u k d desc).
Proof.
  unfold StartWrite. destruct (finalPaths c t u k d) as [[data meta]|e] eqn:Hf; [|done].
  apply safe_do; [done|]. intros [v|e] o1 _; [|done].
  destruct (scopeRoot c t u) as [root|e] eqn:Hr; [|done]. apply safe_do; [done|].
  intros [v'|e] o2 _; [|done]. apply safe_do; [split; [by eexists|done]|].
  intros [path|e] o3 Ho; [|done]. destruct Ho as (n & Hn & Hm & ->). intros s [= <-].
  split; [|done]. split; simpl.
  - done.
  - exists n. set_solver.
  - exists n. set_solver.
  - by eapply finalPaths_final.
  - by rewrite lookup_insert_eq.
Qed.

Lemma session_Write_safe s p o b :
  session_ok o s b →
  safe (λ o' r, match r with Ok _ => session_ok o' s (b +:+ p) | Err _ => owns o' (tempDataPath s) end) o
    (session_Write s p).
Proof.
  intros [(Hop & Ha & Hc) Ht Hm Hd Hk]. unfold session_Write. rewrite Ha, Hc, Hop. split; [exact Ht|].
  intros r o' ->. destruct r as [v|e]; [|exact Ht]. split; try done. cbn [is_ok known set_known].
  by rewrite lookup_alter_eq, Hk.
Qed.

Lemma session_Abort_safe s o : owns o (tempDataPath s) → safe anything o (session_Abort s).
Proof.
  intros Ht. unfold session_Abort. destruct (aborted s || committed s); [done|].
  assert (∀ o', owns o' (tempDataPath s) → safe anything o' (Do (Remove (tempDataPath s)) (λ r,
    let s := set_flags false true (committed s) s in
    match r with
    | Err e => if errors_Is e ErrNotExist then Ret (s, Ok ())
               else Ret (s, Err (wrap_error "removing cache temp file: " e))
    | Ok _ => Ret (s, Ok ())
    end))) as Hr.
  { intros o' Ho. split; [by left|]. intros [v|e] o2 _; [done|]. by destruct (errors_Is e ErrNotExist). }
  unfold close_file. destruct (file_open s); [|by apply Hr]. split; [done|]. intros r o' ->. by apply Hr.
Qed.

(** [Commit] publishes exactly what the session has written and its descriptor. *)
Lemma session_Commit_safe s o b :
  session_ok o s b → Pub (finalData s) (Bytes b) → Pub (finalMeta s) (Doc (descriptor s)) →
  safe anything o (session_Commit s).
Proof.
  intros [(Hop & Ha & Hc) Ht Hm [Hd Hd'] Hk] Hpub Hpub'. unfold session_Commit, close_file. rewrite Ha, Hc, Hop.
  cbn [orb]. apply safe_do; [done|]. intros [v|e] o1 ->; [|by apply remove_quietly_safe; [left|]].
  apply safe_do; [exact Hm|]. intros r o2 ->.
  destruct r as [v'|e]; [|by apply remove_quietly_safe; [left|]].
  apply safe_do; [done|]. intros r o3 ->.
  assert (Hboth : ∀ o a, owns o (tempDataPath s) → owns o (tempDataPath s +:+ ".meta") →
    safe anything o (_ ← remove_quietly (tempDataPath s); _ ← remove_quietly (tempDataPath s +:+ ".meta");
                     Ret (A:=diskWriteSession * result ()) a)).
  { intros o' a H1 H2. apply remove_quietly_safe; [by left|]. by apply remove_quietly_safe; [left|]. }
  destruct r as [v''|e]; [by apply Hboth|]. destruct (negb (errors_Is e ErrNotExist)); [by apply Hboth|].
  apply safe_do.
  { split; [exact Ht|]. split; [exact Hd|]. exists (Bytes b). split; [|exact Hpub]. cbn [is_ok known set_known].
    rewrite lookup_insert_ne; [exact Hk|apply temp_meta_other]. }
  intros r o4 ->. destruct r as [v''|e']; [|by apply Hboth].
  apply safe_do.
  { split; [exact Hm|]. split; [exact Hd'|]. exists (Doc (descriptor s)). split; [|exact Hpub']. cbn [is_ok known set_known].
    rewrite lookup_delete_ne; [by rewrite lookup_insert_eq|]. intros E. symmetry in E. by apply temp_meta_other in E. }
  intros r o5 ->. destruct r as [v3|e'].
  - eapply safe_bind; [apply enforceLimits_safe|]. done.
  - apply remove_quietly_safe; [by right|]. by apply remove_quietly_safe; [left|].
Qed.

Lemma Get_safe c t u k d o :
  safe (λ _ r, ∀ resp, r = Ok resp → ∃ data meta body m,
          finalPaths c t u k d = Ok (data, meta) ∧ Pub data body ∧ Pub meta (Doc m) ∧
          resp = mkArtifactResponse 200 (meta_ContentType m) (meta_Headers m) (Some body)) o
    (Get c t u k d).
Proof.
  unfold Get. destruct (finalPaths c t u k d) as [[data meta]|e] eqn:Hf; [|done].
  destruct (finalPaths_final _ _ _ _ _ _ _ Hf) as [Hd Hm].
  apply safe_do; [done|]. intros [[m|]|e] o1 Ho; [|done|done]. destruct Ho as [-> Hpm].
  apply safe_do; [done|]. intros [body|e] o2 Ho; [|done]. destruct Ho as [-> Hpd].
  intros resp [= <-]. exists data, meta, body, m. auto.
Qed.
End publication.

(** [sort.Slice] by insertion, for concrete runs. *)
Definition insertion_sort : SortSlice :=
  {| sort_Slice A := sort_by; sort_Slice_perm A := sort_by_perm; sort_Slice_sorted A less l H := sort_by_sorted less l |}.

(** ** Properties *)

Lemma scopeRoot_trim c t u t' u' :
  TrimSpace t = TrimSpace t' → TrimSpace u = TrimSpace u' → scopeRoot c t u = scopeRoot c t' u'.
Proof. intros Ht Hu. unfold scopeRoot, pathComponent. by rewrite Ht, Hu. Qed.

Lemma splitDigest_trim d d' : TrimSpace d = TrimSpace d' → splitDigest d = splitDigest d'.
Proof. intros H. unfold splitDigest. by rewrite H. Qed.

(** Two cache entries share a file exactly when they are for the same tenant,
    upstream, kind and digest (up to surrounding white space), for identifiers
    other than [.] and [..]. *)
Theorem finalPaths_separate c t u k d t' u' k' d' p q p' q' :
  rootDir c ≠ "" → plain_id t → plain_id u → plain_id t' → plain_id u' → kind_ok k → kind_ok k' →
  finalPaths c t u k d = Ok (p, q) → finalPaths c t' u' k' d' = Ok (p', q') →
  (p = p' ∨ q = q' ↔
   TrimSpace t = TrimSpace t' ∧ TrimSpace u = TrimSpace u' ∧ k = k' ∧ TrimSpace d = TrimSpace d').
Proof.
  intros Hroot Ht Hu Ht' Hu' Hk Hk' H H'. split.
  - by eapply finalPaths_inj.
  - intros (Et & Eu & <- & Ed). left. revert H H'. unfold finalPaths.
    rewrite (splitDigest_trim d' d), (scopeRoot_trim c t' u' t u) by done. intros H H'. congruence.
Qed.

Definition ex_limits : DiskCache := mkDiskCache "/c" 10 0 1.

Lemma finalPaths_separate_witness :
  "/c/a%2Fb/u/blobs/sha256/0f.data" = "/c/a/b%2Fu/blobs/sha256/0f.data" ∨
  "/c/a%2Fb/u/blobs/sha256/0f.meta.json" = "/c/a/b%2Fu/blobs/sha256/0f.meta.json" ↔
  "a/b" = "a" ∧ "u" = "b/u" ∧ OCIArtifactBlob = OCIArtifactBlob ∧ "sha256:0f" = "sha256:0f".
Proof.
  apply (finalPaths_separate ex_limits "a/b" "u" OCIArtifactBlob "sha256:0f" " a " "b/u" OCIArtifactBlob "sha256:0f");
    first [by right|by vm_compute].
Defined.

(** An identifier [..] is not escaped: such a scope lies outside the root
    directory of the cache, and two tenants with an upstream of that name share
    their entries. *)
Theorem dot_ids_leave_scope :
  finalPaths ex_limits ".." "u" OCIArtifactBlob "sha256:0f" =
    Ok ("/u/blobs/sha256/0f.data", "/u/blobs/sha256/0f.meta.json") ∧
  finalPaths ex_limits "tenant-a" ".." OCIArtifactBlob "sha256:0f" =
  finalPaths ex_limits "tenant-b" ".." OCIArtifactBlob "sha256:0f".
Proof. by vm_compute. Qed.

(** A scope with three bodies, two of them over a limit of one entry. *)
Definition ex_full : World :=
  mkWorld (list_to_map [("/c/t/u/blobs/sha256/aa.data", mkFile (Bytes "one") 5);
                        ("/c/t/u/blobs/sha256/aa.meta.json", mkFile (Doc (mkArtifactMetadata "" ∅)) 5);
                        ("/c/t/u/blobs/sha256/bb.data", mkFile (Bytes "two") 9);
                        ("/c/t/u/manifests/sha256/cc.data", mkFile (Bytes "three") 7);
                        ("/c/t/v/blobs/sha256/aa.data", mkFile (Bytes "other") 1)]) 0 10.

Lemma enforceLimits_bounds_witness :
  ∃ gone w', run (enforceLimits (sorter:=insertion_sort) ex_limits "t" "u") [] ex_full = (Ok (), w') ∧
    files w' = drop_all gone (files ex_full) ∧
    (∀ f, f ∈ gone → f ∈ entries "/c/t/u" (files ex_full)) ∧
    within_limits ex_limits 10 (entries "/c/t/u" (files w')) ∧
    Forall (may_go ex_limits 10 (entries "/c/t/u" (files w'))) gone.
Proof. apply (enforceLimits_bounds (sorter:=insertion_sort) ex_limits "t" "u" "/c/t/u" ex_full); by vm_compute. Defined.

Example enforceLimits_ex :
  (λ w, (map_to_list (files w)).*1) (run (enforceLimits (sorter:=insertion_sort) ex_limits "t" "u") [] ex_full).2 ≡ₚ
  ["/c/t/u/blobs/sha256/bb.data"; "/c/t/v/blobs/sha256/aa.data"].
Proof. vm_compute. first [done|apply perm_swap]. Qed.
