(* ===== verification/OciClient.v ===== *)
(** * The client of OCI registries

    [internal/infra/upstream]: requests to a registry with the credentials of the
    upstream, the bearer-token exchange a registry asks for ([oci_bearer.go]), the
    cache of tokens ([oci_token_cache.go]) and the operations of the client
    ([oci.go], [oci_requests.go], [oci_headers.go]).  [http.Client.Do] is a port;
    the cache is part of the world.  A request keeps its parsed URL; the text of a
    token URL is assumed to parse back. *)

From stdpp Require Import pretty.
From S2P Require Import Prelude GoStrings GoPath Paths Json JsonDecode JsonParse Base64 URL Artifact Dependency Upstream PolicyConfig Policy.
From S2P Require Import AdminTables PolicyStore UpstreamStore Effects Secrets ProxyFlow Delivery OciCache.
#[local] Open Scope list_scope.

(** ** Definitions *)

(** *** HTTP *)

(** The headers the client sets; the empty string is an absent header. *)
Record OutRequest : Type := mkOutRequest {
  rq_Method : string;
  rq_URL : URL;
  rq_Accept : string;
  rq_Authorization : string;
}.

Definition set_Authorization (a : string) (r : OutRequest) : OutRequest :=
  mkOutRequest (rq_Method r) (rq_URL r) (rq_Accept r) a.

(** Header names in canonical form. *)
Record InResponse : Type := mkInResponse { rs_StatusCode : Z; rs_Header : gmap string string; rs_Body : string }.

Definition header_Get (h : gmap string string) (name : string) : string := default "" (h !! name).

(** *** The token cache *)

Definition defaultBearerTokenCacheMaxEntries : Z := 128.
Definition defaultBearerTokenTTL : Z := 60000000000.
Definition bearerTokenExpirySkew : Z := 15000000000.

Record cachedBearerToken : Type := mkCachedToken { token : string; expiresAt : time }.
Record bearerTokenCache : Type := mkTokenCache { maxEntries : Z; token_entries : gmap string cachedBearerToken }.

Definition newBearerTokenCache (n : Z) : bearerTokenCache :=
  mkTokenCache (if decide (n ≤ 0) then defaultBearerTokenCacheMaxEntries else n) ∅.

Definition repositoryFromOCIPath (path : string) : option string :=
  if HasPrefix path "/v2/" then
    let after := TrimPrefix path "/v2/" in
    let try (marker : string) (otherwise : option string) :=
      match Cut after marker with
      | Some (repository, _) => if decide (repository ≠ "") then Some repository else otherwise
      | None => otherwise
      end in
    try "/manifests/" (try "/blobs/" None)
  else None.

(** Whose token it is. *)
Definition principal (auth : option UpstreamAuth) : string :=
  match auth with None => "anonymous" | Some a => auth_Type a +:+ ":" +:+ Username a end.

Definition bearerTokenCacheKey (req : OutRequest) (u : Upstream) : option string :=
  if decide (from_option auth_Type "" (Auth u) = UpstreamAuthBearerToken) then None
  else match repositoryFromOCIPath (Path (rq_URL req)) with
  | None => None
  | Some repository =>
      Some (up_TenantID u +:+ "|" +:+ up_ID u +:+ "|" +:+ Scheme (rq_URL req) +:+ "://" +:+ urlHost (rq_URL req) +:+ "|" +:+
            repository +:+ "|" +:+ principal (Auth u))
  end.

Definition token_Get (now : time) (key : string) (c : bearerTokenCache) : option string * bearerTokenCache :=
  if decide (key = "") then (None, c)
  else match token_entries c !! key with
  | None => (None, c)
  | Some e => if decide (now < expiresAt e) then (Some (token e), c)
              else (None, mkTokenCache (maxEntries c) (delete key (token_entries c)))
  end.

Definition live (now : time) (kv : string * cachedBearerToken) : Prop := now < expiresAt kv.2.
#[export] Instance live_dec now kv : base.Decision (live now kv) := decide (now < expiresAt kv.2).

(** Room for one more entry: the expired ones go, else all. *)
Definition make_room (now : time) (c : bearerTokenCache) : gmap string cachedBearerToken :=
  let full (m : gmap string cachedBearerToken) := maxEntries c <=? Z.of_nat (base.size m) in
  let entries := if full (token_entries c) then filter (live now) (token_entries c) else token_entries c in
  if full entries then ∅ else entries.

Definition token_Set (now : time) (key tok : string) (ttl : Z) (c : bearerTokenCache) : bearerTokenCache :=
  if decide (key = "" ∨ tok = "") then c
  else
    let ttl := if decide (ttl ≤ 0) then defaultBearerTokenTTL else ttl in
    let expires := if decide (bearerTokenExpirySkew < ttl) then now + ttl - bearerTokenExpirySkew else now + ttl in
    mkTokenCache (maxEntries c) (<[key := mkCachedToken tok expires]> (make_room now c)).

(** *** Challenges and tokens *)

Definition alpha (c : ascii) : bool := in_range 65 90 c || in_range 97 122 c.

(** The matches of [bearerChallengeParamRE], from the left: letters, an equals sign and
    a value in double quotes.  [run] are the letters before [s]; [fuel] bounds the
    length of [s]. *)
Fixpoint challenge_params (fuel : nat) (run s : string) : list (string * string) :=
  match fuel with
  | O => []
  | S fuel =>
      match s with
      | EmptyString => []
      | String c s =>
          if alpha c then challenge_params fuel (run +:+ String c "") s
          else if is_char 61 c && bool_decide (run ≠ "") && HasPrefix s dquote then
            match Cut (drop_str 1 s) dquote with
            | Some (value, rest) => (run, value) :: challenge_params fuel "" rest
            | None => challenge_params fuel "" s
            end
          else challenge_params fuel "" s
      end
  end.

Definition parseBearerChallenge (challenge : string) : option (gmap string string) :=
  let challenge := TrimSpace challenge in
  if decide (challenge = "") then None
  else if negb (HasPrefix (ToLower challenge) "bearer ") then None
  else match challenge_params (String.length challenge) "" challenge with
  | [] => None
  | l => Some (foldl (λ m kv, <[ToLower kv.1 := kv.2]> m) ∅ l)
  end.

Record bearerTokenResponse : Type := mkTokenResponse { tr_Token : string; tr_AccessToken : string; tr_ExpiresIn : Z }.

Definition dec_int64 (place : string) (v : json) (old : Z) : result Z :=
  match v with
  | JNull => Ok old
  | JInt z => if int64_ok z then Ok z else Err (cannot_unmarshal (number_text v) place "int64")
  | JFloat _ => Err (cannot_unmarshal (number_text v) place "int64")
  | _ => Err (cannot_unmarshal (json_kind v) place "int64")
  end.

Definition token_fields : fields bearerTokenResponse :=
  let place := into_field "bearerTokenResponse" in
  [("token", λ v t, s ← dec_string (place "token") "string" v (tr_Token t);
                    Ok (mkTokenResponse s (tr_AccessToken t) (tr_ExpiresIn t)));
   ("access_token", λ v t, s ← dec_string (place "access_token") "string" v (tr_AccessToken t);
                           Ok (mkTokenResponse (tr_Token t) s (tr_ExpiresIn t)));
   ("expires_in", λ v t, n ← dec_int64 (place "expires_in") v (tr_ExpiresIn t);
                         Ok (mkTokenResponse (tr_Token t) (tr_AccessToken t) n))].

(** The token and its lifetime in nanoseconds, an int64 product. *)
Definition bearerTokenValue (p : bearerTokenResponse) : result (string * Z) :=
  let ttl := if decide (0 < tr_ExpiresIn p) then wrap64 (tr_ExpiresIn p * 1000000000) else defaultBearerTokenTTL in
  if decide (tr_Token p ≠ "") then Ok (tr_Token p, ttl)
  else if decide (tr_AccessToken p ≠ "") then Ok (tr_AccessToken p, ttl)
  else Err (new_error "bearer token response missing token").

(** *** Query strings *)

(** [url.ParseQuery] keeps what it can read. *)
Definition query_unescape (s : string) : option string :=
  match url_unescape encodeFragment (string_map (λ c, if is_char 43 c then ascii_at 32 else c) s) with
  | Ok s => Some s | Err _ => None
  end.

Definition add_value (k v : string) (m : gmap string (list string)) : gmap string (list string) :=
  <[k := default [] (m !! k) ++ [v]]> m.

Definition query_pair (m : gmap string (list string)) (part : string) : gmap string (list string) :=
  if decide (part = "") then m
  else if bool_decide (Cut part ";" ≠ None) then m
  else let '(k, v) := split_at part "=" in
       match query_unescape k, query_unescape v with
       | Some k, Some v => add_value k v m
       | _, _ => m
       end.

Definition ParseQuery (query : string) : gmap string (list string) := foldl query_pair ∅ (Split "&" query).

Definition query_char (c : ascii) : string :=
  if alnum c || among "-_.~" c then String c ""
  else if is_char 32 c then "+"
  else String "%" (String (hex_upper (byte_of c / 16)) (String (hex_upper (byte_of c mod 16)) "")).
Fixpoint QueryEscape (s : string) : string := match s with EmptyString => "" | String c s => query_char c +:+ QueryEscape s end.

(** [Values.Encode] *)
Definition Encode (m : gmap string (list string)) : string :=
  Join "&" (concat ((λ kv : string * list string, (λ v, QueryEscape kv.1 +:+ "=" +:+ QueryEscape v) <$> kv.2) <$>
                    sort_by (λ a b : string * list string, str_ltb a.1 b.1) (map_to_list m))).

Example Encode_ex : Encode (<["scope" := ["repository:a/b:pull"]]> (ParseQuery "service=x y&a=1&bad%zz=2")) =
  "a=1&scope=repository%3Aa%2Fb%3Apull&service=x+y".
Proof. vm_compute. reflexivity. Qed.
Example challenge_ex :
  (λ m, (m !! "realm", m !! "service", m !! "scope", m !! "error")) <$>
    parseBearerChallenge (quoted "Bearer Realm='https://auth.io/token',service='reg', scope='repository:x:pull' error=bad") =
  Some (Some "https://auth.io/token", Some "reg", Some "repository:x:pull", None).
Proof. vm_compute. reflexivity. Qed.

(** *** The client *)

(** [http_Do]: what it returns, a response or an error. *)
Class HTTPPorts (W : Type) : Type := {
  http_Do : OutRequest → W → result InResponse * W;
  http_Now : W → time;
}.

(** A request to a registry for an upstream, and a token request made for one. *)
Inductive HTTPCall : Type :=
| HRequest (u : Upstream) (req : OutRequest) (r : result InResponse)
| HToken (u : Upstream) (for_ : OutRequest) (req : OutRequest) (r : result InResponse).

Definition StatusUnauthorizedCode : Z := 401.

Section client.
Context {CR : Crypto} {W : Type} `{!HTTPPorts W}.
Context (ip_literal : string → option error) (resolver : option HybridPrivateKeyResolver).
(** The world with the client's cache. *)
Notation World := (bearerTokenCache * W)%type.
Notation M := (M World HTTPCall).

Definition send (c : result InResponse → HTTPCall) (req : OutRequest) : M InResponse :=
  call c (λ w, let '(r, w') := http_Do req w.2 in (r, (w.1, w'))).

(** The cache is not a collaborator: its use is no call. *)
Definition cached_token (key : string) : M (option string) := λ s,
  let '(t, c) := token_Get (http_Now (world s).2) key (world s).1 in (Ok t, mkSt (c, (world s).2) (calls s)).
Definition cache_token (key tok : string) (ttl : Z) : M () := λ s,
  (Ok (), mkSt (token_Set (http_Now (world s).2) key tok ttl (world s).1, (world s).2) (calls s)).

Definition with_registry_auth (req : OutRequest) (u : Upstream) : M OutRequest :=
  header ← lift (applyRegistryAuth resolver (Auth u));
  mret (match header with Some h => set_Authorization h req | None => req end).

Definition set_param (name : string) (params : gmap string string) (q : gmap string (list string)) : gmap string (list string) :=
  let v := default "" (params !! name) in if decide (v = "") then q else <[name := [v]]> q.

(** The body of a token response. *)
Definition decode_token (body : string) : result bearerTokenResponse :=
  wrap_result "decoding bearer token response: "
    (match Decode body with
     | None => Err (json_syntax_error body)
     | Some v => unmarshal_struct "upstream.bearerTokenResponse" token_fields v (mkTokenResponse "" "" 0)
     end).

Definition requestBearerToken (u : Upstream) (for_ : OutRequest) (params : gmap string string) : M bearerTokenResponse :=
  let realm := default "" (params !! "realm") in
  if decide (realm = "") then throw (new_error "bearer challenge missing realm")
  else
    tokenURL ← lift (wrap_result "parsing bearer token realm: " (url_Parse ip_literal realm));
    let query := set_param "scope" params (set_param "service" params (ParseQuery (RawQuery tokenURL))) in
    let tokenURL := mkURL (Scheme tokenURL) (Opaque tokenURL) (User tokenURL) (urlHost tokenURL) (Path tokenURL)
                      (RawPath tokenURL) (Encode query) (Fragment tokenURL) in
    authorization ← (match Auth u with
      | Some a => if decide (auth_Type a = UpstreamAuthBasic)
                  then secret ← lift (resolveAuthSecret resolver (Auth u));
                       mret ("Basic " +:+ b64_encode (Username a +:+ ":" +:+ secret))
                  else mret ""
      | None => mret ""
      end : M string);
    let req := mkOutRequest "GET" tokenURL "" authorization in
    resp ← send (HToken u for_ req) req;
    if decide (rs_StatusCode resp ≠ StatusOK) then
      throw (new_error ("unexpected bearer token status: " +:+ itoa (rs_StatusCode resp)))
    else
      lift (decode_token (rs_Body resp)).

(** [None]: the challenge asks for no bearer token. *)
Definition fetchBearerToken (u : Upstream) (for_ : OutRequest) (challenge : string) : M (option (string * Z)) :=
  match parseBearerChallenge challenge with
  | None => mret None
  | Some params => payload ← requestBearerToken u for_ params; tv ← lift (bearerTokenValue payload); mret (Some tv)
  end.

Definition doOCIRequest (req : OutRequest) (u : Upstream) : M InResponse :=
  let key := bearerTokenCacheKey req u in
  cached ← (match key with Some k => cached_token k | None => mret None end : M (option string));
  req ← (match cached with Some t => mret (set_Authorization ("Bearer " +:+ t) req) | None => with_registry_auth req u end : M OutRequest);
  resp ← send (HRequest u req) req;
  if decide (rs_StatusCode resp ≠ StatusUnauthorizedCode) then mret resp
  else
    t ← fetchBearerToken u req (header_Get (rs_Header resp) "Www-Authenticate");
    match t with
    | None => mret resp
    | Some (tok, ttl) =>
        let retry := set_Authorization ("Bearer " +:+ tok) req in
        retryResp ← send (HRequest u retry) retry;
        _ ← (match key with
             | Some k => when (bool_decide (rs_StatusCode retryResp ≠ StatusUnauthorizedCode)) (cache_token k tok ttl)
             | None => mret ()
             end : M ());
        mret retryResp
    end.

(** *** Operations *)

Definition ociAcceptHeaders : string :=
  Join ", " ["application/vnd.oci.image.manifest.v1+json"; "application/vnd.docker.distribution.manifest.v2+json";
             "application/vnd.oci.image.index.v1+json"; "application/vnd.docker.distribution.manifest.list.v2+json"].

Definition repoPath (a : ArtifactIdentity) : string :=
  if decide (Namespace a = "") then Name a else Namespace a +:+ "/" +:+ Name a.

Definition ociManifestURL (u : Upstream) (a : ArtifactIdentity) (ref : string) : string :=
  trim_right_slash (BaseURL u) +:+ "/v2/" +:+ repoPath a +:+ "/manifests/" +:+ ref.
End client.

Section operations.
Context {CR : Crypto} {W : Type} `{!HTTPPorts W}.
Context (ip_literal : string → option error) (resolver : option HybridPrivateKeyResolver).
Notation World := (bearerTokenCache * W)%type.
Notation M := (M World HTTPCall).

(** [http.NewRequestWithContext] *)
Definition new_request (what method url : string) : result OutRequest :=
  u ← wrap_result ("creating " +:+ what +:+ " request: ") (url_Parse ip_literal url); Ok (mkOutRequest method u "" "").

Definition accepting (r : OutRequest) : OutRequest :=
  mkOutRequest (rq_Method r) (rq_URL r) ociAcceptHeaders (rq_Authorization r).

(** [fmt.Errorf("%w: %w", domain.ErrUpstreamUnavailable, err)] *)
Definition unavailable (e : error) : error :=
  mk_error (sentinel_text ErrUpstreamUnavailable +:+ ": " +:+ error_msg e) (ErrUpstreamUnavailable :: error_chain e).

Definition upstream_request (req : OutRequest) (u : Upstream) : M InResponse := λ s,
  match doOCIRequest ip_literal resolver req u s with
  | (Ok r, s) => (Ok r, s)
  | (Err e, s) => (Err (unavailable e), s)
  end.

Definition forwardedResponseHeaders : list string := ["Docker-Content-Digest"; "Content-Type"; "Content-Length"; "ETag"].

(** [Header.Get] looks a name up in canonical form: [ETag] is kept as [Etag]. *)
Definition canonical (h : string) : string := if decide (h = "ETag") then "Etag" else h.

Definition extractHeaders (r : InResponse) : gmap string string :=
  foldl (λ m h, let v := header_Get (rs_Header r) (canonical h) in if decide (v = "") then m else <[h := v]> m) ∅
    forwardedResponseHeaders.

Definition newUpstreamResponse (r : InResponse) : UpstreamResponse :=
  mkUpstreamResponse (rs_StatusCode r) (header_Get (rs_Header r) "Content-Type") (extractHeaders r) (rs_Body r).

Definition executeOCIGet (u : Upstream) (url : string) : M UpstreamResponse :=
  req ← lift (new_request "GET" "GET" url);
  let req := if bool_decide (Cut (Path (rq_URL req)) "/manifests/" ≠ None) then accepting req else req in
  resp ← upstream_request req u;
  if decide (rs_StatusCode resp = StatusNotFound) then throw (sentinel_error ErrArtifactNotFound)
  else mret (newUpstreamResponse resp).

Definition oci_FetchMetadata (u : Upstream) (a : ArtifactIdentity) : M UpstreamResponse :=
  let ref := if decide (Digest a = "") then Version a else Digest a in
  executeOCIGet u (ociManifestURL u a ref).

Definition oci_FetchContent (u : Upstream) (digest : string) : M UpstreamResponse :=
  executeOCIGet u (trim_right_slash (BaseURL u) +:+ "/blobs/" +:+ digest).

Definition resolveTag (method : string) (u : Upstream) (url : string) : M string :=
  req ← lift (new_request method method url);
  resp ← upstream_request (accepting req) u;
  if decide (rs_StatusCode resp = StatusNotFound) then throw (sentinel_error ErrArtifactNotFound)
  else
    let digest := header_Get (rs_Header resp) "Docker-Content-Digest" in
    if decide (digest = "") then throw (new_error ("no Docker-Content-Digest header in " +:+ method +:+ " response"))
    else mret digest.
Definition resolveTagHead : Upstream → string → M string := resolveTag "HEAD".
Definition resolveTagGet : Upstream → string → M string := resolveTag "GET".

Definition oci_ResolveReference (u : Upstream) (a : ArtifactIdentity) : M string :=
  let url := ociManifestURL u a (Version a) in
  digest ← attempt (resolveTagHead u url);
  match digest with
  | Ok d => if decide (d ≠ "") then mret d else resolveTagGet u url
  | Err _ => resolveTagGet u url
  end.
End operations.


(** ** Sessions *)

Section sessions.
Context {CR : Crypto} {W : Type} `{!HTTPPorts W}.
Context (ip_literal : string → option error) (resolver : option HybridPrivateKeyResolver).
Notation World := (bearerTokenCache * W)%type.
Notation State := (St World HTTPCall).
Notation M := (M World HTTPCall).

(** What the pipeline and the jobs ask of the client. *)
Inductive oci_operation : Type :=
| OpFetchMetadata (u : Upstream) (a : ArtifactIdentity)
| OpFetchContent (u : Upstream) (digest : string)
| OpResolveReference (u : Upstream) (a : ArtifactIdentity).

Definition op_upstream (op : oci_operation) : Upstream :=
  match op with OpFetchMetadata u _ | OpFetchContent u _ | OpResolveReference u _ => u end.

Definition run_op (op : oci_operation) : M () :=
  match op with
  | OpFetchMetadata u a => ignore (oci_FetchMetadata ip_literal resolver u a)
  | OpFetchContent u d => ignore (oci_FetchContent ip_literal resolver u d)
  | OpResolveReference u a => ignore (oci_ResolveReference ip_literal resolver u a)
  end.

(** The state after a sequence of operations on a new client. *)
Definition session (ops : list oci_operation) (w : W) : State :=
  (for_each run_op ops (mkSt (newBearerTokenCache defaultBearerTokenCacheMaxEntries, w) [])).2.

(** *** What a request may carry *)

(** What the upstream's own credentials put into the header, or nothing. *)
Definition own_credentials (u : Upstream) (a : string) : Prop :=
  a = "" ∨ applyRegistryAuth resolver (Auth u) = Ok (Some a).

(** The response gives this token. *)
Definition grants (resp : InResponse) (tok : string) : Prop :=
  rs_StatusCode resp = StatusOK ∧ ∃ p ttl, decode_token (rs_Body resp) = Ok p ∧ bearerTokenValue p = Ok (tok, ttl).

(** The token was given out for a request of the same tenant and upstream, to the
    same repository of the same host under the same principal. *)
Definition issued_for (before : list HTTPCall) (u : Upstream) (url : URL) (tok : string) : Prop :=
  ∃ u' for_ treq resp,
    HToken u' for_ treq (Ok resp) ∈ before ∧ grants resp tok ∧
    up_TenantID u' = up_TenantID u ∧ up_ID u' = up_ID u ∧
    bearerTokenCacheKey for_ u' = bearerTokenCacheKey (mkOutRequest "" url "" "") u.

Definition sendable (before : list HTTPCall) (u : Upstream) (req : OutRequest) : Prop :=
  own_credentials u (rq_Authorization req) ∨
  ∃ tok, rq_Authorization req = "Bearer " +:+ tok ∧ issued_for before u (rq_URL req) tok.

(** The URL is a path under the upstream's base URL. *)
Definition under_base (u : Upstream) (url : URL) : Prop :=
  ∃ path, url_Parse ip_literal (trim_right_slash (BaseURL u) +:+ "/" +:+ path) = Ok url.

Definition justified (before : list HTTPCall) (c : HTTPCall) : Prop :=
  match c with
  | HRequest u req _ => under_base u (rq_URL req) ∧ sendable before u req
  | HToken u for_ treq _ =>
      under_base u (rq_URL for_) ∧
      (rq_Authorization treq = "" ∨
       own_credentials u (rq_Authorization treq) ∧ from_option auth_Type "" (Auth u) = UpstreamAuthBasic)
  end.

Definition justified_log (log : list HTTPCall) : Prop := ∀ l1 c l2, log = l1 ++ c :: l2 → justified l1 c.

(** A vertical bar separates the parts of a cache key. *)
Definition no_bar (s : string) : Prop := free_of (λ c, bool_decide (c = "|"%char)) s.
Definition identified (u : Upstream) : Prop := no_bar (up_TenantID u) ∧ no_bar (up_ID u).

(** *** The invariant *)

Definition provenance (c : bearerTokenCache) (log : list HTTPCall) : Prop :=
  ∀ k e, token_entries c !! k = Some e →
    ∃ u for_ treq resp, HToken u for_ treq (Ok resp) ∈ log ∧ grants resp (token e) ∧ identified u ∧
      bearerTokenCacheKey for_ u = Some k.

Definition bounded (c : bearerTokenCache) : Prop :=
  maxEntries c = defaultBearerTokenCacheMaxEntries ∧ Z.of_nat (base.size (token_entries c)) ≤ maxEntries c.

Definition client_inv (s : State) : Prop :=
  justified_log (calls s) ∧ provenance (world s).1 (calls s) ∧ bounded (world s).1.

(** [P] before, [Q] after a value, the invariant after an error. *)
Definition hoare {A} (P : State → Prop) (m : M A) (Q : A → State → Prop) : Prop :=
  ∀ s, P s → match m s with (Ok a, s') => Q a s' | (Err _, s') => client_inv s' end.

Lemma hoare_bind {A B} P (m : M A) Q (f : A → M B) R :
  hoare P m Q → (∀ a, hoare (Q a) (f a) R) → hoare P (m ≫= f) R.
Proof.
  intros Hm Hf s Hs. specialize (Hm s Hs). unfold mbind, M_bind. destruct (m s) as [[a|e] s']; [|done].
  exact (Hf a s' Hm).
Qed.

Lemma hoare_ret {A} (P : State → Prop) (a : A) Q : (∀ s, P s → Q a s) → hoare P (mret a) Q.
Proof. intros H s. apply H. Qed.

Lemma hoare_lift {A} (P : State → Prop) (r : result A) Q :
  (∀ s, P s → client_inv s) → (∀ a s, r = Ok a → P s → Q a s) → hoare P (lift r) Q.
Proof. intros HI H s Hs. unfold lift. destruct r; eauto. Qed.

Lemma hoare_throw {A} (P : State → Prop) e Q : (∀ s, P s → client_inv s) → hoare P (throw e : M A) Q.
Proof. intros HI s Hs. exact (HI s Hs). Qed.

Lemma hoare_mono {A} (P P' : State → Prop) (m : M A) Q Q' :
  hoare P' m Q' → (∀ s, P s → P' s) → (∀ a s, Q' a s → Q a s) → hoare P m Q.
Proof. intros H HP HQ s Hs. specialize (H s (HP s Hs)). destruct (m s) as [[]]; eauto. Qed.

(** *** Keys *)

Lemma cache_key_account r u r' u' k :
  identified u → identified u' → bearerTokenCacheKey r u = Some k → bearerTokenCacheKey r' u' = Some k →
  up_TenantID u = up_TenantID u' ∧ up_ID u = up_ID u'.
Proof.
  intros [Ht Hi] [Ht' Hi']. unfold bearerTokenCacheKey.
  destruct (decide _); [done|]. destruct (repositoryFromOCIPath _) as [x|]; [|done]. intros [= <-].
  destruct (decide _); [done|]. destruct (repositoryFromOCIPath _) as [x'|]; [|done]. intros [= E].
  apply (free_of_split (λ c, bool_decide (c = "|"%char))) in E as [-> E]; [|done..]. injection E as E.
  change (?x +:+ ?a = ?x +:+ ?b) with (a = b) in E.
  apply (free_of_split (λ c, bool_decide (c = "|"%char))) in E as [-> E]; [|done..]. done.
Qed.

Lemma cache_key_url r u : bearerTokenCacheKey (mkOutRequest "" (rq_URL r) "" "") u = bearerTokenCacheKey r u.
Proof. done. Qed.

(** *** The cache *)

Lemma token_Get_spec now k c t c' :
  token_Get now k c = (t, c') →
  maxEntries c' = maxEntries c ∧ token_entries c' ⊆ token_entries c ∧
  ∀ x, t = Some x → ∃ e, token_entries c !! k = Some e ∧ token e = x ∧ now < expiresAt e.
Proof.
  unfold token_Get. destruct (decide (k = "")); [by intros [= <- <-]|].
  destruct (token_entries c !! k) as [e|] eqn:E; [|by intros [= <- <-]].
  destruct (decide (now < expiresAt e)); intros [= <- <-]; (split; [done|split; [|intros x [=]; subst; eauto]]); [done|].
  apply delete_subseteq.
Qed.

Lemma make_room_spec now c :
  0 < maxEntries c → make_room now c ⊆ token_entries c ∧ Z.of_nat (base.size (make_room now c)) < maxEntries c.
Proof.
  intros Hm. unfold make_room.
  set (m := if maxEntries c <=? Z.of_nat (base.size (token_entries c)) then filter (live now) (token_entries c) else _).
  assert (m ⊆ token_entries c) as Hsub by (unfold m; destruct (_ <=? _); [apply map_filter_subseteq|done]).
  destruct (Z.leb_spec (maxEntries c) (Z.of_nat (base.size m))); split; try done; try lia.
  - apply map_empty_subseteq.
Qed.

Lemma token_Set_spec now k t ttl c :
  0 < maxEntries c → maxEntries (token_Set now k t ttl c) = maxEntries c ∧
  (bounded c → bounded (token_Set now k t ttl c)) ∧
  ∀ k' e, token_entries (token_Set now k t ttl c) !! k' = Some e →
    token_entries c !! k' = Some e ∨ k' = k ∧ token e = t.
Proof.
  intros Hm. unfold token_Set. destruct (decide _); [by eauto|]. cbn.
  destruct (make_room_spec now c Hm) as [Hsub Hlt]. split; [done|]. split.
  - intros [? _]. split; [done|]. cbn. rewrite map_size_insert. destruct (make_room now c !! k); simpl; lia.
  - intros k' e. rewrite lookup_insert. destruct (decide _); [intros [= <-]; by right|].
    intros H. left. by eapply lookup_weaken.
Qed.

(** *** The log *)

Lemma issued_for_more l l' u url t : issued_for l u url t → issued_for (l ++ l') u url t.
Proof. intros (u' & f & tr & r & H & ?). exists u', f, tr, r. split; [|done]. apply elem_of_app. by left. Qed.

Lemma justified_snoc l c : justified_log l → justified l c → justified_log (l ++ [c]).
Proof.
  intros Hl Hc l1 c' l2 E. destruct l2 as [|x l2 _] using rev_ind.
  - by apply app_inj_tail in E as [-> ->].
  - rewrite app_comm_cons, app_assoc in E. apply app_inj_tail in E as [E _]. by eapply Hl.
Qed.

Lemma provenance_more c l l' : provenance c l → provenance c (l ++ l').
Proof.
  intros H k e He. destruct (H k e He) as (u & f & tr & r & Hin & ?). exists u, f, tr, r.
  split; [|done]. apply elem_of_app. by left.
Qed.

Lemma inv_call s w c : client_inv s → justified (calls s) c → client_inv (mkSt ((world s).1, w) (calls s ++ [c])).
Proof. intros (Hj & Hp & Hb) Hc. split; [by apply justified_snoc|]. split; [by apply provenance_more|done]. Qed.

(** *** The client keeps the invariant *)

Local Hint Resolve issued_for_more : core.

Lemma hoare_send P (c : result InResponse → HTTPCall) req (Q : InResponse → State → Prop) :
  (∀ s, P s → client_inv s ∧ ∀ r, justified (calls s) (c r)) →
  (∀ s w r, P s → client_inv (mkSt ((world s).1, w) (calls s ++ [c (Ok r)])) →
    Q r (mkSt ((world s).1, w) (calls s ++ [c (Ok r)]))) →
  hoare P (send c req) Q.
Proof.
  intros HP HQ s Hs. destruct (HP s Hs) as [HI Hj]. unfold send, call.
  destruct (http_Do req (world s).2) as [r w]. specialize (inv_call s w _ HI (Hj r)). destruct r; [by apply HQ|done].
Qed.

Lemma hoare_cached key u url :
  identified u → Some key = bearerTokenCacheKey (mkOutRequest "" url "" "") u →
  hoare client_inv (cached_token key) (λ t s, client_inv s ∧ ∀ x, t = Some x → issued_for (calls s) u url x).
Proof.
  intros Hu Hk s (Hj & Hp & Hb). unfold cached_token.
  destruct (token_Get _ key (world s).1) as [t c] eqn:E. apply token_Get_spec in E as (Hm & Hsub & Ht). cbn.
  split; [split; [done|split]|].
  - intros k e He. apply (Hp k e). by eapply lookup_weaken.
  - destruct Hb as [? ?]. unfold bounded; cbn. rewrite Hm. split; [done|].
    pose proof (map_subseteq_size _ _ Hsub). cbn. lia.
  - intros x Hx. destruct (Ht x Hx) as (e & He & <- & _).
    destruct (Hp key e He) as (u' & f & tr & r & Hin & Hg & Hu' & Hk').
    destruct (cache_key_account f u' (mkOutRequest "" url "" "") u key) as [? ?]; [done..|].
    exists u', f, tr, r. by rewrite <-Hk, <-Hk'.
Qed.

Lemma hoare_auth P req u :
  rq_Authorization req = "" → (∀ s, P s → client_inv s) →
  hoare P (with_registry_auth resolver req u) (λ req' s, P s ∧ rq_URL req' = rq_URL req ∧ own_credentials u (rq_Authorization req')).
Proof.
  intros Hreq HP. unfold with_registry_auth. eapply hoare_bind.
  - apply (hoare_lift P _ (λ h s, P s ∧ applyRegistryAuth resolver (Auth u) = Ok h)); [done|]. by intros h s E Hs.
  - intros h. apply hoare_ret. intros s [Hs E]. unfold own_credentials. destruct h as [h|]; auto.
Qed.

Lemma basic_header u secret :
  resolveAuthSecret resolver (Auth u) = Ok secret → from_option auth_Type "" (Auth u) = UpstreamAuthBasic →
  applyRegistryAuth resolver (Auth u) = Ok (Some ("Basic " +:+ b64_encode (from_option Username "" (Auth u) +:+ ":" +:+ secret))).
Proof.
  intros Hs Ht. destruct (Auth u) as [a|] eqn:E; [|done]. unfold applyRegistryAuth. rewrite Hs. cbn in Ht |- *.
  by rewrite decide_False, decide_True by (rewrite Ht; done).
Qed.

Lemma hoare_token u for_ params :
  identified u → under_base u (rq_URL for_) →
  hoare client_inv (requestBearerToken ip_literal resolver u for_ params)
    (λ p s, client_inv s ∧ ∀ tok ttl, bearerTokenValue p = Ok (tok, ttl) → issued_for (calls s) u (rq_URL for_) tok).
Proof.
  intros Hu Hb. unfold requestBearerToken. destruct (decide _); [by apply hoare_throw|].
  eapply hoare_bind; [by apply (hoare_lift _ _ (λ _, client_inv))|]. intros turl.
  eapply hoare_bind with (Q := λ a s, client_inv s ∧
    (a = "" ∨ own_credentials u a ∧ from_option auth_Type "" (Auth u) = UpstreamAuthBasic)).
  { destruct (Auth u) as [a|] eqn:Ea; [|apply hoare_ret; auto]. destruct (decide _) as [Hbasic|]; [|apply hoare_ret; auto].
    eapply hoare_bind; [apply (hoare_lift client_inv _ (λ x s, client_inv s ∧ resolveAuthSecret resolver (Auth u) = Ok x))|];
      rewrite ?Ea; [done|done|]. intros secret. apply hoare_ret. rewrite <-Ea. intros s [Hs E]. split; [done|]. right.
    assert (from_option auth_Type "" (Auth u) = UpstreamAuthBasic) as Ht by (by rewrite Ea). split; [|by rewrite Ea].
    right. rewrite (basic_header u secret E Ht). by rewrite Ea. }
  intros a. eapply hoare_bind with (Q := λ resp s, client_inv s ∧
    ∃ treq, HToken u for_ treq (Ok resp) ∈ calls s).
  { apply hoare_send; [by intros s [Hs Ha]|]. intros s w r _ HI. split; [done|]. eexists. apply elem_of_app. right.
    by apply list_elem_of_singleton. }
  intros resp. destruct (decide _) as [|Hstatus]; [apply hoare_throw; tauto|]. apply dec_stable in Hstatus.
  apply hoare_lift; [tauto|]. intros p s Hp [Hs [treq Hin]]. split; [done|]. intros tok ttl Hv.
  exists u, for_, treq, resp. split; [done|]. split; [split; eauto|]. done.
Qed.

Lemma hoare_fetch u for_ challenge :
  identified u → under_base u (rq_URL for_) →
  hoare client_inv (fetchBearerToken ip_literal resolver u for_ challenge)
    (λ t s, client_inv s ∧ ∀ tok ttl, t = Some (tok, ttl) → issued_for (calls s) u (rq_URL for_) tok).
Proof.
  intros Hu Hb. unfold fetchBearerToken. destruct (parseBearerChallenge challenge) as [ps|]; [|by apply hoare_ret].
  eapply hoare_bind; [by apply hoare_token|]. intros p.
  eapply hoare_bind; [apply (hoare_lift _ _ (λ tv s, client_inv s ∧ issued_for (calls s) u (rq_URL for_) tv.1)); [tauto|]|].
  - intros [tok ttl] s E [Hs H]. eauto.
  - intros [tok ttl]. apply hoare_ret. intros s [Hs H]. split; [done|]. by intros ? ? [= <- <-].
Qed.

Lemma cache_token_inv key tok ttl u url :
  identified u → Some key = bearerTokenCacheKey (mkOutRequest "" url "" "") u →
  hoare (λ s, client_inv s ∧ issued_for (calls s) u url tok) (cache_token key tok ttl) (λ _, client_inv).
Proof.
  intros Hu Hk s [(Hj & Hp & Hb) Ht]. unfold cache_token.
  destruct (token_Set_spec (http_Now (world s).2) key tok ttl (world s).1) as (_ & Hb' & He); [by rewrite (proj1 Hb)|].
  split; [done|]. split; [|by apply Hb']. intros k e Hke. destruct (He k e Hke) as [H|[-> H]]; [by apply Hp|].
  destruct Ht as (u' & f & tr & r & Hin & Hg & HT & HI & Hk'). exists u', f, tr, r. rewrite H, Hk', <-Hk.
  unfold identified in *. by rewrite HT, HI.
Qed.

Lemma hoare_pure {A} P (φ : Prop) (m : M A) Q : (φ → hoare P m Q) → hoare (λ s, P s ∧ φ) m Q.
Proof. intros H s [Hs Hφ]. exact (H Hφ s Hs). Qed.

(** The first request, with a token of the cache or the upstream's credentials. *)
Lemma hoare_first req u key :
  identified u → rq_Authorization req = "" → key = bearerTokenCacheKey req u →
  hoare client_inv
    (cached ← (match key with Some k => cached_token k | None => mret None end : M (option string));
     match cached with
     | Some t => mret (set_Authorization ("Bearer " +:+ t) req)
     | None => with_registry_auth resolver req u
     end)
    (λ req' s, (client_inv s ∧ sendable (calls s) u req') ∧ rq_URL req' = rq_URL req).
Proof.
  intros Hu Hreq Hk.
  apply hoare_bind with (λ t s, client_inv s ∧ ∀ x, t = Some x → issued_for (calls s) u (rq_URL req) x).
  - destruct key as [k|]; [by apply hoare_cached|by apply hoare_ret].
  - intros [t|].
    + apply hoare_ret. intros s [Hs Ht]. split; [|done]. split; [done|]. right. eauto.
    + eapply hoare_mono; [by apply (hoare_auth client_inv)|by intros s []|].
      intros a s (? & ? & ?). split; [|done]. split; [done|]. by left.
Qed.

(** The second request, with the token the challenge led to. *)
Lemma hoare_retry req u key tok ttl :
  identified u → under_base u (rq_URL req) → key = bearerTokenCacheKey req u →
  hoare (λ s, client_inv s ∧ issued_for (calls s) u (rq_URL req) tok)
    (let retry := set_Authorization ("Bearer " +:+ tok) req in
     retryResp ← send (HRequest u retry) retry;
     _ ← (match key with
          | Some k => when (bool_decide (rs_StatusCode retryResp ≠ StatusUnauthorizedCode)) (cache_token k tok ttl)
          | None => mret ()
          end : M ());
     mret retryResp)
    (λ _, client_inv).
Proof.
  intros Hu Hb Hk. cbv zeta.
  eapply hoare_bind with (λ _ s, client_inv s ∧ issued_for (calls s) u (rq_URL req) tok).
  - apply hoare_send; [|cbn; auto using issued_for_more]. 2:{ intros s w r [_ Hi] HI. cbn. auto. }
    intros s [Hs Hi]. split; [done|]. intros r. split; [done|]. right. eauto.
  - intros resp. eapply hoare_bind with (λ _, client_inv); [|by intros _; apply hoare_ret].
    destruct key as [k|]; [|apply hoare_ret; tauto]. unfold when. case_bool_decide; [|apply hoare_ret; tauto].
    by apply cache_token_inv.
Qed.

Lemma hoare_assoc {A B C} P (m : M A) (f : A → M B) (g : B → M C) Q :
  hoare P ((m ≫= f) ≫= g) Q → hoare P (m ≫= λ a, f a ≫= g) Q.
Proof. intros H s Hs. specialize (H s Hs). revert H. cbv [mbind M_bind]. by destruct (m s) as [[a|e] s']. Qed.

Lemma hoare_do req u :
  identified u → rq_Authorization req = "" → under_base u (rq_URL req) →
  hoare client_inv (doOCIRequest ip_literal resolver req u) (λ _, client_inv).
Proof.
  intros Hu Hreq Hbase. unfold doOCIRequest. apply hoare_assoc. eapply hoare_bind; [by apply hoare_first|].
  intros req'. apply hoare_pure. intros HU. rewrite <-HU in Hbase.
  eapply hoare_bind with (λ _, client_inv).
  { apply hoare_send; [|done]. intros s [Hs Ha]. by split. }
  intros resp. destruct (decide _); [by apply hoare_ret|].
  eapply hoare_bind; [by apply hoare_fetch|]. intros [[tok ttl]|]; [|apply hoare_ret; tauto].
  eapply hoare_mono; [eapply (hoare_retry req' u (bearerTokenCacheKey req u) tok ttl)| |done].
  - done.
  - done.
  - by rewrite <-cache_key_url, <-HU, cache_key_url.
  - intros s [Hs Ht]. eauto.
Qed.

(** *** The operations *)

Lemma hoare_attempt {A} (m : M A) : hoare client_inv m (λ _, client_inv) → hoare client_inv (attempt m) (λ _, client_inv).
Proof. intros H s Hs. specialize (H s Hs). unfold attempt. by destruct (m s) as [[]]. Qed.

Lemma hoare_ignore {A} (m : M A) : hoare client_inv m (λ _, client_inv) → hoare client_inv (ignore m) (λ _, client_inv).
Proof. intros H s Hs. specialize (H s Hs). unfold ignore. by destruct (m s) as [[]]. Qed.

Lemma hoare_upstream req u :
  identified u → rq_Authorization req = "" → under_base u (rq_URL req) →
  hoare client_inv (upstream_request ip_literal resolver req u) (λ _, client_inv).
Proof.
  intros Hu Hr Hb s Hs. unfold upstream_request. pose proof (hoare_do req u Hu Hr Hb s Hs) as H.
  by destruct (doOCIRequest _ _ _ _ _) as [[]].
Qed.

Lemma hoare_request {A} what method u path (f : OutRequest → M A) :
  (∀ req, rq_Authorization req = "" → under_base u (rq_URL req) → hoare client_inv (f req) (λ _, client_inv)) →
  hoare client_inv (req ← lift (new_request ip_literal what method (trim_right_slash (BaseURL u) +:+ "/" +:+ path)); f req) (λ _, client_inv).
Proof.
  intros Hf s Hs. unfold new_request, lift. cbv [mbind M_bind].
  destruct (url_Parse ip_literal _) as [url|e] eqn:E; [|done]. cbn. apply (Hf (mkOutRequest method url "" "")); [done| |done].
  by exists path.
Qed.

Lemma hoare_get u path :
  identified u → hoare client_inv (executeOCIGet ip_literal resolver u (trim_right_slash (BaseURL u) +:+ "/" +:+ path)) (λ _, client_inv).
Proof.
  intros Hu. apply hoare_request. intros req Hr Hb. cbv zeta.
  eapply hoare_bind with (λ _, client_inv); [apply hoare_upstream; [done| |]; by case_bool_decide|].
  intros resp. destruct (decide _); [by apply hoare_throw|by apply hoare_ret].
Qed.

Lemma hoare_tag method u path :
  identified u → hoare client_inv (resolveTag ip_literal resolver method u (trim_right_slash (BaseURL u) +:+ "/" +:+ path)) (λ _, client_inv).
Proof.
  intros Hu. apply hoare_request. intros req Hr Hb.
  eapply hoare_bind; [by apply hoare_upstream|]. intros resp.
  destruct (decide _); [by apply hoare_throw|]. cbv zeta. destruct (decide _); [by apply hoare_throw|by apply hoare_ret].
Qed.

Lemma run_op_inv op : identified (op_upstream op) → hoare client_inv (run_op op) (λ _, client_inv).
Proof.
  destruct op as [u a|u d|u a]; cbn [run_op op_upstream]; intros Hu; apply hoare_ignore; [by apply hoare_get..|].
  unfold oci_ResolveReference. eapply hoare_bind; [by apply hoare_attempt, hoare_tag|].
  intros [d|e]; [destruct (decide _); [by apply hoare_ret|]|]; by apply hoare_tag.
Qed.

Lemma session_inv ops w : Forall (λ op, identified (op_upstream op)) ops → client_inv (session ops w).
Proof.
  intros H. unfold session. set (s0 := mkSt _ _). assert (client_inv s0) as H0.
  { split; [|split; [by intros k e|done]]. intros [|] ? ? [=]. }
  generalize dependent s0. induction H as [|op ops Hop Hops IH]; intros s Hs; [done|]. cbn [for_each].
  pose proof (run_op_inv op Hop s Hs) as H. cbv [mbind M_bind]. destruct (run_op op s) as [[[]|e] s'] eqn:E; [by apply IH|].
  done.
Qed.
End sessions.

(** ** Properties *)


(** A registry that asks for a token of its own token server. *)
#[export] Instance sample_registry : HTTPPorts nat := {|
  http_Do req w :=
    (if bool_decide (urlHost (rq_URL req) = "auth.io") then
       Ok (mkInResponse 200 ∅ (quoted "{'token':'t1','expires_in':300}"))
     else if bool_decide (rq_Authorization req = "Bearer t1") then
       Ok (mkInResponse 200 {["Docker-Content-Digest" := "sha256:ab"]} "{}")
     else Ok (mkInResponse 401 {["Www-Authenticate" := quoted "Bearer realm='https://auth.io/token',service='reg'"]} ""), S w);
  http_Now w := Z.of_nat w;
|}.

Definition sample_registry_upstream : Upstream :=
  mkUpstream "u1" "t1" "docker" EcosystemOCI "https://reg.io/" None (Some (mkUpstreamAuth UpstreamAuthBasic "bob" "pw" 0)) 0 0.

Definition sample_session : St (bearerTokenCache * nat) HTTPCall :=
  let a := mkArtifact EcosystemOCI "library" "nginx" "latest" "" in
  session (CR := Toy.toy_crypto) (λ _, None) None
    [OpResolveReference sample_registry_upstream a; OpFetchMetadata sample_registry_upstream a] 0%nat.

(** The second operation uses the token of the first. *)
Example sample_session_calls :
  (λ c, match c with HRequest _ q _ | HToken _ _ q _ => (rq_Method q, urlHost (rq_URL q), rq_Authorization q) end) <$>
    calls sample_session =
  [("HEAD", "reg.io", "Basic " +:+ b64_encode "bob:pw"); ("GET", "auth.io", "Basic " +:+ b64_encode "bob:pw");
   ("HEAD", "reg.io", "Bearer t1"); ("GET", "reg.io", "Bearer t1")].
Proof. vm_compute. reflexivity. Qed.

