(* ===== verification/CachedOci.v ===== *)
(** * The caching OCI client

    [internal/infra/upstream/cached_oci.go] over the disk cache ([OciCache]):
    [CachedOCIClient.FetchMetadata] and [FetchContent] answer from the cache when
    they can and otherwise pass the upstream's answer on, filling the cache while
    the client reads it.  [serve] is one client request from the fetch to the
    close of its body; requests run concurrently.  The wrapped client is a
    parameter of a request: the answer it gives, an arbitrary one. *)

From S2P Require Import Prelude GoStrings GoPath Artifact Upstream FileSystem OciCache.
#[local] Open Scope list_scope.

(** ** Definitions *)

(** What a [Read] of a body returns beside its bytes. *)
Inductive read_status : Type :=
| More
| EOF
| ReadError (e : error).

(** The body of an upstream response: the results of its reads, then EOF. *)
Definition source_body : Type := list (string * read_status).

Definition next_read (src : source_body) : (string * read_status) * source_body :=
  match src with [] => (("", EOF), []) | r :: src => (r, src) end.

Record cacheReadCloser : Type := mkCacheReadCloser {
  source : source_body;
  writer : option diskWriteSession;
}.

(** The body a request hands out. *)
Inductive body : Type :=
| FromDisk (c : Content)
| FromUpstream (src : source_body)
| Caching (r : cacheReadCloser).

Definition map_body {A B} (f : A → B) (r : ArtifactResponse A) : ArtifactResponse B :=
  mkArtifactResponse (art_StatusCode r) (art_ContentType r) (art_Headers r) (f <$> art_Body r).

Definition shouldReadOCIArtifactFromCache (kind digest : string) : bool :=
  if decide (kind = OCIArtifactBlob) then true else negb (bool_decide (digest = "")).

Definition ociArtifactCacheScope (u : Upstream) : string * string * bool :=
  let tenantID := TrimSpace (up_TenantID u) in
  let upstreamID := TrimSpace (up_ID u) in
  (tenantID, upstreamID, negb (bool_decide (tenantID = "")) && negb (bool_decide (upstreamID = ""))).

(** What a delegate's fetch returns; a nil response is [None]. *)
Definition fetched : Type := result (option (ArtifactResponse source_body)).

Section client.
Context {sorter : SortSlice} (cache : DiskCache).

Definition cacheReadCloser_Read (r : cacheReadCloser) : Prog (cacheReadCloser * (string * read_status)) :=
  let '((p, err), src) := next_read (source r) in
  w ← match writer r with
      | Some s =>
          if decide (p = "") then Ret (Some s)
          else
            res ← session_Write s p;
            match res with
            | Ok _ => Ret (Some s)
            | Err _ => _ ← session_Abort s; Ret None
            end
      | None => Ret None
      end;
  w ← match err, w with
      | EOF, Some s => _ ← session_Commit s; Ret None
      | ReadError _, Some s => _ ← session_Abort s; Ret None
      | _, w => Ret w
      end;
  Ret (mkCacheReadCloser src w, (p, err)).

Definition cacheReadCloser_Close (r : cacheReadCloser) : Prog () :=
  match writer r with
  | Some s => _ ← session_Abort s; Ret ()
  | None => Ret ()
  end.

Definition wrapResponse (tenantID upstreamID kind digest : string) (resp : option (ArtifactResponse source_body)) :
    Prog (option (ArtifactResponse body)) :=
  let plain := map_body FromUpstream <$> resp in
  match resp with
  | None => Ret None
  | Some resp =>
      match art_Body resp with
      | None => Ret plain
      | Some src =>
          if decide (digest = "" ∨ art_StatusCode resp ≠ 200) then Ret plain
          else
            w ← StartWrite cache tenantID upstreamID kind digest
                  (mkArtifactMetadata (art_ContentType resp) (art_Headers resp));
            match w with
            | Err _ => Ret plain
            | Ok s => Ret (Some (map_body (λ src, Caching (mkCacheReadCloser src (Some s))) resp))
            end
      end
  end.

Definition fetchWithCache (u : Upstream) (kind digest : string) (fetch : fetched) :
    Prog (result (option (ArtifactResponse body))) :=
  let '(tenantID, upstreamID, cacheableScope) := ociArtifactCacheScope u in
  hit ← (if cacheableScope && shouldReadOCIArtifactFromCache kind digest
         then Get cache tenantID upstreamID kind digest
         else Ret (Err (sentinel_error ErrCacheMiss)));
  match hit with
  | Ok resp => Ret (Ok (Some (map_body FromDisk resp)))
  | Err _ =>
      match fetch with
      | Err e => Ret (Err e)
      | Ok resp =>
          if negb cacheableScope then Ret (Ok (map_body FromUpstream <$> resp))
          else
            resp ← wrapResponse tenantID upstreamID kind digest resp;
            Ret (Ok resp)
      end
  end.

Definition client_FetchMetadata (u : Upstream) (a : ArtifactIdentity) (fetch : fetched) :=
  fetchWithCache u OCIArtifactManifest (Digest a) fetch.
Definition client_FetchContent (u : Upstream) (digest : string) (fetch : fetched) :=
  fetchWithCache u OCIArtifactBlob digest fetch.

(** *** A request *)

(** [rq_reads]: how often the client reads before it goes away. *)
Record request : Type := mkRequest {
  rq_upstream : Upstream;
  rq_what : ArtifactIdentity + string;
  rq_fetch : fetched;
  rq_reads : nat;
}.

Definition rq_kind (rq : request) : string :=
  match rq_what rq with inl _ => OCIArtifactManifest | inr _ => OCIArtifactBlob end.
Definition rq_digest (rq : request) : string :=
  match rq_what rq with inl a => Digest a | inr digest => digest end.

Definition request_fetch (rq : request) : Prog (result (option (ArtifactResponse body))) :=
  match rq_what rq with
  | inl a => client_FetchMetadata (rq_upstream rq) a (rq_fetch rq)
  | inr digest => client_FetchContent (rq_upstream rq) digest (rq_fetch rq)
  end.

Inductive outcome : Type :=
| Failed (e : error)
| NoBody
| ServedFromCache (contentType : string) (headers : gmap string string) (c : Content)
| Streamed (received : string) (status : read_status).

(** The copy loop: what was read, and the status of the last read. *)
Fixpoint copy (n : nat) (r : cacheReadCloser) (got : string) : Prog (cacheReadCloser * (string * read_status)) :=
  match n with
  | O => Ret (r, (got, More))
  | S n =>
      '(r, (p, status)) ← cacheReadCloser_Read r;
      match status with
      | More => copy n r (got +:+ p)
      | _ => Ret (r, (got +:+ p, status))
      end
  end.

(** Copying a body nothing wraps is copying through a reader that has no writer. *)
Definition stream (n : nat) (r : cacheReadCloser) : Prog outcome :=
  '(r, (got, status)) ← copy n r "";
  _ ← cacheReadCloser_Close r;
  Ret (Streamed got status).

Definition serve (rq : request) : Prog outcome :=
  resp ← request_fetch rq;
  match resp with
  | Err e => Ret (Failed e)
  | Ok None => Ret NoBody
  | Ok (Some resp) =>
      match art_Body resp with
      | None => Ret NoBody
      | Some (FromDisk c) => Ret (ServedFromCache (art_ContentType resp) (art_Headers resp) c)
      | Some (FromUpstream src) => stream (rq_reads rq) (mkCacheReadCloser src None)
      | Some (Caching r) => stream (rq_reads rq) r
      end
  end.
End client.

(** The content of a body read to its end; [None] when it ends in an error. *)
Fixpoint whole (src : source_body) : option string :=
  match src with
  | [] => Some ""
  | (p, More) :: src => (λ rest, p +:+ rest) <$> whole src
  | (p, EOF) :: _ => Some p
  | (_, ReadError _) :: _ => None
  end.

(** The cache entry a request is about. *)
Definition cache_key (rq : request) : string * string * string * string :=
  (TrimSpace (up_TenantID (rq_upstream rq)), TrimSpace (up_ID (rq_upstream rq)), rq_kind rq, TrimSpace (rq_digest rq)).

(** The upstream answered [rq] with status 200 and these headers and body. *)
Definition answered (rq : request) (m : artifactMetadata) (src : source_body) : Prop :=
  rq_fetch rq = Ok (Some (mkArtifactResponse 200 (meta_ContentType m) (meta_Headers m) (Some src))).

Lemma request_fetch_eq {sorter : SortSlice} cache rq :
  request_fetch cache rq = fetchWithCache cache (rq_upstream rq) (rq_kind rq) (rq_digest rq) (rq_fetch rq).
Proof. unfold request_fetch, rq_kind, rq_digest. by destruct (rq_what rq). Qed.

Lemma reads_cache kind digest : digest ≠ "" → shouldReadOCIArtifactFromCache kind digest = true.
Proof. intros H. unfold shouldReadOCIArtifactFromCache. case_decide; [done|]. by rewrite bool_decide_false. Qed.

(** ** Requests are safe programs *)

Section safety.
Context {sorter : SortSlice} (cache : DiskCache) (rqs : list request).

(** What the cache may hold under a final name: the whole body, or the headers,
    of an answer to one of the requests for that entry. *)
Definition published (p : string) (c : Content) : Prop :=
  ∃ rq m src b data meta, rq ∈ rqs ∧ answered rq m src ∧ whole src = Some b ∧
    finalPaths cache (TrimSpace (up_TenantID (rq_upstream rq))) (TrimSpace (up_ID (rq_upstream rq)))
      (rq_kind rq) (rq_digest rq) = Ok (data, meta) ∧
    (p = data ∧ c = Bytes b ∨ p = meta ∧ c = Doc m).

Notation safe := (safe published).

(** A reader whose writer has staged what was read so far. *)
Definition reader_ok (o : owned) (r : cacheReadCloser) : Prop :=
  ∀ s, writer r = Some s → ∃ b, session_ok o s b ∧
    ∀ rest, whole (source r) = Some rest →
      published (finalData s) (Bytes (b +:+ rest)) ∧ published (finalMeta s) (Doc (descriptor s)).

Lemma cacheReadCloser_Read_safe o r :
  reader_ok o r → safe (λ o' res, reader_ok o' res.1) o (cacheReadCloser_Read r).
Proof.
  intros Hr. unfold cacheReadCloser_Read. destruct (next_read (source r)) as [[p err] src] eqn:Hn.
  assert (Hsrc : match err with
    | More => ∀ rest, whole src = Some rest → whole (source r) = Some (p +:+ rest)
    | EOF => whole (source r) = Some p
    | ReadError _ => True end).
  { unfold next_read in Hn. destruct (source r) as [|[p' []] l]; injection Hn as <- <- <-; try done.
    intros rest H. cbn [whole]. by rewrite H. }
  clear Hn. eapply safe_bind with (Q := λ o' w, ∀ s, w = Some s → ∃ b, session_ok o' s (b +:+ p) ∧
    ∀ rest, whole (source r) = Some rest →
      published (finalData s) (Bytes (b +:+ rest)) ∧ published (finalMeta s) (Doc (descriptor s))).
  - destruct (writer r) as [s|] eqn:Hw; [|done]. destruct (Hr s Hw) as (b & Hs & Hp).
    case_decide as Hempty.
    + intros s' [= <-]. exists b. subst p. by rewrite sapp_nil_r.
    + eapply safe_bind; [by apply session_Write_safe|]. intros o' [v|e] H.
      * intros s' [= <-]. by exists b.
      * eapply safe_bind; [by apply session_Abort_safe|]. done.
  - intros o' w Hw. destruct err as [| |e], w as [s|].
    + intros s' [= <-]. destruct (Hw s eq_refl) as (b & Hs & Hp). exists (b +:+ p). split; [done|].
      intros rest H. rewrite sapp_assoc. by apply Hp, Hsrc.
    + done.
    + destruct (Hw s eq_refl) as (b & Hs & Hp). destruct (Hp p Hsrc).
      eapply safe_bind with (Q := λ _ w, w = None); [|by intros ? ? ->].
      eapply safe_bind; [by eapply session_Commit_safe|done].
    + done.
    + destruct (Hw s eq_refl) as (b & Hs & Hp).
      eapply safe_bind with (Q := λ _ w, w = None); [|by intros ? ? ->].
      eapply safe_bind; [eapply session_Abort_safe, Hs|done].
    + done.
Qed.

Lemma copy_safe n o r got : reader_ok o r → safe (λ o' res, reader_ok o' res.1) o (copy n r got).
Proof.
  revert o r got. induction n as [|n IH]; intros o r got Hr; cbn [copy]; [done|].
  eapply safe_bind; [by apply cacheReadCloser_Read_safe|]. intros o' [r' [p st]] Hr'. destruct st; [by apply IH|done|done].
Qed.

Lemma stream_safe n o r (Q : outcome → Prop) :
  reader_ok o r → (∀ got st, Q (Streamed got st)) → safe (λ _, Q) o (stream n r).
Proof.
  intros Hr HQ. unfold stream. eapply safe_bind; [by apply copy_safe|]. intros o' [r' [got st]] Hr'.
  unfold cacheReadCloser_Close. simpl in Hr'. destruct (writer r') as [s|] eqn:Hw; [|apply HQ].
  destruct (Hr' s Hw) as (b & Hs & _).
  apply (safe_bind _ (λ _ _, True)); [|intros; apply HQ].
  eapply safe_bind; [apply session_Abort_safe, Hs|]. done.
Qed.

Definition entry_paths (rq : request) : result (string * string) :=
  finalPaths cache (TrimSpace (up_TenantID (rq_upstream rq))) (TrimSpace (up_ID (rq_upstream rq)))
    (rq_kind rq) (rq_digest rq).

Definition genuine (rq : request) (out : outcome) : Prop :=
  match out with
  | ServedFromCache ct headers c => ∃ data meta,
      entry_paths rq = Ok (data, meta) ∧ published data c ∧ published meta (Doc (mkArtifactMetadata ct headers))
  | _ => True
  end.

Lemma wrapResponse_safe o rq resp :
  rq ∈ rqs → rq_fetch rq = Ok resp →
  safe (λ o' r, ∀ resp', r = Some resp' → ∀ x, art_Body resp' = Some x →
          match x with FromDisk _ => False | FromUpstream _ => True | Caching rc => reader_ok o' rc end) o
    (wrapResponse cache (TrimSpace (up_TenantID (rq_upstream rq))) (TrimSpace (up_ID (rq_upstream rq)))
       (rq_kind rq) (rq_digest rq) resp).
Proof.
  intros Hin Hf. unfold wrapResponse. destruct resp as [resp|]; [|done].
  assert (Hplain : ∀ o', safe (λ o' r, ∀ resp', r = Some resp' → ∀ x, art_Body resp' = Some x →
    match x with FromDisk _ => False | FromUpstream _ => True | Caching rc => reader_ok o' rc end) o'
    (Ret (map_body FromUpstream <$> Some resp))).
  { intros o' resp' [= <-] x. simpl. destruct (art_Body resp); [|done]. by intros [= <-]. }
  destruct (art_Body resp) as [src|] eqn:Hb; [|apply Hplain].
  case_decide as Hc; [apply Hplain|]. eapply safe_bind; [apply StartWrite_safe|].
  intros o1 [s|e] Hs; [|apply Hplain]. destruct (Hs s eq_refl) as (Hok & Hpaths & Hd).
  intros resp' [= <-] x. simpl. rewrite Hb. intros [= <-] s' [= <-]. exists "". split; [done|].
  intros rest Hw. cbn [source] in Hw. change ("" +:+ rest) with rest.
  assert (Hans : answered rq (descriptor s) src).
  { unfold answered. rewrite Hf, Hd. do 2 f_equal. destruct resp as [st ct hs bd]. simpl in *.
    f_equal; [|done]. apply dec_stable. tauto. }
  split; exists rq, (descriptor s), src, rest, (finalData s), (finalMeta s); auto 10.
Qed.

Lemma serve_safe o rq : rq ∈ rqs → safe (λ _, genuine rq) o (serve cache rq).
Proof.
  intros Hin. unfold serve.
  rewrite request_fetch_eq.
  eapply safe_bind with (Q := λ o' r, ∀ resp, r = Ok (Some resp) → ∀ x, art_Body resp = Some x →
    match x with
    | FromDisk c => genuine rq (ServedFromCache (art_ContentType resp) (art_Headers resp) c)
    | FromUpstream _ => True
    | Caching rc => reader_ok o' rc
    end).
  - unfold fetchWithCache, ociArtifactCacheScope. eapply safe_bind with (Q := λ _ r, ∀ resp, r = Ok resp →
      ∃ data meta c m, entry_paths rq = Ok (data, meta) ∧ published data c ∧ published meta (Doc m) ∧
        resp = mkArtifactResponse 200 (meta_ContentType m) (meta_Headers m) (Some c)).
    { destruct (_ && shouldReadOCIArtifactFromCache _ _); [apply Get_safe|done]. }
    intros o1 [resp|e] Hget.
    + intros resp' [= <-] x. destruct (Hget resp eq_refl) as (data & meta & c & m & Hp & Hd & Hm & ->).
      intros [= <-]. exists data, meta. split; [done|]. split; [done|]. by destruct m.
    + destruct (rq_fetch rq) as [resp|e'] eqn:Hf; [|done]. destruct (negb _).
      * intros resp' [= Hr] x. destruct resp as [resp|]; [|done]. injection Hr as <-. simpl.
        destruct (art_Body resp); [|done]. by intros [= <-].
      * eapply safe_bind; [by apply wrapResponse_safe|]. intros o2 r Hr resp' [= ->] x Hx.
        specialize (Hr resp' eq_refl x Hx). by destruct x.
  - intros o1 [[resp|]|e] Hr; [|done|done]. destruct (art_Body resp) as [x|] eqn:Hx; [|done].
    specialize (Hr resp eq_refl x Hx). destruct x as [c|src|rc]; [exact Hr| |]; by apply stream_safe.
Qed.
End safety.

Definition plain_request (rq : request) : Prop :=
  plain_id (up_TenantID (rq_upstream rq)) ∧ plain_id (up_ID (rq_upstream rq)).

Lemma rq_kind_ok rq : kind_ok (rq_kind rq).
Proof. unfold rq_kind. destruct (rq_what rq); [by left|by right]. Qed.

Lemma plain_trim id : plain_id id → plain_id (TrimSpace id).
Proof. unfold plain_id. by rewrite TrimSpace_idem. Qed.

Lemma entry_paths_key cache rq rq' : cache_key rq = cache_key rq' → entry_paths cache rq = entry_paths cache rq'.
Proof.
  unfold cache_key, entry_paths, finalPaths. intros [= -> -> -> Hd].
  by rewrite (splitDigest_trim _ _ Hd).
Qed.

(** Requests with a path in common are for the same entry. *)
Lemma same_entry cache rq rq' p q p' q' :
  rootDir cache ≠ "" → plain_request rq → plain_request rq' →
  entry_paths cache rq = Ok (p, q) → entry_paths cache rq' = Ok (p', q') → p = p' ∨ q = q' →
  cache_key rq = cache_key rq'.
Proof.
  intros Hroot [Ht Hu] [Ht' Hu'] H H' E. unfold cache_key.
  edestruct (finalPaths_inj cache Hroot) as (E1 & E2 & E3 & E4); [..|exact H|exact H'|exact E|];
    try apply plain_trim; try apply rq_kind_ok; try done.
  rewrite !TrimSpace_idem in E1, E2. by rewrite E1, E2, E3, E4.
Qed.

(** ** Running alone *)

Section alone.
Context {sorter : SortSlice} (cache : DiskCache).
Context (unlimited : maxAge cache <= 0 ∧ maxEntries cache <= 0 ∧ maxBytes cache <= 0).

(** A world in which the temporary file [t] holds [b], freshly written. *)
Definition with_temp (t b : string) (w : World) : World :=
  set_files (<[t := mkFile (Bytes b) (clock w)]> (files w)) w.

Record open_session (s : diskWriteSession) : Prop := {
  os_flags : file_open s = true ∧ aborted s = false ∧ committed s = false;
  os_cache : OciCache.cache s = cache;
  os_temp : ∃ n, temp_name n (tempDataPath s) ∧ temp_name n (tempDataPath s +:+ ".meta");
  os_final : final_name (finalData s) ∧ final_name (finalMeta s) ∧ finalData s ≠ finalMeta s;
}.

Lemma append_with_temp t b p w : append_to t p (with_temp t b w) = with_temp t (b +:+ p) w.
Proof.
  unfold append_to, with_temp, set_files. cbn [files next_temp clock].
  by rewrite alter_insert_eq.
Qed.

Lemma run_Read s src got w :
  open_session s →
  let '((p, st), src') := next_read src in
  run (cacheReadCloser_Read (mkCacheReadCloser src (Some s))) [] (with_temp (tempDataPath s) got w) =
  let staged := with_temp (tempDataPath s) (got +:+ p) w in
  match st with
  | More => (mkCacheReadCloser src' (Some s), (p, st), staged)
  | EOF => (mkCacheReadCloser src' None, (p, st), (run (session_Commit s) [] staged).2)
  | ReadError _ => (mkCacheReadCloser src' None, (p, st), (run (session_Abort s) [] staged).2)
  end.
Proof.
  intros [(Hop & Ha & Hc) _ _ _]. destruct (next_read src) as [[p st] src'] eqn:Hn.
  unfold cacheReadCloser_Read. cbn [source writer]. rewrite Hn, run_bind.
  assert (run (if decide (p = "") then Ret (Some s)
               else res ← session_Write s p;
                    match res with Ok _ => Ret (Some s) | Err _ => _ ← session_Abort s; Ret None end)
            [] (with_temp (tempDataPath s) got w) = (Some s, with_temp (tempDataPath s) (got +:+ p) w)) as ->.
  { case_decide as Hp; [by rewrite Hp, sapp_nil_r|]. rewrite run_bind. unfold session_Write. rewrite Ha, Hc, Hop.
    cbn [orb perform run head tail default exec fst snd]. by rewrite append_with_temp. }
  cbn [fst snd]. destruct st; [done| |]; rewrite run_bind; cbn [fst snd]; rewrite run_bind; done.
Qed.

(** Reading a wrapped body to its end stages all of it and commits. *)
Lemma run_copy s src n got b w :
  open_session s → (length src < n)%nat → whole src = Some b →
  ∃ src', run (copy n (mkCacheReadCloser src (Some s)) got) [] (with_temp (tempDataPath s) got w) =
    (mkCacheReadCloser src' None, (got +:+ b, EOF),
     (run (session_Commit s) [] (with_temp (tempDataPath s) (got +:+ b) w)).2).
Proof.
  intros Hs. revert n got b. induction src as [|[p st] src IH]; intros n got b Hn Hw;
    (destruct n as [|n]; [simpl in Hn; lia|]); cbn [copy]; rewrite run_bind.
  - pose proof (run_Read s [] got w Hs) as ->. cbn [fst snd run]. injection Hw as <-. by eexists.
  - pose proof (run_Read s ((p, st) :: src) got w Hs) as ->. cbn [next_read]. destruct st; cbn [fst snd]; [| |done].
    + cbn [whole] in Hw. destruct (whole src) as [rest|] eqn:Hrest; [|done]. injection Hw as <-.
      destruct (IH n (got +:+ p) rest) as [src' H]; [simpl in Hn; lia|done|]. exists src'.
      rewrite H. by rewrite sapp_assoc.
    + injection Hw as <-. by eexists.
Qed.

(** A commit onto a free entry publishes it, onto a taken one changes nothing. *)
Lemma run_Commit s b w :
  open_session s →
  let w' := (run (session_Commit s) [] (with_temp (tempDataPath s) b w)).2 in
  match shows w (finalData s) with
  | None => shows w' (finalData s) = Some (Bytes b) ∧ shows w' (finalMeta s) = Some (Doc (descriptor s))
  | Some c => shows w' (finalData s) = Some c ∧ shows w' (finalMeta s) = shows w (finalMeta s)
  end.
Proof.
  intros [(Hop & Ha & Hc) Hcache (n & Ht & Htm) (Hd & Hm & Hdm)].
  assert (Hne : ∀ p q, final_name p → temp_name n q → p ≠ q).
  { intros p q Hp Hq ->. by apply (temp_not_final n q). }
  pose proof (Hne _ _ Hd Ht) as H1. pose proof (Hne _ _ Hm Ht) as H2.
  pose proof (Hne _ _ Hd Htm) as H3. pose proof (Hne _ _ Hm Htm) as H4.
  pose proof (temp_meta_other (tempDataPath s)) as H5.
  unfold session_Commit, close_file. rewrite Ha, Hc, Hop. cbn [orb]. rewrite run_bind.
  cbn [perform run head tail default exec fst snd]. rewrite run_bind. cbn [perform run head tail default exec fst snd].
  rewrite run_bind. cbn [perform run head tail default exec fst snd set_flags tempDataPath finalData finalMeta descriptor].
  unfold with_temp, set_files. cbn [files].
  rewrite !lookup_insert_ne by done. unfold shows.
  destruct (files w !! finalData s) as [x|] eqn:Hx; cbn [fmap option_fmap option_map fst snd].
  - rewrite !run_bind, !run_remove_quietly. cbn [fst snd run set_files files].
    rewrite !lookup_delete_ne, !lookup_insert_ne by done. by rewrite Hx.
  - change (errors_Is (no_such_file "stat" (finalData s)) ErrNotExist) with true. cbn [negb].
    rewrite run_bind. cbn [perform run head tail default exec fst snd files].
    rewrite lookup_insert_ne by done. rewrite lookup_insert_eq. cbn [fst snd].
    rewrite run_bind. cbn [perform run head tail default exec fst snd files set_files].
    rewrite lookup_insert_ne, lookup_delete_ne, lookup_insert_eq by done. cbn [fst snd].
    unfold enforceLimits. cbn [set_flags OciCache.cache]. rewrite Hcache, decide_True by done. cbn [run mbind].
    simpl. split; [|by rewrite lookup_insert_eq]. rewrite lookup_insert_ne by done.
    rewrite lookup_delete_ne by done. by rewrite lookup_insert_eq.
Qed.

Lemma run_StartWrite t u k d desc data meta w :
  finalPaths cache t u k d = Ok (data, meta) →
  ∃ s w1, run (StartWrite cache t u k d desc) [] w = (Ok s, with_temp (tempDataPath s) "" w1) ∧
    files w1 = files w ∧ open_session s ∧ finalData s = data ∧ finalMeta s = meta ∧ descriptor s = desc.
Proof.
  intros Hf. assert (∃ root, scopeRoot cache t u = Ok root) as [root Hr].
  { revert Hf. unfold finalPaths. destruct (splitDigest d) as [[a e]|]; [|done]. cbn [mbind result_bind].
    destruct (scopeRoot cache t u); [eauto|done]. }
  destruct (finalPaths_final _ _ _ _ _ _ _ Hf) as [Hd Hm].
  pose proof (finalPaths_data_meta _ _ _ _ _ _ _ _ _ _ _ _ _ Hf Hf) as Hdm.
  unfold StartWrite. rewrite Hf, run_bind. cbn [perform run head tail default exec fst snd].
  rewrite Hr, run_bind. cbn [perform run head tail default exec fst snd].
  rewrite run_bind. cbn [perform run head tail default exec fst snd].
  set (path := PathJoin [root; ".tmp"] +:+ "/" +:+ (k +:+ "-") +:+ itoa (Z.of_nat (next_temp w)) +:+ ".part").
  exists (mkSession cache t u k d true path data meta desc false false), (mkWorld (files w) (S (next_temp w)) (clock w)).
  split; [done|]. split; [done|]. split; [|done]. split; try done.
  exists (next_temp w). cbn [tempDataPath]. split; [apply create_temp_name|].
  pose proof (temp_meta_name (next_temp w) (PathJoin [root; ".tmp"] +:+ "/" +:+ k)) as Ht.
  unfold path. by rewrite !sapp_assoc in Ht |- *.
Qed.

(** What a lookup finds. *)
Lemma run_Get t u k d data meta w :
  finalPaths cache t u k d = Ok (data, meta) →
  match shows w meta, shows w data with
  | None, _ => run (Get cache t u k d) [] w = (Err (sentinel_error ErrCacheMiss), w)
  | Some (Doc m), Some c =>
      run (Get cache t u k d) [] w = (Ok (mkArtifactResponse 200 (meta_ContentType m) (meta_Headers m) (Some c)), w)
  | _, _ => True
  end.
Proof.
  intros Hf. unfold Get, shows. rewrite Hf.
  destruct (files w !! meta) as [[[x|m] tm]|] eqn:Hm; cbn [fmap option_fmap option_map content]; [done| |].
  - destruct (files w !! data) as [x|] eqn:Hd; [|done]. rewrite run_bind.
    cbn [perform run head tail default exec fst snd]. rewrite Hm. cbn [fst snd].
    rewrite run_bind. cbn [perform run head tail default exec fst snd]. by rewrite Hd.
  - rewrite run_bind. cbn [perform run head tail default exec fst snd]. by rewrite Hm.
Qed.

Lemma entry_scope rq data meta :
  entry_paths cache rq = Ok (data, meta) →
  ociArtifactCacheScope (rq_upstream rq) =
    (TrimSpace (up_TenantID (rq_upstream rq)), TrimSpace (up_ID (rq_upstream rq)), true) ∧ rq_digest rq ≠ "".
Proof.
  unfold entry_paths, finalPaths, ociArtifactCacheScope. intros H. split.
  - destruct (splitDigest (rq_digest rq)) as [[a e]|]; [|done]. cbn [mbind result_bind] in H.
    unfold scopeRoot, pathComponent in H. rewrite !TrimSpace_idem in H.
    destruct (decide (TrimSpace (up_TenantID (rq_upstream rq)) = "")); [done|]. cbn [mbind result_bind] in H.
    destruct (decide (TrimSpace (up_ID (rq_upstream rq)) = "")); [done|]. by rewrite !bool_decide_false.
  - intros E. by rewrite E in H.
Qed.

(** One request alone whose upstream body is read to its end, when the cache has
    no headers for the entry. *)
Lemma run_serve_miss rq m src b data meta w :
  entry_paths cache rq = Ok (data, meta) → shows w meta = None →
  answered rq m src → whole src = Some b → (length src < rq_reads rq)%nat →
  ∃ w', run (serve cache rq) [] w = (Streamed b EOF, w') ∧
  match shows w data with
  | None => shows w' data = Some (Bytes b) ∧ shows w' meta = Some (Doc m)
  | Some c => shows w' data = Some c ∧ shows w' meta = None
  end.
Proof.
  intros Hp Hmiss Hans Hw Hn. pose proof (run_Get _ _ _ _ _ _ w Hp) as Hget. rewrite Hmiss in Hget.
  destruct (entry_scope rq data meta Hp) as [Hscope Hdig].
  unfold serve. rewrite run_bind.
  rewrite request_fetch_eq.
  unfold fetchWithCache. rewrite Hscope, reads_cache by done. cbn [andb]. rewrite run_bind, Hget. cbn [fst snd]. rewrite Hans. cbn [negb]. rewrite run_bind.
  unfold wrapResponse. cbn [art_Body art_StatusCode]. rewrite decide_False by (intros []; done).
  rewrite run_bind.
  destruct (run_StartWrite _ _ _ _ (mkArtifactMetadata (meta_ContentType m) (meta_Headers m)) _ _ w Hp)
    as (s & w1 & Hstart & Hfiles & Hs & Hsd & Hsm & Hdesc).
  cbn [art_ContentType art_Headers]. rewrite Hstart. cbn [fst snd run map_body art_Body fmap option_fmap option_map].
  unfold stream. rewrite run_bind. destruct (run_copy s src (rq_reads rq) "" b w1 Hs Hn Hw) as [src' Hcopy].
  rewrite Hcopy. cbn [fst snd]. rewrite run_bind. cbn [cacheReadCloser_Close writer run fst snd].
  eexists. split; [reflexivity|]. pose proof (run_Commit s b w1 Hs) as H.
  change ("" +:+ b) with b. unfold shows in *. rewrite Hfiles, Hsd, Hsm, Hdesc in H. 
  destruct m. destruct (content <$> files w !! data); [|exact H]. by rewrite Hmiss in H.
Qed.

(** Once both files are there, every request for the entry is a hit. *)
Lemma run_serve_hit rq m c data meta w :
  entry_paths cache rq = Ok (data, meta) → shows w meta = Some (Doc m) → shows w data = Some c →
  run (serve cache rq) [] w = (ServedFromCache (meta_ContentType m) (meta_Headers m) c, w).
Proof.
  intros Hp Hm Hd. pose proof (run_Get _ _ _ _ _ _ w Hp) as Hget. rewrite Hm, Hd in Hget.
  destruct (entry_scope rq data meta Hp) as [Hscope Hdig]. unfold serve. rewrite run_bind.
  rewrite request_fetch_eq.
  unfold fetchWithCache. rewrite Hscope, reads_cache by done. cbn [andb]. by rewrite run_bind, Hget.
Qed.
End alone.

(** ** Properties *)

(** C32: whatever the requests, their interleaving at file operations, the
    operations that fail and the moments processes die, a body served from the
    cache is the whole body of a successful upstream answer to a request for the
    same tenant, upstream, kind and digest; the headers come from such an answer
    too.  Partial bodies, failed writes and aborted requests are never served. *)
Theorem cache_serves_whole_answers (sorter : SortSlice) cache rqs t s i rq ct headers c :
  rootDir cache ≠ "" → Forall plain_request rqs →
  rtc step (serve cache <$> rqs, mkWorld ∅ 0 t) s →
  rqs !! i = Some rq → s.1 !! i = Some (Ret (ServedFromCache ct headers c)) →
  ∃ rq1 rq2 m src src2 b,
    rq1 ∈ rqs ∧ rq2 ∈ rqs ∧ cache_key rq1 = cache_key rq ∧ cache_key rq2 = cache_key rq ∧
    answered rq1 m src ∧ whole src = Some b ∧ c = Bytes b ∧
    answered rq2 (mkArtifactMetadata ct headers) src2 ∧ is_Some (whole src2).
Proof.
  intros Hroot Hplain Hr Hrq Hi. rewrite Forall_forall in Hplain.
  destruct (pool_published (published cache rqs) (λ j _ out, ∀ rq, rqs !! j = Some rq → genuine cache rqs rq out)
    (serve cache <$> rqs) (mkWorld ∅ 0 t) s) as [_ Hq]; [done| |done|].
  { intros j p Hp. rewrite list_lookup_fmap in Hp. destruct (rqs !! j) as [rq'|] eqn:Hj; [|done].
    injection Hp as <-. eapply safe_mono; [by apply serve_safe, (list_elem_of_lookup_2 _ j)|].
    intros o a Ha rq2 [= <-]. exact Ha. }
  destruct (Hq i _ Hi) as [_ Hg]. destruct (Hg rq Hrq) as (data & meta & Hp & Hd & Hm). clear Hg Hq.
  pose proof (list_elem_of_lookup_2 _ _ _ Hrq) as Hin.
  destruct Hd as (rq1 & m & src & b & d1 & m1 & H1 & Ha1 & Hw1 & Hp1 & Hc1).
  destruct Hm as (rq2 & m' & src2 & b2 & d2 & m2 & H2 & Ha2 & Hw2 & Hp2 & Hc2).
  pose proof (same_entry cache) as Hsame. unfold entry_paths in *.
  exists rq1, rq2, m, src, src2, b. split; [done|]. split; [done|].
  destruct Hc1 as [[-> ->]|[E _]]; [|by destruct (finalPaths_data_meta _ _ _ _ _ _ _ _ _ _ _ _ _ Hp Hp1)].
  destruct Hc2 as [[E _]|[-> [= <-]]]; [by destruct (finalPaths_data_meta _ _ _ _ _ _ _ _ _ _ _ _ _ Hp2 Hp)|].
  split; [eapply (Hsame rq1 rq); eauto|]. split; [eapply (Hsame rq2 rq); eauto|]. rewrite Hw2. eauto 10.
Qed.

Definition ex_cache : DiskCache := mkDiskCache "/c" 0 0 0.
Definition ex_upstream : Upstream := mkUpstream "u" "t" "hub" EcosystemOCI "https://hub" None None 0 0.
Definition ex_source : source_body := [("la", More); ("yer", EOF)].
Definition ex_request : request :=
  mkRequest ex_upstream (inr "sha256:ab")
    (Ok (Some (mkArtifactResponse 200 "application/octet-stream" ∅ (Some ex_source)))) 3.
Definition ex_answer : artifactMetadata := mkArtifactMetadata "application/octet-stream" ∅.
Definition ex_start : pool outcome :=
  ((λ rq, serve (sorter:=insertion_sort) ex_cache rq) <$> [ex_request; ex_request], mkWorld ∅ 0 0).

Lemma cache_serves_whole_answers_witness :
  ∃ rq1 rq2 m src src2 b,
    rq1 ∈ [ex_request; ex_request] ∧ rq2 ∈ [ex_request; ex_request] ∧
    cache_key rq1 = cache_key ex_request ∧ cache_key rq2 = cache_key ex_request ∧
    answered rq1 m src ∧ whole src = Some b ∧ Bytes "layer" = Bytes b ∧
    answered rq2 ex_answer src2 ∧ is_Some (whole src2).
Proof.
  apply (cache_serves_whole_answers insertion_sort ex_cache [ex_request; ex_request] 0
    (play (replicate 30 (0%nat, None) ++ replicate 5 (1%nat, None)) ex_start) 1 ex_request).
  - done.
  - repeat constructor; by vm_compute.
  - apply play_steps.
  - done.
  - by vm_compute.
Defined.

(** With no limits set, a request whose upstream body is read to its end
    leaves the entry in the cache: every later request for the same tenant,
    upstream, kind and digest gets the same bytes and headers from the cache. *)
Theorem read_to_end_is_cached (sorter : SortSlice) cache rq rq' m src b w :
  maxAge cache <= 0 ∧ maxEntries cache <= 0 ∧ maxBytes cache <= 0 →
  (∃ data meta, entry_paths cache rq = Ok (data, meta) ∧ shows w data = None ∧ shows w meta = None) →
  answered rq m src → whole src = Some b → (length src < rq_reads rq)%nat → cache_key rq' = cache_key rq →
  ∃ w', run (serve cache rq) [] w = (Streamed b EOF, w') ∧
        run (serve cache rq') [] w' = (ServedFromCache (meta_ContentType m) (meta_Headers m) (Bytes b), w').
Proof.
  intros Hlim (data & meta & Hp & Hd & Hm) Hans Hw Hn Hkey.
  destruct (run_serve_miss cache Hlim rq m src b data meta w Hp Hm Hans Hw Hn) as (w' & Hrun & H).
  rewrite Hd in H. destruct H as [Hd' Hm']. exists w'. split; [done|].
  apply (run_serve_hit _ _ _ _ data meta); [|done..]. by rewrite (entry_paths_key cache rq' rq Hkey).
Qed.

Lemma read_to_end_is_cached_witness :
  ∃ w', run (serve (sorter:=insertion_sort) ex_cache ex_request) [] (mkWorld ∅ 0 0) = (Streamed "layer" EOF, w') ∧
        run (serve (sorter:=insertion_sort) ex_cache ex_request) [] w' =
          (ServedFromCache "application/octet-stream" ∅ (Bytes "layer"), w').
Proof.
  apply (read_to_end_is_cached insertion_sort ex_cache ex_request ex_request ex_answer ex_source "layer").
  - by vm_compute.
  - do 2 eexists. split; [by vm_compute|done].
  - done.
  - done.
  - simpl. lia.
  - done.
Defined.

(** A body without its headers, which a process leaves behind when it dies
    between the two renames of [Commit], keeps its entry out of the cache: with
    no limits set, a complete read for it is not cached and leaves the orphan,
    so the next one meets the same state. *)
Theorem orphan_body_is_never_cached (sorter : SortSlice) cache rq m src b w data meta c :
  maxAge cache <= 0 ∧ maxEntries cache <= 0 ∧ maxBytes cache <= 0 →
  entry_paths cache rq = Ok (data, meta) → shows w data = Some c → shows w meta = None →
  answered rq m src → whole src = Some b → (length src < rq_reads rq)%nat →
  ∃ w', run (serve cache rq) [] w = (Streamed b EOF, w') ∧ shows w' data = Some c ∧ shows w' meta = None.
Proof.
  intros Hlim Hp Hd Hm Hans Hw Hn.
  destruct (run_serve_miss cache Hlim rq m src b data meta w Hp Hm Hans Hw Hn) as (w' & Hrun & H).
  rewrite Hd in H. eauto.
Qed.

(** The first request dies after the tenth of its file operations. *)
Definition ex_crash : World := (play (replicate 10 (0%nat, None)) ex_start).2.

Lemma orphan_body_is_never_cached_witness :
  ∃ w', run (serve (sorter:=insertion_sort) ex_cache ex_request) [] ex_crash = (Streamed "layer" EOF, w') ∧
        shows w' "/c/t/u/blobs/sha256/ab.data" = Some (Bytes "layer") ∧
        shows w' "/c/t/u/blobs/sha256/ab.meta.json" = None.
Proof.
  apply (orphan_body_is_never_cached insertion_sort ex_cache ex_request ex_answer ex_source).
  - by vm_compute.
  - by vm_compute.
  - by vm_compute.
  - by vm_compute.
  - done.
  - done.
  - simpl. lia.
Defined.
