(* ===== verification/NpmProxy.v ===== *)
(** * The npm registry endpoint

    [internal/delivery/npm]: the dispatch of [handler.go], the metadata flow with the
    rewriting of tarball URLs of [metadata.go], and the proof that a rewritten URL
    comes back as the tarball request it stands for.  What a request says of its own
    origin is a record of its own; reading an upstream body to its end is a
    parameter, because it can fail. *)

From stdpp Require Import pretty.
From S2P Require Import Prelude GoStrings GoPath Paths Floats Json JsonDecode JsonParse URL Artifact Dependency Upstream PolicyConfig.
From S2P Require Import Policy Conditions Catalog Evaluator PolicyHash Effects Ports AuditLog Enrichment.
From S2P Require Import Access Valkey Memory ProxyFlow Delivery.
#[local] Open Scope list_scope.

(** ** Definitions *)

Definition isJSONContentType (contentType : string) : bool :=
  let mediaType := ToLower (TrimSpace (split_at contentType ";").1) in
  bool_decide (mediaType = "application/json") || bool_decide (CutSuffix mediaType "+json" ≠ None).

(** What [requestBaseURL] reads of a request. *)
Record Origin : Type := mkOrigin {
  TLS : bool;
  ForwardedProto : string;
  ForwardedHost : string;
  origin_Host : string;
}.

Definition firstHeaderValue (value : string) : string := TrimSpace (split_at value ",").1.

Definition origin_scheme (o : Origin) : string :=
  if decide (firstHeaderValue (ForwardedProto o) ≠ "") then firstHeaderValue (ForwardedProto o)
  else if TLS o then "https" else "http".
Definition origin_host (o : Origin) : string :=
  if decide (firstHeaderValue (ForwardedHost o) = "") then origin_Host o else firstHeaderValue (ForwardedHost o).

Definition requestBaseURL (o : Origin) : string := origin_scheme o +:+ "://" +:+ origin_host o.

Definition npmProxyBaseURL (o : Origin) (tenantID upstreamID : string) : string :=
  trim_right_slash (requestBaseURL o) +:+ npmProxyBasePath tenantID upstreamID.

Section rewriting.
Context (ip_literal : string → option error).

Definition tarballPath (tarballURL : string) : string :=
  match url_Parse ip_literal tarballURL with
  | Err _ => tarballURL
  | Ok parsed =>
      if decide (RawPath parsed ≠ "") then RawPath parsed
      else if decide (Path parsed ≠ "") then Path parsed
      else tarballURL
  end.

Definition rewrite_member (proxyBase key : string) (child : json) : json :=
  match child with
  | JString tarball =>
      if bool_decide (key = "tarball") && bool_decide (TrimSpace tarball ≠ "")
      then JString (proxyBase +:+ TrimPrefix (tarballPath tarball) "/") else child
  | _ => child
  end.

Fixpoint rewriteTarballURLs (proxyBase : string) (value : json) : json :=
  match value with
  | JObject kvs => JObject ((λ kv, let '(k, c) := kv in (k, rewrite_member proxyBase k (rewriteTarballURLs proxyBase c))) <$> kvs)
  | JArray l => JArray (rewriteTarballURLs proxyBase <$> l)
  | v => v
  end.

(** [json_syntax_error]: the error of a text that is no document. *)
Context (json_syntax_error : string → error).

Definition rewriteMetadataTarballs (o : Origin) (raw : string) (tenantID upstreamID : string) : result string :=
  match Parse raw with
  | None => Err (json_syntax_error raw)
  | Some doc =>
      payload ← any_of doc;
      json_Marshal (rewriteTarballURLs (npmProxyBaseURL o tenantID upstreamID) payload)
  end.

(** *** The metadata flow *)

Context {W : Type} `{!Ports W, !DeliveryPorts W}.
Notation M := (M W DeliveryCall).
(** [io.ReadAll] on the body of a response. *)
Context (ReadAll : UpstreamResponse → result string).
Context (h : RegistryHandler).

(** The upstream's response with a new body. *)
Definition with_body (body : string) (r : UpstreamResponse) : UpstreamResponse :=
  mkUpstreamResponse (StatusCode r) (ContentType r)
    (<["Content-Length" := itoa (Z.of_nat (String.length body))]> (delete "ETag" (Headers r))) body.

(** [proxyflow.RecordRequestForwarded] *)
Definition forwarded_event (audit : AuditContext) (d : option Decision) (reason message : string) : AuditEvent :=
  let body := ("reason", AnyString reason) ::
    match d with
    | None => []
    | Some d => [("evaluation_outcome", AnyString (dec_Outcome d)); ("warnings", AnyStrings (dec_Warnings d));
                 ("reasons", AnyReasons (dec_Reasons d))]
    end in
  let e := requestAuditEvent audit AuditEventRequestForwarded message None body in
  match d with None => e | Some d => requestAuditEvent (set_ac_Artifact (dec_Artifact d) audit) AuditEventRequestForwarded message None body end.

Definition RecordRequestForwarded (audit : AuditContext) (d : option Decision) (reason message : string) : M () :=
  record (h_audit h) (forwarded_event audit d reason message).

Definition authorizeMetadata (a : npmAccessContext) (version : string) : M bool :=
  let refuse := writeNPMError "audit logging unavailable" StatusInternalServerError in
  if decide (dec_Outcome (na_decision a) = DecisionDeny) then
    ok ← or_refuse (RecordRequestDenied (h_audit h) (na_audit a) (na_decision a) "npm metadata request denied") refuse;
    _ ← when ok (writeNPMError ("policy violation: " +:+ dec_Reason (na_decision a)) StatusForbidden);
    mret false
  else
    _ ← addWarningHeaders (na_decision a);
    if decide (version = "") then
      or_refuse (RecordRequestForwarded (na_audit a) (Some (na_decision a))
        "bare npm packument; concrete version will be evaluated on versioned metadata or tarball request"
        "npm metadata request forwarded") refuse
    else or_refuse (RecordRequestAllowed (h_audit h) (na_audit a) (na_decision a) "npm metadata request allowed") refuse.

Definition fetchMetadataResponse (u : Upstream) (artifact : ArtifactIdentity) (audit : AuditContext) : M (option UpstreamResponse) :=
  r ← attempt (FetchMetadata u artifact);
  match r with
  | Ok o => resp ← deref o; mret (Some resp)
  | Err e =>
      if errors_Is e ErrArtifactNotFound then _ ← writeNPMError "package not found" StatusNotFound; mret None
      else
        _ ← ignore (RecordUpstreamFetchFailed (h_audit h) audit "npm upstream metadata fetch failed" e);
        _ ← writeNPMError "upstream error" StatusBadGateway;
        mret None
  end.

(** The response to send, or the error that was sent. *)
Definition rewritten (o : Origin) (resp : UpstreamResponse) (tenantID upstreamID : string) : result UpstreamResponse :=
  if negb (isJSONContentType (ContentType resp)) then Ok resp
  else
    raw ← ReadAll resp;
    body ← rewriteMetadataTarballs o raw tenantID upstreamID;
    Ok (with_body body resp).

Definition rewriteMetadataResponse (o : Origin) (resp : UpstreamResponse) (tenantID upstreamID : string) : M (option UpstreamResponse) :=
  match rewritten o resp tenantID upstreamID with
  | Ok resp => mret (Some resp)
  | Err _ => _ ← writeNPMError "upstream metadata error" StatusBadGateway; mret None
  end.

Definition handleMetadata (o : Origin) (r : HTTPRequest) (path : string) : M () :=
  let '(name, version) := parsePackagePath path in
  a ← startNPMRequest h r name version AccessRequestKindNPMMetadata "metadata";
  match a with
  | None => mret ()
  | Some a =>
      ok ← authorizeMetadata a version;
      if negb ok then mret ()
      else
        ok ← or_refuse (RecordUpstreamFetchStarted (h_audit h) (na_audit a) "npm upstream metadata fetch started")
               (writeNPMError "audit logging unavailable" StatusInternalServerError);
        if negb ok then mret ()
        else
          resp ← fetchMetadataResponse (na_upstream a) (na_artifact a) (na_audit a);
          match resp with
          | None => mret ()
          | Some resp =>
              resp ← rewriteMetadataResponse o resp (na_tenantID a) (up_ID (na_upstream a));
              match resp with None => mret () | Some resp => respond (RespondStream resp) end
          end
  end.

(** The three kinds of GET request. *)
Inductive npm_target : Type := NoPackage | Tarball (name version : string) | Metadata (path : string).

Definition npm_dispatch (path : string) : npm_target :=
  let path := TrimPrefix path "/npm/" in
  if decide (path = "") then NoPackage
  else match parseTarballPath path with Some (name, version) => Tarball name version | None => Metadata path end.

Definition npm_route (o : Origin) (r : HTTPRequest) : M () :=
  match npm_dispatch (URLPath r) with
  | NoPackage => writeNPMError "package name is required" StatusBadRequest
  | Tarball name version => handleTarball h r name version
  | Metadata path => handleMetadata o r path
  end.
End rewriting.

(** ** Examples *)

Definition no_check : string → option error := λ _, None.

Example any_of_ex :
  any_of (JObject [("b", JInt 1); ("a", JArray [JNull]); ("b", JString "x")]) =
    Ok (JObject [("a", JArray [JNull]); ("b", JString "x")]).
Proof. vm_compute. reflexivity. Qed.

Example rewrite_ex :
  rewriteMetadataTarballs no_check (λ _, new_error "bad") (mkOrigin false "https, http" "" "fw.example:8443")
    (quoted "{'dist':{'tarball':'https://registry.npmjs.org/@s/p/-/p-1.0.0.tgz','size':12},'tarball':7}") "t1" "u1" =
  Ok (quoted "{'dist':{'size':12,'tarball':'https://fw.example:8443/npm/t/t1/u/u1/@s/p/-/p-1.0.0.tgz'},'tarball':7}").
Proof. vm_compute. reflexivity. Qed.

Example json_types : isJSONContentType "Application/JSON; charset=utf-8" = true ∧
  isJSONContentType "application/vnd.npm.install-v1+json" = true ∧ isJSONContentType "text/html" = false.
Proof. vm_compute. repeat split. Qed.

(** ** Lemmas *)

(** *** What the endpoint sends *)

(** All fetches are of the form [F], and content is only sent where [T] relates it
    to a call made. *)
Definition delivers (F : DeliveryCall → Prop) (T : DeliveryCall → UpstreamResponse → Prop) (l : list DeliveryCall) : Prop :=
  Forall (λ c, match c with
    | DFetchMetadata _ _ _ | DFetchContent _ _ _ => F c
    | DRespond (RespondStream resp) => Exists (λ c, T c resp) l
    | _ => True
    end) l.

Lemma delivers_mono F F' (T T' : DeliveryCall → UpstreamResponse → Prop) l :
  (∀ c, F c → F' c) → (∀ c r, T c r → T' c r) → delivers F T l → delivers F' T' l.
Proof.
  intros HF HT H. eapply Forall_impl; [exact H|]. intros c Hc. destruct c as [| | | | | |[]]; eauto.
  eapply Exists_impl; [exact Hc|]. eauto.
Qed.

Lemma serves_only_delivers F l : serves_only F l → delivers F (λ c r, fetched r c) l.
Proof. intros H. eapply Forall_impl; [exact H|]. intros c Hc. by destruct c as [| | | | | |[]]. Qed.

Lemma delivers_quiet F T l : Forall quiet_call l → delivers F T l.
Proof.
  intros H. unfold delivers. generalize l at 1. intros l'.
  induction H as [|c l Hc _ IH]; constructor; [|done]. by destruct c as [| | | | | |[]].
Qed.

Lemma delivers_app F T l1 l2 : delivers F T l1 → delivers F T l2 → delivers F T (l1 ++ l2).
Proof.
  intros H1 H2. apply Forall_app. split; [eapply Forall_impl; [exact H1|]|eapply Forall_impl; [exact H2|]];
    intros c Hc; destruct c as [| | | | | |[]]; try done; apply Exists_app; auto.
Qed.

Section served.
Context (ip_literal : string → option error) (json_syntax_error : string → error).
Context {W : Type} `{!Ports W, !DeliveryPorts W}.
Notation M := (M W DeliveryCall).
Context (ReadAll : UpstreamResponse → result string).
Context (h : RegistryHandler).

(** A quiet step, then the rest. *)
Lemma quietly_deliver {A B} I (F : list DeliveryCall → DeliveryCall → Prop) T (m : M A) (f : A → M B) :
  quietly I m →
  (∀ l a, I l a → triple (f a) (λ l' _, delivers (F (l ++ l')) T l')) →
  triple (m ≫= f) (λ l _, delivers (F l) T l).
Proof.
  intros Hm Hf. eapply triple_bind; [exact Hm| |].
  - intros l a [Hl Ha]. eapply triple_mono; [exact (Hf l a (Ha a eq_refl))|].
    intros l' r Hr. apply delivers_app; [by apply delivers_quiet|done].
  - intros l e [Hl _]. by apply delivers_quiet.
Qed.

Lemma all_delivers {A} F T (m : M A) : all quiet_call m → triple m (λ l _, delivers (F l) T l).
Proof. intros H. eapply triple_mono; [exact H|]. intros l r Hl. by apply delivers_quiet. Qed.

(** The fetch a metadata request may make. *)
Definition metadata_fetch (r : HTTPRequest) (name version : string) (l : list DeliveryCall) (c : DeliveryCall) : Prop :=
  match c with
  | DFetchMetadata u a _ => a = mkArtifact EcosystemNPM "" name version "" ∧
      ∃ tenant now d, ctx_Tenant r = Some tenant ∧ dec_Outcome d ≠ DecisionDeny ∧
        evaluated h l (NewAccessRequest r tenant u a AccessRequestKindNPMMetadata now) d
  | _ => False
  end.

(** The document fetched, rewritten for the tenant and the upstream of the fetch. *)
Definition metadata_sent (o : Origin) (r : HTTPRequest) (c : DeliveryCall) (resp : UpstreamResponse) : Prop :=
  match c with
  | DFetchMetadata u _ (Ok (Some doc)) =>
      ∃ tenant, ctx_Tenant r = Some tenant ∧
        rewritten ip_literal json_syntax_error ReadAll o doc tenant (up_ID u) = Ok resp
  | _ => False
  end.

Lemma authorizeMetadata_quietly a version :
  quietly (λ _ ok, ok = true → dec_Outcome (na_decision a) ≠ DecisionDeny) (authorizeMetadata (W:=W) h a version).
Proof.
  unfold authorizeMetadata. case_decide as Hd.
  - eapply quietly_bind; [apply quietly_all; unfold RecordRequestDenied; walk|]. intros l1 ok _.
    eapply quietly_bind; [apply quietly_all; walk|]. intros l2 _ _. by apply quietly_ret.
  - eapply triple_mono; [apply quietly_all; unfold addWarningHeaders, RecordRequestAllowed, RecordRequestForwarded; walk|].
    by intros l r [Hl _].
Qed.

(** From the fetch to the response. *)
Definition send_metadata (o : Origin) (u : Upstream) (artifact : ArtifactIdentity) (audit : AuditContext) (tenant : string) : M () :=
  resp ← fetchMetadataResponse h u artifact audit;
  match resp with
  | None => mret ()
  | Some resp =>
      resp ← rewriteMetadataResponse ip_literal json_syntax_error ReadAll o resp tenant (up_ID u);
      match resp with None => mret () | Some resp => respond (RespondStream resp) end
  end.

Lemma fetchMetadataResponse_log u a audit :
  triple (fetchMetadataResponse (W:=W) h u a audit) (λ l r, ∃ res l',
    l = DFetchMetadata u a res :: l' ∧ Forall quiet_call l' ∧ ∀ doc, r = Ok (Some doc) → res = Ok (Some doc)).
Proof.
  unfold fetchMetadataResponse.
  eapply triple_bind with (λ l r, ∃ res, r = Ok res ∧ l = [DFetchMetadata u a res]).
  - apply triple_attempt. eapply triple_mono; [apply FetchMetadata_log|]. intros l r ->. eauto.
  - intros l res (? & [= <-] & ->). destruct res as [[doc|]|e].
    + apply triple_ret. exists (Ok (Some doc)), []. repeat split; [constructor|]. by intros ? [= <-].
    + apply triple_throw. by exists (Ok None), [].
    + apply triple_mono with (λ l (r : result (option UpstreamResponse)), Forall quiet_call l ∧ ∀ doc, r = Ok doc → doc = None).
      * destruct (errors_Is e ErrArtifactNotFound).
        -- eapply quietly_bind; [apply quietly_all; walk|]. intros. by apply quietly_ret.
        -- eapply quietly_bind; [apply quietly_all; unfold RecordUpstreamFetchFailed; walk|]. intros l _ _.
           eapply quietly_bind; [apply quietly_all; walk|]. intros. by apply quietly_ret.
      * intros l r [Hl Hr]. exists (Err e), l. split; [done|]. split; [done|]. intros doc ->. by specialize (Hr _ eq_refl).
  - by intros l e (res & [=] & _).
Qed.

Lemma send_metadata_delivers o r u a audit tenant (F : DeliveryCall → Prop) :
  ctx_Tenant r = Some tenant → (∀ res, F (DFetchMetadata u a res)) →
  triple (send_metadata o u a audit tenant) (λ l _, delivers F (metadata_sent o r) l).
Proof.
  intros Ht HF. unfold send_metadata. eapply triple_bind; [apply fetchMetadataResponse_log| |].
  - intros l o' (res & l' & -> & Hq & Hres).
    assert (delivers F (metadata_sent o r) (DFetchMetadata u a res :: l')) as Hd.
    { constructor; [apply HF|]. eapply Forall_impl; [exact Hq|]. intros c Hc. by destruct c as [| | | | | |[]]. }
    destruct o' as [doc|]; [|apply triple_ret; by rewrite app_nil_r]. rewrite (Hres doc eq_refl) in *.
    unfold rewriteMetadataResponse. destruct (rewritten _ _ _ o doc tenant (up_ID u)) as [resp|e] eqn:E.
    + intros st. exists [DRespond (RespondStream resp)]. split; [done|]. apply Forall_app. split.
      * eapply Forall_impl; [exact Hd|]. intros c Hc. destruct c as [| | | | | |[]]; try done. by apply Exists_app; left.
      * constructor; [|constructor]. apply Exists_app. left. constructor. simpl. eauto.
    + intros st. eexists. split; [done|]. apply delivers_app; [done|]. by repeat constructor.
  - intros l e (res & l' & -> & Hq & _). constructor; [apply HF|].
    eapply Forall_impl; [exact Hq|]. intros c Hc. by destruct c as [| | | | | |[]].
Qed.

Lemma handleMetadata_delivers o r path :
  let '(name, version) := parsePackagePath path in
  triple (handleMetadata ip_literal json_syntax_error ReadAll h o r path)
    (λ l _, delivers (metadata_fetch r name version l) (metadata_sent o r) l).
Proof.
  unfold handleMetadata. destruct (parsePackagePath path) as [name version].
  eapply quietly_deliver; [apply startNPMRequest_quietly|].
  intros l1 [a|] Ha; [|by apply triple_ret; constructor]. destruct (Ha a eq_refl) as (Hart & now & Ht & He). clear Ha.
  eapply (quietly_deliver _ (λ l', _ (l1 ++ l'))); [apply authorizeMetadata_quietly|].
  intros l2 [] Hok; [|by apply triple_ret; constructor]. specialize (Hok eq_refl). cbn [negb].
  eapply (quietly_deliver _ (λ l', _ (l1 ++ l2 ++ l')));
    [apply quietly_all; unfold RecordUpstreamFetchStarted; walk|]. intros l3 [] _; [|by apply triple_ret; constructor].
  cbn [negb]. rewrite Hart.
  eapply triple_mono; [apply (send_metadata_delivers o r (na_upstream a) (mkArtifact EcosystemNPM "" name version "") (na_audit a) (na_tenantID a)
    (λ c, ∀ l4, metadata_fetch r name version (l1 ++ l2 ++ l3 ++ l4) c) Ht)|].
  - intros res l4. split; [done|]. exists (na_tenantID a), now, (na_decision a). split; [done|]. split; [done|].
    by apply evaluated_r.
  - intros l4 res Hl. eapply delivers_mono; [|done|exact Hl]. auto.
Qed.

(** What a GET request may fetch. *)
Definition npm_fetch (r : HTTPRequest) (l : list DeliveryCall) (c : DeliveryCall) : Prop :=
  match npm_dispatch (URLPath r) with
  | NoPackage => False
  | Tarball name version => tarball_fetch h r name version l c
  | Metadata path => metadata_fetch r (parsePackagePath path).1 (parsePackagePath path).2 l c
  end.

Definition npm_sent (o : Origin) (r : HTTPRequest) (c : DeliveryCall) (resp : UpstreamResponse) : Prop :=
  match npm_dispatch (URLPath r) with
  | NoPackage => False
  | Tarball _ _ => fetched resp c
  | Metadata _ => metadata_sent o r c resp
  end.
End served.

(** ** Properties of the route *)

(** C29: No npm content without an allow.  Whatever the collaborators answer, a GET
    request under [/npm/] fetches from the upstream only the tarball or the metadata
    of the package and version its own path names, through the upstream the access
    pipeline evaluated it for, and only after the pipeline decided on this request of
    this tenant and did not deny it; and the client is sent only what that fetch
    returned: a tarball as it is, a JSON document with its tarball URLs rewritten for
    the same tenant and upstream. *)
Theorem npm_route_guarded {W} `{!Ports W, !DeliveryPorts W} ip_literal json_syntax_error
    (ReadAll : UpstreamResponse → result string) h o r (st : St W DeliveryCall) :
  ∃ l, calls (npm_route ip_literal json_syntax_error ReadAll h o r st).2 = calls st ++ l ∧
    delivers (npm_fetch h r l) (npm_sent ip_literal json_syntax_error ReadAll o r) l.
Proof.
  unfold npm_route, npm_fetch, npm_sent. destruct (npm_dispatch (URLPath r)) as [|name version|path].
  - eexists. split; [done|]. by repeat constructor.
  - destruct (handleTarball_serves h r name version st) as (l & Hl & Hs). exists l. split; [done|].
    by apply serves_only_delivers in Hs.
  - pose proof (handleMetadata_delivers ip_literal json_syntax_error ReadAll h o r path) as H.
    destruct (parsePackagePath path) as [name version]. exact (H st).
Qed.

(** ** The tarball URLs of a document *)

Inductive step : Set := Key (k : string) | Index (i : nat).

Fixpoint assoc (k : string) (kvs : list (string * json)) : option json :=
  match kvs with [] => None | (k', v) :: kvs => if decide (k' = k) then Some v else assoc k kvs end.

(** The value a path of a document leads to. *)
Fixpoint at_path (p : list step) (v : json) : option json :=
  match p with
  | [] => Some v
  | Key k :: p => match v with JObject kvs => c ← assoc k kvs; at_path p c | _ => None end
  | Index i :: p => match v with JArray l => c ← l !! i; at_path p c | _ => None end
  end.

Section paths.
Context (ip_literal : string → option error) (base : string).
Notation rewrite_doc := (rewriteTarballURLs ip_literal base).

Lemma assoc_rewrite k kvs :
  assoc k ((λ kv, let '(k, c) := kv in (k, rewrite_member ip_literal base k (rewrite_doc c))) <$> kvs) =
  (λ c, rewrite_member ip_literal base k (rewrite_doc c)) <$> assoc k kvs.
Proof.
  induction kvs as [|[k' v] kvs IH]; [done|]. cbn [fmap list_fmap assoc].
  destruct (decide (k' = k)) as [->|]; [done|exact IH].
Qed.

(** A member that only a name other than [tarball] or a value other than a string
    leads on from is rewritten as a document of its own. *)
Lemma at_path_rewrite_member k p c :
  p ≠ [] → at_path p (rewrite_member ip_literal base k c) = at_path p c.
Proof. intros Hp. destruct c; try done. cbn. destruct (_ && _); [|done]. by destruct p as [|[]]. Qed.

(** The rewriting changes the tarball URLs of a document and nothing else. *)
Lemma rewrite_at p v u :
  at_path (p ++ [Key "tarball"]) v = Some (JString u) → TrimSpace u ≠ "" →
  at_path (p ++ [Key "tarball"]) (rewrite_doc v) = Some (JString (base +:+ TrimPrefix (tarballPath ip_literal u) "/")).
Proof.
  intros H Hu. induction p as [|s p IH] in v, H |- *.
  - cbn in H |- *. destruct v as [| | | | | |kvs]; try done. cbn [rewriteTarballURLs]. rewrite assoc_rewrite.
    destruct (assoc "tarball" kvs) as [c|] eqn:E; [|done]. cbn in H. injection H as ->. cbn.
    by rewrite !bool_decide_true.
  - cbn in H |- *. destruct s as [k|i].
    + destruct v as [| | | | | |kvs]; try done. cbn [rewriteTarballURLs]. rewrite assoc_rewrite.
      destruct (assoc k kvs) as [c|] eqn:E; [|done]. cbn in H |- *. rewrite at_path_rewrite_member by (by destruct p).
      by apply IH.
    + destruct v as [| | | | |l|]; try done. cbn [rewriteTarballURLs]. rewrite list_lookup_fmap.
      destruct (l !! i) as [c|]; [|done]. cbn in H |- *. by apply IH.
Qed.

Lemma assoc_reads k kvs kvs' c :
  reads_fields kvs kvs' → assoc k kvs = Some c → ∃ c', assoc k kvs' = Some c' ∧ reads c c'.
Proof.
  induction 1 as [|[k1 v1] [k2 v2] l l' [E Hr] _ IH]; [done|]. cbn in E, Hr |- *. subst k2.
  destruct (decide (k1 = k)); [intros [= <-]; eauto|done].
Qed.

(** A string of a written document is read back in its place. *)
Lemma reads_at p v w s : reads v w → at_path p v = Some (JString s) → at_path p w = Some (JString s).
Proof.
  induction p as [|[k|i] p IH] in v, w |- *; intros Hr H.
  - injection H as ->. by apply reads_string in Hr as ->.
  - destruct v as [| | | | | |kvs]; try done. apply reads_object_inv in Hr as (l & -> & Hl). cbn in H |- *.
    destruct (assoc k kvs) as [c|] eqn:E; [|done]. destruct (assoc_reads k kvs l c Hl E) as (c' & -> & Hc).
    cbn in H |- *. by eapply IH.
  - destruct v as [| | | | |l|]; try done. cbn in H. destruct (l !! i) as [c|] eqn:E; [|done]. cbn in H.
    assert (∃ l', w = JArray l' ∧ Forall2 reads l l') as (l' & -> & Hl).
    { inversion Hr; subst; eauto using Forall2_reads_refl. }
    destruct (Forall2_lookup_l _ _ _ _ _ Hl E) as (c' & Hc & Hr'). cbn. rewrite Hc. cbn. by eapply IH.
Qed.
End paths.

(** A package name and version that can stand in a path as they are. *)
Definition plain_package (name version : string) : Prop :=
  all_chars path_char (tarballFilename name version) = true ∧ version ≠ "" ∧ Cut (name +:+ "/-") "/-/" = None.

(** A scheme of the web and a host without reserved characters. *)
Definition plain_origin (ip_literal : string → option error) (o : Origin) : Prop :=
  (origin_scheme o = "http" ∨ origin_scheme o = "https") ∧ origin_host o ≠ "" ∧
  all_chars host_char (origin_host o) = true ∧ parseHost ip_literal (origin_host o) = Ok (origin_host o).

(** An identifier that is one segment of a path. *)
Definition path_id (s : string) : Prop :=
  s ≠ "" ∧ all_chars path_char s = true ∧ free_of (λ c, bool_decide (c = "/"%char)) s.

Lemma proxy_base ip_literal o tenantID upstreamID rest :
  plain_origin ip_literal o → upstreamID ≠ "" →
  npmProxyBaseURL o tenantID upstreamID +:+ rest =
    origin_scheme o +:+ "://" +:+ origin_host o +:+ "/" +:+ ("npm/t/" +:+ tenantID +:+ "/u/" +:+ upstreamID +:+ "/" +:+ rest).
Proof.
  intros (Hs & Hne & Hh & _) Hu. unfold npmProxyBaseURL, requestBaseURL, npmProxyBasePath, trim_right_slash.
  rewrite decide_False by done. rewrite <-(sapp_assoc (origin_scheme o)), trim_right_app; [by rewrite !sapp_assoc|done|].
  apply trim_right_free. eapply all_chars_free_of; [|exact Hh]. intros c. by apply host_char_not.
Qed.

(** A path below the proxy base of a tenant and an upstream is routed to them. *)
Lemma proxied_tarball_route tenantID upstreamID name version header pinned :
  path_id tenantID → path_id upstreamID → plain_package name version →
  let rt := NPMTenantFromPath (mkRouted ("/npm/t/" +:+ tenantID +:+ "/u/" +:+ upstreamID +:+ "/" +:+ tarballFilename name version) header pinned) in
  rt_TenantHeader rt = tenantID ∧ rt_UpstreamID rt = upstreamID ∧ npm_dispatch (rt_Path rt) = Tarball name version.
Proof.
  intros (Ht & _ & Hts) (Hu & _ & Hus) (_ & Hv & Hn) rt. subst rt. unfold NPMTenantFromPath, tenantFromPath. cbn [rt_Path].
  rewrite (prefix_app "/npm/t/"). cbn [negb]. rewrite (TrimPrefix_app "/npm/t/"). unfold parseNPMTenantPath.
  change ("/u/" +:+ ?x) with ("/" +:+ ("u/" +:+ x)). rewrite (Cut_slash_app tenantID) by done. rewrite decide_False by done.
  rewrite (prefix_app "u/"). cbn [andb]. rewrite (TrimPrefix_app "u/").
  rewrite (Cut_slash_app upstreamID) by done. rewrite decide_False by done. cbn [rt_TenantHeader rt_UpstreamID rt_Path].
  rewrite decide_False by done. split; [done|]. split; [done|]. unfold npm_dispatch. rewrite (TrimPrefix_app "/npm/").
  assert (parseTarballPath (tarballFilename name version) = Some (name, version)) as -> by (by apply parseTarballPath_exact).
  rewrite decide_False; [done|]. unfold tarballFilename. by destruct name.
Qed.

(** C40: Tarball URLs come back.  Let an upstream's document be read as [payload], and
    let a member [tarball] anywhere in it be a URL with the path of the tarball of
    some package and version.  Then the document the proxy writes for a tenant and an
    upstream parses again, and the same member of it is a URL that leads to the host
    the client used, where the request is routed to that tenant and that upstream
    (whatever tenant header the client sends) and dispatched as the tarball request
    of exactly that package and version. *)
Theorem rewritten_tarballs_route_back ip_literal json_syntax_error o raw tenantID upstreamID
    doc payload p url name version header pinned :
  Parse raw = Some doc → any_of doc = Ok payload →
  writable (rewriteTarballURLs ip_literal (npmProxyBaseURL o tenantID upstreamID) payload) = true →
  at_path (p ++ [Key "tarball"]) payload = Some (JString url) → TrimSpace url ≠ "" →
  tarballPath ip_literal url = "/" +:+ tarballFilename name version → plain_package name version →
  plain_origin ip_literal o → path_id tenantID → path_id upstreamID →
  ∃ text doc' url' u,
    rewriteMetadataTarballs ip_literal json_syntax_error o raw tenantID upstreamID = Ok text ∧
    Parse text = Some doc' ∧ at_path (p ++ [Key "tarball"]) doc' = Some (JString url') ∧
    url_Parse ip_literal url' = Ok u ∧ Scheme u = origin_scheme o ∧ urlHost u = origin_host o ∧
    let rt := NPMTenantFromPath (mkRouted (Path u) header pinned) in
    rt_TenantHeader rt = tenantID ∧ rt_UpstreamID rt = upstreamID ∧ npm_dispatch (rt_Path rt) = Tarball name version.
Proof.
  intros Hparse Hany Hw Hat Hblank Hpath Hpkg Ho Ht Hu.
  destruct (written_reads _ Hw) as (text & doc' & Htext & Hdoc & Hreads).
  apply (rewrite_at ip_literal (npmProxyBaseURL o tenantID upstreamID)) in Hat; [|done].
  rewrite Hpath, (TrimPrefix_app "/") in Hat. rewrite (proxy_base ip_literal) in Hat by (done || apply Hu).
  destruct (url_Parse_built ip_literal (origin_scheme o) (origin_host o)
    ("npm/t/" +:+ tenantID +:+ "/u/" +:+ upstreamID +:+ "/" +:+ tarballFilename name version)) as (rp & Hurl).
  { apply Ho. } { apply Ho. } { apply Ho. }
  { rewrite !all_chars_app. by rewrite (proj1 (proj2 Ht)), (proj1 (proj2 Hu)), (proj1 Hpkg). }
  eexists text, doc', _, _. split; [unfold rewriteMetadataTarballs; by rewrite Hparse, Hany|]. split; [done|].
  split; [by eapply reads_at|]. split; [exact Hurl|]. split; [done|]. split; [done|].
  by apply proxied_tarball_route.
Qed.

Definition sample_origin : Origin := mkOrigin true "" "" "fw.example:8443".
Definition sample_packument : string :=
  quoted "{'versions':{'1.0.0':{'dist':{'tarball':'https://registry.npmjs.org/@s/p/-/p-1.0.0.tgz'}}}}".
Definition sample_tarball_path : list step := [Key "versions"; Key "1.0.0"; Key "dist"].

Lemma rewritten_tarballs_route_back_witness :
  ∃ text doc' url' u,
    rewriteMetadataTarballs no_check (λ _, new_error "bad") sample_origin sample_packument "t1" "u1" = Ok text ∧
    Parse text = Some doc' ∧ at_path (sample_tarball_path ++ [Key "tarball"]) doc' = Some (JString url') ∧
    url_Parse no_check url' = Ok u ∧ Scheme u = origin_scheme sample_origin ∧ urlHost u = origin_host sample_origin ∧
    let rt := NPMTenantFromPath (mkRouted (Path u) "other" "") in
    rt_TenantHeader rt = "t1" ∧ rt_UpstreamID rt = "u1" ∧ npm_dispatch (rt_Path rt) = Tarball "@s/p" "1.0.0".
Proof.
  eapply (rewritten_tarballs_route_back no_check (λ _, new_error "bad") sample_origin sample_packument "t1" "u1");
    try (vm_compute; reflexivity); vm_compute; try done; repeat split; try done. by right.
Defined.

(** Where a registry serves its packages below a path, the path becomes part of the
    package the proxied URL asks for. *)
Example prefixed_registry :
  let path := tarballPath no_check "https://art.example/npm-remote/left-pad/-/left-pad-1.3.0.tgz" in
  npm_dispatch ("/npm/" +:+ TrimPrefix path "/") = Tarball "npm-remote/left-pad" "1.3.0".
Proof. vm_compute. reflexivity. Qed.
