(* ===== verification/NpmClient.v ===== *)
(** * The client of npm registries

    [internal/infra/upstream/npm.go] on the HTTP ports of OciClient: metadata and
    tarballs, the version a dist-tag stands for, and the names of the packages a
    manifest declares.  The client sends no credentials. *)

From S2P Require Import Prelude GoStrings GoPath Paths Json JsonDecode JsonParse URL Artifact Dependency Upstream PolicyConfig Policy.
From S2P Require Import Effects Secrets ProxyFlow Delivery NpmProxy OciCache OciClient.
#[local] Open Scope list_scope.

(** ** Definitions *)

Definition npmPackagePath (a : ArtifactIdentity) : string :=
  if HasPrefix (Namespace a) "@" then PathEscape (Namespace a +:+ "/" +:+ Name a) else Name a.

(** [npmManifestDependencies]: the names are what is used of the three maps. *)
Record npmManifestDependencies : Type := mkManifest {
  Dependencies : gmap string string;
  OptionalDependencies : gmap string string;
  PeerDependencies : gmap string string;
}.
Definition no_manifest : npmManifestDependencies := mkManifest ∅ ∅ ∅.

Definition dec_ranges (struct name : string) : json → gmap string string → result (gmap string string) :=
  dec_map (into_field struct name) "map[string]string" (dec_string (into_field struct name) "string") "".

Definition manifest_fields : fields npmManifestDependencies :=
  let dec := dec_ranges "npmManifestDependencies" in
  [("dependencies", λ v m, d ← dec "dependencies" v (Dependencies m);
      Ok (mkManifest d (OptionalDependencies m) (PeerDependencies m)));
   ("optionalDependencies", λ v m, d ← dec "optionalDependencies" v (OptionalDependencies m);
      Ok (mkManifest (Dependencies m) d (PeerDependencies m)));
   ("peerDependencies", λ v m, d ← dec "peerDependencies" v (PeerDependencies m);
      Ok (mkManifest (Dependencies m) (OptionalDependencies m) d))].

(** The declared names, each map in some order. *)
Definition manifest_names (m : npmManifestDependencies) : list string :=
  (map_to_list (Dependencies m)).*1 ++ (map_to_list (OptionalDependencies m)).*1 ++ (map_to_list (PeerDependencies m)).*1.

Definition tags_fields : fields (gmap string string) := [("dist-tags", dec_ranges "npmDistTags" "dist-tags")].

Section client.
Context {CR : Crypto} {W : Type} `{!HTTPPorts W}.
Context (ip_literal : string → option error).
Notation M := (Effects.M W HTTPCall).

Definition npm_get (what : string) (accept : string) (u : Upstream) (url : string) : M InResponse :=
  target ← lift (wrap_result ("creating npm " +:+ what +:+ " request: ") (url_Parse ip_literal url));
  let req := mkOutRequest "GET" target accept "" in
  resp ← attempt (call (HRequest u req) (http_Do req));
  match resp with
  | Err e => throw (unavailable e)
  | Ok resp => if decide (rs_StatusCode resp = StatusNotFound) then throw (sentinel_error ErrArtifactNotFound) else mret resp
  end.

Definition npmPackageURL (u : Upstream) (a : ArtifactIdentity) : string :=
  trim_right_slash (BaseURL u) +:+ "/" +:+ npmPackagePath a.

Definition npm_FetchMetadata (u : Upstream) (a : ArtifactIdentity) : M UpstreamResponse :=
  let url := npmPackageURL u a +:+ (if decide (Version a = "") then "" else "/" +:+ Version a) in
  newUpstreamResponse <$> npm_get "manifest" "application/json" u url.

Definition npmContentURL (u : Upstream) (digest : string) : string := trim_right_slash (BaseURL u) +:+ "/" +:+ digest.

Definition npm_FetchContent (u : Upstream) (digest : string) : M UpstreamResponse :=
  newUpstreamResponse <$> npm_get "tarball" "" u (npmContentURL u digest).

(** [json.NewDecoder(body).Decode] into a struct. *)
Definition decode_body {S} (ty : string) (fs : fields S) (body : string) (zero : S) : result S :=
  match Decode body with None => Err (json_syntax_error body) | Some v => unmarshal_struct ty fs v zero end.

Definition ListManifestDependencyNames (u : Upstream) (a : ArtifactIdentity) : M (list string) :=
  if decide (TrimSpace (Version a) = "") then throw (new_error "listing npm manifest dependencies: version is required")
  else
    resp ← npm_FetchMetadata u a;
    if decide (StatusCode resp ≠ StatusOK) then
      throw (new_error ("listing npm manifest dependencies: unexpected status " +:+ itoa (StatusCode resp)))
    else
      manifest ← lift (wrap_result "decoding npm manifest: "
        (decode_body "upstream.npmManifestDependencies" manifest_fields (Body resp) no_manifest));
      mret (manifest_names manifest).

Definition npm_ResolveReference (u : Upstream) (a : ArtifactIdentity) : M string :=
  resp ← npm_get "tag resolve" "application/json" u (npmPackageURL u a);
  tags ← lift (wrap_result "decoding npm metadata: " (decode_body "upstream.npmDistTags" tags_fields (rs_Body resp) ∅));
  let tag := if decide (Version a = "") then "latest" else Version a in
  match tags !! tag with
  | Some version => mret version
  | None => throw (new_error ("dist-tag " +:+ quote tag +:+ " not found in package metadata"))
  end.
End client.

(** ** Properties *)

(** An upstream at the root of a web host. *)
Definition plain_upstream (ip_literal : string → option error) (u : Upstream) (scheme host : string) : Prop :=
  trim_right_slash (BaseURL u) = scheme +:+ "://" +:+ host ∧ (scheme = "http" ∨ scheme = "https") ∧
  all_chars host_char host = true ∧ parseHost ip_literal host = Ok host.

Definition set_RawQuery (q : string) (u : URL) : URL :=
  mkURL (Scheme u) (Opaque u) (User u) (urlHost u) (Path u) (RawPath u) q (Fragment u).

(** A question mark separates the decision from the download.  For every package
    and version, the (decoded) request path of the tarball of the version followed by
    [.tgz?] and any text is dispatched as a request for that longer version, which
    names no version of the package and is what policies, enrichment and caches see;
    but the URL requested from the upstream for it is the tarball of the version
    itself with a query string. *)
Theorem query_in_version_reaches_the_version ip_literal u scheme host name version q :
  plain_upstream ip_literal u scheme host → plain_package name version → all_chars query_char_ok q = true →
  let longer := version +:+ ".tgz?" +:+ q in
  longer ≠ version ∧
  npm_dispatch ("/npm/" +:+ tarballFilename name longer) = Tarball name longer ∧
  ∃ url, url_Parse ip_literal (npmContentURL u (tarballFilename name version)) = Ok url ∧
    url_Parse ip_literal (npmContentURL u (tarballFilename name longer)) = Ok (set_RawQuery (q +:+ ".tgz") url).
Proof.
  intros (Hbase & Hs & Hh & Hp) (Hchars & Hv & Hn) Hq longer.
  assert (longer ≠ "") as Hne by (unfold longer; by destruct version).
  assert (npmContentURL u (tarballFilename name longer) =
    scheme +:+ "://" +:+ host +:+ "/" +:+ tarballFilename name version +:+ "?" +:+ (q +:+ ".tgz")) as Hlong.
  { unfold npmContentURL, tarballFilename, longer. rewrite Hbase, !sapp_assoc. done. }
  assert (npmContentURL u (tarballFilename name version) =
    scheme +:+ "://" +:+ host +:+ "/" +:+ tarballFilename name version +:+ "") as Hshort.
  { unfold npmContentURL. by rewrite Hbase, !sapp_assoc, sapp_nil_r. }
  split; [|split].
  - unfold longer. intros E. apply (f_equal String.length) in E. rewrite !sapp_length in E. change (String.length ".tgz?") with 5%nat in E. lia.
  - unfold npm_dispatch. rewrite (TrimPrefix_app "/npm/"), decide_False by (unfold tarballFilename; by destruct name).
    by rewrite (proj2 (parseTarballPath_exact _ name longer)).
  - eexists. rewrite Hlong, Hshort. split.
    + apply url_Parse_query; [done..|by left|done].
    + apply (url_Parse_query ip_literal scheme host (tarballFilename name version) _ (q +:+ ".tgz")); [done..|by right|].
      by rewrite all_chars_app, Hq.
Qed.

Definition sample_npm_upstream : Upstream :=
  mkUpstream "u1" "t1" "npm" EcosystemNPM "https://registry.npmjs.org/" None None 0 0.

Lemma query_in_version_reaches_the_version_witness :
  let longer := "1.0.0.tgz?x" in
  longer ≠ "1.0.0" ∧
  npm_dispatch "/npm/@s/p/-/p-1.0.0.tgz?x.tgz" = Tarball "@s/p" longer ∧
  ∃ url, url_Parse (λ _, None) (npmContentURL sample_npm_upstream (tarballFilename "@s/p" "1.0.0")) = Ok url ∧
    url_Parse (λ _, None) (npmContentURL sample_npm_upstream (tarballFilename "@s/p" longer)) = Ok (set_RawQuery "x.tgz" url).
Proof.
  apply (query_in_version_reaches_the_version (λ _, None) sample_npm_upstream "https" "registry.npmjs.org" "@s/p" "1.0.0" "x");
    [repeat split; try (vm_compute; reflexivity); by right|repeat split; vm_compute; done|vm_compute; reflexivity].
Defined.

(** The same in a package name: a denied name followed by a question mark is another
    name to the policies, and the same document to the upstream. *)
Example query_in_name :
  npm_dispatch "/npm/evil?" = Metadata "evil?" ∧ parsePackagePath "evil?" = ("evil?", "") ∧
  (Path <$> match url_Parse (λ _, None) (npmPackageURL sample_npm_upstream (mkArtifact EcosystemNPM "" "evil?" "" "")) with
            | Ok u => Some u | Err _ => None end) = Some "/evil".
Proof. vm_compute. repeat split. Qed.
