(* ===== verification/Install.v ===== *)
(** * Install snapshots

    [internal/core/service/install_snapshot.go] and the audit endpoint of
    [internal/delivery/npm/audit.go]: the packages an npm client reports, the
    concurrent inspection of their manifests, the inference of the roots and the
    graph jobs queued for them.  The inspection is a step relation: which goroutine
    finishes when is left open. *)

From stdpp Require Import gmap.
From S2P Require Import Prelude GoStrings GoPath Paths Json JsonDecode JsonParse Artifact Dependency Upstream PolicyConfig.
From S2P Require Import Policy Effects Ports Valkey Memory ProxyFlow Delivery.
#[local] Open Scope list_scope.

(** ** Definitions *)

(** *** Snapshots *)

Definition defaultSnapshotManifestConcurrency : nat := 8.
Definition snapshotMaxPackages : nat := 5000.

Record NPMInstallSnapshot : Type := mkSnapshot {
  ns_TenantID : string;
  ns_Upstream : Upstream;
  ns_Packages : list ArtifactIdentity;
  ns_ObservedAt : time;
}.

Definition package_key (p : ArtifactIdentity) : string := Name p +:+ "@" +:+ Version p.

Definition named (p : ArtifactIdentity) : bool :=
  bool_decide (TrimSpace (Name p) ≠ "") && bool_decide (TrimSpace (Version p) ≠ "").

(** The first package of each key. *)
Fixpoint dedupe (seen : gset string) (l : list ArtifactIdentity) : list ArtifactIdentity :=
  match l with
  | [] => []
  | p :: l =>
      if negb (named p) then dedupe seen l
      else if decide (package_key p ∈ seen) then dedupe seen l
      else p :: dedupe ({[package_key p]} ∪ seen) l
  end.

Definition package_less : ArtifactIdentity → ArtifactIdentity → bool :=
  lex_less Name str_ltb (λ a b, str_ltb (Version a) (Version b)).

Definition dedupeSnapshotPackages (l : list ArtifactIdentity) : list ArtifactIdentity := sort_by package_less (dedupe ∅ l).

(** The packages that are inspected. *)
Definition snapshot_packages (s : NPMInstallSnapshot) : list ArtifactIdentity :=
  take snapshotMaxPackages (dedupeSnapshotPackages (ns_Packages s)).

(** *** The inspection of the manifests

    The loop starts a goroutine per package while it has a place and the context is
    not done; a goroutine that has its answer adds it to the shared result. *)
Record collector : Type := mkCollector {
  todo : list ArtifactIdentity;
  running : list ArtifactIdentity;
  dependedOn : gset string;
  fetchFailures : nat;
}.

Definition collector_start (packages : list ArtifactIdentity) : collector := mkCollector packages [] ∅ 0.
Definition collected (c : collector) : Prop := todo c = [] ∧ running c = [].

Definition add_answer (answer : result (list string)) (d : gset string) (f : nat) : gset string * nat :=
  match answer with Ok names => (list_to_set names ∪ d, f) | Err _ => (d, S f) end.

Section collecting.
(** What the registry answers in this run, and whether the context can end. *)
Context (answer : ArtifactIdentity → result (list string)) (concurrency : nat) (cancellable : Prop).

Inductive collect_step : collector → collector → Prop :=
| step_start p todo running d f :
    (length running < concurrency)%nat →
    collect_step (mkCollector (p :: todo) running d f) (mkCollector todo (running ++ [p]) d f)
| step_cancelled p todo running d f :
    cancellable → collect_step (mkCollector (p :: todo) running d f) (mkCollector [] running d f)
| step_finish l1 p l2 todo d f :
    collect_step (mkCollector todo (l1 ++ p :: l2) d f)
      (mkCollector todo (l1 ++ l2) (add_answer (answer p) d f).1 (add_answer (answer p) d f).2).
End collecting.

(** *** The inference *)

Definition infer_roots (packages : list ArtifactIdentity) (c : collector) : list ArtifactIdentity :=
  filter (λ p, Name p ∉ dependedOn c) packages.

(** The roots would be all the packages although manifests are missing. *)
Definition unreliable (packages roots : list ArtifactIdentity) (c : collector) : bool :=
  (0 <? fetchFailures c)%nat && (1 <? length packages)%nat && (length roots =? length packages)%nat.

Section service.
Context {W : Type} `{!Ports W}.
Notation M := (M W Call).

(** A failed enqueue is logged and passed over. *)
Definition enqueue_root (s : NPMInstallSnapshot) (requestedAt : time) (root : ArtifactIdentity) : M () :=
  _ ← attempt (EnqueueResolve (mkResolveRequest (ns_TenantID s) (ns_Upstream s) root requestedAt));
  mret ().

(** [ProcessSnapshot] from the end of the inspection on. *)
Definition finish_snapshot (s : NPMInstallSnapshot) (packages : list ArtifactIdentity) (c : collector) : M (list ArtifactIdentity) :=
  let roots := infer_roots packages c in
  if unreliable packages roots c then mret []
  else
    requestedAt ← (if decide (ns_ObservedAt s = zero_time) then Now else mret (ns_ObservedAt s) : M time);
    _ ← for_each (enqueue_root s requestedAt) roots;
    mret roots.

(** [ProcessSnapshot], with one of the ways its inspection can go. *)
Definition ProcessSnapshot_runs (answer : ArtifactIdentity → result (list string)) (cancellable : Prop)
    (s : NPMInstallSnapshot) (m : M (list ArtifactIdentity)) : Prop :=
  let packages := snapshot_packages s in
  (packages = [] ∧ m = mret []) ∨
  (packages ≠ [] ∧ ∃ c,
    rtc (collect_step answer defaultSnapshotManifestConcurrency cancellable) (collector_start packages) c ∧
    collected c ∧ m = finish_snapshot s packages c).
End service.

(** *** The audit endpoint *)

Definition npmAuditBulkPath : string := "-/npm/v1/security/advisories/bulk".
Definition maxAuditBodyBytes : Z := 8 * 2 ^ 20.

(** [io.LimitReader] *)
Definition LimitReader (n : Z) (s : string) : string :=
  if decide (Z.of_nat (String.length s) ≤ n) then s else take_string (Z.to_nat n) s.

Section endpoint.
(** The text [gzip] reads from a body, or the error of its header. *)
Context (gzip_reader : string → result string) (json_syntax_error : string → error).

Definition decodeAuditBulkPayload (body contentEncoding : string) : result (gmap string (list string)) :=
  let limited := LimitReader maxAuditBodyBytes body in
  text ← (if bool_decide (ToLower (TrimSpace contentEncoding) = "gzip") then gzip_reader limited else Ok limited);
  match Decode text with
  | None => Err (json_syntax_error text)
  | Some v =>
      dec_map into_value "map[string][]string" (dec_slice into_value "[]string" (dec_string into_value "string") "") [] v ∅
  end.

Definition auditBulkPackages (payload : gmap string (list string)) : list ArtifactIdentity :=
  concat ((λ kv : string * list string, (λ v, mkArtifact EcosystemNPM "" kv.1 v "") <$> kv.2) <$> map_to_list payload).

Context {W : Type} `{!Ports W, !DeliveryPorts W}.
Notation M := (M W DeliveryCall).

(** [handleAuditBulk]: the response, and the snapshot it leaves to be processed;
    [enabled] where the service of snapshots is wired. *)
Definition handleAuditBulk (enabled : bool) (r : HTTPRequest) (body contentEncoding : string) : M (option NPMInstallSnapshot) :=
  match ctx_Tenant r with
  | None => _ ← writeNPMError "tenant not identified" StatusUnauthorized; mret None
  | Some tenant =>
      match decodeAuditBulkPayload body contentEncoding with
      | Err _ => _ ← writeNPMError "invalid audit payload" StatusBadRequest; mret None
      | Ok payload =>
          if enabled && bool_decide (payload ≠ ∅) then
            u ← attempt (ResolveUpstream r tenant EcosystemNPM);
            match u with
            | Err _ => _ ← writeNPMError "no npm upstream configured" StatusNotFound; mret None
            | Ok o =>
                upstream ← deref o;
                now ← core Now;
                _ ← respond (RespondJSON StatusOK "{}");
                mret (Some (mkSnapshot tenant upstream (auditBulkPackages payload) now))
            end
          else _ ← respond (RespondJSON StatusOK "{}"); mret None
      end
  end.

Definition routePost (enabled : bool) (r : HTTPRequest) (body contentEncoding : string) : M (option NPMInstallSnapshot) :=
  if decide (TrimPrefix (URLPath r) "/npm/" = npmAuditBulkPath) then handleAuditBulk enabled r body contentEncoding
  else _ ← writeNPMError "unsupported npm endpoint" StatusNotFound; mret None.
End endpoint.

(** *** What the inference means *)

(** The names the manifests that could be read declare, and how many could not. *)
Definition declared (answer : ArtifactIdentity → result (list string)) (l : list ArtifactIdentity) : gset string :=
  ⋃ ((λ p, match answer p with Ok names => list_to_set names | Err _ => ∅ end) <$> l).
Definition unreadable (answer : ArtifactIdentity → result (list string)) (l : list ArtifactIdentity) : nat :=
  length (filter (λ p, is_ok (answer p) = false) l).

Definition roots_of (answer : ArtifactIdentity → result (list string)) (s : NPMInstallSnapshot) : list ArtifactIdentity :=
  let packages := snapshot_packages s in
  let roots := filter (λ p, Name p ∉ declared answer packages) packages in
  if (0 <? unreadable answer packages)%nat && (1 <? length packages)%nat && (length roots =? length packages)%nat
  then [] else roots.

(** ** Lemmas *)

(** *** The inspection *)

Section inspection.
Context (answer : ArtifactIdentity → result (list string)) (concurrency : nat).

Lemma add_answer_declared p l d f :
  d = declared answer l → f = unreadable answer l →
  add_answer (answer p) d f = (declared answer (p :: l), unreadable answer (p :: l)).
Proof.
  intros -> ->. unfold add_answer, declared, unreadable. rewrite fmap_cons. cbn [union_list foldr].
  rewrite filter_cons. destruct (answer p) as [names|e]; cbn [is_ok].
  - by rewrite decide_False.
  - rewrite decide_True by done. f_equal. set_solver.
Qed.

Lemma declared_perm l l' : l ≡ₚ l' → declared answer l = declared answer l'.
Proof. intros H. unfold declared. apply leibniz_equiv. by rewrite H. Qed.
Lemma unreadable_perm l l' : l ≡ₚ l' → unreadable answer l = unreadable answer l'.
Proof. intros H. unfold unreadable. by rewrite H. Qed.

(** The packages with an answer are among those asked for: all of them where the
    context does not end; and no more goroutines run than there are places. *)
Definition collect_inv (cancellable : Prop) (packages : list ArtifactIdentity) (c : collector) : Prop :=
  ∃ done, dependedOn c = declared answer done ∧ fetchFailures c = unreadable answer done ∧
    done ++ running c ++ todo c ⊆+ packages ∧ (¬ cancellable → done ++ running c ++ todo c ≡ₚ packages) ∧
    (length (running c) ≤ concurrency)%nat.

Lemma collect_step_inv cancellable packages c c' :
  collect_inv cancellable packages c → collect_step answer concurrency cancellable c c' → collect_inv cancellable packages c'.
Proof.
  intros (d & Hd & Hf & Hsub & Hp & Hn) Hs. destruct Hs as [p todo running0 d0 f Hlt|p todo running0 d0 f Hc|l1 p l2 todo d0 f]; cbn in *.
  - exists d; cbn. rewrite <-app_assoc, length_app; cbn. repeat split; [done..|lia].
  - exists d; cbn. repeat split; [done..| |done|done].
    etrans; [|exact Hsub]. rewrite app_nil_r. apply submseteq_app; [done|]. by apply submseteq_inserts_r.
  - assert (d ++ (l1 ++ p :: l2) ++ todo ≡ₚ (p :: d) ++ (l1 ++ l2) ++ todo) as Hperm by solve_Permutation.
    exists (p :: d). cbn. rewrite (add_answer_declared p d d0 f) by done. cbn.
    rewrite length_app in *; cbn in *. split; [done|]. split; [done|]. split; [by rewrite Hperm in Hsub|].
    split; [intros Hc; by rewrite <-Hperm, Hp|lia].
Qed.

Lemma collect_inv_run cancellable packages c :
  rtc (collect_step answer concurrency cancellable) (collector_start packages) c → collect_inv cancellable packages c.
Proof.
  intros H. assert (collect_inv cancellable packages (collector_start packages)) as H0.
  { exists []; cbn. repeat split; [done|done|lia]. }
  induction H as [|c1 c2 c3 H12 _ IH]; [done|]. apply IH. by eapply collect_step_inv.
Qed.

(** A finished inspection that was not cut short has every answer. *)
Lemma collected_exact packages c :
  rtc (collect_step answer concurrency False) (collector_start packages) c → collected c →
  dependedOn c = declared answer packages ∧ fetchFailures c = unreadable answer packages.
Proof.
  intros H [Ht Hr]. destruct (collect_inv_run _ _ _ H) as (d & -> & -> & _ & Hp & _).
  rewrite Ht, Hr in Hp. specialize (Hp (λ x, x)). rewrite app_nil_r in Hp.
  split; [by apply declared_perm|by apply unreadable_perm].
Qed.

(** *** Termination: every run of the inspection ends, and ends with all collected. *)

Definition collect_measure (c : collector) : nat := 2 * length (todo c) + length (running c).

Lemma collect_step_decreases cancellable c c' :
  collect_step answer concurrency cancellable c c' → (collect_measure c' < collect_measure c)%nat.
Proof. unfold collect_measure. destruct 1; cbn; rewrite ?length_app; cbn; lia. Qed.

Lemma collect_progress c :
  (0 < concurrency)%nat → collected c ∨ ∃ c', collect_step answer concurrency False c c'.
Proof.
  intros Hc. destruct c as [todo [|p running] d f].
  - destruct todo as [|p todo]; [by left|]. right. eexists. by apply step_start.
  - right. eexists. apply (step_finish _ _ _ [] p running).
Qed.

Lemma collect_completes c :
  (0 < concurrency)%nat → ∃ c', rtc (collect_step answer concurrency False) c c' ∧ collected c'.
Proof.
  intros Hc. induction c as [c IH] using (induction_ltof1 _ collect_measure).
  destruct (collect_progress c Hc) as [H|[c1 H]]; [by exists c|].
  destruct (IH c1) as (c' & Hr & Hd); [by eapply collect_step_decreases|]. exists c'. split; [by econstructor|done].
Qed.
End inspection.

(** *** Duplicates and order *)

(** Named packages with the same key are the same. *)
Definition unambiguous (l : list ArtifactIdentity) : Prop :=
  ∀ p q, p ∈ l → q ∈ l → named p = true → named q = true → package_key p = package_key q → p = q.

Lemma dedupe_elem seen l p :
  unambiguous l → p ∈ dedupe seen l ↔ p ∈ l ∧ named p = true ∧ package_key p ∉ seen.
Proof.
  revert seen. induction l as [|q l IH]; intros seen H; [set_solver|].
  assert (unambiguous l) as Hl. { intros x y Hx Hy. apply H; by right. }
  cbn [dedupe]. destruct (named q) eqn:Hq; cbn [negb].
  2:{ rewrite IH by done. rewrite elem_of_cons. split; [naive_solver|]. intros ([->|?] & ? & ?); [congruence|done]. }
  destruct (decide (package_key q ∈ seen)) as [Hs|Hs].
  - rewrite IH by done. rewrite elem_of_cons. split; [naive_solver|]. intros ([->|?] & ? & ?); done.
  - rewrite elem_of_cons, IH by done. rewrite elem_of_cons, elem_of_union, elem_of_singleton. split.
    + intros [->|(? & ? & ?)]; [auto|]. split; [by right|]. split; [done|]. tauto.
    + intros ([->|Hp] & Hn & Hk); [by left|]. destruct (decide (p = q)) as [->|Hne]; [by left|]. right.
      split; [done|]. split; [done|]. intros [E|?]; [|done]. apply Hne, H; [by right|by left|done|done|done].
Qed.

Lemma dedupe_key_fresh seen l p : p ∈ dedupe seen l → package_key p ∉ seen.
Proof.
  revert seen. induction l as [|q l IH]; intros seen; [set_solver|]. cbn [dedupe].
  destruct (negb (named q)); [apply IH|]. destruct (decide _); [apply IH|].
  rewrite elem_of_cons. intros [->|Hp%IH]; [done|set_solver].
Qed.

Lemma dedupe_NoDup seen l : NoDup (dedupe seen l).
Proof.
  revert seen. induction l as [|q l IH]; intros seen; [constructor|]. cbn [dedupe].
  destruct (negb (named q)); [apply IH|]. destruct (decide _); [apply IH|]. constructor; [|apply IH].
  intros Hq%dedupe_key_fresh. set_solver.
Qed.

Lemma package_less_total p q : package_less p q = false → package_less q p = false → package_key p = package_key q.
Proof.
  intros H1 H2. apply lex_less_tie in H1 as (Hn & Hv1 & Hv2); [|apply _|done]. unfold package_key.
  rewrite Hn. do 2 f_equal. by apply (st_total (less:=str_ltb)).
Qed.

#[export] Instance package_less_weak : StrictWeak package_less.
Proof. apply lex_less_weak; [apply _|]. split; intros *; [apply sw_irrefl|apply sw_trans|apply sw_negtrans]. Qed.

Lemma dedupeSnapshotPackages_perm l l' :
  unambiguous l → l ≡ₚ l' → dedupeSnapshotPackages l = dedupeSnapshotPackages l'.
Proof.
  intros H Hp. assert (unambiguous l') as H'. { intros p q. rewrite <-Hp. apply H. }
  apply sort_by_perm_inv; [apply _|..].
  - intros p q Hpl Hql H1 H2. apply dedupe_elem in Hpl as (? & ? & _), Hql as (? & ? & _); [|done..].
    apply H; [done..|]. by apply package_less_total.
  - apply NoDup_Permutation; [apply dedupe_NoDup..|]. intros p. rewrite !dedupe_elem by done. by rewrite Hp.
Qed.

(** *** The jobs *)

Section jobs.
Context {W : Type} `{!Ports W}.

Lemma enqueue_root_log (s : NPMInstallSnapshot) at_ p (st : St W Call) :
  ∃ r w, enqueue_root s at_ p st =
    (Ok (), mkSt w (calls st ++ [CEnqueueResolve (mkResolveRequest (ns_TenantID s) (ns_Upstream s) p at_) r])).
Proof.
  unfold enqueue_root, EnqueueResolve, attempt, call. cbv [mbind M_bind mret M_ret].
  destruct (queue_EnqueueResolve _ (world st)) as [r w]. eauto.
Qed.

(** One call per root, in order; whatever it returns, the next follows. *)
Lemma enqueue_roots_log (s : NPMInstallSnapshot) at_ roots (st : St W Call) :
  (for_each (enqueue_root s at_) roots st).1 = Ok () ∧
  ∃ rs, length rs = length roots ∧
    calls (for_each (enqueue_root s at_) roots st).2 =
      calls st ++ zip_with CEnqueueResolve ((λ p, mkResolveRequest (ns_TenantID s) (ns_Upstream s) p at_) <$> roots) rs.
Proof.
  induction roots as [|p roots IH] in st |- *; [split; [done|]; exists []; by rewrite app_nil_r|].
  cbn [for_each]. cbv [mbind M_bind]. destruct (enqueue_root_log s at_ p st) as (r & w & ->).
  set (st1 := mkSt w _). destruct (IH st1) as (H1 & rs & Hlen & H2).
  split; [exact H1|]. exists (r :: rs). split; [cbn; lia|]. etrans; [exact H2|]. cbn. by rewrite <-app_assoc.
Qed.
End jobs.

(** *** The endpoint *)

(** A name as npm allows it: an at sign, if any, comes first. *)
Definition npm_name (s : string) : Prop :=
  match s with EmptyString => False | String _ t => free_of (λ c, bool_decide (c = "@"%char)) t end.

Lemma audit_packages_unambiguous payload :
  (∀ name, name ∈ dom payload → npm_name name) → unambiguous (auditBulkPackages payload).
Proof.
  intros H. assert (∀ p, p ∈ auditBulkPackages payload → npm_name (Name p) ∧ p = mkArtifact EcosystemNPM "" (Name p) (Version p) "") as Hp.
  { intros p. unfold auditBulkPackages. intros Hp. apply list_elem_of_In, in_concat in Hp as (l & Hin%list_elem_of_In & Hl%list_elem_of_In).
    apply list_elem_of_fmap in Hin as ([name vs] & -> & Hkv). apply list_elem_of_fmap in Hl as (v & -> & _). cbn.
    split; [|done]. apply elem_of_map_to_list in Hkv. apply H. by apply elem_of_dom_2 in Hkv. }
  intros p q [Hn1 E1]%Hp [Hn2 E2]%Hp _ _ E. rewrite E1, E2. unfold package_key in E.
  destruct (Name p) as [|c t]; [done|]. destruct (Name q) as [|c' t']; [done|]. rewrite !sapp_cons in E. injection E as -> E.
  apply (free_of_split (λ c, bool_decide (c = "@"%char))) in E as [-> E]; [|done..]. injection E as E. change (Version p = Version q) in E. by rewrite E.
Qed.

(** A snapshot is of the request's tenant, and of the packages of its body. *)
Lemma handleAuditBulk_snapshot {W} `{!Ports W, !DeliveryPorts W} gz syn enabled r body enc (st : St W DeliveryCall) s st' :
  handleAuditBulk gz syn enabled r body enc st = (Ok (Some s), st') →
  enabled = true ∧ ctx_Tenant r = Some (ns_TenantID s) ∧
  ∃ payload, decodeAuditBulkPayload gz syn body enc = Ok payload ∧ payload ≠ ∅ ∧ ns_Packages s = auditBulkPackages payload.
Proof.
  unfold handleAuditBulk. destruct (ctx_Tenant r) as [tenant|]; [|done].
  destruct (decodeAuditBulkPayload gz syn body enc) as [payload|e]; [|done].
  destruct (enabled && bool_decide (payload ≠ ∅)) eqn:E; [|done]. apply andb_true_iff in E as [-> Hne%bool_decide_eq_true].
  intros H. take_step H u st1 Hu. destruct u as [o|e]; [|done]. take_step H up st2 Hup. take_step H now st3 Hnow.
  take_step H x st4 Hx. apply ret_Ok in H as [[= <-] _]. cbn. eauto 6.
Qed.

(** ** Properties *)


Definition sample_snapshot (l : list ArtifactIdentity) : NPMInstallSnapshot := mkSnapshot "t1" (npm_upstream "u1") l 5.
Definition npm_package (name version : string) : ArtifactIdentity := mkArtifact EcosystemNPM "" name version "".

(** [app] depends on [lib]; the manifest of [odd] cannot be read. *)
Definition sample_answer (p : ArtifactIdentity) : result (list string) :=
  if decide (Name p = "app") then Ok ["lib"] else if decide (Name p = "odd") then Err (new_error "timeout") else Ok [].

Definition sample_packages : list ArtifactIdentity :=
  [npm_package "odd" "1"; npm_package "lib" "2"; npm_package "app" "1"; npm_package "lib" "2"].


(** The key of the packages does not separate a name with an at sign inside. *)
Example ambiguous_keys :
  dedupeSnapshotPackages [npm_package "a@1" "2"; npm_package "a" "1@2"] = [npm_package "a@1" "2"] ∧
  dedupeSnapshotPackages [npm_package "a" "1@2"; npm_package "a@1" "2"] = [npm_package "a" "1@2"].
Proof. vm_compute. split; reflexivity. Qed.
