(* ===== verification/PackageSources.v ===== *)
(** * Sources of package metadata

    [internal/infra/npm/enricher.go] (publish time, licences and the source repository
    of an npm version), [internal/infra/osv/client.go] (vulnerabilities),
    [internal/infra/scorecard/client.go] and [internal/infra/enrichment/composite.go],
    which merges them.  The public services are ports; the calculation of a score
    from a CVSS vector is the library's, a parameter. *)

From Corelib Require Import SpecFloat.
From stdpp Require Import gmap.
From S2P Require Import Prelude GoStrings GoPath Paths Floats GoTime TimeParse Json JsonDecode JsonParse URL Artifact Dependency Upstream PolicyConfig.
From S2P Require Import Policy Conditions Effects Secrets OciClient NpmClient.
#[local] Open Scope list_scope.

(** ** Definitions *)

(** *** strconv.ParseFloat *)

Definition f64_of_binary (neg : bool) (m k : Z) : float64 :=
  if decide (m = 0) then f64_of_decimal neg 0 0
  else
    let '(n, d) := if 0 <=? k then (2 ^ k, 1) else (1, 2 ^ (- k)) in
    let x := f64_of_ratio (Z.to_pos (m * n)) (Z.to_pos d) in
    if neg then SFopp x else x.

Definition base_digit (hex : bool) (c : ascii) : option Z := if hex then hex_value c else digit_value c.

(** Digits with at most one point and with underscores: whether there was a digit, the
    digits as a number, minus the number of digits after the point, and the rest. *)
Fixpoint scan_mantissa (hex dot digits : bool) (m k : Z) (s : string) : bool * Z * Z * string :=
  match s with
  | EmptyString => (digits, m, k, s)
  | String c r =>
      if is_char 95 c then scan_mantissa hex dot digits m k r
      else if is_char 46 c then if dot then (digits, m, k, s) else scan_mantissa hex true digits m k r
      else match base_digit hex c with
           | Some d => scan_mantissa hex dot true (m * (if hex then 16 else 10) + d) (if dot then k - 1 else k) r
           | None => (digits, m, k, s)
           end
  end.

Fixpoint scan_exponent (e : Z) (s : string) : Z * string :=
  match s with
  | EmptyString => (e, s)
  | String c r =>
      if is_char 95 c then scan_exponent e r
      else match digit_value c with Some d => scan_exponent (e * 10 + d) r | None => (e, s) end
  end.

(** [underscoreOK] after the sign and the base prefix; [last] is the class of the
    character before: nothing, a digit, an underscore or another one. *)
Inductive char_class : Set := Begin | Digit | Underscore | OtherChar.
Fixpoint underscores_ok (hex : bool) (last : char_class) (s : string) : bool :=
  match s with
  | EmptyString => match last with Underscore => false | _ => true end
  | String c s =>
      if bool_decide (is_Some (base_digit hex c)) then underscores_ok hex Digit s
      else if is_char 95 c then match last with Digit => underscores_ok hex Underscore s | _ => false end
      else match last with Underscore => false | _ => underscores_ok hex OtherChar s end
  end.

Fixpoint has_underscore (s : string) : bool :=
  match s with EmptyString => false | String c s => is_char 95 c || has_underscore s end.

(** The number and nothing after it; [None] is an error, of syntax or of range. *)
Definition ParseFloat (s : string) : option float64 :=
  let '(minus, r) := take_char (is_char 45) s in
  let '(plus, r) := if minus then (false, r) else take_char (is_char 43) r in
  let low := ToLower r in
  if bool_decide (low = "inf" ∨ low = "infinity") then Some (if minus then S754_infinity true else S754_infinity false)
  else if bool_decide (low = "nan") && negb (minus || plus) then Some S754_nan
  else
    let hex := HasPrefix low "0x" in
    let body := if hex then drop_str 2 r else r in
    let '(digits, m, k, rest) := scan_mantissa hex false false 0 0 body in
    if negb digits then None
    else
      let '(marked, rest) := take_char (λ c, if hex then is_char 112 c || is_char 80 c else is_char 101 c || is_char 69 c) rest in
      let exponent :=
        if marked : bool then
          let '(eminus, rest) := take_char (is_char 45) rest in
          let '(_, rest) := if eminus then (false, rest) else take_char (is_char 43) rest in
          match rest with
          | String c _ =>
              if bool_decide (is_Some (digit_value c)) then
                let '(e, rest) := scan_exponent 0 rest in Some (if eminus then - e else e, rest)
              else None
          | EmptyString => None
          end
        else if hex then None else Some (0, rest) in
      match exponent with
      | Some (e, EmptyString) =>
          if has_underscore r && negb (underscores_ok hex (if hex then Digit else Begin) body) then None
          else
            let x := if hex then f64_of_binary minus m (4 * k + e) else f64_of_decimal minus m (k + e) in
            match x with S754_infinity _ => None | _ => Some x end
      | _ => None
      end.

Example ParseFloat_ex :
  ParseFloat "9.8" = Some (f64_tenths 98) ∧ ParseFloat "-1e1" = Some (f64_of_Z (-10)) ∧ ParseFloat "0x1p-1" = Some (f64_div (f64_of_Z 1) (f64_of_Z 2)) ∧
  ParseFloat "1_0.0" = Some (f64_of_Z 10) ∧ ParseFloat "_1" = None ∧ ParseFloat "1e400" = None ∧ ParseFloat "CVSS:3.1/AV:N" = None ∧
  ParseFloat "NaN" = Some S754_nan ∧ ParseFloat "" = None ∧ ParseFloat "7." = Some (f64_of_Z 7) ∧ ParseFloat "." = None.
Proof. vm_compute. repeat split. Qed.

(** *** Licences *)

Definition ToUpper (s : string) : string :=
  string_map (λ c, if in_range 97 122 c then ascii_at (Z.of_nat (byte_of c) - 32) else c) s.

Definition is_paren (c : ascii) : bool := is_char 40 c || is_char 41 c.

(** The tokens of a licence expression without its operators, or all of it. *)
Definition splitLicenseExpression (value : string) : list string :=
  let fields := filter (λ x, x ≠ "") (Split "("%char (string_map (λ c, if is_paren c then "("%char else c) value)) in
  let result := filter (λ t, t ≠ "" ∧ ToUpper t ∉ ["AND"; "OR"; "WITH"]) (TrimSpace <$> concat (Fields <$> fields)) in
  if decide (result = []) then (if decide (TrimSpace value = "") then [] else [TrimSpace value]) else result.

(** A fresh licence, trimmed; [seen] are the lower-case forms. *)
Fixpoint add_licenses (seen : gset string) (l : list string) : list string :=
  match l with
  | [] => []
  | v :: l =>
      let v := TrimSpace v in
      if decide (v = "" ∨ ToLower v ∈ seen) then add_licenses seen l
      else v :: add_licenses ({[ToLower v]} ∪ seen) l
  end.

(** A member of an object held as a value of type any. *)
Definition any_member (k : string) (v : json) : option json :=
  match v with
  | JObject kvs => snd <$> head (filter (λ kv : string * json, kv.1 = k) kvs)
  | _ => None
  end.

Record npmPackageVersion : Type := mkPackageVersion {
  ver_License : json;
  ver_Licenses : list string;
  ver_Repository : json;
}.
Definition no_version : npmPackageVersion := mkPackageVersion JNull [] JNull.

Definition extractVersionLicenses (v : npmPackageVersion) : list string :=
  let declared := match ver_License v with
    | JString license => splitLicenseExpression license
    | license => match any_member "type" license with Some (JString t) => splitLicenseExpression t | _ => [] end
    end in
  add_licenses ∅ (declared ++ concat (splitLicenseExpression <$> ver_Licenses v)).

(** *** The package document *)

Record npmPackageResponse : Type := mkPackageResponse {
  Time : gmap string string;
  Versions : gmap string npmPackageVersion;
  Repository : json;
}.
Definition no_package : npmPackageResponse := mkPackageResponse ∅ ∅ JNull.

Definition dec_any (v old : json) : result json := any_of v.

Definition license_object_fields : fields string :=
  [("type", λ v t, dec_string (into_field "npmLicenseObject" "licenses.type") "string" v t)].

Definition version_fields : fields npmPackageVersion :=
  [("license", λ v p, j ← dec_any v (ver_License p); Ok (mkPackageVersion j (ver_Licenses p) (ver_Repository p)));
   ("licenses", λ v p, l ← dec_slice (into_field "npmPackageVersion" "versions.licenses") "[]npm.npmLicenseObject"
                             (unmarshal_struct "npm.npmLicenseObject" license_object_fields) "" v (ver_Licenses p);
                       Ok (mkPackageVersion (ver_License p) l (ver_Repository p)));
   ("repository", λ v p, j ← dec_any v (ver_Repository p); Ok (mkPackageVersion (ver_License p) (ver_Licenses p) j))].

Definition package_fields : fields npmPackageResponse :=
  [("time", λ v p, t ← dec_ranges "npmPackageResponse" "time" v (Time p); Ok (mkPackageResponse t (Versions p) (Repository p)));
   ("versions", λ v p, vs ← dec_map (into_field "npmPackageResponse" "versions") "map[string]npm.npmPackageVersion"
                              (unmarshal_struct "npm.npmPackageVersion" version_fields) no_version v (Versions p);
                       Ok (mkPackageResponse (Time p) vs (Repository p)));
   ("repository", λ v p, j ← dec_any v (Repository p); Ok (mkPackageResponse (Time p) (Versions p) j))].

(** *** The source repository *)

Definition repositoryValue (value : json) : option string :=
  let nonblank (s : string) := if decide (TrimSpace s = "") then None else Some (TrimSpace s) in
  match value with
  | JString s => nonblank s
  | v => match any_member "url" v with Some (JString s) => nonblank s | _ => None end
  end.

(** What precedes the first of the characters. *)
Fixpoint before_any (chars s : string) : string :=
  match s with EmptyString => "" | String c s => if among chars c then "" else String c (before_any chars s) end.

Definition TrimSuffix (s suffix : string) : string := default s (CutSuffix s suffix).

Definition parseGitHubRepositoryPath (path : string) : result SourceRepository :=
  let trimmed := before_any "#?" (TrimSuffix (TrimSlash (TrimSpace path)) ".git") in
  let incomplete := Err (new_error ("repository path " +:+ quote path +:+ " must include owner and repo")) in
  match Split "/"%char trimmed with
  | owner :: repo :: _ =>
      if decide (TrimSpace owner = "" ∨ TrimSpace repo = "") then incomplete
      else Ok (mkSourceRepository "github.com" (TrimSpace owner) (TrimSpace repo))
  | _ => incomplete
  end.

Definition looksLikeGitHubShorthand (value : string) : bool :=
  if bool_decide (Cut value "://" ≠ None ∨ Cut value "@" ≠ None) then false
  else match Split "/"%char (TrimSlash value) with
       | [a; b] => bool_decide (TrimSpace a ≠ "" ∧ TrimSpace b ≠ "")
       | _ => false
       end.

(** [URL.Hostname] *)
Definition Hostname (u : URL) : string :=
  let host := match CutLast (urlHost u) ":" with
              | Some (h, port) => if validOptionalPort (":" +:+ port) then h else urlHost u
              | None => urlHost u
              end in
  match host with
  | String c inside => if is_char 91 c then default host (CutSuffix inside "]") else host
  | EmptyString => host
  end.

Section enrichers.
Context {CR : Crypto} (ip_literal : string → option error).

Definition normalizeGitHubRepository (raw : string) : result SourceRepository :=
  let trimmed := TrimSpace raw in
  if decide (trimmed = "") then Err (new_error "repository is empty")
  else
    let lower := ToLower trimmed in
    if HasPrefix lower "github:" then parseGitHubRepositoryPath (drop_str (String.length "github:") trimmed)
    else if HasPrefix lower "git@github.com:" then parseGitHubRepositoryPath (drop_str (String.length "git@github.com:") trimmed)
    else
      let normalized := TrimPrefix trimmed "git+" in
      let normalized := if HasPrefix (ToLower normalized) "git://"
                        then "https://" +:+ drop_str (String.length "git://") normalized else normalized in
      if HasPrefix (ToLower normalized) "ssh://git@github.com/"
      then parseGitHubRepositoryPath (drop_str (String.length "ssh://git@github.com/") normalized)
      else if looksLikeGitHubShorthand normalized then parseGitHubRepositoryPath normalized
      else
        parsed ← url_Parse ip_literal normalized;
        if decide (ToLower (Hostname parsed) ≠ "github.com")
        then Err (new_error ("unsupported repository host " +:+ quote (Hostname parsed)))
        else parseGitHubRepositoryPath (Path parsed).

(** The repository of the version, else that of the package, else the reason. *)
Fixpoint first_repository (candidates : list json) (saw : bool) : SourceRepository + string :=
  match candidates with
  | [] => inr (if saw then "npm package does not declare a supported GitHub source repository"
               else "npm package does not declare a source repository")
  | c :: l =>
      match repositoryValue c with
      | None => first_repository l saw
      | Some raw => match normalizeGitHubRepository raw with Ok repo => inl repo | Err _ => first_repository l true end
      end
  end.
Definition resolveSourceRepository (pkg : npmPackageResponse) (v : npmPackageVersion) : SourceRepository + string :=
  first_repository [ver_Repository v; Repository pkg] false.
End enrichers.

Example licenses_ex :
  extractVersionLicenses (mkPackageVersion (JString "(MIT OR Apache-2.0)") ["mit"; "BSD"] JNull) = ["MIT"; "Apache-2.0"; "BSD"] ∧
  extractVersionLicenses (mkPackageVersion (JObject [("type", JString " MIT ")]) [] JNull) = ["MIT"] ∧
  splitLicenseExpression "(AND)" = ["(AND)"].
Proof. vm_compute. repeat split. Qed.

Example repository_ex :
  let parse s := match normalizeGitHubRepository (λ _, None) s with Ok r => Some (Owner r, Repo r) | Err _ => None end in
  parse "git+https://github.com/o/r.git" = Some ("o", "r") ∧ parse "GitHub:o/r" = Some ("o", "r") ∧
  parse "https://gitlab.com/o/r" = None ∧ parse "https://GitHub.com:443/o/r/tree/main" = Some ("o", "r") ∧
  parse "o/r" = Some ("o", "r") ∧ parse "github:o/r.git#main" = Some ("o", "r.git").
Proof. vm_compute. repeat split. Qed.

(** *** Vulnerabilities *)

Record osvVuln : Type := mkOsvVuln {
  osv_ID : string;
  osv_Summary : string;
  osv_Severity : list string;
  osv_DatabaseSeverity : string;
}.
Definition no_vuln : osvVuln := mkOsvVuln "" "" [] "".

(** The scores are what is used of the severities. *)
Definition severity_fields : fields string :=
  let place := into_field "osvSeverity" in
  [("type", λ v s, _ ← dec_string (place "vulns.severity.type") "string" v ""; Ok s);
   ("score", λ v s, dec_string (place "vulns.severity.score") "string" v s)].

Definition database_fields : fields string :=
  [("severity", λ v s, dec_string (into_field "osvDatabaseSpecific" "vulns.database_specific.severity") "string" v s)].

Definition vuln_fields : fields osvVuln :=
  let place := into_field "osvVuln" in
  [("id", λ v o, s ← dec_string (place "vulns.id") "string" v (osv_ID o); Ok (mkOsvVuln s (osv_Summary o) (osv_Severity o) (osv_DatabaseSeverity o)));
   ("summary", λ v o, s ← dec_string (place "vulns.summary") "string" v (osv_Summary o); Ok (mkOsvVuln (osv_ID o) s (osv_Severity o) (osv_DatabaseSeverity o)));
   ("severity", λ v o, l ← dec_slice (place "vulns.severity") "[]osv.osvSeverity" (unmarshal_struct "osv.osvSeverity" severity_fields) "" v (osv_Severity o);
                       Ok (mkOsvVuln (osv_ID o) (osv_Summary o) l (osv_DatabaseSeverity o)));
   ("database_specific", λ v o, s ← unmarshal_struct "osv.osvDatabaseSpecific" database_fields v (osv_DatabaseSeverity o);
                                Ok (mkOsvVuln (osv_ID o) (osv_Summary o) (osv_Severity o) s))].

Definition query_fields : fields (list osvVuln) :=
  [("vulns", λ v l, dec_slice (into_field "queryResponse" "vulns") "[]osv.osvVuln" (unmarshal_struct "osv.osvVuln" vuln_fields) no_vuln v l)].

Definition normalizeDatabaseSeverity (value : string) : string :=
  let v := ToLower (TrimSpace value) in
  if decide (v = "none") then SeverityNone
  else if decide (v = "low") then SeverityLow
  else if decide (v = "moderate" ∨ v = "medium") then SeverityMedium
  else if decide (v = "high") then SeverityHigh
  else if decide (v = "critical") then SeverityCritical
  else "".

Definition severityFromScore (score : float64) : string :=
  if f64_geb score (f64_of_Z 9) then SeverityCritical
  else if f64_geb score (f64_of_Z 7) then SeverityHigh
  else if f64_geb score (f64_of_Z 4) then SeverityMedium
  else if f64_gtb score (f64_of_Z 0) then SeverityLow
  else "".

(** The scores the CVSS library gives to vectors of the three versions. *)
Class CVSSLibrary : Type := {
  cvss30_BaseScore : string → option float64;
  cvss31_BaseScore : string → option float64;
  cvss40_Score : string → option float64;
}.

Section osv.
Context {CL : CVSSLibrary}.

Definition parseCVSSScore (vector : string) : float64 :=
  let zero := f64_of_Z 0 in
  let trimmed := TrimSpace vector in
  if decide (trimmed = "") then zero
  else match ParseFloat trimmed with
  | Some score => score
  | None =>
      if HasPrefix trimmed "CVSS:3.0/" then default zero (cvss30_BaseScore trimmed)
      else if HasPrefix trimmed "CVSS:3.1/" then default zero (cvss31_BaseScore trimmed)
      else if HasPrefix trimmed "CVSS:4.0/" then default zero (cvss40_Score trimmed)
      else zero
  end.

(** The greater of two scores as the loops choose it: the first where the second is
    not above it. *)
Definition best_score (best score : float64) : float64 := if f64_leb score best then best else score.

Definition extractSeverity (severities : list string) : string * float64 :=
  match severities with
  | [] => ("", f64_of_Z 0)
  | s :: l => let best := foldl (λ b s, best_score b (parseCVSSScore s)) (parseCVSSScore s) l in
              (severityFromScore best, best)
  end.

Definition resolveSeverity (v : osvVuln) : string * float64 :=
  let '(severity, score) := extractSeverity (osv_Severity v) in
  let normalized := normalizeDatabaseSeverity (osv_DatabaseSeverity v) in
  (if decide (normalized ≠ "") then normalized else severity, score).

Definition to_vulnerability (v : osvVuln) : Vulnerability :=
  let '(severity, score) := resolveSeverity v in mkVulnerability (osv_ID v) severity score (osv_Summary v).

(** The greatest of the positive scores, if there is one. *)
Definition max_step (m : option float64) (v : Vulnerability) : option float64 :=
  if f64_gtb (CVSS v) (f64_of_Z 0) then
    match m with
    | None => Some (CVSS v)
    | Some best => Some (if f64_gtb (CVSS v) best then CVSS v else best)
    end
  else m.

Definition toArtifactMetadata (vulns : list osvVuln) : ArtifactMetadata :=
  let vs := to_vulnerability <$> vulns in
  mkMetadata None (foldl max_step None vs) [] vs false None None.
End osv.

Definition mapArtifactToOSV (a : ArtifactIdentity) : string * string :=
  if decide (Ecosystem a = EcosystemNPM) then
    ("npm", if bool_decide (Namespace a ≠ "") && HasPrefix (Namespace a) "@" then Namespace a +:+ "/" +:+ Name a else Name a)
  else (Ecosystem a, Name a).

Definition query_json (ecosystem name version : string) : json :=
  JObject [("package", JObject [("name", JString name); ("ecosystem", JString ecosystem)]); ("version", JString version)].

(** *** The clients *)

Record SourceRequest : Type := mkSourceRequest {
  sr_Method : string;
  sr_URL : string;
  sr_Accept : string;
  sr_ContentType : string;
  sr_Body : string;
}.

Class SourcePorts (W : Type) : Type := { source_Do : SourceRequest → W → result InResponse * W }.

(** A request to a public service and what came back. *)
Record SourceCall : Type := mkSourceCall { sc_Request : SourceRequest; sc_Result : result InResponse }.

Definition enrichment_failed (message : string) : error := sentinel_suffix ErrEnrichmentFailed (": " +:+ message).
Definition StatusTooManyRequests : Z := 429.

Section clients.
Context {CR : Crypto} {CL : CVSSLibrary} {W : Type} `{!SourcePorts W}.
Context (ip_literal : string → option error).
Notation M := (Effects.M W SourceCall).

(** A request, its transport errors reported as failed enrichment. *)
Definition source_request (req : SourceRequest) : M InResponse :=
  match url_Parse ip_literal (sr_URL req) with
  | Err e => throw (enrichment_failed ("building request: " +:+ error_msg e))
  | Ok _ =>
      r ← attempt (call (mkSourceCall req) (source_Do req));
      match r with Ok resp => mret resp | Err e => throw (enrichment_failed (error_msg e)) end
  end.

(** The checks of the status and the body that the clients share. *)
Definition source_document {S} (service ty : string) (fs : fields S) (zero : S) (resp : InResponse) : M S :=
  if decide (rs_StatusCode resp = StatusTooManyRequests) then throw (enrichment_failed ("rate limited by " +:+ service))
  else if decide (rs_StatusCode resp ≠ 200) then
    throw (enrichment_failed (service +:+ " returned status " +:+ itoa (rs_StatusCode resp)))
  else match decode_body ty fs (rs_Body resp) zero with
  | Ok s => mret s
  | Err e => throw (enrichment_failed ("decoding response: " +:+ error_msg e))
  end.

(** [osv.Client.Enrich] *)
Definition osv_Enrich (a : ArtifactIdentity) : M (option ArtifactMetadata) :=
  if decide (Ecosystem a = EcosystemOCI) then mret (Some empty_metadata)
  else
    let '(ecosystem, pkgName) := mapArtifactToOSV a in
    if decide (pkgName = "") then mret (Some empty_metadata)
    else match json_Marshal (query_json ecosystem pkgName (Version a)) with
    | Err e => throw (enrichment_failed ("marshaling request: " +:+ error_msg e))
    | Ok body =>
        resp ← source_request (mkSourceRequest "POST" "https://api.osv.dev/v1/query" "" "application/json" body);
        vulns ← source_document "OSV API" "osv.queryResponse" query_fields [] resp;
        mret (Some (toArtifactMetadata vulns))
    end.

(** [scorecard.Client.Lookup] *)
Definition check_fields : fields (string * float64) :=
  let place := into_field "projectCheckResult" in
  [("name", λ v c, s ← dec_string (place "checks.name") "string" v c.1; Ok (s, c.2));
   ("score", λ v c, f ← dec_float (place "checks.score") v c.2; Ok (c.1, f))].

Definition project_fields : fields (option float64 * list (string * float64)) :=
  let place := into_field "projectResponse" in
  [("score", λ v p, s ← dec_pointer (dec_float (place "score")) (f64_of_Z 0) v p.1; Ok (s, p.2));
   ("checks", λ v p, l ← dec_slice (place "checks") "[]scorecard.projectCheckResult"
                        (unmarshal_struct "scorecard.projectCheckResult" check_fields) ("", f64_of_Z 0) v p.2; Ok (p.1, l))].

Definition add_check (m : gmap string float64) (c : string * float64) : gmap string float64 :=
  let name := NormalizeScorecardCheckName c.1 in if decide (name = "") then m else <[name := c.2]> m.

Definition scorecard_unavailable (uri : string) : string := "Scorecard data is unavailable for " +:+ uri.

Definition toScorecardResult (uri : string) (p : option float64 * list (string * float64)) : ScorecardResult :=
  let checks := foldl add_check ∅ p.2 in
  mkScorecardResult p.1 checks (if bool_decide (p.1 = None) && bool_decide (checks = ∅) then scorecard_unavailable uri else "").

Definition scorecard_Lookup (repo : SourceRepository) : M ScorecardResult :=
  let uri := ProjectURI repo in
  if decide (uri = "") then throw (enrichment_failed "source repository is required for Scorecard lookup")
  else
    resp ← source_request (mkSourceRequest "GET" ("https://api.scorecard.dev/projects/" +:+ uri) "application/json" "" "");
    if decide (rs_StatusCode resp = 404) then mret (mkScorecardResult None ∅ (scorecard_unavailable uri))
    else toScorecardResult uri <$> source_document "Scorecard API" "scorecard.projectResponse" project_fields (None, []) resp.

(** [npm.MetadataEnricher]; [scorecards] where the lookup is wired. *)
Definition buildPackageName (a : ArtifactIdentity) : string :=
  if bool_decide (Namespace a ≠ "") && HasPrefix (Namespace a) "@" then Namespace a +:+ "/" +:+ Name a else Name a.

(** [None]: the registry has no such package. *)
Definition fetchPackageMetadata (pkgName : string) : M (option npmPackageResponse) :=
  resp ← source_request (mkSourceRequest "GET" ("https://registry.npmjs.org/" +:+ pkgName) "application/json" "" "");
  if decide (rs_StatusCode resp = 404) then mret None
  else Some <$> source_document "npm registry" "npm.npmPackageResponse" package_fields no_package resp.

Definition extractPublishTimestamp (a : ArtifactIdentity) (publishTimes : gmap string string) : option time :=
  text ← publishTimes !! Version a;
  match time_Parse text with Ok t => Some t | Err _ => None end.

Definition enrichSourceRepository (scorecards : bool) (pkg : npmPackageResponse) (v : npmPackageVersion)
    : M (option SourceRepository * option ScorecardResult) :=
  match resolveSourceRepository ip_literal pkg v with
  | inr reason => mret (None, Some (mkScorecardResult None ∅ reason))
  | inl repo =>
      if negb scorecards then mret (Some repo, None)
      else
        r ← attempt (scorecard_Lookup repo);
        mret (Some repo, Some (match r with
          | Ok s => s
          | Err _ => mkScorecardResult None ∅ (scorecard_unavailable (ProjectURI repo)) end))
  end.

Definition enrichPackageVersion (scorecards : bool) (a : ArtifactIdentity) (pkg : npmPackageResponse) : M ArtifactMetadata :=
  let published := extractPublishTimestamp a (Time pkg) in
  match Versions pkg !! Version a with
  | None => mret (mkMetadata published None [] [] false None None)
  | Some v =>
      '(repo, card) ← enrichSourceRepository scorecards pkg v;
      mret (mkMetadata published None (extractVersionLicenses v) [] false repo card)
  end.

Definition npm_Enrich (scorecards : bool) (a : ArtifactIdentity) : M (option ArtifactMetadata) :=
  if decide (Ecosystem a ≠ EcosystemNPM ∨ Version a = "") then mret (Some empty_metadata)
  else
    pkg ← fetchPackageMetadata (buildPackageName a);
    match pkg with
    | None => mret (Some empty_metadata)
    | Some pkg => Some <$> enrichPackageVersion scorecards a pkg
    end.

(** [enrichment.CompositeEnricher] *)
Definition mergeMetadata (dst src : ArtifactMetadata) : ArtifactMetadata :=
  let over {A} (new old : option A) : option A := match new with Some _ => new | None => old end in
  mkMetadata (over (PublishedAt src) (PublishedAt dst)) (over (meta_MaxCVSS src) (meta_MaxCVSS dst))
    (meta_Licenses dst ++ meta_Licenses src) (Vulnerabilities dst ++ Vulnerabilities src)
    (IsMutableTag dst || IsMutableTag src)
    (over (meta_SourceRepository src) (meta_SourceRepository dst)) (over (meta_Scorecard src) (meta_Scorecard dst)).

Fixpoint composite_from (enrichers : list (ArtifactIdentity → M (option ArtifactMetadata))) (a : ArtifactIdentity)
    (merged : ArtifactMetadata) : M ArtifactMetadata :=
  match enrichers with
  | [] => mret merged
  | enricher :: rest =>
      r ← attempt (enricher a);
      composite_from rest a (match r with Ok (Some m) => mergeMetadata merged m | _ => merged end)
  end.

Definition composite_Enrich (enrichers : list (ArtifactIdentity → M (option ArtifactMetadata))) (a : ArtifactIdentity) : M (option ArtifactMetadata) :=
  Some <$> composite_from enrichers a empty_metadata.

(** The sources as the process wires them. *)
Definition package_sources : ArtifactIdentity → M (option ArtifactMetadata) := composite_Enrich [osv_Enrich; npm_Enrich true].
End clients.

(** ** Lemmas *)

(** *** Licences *)

Lemma add_licenses_fresh seen l x : x ∈ add_licenses seen l → ToLower x ∉ seen.
Proof.
  revert seen. induction l as [|v l IH]; intros seen; [set_solver|]. cbn [add_licenses].
  destruct (decide _) as [|Hn]; [apply IH|]. rewrite elem_of_cons. intros [->|H%IH]; [tauto|set_solver].
Qed.

Lemma add_licenses_spec seen l :
  NoDup (ToLower <$> add_licenses seen l) ∧
  (∀ x, x ∈ add_licenses seen l → x ≠ "" ∧ ∃ v, v ∈ l ∧ x = TrimSpace v) ∧
  (∀ v, v ∈ l → TrimSpace v ≠ "" → ToLower (TrimSpace v) ∈ seen ∨
     ∃ x, x ∈ add_licenses seen l ∧ ToLower x = ToLower (TrimSpace v)).
Proof.
  revert seen. induction l as [|v l IH]; intros seen; [split; [constructor|split; set_solver]|].
  cbn [add_licenses]. destruct (decide _) as [Hs|Hn].
  - destruct (IH seen) as (H1 & H2 & H3). split; [done|]. split.
    + intros x Hx. destruct (H2 x Hx) as (? & w & ? & ->). split; [done|]. exists w. split; [by right|done].
    + intros w Hw Hb. apply elem_of_cons in Hw as [->|Hw]; [|by apply H3]. destruct Hs as [?|?]; [done|by left].
  - destruct (IH ({[ToLower (TrimSpace v)]} ∪ seen)) as (H1 & H2 & H3). split; [|split].
    + cbn. constructor; [|done]. intros (x & Hx & Hin)%list_elem_of_fmap. apply add_licenses_fresh in Hin. set_solver.
    + intros x Hx. apply elem_of_cons in Hx as [->|Hx].
      * split; [tauto|]. exists v. split; [by left|done].
      * destruct (H2 x Hx) as (? & w & ? & ->). split; [done|]. exists w. split; [by right|done].
    + intros w Hw Hb. apply elem_of_cons in Hw as [->|Hw]; [right; eexists; split; [by left|done]|].
      destruct (H3 w Hw Hb) as [Hin|(x & Hx & E)]; [|right; exists x; split; [by right|done]].
      apply elem_of_union in Hin as [E%elem_of_singleton|?]; [|by left]. right. exists (TrimSpace v). split; [by left|done].
Qed.

Lemma splitLicenseExpression_tokens value t :
  t ∈ splitLicenseExpression value → t ≠ "" ∧ TrimSpace t = t.
Proof.
  unfold splitLicenseExpression. set (result := filter _ _).
  assert (∀ t, t ∈ result → t ≠ "" ∧ TrimSpace t = t) as H.
  { intros x Hx. apply list_elem_of_filter in Hx as [[Hne _] Hx]. split; [done|].
    apply list_elem_of_fmap in Hx as (y & -> & _). apply TrimSpace_idem. }
  destruct (decide (result = [])); [|apply H]. destruct (decide _); [set_solver|].
  intros ->%list_elem_of_singleton. split; [done|]. apply TrimSpace_idem.
Qed.

(** *** The sources together *)

Section composite.
Context {W : Type}.
Notation M := (Effects.M W SourceCall).

(** What the successes among the sources add up to. *)
Fixpoint answers_of (enrichers : list (ArtifactIdentity → M (option ArtifactMetadata))) (a : ArtifactIdentity)
    (st : St W SourceCall) : list (result (option ArtifactMetadata)) :=
  match enrichers with
  | [] => []
  | e :: rest => let '(r, st) := e a st in r :: answers_of rest a st
  end.

Definition merge_answer (m : ArtifactMetadata) (r : result (option ArtifactMetadata)) : ArtifactMetadata :=
  match r with Ok (Some x) => mergeMetadata m x | _ => m end.

Lemma composite_from_spec enrichers a m st :
  (composite_from enrichers a m st).1 = Ok (foldl merge_answer m (answers_of enrichers a st)).
Proof.
  induction enrichers as [|e rest IH] in m, st |- *; [done|]. cbn [composite_from answers_of].
  unfold attempt. cbv [mbind M_bind]. destruct (e a st) as [r st1]. cbn [foldl]. rewrite IH.
  by destruct r as [[x|]|].
Qed.
End composite.

Section sources.
Context {CR : Crypto} {CL : CVSSLibrary} {W : Type} `{!SourcePorts W}.
Context (ip_literal : string → option error).
Notation M := (Effects.M W SourceCall).

(** A request to one of the three public services. *)
Definition public_call (c : SourceCall) : Prop :=
  HasPrefix (sr_URL (sc_Request c)) "https://api.osv.dev/" = true ∨
  HasPrefix (sr_URL (sc_Request c)) "https://api.scorecard.dev/" = true ∨
  HasPrefix (sr_URL (sc_Request c)) "https://registry.npmjs.org/" = true.

Definition from_osv (o : option ArtifactMetadata) : Prop :=
  ∀ m, o = Some m → PublishedAt m = None ∧ meta_Licenses m = [] ∧ IsMutableTag m = false ∧
    meta_SourceRepository m = None ∧ meta_Scorecard m = None.
Definition from_npm (o : option ArtifactMetadata) : Prop :=
  ∀ m, o = Some m → meta_MaxCVSS m = None ∧ Vulnerabilities m = [] ∧ IsMutableTag m = false.

Lemma runs_fmap {A B} (I : A → Prop) (J : B → Prop) (g : A → B) (m : M A) :
  runs public_call I m → (∀ a, I a → J (g a)) → runs public_call J (g <$> m).
Proof.
  intros H HJ st. destruct (H st) as (l & Hl & Hq & Hr). exists l. unfold fmap, M_fmap.
  destruct (m st) as [[x|e] st']; (split; [done|]); (split; [done|]); [|done]. intros b [= <-]. by apply HJ, Hr.
Qed.

Lemma source_request_runs req :
  (∀ r, public_call (mkSourceCall req r)) → runs public_call (λ _, True) (source_request ip_literal req).
Proof.
  intros H. unfold source_request. destruct (url_Parse _ _); [|apply runs_throw]. apply runs_all. walk.
Qed.

Lemma source_document_runs {S} service ty (fs : fields S) zero resp :
  runs public_call (λ _, True) (source_document service ty fs zero resp : M S).
Proof. unfold source_document. apply runs_all. walk. Qed.

Lemma osv_runs a : runs public_call from_osv (osv_Enrich ip_literal a).
Proof.
  unfold osv_Enrich. destruct (decide _); [apply runs_ret; by intros m [= <-]|].
  destruct (mapArtifactToOSV a) as [ecosystem name]. destruct (decide _); [apply runs_ret; by intros m [= <-]|].
  destruct (json_Marshal _) as [body|e]; [|apply runs_throw].
  eapply runs_bind; [apply source_request_runs; intros r; by left|]. intros resp _.
  eapply runs_bind; [apply source_document_runs|]. intros vulns _. apply runs_ret. by intros m [= <-].
Qed.

Lemma scorecard_runs repo : runs public_call (λ _, True) (scorecard_Lookup ip_literal repo).
Proof.
  unfold scorecard_Lookup. destruct (decide _); [apply runs_throw|].
  eapply runs_bind; [apply source_request_runs; intros r; right; left; reflexivity|]. intros resp _.
  destruct (decide _); [by apply runs_ret|]. eapply runs_fmap; [apply source_document_runs|done].
Qed.

Lemma npm_runs scorecards a : runs public_call from_npm (npm_Enrich ip_literal scorecards a).
Proof.
  unfold npm_Enrich. destruct (decide _); [apply runs_ret; by intros m [= <-]|].
  eapply runs_bind; [unfold fetchPackageMetadata|intros pkg _].
  - eapply runs_bind; [apply source_request_runs; intros r; right; right; apply (prefix_app "https://registry.npmjs.org/")|]. intros resp _.
    destruct (decide _); [by apply (runs_ret _ (λ _, True))|]. eapply runs_fmap; [apply source_document_runs|done].
  - destruct pkg as [pkg|]; [|apply runs_ret; by intros m [= <-]].
    eapply runs_fmap with (λ m, from_npm (Some m)); [|by intros m Hm m' [= <-]; apply Hm].
    unfold enrichPackageVersion. destruct (Versions pkg !! Version a) as [v|]; [|apply runs_ret; by intros m [= <-]].
    eapply runs_bind; [|intros [repo card] _; apply runs_ret; by intros m [= <-]].
    unfold enrichSourceRepository. destruct (resolveSourceRepository ip_literal pkg v) as [repo|reason]; [|by apply (runs_ret _ (λ _, True))].
    destruct (negb scorecards); [by apply (runs_ret _ (λ _, True))|].
    apply runs_all, all_bind; [apply all_attempt; eapply all_runs, scorecard_runs|intros r; apply all_ret].
Qed.

Lemma package_sources_calls a : all public_call (package_sources ip_literal a).
Proof.
  unfold package_sources, composite_Enrich. apply (all_runs _ (λ _, True)), (runs_fmap (λ _, True)); [|done].
  apply runs_all. cbn [composite_from]. apply all_bind; [apply all_attempt; eapply all_runs, osv_runs|]. intros r1.
  apply all_bind; [apply all_attempt; eapply all_runs, npm_runs|]. intros r2. apply all_ret.
Qed.
End sources.

(** *** Repositories *)

(** A character of a GitHub owner or repository name. *)
Definition name_char (c : ascii) : bool := alnum c || among "-_." c.
Definition github_name (s : string) : Prop := s ≠ "" ∧ all_chars name_char s = true.

Lemma name_char_not d c : alnum d || among "-_." d = false → name_char c = true → bool_decide (c = d) = false.
Proof. intros Hd Hc. apply bool_decide_eq_false_2. intros ->. unfold name_char in Hc. congruence. Qed.

Lemma name_char_space c : name_char c = true → is_space c = false.
Proof.
  intros H. destruct (is_space c) eqn:E; [|done]. unfold is_space in E.
  unfold name_char, alnum, among, in_range in H. destruct c as [[] [] [] [] [] [] [] []]; vm_compute in E, H; congruence.
Qed.

Lemma npm_name_free d s : alnum d || among "-_." d = false → all_chars name_char s = true → free_of (λ c, bool_decide (c = d)) s.
Proof. intros Hd. apply all_chars_free_of. intros c. by apply name_char_not. Qed.

Lemma name_trim s : all_chars name_char s = true → TrimSpace s = s.
Proof. intros H. apply trim_by_free. eapply all_chars_free_of; [|exact H]. apply name_char_space. Qed.

(** What the forms have in common after their prefix. *)
Definition repository_tail (tail : string) : Prop := tail = "" ∨ tail = ".git".

Lemma Split_free_of c s : free_of (λ x, bool_decide (x = c)) s → Split c s = [s].
Proof.
  induction s as [|x s IH]; [done|]. intros [Hx Hs]. cbn [Split]. apply bool_decide_eq_false in Hx.
  rewrite decide_False by done. by rewrite IH.
Qed.
Lemma Split_cons c a b : free_of (λ x, bool_decide (x = c)) a → Split c (a +:+ String c b) = a :: Split c b.
Proof.
  induction a as [|x a IH]; [intros _; change ("" +:+ String c b) with (String c b); cbn [Split]; by rewrite decide_True|]. intros [Hx Ha]. rewrite sapp_cons. cbn [Split].
  apply bool_decide_eq_false in Hx. rewrite decide_False by done. by rewrite IH.
Qed.

Lemma before_any_free chars s : free_of (among chars) s → before_any chars s = s.
Proof. induction s as [|c s IH]; [done|]. intros [Hc Hs]. cbn. by rewrite Hc, IH. Qed.

Lemma repositoryValue_text s : TrimSpace s = s → s ≠ "" → repositoryValue (JString s) = Some s.
Proof. intros Ht Hs. unfold repositoryValue. cbv beta iota zeta. rewrite Ht. by rewrite decide_False. Qed.

Lemma repositoryValue_object s :
  TrimSpace s = s → s ≠ "" → repositoryValue (JObject [("type", JString "git"); ("url", JString s)]) = Some s.
Proof.
  intros Ht Hs. unfold repositoryValue. cbv beta iota zeta.
  change (any_member "url" _) with (Some (JString s)). cbv beta iota. rewrite Ht. by rewrite decide_False.
Qed.

Section repositories.
Context (ip_literal : string → option error) (o r tail : string).
Context (Ho : github_name o) (Hr : github_name r) (Hgit : CutSuffix (o +:+ "/" +:+ r) ".git" = None) (Htail : repository_tail tail).
Notation slug := (o +:+ "/" +:+ r +:+ tail).

Lemma tail_chars : all_chars name_char tail = true.
Proof. by destruct Htail as [->| ->]. Qed.

Lemma slug_free d : alnum d || among "-_./" d = false → free_of (λ c, bool_decide (c = d)) slug.
Proof.
  intros Hd. assert (alnum d || among "-_." d = false) as Hd'.
  { apply orb_false_iff in Hd as [-> Hd]. cbn in Hd |- *. repeat (apply orb_false_iff in Hd as [-> Hd]). done. }
  rewrite !free_of_app. repeat split; try (apply npm_name_free; [done|]); try apply Ho; try apply Hr; try apply tail_chars.
  apply bool_decide_eq_false_2. intros <-. done.
Qed.

Lemma slug_space : free_of is_space slug.
Proof.
  rewrite !free_of_app. repeat split;
    (eapply all_chars_free_of; [apply name_char_space|]); [apply Ho|apply Hr|apply tail_chars].
Qed.

Lemma slug_slash s : s = "" ∨ s = "/" → TrimSlash (s +:+ slug) = slug.
Proof.
  intros Hs. unfold TrimSlash, trim_by. set (p := λ c, _). assert (trim_left p (s +:+ slug) = slug) as ->.
  { assert (trim_left p slug = slug) as Hl.
    { destruct Ho as [Hne Hc]. destruct o as [|c o']; [done|]. rewrite sapp_cons. cbn [trim_left].
      cbn [all_chars] in Hc. apply andb_true_iff in Hc as [Hc _]. unfold p. by rewrite (name_char_not "/"). }
    destruct Hs as [->| ->]; exact Hl. }
  rewrite <-!sapp_assoc. rewrite sapp_assoc.
  rewrite trim_right_app; [done| |].
  - destruct Hr as [Hne _]. by destruct r.
  - apply trim_right_free. rewrite free_of_app. split; (apply npm_name_free; [done|]); [apply Hr|apply tail_chars].
Qed.

Lemma parse_slug s : s = "" ∨ s = "/" → parseGitHubRepositoryPath (s +:+ slug) = Ok (mkSourceRepository "github.com" o r).
Proof.
  intros Hs. unfold parseGitHubRepositoryPath.
  assert (TrimSpace (s +:+ slug) = s +:+ slug) as ->.
  { apply trim_by_free, free_of_app. split; [by destruct Hs as [->| ->]|apply slug_space]. }
  rewrite slug_slash by done.
  assert (TrimSuffix slug ".git" = o +:+ "/" +:+ r) as ->.
  { unfold TrimSuffix. destruct Htail as [->| ->].
    - by rewrite sapp_nil_r, Hgit.
    - replace (o +:+ "/" +:+ r +:+ ".git") with ((o +:+ "/" +:+ r) +:+ ".git") by (by rewrite !sapp_assoc).
      by rewrite CutSuffix_app. }
  rewrite before_any_free.
  2:{ rewrite !free_of_app. repeat split; (eapply all_chars_free_of; [|first [apply Ho|apply Hr]]);
      intros c Hc; apply not_true_iff_false; intros E; cbn in E; rewrite orb_false_r in E;
      apply orb_true_iff in E as [E|E]; apply Nat.eqb_eq, byte_of_inj in E; subst c; done. }
  change (o +:+ "/" +:+ r) with (o +:+ String "/" r).
  rewrite Split_cons by (apply npm_name_free; [done|apply Ho]).
  rewrite Split_free_of by (apply npm_name_free; [done|apply Hr]).
  rewrite !name_trim by (apply Ho || apply Hr). rewrite decide_False; [done|].
  intros [?|?]; [by destruct Ho|by destruct Hr].
Qed.

Lemma HasPrefix_absent d s p : free_of (λ c, bool_decide (c = d)) s → ¬ free_of (λ c, bool_decide (c = d)) p → HasPrefix s p = false.
Proof.
  intros Hs Hp. destruct (HasPrefix s p) eqn:E; [|done]. apply prefix_inv in E as [t ->]. by apply free_of_app in Hs as [? _].
Qed.

Lemma ToLower_free d s : alnum d = false → free_of (λ c, bool_decide (c = d)) s → free_of (λ c, bool_decide (c = d)) (ToLower s).
Proof.
  intros Hd. induction s as [|c s IH]; [done|]. intros [Hc Hs]. split; [|by apply IH].
  apply bool_decide_eq_false in Hc. apply bool_decide_eq_false_2. intros E. apply Hc. subst d. revert Hd.
  destruct c as [[] [] [] [] [] [] [] []]; vm_compute; congruence.
Qed.

Lemma Cut_absent d s sep : free_of (λ c, bool_decide (c = d)) s → ¬ free_of (λ c, bool_decide (c = d)) sep → Cut s sep = None.
Proof.
  intros Hs Hp. destruct (Cut s sep) as [[a b]|] eqn:E; [|done]. apply Cut_spec in E as ->.
  apply free_of_app in Hs as [_ Hs]. by apply free_of_app in Hs as [? _].
Qed.

Lemma form_space s : free_of is_space s → TrimSpace (s +:+ slug) = s +:+ slug.
Proof. intros Hs. apply trim_by_free, free_of_app. split; [done|apply slug_space]. Qed.

Lemma form_nonempty s : s +:+ slug ≠ "".
Proof. destruct Ho as [Hne _]. destruct s; [|done]. by destruct o. Qed.

Lemma slug_lower d p : alnum d || among "-_./" d = false → ¬ free_of (λ c, bool_decide (c = d)) p → HasPrefix (ToLower slug) p = false.
Proof.
  intros Hd Hp. apply (HasPrefix_absent d); [|done]. apply ToLower_free; [|by apply slug_free].
  by apply orb_false_iff in Hd as [? _].
Qed.

(** The owner and the name alone. *)
Lemma form_shorthand : normalizeGitHubRepository ip_literal slug = Ok (mkSourceRepository "github.com" o r).
Proof.
  unfold normalizeGitHubRepository. assert (TrimSpace slug = slug) as -> by (by apply (form_space "")).
  rewrite decide_False by (apply (form_nonempty "")).
  assert (∀ p, ¬ free_of (λ c, bool_decide (c = ":"%char)) p → HasPrefix (ToLower slug) p = false) as Hcolon
    by (intros p; by apply slug_lower).
  assert (∀ p, p ∈ ["github:"; "git@github.com:"; "git://"; "ssh://git@github.com/"] → HasPrefix (ToLower slug) p = false) as Hcol.
  { intros p Hp. apply Hcolon. repeat (apply elem_of_cons in Hp as [->|Hp]; [cbn; intuition discriminate|]). set_solver. }
  rewrite (Hcol "github:"), (Hcol "git@github.com:") by set_solver.
  assert (TrimPrefix slug "git+" = slug) as ->.
  { unfold TrimPrefix. rewrite (HasPrefix_absent "+"); [done|by apply slug_free|cbn; intuition discriminate]. }
  cbv zeta. rewrite (Hcol "git://"), (Hcol "ssh://git@github.com/") by set_solver.
  assert (looksLikeGitHubShorthand slug = true) as ->; [|by apply (parse_slug ""); left].
  unfold looksLikeGitHubShorthand. rewrite (Cut_absent ":"), (Cut_absent "@");
    [|by apply slug_free|cbn; intuition discriminate|by apply slug_free|cbn; intuition discriminate].
  rewrite bool_decide_false by tauto. assert (TrimSlash slug = slug) as -> by (apply (slug_slash ""); by left).
  change slug with (o +:+ String "/" (r +:+ tail)).
  rewrite Split_cons by (apply npm_name_free; [done|apply Ho]).
  rewrite Split_free_of by (rewrite free_of_app; split; apply npm_name_free; [done|apply Hr|done|apply tail_chars]).
  apply bool_decide_eq_true. split; rewrite name_trim; [apply Ho|apply Ho| |].
  - destruct Hr. by destruct r.
  - rewrite all_chars_app. rewrite (proj2 Hr). apply tail_chars.
Qed.

(** A URL of the site. *)
Lemma form_url scheme : scheme = "http" ∨ scheme = "https" →
  ∃ u, url_Parse ip_literal (scheme +:+ "://" +:+ "github.com" +:+ "/" +:+ slug) = Ok u ∧ ToLower (Hostname u) = "github.com" ∧ Path u = "/" +:+ slug.
Proof.
  intros Hs. pose proof (url_Parse_query ip_literal scheme "github.com" slug "" "" Hs) as H. rewrite sapp_nil_r in H.
  eexists. split; [apply H; [done|done| |by left|done]|done].
  rewrite !all_chars_app. repeat (apply andb_true_iff; split); try done;
    (eapply all_chars_impl; [|first [apply Ho|apply Hr|apply tail_chars]]);
    intros c; destruct c as [[] [] [] [] [] [] [] []]; vm_compute; congruence.
Qed.

Definition repository_prefixes : list string :=
  ["github:"; "git@github.com:"; "ssh://git@github.com/"; "git+ssh://git@github.com/"; "https://github.com/";
   "git+https://github.com/"; "http://github.com/"; "git://github.com/"; ""].

Ltac no_scp_form :=
  replace (HasPrefix (ToLower _) "github:") with false by done;
  replace (HasPrefix (ToLower _) "git@github.com:") with false by done.

(** What is left to do for a URL of the site. *)
Lemma url_rest scheme n : scheme = "http" ∨ scheme = "https" → n = scheme +:+ "://" +:+ "github.com" +:+ "/" +:+ slug →
  (if HasPrefix (ToLower n) "ssh://git@github.com/" then parseGitHubRepositoryPath (drop_str (String.length "ssh://git@github.com/") n)
   else if looksLikeGitHubShorthand n then parseGitHubRepositoryPath n
   else parsed ← url_Parse ip_literal n;
        if decide (ToLower (Hostname parsed) ≠ "github.com")
        then Err (new_error ("unsupported repository host " +:+ quote (Hostname parsed)))
        else parseGitHubRepositoryPath (Path parsed)) = Ok (mkSourceRepository "github.com" o r).
Proof.
  intros Hs ->. destruct (form_url scheme Hs) as (u & Hu & Hhost & Hpath).
  replace (HasPrefix (ToLower _) "ssh://git@github.com/") with false by (by destruct Hs; subst).
  replace (looksLikeGitHubShorthand _) with false.
  2:{ unfold looksLikeGitHubShorthand. rewrite bool_decide_true; [done|]. left. by destruct Hs; subst. }
  rewrite Hu. cbn [mbind result_bind]. rewrite decide_False by (intros Hn; by apply Hn). rewrite Hpath. apply (parse_slug "/"). by right.
Qed.

Lemma forms_agree prefix :
  prefix ∈ repository_prefixes → normalizeGitHubRepository ip_literal (prefix +:+ slug) = Ok (mkSourceRepository "github.com" o r).
Proof.
  intros H. assert (free_of is_space prefix) as Hsp.
  { unfold repository_prefixes in H. repeat (apply elem_of_cons in H as [->|H]; [by repeat split|]). set_solver. }
  destruct (decide (prefix = "")) as [->|Hempty]; [apply form_shorthand|].
  unfold normalizeGitHubRepository. rewrite (form_space prefix Hsp), decide_False by apply form_nonempty. cbv zeta.
  assert (∀ p x, HasPrefix (ToLower (p +:+ x)) (ToLower p) = true) as Hlow.
  { intros p x. assert (ToLower (p +:+ x) = ToLower p +:+ ToLower x) as ->; [|apply prefix_app].
    unfold ToLower. induction p as [|c p IH]; [done|]. rewrite sapp_cons. cbn [string_map]. by rewrite IH. }
  assert (∀ n, TrimPrefix ("git+" +:+ n) "git+" = n) as Hplus by (intros n; apply TrimPrefix_app).
  unfold repository_prefixes in H.
  apply elem_of_cons in H as [->|H]; [rewrite (Hlow "github:"), drop_app; apply (parse_slug ""); by left|].
  apply elem_of_cons in H as [->|H].
  { replace (HasPrefix (ToLower _) "github:") with false by done. rewrite (Hlow "git@github.com:"), drop_app. apply (parse_slug ""). by left. }
  apply elem_of_cons in H as [->|H].
  { no_scp_form.
    change (TrimPrefix ("ssh://git@github.com/" +:+ slug) "git+") with ("ssh://git@github.com/" +:+ slug).
    replace (HasPrefix (ToLower _) "git://") with false by done. rewrite (Hlow "ssh://git@github.com/"), drop_app.
    apply (parse_slug ""). by left. }
  apply elem_of_cons in H as [->|H].
  { no_scp_form.
    change ("git+ssh://git@github.com/" +:+ slug) with ("git+" +:+ ("ssh://git@github.com/" +:+ slug)). rewrite Hplus.
    replace (HasPrefix (ToLower _) "git://") with false by done. rewrite (Hlow "ssh://git@github.com/"), drop_app.
    apply (parse_slug ""). by left. }
  apply elem_of_cons in H as [->|H].
  { no_scp_form.
    change (TrimPrefix ("https://github.com/" +:+ slug) "git+") with ("https://github.com/" +:+ slug).
    replace (HasPrefix (ToLower ("https://github.com/" +:+ slug)) "git://") with false by done. apply (url_rest "https"); auto. }
  apply elem_of_cons in H as [->|H].
  { no_scp_form.
    change ("git+https://github.com/" +:+ slug) with ("git+" +:+ ("https://github.com/" +:+ slug)). rewrite Hplus.
    replace (HasPrefix (ToLower ("https://github.com/" +:+ slug)) "git://") with false by done. apply (url_rest "https"); auto. }
  apply elem_of_cons in H as [->|H].
  { no_scp_form.
    change (TrimPrefix ("http://github.com/" +:+ slug) "git+") with ("http://github.com/" +:+ slug).
    replace (HasPrefix (ToLower ("http://github.com/" +:+ slug)) "git://") with false by done. apply (url_rest "http"); auto. }
  apply elem_of_cons in H as [->|H].
  { no_scp_form.
    change (TrimPrefix ("git://github.com/" +:+ slug) "git+") with ("git://" +:+ ("github.com/" +:+ slug)).
    rewrite (Hlow "git://"), drop_app. apply (url_rest "https"); auto. }
  set_solver.
Qed.
End repositories.

(** ** Properties *)

(** One source cannot hide another's answer.  The sources of the process never
    fail: whatever the public services answer, the metadata of an artifact has exactly
    the vulnerabilities and the score of the OSV answer (none if it failed), and
    exactly the publish time, licences, repository and Scorecard of the registry's
    answer (none if it failed); and every request goes to one of the three public
    services. *)
Theorem package_sources_merge {CR : Crypto} {CL : CVSSLibrary} {W} `{!SourcePorts W} ip_literal a (st : St W SourceCall) :
  let osv := osv_Enrich ip_literal a st in
  let npm := npm_Enrich ip_literal true a osv.2 in
  (∃ m, (package_sources ip_literal a st).1 = Ok (Some m) ∧
    (Vulnerabilities m, meta_MaxCVSS m) =
      match osv.1 with Ok (Some x) => (Vulnerabilities x, meta_MaxCVSS x) | _ => ([], None) end ∧
    (PublishedAt m, meta_Licenses m, meta_SourceRepository m, meta_Scorecard m) =
      match npm.1 with
      | Ok (Some x) => (PublishedAt x, meta_Licenses x, meta_SourceRepository x, meta_Scorecard x)
      | _ => (None, [], None, None)
      end) ∧
  ∃ l, calls (package_sources ip_literal a st).2 = calls st ++ l ∧ Forall public_call l.
Proof.
  intros osv npm. split; [|apply (package_sources_calls ip_literal a st)].
  destruct (osv_runs ip_literal a st) as (_ & _ & _ & Ho). destruct (npm_runs ip_literal true a osv.2) as (_ & _ & _ & Hn).
  change (∀ x, osv.1 = Ok x → from_osv x) in Ho. change (∀ x, npm.1 = Ok x → from_npm x) in Hn.
  pose proof (composite_from_spec [osv_Enrich ip_literal; npm_Enrich ip_literal true] a empty_metadata st) as H.
  unfold package_sources, composite_Enrich, fmap, M_fmap. destruct (composite_from _ a empty_metadata st) as [r st'].
  cbn [fst] in H. subst r. eexists. split; [done|]. cbn [answers_of].
  fold osv. destruct osv as [r1 st1]. fold npm. cbn [snd] in npm. fold npm. destruct npm as [r2 st2]. cbn [fst snd foldl] in Ho, Hn |- *.
  destruct r1 as [[x|]|e]; [destruct (Ho _ eq_refl x eq_refl) as (E1 & E2 & E3 & E4 & E5)|..];
    (destruct r2 as [[y|]|e']; [destruct (Hn _ eq_refl y eq_refl) as (F1 & F2 & F3)|..]);
    cbn; rewrite ?E1, ?E2, ?E4, ?E5, ?F1, ?F2, ?app_nil_r; try done;
    repeat match goal with |- context [match ?o with Some _ => _ | None => _ end] => destruct o end; done.
Qed.

(** What a version declares as licences: the tokens of its licence expressions. *)
Definition license_tokens (v : npmPackageVersion) : list string :=
  (match ver_License v with
   | JString license => splitLicenseExpression license
   | license => match any_member "type" license with Some (JString t) => splitLicenseExpression t | _ => [] end
   end) ++ concat (splitLicenseExpression <$> ver_Licenses v).

(** The licences of a version are exactly the tokens of its expressions, each once
    up to case, trimmed and not empty. *)
Theorem extractVersionLicenses_spec v :
  let l := extractVersionLicenses v in
  NoDup (ToLower <$> l) ∧
  (∀ x, x ∈ l → x ≠ "" ∧ TrimSpace x = x ∧ x ∈ license_tokens v) ∧
  (∀ t, t ∈ license_tokens v → ∃ x, x ∈ l ∧ ToLower x = ToLower t).
Proof.
  intros l. destruct (add_licenses_spec ∅ (license_tokens v)) as (H1 & H2 & H3).
  assert (∀ t, t ∈ license_tokens v → t ≠ "" ∧ TrimSpace t = t) as Ht.
  { unfold license_tokens. intros t [Ht|Ht]%elem_of_app.
    - destruct (ver_License v); try (by apply splitLicenseExpression_tokens in Ht);
        (destruct (any_member "type" _) as [[]|]; try set_solver; by apply splitLicenseExpression_tokens in Ht).
    - apply list_elem_of_In, in_concat in Ht as (x & Hx%list_elem_of_In & Hin%list_elem_of_In).
      apply list_elem_of_fmap in Hx as (y & -> & _). by apply splitLicenseExpression_tokens in Hin. }
  split; [exact H1|]. split.
  - intros x Hx. destruct (H2 x Hx) as (Hne & w & Hw & ->). destruct (Ht w Hw) as [_ E]. rewrite !E. destruct (Ht w Hw) as [? _]. done.
  - intros t Hin. destruct (Ht t Hin) as [Hne E]. destruct (H3 t Hin) as [Hs|(x & Hx & Ex)]; [by rewrite E|set_solver|].
    exists x. by rewrite Ex, E.
Qed.

(** Every usual way to write a GitHub repository leads to the same Scorecard
    project: with any of the prefixes (a [github:] or scp-like one, a web, git or ssh
    URL with or without [git+], or none), with or without [.git], as a string or as
    the [url] of an object, at the version or, where the version says nothing, at the
    package. *)
Theorem source_repository_forms ip_literal prefix o r tail licenses more pkg :
  github_name o → github_name r → CutSuffix (o +:+ "/" +:+ r) ".git" = None → repository_tail tail →
  prefix ∈ repository_prefixes →
  let text := prefix +:+ o +:+ "/" +:+ r +:+ tail in
  let repo := mkSourceRepository "github.com" o r in
  (∀ value, value ∈ [JString text; JObject [("type", JString "git"); ("url", JString text)]] →
    resolveSourceRepository ip_literal pkg (mkPackageVersion licenses more value) = inl repo ∧
    resolveSourceRepository ip_literal (mkPackageResponse (Time pkg) (Versions pkg) value) (mkPackageVersion licenses more JNull) = inl repo) ∧
  ProjectURI repo = "github.com/" +:+ o +:+ "/" +:+ r.
Proof.
  intros Ho Hr Hgit Htail Hp text repo.
  assert (TrimSpace text = text) as Htrim.
  { apply (form_space o r tail); [done..|]. unfold repository_prefixes in Hp.
    repeat (apply elem_of_cons in Hp as [->|Hp]; [by repeat split|]). set_solver. }
  assert (text ≠ "") as Hne by (by apply form_nonempty).
  split.
  - intros value Hv. assert (repositoryValue value = Some text) as Hval.
    { apply elem_of_cons in Hv as [->|[->|?%not_elem_of_nil]%elem_of_cons]; [by apply repositoryValue_text| |done].
      by apply repositoryValue_object. }
    assert (normalizeGitHubRepository ip_literal text = Ok repo) as Hnorm by (by apply forms_agree).
    unfold resolveSourceRepository. cbn [first_repository ver_Repository Repository].
    change (repositoryValue JNull) with (None : option string). by rewrite Hval, Hnorm.
  - destruct Ho as [Ho Hoc], Hr as [Hr Hrc]. unfold ProjectURI, repo. cbn [Host Owner Repo].
    rewrite (name_trim o), (name_trim r) by done. rewrite decide_False; [done|]. by intros [|[|]].
Qed.

Lemma source_repository_forms_witness :
  (∀ value, value ∈ [JString "git+ssh://git@github.com/expressjs/express.git";
                     JObject [("type", JString "git"); ("url", JString "git+ssh://git@github.com/expressjs/express.git")]] →
    resolveSourceRepository (λ _, None) no_package (mkPackageVersion JNull [] value) = inl (mkSourceRepository "github.com" "expressjs" "express") ∧
    resolveSourceRepository (λ _, None) (mkPackageResponse ∅ ∅ value) (mkPackageVersion JNull [] JNull) =
      inl (mkSourceRepository "github.com" "expressjs" "express")) ∧
  ProjectURI (mkSourceRepository "github.com" "expressjs" "express") = "github.com/expressjs/express".
Proof.
  apply (source_repository_forms (λ _, None) "git+ssh://git@github.com/" "expressjs" "express" ".git" JNull [] no_package);
    [by split|by split|vm_compute; reflexivity|by right|unfold repository_prefixes; set_solver].
Defined.

(** *** An outdated version can hide a document

    The field [licenses] of an old version, where it is written as a list of strings,
    is an error of the whole document: no version of the package has metadata then. *)
Section outdated.
Definition outdated_document : string :=
  quoted "{'time':{'2.0.0':'2024-01-01T00:00:00.000Z'},'versions':{'0.0.1':{'licenses':['MIT']},'2.0.0':{'license':'GPL-3.0'}}}".
#[local] Instance outdated_registry : SourcePorts () := {| source_Do req w := (Ok (mkInResponse 200 ∅ outdated_document), w) |}.

Example outdated_version_hides_all :
  error_chain <$> match (npm_Enrich (CR := Toy.toy_crypto) (λ _, None) false (mkArtifact EcosystemNPM "" "pkg" "2.0.0" "") (mkSt () [])).1 with
                  | Err e => Some e | Ok _ => None end = Some [ErrEnrichmentFailed].
Proof. vm_compute. reflexivity. Qed.
End outdated.
