(* ===== verification/ApiHttp.v ===== *)
(** * What the handlers of the control-plane API share

    [internal/delivery/api] ([http.go], [request_cancellation.go], the error
    formatting of [controlplane_huma.go], the query values of [evaluation.go] and
    [audit.go]) and [internal/validation]: tenant header, request validation, errors
    with a status, and the monad of a handler.

    The rules [required], [oneof], [url] and [gte] are those of the validator
    library: [Validator] is what it answers, [ValidatorLaws] its documentation. *)

From S2P Require Import Prelude GoStrings GoPath Floats Json JsonDecode Dependency Upstream GoTime TimeParse Effects AuditLog.
#[local] Open Scope list_scope.

(** ** Definitions *)

(** *** Errors with a status *)

(** [humaErrorResponse] *)
Record HttpError : Type := mkHttpError { he_Status : Z; he_Message : string }.

#[export] Instance HttpError_eq_dec : EqDecision HttpError.
Proof. solve_decision. Defined.

(** [http.StatusText] of the statuses the API answers with. *)
Definition StatusText (status : Z) : string :=
  match status with
  | 400 => "Bad Request" | 404 => "Not Found" | 409 => "Conflict" | 415 => "Unsupported Media Type"
  | 422 => "Unprocessable Entity" | 500 => "Internal Server Error" | 503 => "Service Unavailable"
  | 504 => "Gateway Timeout" | _ => ""
  end.

(** The library's [ErrorDetail], and an error handed to [NewError]: its text and,
    when it is an [ErrorDetailer], its detail. *)
Record ErrorDetail : Type := mkErrorDetail { ed_Message : string; ed_Location : string }.
Record HumaCause : Type := mkHumaCause { hc_Text : string; hc_Detail : option ErrorDetail }.

Definition isGenericHumaError (message : string) : bool :=
  bool_decide (message ∈ [""; "validation failed"; "unable to decode request body"; "unexpected error occurred"]).

Fixpoint firstErrorDetail (errs : list (option HumaCause)) : option ErrorDetail :=
  match errs with
  | [] => None
  | Some (mkHumaCause _ (Some detail)) :: _ => Some detail
  | _ :: errs => firstErrorDetail errs
  end.

Fixpoint first_cause (errs : list (option HumaCause)) : option HumaCause :=
  match errs with [] => None | Some e :: _ => Some e | None :: errs => first_cause errs end.

Definition lastLocationPart (location : string) : string :=
  let location := TrimSpace location in
  if decide (location = "") then "" else default "" (last (Split "."%char location)).

Definition simplifyBodyError (detail : ErrorDetail) : string :=
  let message := TrimSpace (ed_Message detail) in
  if decide (message = "") then "invalid JSON"
  else
    let field := lastLocationPart (ed_Location detail) in
    if bool_decide (is_Some (Cut message "unexpected property")) && negb (bool_decide (field = "")) then
      "invalid JSON: unknown field " +:+ dquote +:+ field +:+ dquote
    else "invalid JSON: " +:+ message.

Definition formatHumaError (status : Z) (msg : string) (errs : list (option HumaCause)) : Z * string :=
  let message := TrimSpace msg in
  if decide (errs = []) then (status, message)
  else
    match firstErrorDetail errs with
    | None =>
        if isGenericHumaError message then
          match first_cause errs with
          | Some e => (status, TrimSpace (hc_Text e))
          | None => (status, message)
          end
        else (status, message)
    | Some firstDetail =>
        if HasPrefix (ed_Location firstDetail) "body" then
          (if decide (status = 422) then 400 else status, simplifyBodyError firstDetail)
        else
          (status, TrimSpace (if isGenericHumaError message then ed_Message firstDetail else message))
    end.

(** [huma.NewError] as [NewControlPlaneAPI] configures it. *)
Definition NewError (status : Z) (msg : string) (errs : list (option HumaCause)) : HttpError :=
  let '(status, message) := formatHumaError status msg errs in
  mkHttpError status (if decide (message = "") then StatusText status else message).

Definition http_error (status : Z) (msg : string) : HttpError := NewError status msg [].
Definition Error400BadRequest : string → HttpError := http_error 400.
Definition Error404NotFound : string → HttpError := http_error 404.
Definition Error409Conflict : string → HttpError := http_error 409.
Definition Error500InternalServerError : string → HttpError := http_error 500.

(** *** http.go and validation/validator.go *)

Definition tenantIDFromValue (value : string) : result string :=
  let id := TrimSpace value in
  if decide (id = "") then Err (new_error "missing X-Tenant-ID header") else Ok id.

(** A field: text, a number, or a raw document or struct, which may be missing or zero. *)
Inductive FieldValue : Type :=
| FString (s : string)
| FInt (z : Z)
| FFloat (f : float64)
| FRaw (present : bool).

(** One rule of a [validate] tag, with the library's name for the field. *)
Record FieldRule : Type := mkRule { fr_Namespace : string; fr_Tag : string; fr_Param : string; fr_Value : FieldValue }.

(** The rules built into the library. *)
Class Validator : Type := { tag_ok : string → string → FieldValue → bool }.

Class ValidatorLaws {V : Validator} : Prop := {
  required_string s : tag_ok "required" "" (FString s) = negb (bool_decide (s = ""));
  required_int z : tag_ok "required" "" (FInt z) = negb (bool_decide (z = 0));
  required_raw b : tag_ok "required" "" (FRaw b) = b;
  oneof_string values s : values ≠ [] → Forall (λ v, v ≠ "" ∧ SplitOnce " "%char v = None) values →
    tag_ok "oneof" (Join " " values) (FString s) = bool_decide (s ∈ values);
  gte_int n z : tag_ok "gte" (itoa n) (FInt z) = (n <=? z);
}.

Definition notBlank (v : FieldValue) : bool :=
  match v with FString s => negb (bool_decide (TrimSpace s = "")) | _ => false end.

Section validation.
Context {V : Validator}.

Definition rule_ok (r : FieldRule) : bool :=
  if decide (fr_Tag r = "notblank") then notBlank (fr_Value r) else tag_ok (fr_Tag r) (fr_Param r) (fr_Value r).

Definition fieldPath (namespace : string) : string :=
  match Split "."%char namespace with
  | _ :: (_ :: _) as parts => Join "." parts
  | _ => namespace
  end.

Definition fieldErrorMessage (r : FieldRule) : string :=
  let field := "field " +:+ quote (fieldPath (fr_Namespace r)) in
  if decide (fr_Tag r ∈ ["required"; "notblank"]) then field +:+ " is required"
  else if decide (fr_Tag r = "oneof") then field +:+ " must be one of [" +:+ fr_Param r +:+ "]"
  else if decide (fr_Tag r = "url") then field +:+ " must be a valid URL"
  else if decide (fr_Tag r = "gt") then field +:+ " must be greater than " +:+ fr_Param r
  else if decide (fr_Tag r = "gte") then field +:+ " must be greater than or equal to " +:+ fr_Param r
  else if decide (fr_Tag r = "lt") then field +:+ " must be less than " +:+ fr_Param r
  else if decide (fr_Tag r = "lte") then field +:+ " must be less than or equal to " +:+ fr_Param r
  else field +:+ " is invalid".

(** The rules of the request's struct in the order of its fields and tags; the
    message names the first one broken. *)
Definition validateRequest (rules : list FieldRule) : result () :=
  match filter (λ r, rule_ok r = false) rules with
  | [] => Ok ()
  | r :: _ => Err (new_error ("invalid request: " +:+ fieldErrorMessage r))
  end.
End validation.

(** *** request_cancellation.go *)

Definition statusClientClosedRequest : Z := 499.

Fixpoint append_new (merged statuses : list Z) : list Z :=
  match statuses with
  | [] => merged
  | status :: statuses => append_new (if decide (status ∈ merged) then merged else merged ++ [status]) statuses
  end.
Definition appendControlPlaneErrors (statuses additions : list Z) : list Z := append_new [] (statuses ++ additions).
Definition controlPlaneErrors (statuses : list Z) : list Z := appendControlPlaneErrors statuses [statusClientClosedRequest].
Definition controlPlaneReadErrors (statuses : list Z) : list Z :=
  appendControlPlaneErrors statuses [statusClientClosedRequest; 504].

Definition IsDeadlineExceeded (e : error) : bool := errors_Is e ContextDeadlineExceeded.

(** [ctx] is what [ctx.Err()] returns when the call has failed. *)
Definition isCanceledRequest (ctx : option error) (err : error) : bool := IsCanceled err || from_option IsCanceled false ctx.
Definition isTimedOutRequest (ctx : option error) (err : error) : bool :=
  IsDeadlineExceeded err || from_option IsDeadlineExceeded false ctx.

Definition humaInternalError (clientMessage : string) (ctx : option error) (err : error) : HttpError :=
  if isCanceledRequest ctx err then http_error statusClientClosedRequest "request canceled"
  else if isTimedOutRequest ctx err then http_error 504 "request timed out"
  else Error500InternalServerError clientMessage.

(** *** Registered operations *)

(** [huma.Operation] without its texts; a default status of 0 is not set. *)
Record Operation : Type := mkOperation {
  op_ID : string;
  op_Method : string;
  op_Path : string;
  op_DefaultStatus : Z;
  op_Errors : list Z;
}.

(** *** Query values *)

Fixpoint decimal (acc : Z) (s : string) : option Z :=
  match s with
  | "" => Some acc
  | String c s => d ← digit_value c; decimal (acc * 10 + d) s
  end.

(** strconv.Atoi, [None] for any error. *)
Definition Atoi (s : string) : option Z :=
  let '(sign, digits) := match s with
    | String c rest => if decide (c = "-"%char) then (-1, rest) else if decide (c = "+"%char) then (1, rest) else (1, s)
    | "" => (1, "")
    end in
  if decide (digits = "") then None
  else z ← decimal 0 digits; if int64_ok (sign * z) then Some (sign * z) else None.

Definition positiveInt (value : string) : option Z := n ← Atoi value; if n <=? 0 then None else Some n.
Definition nonNegativeInt (value : string) : option Z := n ← Atoi value; if n <? 0 then None else Some n.

(** Also [parseAuditLimit] and [parseAuditOffset]. *)
Definition parseEvaluationPagination (limitValue offsetValue : string) : Z * Z :=
  (default 50 (positiveInt limitValue), default 0 (nonNegativeInt offsetValue)).

(** The layout [time.RFC3339] reads a fraction of a second as [RFC3339Nano] does. *)
Definition parseRFC3339Query (value field : string) : result (option time) :=
  let value := TrimSpace value in
  if decide (value = "") then Ok None
  else match time_Parse value with
  | Ok parsed => Ok (Some parsed)
  | Err _ => Err (new_error (field +:+ " must be a valid RFC3339 timestamp"))
  end.

(** *** Handlers *)

(** What [ctx.Err()] returns. *)
Class RequestContext (W : Type) : Type := { request_Err : W → option error }.

Inductive answer (A : Type) : Type :=
| Answered (a : A)
| Refused (e : HttpError).
Arguments Answered {A} a.
Arguments Refused {A} e.

Section handlers.
Context {W C : Type}.

Definition Api (A : Type) : Type := St W C → answer A * St W C.

#[export] Instance Api_ret : MRet Api := λ A a s, (Answered a, s).
#[export] Instance Api_bind : MBind Api := λ A B f m s,
  match m s with (Answered a, s) => f a s | (Refused e, s) => (Refused e, s) end.

(** [if err != nil { return nil, onError(err) }] after a computation, and after a call of a service. *)
Definition checked {A} (onError : error → HttpError) (r : result A) : Api A := λ s,
  (match r with Ok a => Answered a | Err e => Refused (onError e) end, s).
Definition served `{!RequestContext W} {A} (onError : option error → error → HttpError) (m : M W C A) : Api A := λ s,
  let '(r, s) := m s in
  (match r with Ok a => Answered a | Err e => Refused (onError (request_Err (world s)) e) end, s).

(** [huma.Error400BadRequest(err.Error())] *)
Definition bad_request (e : error) : HttpError := Error400BadRequest (error_msg e).
End handlers.
Arguments Api : clear implicits.

(** ** Lemmas *)

Lemma http_error_status status msg : he_Status (http_error status msg) = status.
Proof. done. Qed.
#[export] Hint Rewrite http_error_status : api.

Section reasoning.
Context {W C : Type}.
Notation Api := (Api W C).

(** Whatever the state, the handler makes some further calls [l] and answers [r] with [Q l r]. *)
Definition handles {A} (m : Api A) (Q : list C → answer A → Prop) : Prop :=
  ∀ s, ∃ l, calls (m s).2 = calls s ++ l ∧ Q l (m s).1.

Lemma handles_mono {A} (m : Api A) (Q Q' : list C → answer A → Prop) :
  handles m Q → (∀ l r, Q l r → Q' l r) → handles m Q'.
Proof. intros H HQ s. destruct (H s) as (l & Hl & Hq). eauto. Qed.

Lemma handles_ret {A} (a : A) (Q : list C → answer A → Prop) : Q [] (Answered a) → handles (mret a) Q.
Proof. intros H s. exists []. by rewrite app_nil_r. Qed.

Lemma handles_checked {A} f (r : result A) (Q : list C → answer A → Prop) :
  Q [] (match r with Ok a => Answered a | Err e => Refused (f e) end) → handles (checked f r) Q.
Proof. intros H s. exists []. by rewrite app_nil_r. Qed.

Lemma handles_served `{!RequestContext W} {A} f (m : M W C A) (P : list C → result A → Prop) Q :
  triple m P → (∀ l a, P l (Ok a) → Q l (Answered a)) → (∀ l ctx e, P l (Err e) → Q l (Refused (f ctx e))) →
  handles (served f m) Q.
Proof.
  intros Hm Ha He s. destruct (Hm s) as (l & Hl & Hp). unfold served. destruct (m s) as [[a|e] s']; exists l; eauto.
Qed.

Lemma handles_bind {A B} (m : Api A) (f : A → Api B) (P : list C → answer A → Prop) Q :
  handles m P →
  (∀ l a, P l (Answered a) → handles (f a) (λ l' r, Q (l ++ l') r)) →
  (∀ l e, P l (Refused e) → Q l (Refused e)) →
  handles (m ≫= f) Q.
Proof.
  intros Hm Hf He s. destruct (Hm s) as (l & Hl & Hp). unfold mbind, Api_bind. destruct (m s) as [[a|e] s']; simpl in *.
  - destruct (Hf l a Hp s') as (l' & Hl' & Hq). exists (l ++ l'). split; [|done]. by rewrite Hl', Hl, app_assoc.
  - exists l. eauto.
Qed.

(** [keeps P R m]: every call of the handler satisfies [P], and every refusal [R]. *)
Definition keeps {A} (P : C → Prop) (R : HttpError → Prop) (m : Api A) : Prop :=
  handles m (λ l r, Forall P l ∧ match r with Refused e => R e | Answered _ => True end).

Lemma keeps_ret {A} P R (a : A) : keeps P R (mret a).
Proof. by apply handles_ret. Qed.
Lemma keeps_checked {A} P (R : HttpError → Prop) f (r : result A) : (∀ e, r = Err e → R (f e)) → keeps P R (checked f r).
Proof. intros H. apply handles_checked. split; [done|]. destruct r; auto. Qed.
Lemma keeps_served `{!RequestContext W} {A} P (R : HttpError → Prop) f (m : M W C A) :
  all P m → (∀ ctx e, R (f ctx e)) → keeps P R (served f m).
Proof. intros Hm Hf. eapply handles_served; [exact Hm| |]; [by intros l a ?|]. intros l ctx e ?. split; [done|apply Hf]. Qed.
Lemma keeps_bind {A B} P R (m : Api A) (f : A → Api B) : keeps P R m → (∀ a, keeps P R (f a)) → keeps P R (m ≫= f).
Proof.
  intros Hm Hf. eapply handles_bind; [exact Hm| |done].
  intros l a [Hl _]. eapply handles_mono; [apply Hf|]. intros l' r [Hl' Hr]. split; [by apply Forall_app|done].
Qed.
End reasoning.

(** A refusal as an operation documents it: one of its client errors, or one of the
    three answers to a failure, which say nothing of its cause. *)
Definition failure_answers (message : string) : list HttpError :=
  [http_error statusClientClosedRequest "request canceled"; http_error 504 "request timed out"; http_error 500 message].
Definition proper (op : Operation) (message : string) (err : HttpError) : Prop :=
  he_Status err ∈ op_Errors op ∧ he_Status err < 499 ∨ err ∈ failure_answers message.

(** A call whose implementation is known to return only values with [I]. *)
Lemma runs_call_of {W C A} (P : C → Prop) (I : A → Prop) (c : result A → C) f :
  (∀ r, P (c r)) → (∀ w a, (f w).1 = Ok a → I a) → runs P I (call c f : M W C A).
Proof.
  intros Hc Hf s. unfold call. destruct (f (world s)) as [r w] eqn:E. exists [c r]. split; [done|].
  split; [by repeat constructor|]. simpl. intros a ->. apply (Hf (world s)). by rewrite E.
Qed.

Lemma runs_wrapping_of {W C A} (P : C → Prop) (I : A → Prop) p (m : M W C A) : runs P I m → runs P I (wrapping p m).
Proof.
  intros H. apply triple_wrapping. eapply triple_mono; [exact H|]. intros l [a|e] [Hl Ha]; (split; [done|]); [|done].
  simpl. exact Ha.
Qed.

(** An internal error says nothing of its cause but whether the request had ended. *)
Lemma humaInternalError_proper op msg ctx e : proper op msg (humaInternalError msg ctx e).
Proof. right. unfold humaInternalError, failure_answers. repeat case_match; set_solver. Qed.

Lemma client_error_proper op msg status m : status ∈ op_Errors op → status < 499 → proper op msg (http_error status m).
Proof. intros H1 H2. left. done. Qed.

(** An error function is walked to its leaves. *)
Ltac proper_leaf :=
  first [apply humaInternalError_proper
        |apply client_error_proper; [vm_compute; repeat (done || constructor)|lia]].
Ltac proper_error := intros; cbv beta; repeat case_match; simplify_eq; proper_leaf.

(** A request without a tenant header is refused before anything else happens. *)
Definition missing_tenant : HttpError := http_error 400 "missing X-Tenant-ID header".

Lemma no_tenant {W C A} raw (f : string → Api W C A) st :
  TrimSpace raw = "" → (checked bad_request (tenantIDFromValue raw) ≫= f) st = (Refused missing_tenant, st).
Proof. intros H. unfold mbind, Api_bind, checked, tenantIDFromValue. by rewrite H. Qed.

(** With one, the handler goes on for that tenant. *)
Lemma keeps_tenant {W C A} P R raw (f : string → Api W C A) :
  R missing_tenant → (TrimSpace raw ≠ "" → keeps P R (f (TrimSpace raw))) →
  keeps P R (checked bad_request (tenantIDFromValue raw) ≫= f).
Proof.
  intros HR H. unfold tenantIDFromValue. case_decide as Ht.
  - intros st. exists []. simpl. by rewrite app_nil_r.
  - specialize (H Ht). intros st. destruct (H st) as (l & Hl & Hp). by exists l.
Qed.

(** Every page asked for is one the store accepts. *)
Lemma pagination_bounds l o : let '(limit, offset) := parseEvaluationPagination l o in 0 < limit ∧ 0 ≤ offset < 2 ^ 63.
Proof.
  unfold parseEvaluationPagination, positiveInt, nonNegativeInt. simpl. split.
  - destruct (Atoi l) as [n|]; simpl; [|lia]. destruct (Z.leb_spec n 0); simpl; lia.
  - unfold Atoi. destruct (match o with "" => _ | _ => _ end) as [sign digits]. case_decide; simpl; [lia|].
    destruct (decimal 0 digits) as [z|]; simpl; [|lia]. destruct (int64_ok (sign * z)) eqn:E; simpl; [|lia].
    unfold int64_ok in E. apply andb_true_iff in E as [_ E%Z.ltb_lt]. destruct (Z.ltb_spec (sign * z) 0); simpl; lia.
Qed.

Example Atoi_ex : Atoi "-12" = Some (-12) ∧ Atoi "+7" = Some 7 ∧ Atoi "9223372036854775808" = None ∧
  Atoi "-9223372036854775808" = Some (- 2 ^ 63) ∧ Atoi "" = None ∧ Atoi "1_0" = None ∧ Atoi " 1" = None.
Proof. vm_compute. repeat split. Qed.

Example body_error_ex :
  NewError 422 "validation failed" [Some (mkHumaCause "" (Some (mkErrorDetail "unexpected property" "body.nmae")))] =
    mkHttpError 400 ("invalid JSON: unknown field " +:+ dquote +:+ "nmae" +:+ dquote).
Proof. vm_compute. reflexivity. Qed.
