(* ===== verification/MediaType.v ===== *)
(** * Media types

    [mime.ParseMediaType] as far as the handlers look at it: the type itself, or that
    the header is refused. *)

From S2P Require Import Prelude GoStrings GoPath.
#[local] Open Scope list_scope.

(** ** Definitions *)

Definition byte (c : ascii) : nat := Ascii.nat_of_ascii c.
Definition tspecial (c : ascii) : bool :=
  bool_decide (byte c ∈ [40; 41; 60; 62; 64; 44; 59; 58; 92; 34; 47; 91; 93; 63; 61]%nat).
Definition token_char (c : ascii) : bool := (32 <? byte c)%nat && (byte c <? 127)%nat && negb (tspecial c).

Fixpoint consumeToken (s : string) : string * string :=
  match s with
  | "" => ("", "")
  | String c rest => if token_char c then let '(t, rest) := consumeToken rest in (String c t, rest) else ("", s)
  end.

(** The quoted string after its opening quote, [None] when it is not closed. *)
Fixpoint quoted_value (s : string) : option (string * string) :=
  match s with
  | "" => None
  | String c rest =>
      if (byte c =? 34)%nat then Some ("", rest)
      else if (byte c =? 13)%nat || (byte c =? 10)%nat then None
      else match rest with
      | String d rest' =>
          if (byte c =? 92)%nat && tspecial d then '(v, r) ← quoted_value rest'; Some (String d v, r)
          else '(v, r) ← quoted_value rest; Some (String c v, r)
      | "" => None
      end
  end.

Definition consumeValue (s : string) : string * string :=
  match s with
  | String c rest => if (byte c =? 34)%nat then default ("", s) (quoted_value rest) else consumeToken s
  | "" => ("", "")
  end.

(** [consumeMediaParam]: key, value and rest; the key is empty when there is none. *)
Definition consumeMediaParam (v : string) : string * string * string :=
  let none := ("", "", v) in
  match trim_left is_space v with
  | String c rest =>
      if negb (byte c =? 59)%nat then none
      else
        let '(param, rest) := consumeToken (trim_left is_space rest) in
        if decide (param = "") then none
        else match trim_left is_space rest with
        | String c rest =>
            if negb (byte c =? 61)%nat then none
            else
              let rest := trim_left is_space rest in
              let '(value, rest') := consumeValue rest in
              if decide (value = "" ∧ rest' = rest) then none else (ToLower param, value, rest')
        | "" => none
        end
  | "" => none
  end.

(** The parameters, of which one may not stand for two values.  Each one read
    shortens the text. *)
Fixpoint params_ok (fuel : nat) (seen : list (string * string)) (v : string) : bool :=
  match fuel with
  | O => false
  | S fuel =>
      let v := trim_left is_space v in
      if decide (v = "") then true
      else
        let '(key, value, rest) := consumeMediaParam v in
        if decide (key = "") then bool_decide (TrimSpace rest = ";")
        else if decide (Exists (λ kv, kv.1 = key ∧ kv.2 ≠ value) seen) then false
        else params_ok fuel ((key, value) :: seen) rest
  end.

Definition media_type_ok (s : string) : bool :=
  let '(typ, rest) := consumeToken s in
  if decide (typ = "") then false
  else match rest with
  | "" => true
  | String c rest =>
      (byte c =? 47)%nat && (let '(subtype, rest) := consumeToken rest in bool_decide (subtype ≠ "" ∧ rest = ""))
  end.

Definition ParseMediaType (v : string) : option string :=
  let '(base, params) := match SplitOnce ";"%char v with Some (base, rest) => (base, ";" +:+ rest) | None => (v, "") end in
  let mediatype := TrimSpace (ToLower base) in
  if media_type_ok mediatype && params_ok (S (String.length params)) [] params then Some mediatype else None.

(** *** delivery/api/policy_helpers.go *)

Definition parseMediaType (value : string) : result string :=
  if decide (value = "") then Ok ""
  else match ParseMediaType value with
  | Some mediaType => Ok mediaType
  | None => Err (new_error "invalid Content-Type header")
  end.

Definition isSupportedPolicyImportContentType (mediaType : string) : bool :=
  bool_decide (mediaType ∈ ["application/json"; "application/x-yaml"; "application/yaml"; "text/yaml"; "text/x-yaml"]).

Definition trimOptionalString (value : option string) : string := from_option TrimSpace "" value.

Example ParseMediaType_ex :
  ParseMediaType "Application/JSON; charset=utf-8" = Some "application/json" ∧
  ParseMediaType "text/yaml;" = Some "text/yaml" ∧ ParseMediaType "text" = Some "text" ∧
  ParseMediaType "text/" = None ∧ ParseMediaType "text/yaml; a=1; a=2" = None ∧ ParseMediaType "text/yaml; a" = None.
Proof. vm_compute. repeat split. Qed.

(** ** Lemmas: the fuel is enough *)

Lemma trim_left_length p s : (String.length (trim_left p s) ≤ String.length s)%nat.
Proof. induction s as [|c s IH]; simpl; [lia|]. destruct (p c); simpl; lia. Qed.

Lemma consumeToken_length s : (String.length (consumeToken s).2 ≤ String.length s)%nat.
Proof.
  induction s as [|c s IH]; simpl; [lia|]. destruct (token_char c); [|simpl; lia].
  destruct (consumeToken s); simpl in *. lia.
Qed.

Lemma quoted_value_length s v r : quoted_value s = Some (v, r) → (String.length r < String.length s)%nat.
Proof.
  enough (∀ n s v r, (String.length s ≤ n)%nat → quoted_value s = Some (v, r) → (String.length r < String.length s)%nat) as H
    by (by apply (H (String.length s))).
  clear s v r. induction n as [|n IH]; intros s v r Hn; destruct s as [|c s]; simpl in *; try done; [lia|].
  destruct (byte c =? 34)%nat; [intros [= _ <-]; lia|]. destruct (_ || _); [done|]. destruct s as [|d s]; [done|].
  destruct (_ && tspecial d).
  - destruct (quoted_value s) as [[v' r']|] eqn:E; [|done]. simpl. intros [= _ <-]. apply IH in E; simpl in *; lia.
  - destruct (quoted_value (String d s)) as [[v' r']|] eqn:E; [|done]. simpl. intros [= _ <-].
    apply IH in E; simpl in *; lia.
Qed.

Lemma consumeValue_length s : (String.length (consumeValue s).2 ≤ String.length s)%nat.
Proof.
  destruct s as [|c s]; [done|]. unfold consumeValue. destruct (byte c =? 34)%nat; [|apply consumeToken_length].
  destruct (quoted_value s) as [[v r]|] eqn:E; simpl; [|lia]. apply quoted_value_length in E. lia.
Qed.

Lemma consumeMediaParam_shorter v key value rest :
  consumeMediaParam v = (key, value, rest) → key ≠ "" → (String.length rest < String.length v)%nat.
Proof.
  unfold consumeMediaParam. pose proof (trim_left_length is_space v).
  destruct (trim_left is_space v) as [|c r] eqn:Ev; [by intros [= <- <- <-]|].
  destruct (negb _); [by intros [= <- <- <-]|].
  pose proof (consumeToken_length (trim_left is_space r)). pose proof (trim_left_length is_space r).
  destruct (consumeToken _) as [param r1]. case_decide; [by intros [= <- <- <-]|].
  pose proof (trim_left_length is_space r1). destruct (trim_left is_space r1) as [|c2 r2]; [by intros [= <- <- <-]|].
  destruct (negb _); [by intros [= <- <- <-]|]. pose proof (consumeValue_length (trim_left is_space r2)).
  pose proof (trim_left_length is_space r2). destruct (consumeValue _) as [value' r3]. case_decide; [by intros [= <- <- <-]|].
  intros [= _ _ <-] _. simpl in *. lia.
Qed.

(** More fuel than the length of the text changes nothing. *)
Lemma params_ok_fuel n m seen v : (String.length v < n)%nat → (n ≤ m)%nat → params_ok n seen v = params_ok m seen v.
Proof.
  revert m seen v. induction n as [|n IH]; intros m seen v Hn Hm; [lia|]. destruct m as [|m]; [lia|]. simpl.
  pose proof (trim_left_length is_space v). case_decide; [done|].
  destruct (consumeMediaParam _) as [[key value] rest] eqn:E. case_decide as Hk; [done|]. case_decide; [done|].
  apply IH; [|lia]. apply consumeMediaParam_shorter in E; [lia|done].
Qed.
