(* ===== verification/ApiPolicies.v ===== *)
(** * The policy endpoints of the control plane

    [internal/delivery/api]: policy_models.go, policy_crud.go, policy_import.go and
    response_policy.go over the workflows of [PolicyAdmin].  A handler checks the
    tenant header and the request, calls one workflow, and turns its error into a
    status. *)

From S2P Require Import Prelude GoStrings Floats Json JsonDecode JsonParse Artifact Dependency Upstream PolicyConfig.
From S2P Require Import Policy Conditions Catalog Evaluator PolicyHash ConfigDecode PolicyDocuments Effects AuditLog.
From S2P Require Import PolicyAdmin ApiHttp MediaType.
#[local] Open Scope list_scope.

(** ** Definitions *)

(** *** policy_models.go *)

Record policyRequest : Type := mkPolicyRequest {
  prq_UpstreamID : option string;
  prq_Name : string;
  prq_Type : PolicyType;
  prq_Action : PolicyAction;
  prq_SchemaVersion : Z;
  prq_Target : option PolicyTarget;
  prq_Config : option json;
  prq_Priority : Z;
  prq_Enabled : bool;
}.

Definition policyTypeNames : list string :=
  ["cvss_threshold"; "minimum_age"; "maximum_age"; "block_mutable_tag"; "scorecard"; "license"; "license_allowlist";
   "allowlist"; "namespace_allowlist"; "blocklist"].

Definition policyRequest_rules (r : policyRequest) : list FieldRule :=
  [mkRule "policyRequest.name" "notblank" "" (FString (prq_Name r));
   mkRule "policyRequest.type" "required" "" (FString (prq_Type r));
   mkRule "policyRequest.type" "oneof" (Join " " policyTypeNames) (FString (prq_Type r));
   mkRule "policyRequest.action" "required" "" (FString (prq_Action r));
   mkRule "policyRequest.action" "oneof" (Join " " ["allow"; "deny"]) (FString (prq_Action r));
   mkRule "policyRequest.schema_version" "required" "" (FInt (prq_SchemaVersion r));
   mkRule "policyRequest.schema_version" "gte" (itoa 1) (FInt (prq_SchemaVersion r));
   mkRule "policyRequest.config" "required" "" (FRaw (bool_decide (prq_Config r ≠ None)))].

Definition policyRollbackRequest_rules (version : Z) : list FieldRule :=
  [mkRule "policyRollbackRequest.version" "required" "" (FInt version);
   mkRule "policyRollbackRequest.version" "gte" (itoa 1) (FInt version)].

(** *** response_policy.go *)

Record PolicyResponse : Type := mkPolicyResponse {
  pres_ID : string;
  pres_UpstreamID : string;
  pres_Name : string;
  pres_Type : string;
  pres_Action : string;
  pres_SchemaVersion : Z;
  pres_Target : option PolicyTarget;
  pres_Config : option PolicyConfig;
  pres_Priority : Z;
  pres_Enabled : bool;
  pres_Version : Z;
  pres_CreatedAt : time;
  pres_UpdatedAt : time;
}.

Record PolicyVersionResponse : Type := mkPolicyVersionResponse {
  vres_Version : Z;
  vres_UpstreamID : string;
  vres_Name : string;
  vres_Type : string;
  vres_Action : string;
  vres_SchemaVersion : Z;
  vres_Target : option PolicyTarget;
  vres_Config : option PolicyConfig;
  vres_Priority : Z;
  vres_Enabled : bool;
  vres_CreatedAt : time;
}.

Definition toPolicyResponse (p : Policy) : PolicyResponse :=
  mkPolicyResponse (pol_ID p) (pol_UpstreamID p) (pol_Name p) (pol_Type p) (pol_Action p) (pol_SchemaVersion p)
    (pol_Target p) (pol_Config p) (pol_Priority p) (pol_Enabled p) (pol_Version p) (pol_CreatedAt p) (pol_UpdatedAt p).
Definition toPoliciesResponse (policies : list Policy) : list PolicyResponse := toPolicyResponse <$> policies.

Definition toPolicyVersionResponse (v : PolicyVersion) : PolicyVersionResponse :=
  mkPolicyVersionResponse (ver_Version v) (ver_UpstreamID v) (ver_Name v) (ver_Type v) (ver_Action v) (ver_SchemaVersion v)
    (ver_Target v) (ver_Config v) (ver_Priority v) (ver_Enabled v) (ver_CreatedAt v).
Definition toPolicyVersionsResponse (versions : list PolicyVersion) : list PolicyVersionResponse :=
  toPolicyVersionResponse <$> versions.

(** Without the texts of the catalog. *)
Record PolicyTypeResponse : Type := mkPolicyTypeResponse {
  tres_Type : string;
  tres_CurrentSchemaVersion : Z;
  tres_SupportedSchemaVersions : list Z;
  tres_SupportedActions : list string;
  tres_SupportedEcosystems : list string;
  tres_RequiredCapabilities : list string;
}.

Definition toPolicyTypeResponse (d : PolicyTypeDescriptor) : PolicyTypeResponse :=
  mkPolicyTypeResponse (desc_Type d) (CurrentSchemaVersion d) (SupportedSchemaVersions d) (SupportedActions d)
    (SupportedEcosystems d) (RequiredCapabilities d).
Definition toPolicyTypesResponse (descriptors : list PolicyTypeDescriptor) : list PolicyTypeResponse :=
  toPolicyTypeResponse <$> descriptors.

(** *** Errors *)

Definition storedPolicyConflict (err : error) : option HttpError :=
  if errors_Is err ErrDeprecatedPolicyConfig then
    Some (http_error 409 "tenant contains deprecated stored policies; run the policy data migration")
  else if errors_Is err ErrUnsupportedPolicySchemaVersion then
    Some (http_error 409 "tenant contains policies with an unsupported schema_version; upgrade the service or migrate policy data")
  else None.

Definition policyMutationError (includeNotFound : bool) (clientMessage : string) (ctx : option error) (err : error) : HttpError :=
  if errors_Is err ErrInvalidPolicy then bad_request err
  else if errors_Is err ErrUnsupportedPolicySchemaVersion then bad_request err
  else if errors_Is err ErrPolicyUpstreamIncompatible then bad_request err
  else if errors_Is err ErrPolicyNameConflict then Error409Conflict "policy name already exists"
  else if errors_Is err ErrUpstreamNotFound then Error400BadRequest "policy upstream not found"
  else if includeNotFound && errors_Is err ErrPolicyNotFound then Error404NotFound "policy not found"
  else humaInternalError clientMessage ctx err.

Definition policyListError (ctx : option error) (err : error) : HttpError :=
  default (humaInternalError "failed to list policies" ctx err) (storedPolicyConflict err).

Definition policyReadError (clientMessage : string) (ctx : option error) (err : error) : HttpError :=
  if errors_Is err ErrPolicyNotFound then Error404NotFound "policy not found"
  else default (humaInternalError clientMessage ctx err) (storedPolicyConflict err).

Definition policyRollbackError (ctx : option error) (err : error) : HttpError :=
  if errors_Is err ErrPolicyNotFound then Error404NotFound "policy not found"
  else if errors_Is err ErrPolicyVersionNotFound then Error404NotFound "policy version not found"
  else match storedPolicyConflict err with
  | Some conflict => conflict
  | None =>
      if errors_Is err ErrInvalidPolicy then bad_request err
      else if errors_Is err ErrPolicyUpstreamIncompatible then bad_request err
      else humaInternalError "failed to rollback policy" ctx err
  end.

Definition policyDeleteError (ctx : option error) (err : error) : HttpError :=
  if errors_Is err ErrPolicyDeleteEnabled then Error409Conflict "disable policy before deleting it"
  else if errors_Is err ErrPolicyInUse then Error409Conflict "policy has recorded evaluations or decisions"
  else if errors_Is err ErrPolicyNotFound then Error404NotFound "policy not found"
  else humaInternalError "failed to delete policy" ctx err.

Definition errorsIsImportBadRequest (err : error) : bool :=
  errors_Is err ErrInvalidPolicy || errors_Is err ErrUnsupportedPolicySchemaVersion ||
  errors_Is err ErrUpstreamNotFound || errors_Is err ErrPolicyUpstreamIncompatible.
Definition isPolicyNameConflict (err : error) : bool := errors_Is err ErrPolicyNameConflict.

Definition policyImportError (ctx : option error) (err : error) : HttpError :=
  if errorsIsImportBadRequest err then bad_request err
  else if isPolicyNameConflict err then Error409Conflict "policy name already exists"
  else humaInternalError "failed to import policies" ctx err.

(** *** Handlers *)

Section handlers.
Context {W : Type} `{!AdminPorts W, !RequestContext W} {V : Validator} (s : PolicyService).
Context (syntax_error : string → error) (yaml_Import : string → result policyImportDocument).
Notation Api := (Api W AdminCall).

Definition policyFromRequest (rawTenantID id : string) (req : policyRequest) : Api Policy :=
  tenantID ← checked bad_request (tenantIDFromValue rawTenantID);
  _ ← checked bad_request (validateRequest (policyRequest_rules req));
  target ← checked bad_request (target_Validate (prq_Target req));
  config ← checked bad_request (DecodeConfigJSON (prq_Type req) (prq_SchemaVersion req) (prq_Config req));
  mret (mkPolicy id tenantID (trimOptionalString (prq_UpstreamID req)) (prq_Name req) (prq_Type req) (prq_Action req)
          (prq_SchemaVersion req) (Some config) (target_Normalize target) (prq_Priority req) (prq_Enabled req) 0
          zero_time zero_time).

Definition createPolicy (rawTenantID : string) (req : policyRequest) : Api PolicyResponse :=
  policy ← policyFromRequest rawTenantID "" req;
  policy ← served (policyMutationError false "failed to create policy") (CreatePolicy s policy);
  mret (toPolicyResponse policy).

Definition listPolicies (rawTenantID : string) : Api (list PolicyResponse) :=
  tenantID ← checked bad_request (tenantIDFromValue rawTenantID);
  policies ← served policyListError (ListPoliciesByTenant tenantID);
  mret (toPoliciesResponse policies).

Definition listPolicyVersions (rawTenantID id : string) : Api (list PolicyVersionResponse) :=
  tenantID ← checked bad_request (tenantIDFromValue rawTenantID);
  versions ← served (policyReadError "failed to list policy versions") (ListVersions tenantID id);
  mret (toPolicyVersionsResponse versions).

Definition getPolicy (rawTenantID id : string) : Api PolicyResponse :=
  tenantID ← checked bad_request (tenantIDFromValue rawTenantID);
  policy ← served (policyReadError "failed to get policy") (GetPolicyByID tenantID id);
  mret (toPolicyResponse policy).

Definition updatePolicy (rawTenantID id : string) (req : policyRequest) : Api PolicyResponse :=
  policy ← policyFromRequest rawTenantID id req;
  policy ← served (policyMutationError true "failed to update policy") (UpdatePolicy s policy);
  mret (toPolicyResponse policy).

Definition rollbackPolicy (rawTenantID id : string) (version : Z) : Api PolicyResponse :=
  tenantID ← checked bad_request (tenantIDFromValue rawTenantID);
  _ ← checked bad_request (validateRequest (policyRollbackRequest_rules version));
  p ← served policyRollbackError (RollbackToVersion s tenantID id version);
  mret (toPolicyResponse p).

Definition deletePolicy (rawTenantID id : string) (force : bool) : Api () :=
  tenantID ← checked bad_request (tenantIDFromValue rawTenantID);
  served policyDeleteError (DeletePolicy tenantID id force).

Definition listTypesHuma : Api (list PolicyTypeResponse) := mret (toPolicyTypesResponse TypeCatalog).

(** The number of policies imported. *)
Definition importPoliciesHuma (rawTenantID contentType body : string) : Api Z :=
  tenantID ← checked bad_request (tenantIDFromValue rawTenantID);
  mediaType ← checked bad_request (parseMediaType contentType);
  _ ← checked (λ _, http_error 415 "unsupported Content-Type for policy import")
        (if negb (bool_decide (mediaType = "")) && negb (isSupportedPolicyImportContentType mediaType)
         then Err (new_error "unsupported Content-Type for policy import") else Ok ());
  policies ← checked bad_request (decodeImportedPolicies syntax_error yaml_Import body tenantID);
  served policyImportError (ImportPolicies s tenantID policies).
End handlers.

(** *** The endpoints as [RegisterHumaRoutes] registers them *)

Inductive PolicyEndpoint : Type :=
| EListTypes
| ECreatePolicy (req : policyRequest)
| EListPolicies
| EGetPolicy (id : string)
| EUpdatePolicy (id : string) (req : policyRequest)
| EDeletePolicy (id : string) (force : bool)
| EListVersions (id : string)
| ERollback (id : string) (version : Z)
| EImport (contentType body : string).

Definition policy_operation (e : PolicyEndpoint) : Operation :=
  match e with
  | ECreatePolicy _ => mkOperation "create-policy" "POST" "/api/v1/policies" 201 (controlPlaneErrors [400; 409; 500])
  | EListPolicies => mkOperation "list-policies" "GET" "/api/v1/policies" 0 (controlPlaneReadErrors [400; 409; 500])
  | EGetPolicy _ => mkOperation "get-policy" "GET" "/api/v1/policies/{id}" 0 (controlPlaneReadErrors [400; 404; 409; 500])
  | EUpdatePolicy _ _ => mkOperation "update-policy" "PUT" "/api/v1/policies/{id}" 0 (controlPlaneErrors [400; 409; 404; 500])
  | EDeletePolicy _ _ => mkOperation "delete-policy" "DELETE" "/api/v1/policies/{id}" 204 (controlPlaneErrors [400; 409; 404; 500])
  | EListVersions _ => mkOperation "list-policy-versions" "GET" "/api/v1/policies/{id}/versions" 0 (controlPlaneReadErrors [400; 404; 409; 500])
  | ERollback _ _ => mkOperation "rollback-policy" "POST" "/api/v1/policies/{id}/rollback" 0 (controlPlaneErrors [400; 404; 409; 500])
  | EListTypes => mkOperation "list-policy-types" "GET" "/api/v1/policy-types" 0 (controlPlaneReadErrors [])
  | EImport _ _ => mkOperation "import-policies" "POST" "/api/v1/policies/import" 0 (controlPlaneErrors [400; 409; 415; 500])
  end.

Definition call_tenant (c : AdminCall) : string :=
  match c with
  | AGetPolicy t _ _ | AListPolicies t _ | AListVersions t _ _ _ | ARollback t _ _ _ | ADelete t _ _ _ | ARevision t _ _
  | AInvalidate t _ | AGetUpstream t _ _ | ADeleteUpstream t _ _ | AListUpstreams t _ => t
  | ACreate p _ | AUpdate p _ => pol_TenantID p
  | ACreateUpstream u _ | AUpdateUpstream u _ => up_TenantID u
  end.

Section endpoints.
Context {W : Type} `{!AdminPorts W, !RequestContext W} {V : Validator} (s : PolicyService).
Context (syntax_error : string → error) (yaml_Import : string → result policyImportDocument).
Notation M := (M W AdminCall).
Notation Api := (Api W AdminCall).

(** The handler of an endpoint; the body of the response is left out. *)
Definition without_body {A} (m : Api A) : Api () := _ ← m; mret ().
Definition policy_endpoint (rawTenantID : string) (e : PolicyEndpoint) : Api () :=
  match e with
  | EListTypes => without_body listTypesHuma
  | ECreatePolicy req => without_body (createPolicy s rawTenantID req)
  | EListPolicies => without_body (listPolicies rawTenantID)
  | EGetPolicy id => without_body (getPolicy rawTenantID id)
  | EUpdatePolicy id req => without_body (updatePolicy s rawTenantID id req)
  | EDeletePolicy id force => deletePolicy rawTenantID id force
  | EListVersions id => without_body (listPolicyVersions rawTenantID id)
  | ERollback id version => without_body (rollbackPolicy s rawTenantID id version)
  | EImport contentType body => without_body (importPoliciesHuma s syntax_error yaml_Import rawTenantID contentType body)
  end.

(** ** Lemmas: workflows stay in their tenant *)

Definition in_tenant (t : string) (c : AdminCall) : Prop := call_tenant c = t.

Lemma finalize_tenant t : all (in_tenant t) (finalizeTenantMutation t : M ()).
Proof. unfold finalizeTenantMutation, revision_errors, ListPolicies, Revision_call, InvalidateTenant. walk; done. Qed.

Lemma scope_tenant t u pt : all (in_tenant t) (validateUpstreamScope s t u pt : M ()).
Proof. unfold validateUpstreamScope, GetUpstream. walk; try apply pointed_all; done. Qed.

Lemma mutation_tenant p : runs (in_tenant (pol_TenantID p)) (λ q, pol_TenantID q = pol_TenantID p) (validatePolicyMutation s p : M Policy).
Proof.
  unfold validatePolicyMutation. eapply runs_bind with (I := λ q, pol_TenantID q = pol_TenantID p).
  { case_decide; [|by apply runs_ret]. eapply runs_bind; [apply runs_all, all_lift|]. intros v _. by apply runs_ret. }
  intros q Hq. eapply runs_bind with (I := λ q', pol_TenantID q' = pol_TenantID p).
  { apply triple_lift. split; [constructor|]. intros q' Hv. apply ValidatePolicy_spec in Hv as [_ (? & ? & ? & _ & _ & _ & _ & ->)]. done. }
  intros q' Hq'. eapply runs_bind; [apply runs_all; rewrite Hq'; apply scope_tenant|]. intros _ _. by apply runs_ret.
Qed.

Context `{!KeepsTenant W}.

Lemma Create_tenant p : all (in_tenant (pol_TenantID p)) (CreatePolicy s p : M Policy).
Proof.
  apply (all_runs _ (λ _, True)). unfold CreatePolicy, Create_call. eapply runs_bind; [apply mutation_tenant|]. intros q Hq.
  eapply runs_bind with (I := λ q', pol_TenantID q' = pol_TenantID p).
  { apply runs_wrapping_of, runs_call_of; [done|]. intros w a Ha. by rewrite (create_tenant q w a Ha). }
  intros q' Hq'. rewrite Hq'. apply runs_all. walk; apply finalize_tenant.
Qed.

Lemma Update_tenant p : all (in_tenant (pol_TenantID p)) (UpdatePolicy s p : M Policy).
Proof.
  apply (all_runs _ (λ _, True)). unfold UpdatePolicy, Update_call. eapply runs_bind; [apply mutation_tenant|]. intros q Hq.
  eapply runs_bind with (I := λ q', pol_TenantID q' = pol_TenantID p).
  { apply runs_wrapping_of, runs_call_of; [done|]. intros w a Ha. by rewrite (update_tenant q w a Ha). }
  intros q' Hq'. rewrite Hq'. apply runs_all. walk; apply finalize_tenant.
Qed.

Lemma Delete_tenant t id force : all (in_tenant t) (DeletePolicy t id force : M ()).
Proof. unfold DeletePolicy, GetPolicy, Delete_call. walk; try apply pointed_all; try apply finalize_tenant; done. Qed.

Lemma Rollback_tenant t id v : all (in_tenant t) (RollbackToVersion s t id v : M Policy).
Proof.
  unfold RollbackToVersion, ListVersions_call, Rollback_call.
  walk; try apply pointed_all; try apply scope_tenant; try apply finalize_tenant; done.
Qed.

Lemma Import_tenant t ps : all (in_tenant t) (ImportPolicies s t ps : M Z).
Proof.
  intros st. destruct (ImportPolicies_tenant s t ps st) as (l & Hl & Hall). exists l. split; [done|].
  eapply Forall_impl; [exact Hall|]. intros [] Hc; try done; apply Hc.
Qed.

Lemma reads_tenant t id :
  all (in_tenant t) (ListPoliciesByTenant t : M _) ∧ all (in_tenant t) (GetPolicyByID t id : M _) ∧
  all (in_tenant t) (ListVersions t id : M _).
Proof.
  unfold ListPoliciesByTenant, GetPolicyByID, ListVersions, ListPolicies, GetPolicy, ListVersions_call.
  split; [|split]; walk; try apply pointed_all; done.
Qed.

(** ** Lemmas: the answers *)

Definition failure_message (e : PolicyEndpoint) : string :=
  match e with
  | ECreatePolicy _ => "failed to create policy"
  | EListPolicies => "failed to list policies"
  | EGetPolicy _ => "failed to get policy"
  | EUpdatePolicy _ _ => "failed to update policy"
  | EDeletePolicy _ _ => "failed to delete policy"
  | EListVersions _ => "failed to list policy versions"
  | ERollback _ _ => "failed to rollback policy"
  | EImport _ _ => "failed to import policies"
  | EListTypes => ""
  end.
Notation answers e := (proper (policy_operation e) (failure_message e)).

Lemma create_answers req ctx err : answers (ECreatePolicy req) (policyMutationError false "failed to create policy" ctx err).
Proof. unfold policyMutationError. proper_error. Qed.
Lemma update_answers id req ctx err : answers (EUpdatePolicy id req) (policyMutationError true "failed to update policy" ctx err).
Proof. unfold policyMutationError. proper_error. Qed.
Lemma list_answers ctx err : answers EListPolicies (policyListError ctx err).
Proof. unfold policyListError, storedPolicyConflict. proper_error. Qed.
Lemma get_answers id ctx err : answers (EGetPolicy id) (policyReadError "failed to get policy" ctx err).
Proof. unfold policyReadError, storedPolicyConflict. proper_error. Qed.
Lemma versions_answers id ctx err : answers (EListVersions id) (policyReadError "failed to list policy versions" ctx err).
Proof. unfold policyReadError, storedPolicyConflict. proper_error. Qed.
Lemma rollback_answers id v ctx err : answers (ERollback id v) (policyRollbackError ctx err).
Proof. unfold policyRollbackError, storedPolicyConflict. proper_error. Qed.
Lemma delete_answers id f ctx err : answers (EDeletePolicy id f) (policyDeleteError ctx err).
Proof. unfold policyDeleteError. proper_error. Qed.
Lemma import_answers ct body ctx err : answers (EImport ct body) (policyImportError ctx err).
Proof. unfold policyImportError. proper_error. Qed.

#[local] Hint Resolve create_answers update_answers list_answers get_answers versions_answers rollback_answers
  delete_answers import_answers : api.
#[local] Hint Resolve Create_tenant Update_tenant Delete_tenant Rollback_tenant Import_tenant : api.

Lemma without_body_keeps {A} P R (m : Api A) : keeps P R m → keeps P R (without_body m).
Proof. intros Hm. apply keeps_bind; [exact Hm|]. intros _. apply keeps_ret. Qed.

(** A refused request is a documented bad request of the endpoint. *)
Ltac bad_requests :=
  repeat match goal with
  | |- keeps _ _ (_ ≫= _) => apply keeps_bind; [|intros ?]
  | |- keeps _ _ (mret _) => apply keeps_ret
  | |- keeps _ _ (checked _ _) => apply keeps_checked; intros ? _; proper_leaf
  | |- keeps _ _ (served _ _) => apply keeps_served; [auto with api|intros; auto with api]
  end.

(** The policy of a request belongs to the header's tenant. *)
Lemma policyFromRequest_then {A} P (R : HttpError → Prop) raw id req (f : Policy → Api A) :
  R missing_tenant → (∀ e, R (bad_request e)) →
  (∀ p, pol_TenantID p = TrimSpace raw → keeps P R (f p)) →
  keeps P R (policyFromRequest raw id req ≫= f).
Proof.
  intros Hm Hb Hf st. unfold policyFromRequest, checked, mbind, Api_bind, mret, Api_ret, tenantIDFromValue.
  case_decide; [exists []; by rewrite app_nil_r|].
  destruct (validateRequest _) as [[]|err]; [|pose proof (Hb err); exists []; rewrite app_nil_r; by repeat split].
  destruct (target_Validate _) as [target|err]; [|pose proof (Hb err); exists []; rewrite app_nil_r; by repeat split].
  destruct (DecodeConfigJSON _ _ _) as [config|err]; [|pose proof (Hb err); exists []; rewrite app_nil_r; by repeat split].
  destruct (Hf (mkPolicy id (TrimSpace raw) (trimOptionalString (prq_UpstreamID req)) (prq_Name req) (prq_Type req)
    (prq_Action req) (prq_SchemaVersion req) (Some config) (target_Normalize target) (prq_Priority req) (prq_Enabled req) 0
    zero_time zero_time) eq_refl st) as (l & Hl & Hp). by exists l.
Qed.

Lemma policy_endpoint_keeps raw e :
  e ≠ EListTypes → keeps (in_tenant (TrimSpace raw)) (answers e) (policy_endpoint raw e).
Proof.
  intros He. destruct e; [done|..]; cbn [policy_endpoint]; try apply without_body_keeps.
  - apply policyFromRequest_then; [proper_leaf|intros; proper_leaf|]. intros p Hp.
    apply keeps_bind; [|intros; apply keeps_ret]. apply keeps_served; [rewrite <-Hp|]; auto with api.
  - apply keeps_tenant; [proper_leaf|]. intros _. bad_requests. apply (reads_tenant _ "").
  - apply keeps_tenant; [proper_leaf|]. intros _. bad_requests. apply (reads_tenant _ id).
  - apply policyFromRequest_then; [proper_leaf|intros; proper_leaf|]. intros p Hp.
    apply keeps_bind; [|intros; apply keeps_ret]. apply keeps_served; [rewrite <-Hp|]; auto with api.
  - apply keeps_tenant; [proper_leaf|]. intros _. bad_requests.
  - apply keeps_tenant; [proper_leaf|]. intros _. bad_requests. apply (reads_tenant _ id).
  - apply keeps_tenant; [proper_leaf|]. intros _. bad_requests.
  - apply keeps_tenant; [proper_leaf|]. intros _. bad_requests.
Qed.
End endpoints.

(** ** Properties *)


(** A validator that knows the built-in rules, and a context that goes on. *)
#[export] Instance admin_context : RequestContext AdminWorld := {| request_Err _ := None |}.
Definition builtin_rules : Validator := {|
  tag_ok tag param v :=
    match v with
    | FString x => if decide (tag = "required") then negb (bool_decide (x = ""))
                   else if decide (tag = "oneof") then bool_decide (x ∈ Split " "%char param) else true
    | FInt z => if decide (tag = "required") then negb (bool_decide (z = 0))
                else from_option (λ n, n <=? z) false (Atoi param)
    | FFloat _ => true
    | FRaw b => b
    end |}.

Definition sample_request : policyRequest :=
  mkPolicyRequest None "young" "minimum_age" "deny" 1 None (Some (JObject [("min_age_days", JInt 7)])) 5 true.

