(* ===== verification/ApiUpstreams.v ===== *)
(** * The upstream endpoints of the control plane

    [internal/delivery/api]: upstream.go and response_upstream.go over the workflows
    of [PolicyAdmin].  A credential is set through these endpoints and never
    returned. *)

From S2P Require Import Prelude GoStrings Floats Artifact Dependency Upstream PolicyConfig.
From S2P Require Import Policy Conditions Catalog Evaluator Effects AuditLog PolicyAdmin UpstreamStore ApiHttp ApiPolicies.
#[local] Open Scope list_scope.

(** ** Definitions *)

Record upstreamAuthRequest : Type := mkAuthRequest { arq_Type : string; arq_Username : string; arq_Password : string; arq_Token : string }.

Record createUpstreamRequest : Type := mkUpstreamRequest {
  urq_Name : string;
  urq_Ecosystem : EcosystemType;
  urq_BaseURL : string;
  urq_Capabilities : option (list UpstreamCapability);
  urq_Auth : option upstreamAuthRequest;
}.

Definition createUpstreamRequest_rules (r : createUpstreamRequest) : list FieldRule :=
  [mkRule "createUpstreamRequest.name" "notblank" "" (FString (urq_Name r));
   mkRule "createUpstreamRequest.ecosystem" "required" "" (FString (urq_Ecosystem r));
   mkRule "createUpstreamRequest.ecosystem" "oneof" (Join " " ["npm"; "oci"]) (FString (urq_Ecosystem r));
   mkRule "createUpstreamRequest.base_url" "notblank" "" (FString (urq_BaseURL r));
   mkRule "createUpstreamRequest.base_url" "url" "" (FString (urq_BaseURL r))].

Definition toDomainUpstreamAuth (ecosystem : EcosystemType) (req : option upstreamAuthRequest) : result (option UpstreamAuth) :=
  match req with
  | None => Ok None
  | Some req =>
      let type := if decide (arq_Type req = "") then UpstreamAuthNone else arq_Type req in
      if decide (type = UpstreamAuthNone) then Ok (Some (mkUpstreamAuth UpstreamAuthNone "" "" zero_time))
      else if decide (ecosystem ≠ EcosystemOCI) then
        Err (sentinel_suffix ErrUpstreamAuthInvalid ": upstream auth is only supported for OCI")
      else
        let username := TrimSpace (arq_Username req) in
        let password := TrimSpace (arq_Password req) in
        let token := TrimSpace (arq_Token req) in
        if decide (type = UpstreamAuthBasic) then
          if decide (username = "" ∨ password = "") then
            Err (sentinel_suffix ErrUpstreamAuthInvalid ": basic auth requires username and password")
          else Ok (Some (mkUpstreamAuth UpstreamAuthBasic username password zero_time))
        else if decide (type = UpstreamAuthBearerToken) then
          if decide (token = "") then Err (sentinel_suffix ErrUpstreamAuthInvalid ": bearer token auth requires token")
          else Ok (Some (mkUpstreamAuth UpstreamAuthBearerToken "" token zero_time))
        else Err (sentinel_suffix ErrUpstreamAuthInvalid (": unsupported auth type " +:+ quote type))
  end.

(** *** response_upstream.go *)

Record UpstreamAuthResponse : Type := mkAuthResponse {
  ares_Type : string;
  ares_Configured : bool;
  ares_Username : string;
  ares_UpdatedAt : option time;
}.

Record UpstreamResponse : Type := mkUpstreamResponse {
  ures_ID : string;
  ures_Name : string;
  ures_Ecosystem : string;
  ures_BaseURL : string;
  ures_Capabilities : list string;
  ures_SupportedPolicyTypes : list string;
  ures_Auth : UpstreamAuthResponse;
  ures_CreatedAt : time;
  ures_UpdatedAt : time;
}.

Definition toAuthResponse (a : option UpstreamAuth) : UpstreamAuthResponse :=
  match a with
  | None => mkAuthResponse UpstreamAuthNone false "" None
  | Some a => mkAuthResponse (auth_Type a) (auth_Configured (Some a)) (Username a)
                (if decide (auth_UpdatedAt a = zero_time) then None else Some (auth_UpdatedAt a))
  end.

Definition toUpstreamResponse (u : Upstream) : UpstreamResponse :=
  mkUpstreamResponse (up_ID u) (up_Name u) (up_Ecosystem u) (BaseURL u)
    (UpstreamCapabilityStrings (Some (EffectiveCapabilities u))) (SupportedPolicyTypesForUpstream u) (toAuthResponse (Auth u))
    (up_CreatedAt u) (up_UpdatedAt u).
Definition toUpstreamsResponse (upstreams : list Upstream) : list UpstreamResponse := toUpstreamResponse <$> upstreams.

(** *** Errors *)

Definition auth_refused (err : error) : bool :=
  errors_Is err ErrUpstreamAuthInvalid || errors_Is err ErrUpstreamAuthKeyUnavailable || errors_Is err ErrUpstreamAuthTransportInsecure.

Definition upstreamCreateError (ctx : option error) (err : error) : HttpError :=
  if errors_Is err ErrUpstreamNameConflict then Error409Conflict "upstream name already exists"
  else if errors_Is err ErrUpstreamRegistryConflict then Error409Conflict "upstream registry already exists"
  else if errors_Is err ErrUnsupportedUpstreamCapability then bad_request err
  else if auth_refused err then bad_request err
  else humaInternalError "failed to create upstream" ctx err.

Definition upstreamUpdateError (ctx : option error) (err : error) : HttpError :=
  if errors_Is err ErrUpstreamNameConflict then Error409Conflict "upstream name already exists"
  else if errors_Is err ErrUpstreamRegistryConflict then Error409Conflict "upstream registry already exists"
  else if errors_Is err ErrUpstreamNotFound then Error404NotFound "upstream not found"
  else if errors_Is err ErrUnsupportedUpstreamCapability || errors_Is err ErrUpstreamPolicyConflict then bad_request err
  else if auth_refused err then bad_request err
  else humaInternalError "failed to update upstream" ctx err.

Definition upstreamGetError (ctx : option error) (err : error) : HttpError :=
  if errors_Is err ErrUpstreamNotFound then Error404NotFound "upstream not found"
  else humaInternalError "failed to get upstream" ctx err.

Definition upstreamDeleteError (ctx : option error) (err : error) : HttpError :=
  if errors_Is err ErrUpstreamNotFound then Error404NotFound "upstream not found"
  else if errors_Is err ErrUpstreamInUse then Error409Conflict "upstream is still referenced by policies"
  else humaInternalError "failed to delete upstream" ctx err.

(** *** Handlers *)

Section handlers.
Context {W : Type} `{!AdminPorts W, !RequestContext W} {V : Validator} (s : UpstreamService).
Notation Api := (Api W AdminCall).

(** A request as the domain's upstream; the domain has no nil credentials for a given [auth] block. *)
Definition upstreamFromRequest (rawTenantID id : string) (req : createUpstreamRequest) : Api Upstream :=
  tenantID ← checked bad_request (tenantIDFromValue rawTenantID);
  _ ← checked bad_request (validateRequest (createUpstreamRequest_rules req));
  auth ← checked bad_request (toDomainUpstreamAuth (urq_Ecosystem req) (urq_Auth req));
  mret (mkUpstream id tenantID (urq_Name req) (urq_Ecosystem req) (urq_BaseURL req) (urq_Capabilities req) auth zero_time zero_time).

Definition createUpstream (rawTenantID : string) (req : createUpstreamRequest) : Api UpstreamResponse :=
  upstream ← upstreamFromRequest rawTenantID "" req;
  upstream ← served upstreamCreateError (CreateUpstream s upstream);
  mret (toUpstreamResponse upstream).

Definition updateUpstream (rawTenantID id : string) (req : createUpstreamRequest) : Api UpstreamResponse :=
  upstream ← upstreamFromRequest rawTenantID id req;
  _ ← served upstreamUpdateError (UpdateUpstream s upstream);
  updated ← served (humaInternalError "failed to load updated upstream")
              (o ← GetUpstreamByID (up_TenantID upstream) id; pointed o);
  mret (toUpstreamResponse updated).

Definition listUpstreams (rawTenantID : string) : Api (list UpstreamResponse) :=
  tenantID ← checked bad_request (tenantIDFromValue rawTenantID);
  upstreams ← served (humaInternalError "failed to list upstreams") (ListUpstreamsByTenant tenantID);
  mret (toUpstreamsResponse upstreams).

Definition getUpstream (rawTenantID id : string) : Api UpstreamResponse :=
  tenantID ← checked bad_request (tenantIDFromValue rawTenantID);
  upstream ← served upstreamGetError (o ← GetUpstreamByID tenantID id; pointed o);
  mret (toUpstreamResponse upstream).

Definition deleteUpstream (rawTenantID id : string) : Api () :=
  tenantID ← checked bad_request (tenantIDFromValue rawTenantID);
  served upstreamDeleteError (DeleteUpstream tenantID id).
End handlers.

Inductive UpstreamEndpoint : Type :=
| ECreateUpstream (req : createUpstreamRequest)
| EListUpstreams
| EGetUpstream (id : string)
| EUpdateUpstream (id : string) (req : createUpstreamRequest)
| EDeleteUpstream (id : string).

Definition upstream_operation (e : UpstreamEndpoint) : Operation :=
  match e with
  | ECreateUpstream _ => mkOperation "create-upstream" "POST" "/api/v1/upstreams" 201 (controlPlaneErrors [400; 409; 500])
  | EListUpstreams => mkOperation "list-upstreams" "GET" "/api/v1/upstreams" 0 (controlPlaneReadErrors [400; 500])
  | EGetUpstream _ => mkOperation "get-upstream" "GET" "/api/v1/upstreams/{id}" 0 (controlPlaneReadErrors [400; 404; 500])
  | EUpdateUpstream _ _ => mkOperation "update-upstream" "PUT" "/api/v1/upstreams/{id}" 0 (controlPlaneErrors [400; 409; 404; 500])
  | EDeleteUpstream _ => mkOperation "delete-upstream" "DELETE" "/api/v1/upstreams/{id}" 204 (controlPlaneErrors [400; 404; 500])
  end.

(** What an endpoint answers: one upstream, several, or nothing. *)
Inductive UpstreamBody : Type :=
| OneUpstream (u : UpstreamResponse)
| ManyUpstreams (l : list UpstreamResponse)
| NoBody.

Section endpoints.
Context {W : Type} `{!AdminPorts W, !RequestContext W} {V : Validator} (s : UpstreamService).
Notation Api := (Api W AdminCall).
Notation M := (M W AdminCall).

Definition upstream_endpoint (rawTenantID : string) (e : UpstreamEndpoint) : Api UpstreamBody :=
  match e with
  | ECreateUpstream req => u ← createUpstream s rawTenantID req; mret (OneUpstream u)
  | EListUpstreams => l ← listUpstreams rawTenantID; mret (ManyUpstreams l)
  | EGetUpstream id => u ← getUpstream rawTenantID id; mret (OneUpstream u)
  | EUpdateUpstream id req => u ← updateUpstream s rawTenantID id req; mret (OneUpstream u)
  | EDeleteUpstream id => _ ← deleteUpstream rawTenantID id; mret NoBody
  end.

Definition upstream_failure (e : UpstreamEndpoint) : string :=
  match e with
  | ECreateUpstream _ => "failed to create upstream"
  | EListUpstreams => "failed to list upstreams"
  | EGetUpstream _ => "failed to get upstream"
  | EUpdateUpstream _ _ => "failed to update upstream"
  | EDeleteUpstream _ => "failed to delete upstream"
  end.

(** A refusal the operation documents, the failure to read an updated upstream back,
    or the conflict that the deletion of an upstream leaves out of its documentation. *)
Definition upstream_answers (e : UpstreamEndpoint) (err : HttpError) : Prop :=
  proper (upstream_operation e) (upstream_failure e) err ∨
  match e with
  | EUpdateUpstream _ _ => err ∈ failure_answers "failed to load updated upstream"
  | EDeleteUpstream _ => err = Error409Conflict "upstream is still referenced by policies"
  | _ => False
  end.

(** ** Lemmas *)

Lemma prepare_upstream_tenant u u' : prepare_upstream s u = Ok u' → up_TenantID u' = up_TenantID u ∧ up_ID u' = up_ID u.
Proof.
  unfold prepare_upstream. destruct (NormalizeUpstreamCapabilities _ _); [|done]. simpl.
  destruct (validateAuth _ _); [done|]. by intros [= <-].
Qed.

Lemma upstream_writes_tenant u :
  all (in_tenant (up_TenantID u)) (CreateUpstream s u : M _) ∧ all (in_tenant (up_TenantID u)) (UpdateUpstream s u : M _).
Proof.
  assert (runs (in_tenant (up_TenantID u)) (λ u', up_TenantID u' = up_TenantID u) (lift (prepare_upstream s u) : M _)) as H.
  { apply triple_lift. split; [constructor|]. by intros u' [? _]%prepare_upstream_tenant. }
  split; apply (all_runs _ (λ _, True)); (eapply runs_bind; [exact H|]); intros u' Hu; apply runs_all;
    unfold validateScopedPolicies, ListPolicies; walk; done.
Qed.

Lemma upstream_reads_tenant t id :
  all (in_tenant t) (ListUpstreamsByTenant t : M _) ∧ all (in_tenant t) (o ← GetUpstreamByID t id; pointed o : M Upstream) ∧
  all (in_tenant t) (DeleteUpstream t id : M ()).
Proof.
  unfold ListUpstreamsByTenant, GetUpstreamByID, GetUpstream, DeleteUpstream.
  split; [|split]; walk; try apply pointed_all; done.
Qed.

Lemma proper_answers e err : proper (upstream_operation e) (upstream_failure e) err → upstream_answers e err.
Proof. by left. Qed.

Lemma upstream_create_answers req ctx err : upstream_answers (ECreateUpstream req) (upstreamCreateError ctx err).
Proof. apply proper_answers. unfold upstreamCreateError. proper_error. Qed.
Lemma upstream_update_answers id req ctx err : upstream_answers (EUpdateUpstream id req) (upstreamUpdateError ctx err).
Proof. apply proper_answers. unfold upstreamUpdateError. proper_error. Qed.
Lemma upstream_get_answers id ctx err : upstream_answers (EGetUpstream id) (upstreamGetError ctx err).
Proof. apply proper_answers. unfold upstreamGetError. proper_error. Qed.
Lemma upstream_delete_answers id ctx err : upstream_answers (EDeleteUpstream id) (upstreamDeleteError ctx err).
Proof.
  unfold upstreamDeleteError. destruct (errors_Is err ErrUpstreamNotFound); [apply proper_answers; proper_leaf|].
  destruct (errors_Is err ErrUpstreamInUse); [by right|apply proper_answers, humaInternalError_proper].
Qed.

Lemma upstreamFromRequest_then {A} P (R : HttpError → Prop) raw id req (f : Upstream → Api A) :
  R missing_tenant → (∀ e, R (bad_request e)) →
  (∀ u, up_TenantID u = TrimSpace raw → keeps P R (f u)) →
  keeps P R (upstreamFromRequest raw id req ≫= f).
Proof.
  intros Hm Hb Hf st. unfold upstreamFromRequest, checked, mbind, Api_bind, mret, Api_ret, tenantIDFromValue.
  case_decide; [exists []; by rewrite app_nil_r|].
  destruct (validateRequest _) as [[]|err]; [|pose proof (Hb err); exists []; rewrite app_nil_r; by repeat split].
  destruct (toDomainUpstreamAuth _ _) as [auth|err]; [|pose proof (Hb err); exists []; rewrite app_nil_r; by repeat split].
  destruct (Hf (mkUpstream id (TrimSpace raw) (urq_Name req) (urq_Ecosystem req) (urq_BaseURL req) (urq_Capabilities req)
    auth zero_time zero_time) eq_refl st) as (l & Hl & Hp). by exists l.
Qed.

#[local] Hint Resolve upstream_create_answers upstream_update_answers upstream_get_answers upstream_delete_answers : api.

Lemma upstream_endpoint_keeps raw e : keeps (in_tenant (TrimSpace raw)) (upstream_answers e) (upstream_endpoint raw e).
Proof.
  pose proof (upstream_reads_tenant (TrimSpace raw)) as Hreads.
  destruct e as [req| |id|id req|id]; cbn [upstream_endpoint]; (apply keeps_bind; [|intros; apply keeps_ret]).
  - apply upstreamFromRequest_then; [left; proper_leaf|intros; left; proper_leaf|]. intros u Hu.
    apply keeps_bind; [|intros; apply keeps_ret]. apply keeps_served; [rewrite <-Hu; apply upstream_writes_tenant|auto with api].
  - apply keeps_tenant; [left; proper_leaf|]. intros _. apply keeps_bind; [|intros; apply keeps_ret].
    apply keeps_served; [apply (Hreads "")|]. intros. left. apply humaInternalError_proper.
  - apply keeps_tenant; [left; proper_leaf|]. intros _. apply keeps_bind; [|intros; apply keeps_ret].
    apply keeps_served; [apply (Hreads id)|auto with api].
  - apply upstreamFromRequest_then; [left; proper_leaf|intros; left; proper_leaf|]. intros u Hu.
    apply keeps_bind; [apply keeps_served; [rewrite <-Hu; apply upstream_writes_tenant|auto with api]|intros _].
    apply keeps_bind; [|intros; apply keeps_ret]. apply keeps_served; [rewrite Hu; apply (Hreads id)|].
    intros ctx err. right. unfold humaInternalError, failure_answers. repeat case_match; set_solver.
  - apply keeps_tenant; [left; proper_leaf|]. intros _. apply keeps_served; [apply (Hreads id)|auto with api].
Qed.
End endpoints.
