(* ===== verification/UpstreamSecrets.v ===== *)
(** * Credentials cannot be read back

    The upstream endpoints of [ApiUpstreams] on the control plane of [ControlPlane]:
    its tables, its credential codec and its cache.  Two control planes are compared
    whose stored credentials differ only in the secrets, and that are asked the same
    requests up to the secrets these set. *)

From S2P Require Import Prelude GoStrings Floats Artifact Dependency Upstream PolicyConfig.
From S2P Require Import Policy Conditions Catalog Evaluator Effects AuditLog Valkey PolicyAdmin.
From S2P Require Import AdminTables PolicyStore UpstreamStore AdminStore ControlPlane ApiHttp ApiPolicies ApiUpstreams.
#[local] Open Scope list_scope.

(** ** Definitions *)

(** All that may be seen of a secret: whether there is one. *)
Definition blank (secret : string) : string := if decide (secret = "") then "" else "*".

Definition scrub_auth (a : UpstreamAuth) : UpstreamAuth :=
  mkUpstreamAuth (auth_Type a) (Username a) (blank (Secret a)) (auth_UpdatedAt a).
Definition scrub (u : Upstream) : Upstream :=
  mkUpstream (up_ID u) (up_TenantID u) (up_Name u) (up_Ecosystem u) (BaseURL u) (Capabilities u) (scrub_auth <$> Auth u)
    (up_CreatedAt u) (up_UpdatedAt u).

Definition scrub_request (r : createUpstreamRequest) : createUpstreamRequest :=
  mkUpstreamRequest (urq_Name r) (urq_Ecosystem r) (urq_BaseURL r) (urq_Capabilities r)
    ((λ a, mkAuthRequest (arq_Type a) (arq_Username a) (blank (TrimSpace (arq_Password a))) (blank (TrimSpace (arq_Token a))))
       <$> urq_Auth r).
Definition scrub_endpoint (e : UpstreamEndpoint) : UpstreamEndpoint :=
  match e with
  | ECreateUpstream r => ECreateUpstream (scrub_request r)
  | EUpdateUpstream id r => EUpdateUpstream id (scrub_request r)
  | _ => e
  end.

Section secrets.
Context (codec : option SecretCodec) (uuid : nat → string) (pg_text : PgError → error).

(** The codec gives back what it was given, and whether it works does not depend on the secret. *)
Definition blind (c : SecretCodec) : Prop :=
  codec_ok c ∧ ∀ n s s', blank s = blank s' →
    match Encrypt c n s, Encrypt c n s' with Ok _, Ok _ => True | Err e, Err e' => e = e' | _, _ => False end.
Context (Hcodec : from_option blind True codec).

(** What may be seen of a stored secret: whether it is there and opens. *)
Definition seal_view (o : option string) : option (result string) :=
  match o, codec with
  | None, _ | Some "", _ => None
  | Some sealed, Some c => Some (blank <$> Decrypt c sealed)
  | Some _, None => Some (Ok "")
  end.
Definition set_seal (o : option string) (r : UpstreamRow) : UpstreamRow :=
  mkUpstreamRow (us_TenantID r) (us_Name r) (us_Ecosystem r) (us_BaseURL r) (us_Capabilities r) (us_AuthType r)
    (us_AuthUsername r) o (us_AuthUpdatedAt r) (us_CreatedAt r) (us_UpdatedAt r).
Definition row_view (r : UpstreamRow) : UpstreamRow * option (result string) := (set_seal None r, seal_view (us_AuthSecret r)).

(** Tables that look the same. *)
Record same_view (db db' : AdminDB) : Prop := {
  sv_rows : row_view <$> upstreams db = row_view <$> upstreams db';
  sv_rest : set_upstreams ∅ db = set_upstreams ∅ db';
}.

(** ** Lemmas *)

(** *** Rows *)

Lemma row_view_public r r' : row_view r = row_view r' →
  us_TenantID r = us_TenantID r' ∧ us_Name r = us_Name r' ∧ us_Ecosystem r = us_Ecosystem r' ∧ us_BaseURL r = us_BaseURL r' ∧
  us_Capabilities r = us_Capabilities r' ∧ us_AuthType r = us_AuthType r' ∧ us_AuthUsername r = us_AuthUsername r' ∧
  us_AuthUpdatedAt r = us_AuthUpdatedAt r' ∧ us_CreatedAt r = us_CreatedAt r' ∧ us_UpdatedAt r = us_UpdatedAt r' ∧
  seal_view (us_AuthSecret r) = seal_view (us_AuthSecret r').
Proof. intros E. injection E. intros. repeat split; done. Qed.

Lemma attach_view id r r' : row_view r = row_view r' → scrub <$> attachAuth codec id r = scrub <$> attachAuth codec id r'.
Proof.
  intros (Et & En & Ee & Eb & Ec & Ea & Eu & Es & Ecr & Eup & Ev)%row_view_public.
  destruct r, r'; simpl in *; subst. unfold attachAuth. simpl. case_decide; [done|].
  clear Hcodec. revert Ev. unfold seal_view. destruct codec as [c|]; [|done].
  destruct us_AuthSecret as [[|a x]|], us_AuthSecret0 as [[|a' x']|]; try done.
  destruct (Decrypt c (String a x)) as [y|e], (Decrypt c (String a' x')) as [y'|e']; try done; simpl; intros E; injection E as E.
  - unfold scrub, scrub_auth, upstream_of. simpl. by rewrite E.
  - by subst.
Qed.

Lemma map_Exists_same (P Q : string → UpstreamRow → Prop) (m m' : gmap string UpstreamRow) :
  (∀ i r r', row_view r = row_view r' → P i r ↔ Q i r') →
  row_view <$> m = row_view <$> m' → map_Exists P m ↔ map_Exists Q m'.
Proof.
  intros HP E. split.
  - intros (i & r & Hi & Hr). assert ((row_view <$> m) !! i = Some (row_view r)) as H by by rewrite lookup_fmap, Hi.
    rewrite E in H. apply lookup_fmap_Some in H as (r' & Hv & Hi'). exists i, r'. split; [done|]. by apply (HP i r r').
  - intros (i & r & Hi & Hr). assert ((row_view <$> m') !! i = Some (row_view r)) as H by by rewrite lookup_fmap, Hi.
    rewrite <-E in H. apply lookup_fmap_Some in H as (r' & Hv & Hi'). exists i, r'. split; [done|]. by apply (HP i r' r).
Qed.

Lemma rest_fields db db' : same_view db db' →
  tenants db = tenants db' ∧ policies db = policies db' ∧ versions db = versions db' ∧ db_serial db = db_serial db' ∧
  db_now db = db_now db'.
Proof. intros [_ E]. destruct db, db'. unfold set_upstreams in E. simpl in *. injection E. intros. repeat split; done. Qed.

Lemma constraint_view db db' id r r' : same_view db db' → row_view r = row_view r' →
  upstream_constraint db id r = upstream_constraint db' id r'.
Proof.
  intros H (Et & En & Ee & Eb & _)%row_view_public. pose proof (rest_fields _ _ H) as (Ht & _). destruct H as [H _].
  unfold upstream_constraint. rewrite <-Ht, <-Et.
  rewrite (decide_ext _ (map_Exists (λ i r0, i ≠ id ∧ us_TenantID r0 = us_TenantID r ∧ us_Name r0 = us_Name r') (upstreams db'))).
  2: { apply map_Exists_same; [|done]. intros i r1 r2 (E1 & E2 & _)%row_view_public. by rewrite E1, E2, En. }
  case_decide; [done|].
  rewrite (decide_ext _ (map_Exists (λ i r0, i ≠ id ∧ us_TenantID r0 = us_TenantID r ∧ us_Ecosystem r0 = us_Ecosystem r' ∧
             us_BaseURL r0 = us_BaseURL r') (upstreams db'))); [done|].
  apply map_Exists_same; [|done]. intros i r1 r2 (E1 & _ & E3 & E4 & _)%row_view_public. by rewrite E1, E3, E4, Ee, Eb.
Qed.

Lemma insert_view db db' id r r' : same_view db db' → row_view r = row_view r' →
  same_view (set_upstreams (<[id := r]> (upstreams db)) db) (set_upstreams (<[id := r']> (upstreams db')) db').
Proof. intros [H1 H2] E. split; [|exact H2]. simpl. rewrite !fmap_insert. by rewrite H1, E. Qed.

Lemma next_serial_view db db' : same_view db db' → same_view (next_serial db) (next_serial db').
Proof.
  intros H. pose proof (rest_fields _ _ H) as (_ & _ & _ & Hs & _). destruct H as [H1 H2]. split; [exact H1|].
  destruct db, db'. unfold next_serial, set_upstreams in *. simpl in *. injection H2. intros. by subst.
Qed.

(** *** The repository *)

(** Results that look the same through [g]. *)
Lemma fmap_result_cases {A B} (g : A → B) (r r' : result A) : g <$> r = g <$> r' ↔
  match r, r' with Ok a, Ok a' => g a = g a' | Err e, Err e' => e = e' | _, _ => False end.
Proof. destruct r, r'; simpl; (split; [try done; by intros [= ->]|try done; by intros ->]). Qed.

Lemma lookup_view db db' id : same_view db db' →
  match upstreams db !! id, upstreams db' !! id with Some r, Some r' => row_view r = row_view r' | None, None => True | _, _ => False end.
Proof.
  intros [H _]. apply (f_equal (.!! id)) in H. rewrite !lookup_fmap in H.
  destruct (upstreams db !! id), (upstreams db' !! id); try done. exact (inj Some _ _ H).
Qed.

Lemma tenant_upstream_view db db' t id : same_view db db' →
  match tenant_upstream t id db, tenant_upstream t id db' with
  | Some r, Some r' => row_view r = row_view r' | None, None => True | _, _ => False end.
Proof.
  intros H. pose proof (lookup_view _ _ id H) as E. unfold tenant_upstream.
  destruct (upstreams db !! id) as [r|], (upstreams db' !! id) as [r'|]; try done.
  pose proof (row_view_public _ _ E) as (-> & _). by case_decide.
Qed.

Lemma GetByID_view db db' t id : same_view db db' →
  scrub <$> UpstreamRepository_GetByID codec t id db = scrub <$> UpstreamRepository_GetByID codec t id db'.
Proof.
  intros H. pose proof (tenant_upstream_view _ _ t id H) as E. unfold UpstreamRepository_GetByID.
  destruct (tenant_upstream t id db), (tenant_upstream t id db'); try done. by apply attach_view.
Qed.

Lemma by_creation_view db db' t : same_view db db' →
  Forall2 (λ kv kv', kv.1 = kv'.1 ∧ row_view kv.2 = row_view kv'.2) (by_creation t db) (by_creation t db').
Proof.
  intros [H _].
  assert (∀ m, prod_map id row_view <$> sort_by (λ a b : string * UpstreamRow, us_CreatedAt a.2 <? us_CreatedAt b.2)
      (filter (λ kv, us_TenantID kv.2 = t) (map_to_list m)) =
    sort_by (λ a b : string * (UpstreamRow * option (result string)), us_CreatedAt a.2.1 <? us_CreatedAt b.2.1)
      (filter (λ kv, us_TenantID kv.2.1 = t) (map_to_list (row_view <$> m)))) as E.
  { intros m. rewrite map_to_list_fmap. rewrite <-(sort_by_fmap (λ a b : string * UpstreamRow, us_CreatedAt a.2 <? us_CreatedAt b.2)
      (λ a b : string * (UpstreamRow * option (result string)), us_CreatedAt a.2.1 <? us_CreatedAt b.2.1)) by done.
    f_equal. induction (map_to_list m) as [|[k r] l IH]; [done|]. csimpl. rewrite !filter_cons. simpl.
    case_decide; csimpl; by rewrite IH. }
  pose proof (E (upstreams db)) as E1. rewrite H, <-E in E1. clear E H.
  change (sort_by _ (filter _ (map_to_list (upstreams db)))) with (by_creation t db) in E1.
  change (sort_by _ (filter _ (map_to_list (upstreams db')))) with (by_creation t db') in E1.
  revert E1. generalize (by_creation t db), (by_creation t db'). intros l. induction l as [|[k r] l IH]; intros [|[k' r'] l'] E1;
    csimpl in *; try done.
  pose proof (f_equal tail E1) as E2. apply (f_equal head) in E1. apply (inj Some) in E1. constructor; [|by apply IH].
  exact (conj (f_equal fst E1) (f_equal snd E1)).
Qed.

Lemma List_view db db' t : same_view db db' →
  fmap (M:=list) scrub <$> UpstreamRepository_ListByTenant codec t db = fmap (M:=list) scrub <$> UpstreamRepository_ListByTenant codec t db'.
Proof.
  intros H. unfold UpstreamRepository_ListByTenant. pose proof (by_creation_view _ _ t H) as Hl.
  induction Hl as [|[k r] [k' r'] l l' [Hk Hr] _ IH]; [done|]. simpl in Hk. subst k'. simpl in *.
  pose proof (attach_view k r r' Hr) as Ha. apply fmap_result_cases in Ha, IH. apply fmap_result_cases.
  destruct (attachAuth codec k r), (attachAuth codec k r'); try done. simpl.
  destruct (map_result _ l), (map_result _ l'); try done; simpl in *. f_equal; [exact Ha|exact IH].
Qed.

Lemma scrub_auth_eq a a' : scrub_auth <$> a = scrub_auth <$> a' →
  match a, a' with
  | Some a, Some a' => auth_Type a = auth_Type a' ∧ Username a = Username a' ∧ blank (Secret a) = blank (Secret a') ∧
                       auth_UpdatedAt a = auth_UpdatedAt a'
  | None, None => True
  | _, _ => False
  end.
Proof. destruct a as [[]|], a' as [[]|]; simpl; try done. intros [=]. repeat split; done. Qed.

Lemma columns_view n a a' : scrub_auth <$> a = scrub_auth <$> a' →
  match authColumns codec n a, authColumns codec n a' with
  | Ok (t, u, x), Ok (t', u', x') => t = t' ∧ u = u' ∧ seal_view x = seal_view x'
  | Err e, Err e' => e = e'
  | _, _ => False
  end.
Proof.
  intros H%scrub_auth_eq. unfold authColumns. destruct a as [a|], a' as [a'|]; try done.
  destruct H as (Ht & Hu & Hs & _). unfold auth_Configured. rewrite Ht. case_bool_decide; [|done]. simpl.
  revert Hcodec. unfold seal_view. destruct codec as [c|]; [|done]. intros [Hok Hb]. specialize (Hb n _ _ Hs).
  destruct (Encrypt c n (Secret a)) as [x|e] eqn:E1, (Encrypt c n (Secret a')) as [x'|e'] eqn:E2; try done; simpl; [|by subst].
  apply Hok in E1 as [N1 D1], E2 as [N2 D2]. rewrite Hu. split; [done|]. split; [done|].
  destruct x, x'; try done. by rewrite D1, D2; simpl; rewrite Hs.
Qed.

Lemma stamp_view t a a' : scrub_auth <$> a = scrub_auth <$> a' → scrub_auth <$> stamp_auth t a = scrub_auth <$> stamp_auth t a'.
Proof.
  intros H. pose proof (scrub_auth_eq _ _ H) as H'. destruct t, a as [a|], a' as [a'|]; try done. destruct H' as (E1 & E2 & E3 & _).
  unfold scrub_auth. simpl. by rewrite E1, E2, E3.
Qed.

Lemma scrub_eq u u' : scrub u = scrub u' →
  up_ID u = up_ID u' ∧ up_TenantID u = up_TenantID u' ∧ up_Name u = up_Name u' ∧ up_Ecosystem u = up_Ecosystem u' ∧
  BaseURL u = BaseURL u' ∧ Capabilities u = Capabilities u' ∧ scrub_auth <$> Auth u = scrub_auth <$> Auth u' ∧
  up_CreatedAt u = up_CreatedAt u' ∧ up_UpdatedAt u = up_UpdatedAt u'.
Proof. intros [=]. repeat split; done. Qed.

Lemma Create_view db db' u u' : same_view db db' → scrub u = scrub u' →
  scrub <$> (UpstreamRepository_Create codec uuid pg_text u db).1 = scrub <$> (UpstreamRepository_Create codec uuid pg_text u' db').1 ∧
  same_view (UpstreamRepository_Create codec uuid pg_text u db).2 (UpstreamRepository_Create codec uuid pg_text u' db').2.
Proof.
  intros H (Ei & Et & En & Ee & Eb & Ec & Ea & Ecr & Eup)%scrub_eq.
  pose proof (rest_fields _ _ H) as (_ & _ & _ & Hs & Hn). unfold UpstreamRepository_Create.
  pose proof (columns_view (db_serial db') _ _ Ea) as Hc. rewrite Hs, Hn.
  destruct (authColumns codec (db_serial db') (Auth u)) as [[[t x] y]|e], (authColumns codec (db_serial db') (Auth u')) as [[[t' x'] y']|e'];
    try done; [|by subst]. destruct Hc as (-> & -> & Hy).
  match goal with |- context [upstream_constraint db ?i ?r] => set (row := r) end.
  match goal with |- context [upstream_constraint db' ?i ?r] => set (row' := r) end.
  assert (row_view row = row_view row') as Hr.
  { unfold row, row', row_view, set_seal. simpl. by rewrite Et, En, Ee, Eb, Ec, Hy. }
  rewrite (constraint_view _ _ _ _ _ H Hr). destruct (upstream_constraint db' _ row'); [done|].
  split; [|by apply next_serial_view, insert_view].
  simpl. unfold scrub. simpl. rewrite (stamp_view _ _ _ Ea). by rewrite Et, En, Ee, Eb, Ec.
Qed.

Lemma Update_view db db' u u' : same_view db db' → scrub u = scrub u' →
  scrub <$> (UpstreamRepository_Update codec pg_text u db).1 = scrub <$> (UpstreamRepository_Update codec pg_text u' db').1 ∧
  same_view (UpstreamRepository_Update codec pg_text u db).2 (UpstreamRepository_Update codec pg_text u' db').2.
Proof.
  intros H E. pose proof (scrub_eq _ _ E) as (Ei & Et & En & Ee & Eb & Ec & Ea & Ecr & Eup).
  pose proof (rest_fields _ _ H) as (_ & _ & _ & Hs & Hn). unfold UpstreamRepository_Update. rewrite Ei, Et, Hs, Hn.
  pose proof (tenant_upstream_view _ _ (up_TenantID u') (up_ID u') H) as Hl.
  destruct (tenant_upstream _ _ db) as [r|], (tenant_upstream _ _ db') as [r'|]; try done.
  assert (row_view (updated_upstream u (db_now db') r) = row_view (updated_upstream u' (db_now db') r')) as Hr.
  { pose proof (row_view_public _ _ Hl) as (F1 & F2 & F3 & F4 & F5 & F6 & F7 & F8 & F9 & F10 & F11).
    unfold row_view, set_seal, updated_upstream. simpl. by rewrite En, Ee, Eb, Ec, F1, F6, F7, F8, F9, F11. }
  rewrite (constraint_view _ _ _ _ _ H Hr). destruct (upstream_constraint db' _ _); [done|].
  pose proof (scrub_auth_eq _ _ Ea) as Ha. pose proof (columns_view (db_serial db') _ _ Ea) as Hc.
  destruct (Auth u) as [a|] eqn:Au, (Auth u') as [a'|] eqn:Au'; try done; [|split; [simpl; by rewrite E|by apply insert_view]].
  destruct (authColumns codec _ (Some a)) as [[[t x] y]|e], (authColumns codec _ (Some a')) as [[[t' x'] y']|e']; try done; [|by subst].
  destruct Hc as (-> & -> & Hy). split.
  - unfold fmap, result_fmap. cbv iota beta. f_equal. unfold scrub. cbn [up_ID up_TenantID up_Name up_Ecosystem BaseURL Capabilities Auth up_CreatedAt up_UpdatedAt].
    rewrite (stamp_view _ (Some a) (Some a')); [|exact Ea]. by rewrite En, Ee, Eb, Ec, Ecr, Eup.
  - apply next_serial_view, insert_view; [done|].
    pose proof (row_view_public _ _ Hr) as (F1 & F2 & F3 & F4 & F5 & F6 & F7 & F8 & F9 & F10 & F11).
    unfold row_view, set_seal, updated_auth. cbn [us_TenantID us_Name us_Ecosystem us_BaseURL us_Capabilities us_AuthType us_AuthUsername us_AuthSecret us_AuthUpdatedAt us_CreatedAt us_UpdatedAt].
    by rewrite F1, F2, F3, F4, F5, F9, Hy.
Qed.

Lemma Delete_view db db' t id : same_view db db' →
  (UpstreamRepository_Delete pg_text t id db).1 = (UpstreamRepository_Delete pg_text t id db').1 ∧
  same_view (UpstreamRepository_Delete pg_text t id db).2 (UpstreamRepository_Delete pg_text t id db').2.
Proof.
  intros H. pose proof (tenant_upstream_view _ _ t id H) as Hl. unfold UpstreamRepository_Delete, upstream_referenced.
  pose proof (rest_fields _ _ H) as (_ & -> & -> & _ & _).
  destruct (tenant_upstream _ _ db), (tenant_upstream _ _ db'); try done.
  repeat case_decide; simpl; try done. split; [done|]. destruct H as [Hrows Hrest]. split; [|exact Hrest].
  simpl. by rewrite !fmap_delete, Hrows.
Qed.

(** *** Programs *)

Context {C : Type} `{!KV C, !RequestContext C}.
#[local] Instance plane : AdminPorts (Plane C) := plane_ports codec uuid pg_text.
#[local] Instance plane_context : RequestContext (Plane C) := {| request_Err w := request_Err (pl_cache w) |}.
Notation M := (M (Plane C) AdminCall).
Notation Api := (Api (Plane C) AdminCall).

(** Control planes that look the same. *)
Definition alike (w w' : Plane C) : Prop := same_view (pl_db w) (pl_db w') ∧ pl_cache w = pl_cache w'.

(** Programs that make results that look the same through [g]. *)
Definition msame {A B} (g : A → B) (m m' : M A) : Prop := ∀ st st', alike (world st) (world st') →
  g <$> (m st).1 = g <$> (m' st').1 ∧ alike (world (m st).2) (world (m' st').2).

Lemma msame_ret {A B} (g : A → B) a a' : g a = g a' → msame g (mret a) (mret a').
Proof. intros E st st' H. split; [simpl; by rewrite E|exact H]. Qed.
Lemma msame_throw {A B} (g : A → B) e : msame g (throw e) (throw e).
Proof. intros st st' H. by split. Qed.
Lemma msame_lift {A B} (g : A → B) r r' : g <$> r = g <$> r' → msame g (lift r) (lift r').
Proof. intros E st st' H. by split. Qed.
Lemma msame_call {A B} (g : A → B) c c' f f' :
  (∀ w w', alike w w' → g <$> (f w).1 = g <$> (f' w').1 ∧ alike (f w).2 (f' w').2) → msame g (call c f) (call c' f').
Proof.
  intros Hf st st' H. specialize (Hf _ _ H). unfold call. by destruct (f (world st)), (f' (world st')).
Qed.
Lemma msame_wrapping {A B} (g : A → B) p m m' : msame g m m' → msame g (wrapping p m) (wrapping p m').
Proof.
  intros Hm st st' H. specialize (Hm _ _ H). unfold wrapping. destruct (m st) as [r s1], (m' st') as [r' s1'].
  simpl in *. destruct Hm as [Hr Hs]. split; [|exact Hs]. apply fmap_result_cases in Hr. apply fmap_result_cases.
  destruct r, r'; simpl; try done. by subst.
Qed.
Lemma msame_bind {A B A' B'} (g : A → B) (h : A' → B') m m' (f f' : A → M A') :
  msame g m m' → (∀ a a', g a = g a' → msame h (f a) (f' a')) → msame h (m ≫= f) (m' ≫= f').
Proof.
  intros Hm Hf st st' H. specialize (Hm _ _ H). unfold mbind, M_bind. destruct (m st) as [r s1], (m' st') as [r' s1'].
  simpl in Hm. destruct Hm as [Hr Hs]. apply fmap_result_cases in Hr. destruct r, r'; try done; [by apply Hf|].
  simpl. subst. by split.
Qed.

(** The same for handlers, whose answers must be equal. *)
Definition asame {A B} (g : A → B) (m m' : Api A) : Prop := ∀ st st', alike (world st) (world st') →
  match (m st).1, (m' st').1 with Answered a, Answered a' => g a = g a' | Refused e, Refused e' => e = e' | _, _ => False end ∧
  alike (world (m st).2) (world (m' st').2).

Lemma asame_ret {A B} (g : A → B) a a' : g a = g a' → asame g (mret a) (mret a').
Proof. intros E st st' H. by split. Qed.
Lemma asame_checked {A B} (g : A → B) f r r' : g <$> r = g <$> r' → asame g (checked f r) (checked f r').
Proof. intros E%fmap_result_cases st st' H. split; [|exact H]. simpl. destruct r, r'; try done. by subst. Qed.
Lemma asame_served {A B} (g : A → B) f m m' : msame g m m' → asame g (served f m) (served f m').
Proof.
  intros Hm st st' H. specialize (Hm _ _ H). unfold served. destruct (m st) as [r s1], (m' st') as [r' s1'].
  simpl in *. destruct Hm as [Hr Hs]. split; [|exact Hs]. apply fmap_result_cases in Hr.
  destruct r, r'; try done. subst. simpl. by rewrite (proj2 Hs).
Qed.
Lemma asame_bind {A B A' B'} (g : A → B) (h : A' → B') m m' (f f' : A → Api A') :
  asame g m m' → (∀ a a', g a = g a' → asame h (f a) (f' a')) → asame h (m ≫= f) (m' ≫= f').
Proof.
  intros Hm Hf st st' H. specialize (Hm _ _ H). unfold mbind, Api_bind. destruct (m st) as [r s1], (m' st') as [r' s1'].
  simpl in Hm. destruct Hm as [Hr Hs]. destruct r, r'; try done. by apply Hf.
Qed.

(** *** The workflows *)

Context (s : UpstreamService).

Lemma from_db_same {A B} (g : A → B) (f f' : AdminDB → result A) w w' :
  (∀ db db', same_view db db' → g <$> f db = g <$> f' db') → alike w w' →
  g <$> (from_db f w).1 = g <$> (from_db f' w').1 ∧ alike (from_db f w).2 (from_db f' w').2.
Proof. intros Hf H. split; [apply Hf, H|exact H]. Qed.

Lemma on_db_same {A B} (g : A → B) (f f' : AdminDB → result A * AdminDB) w w' :
  (∀ db db', same_view db db' → g <$> (f db).1 = g <$> (f' db').1 ∧ same_view (f db).2 (f' db').2) → alike w w' →
  g <$> (on_db f w).1 = g <$> (on_db f' w').1 ∧ alike (on_db f w).2 (on_db f' w').2.
Proof.
  intros Hf [H Hc]. specialize (Hf _ _ H). unfold on_db. destruct (f (pl_db w)), (f' (pl_db w')). simpl in *.
  destruct Hf as [Hr Hd]. split; [exact Hr|]. by split.
Qed.

Lemma validateAuth_scrub u u' : scrub u = scrub u' → validateAuth s u = validateAuth s u'.
Proof.
  intros (Ei & Et & En & Ee & Eb & Ec & Ea & _)%scrub_eq. pose proof (scrub_auth_eq _ _ Ea) as H.
  unfold validateAuth, UpstreamAuthConfigured. destruct (Auth u) as [a|], (Auth u') as [a'|]; try done.
  destruct H as (Ht & Hu & Hs & _). unfold auth_Configured. rewrite Ht, Ee, Hu.
  assert (Secret a = "" ↔ Secret a' = "") as Hb by (unfold blank in Hs; repeat case_decide; naive_solver).
  rewrite (decide_ext (Username a' = "" ∨ Secret a = "") (Username a' = "" ∨ Secret a' = "")) by (by rewrite Hb).
  by rewrite (decide_ext (Secret a = "") (Secret a' = "") _ _ Hb).
Qed.

Lemma prepare_same u u' : scrub u = scrub u' → scrub <$> prepare_upstream s u = scrub <$> prepare_upstream s u'.
Proof.
  intros E. pose proof (scrub_eq _ _ E) as (Ei & Et & En & Ee & Eb & Ec & Ea & Ecr & Eup). unfold prepare_upstream.
  rewrite Ee, Ec. destruct (NormalizeUpstreamCapabilities _ _) as [c|]; [|done]. simpl.
  assert (scrub (set_Capabilities (Some c) u) = scrub (set_Capabilities (Some c) u')) as E'.
  { unfold scrub, set_Capabilities. simpl. by rewrite Ei, Et, En, Ee, Eb, Ea, Ecr, Eup. }
  rewrite (validateAuth_scrub _ _ E'). destruct (validateAuth s _); [done|]. simpl. by rewrite E'.
Qed.

Lemma compatibility_scrub t u u' : scrub u = scrub u' → ValidateUpstreamCompatibility t u = ValidateUpstreamCompatibility t u'.
Proof.
  intros (_ & _ & En & Ee & _ & Ec & _)%scrub_eq. unfold ValidateUpstreamCompatibility, UpstreamSupports, EffectiveCapabilities.
  by rewrite ?En, ?Ee, ?Ec.
Qed.

Lemma CreateUpstream_same u u' : scrub u = scrub u' → msame scrub (CreateUpstream s u) (CreateUpstream s u').
Proof.
  intros E. eapply msame_bind; [by apply msame_lift, prepare_same|]. intros v v' Ev. apply msame_wrapping, msame_call.
  intros w w' H. apply on_db_same; [|exact H]. intros db db' Hdb. by apply Create_view.
Qed.

Lemma first_conflict_scrub u u' ps : scrub u = scrub u' → first_conflict u ps = first_conflict u' ps.
Proof.
  intros E. induction ps as [|p ps IH]; [done|]. simpl. rewrite (compatibility_scrub _ _ _ E), IH.
  apply scrub_eq in E as (Ei & _ & En & _). by rewrite Ei, En.
Qed.

Lemma ListByTenant_same t db db' : same_view db db' → ListByTenant t db = ListByTenant t db'.
Proof. intros H. unfold ListByTenant. by rewrite (proj1 (proj2 (rest_fields _ _ H))). Qed.

Lemma UpdateUpstream_same u u' : scrub u = scrub u' → msame scrub (UpdateUpstream s u) (UpdateUpstream s u').
Proof.
  intros E. eapply msame_bind; [by apply msame_lift, prepare_same|]. intros v v' Ev.
  eapply (msame_bind id).
  - unfold validateScopedPolicies. destruct (negb _); [by apply msame_ret|].
    pose proof (scrub_eq _ _ Ev) as (_ & Et & _). eapply (msame_bind id).
    + apply msame_wrapping, msame_call. intros w w' H. rewrite Et. apply from_db_same; [|exact H].
      intros db db' Hdb. by rewrite (ListByTenant_same _ _ _ Hdb).
    + intros ps ps' Eps. unfold id in Eps. subst ps'. rewrite (first_conflict_scrub _ _ ps Ev).
      destruct (first_conflict v' ps); [apply msame_throw|by apply msame_ret].
  - intros _ _ _. apply msame_wrapping, msame_call. intros w w' H. apply on_db_same; [|exact H].
    intros db db' Hdb. by apply Update_view.
Qed.

Lemma GetUpstream_same t id : msame scrub (o ← GetUpstreamByID t id; pointed o : M Upstream) (o ← GetUpstreamByID t id; pointed o).
Proof.
  eapply (msame_bind (fmap scrub)).
  - apply msame_wrapping, msame_call. intros w w' H. apply from_db_same; [|exact H].
    intros db db' Hdb. pose proof (GetByID_view _ _ t id Hdb) as Hg. apply fmap_result_cases in Hg. apply fmap_result_cases.
    destruct (UpstreamRepository_GetByID codec t id db), (UpstreamRepository_GetByID codec t id db'); try done. simpl. by rewrite Hg.
  - intros [u|] [u'|] E; try done. apply msame_ret. exact (inj Some _ _ E).
Qed.

(** *** The endpoints *)

Context {V : Validator}.

Lemma response_scrub u : toUpstreamResponse u = toUpstreamResponse (scrub u).
Proof.
  assert (scrub (scrub u) = scrub u) as E.
  { destruct u as [? ? ? ? ? ? [[? ? x ?]|] ? ?]; [|done]. unfold scrub, scrub_auth, blank. simpl. by destruct (decide (x = "")). }
  assert (SupportedPolicyTypesForUpstream u = SupportedPolicyTypesForUpstream (scrub u)) as Es.
  { apply list_filter_iff. intros t. by rewrite (compatibility_scrub t u (scrub u)). }
  assert (toAuthResponse (Auth u) = toAuthResponse (Auth (scrub u))) as Ea.
  { destruct u as [? ? ? ? ? ? [[? ? x ?]|] ? ?]; [|done]. unfold scrub, scrub_auth, blank, toAuthResponse. simpl. by repeat case_decide. }
  unfold toUpstreamResponse. by rewrite Es, Ea.
Qed.

Lemma responses_same u u' : scrub u = scrub u' → toUpstreamResponse u = toUpstreamResponse u'.
Proof. intros E. by rewrite response_scrub, E, <-response_scrub. Qed.

Lemma responses_list_same l l' : scrub <$> l = scrub <$> l' → toUpstreamsResponse l = toUpstreamsResponse l'.
Proof.
  revert l'. induction l as [|u l IH]; intros [|u' l'] E; try done. unfold toUpstreamsResponse. csimpl in *.
  injection E. intros. f_equal; [|by apply IH]. apply responses_same. pose proof (f_equal head E) as E'. exact (inj Some _ _ E').
Qed.

Lemma scrub_request_eq r r' : scrub_request r = scrub_request r' →
  urq_Name r = urq_Name r' ∧ urq_Ecosystem r = urq_Ecosystem r' ∧ urq_BaseURL r = urq_BaseURL r' ∧
  urq_Capabilities r = urq_Capabilities r' ∧
  match urq_Auth r, urq_Auth r' with
  | Some a, Some a' => arq_Type a = arq_Type a' ∧ arq_Username a = arq_Username a' ∧
      blank (TrimSpace (arq_Password a)) = blank (TrimSpace (arq_Password a')) ∧ blank (TrimSpace (arq_Token a)) = blank (TrimSpace (arq_Token a'))
  | None, None => True
  | _, _ => False
  end.
Proof.
  intros E. injection E as E1 E2 E3 E4 E5. repeat split; try done.
  destruct (urq_Auth r) as [[]|], (urq_Auth r') as [[]|]; try done. simpl in E5. injection E5. intros. repeat split; done.
Qed.

Lemma blank_nonempty x y : blank x = blank y → (x = "" ↔ y = "").
Proof. unfold blank. repeat case_decide; naive_solver. Qed.

Lemma auth_same eco a a' :
  match a, a' with
  | Some a, Some a' => arq_Type a = arq_Type a' ∧ arq_Username a = arq_Username a' ∧
      blank (TrimSpace (arq_Password a)) = blank (TrimSpace (arq_Password a')) ∧ blank (TrimSpace (arq_Token a)) = blank (TrimSpace (arq_Token a'))
  | None, None => True
  | _, _ => False
  end →
  fmap (M:=option) scrub_auth <$> toDomainUpstreamAuth eco a = fmap (M:=option) scrub_auth <$> toDomainUpstreamAuth eco a'.
Proof.
  destruct a as [a|], a' as [a'|]; try done. intros (Et & Eu & Ep & Ek). unfold toDomainUpstreamAuth. rewrite Et, Eu.
  pose proof (blank_nonempty _ _ Ep) as Hp. pose proof (blank_nonempty _ _ Ek) as Hk.
  destruct (decide (_ = UpstreamAuthNone)); [done|]. destruct (decide (eco ≠ EcosystemOCI)); [done|].
  revert Hp Hk Ep Ek. generalize (TrimSpace (arq_Password a)) (TrimSpace (arq_Password a')) (TrimSpace (arq_Token a))
    (TrimSpace (arq_Token a')) (TrimSpace (arq_Username a')). intros p p' k k' user Hp Hk Ep Ek.
  repeat case_decide; try tauto; try done; simpl; unfold scrub_auth; simpl; by rewrite ?Ep, ?Ek.
Qed.

Lemma upstreamFromRequest_same raw id r r' : scrub_request r = scrub_request r' →
  asame scrub (upstreamFromRequest (W:=Plane C) raw id r) (upstreamFromRequest raw id r').
Proof.
  intros (En & Ee & Eb & Ec & Ea)%scrub_request_eq. eapply (asame_bind (λ t, t)); [by apply asame_checked|]. intros t t' <-.
  eapply (asame_bind (λ t, t)).
  - apply asame_checked. unfold createUpstreamRequest_rules. by rewrite En, Ee, Eb.
  - intros [] [] _. eapply (asame_bind (fmap scrub_auth)).
    + apply asame_checked. rewrite Ee. by apply auth_same.
    + intros a a' E. apply asame_ret. unfold scrub. simpl. by rewrite En, Ee, Eb, Ec, E.
Qed.

Lemma endpoint_same raw e e' : scrub_endpoint e = scrub_endpoint e' →
  asame (λ b, b) (upstream_endpoint (W:=Plane C) s raw e) (upstream_endpoint s raw e').
Proof.
  intros E. destruct e as [r| |id|id r|id], e' as [r'| |id'|id' r'|id']; try done; simpl in E; unfold upstream_endpoint.
  - pose proof (f_equal (λ e, match e with ECreateUpstream r => r | _ => r end) E) as Er. simpl in Er.
    eapply (asame_bind (λ u, u)); [|by intros ? ? ->; apply asame_ret].
    eapply (asame_bind scrub); [by apply upstreamFromRequest_same|]. intros u u' Eu.
    eapply (asame_bind scrub); [by apply asame_served, CreateUpstream_same|]. intros v v' Ev. by apply asame_ret, responses_same.
  - eapply (asame_bind (λ u, u)); [|by intros ? ? ->; apply asame_ret].
    eapply (asame_bind (λ t, t)); [by apply asame_checked|]. intros t t' <-.
    eapply (asame_bind (fmap scrub)); [|intros l l' El; by apply asame_ret, responses_list_same].
    apply asame_served, msame_wrapping, msame_call. intros w w' H. apply from_db_same; [|exact H].
    intros db db' Hdb. by apply List_view.
  - injection E as <-. eapply (asame_bind (λ u, u)); [|by intros ? ? ->; apply asame_ret].
    eapply (asame_bind (λ t, t)); [by apply asame_checked|]. intros t t' <-.
    eapply (asame_bind scrub); [apply asame_served, GetUpstream_same|]. intros v v' Ev. by apply asame_ret, responses_same.
  - pose proof (f_equal (λ e, match e with EUpdateUpstream _ r => r | _ => r end) E) as Er.
    pose proof (f_equal (λ e, match e with EUpdateUpstream id _ => id | _ => id end) E) as Ei. simpl in Er, Ei. subst id'.
    eapply (asame_bind (λ u, u)); [|by intros ? ? ->; apply asame_ret].
    eapply (asame_bind scrub); [by apply upstreamFromRequest_same|]. intros u u' Eu.
    eapply (asame_bind scrub); [by apply asame_served, UpdateUpstream_same|]. intros _ _ _.
    pose proof (scrub_eq _ _ Eu) as (_ & Et & _). rewrite Et.
    eapply (asame_bind scrub); [apply asame_served, GetUpstream_same|]. intros v v' Ev. by apply asame_ret, responses_same.
  - injection E as <-. eapply (asame_bind (λ u, u)); [|intros; by apply asame_ret].
    eapply (asame_bind (λ t, t)); [by apply asame_checked|]. intros t t' <-.
    apply asame_served, msame_wrapping, msame_call. intros w w' H. apply on_db_same; [|exact H].
    intros db db' Hdb. destruct (Delete_view db db' t id Hdb) as [-> Hd]. by split.
Qed.

(** A client that sends a list of requests, each with its tenant header. *)
Fixpoint answers_to (requests : list (string * UpstreamEndpoint)) (st : St (Plane C) AdminCall) : list (answer UpstreamBody) :=
  match requests with
  | [] => []
  | (raw, e) :: requests => let '(r, st) := upstream_endpoint s raw e st in r :: answers_to requests st
  end.
End secrets.

(** ** Properties *)

(** C19: No client of the upstream endpoints learns a stored credential.  Of two
    control planes whose upstreams differ at most in the secrets stored for them, and
    two clients that send the same requests up to the secrets these set, the answers
    are the same, for any number of requests, whatever their outcome. *)
Theorem answers_hide_secrets {C} `{!KV C, !RequestContext C} {V : Validator} codec uuid pg_text s
    (requests requests' : list (string * UpstreamEndpoint)) (st st' : St (Plane C) AdminCall) :
  from_option blind True codec →
  alike codec (world st) (world st') →
  prod_map id scrub_endpoint <$> requests = prod_map id scrub_endpoint <$> requests' →
  answers_to codec uuid pg_text s requests st = answers_to codec uuid pg_text s requests' st'.
Proof.
  intros Hc. revert requests' st st'. induction requests as [|[raw e] requests IH]; intros [|[raw' e'] requests'] st st' H E; try done.
  csimpl in *. pose proof (f_equal tail E) as Et. apply (f_equal head), (inj Some) in E. injection E as <- Ee.
  destruct (endpoint_same codec uuid pg_text Hc s raw e e' Ee st st' H) as [Hr Hs].
  destruct (upstream_endpoint s raw e st) as [r s1], (upstream_endpoint s raw e' st') as [r' s1']. simpl in *.
  f_equal; [|by apply IH]. by destruct r, r'; subst.
Qed.

(** A codec that writes a mark before the secret. *)
Definition marking_codec : SecretCodec :=
  mkSecretCodec (λ _ x, Ok ("!" +:+ x)) (λ x, match x with String _ x => Ok x | "" => Err (new_error "empty") end).

Lemma marking_codec_blind : blind marking_codec.
Proof. split; [|done]. intros n x t [= <-]. done. Qed.

#[export] Instance memory_context : RequestContext (gmap string KVValue) := {| request_Err _ := None |}.

Definition oci_request (password : string) : createUpstreamRequest :=
  mkUpstreamRequest "hub" "oci" "https://registry.example" None (Some (mkAuthRequest "basic" "robot" password "")).

(** Setting two different passwords and reading the upstream back looks the same. *)
Definition empty_plane : St (Plane (gmap string KVValue)) AdminCall :=
  mkSt (mkPlane (mkAdminDB {["t1"]} ∅ ∅ ∅ ∅ ∅ ∅ [] 0 100) ∅) [].
Definition set_and_read (password : string) : list (string * UpstreamEndpoint) :=
  [("t1", ECreateUpstream (oci_request password)); ("t1", EGetUpstream (serial_uuid 0))].

Lemma answers_hide_secrets_witness :
  let ask password := answers_to (V:=builtin_rules) (Some marking_codec) serial_uuid pg_message (mkUpstreamService true true)
                        (set_and_read password) empty_plane in
  ask "swordfish" = ask "hunter2" ∧
  match ask "hunter2" with
  | [Answered (OneUpstream _); Answered (OneUpstream u)] => ures_Auth u = mkAuthResponse "basic" true "robot" (Some 100)
  | _ => False
  end.
Proof.
  split.
  - apply (answers_hide_secrets (V:=builtin_rules) (Some marking_codec) serial_uuid pg_message (mkUpstreamService true true));
      [exact marking_codec_blind| |reflexivity]. repeat split.
  - vm_compute. reflexivity.
Defined.
