(* ===== verification/ApiReads.v ===== *)
(** * The endpoints that list what was recorded

    [internal/delivery/api]: evaluation.go, audit.go and dependency_graph.go with their
    responses, and [AuditService.ListByTenant] of [core/service/audit.go], over the
    stores of decisions, audit events and dependency graphs.  They only read. *)

From S2P Require Import Prelude GoStrings Json JsonParse GoTime Artifact Dependency Upstream PolicyConfig Policy Evaluator Effects.
From S2P Require Import Ports GraphDepth Lockfile GraphQueue AdminTables PgValues DecisionStore IngestWire AuditStore ApiHttp.
#[local] Open Scope list_scope.

(** ** Definitions *)

(** *** Responses *)

Record ArtifactIdentityResponse : Type := mkArtifactResponse {
  ar_Ecosystem : string;
  ar_Namespace : string;
  ar_Name : string;
  ar_Version : string;
  ar_Digest : string;
}.

Definition toArtifactResponse (a : ArtifactIdentity) : ArtifactIdentityResponse :=
  mkArtifactResponse (Ecosystem a) (Namespace a) (Name a) (Version a) (Digest a).

Record EvaluationReasonResponse : Type := mkReasonResponse {
  rr_PolicyID : string;
  rr_PolicyName : string;
  rr_Category : string;
  rr_Action : string;
  rr_Message : string;
}.

Record DecisionResponse : Type := mkDecisionResponse {
  dres_ID : string;
  dres_Artifact : ArtifactIdentityResponse;
  dres_Outcome : string;
  dres_PolicyID : string;
  dres_PolicyHash : string;
  dres_Reason : string;
  dres_Warnings : list string;
  dres_Reasons : list EvaluationReasonResponse;
  dres_CachedAt : option time;
  dres_EvaluatedAt : time;
}.

Definition toDecisionResponse (d : Decision) : DecisionResponse :=
  mkDecisionResponse (dec_ID d) (toArtifactResponse (dec_Artifact d)) (dec_Outcome d) (dec_PolicyID d) (dec_PolicyHash d)
    (dec_Reason d) (dec_Warnings d)
    ((λ r, mkReasonResponse (rsn_PolicyID r) (rsn_PolicyName r) (rsn_Category r) (rsn_Action r) (rsn_Message r)) <$> dec_Reasons d)
    (dec_CachedAt d) (dec_EvaluatedAt d).
Definition toDecisionsResponse (decisions : list Decision) : list DecisionResponse := toDecisionResponse <$> decisions.

Record AuditEventResponse : Type := mkAuditResponse {
  ares_ID : string;
  ares_CorrelationID : string;
  ares_EventType : string;
  ares_Source : string;
  ares_EntityType : string;
  ares_EntityID : string;
  ares_UpstreamID : string;
  ares_PolicyID : string;
  ares_Outcome : string;
  ares_Artifact : ArtifactIdentityResponse;
  ares_Message : string;
  ares_Payload : option (list (string * Any));
  ares_CreatedAt : time;
}.

Definition toAuditEventResponse (stored : StoredEvent) : AuditEventResponse :=
  let event := ev_Event stored in
  mkAuditResponse (ev_ID stored) (ev_CorrelationID event) (ev_EventType event) (ev_Source event) (ev_EntityType event)
    (ev_EntityID event) (ev_UpstreamID event) (ev_PolicyID event) (ev_Outcome event) (toArtifactResponse (ev_Artifact event))
    (ev_Message event) (ev_Payload event) (ev_CreatedAt event).
Definition toAuditEventsResponse (events : list StoredEvent) : list AuditEventResponse := toAuditEventResponse <$> events.

(** [Format("2006-01-02T15:04:05.999Z07:00")] of a UTC time: whole milliseconds. *)
Definition format_milliseconds (t : time) : string := rfc3339 (t - t mod 1000000).

Record DependencyGraphRootResponse : Type := mkRootResponse {
  gres_ID : string;
  gres_TenantID : string;
  gres_UpstreamID : string;
  gres_PackageName : string;
  gres_Version : string;
  gres_Status : string;
  gres_GraphHash : string;
  gres_Error : string;
  gres_CreatedAt : string;
  gres_UpdatedAt : string;
  gres_ResolvedAt : option string;
}.

Definition toDependencyGraphRootResponse (root : GraphRoot) : DependencyGraphRootResponse :=
  mkRootResponse (gr_ID root) (gr_TenantID root) (gr_UpstreamID root) (gr_PackageName root) (gr_Version root) (gr_Status root)
    (default "" (gr_GraphHash root)) (default "" (gr_Error root)) (format_milliseconds (gr_CreatedAt root))
    (format_milliseconds (gr_UpdatedAt root)) (format_milliseconds <$> gr_ResolvedAt root).

Record DependencyGraphNodeResponse : Type := mkNodeResponse {
  nres_ID : string;
  nres_Artifact : ArtifactIdentityResponse;
  nres_MinDepth : Z;
  nres_DependencyTypes : list string;
}.

Record DependencyGraphEdgeResponse : Type := mkEdgeResponse {
  eres_ID : string;
  eres_ParentNodeID : string;
  eres_ChildNodeID : string;
  eres_DependencyType : string;
}.

Record DependencyGraphResponse : Type := mkGraphResponse {
  gres_Root : DependencyGraphRootResponse;
  gres_Nodes : list DependencyGraphNodeResponse;
  gres_Edges : list DependencyGraphEdgeResponse;
}.

Definition toDependencyGraphResponse (snapshot : Snapshot) : DependencyGraphResponse :=
  mkGraphResponse (toDependencyGraphRootResponse (snap_Root snapshot))
    ((λ n, mkNodeResponse (node_ID n) (toArtifactResponse (node_Artifact n)) (MinDepth n) (node_DependencyTypes n)) <$> snap_Nodes snapshot)
    ((λ e, mkEdgeResponse (edge_ID e) (ParentNodeID e) (ChildNodeID e) (edge_DependencyType e)) <$> snap_Edges snapshot).

(** *** Handlers *)

Record auditListInput : Type := mkAuditListInput {
  in_Limit : string;
  in_Offset : string;
  in_Search : string;
  in_EventType : string;
  in_Outcome : string;
  in_CorrelationID : string;
  in_PolicyID : string;
  in_Source : string;
  in_Since : string;
  in_Until : string;
}.

(** The stores, and the error of the request's context. *)
Record Records : Type := mkRecords {
  rec_decisions : EvidenceDB;
  rec_events : AuditDB;
  rec_graphs : GraphDB;
  rec_ctx : option error;
}.
#[export] Instance records_context : RequestContext Records := {| request_Err := rec_ctx |}.

Section handlers.
(** The database's texts of errors, timestamps, JSON and collation. *)
Context (pg_text : PgError → error) (pg_time : time → time) (jsonb_text : json → string) (collate : string → string → bool).
(** [AuditService] may have been given no repository. *)
Context (audit_repository : bool).
Notation Api := (Api Records ()).
Notation M := (M Records ()).

(** A query of a store. *)
Definition query {A} (f : Records → result A) : M A := λ st, (f (world st), st).

Definition AuditService_ListByTenant (filter : AuditEventFilter) : M (list StoredEvent) :=
  query (λ w,
    if negb audit_repository then Err (new_error "listing audit events: repository unavailable")
    else match rec_ctx w with
    | Some err => Err err
    | None => wrap_result "listing audit events: "
                (AuditEventRepository_ListByTenant jsonb_text pg_text pg_time filter (rec_events w))
    end).

Definition listEvaluations (rawTenantID limit offset search : string) : Api (list DecisionResponse) :=
  tenantID ← checked bad_request (tenantIDFromValue rawTenantID);
  let '(limit, offset) := parseEvaluationPagination limit offset in
  decisions ← served (humaInternalError "failed to list evaluations")
                (query (λ w, EvaluationService_ListByTenant pg_text tenantID limit offset (TrimSpace search) (rec_decisions w)));
  mret (toDecisionsResponse decisions).

Definition parseAuditLimit (value : string) : Z := default 50 (positiveInt value).
Definition parseAuditOffset (value : string) : Z := default 0 (nonNegativeInt value).

Definition listAuditEvents (rawTenantID : string) (input : auditListInput) : Api (list AuditEventResponse) :=
  tenantID ← checked bad_request (tenantIDFromValue rawTenantID);
  since ← checked bad_request (parseRFC3339Query (in_Since input) "since");
  upto ← checked bad_request (parseRFC3339Query (in_Until input) "until");
  events ← served (humaInternalError "failed to list audit events")
             (AuditService_ListByTenant
                (mkAuditFilter tenantID (parseAuditLimit (in_Limit input)) (parseAuditOffset (in_Offset input))
                   (TrimSpace (in_Search input)) (TrimSpace (in_EventType input)) (TrimSpace (in_Outcome input))
                   (TrimSpace (in_CorrelationID input)) (TrimSpace (in_PolicyID input)) (TrimSpace (in_Source input)) since upto));
  mret (toAuditEventsResponse events).

(** The graph handlers take the header as it is. *)
Definition rawTenant (value : string) : result string :=
  if decide (value = "") then Err (new_error "missing X-Tenant-ID header") else Ok value.

Definition listGraphs (rawTenantID : string) (limit : Z) : Api (list DependencyGraphRootResponse) :=
  tenantID ← checked bad_request (rawTenant rawTenantID);
  roots ← served (humaInternalError "failed to list dependency graphs") (query (λ w, Ok (ListRoots tenantID limit (rec_graphs w))));
  mret (toDependencyGraphRootResponse <$> roots).

Definition graphError (ctx : option error) (err : error) : HttpError :=
  if errors_Is err ErrArtifactNotFound then Error404NotFound "dependency graph not found"
  else humaInternalError "failed to get dependency graph" ctx err.

Definition getGraph (rawTenantID id : string) : Api DependencyGraphResponse :=
  tenantID ← checked bad_request (rawTenant rawTenantID);
  snapshot ← served graphError (query (λ w, GetSnapshot collate tenantID id (rec_graphs w)));
  mret (toDependencyGraphResponse snapshot).

(** *** The endpoints *)

Inductive RecordsEndpoint : Type :=
| EListEvaluations (limit offset search : string)
| EListAuditEvents (input : auditListInput)
| EListGraphs (limit : Z)
| EGetGraph (id : string).

Inductive RecordsBody : Type :=
| Evaluations (l : list DecisionResponse)
| AuditEvents (l : list AuditEventResponse)
| GraphRoots (l : list DependencyGraphRootResponse)
| Graph (g : DependencyGraphResponse).

Definition records_operation (e : RecordsEndpoint) : Operation :=
  match e with
  | EListEvaluations _ _ _ => mkOperation "list-evaluations" "GET" "/api/v1/evaluations" 0 (controlPlaneReadErrors [400; 500])
  | EListAuditEvents _ => mkOperation "list-audit-events" "GET" "/api/v1/audit/events" 0 (controlPlaneReadErrors [400; 500])
  | EListGraphs _ => mkOperation "list-dependency-graphs" "GET" "/api/v1/dependency-graphs" 0 (controlPlaneReadErrors [400; 500])
  | EGetGraph _ => mkOperation "get-dependency-graph" "GET" "/api/v1/dependency-graphs/{id}" 0 (controlPlaneReadErrors [400; 404; 500])
  end.

Definition records_endpoint (rawTenantID : string) (e : RecordsEndpoint) : Api RecordsBody :=
  match e with
  | EListEvaluations limit offset search => l ← listEvaluations rawTenantID limit offset search; mret (Evaluations l)
  | EListAuditEvents input => l ← listAuditEvents rawTenantID input; mret (AuditEvents l)
  | EListGraphs limit => l ← listGraphs rawTenantID limit; mret (GraphRoots l)
  | EGetGraph id => g ← getGraph rawTenantID id; mret (Graph g)
  end.

Definition records_failure (e : RecordsEndpoint) : string :=
  match e with
  | EListEvaluations _ _ _ => "failed to list evaluations"
  | EListAuditEvents _ => "failed to list audit events"
  | EListGraphs _ => "failed to list dependency graphs"
  | EGetGraph _ => "failed to get dependency graph"
  end.

(** The tenant a request is about. *)
Definition scope_of (rawTenantID : string) (e : RecordsEndpoint) : string :=
  match e with EListEvaluations _ _ _ | EListAuditEvents _ => TrimSpace rawTenantID | _ => rawTenantID end.

(** What the stores hold for a tenant: its decisions with the artifacts they are
    about, its audit events, and its graphs with their nodes and edges. *)
Definition own_decisions (t : string) (db : EvidenceDB) : list (DecisionRow * option ArtifactRow) :=
  filter (λ row, dr_TenantID row.1 = t) (joined db).
Definition own_events (t : string) (db : AuditDB) : list AuditRow := filter (λ r, au_TenantID r = t) (audit_rows db).
Definition own_roots (t : string) (db : GraphDB) : list GraphRoot := filter (λ r, gr_TenantID r = t) (db_roots db).
Definition graph_rows (id : string) (db : GraphDB) : list NodeRow * list EdgeRow :=
  (filter (λ n, nr_Root n = id) (db_nodes db), filter (λ e, er_Root e = id) (db_edges db)).

Record same_records (t : string) (w w' : Records) : Prop := {
  same_decisions : own_decisions t (rec_decisions w) = own_decisions t (rec_decisions w');
  same_events : own_events t (rec_events w) = own_events t (rec_events w');
  same_roots : own_roots t (rec_graphs w) = own_roots t (rec_graphs w');
  same_graphs : Forall (λ r, graph_rows (gr_ID r) (rec_graphs w) = graph_rows (gr_ID r) (rec_graphs w')) (own_roots t (rec_graphs w));
  same_context : rec_ctx w = rec_ctx w';
}.

(** ** Lemmas *)

(** A query with a tenant's condition sees the tenant's rows. *)
Lemma filter_own {A} (own P : A → Prop) `{!∀ x, base.Decision (own x), !∀ x, base.Decision (P x)} (l l' : list A) :
  filter own l = filter own l' → (∀ x, P x → own x) → filter P l = filter P l'.
Proof.
  intros Hl HP. assert (∀ k : list A, filter P k = filter P (filter own k)) as E; [|by rewrite (E l), (E l'), Hl].
  intros k. rewrite list_filter_filter. apply list_filter_iff. naive_solver.
Qed.

Lemma decisions_own t limit offset search db db' :
  own_decisions t db = own_decisions t db' →
  EvaluationService_ListByTenant pg_text t limit offset search db = EvaluationService_ListByTenant pg_text t limit offset search db'.
Proof.
  intros H. unfold EvaluationService_ListByTenant, DecisionRepository_ListByTenant.
  rewrite (filter_own (λ row, dr_TenantID row.1 = t) (λ row, dr_TenantID row.1 = t ∧ search_matches search (row_artifact row))
    (joined db) (joined db') H); [done|]. by intros row [? _].
Qed.

Lemma events_own f db db' :
  own_events (fl_TenantID f) db = own_events (fl_TenantID f) db' →
  AuditEventRepository_ListByTenant jsonb_text pg_text pg_time f db = AuditEventRepository_ListByTenant jsonb_text pg_text pg_time f db'.
Proof.
  intros H. unfold AuditEventRepository_ListByTenant.
  rewrite (filter_own (λ r, au_TenantID r = fl_TenantID f) (audit_where jsonb_text pg_time f) _ _ H); [done|]. by intros r [? _].
Qed.

Lemma snapshot_own t id w w' :
  same_records t w w' → GetSnapshot collate t id (rec_graphs w) = GetSnapshot collate t id (rec_graphs w').
Proof.
  intros [_ _ Hr Hg _]. unfold GetSnapshot.
  rewrite <-(filter_own (λ r, gr_TenantID r = t) (λ r, gr_TenantID r = t ∧ gr_ID r = id) _ _ Hr) by (by intros r [? _]).
  destruct (filter _ (db_roots (rec_graphs w))) as [|root l] eqn:E; [done|].
  assert (root ∈ root :: l) as Hroot by constructor. rewrite <-E, list_elem_of_filter in Hroot. destruct Hroot as [[Ht <-] Hroot].
  unfold own_roots in Hg. rewrite Forall_forall in Hg. specialize (Hg root). rewrite list_elem_of_filter in Hg.
  specialize (Hg (conj Ht Hroot)). by injection Hg as -> ->.
Qed.

(** [reads R m st st']: run in either state, the handler answers the same, leaves the
    stores alone, and refuses only with [R]. *)
Definition reads {A} (R : HttpError → Prop) (m : Api A) (st st' : St Records ()) : Prop :=
  ∃ r, m st = (r, st) ∧ m st' = (r, st') ∧ ∀ err, r = Refused err → R err.

Lemma reads_ret {A} R (a : A) st st' : reads R (mret a) st st'.
Proof. by exists (Answered a). Qed.
Lemma reads_checked {A} (R : HttpError → Prop) f (r : result A) st st' : (∀ e, R (f e)) → reads R (checked f r) st st'.
Proof. intros H. eexists. split; [done|]. split; [done|]. intros err. destruct r; [done|]. by intros [= <-]. Qed.
Lemma reads_served {A} (R : HttpError → Prop) g (f : Records → result A) st st' :
  f (world st) = f (world st') → rec_ctx (world st) = rec_ctx (world st') → (∀ ctx e, R (g ctx e)) →
  reads R (served g (query f)) st st'.
Proof.
  intros Hf Hc HR. unfold served, query. simpl. eexists. split; [done|]. rewrite Hf, Hc. split; [done|].
  intros err. destruct (f (world st')); [done|]. by intros [= <-].
Qed.
Lemma reads_bind {A B} R (m : Api A) (f : A → Api B) st st' :
  reads R m st st' → (∀ a, reads R (f a) st st') → reads R (m ≫= f) st st'.
Proof.
  intros (r & E & E' & HR) Hf. unfold mbind, Api_bind, reads. rewrite E, E'. destruct r as [a|e]; [apply Hf|].
  exists (Refused e). naive_solver.
Qed.
(** A handler goes on for the tenant of its header only. *)
Lemma reads_header_tenant {A} (R : HttpError → Prop) raw (f : string → Api A) st st' :
  (∀ e, R (bad_request e)) → reads R (f (TrimSpace raw)) st st' →
  reads R (checked bad_request (tenantIDFromValue raw) ≫= f) st st'.
Proof.
  intros HR Hf. unfold tenantIDFromValue. case_decide; [|exact Hf]. eexists (Refused _). split; [done|]. split; [done|].
  intros err [= <-]. apply HR.
Qed.
Lemma reads_raw_tenant {A} (R : HttpError → Prop) raw (f : string → Api A) st st' :
  (∀ e, R (bad_request e)) → reads R (f raw) st st' → reads R (checked bad_request (rawTenant raw) ≫= f) st st'.
Proof.
  intros HR Hf. unfold rawTenant. case_decide; [|exact Hf]. eexists (Refused _). split; [done|]. split; [done|].
  intros err [= <-]. apply HR.
Qed.

Notation answers e := (proper (records_operation e) (records_failure e)).

Lemma bad_request_answers e err : answers e (bad_request err).
Proof. destruct e; proper_leaf. Qed.
Lemma graph_answers id ctx err : answers (EGetGraph id) (graphError ctx err).
Proof. unfold graphError. proper_error. Qed.

Lemma endpoint_reads raw e st st' :
  same_records (scope_of raw e) (world st) (world st') → reads (answers e) (records_endpoint raw e) st st'.
Proof.
  intros H. pose proof (same_context _ _ _ H) as Hc.
  destruct e as [limit offset search|input|limit|id]; unfold records_endpoint; simpl in H;
    (apply reads_bind; [|intros; apply reads_ret]).
  - apply reads_header_tenant; [apply bad_request_answers|]. destruct (parseEvaluationPagination _ _) as [n m].
    apply reads_bind; [|intros; apply reads_ret].
    apply reads_served; [by apply decisions_own, H|done|intros; apply humaInternalError_proper].
  - apply reads_header_tenant; [apply bad_request_answers|].
    apply reads_bind; [apply reads_checked, bad_request_answers|]. intros since.
    apply reads_bind; [apply reads_checked, bad_request_answers|]. intros upto.
    apply reads_bind; [|intros; apply reads_ret].
    apply reads_served; [|done|intros; apply humaInternalError_proper]. rewrite Hc.
    rewrite (events_own _ _ (rec_events (world st'))); [done|by apply H].
  - apply reads_raw_tenant; [apply bad_request_answers|]. apply reads_bind; [|intros; apply reads_ret].
    apply reads_served; [|done|intros; apply humaInternalError_proper].
    pose proof (same_roots _ _ _ H) as Hr. unfold own_roots in Hr. unfold ListRoots. by rewrite Hr.
  - apply reads_raw_tenant; [apply bad_request_answers|]. apply reads_bind; [|intros; apply reads_ret].
    apply reads_served; [by apply (snapshot_own raw id)|done|intros; apply graph_answers].
Qed.
End handlers.

(** ** Properties *)

(** C12: Listing decisions, audit events and dependency graphs shows a tenant its own
    records and nothing of another's.  Two states of the stores that hold the same
    for the tenant of the header, and anything for others, give the same answer to
    any such request; and a refusal is one the operation documents, which for a
    failure says nothing of its cause. *)
Theorem tenants_read_their_own_records pg_text pg_time jsonb_text collate audit_repository raw e (st st' : St Records ()) :
  same_records (scope_of raw e) (world st) (world st') →
  let endpoint := records_endpoint pg_text pg_time jsonb_text collate audit_repository raw e in
  (endpoint st).1 = (endpoint st').1 ∧ (endpoint st).2 = st ∧
  (∀ err, (endpoint st).1 = Refused err → proper (records_operation e) (records_failure e) err).
Proof.
  intros H endpoint.
  destruct (endpoint_reads pg_text pg_time jsonb_text collate audit_repository raw e st st' H) as (r & E & E' & HR).
  subst endpoint. rewrite E, E'. by split.
Qed.

(** Two tenants with a decision and a graph each, or the first of them alone. *)
Definition decision_row (id t : string) : DecisionRow :=
  mkDecisionRow id t None DecisionDeny None None "too young" [] None None 5.
Definition graph_root (id t : string) : GraphRoot := mkGraphRoot id t "u1" "left-pad" "1.3.0" DependencyGraphPending None None 0 0 None.
Definition records_of (owners : list (string * string)) : St Records () :=
  mkSt (mkRecords (mkEvidenceDB {["t1"; "t2"]} ∅ [] ((λ o, decision_row o.1 o.2) <$> owners) [] [] 0 0) (mkAuditDB {["t1"; "t2"]} [] 0)
    (mkGraphDB ((λ o, graph_root o.1 o.2) <$> owners) [] [] [] ∅ 0) None) [].

Lemma tenants_read_their_own_records_witness :
  let ask := records_endpoint (λ e, new_error "pg") (λ t, t) (λ _, "") str_ltb true in
  let listing := EListEvaluations "10" "" "" in
  (ask "t1" listing (records_of [("r1", "t1"); ("r2", "t2")])).1 = (ask "t1" listing (records_of [("r1", "t1")])).1 ∧
  match (ask "t1" listing (records_of [("r1", "t1"); ("r2", "t2")])).1 with
  | Answered (Evaluations l) => dres_ID <$> l = ["r1"]
  | _ => False
  end ∧
  (ask "t1" (EGetGraph "r2") (records_of [("r1", "t1"); ("r2", "t2")])).1 = Refused (Error404NotFound "dependency graph not found").
Proof.
  intros ask listing. split; [|split; vm_compute; reflexivity].
  apply (tenants_read_their_own_records (λ e, new_error "pg") (λ t, t) (λ _, "") str_ltb true "t1" listing
           (records_of [("r1", "t1"); ("r2", "t2")]) (records_of [("r1", "t1")])).
  split; try (vm_compute; reflexivity). by apply Forall_forall.
Defined.
