(* ===== verification/Health.v ===== *)
(** * Health

    [internal/core/service/health.go], the two endpoints that show it
    ([internal/delivery/api/health.go] on the control plane,
    [internal/delivery/health/handler.go] on a proxy), and
    [internal/bootstrap/health.go], where the control plane asks a proxy for its
    health.  Pinging a dependency and the clock are operations on the world; the
    HTTP transport is what it answers. *)

From S2P Require Import Prelude GoStrings Json JsonDecode JsonParse GoTime TimeParse Upstream Bundle.
#[local] Open Scope list_scope.

(** ** Definitions *)

(** *** core/service/health.go *)

Definition statusHealthy : string := "healthy".
Definition statusDegraded : string := "degraded".
Definition statusError : string := "error".

Record DependencyStatus : Type := mkDependencyStatus {
  ds_Status : string;
  ds_Message : string;
  ds_Duration : Z;
  ds_Timestamp : time;
}.

(** [ComponentStatus] is in [Bundle]. *)
Record HealthStatus : Type := mkHealthStatus {
  hs_Status : string;
  hs_ServiceName : string;
  hs_Version : string;
  hs_Commit : string;
  hs_BuildTime : string;
  hs_GoVersion : string;
  hs_OS : string;
  hs_Arch : string;
  hs_Timestamp : time;
  hs_Dependencies : gmap string DependencyStatus;
  hs_Bundle : option ComponentStatus;
  hs_Proxy : option ComponentStatus;
}.

Section service.
Context {W : Type}.

(** [time.Now], [Ping] and [CheckStatus]. *)
Context (Now : W → time * W).
Definition HealthChecker : Type := W → option error * W.
Definition ComponentStatusChecker : Type := W → ComponentStatus * W.

Record HealthService : Type := mkHealthService {
  serviceName : string;
  version : string;
  commit : string;
  buildTime : string;
  dbChecker : option HealthChecker;
  cacheChecker : option HealthChecker;
  bundleStatus : option ComponentStatusChecker;
  proxyChecker : option ComponentStatusChecker;
  proxyStatus : option ComponentStatus;
}.

(** [WithProxyStatus] *)
Definition WithProxyStatus (status message : string) (s : HealthService) : HealthService :=
  mkHealthService (serviceName s) (version s) (commit s) (buildTime s) (dbChecker s) (cacheChecker s) (bundleStatus s)
    (proxyChecker s) (Some (mkComponentStatus status message zero_time)).
Definition WithProxyStatusChecker (checker : ComponentStatusChecker) (s : HealthService) : HealthService :=
  mkHealthService (serviceName s) (version s) (commit s) (buildTime s) (dbChecker s) (cacheChecker s) (bundleStatus s)
    (Some checker) (proxyStatus s).
Definition WithBundleStatusChecker (checker : ComponentStatusChecker) (s : HealthService) : HealthService :=
  mkHealthService (serviceName s) (version s) (commit s) (buildTime s) (dbChecker s) (cacheChecker s) (Some checker)
    (proxyChecker s) (proxyStatus s).
Definition NewHealthService (name version commit buildTime : string) (db cache : option HealthChecker)
    (opts : list (HealthService → HealthService)) : HealthService :=
  foldl (λ s opt, opt s) (mkHealthService name version commit buildTime db cache None None None) opts.

Definition checkDependency (checker : HealthChecker) (w : W) : DependencyStatus * W :=
  let '(start, w) := Now w in
  let '(err, w) := checker w in
  let '(stop, w) := Now w in
  let '(at_, w) := Now w in
  let duration := Z.quot (stop - start) 1000000 in
  (match err with
   | Some e => mkDependencyStatus statusError (error_msg e) duration at_
   | None => mkDependencyStatus statusHealthy "" duration at_
   end, w).

Definition check_into (name : string) (checker : option HealthChecker) (deps : gmap string DependencyStatus) (w : W)
    : gmap string DependencyStatus * W :=
  match checker with
  | Some c => let '(d, w) := checkDependency c w in (<[name := d]> deps, w)
  | None => (deps, w)
  end.

Definition failures (deps : gmap string DependencyStatus) : nat :=
  size (filter (λ kv, ds_Status kv.2 ≠ statusHealthy) deps).

Definition overall_status (failCount : nat) : string :=
  match failCount with 1%nat => statusDegraded | 2%nat => statusError | _ => statusHealthy end.

(** A component that gives no time is shown with the time of the check. *)
Definition component_at (now : time) (component : ComponentStatus) : ComponentStatus :=
  if decide (cs_Timestamp component = zero_time) then mkComponentStatus (cs_Status component) (cs_Message component) now
  else component.

Definition proxy_component (s : HealthService) (now : time) (w : W) : option ComponentStatus * W :=
  match proxyChecker s, proxyStatus s with
  | Some check, _ => let '(component, w) := check w in (Some (component_at now component), w)
  | None, Some p => (Some (mkComponentStatus (cs_Status p) (cs_Message p) now), w)
  | None, None => (None, w)
  end.

Definition bundle_component (s : HealthService) (now : time) (w : W) : option ComponentStatus * W :=
  match bundleStatus s with
  | Some check => let '(component, w) := check w in (Some (component_at now component), w)
  | None => (None, w)
  end.

(** What [runtime] says of the process. *)
Context (GoVersion GOOS GOARCH : string).

Definition CheckHealth (s : HealthService) (w : W) : HealthStatus * W :=
  let '(now, w) := Now w in
  let '(deps, w) := check_into "postgresql" (dbChecker s) ∅ w in
  let '(deps, w) := check_into "valkey" (cacheChecker s) deps w in
  let overall := overall_status (failures deps) in
  let '(proxy, w) := proxy_component s now w in
  let '(bundle, w) := bundle_component s now w in
  (mkHealthStatus overall (serviceName s) (version s) (commit s) (buildTime s) GoVersion GOOS GOARCH now deps bundle proxy, w).
End service.
Arguments HealthService : clear implicits.

(** *** The responses

    [delivery/api] answers with times, [delivery/health] with texts of them: [T] is
    the type and [show] what is shown of a time. *)

Section responses.
Context {T : Type} (show : time → T).

Record dependencyResponse : Type := mkDependencyResponse {
  dr_Status : string; dr_Message : string; dr_Duration : Z; dr_Timestamp : T }.
Record componentResponse : Type := mkComponentResponse {
  cr_Status : string; cr_Message : string; cr_Timestamp : T }.

Record healthResponse : Type := mkHealthResponse {
  hr_Status : string;
  hr_ServiceName : string;
  hr_Version : string;
  hr_Commit : string;
  hr_BuildTime : string;
  hr_GoVersion : string;
  hr_OS : string;
  hr_Arch : string;
  hr_Timestamp : T;
  hr_Dependencies : gmap string dependencyResponse;
  hr_Bundle : option componentResponse;
  hr_Proxy : option componentResponse;
}.

Definition dependency_response (d : DependencyStatus) : dependencyResponse :=
  mkDependencyResponse (ds_Status d) (ds_Message d) (ds_Duration d) (show (ds_Timestamp d)).
Definition component_response (c : ComponentStatus) : componentResponse :=
  mkComponentResponse (cs_Status c) (cs_Message c) (show (cs_Timestamp c)).

Definition health_response (s : HealthStatus) : healthResponse :=
  mkHealthResponse (hs_Status s) (hs_ServiceName s) (hs_Version s) (hs_Commit s) (hs_BuildTime s) (hs_GoVersion s) (hs_OS s)
    (hs_Arch s) (show (hs_Timestamp s)) (dependency_response <$> hs_Dependencies s)
    (component_response <$> hs_Bundle s) (component_response <$> hs_Proxy s).
End responses.
Arguments dependencyResponse : clear implicits.
Arguments componentResponse : clear implicits.
Arguments healthResponse : clear implicits.

(** [503] unless healthy, on both endpoints. *)
Definition health_http_status (s : HealthStatus) : Z := if decide (hs_Status s ≠ "healthy") then 503 else 200.

(** *** delivery/api/health.go *)

Definition toHealthResponse : HealthStatus → healthResponse time := health_response (λ t, t).
Definition apiHealthCheck (s : HealthStatus) : Z * healthResponse time := (health_http_status s, toHealthResponse s).

(** *** delivery/health/handler.go *)

Definition healthResponseFromStatus : HealthStatus → healthResponse string := health_response rfc3339.

Definition dependency_json (d : dependencyResponse string) : json :=
  JObject (field "status" (JString (dr_Status d)) ++ omit_string "message" (dr_Message d) ++
           field "duration_ms" (JInt (dr_Duration d)) ++ field "timestamp" (JString (dr_Timestamp d))).
Definition component_json (c : componentResponse string) : json :=
  JObject (field "status" (JString (cr_Status c)) ++ omit_string "message" (cr_Message c) ++
           field "timestamp" (JString (cr_Timestamp c))).
Definition health_json (r : healthResponse string) : json :=
  JObject (field "status" (JString (hr_Status r)) ++ field "service_name" (JString (hr_ServiceName r)) ++
           field "version" (JString (hr_Version r)) ++ field "commit" (JString (hr_Commit r)) ++
           field "build_time" (JString (hr_BuildTime r)) ++ field "go_version" (JString (hr_GoVersion r)) ++
           field "os" (JString (hr_OS r)) ++ field "arch" (JString (hr_Arch r)) ++
           field "timestamp" (JString (hr_Timestamp r)) ++ field "dependencies" (json_map dependency_json (hr_Dependencies r)) ++
           omit_option "bundle" component_json (hr_Bundle r) ++ omit_option "proxy" component_json (hr_Proxy r)).

Definition newline : string := String (ascii_at 10) "".

(** The status and the body; an encoding that fails writes nothing. *)
Definition handleHealthCheck (s : HealthStatus) : Z * string :=
  (health_http_status s,
   match json_Marshal (health_json (healthResponseFromStatus s)) with Ok text => text +:+ newline | Err _ => "" end).

(** *** bootstrap/health.go *)

Record proxyPart : Type := mkProxyPart { pp_Status : string; pp_Message : string; pp_Timestamp : time }.
Record bundlePart : Type := mkBundlePart { bp_Status : string; bp_Message : string }.
Record proxyHealthResponse : Type := mkProxyHealth {
  ph_Status : string; ph_Proxy : option proxyPart; ph_Bundle : option bundlePart }.

Section client.
(** Texts of errors: of a document that is none, and of a text that is no time in
    the layout [RFC3339]. *)
Context (decode_error time_error : string → error).

(** [Time.UnmarshalJSON] *)
Definition dec_time (v : json) (old : time) : result time :=
  match v with
  | JNull => Ok old
  | JString text => match time_Parse text with Ok t => Ok t | Err _ => Err (time_error text) end
  | _ => Err (new_error "Time.UnmarshalJSON: input is not a JSON string")
  end.

Definition proxy_fields : fields proxyPart :=
  [("status", λ v p, s ← dec_string (into_field "" "proxy.status") "string" v (pp_Status p);
      Ok (mkProxyPart s (pp_Message p) (pp_Timestamp p)));
   ("message", λ v p, s ← dec_string (into_field "" "proxy.message") "string" v (pp_Message p);
      Ok (mkProxyPart (pp_Status p) s (pp_Timestamp p)));
   ("timestamp", λ v p, t ← dec_time v (pp_Timestamp p); Ok (mkProxyPart (pp_Status p) (pp_Message p) t))].

Definition bundle_fields : fields bundlePart :=
  [("status", λ v b, s ← dec_string (into_field "" "bundle.status") "string" v (bp_Status b); Ok (mkBundlePart s (bp_Message b)));
   ("message", λ v b, s ← dec_string (into_field "" "bundle.message") "string" v (bp_Message b); Ok (mkBundlePart (bp_Status b) s))].

Definition payload_fields : fields proxyHealthResponse :=
  [("status", λ v p, s ← dec_string (into_field "proxyHealthResponse" "status") "string" v (ph_Status p);
      Ok (mkProxyHealth s (ph_Proxy p) (ph_Bundle p)));
   ("proxy", λ v p, x ← dec_pointer (unmarshal_struct "struct {...}" proxy_fields) (mkProxyPart "" "" zero_time) v (ph_Proxy p);
      Ok (mkProxyHealth (ph_Status p) x (ph_Bundle p)));
   ("bundle", λ v p, x ← dec_pointer (unmarshal_struct "struct {...}" bundle_fields) (mkBundlePart "" "") v (ph_Bundle p);
      Ok (mkProxyHealth (ph_Status p) (ph_Proxy p) x))].

Definition decode_payload (body : string) : result proxyHealthResponse :=
  match Decode body with
  | None => Err (decode_error body)
  | Some v => unmarshal_struct "bootstrap.proxyHealthResponse" payload_fields v (mkProxyHealth "" None None)
  end.

(** What asking the proxy led to: no request, no answer, or the status line and the
    body, as far as it could be read. *)
Inductive ProxyAnswer : Type :=
| NoRequest (err : error)
| NoAnswer (err : error)
| ProxyAnswered (status body : string).

Definition unreachable (prefix : string) (err : error) : ComponentStatus :=
  mkComponentStatus "unreachable" (prefix +:+ error_msg err) zero_time.

(** The status of a bundle worth mentioning. *)
Definition bundle_note (payload : proxyHealthResponse) : option string :=
  match ph_Bundle payload with
  | Some b => if decide (TrimSpace (bp_Status b) = "") then None else Some (bp_Status b)
  | None => None
  end.

Definition proxyHealthChecker_CheckStatus (answer : ProxyAnswer) : ComponentStatus :=
  match answer with
  | NoRequest err => unreachable "building proxy health request: " err
  | NoAnswer err => unreachable "proxy health check failed: " err
  | ProxyAnswered line body =>
      match decode_payload body with
      | Err err => unreachable "decoding proxy health response: " err
      | Ok payload =>
          match ph_Proxy payload with
          | Some p =>
              let message := TrimSpace (pp_Message p) in
              let message := match bundle_note payload with
                             | Some b => if decide (message = "") then "bundle=" +:+ b else message +:+ "; bundle=" +:+ b
                             | None => message
                             end in
              mkComponentStatus (pp_Status p) message (pp_Timestamp p)
          | None =>
              let status := TrimSpace (ph_Status payload) in
              let status := if decide (status = "") then line else status in
              let message := "proxy health endpoint reachable" in
              let message := match bundle_note payload with Some b => message +:+ "; bundle=" +:+ b | None => message end in
              mkComponentStatus status message zero_time
          end
      end
  end.
End client.

(** ** Lemmas *)

(** *** The state of the dependencies *)

Lemma failures_0 deps : failures deps = 0%nat ↔ map_Forall (λ _ d, ds_Status d = statusHealthy) deps.
Proof.
  unfold failures. rewrite map_size_empty_iff, map_empty. split; intros H i.
  - intros d Hd. specialize (H i). rewrite map_lookup_filter_None in H. destruct H as [H|H]; [congruence|].
    specialize (H d Hd). simpl in H. by destruct (decide (ds_Status d = statusHealthy)).
  - rewrite map_lookup_filter_None. right. intros d Hd Hne. by apply Hne, (H i d).
Qed.

Section check.
Context {W : Type} (Now : W → time * W) (GoVersion GOOS GOARCH : string).

(** What a dependency's check says: healthy, or an error with the reason. *)
Definition judged (checker : HealthChecker (W:=W)) (d : DependencyStatus) : Prop :=
  ∃ w err, err = (checker w).1 ∧ match err with
    | None => ds_Status d = statusHealthy ∧ ds_Message d = ""
    | Some e => ds_Status d = statusError ∧ ds_Message d = error_msg e
    end.

Lemma checkDependency_judged checker w : judged checker (checkDependency Now checker w).1.
Proof.
  unfold checkDependency. destruct (Now w) as [t0 w0]. destruct (checker w0) as [err w1] eqn:E.
  destruct (Now w1) as [t1 w2], (Now w2) as [t2 w3]. exists w0, err. split; [by rewrite E|]. by destruct err.
Qed.

Definition configured (s : HealthService W) (name : string) : option (HealthChecker (W:=W)) :=
  if decide (name = "postgresql") then dbChecker s else if decide (name = "valkey") then cacheChecker s else None.

Lemma CheckHealth_dependencies s w name :
  let h := (CheckHealth Now GoVersion GOOS GOARCH s w).1 in
  match configured s name, hs_Dependencies h !! name with
  | Some checker, Some d => judged checker d
  | None, None => True
  | _, _ => False
  end ∧ hs_Status h = overall_status (failures (hs_Dependencies h)).
Proof.
  intros h. subst h. unfold CheckHealth, check_into. destruct (Now w) as [now w0].
  destruct (dbChecker s) as [db|] eqn:Hdb; [pose proof (checkDependency_judged db w0) as J1; destruct (checkDependency Now db w0) as [d1 w1]|];
    (destruct (cacheChecker s) as [cc|] eqn:Hc; [match goal with |- context [checkDependency Now cc ?v] =>
       pose proof (checkDependency_judged cc v) as J2; destruct (checkDependency Now cc v) as [d2 w2] end|]);
    destruct (proxy_component _ _ _) as [proxy w3], (bundle_component _ _ _) as [bundle w4]; simpl; (split; [|done]);
    unfold configured; rewrite Hdb, Hc; repeat case_decide; subst; simplify_map_eq; done.
Qed.

(** Two dependencies at most, so that the count of failures is judged as meant. *)
Lemma failures_le s w : (failures (hs_Dependencies (CheckHealth Now GoVersion GOOS GOARCH s w).1) <= 2)%nat.
Proof.
  set (deps := hs_Dependencies _). unfold failures. rewrite <-(size_dom (D:=gset string)).
  transitivity (size ({["postgresql"; "valkey"]} : gset string)); [|vm_compute; lia]. apply subseteq_size.
  intros name [d Hd]%elem_of_dom. apply map_lookup_filter_Some in Hd as [Hd _].
  pose proof (proj1 (CheckHealth_dependencies s w name)) as H. fold deps in H. rewrite Hd in H.
  unfold configured in H. repeat case_decide; set_solver.
Qed.
End check.

(** *** Reading the proxy's answer *)

Lemma Decode_written j t rest :
  writable j = true → float_free j = true → json_Marshal j = Ok t → ends_number rest → Decode (t +:+ rest) = Some j.
Proof.
  intros Hw Hf Ht Hr. destruct (json_readable j Hw) as (t' & j' & Ht' & Hj & _ & Hg). rewrite Ht in Ht'. injection Ht' as <-.
  rewrite (reads_exact j j' Hf Hj) in Hg. unfold Decode. destruct (Hg (S (String.length (t +:+ rest)))) as [_ Hp].
  { rewrite sapp_length. lia. }
  by rewrite Hp.
Qed.

Lemma unmarshal_skip {S} (fs : fields S) k v kvs s : find_field k fs = None → unmarshal_fields fs ((k, v) :: kvs) s = unmarshal_fields fs kvs s.
Proof. intros H. cbn [unmarshal_fields]. by rewrite H. Qed.
Lemma unmarshal_take {S} (fs : fields S) k d v kvs s :
  find_field k fs = Some d → unmarshal_fields fs ((k, v) :: kvs) s = (s' ← d v s; unmarshal_fields fs kvs s').
Proof. intros H. cbn [unmarshal_fields]. by rewrite H. Qed.

Lemma health_json_float_free r : float_free (health_json r) = true.
Proof.
  destruct r as [? ? ? ? ? ? ? ? ? deps b p]. unfold health_json. cbn [float_free].
  assert (float_free (json_map dependency_json deps) = true) as Hd.
  { unfold json_map. cbn [float_free]. induction (sort_by _ (map_to_list deps)) as [|[k [? [|] ? ?]] l IH]; [done|exact IH|exact IH]. }
  simpl in *. rewrite Hd. destruct b as [[? [|] ?]|], p as [[? [|] ?]|]; done.
Qed.

#[local] Ltac take :=
  erewrite unmarshal_take by reflexivity; cbn [dec_string dec_time mbind result_bind pp_Status pp_Message pp_Timestamp bp_Status bp_Message].

Section seen.
Context (decode_error time_error : string → error).
Notation fields := (payload_fields time_error).

(** The parts of the answer the control plane reads. *)
Lemma component_read (c : ComponentStatus) :
  0 ≤ year_of (cs_Timestamp c) < 10000 →
  unmarshal_struct "struct {...}" (proxy_fields time_error) (component_json (component_response rfc3339 c)) (mkProxyPart "" "" zero_time)
  = Ok (mkProxyPart (cs_Status c) (cs_Message c) (cs_Timestamp c)).
Proof.
  intros Hy. destruct c as [status message t]. simpl in Hy. unfold component_json, component_response, field, omit_string, omit_if.
  cbn [cr_Status cr_Message cr_Timestamp cs_Status cs_Message cs_Timestamp unmarshal_struct app].
  destruct (bool_decide (message = "")) eqn:E; [apply bool_decide_eq_true in E as ->|]; cbn [app];
    repeat (take; try rewrite (time_Parse_rfc3339 t Hy)); done.
Qed.

Lemma bundle_read (c : ComponentStatus) :
  unmarshal_struct "struct {...}" bundle_fields (component_json (component_response rfc3339 c)) (mkBundlePart "" "")
  = Ok (mkBundlePart (cs_Status c) (cs_Message c)).
Proof.
  destruct c as [status message t]. unfold component_json, component_response, field, omit_string, omit_if.
  cbn [cr_Status cr_Message cr_Timestamp cs_Status cs_Message cs_Timestamp unmarshal_struct app].
  destruct (bool_decide (message = "")) eqn:E; [apply bool_decide_eq_true in E as ->|]; cbn [app];
    repeat (take || (rewrite unmarshal_skip by reflexivity)); done.
Qed.

Lemma component_pointer c :
  0 ≤ year_of (cs_Timestamp c) < 10000 →
  dec_pointer (unmarshal_struct "struct {...}" (proxy_fields time_error)) (mkProxyPart "" "" zero_time)
    (component_json (component_response rfc3339 c)) None = Ok (Some (mkProxyPart (cs_Status c) (cs_Message c) (cs_Timestamp c))).
Proof. intros H. exact (f_equal (fmap (M:=result) Some) (component_read c H)). Qed.
Lemma bundle_pointer c :
  dec_pointer (unmarshal_struct "struct {...}" bundle_fields) (mkBundlePart "" "")
    (component_json (component_response rfc3339 c)) None = Ok (Some (mkBundlePart (cs_Status c) (cs_Message c))).
Proof. exact (f_equal (fmap (M:=result) Some) (bundle_read c)). Qed.

(** The status and the components are what the control plane makes of the body. *)
Lemma health_read h t :
  (∀ p, hs_Proxy h = Some p → 0 ≤ year_of (cs_Timestamp p) < 10000) →
  writable (health_json (healthResponseFromStatus h)) = true → json_Marshal (health_json (healthResponseFromStatus h)) = Ok t →
  decode_payload decode_error time_error (t +:+ newline) =
    Ok (mkProxyHealth (hs_Status h) ((λ p, mkProxyPart (cs_Status p) (cs_Message p) (cs_Timestamp p)) <$> hs_Proxy h)
          ((λ b, mkBundlePart (cs_Status b) (cs_Message b)) <$> hs_Bundle h)).
Proof.
  intros Hy Hw Ht. unfold decode_payload. rewrite (Decode_written _ t newline Hw (health_json_float_free _) Ht) by done.
  unfold health_json, healthResponseFromStatus, health_response, field.
  cbn [hr_Status hr_ServiceName hr_Version hr_Commit hr_BuildTime hr_GoVersion hr_OS hr_Arch hr_Timestamp hr_Dependencies hr_Bundle
       hr_Proxy unmarshal_struct app].
  take. do 9 (rewrite unmarshal_skip by reflexivity).
  destruct (hs_Bundle h) as [b|], (hs_Proxy h) as [p|]; cbn [omit_option fmap option_fmap option_map app];
    repeat (take; cbn [ph_Status ph_Proxy ph_Bundle]; rewrite ?bundle_pointer, ?component_pointer by (by apply Hy);
            cbn [mbind result_bind]); done.
Qed.
End seen.

(** ** Properties *)

(** What the control plane notes of a component of the proxy beside its message. *)
Definition with_bundle_note (message : string) (bundle : option ComponentStatus) : string :=
  match bundle with
  | Some b => if decide (TrimSpace (cs_Status b) = "") then message
              else if decide (message = "") then "bundle=" +:+ cs_Status b else message +:+ "; bundle=" +:+ cs_Status b
  | None => message
  end.

(** The health endpoint is honest about the dependencies, and the control plane
    shows of a proxy what the proxy says.  Each configured dependency, and no other,
    is reported, as healthy exactly when its ping succeeded and else with the reason;
    the answer is 200 exactly when all of them are healthy.  What the control plane
    reads from the body a proxy sends, whatever the status line, is the proxy's
    component as the proxy had it, its message trimmed and with the state of the
    bundle. *)
Theorem control_plane_sees_the_proxy {W} (Now : W → time * W) GoVersion GOOS GOARCH decode_error time_error (s : HealthService W) w line :
  let h := (CheckHealth Now GoVersion GOOS GOARCH s w).1 in
  (∀ name, match configured s name, hs_Dependencies h !! name with
           | Some checker, Some d => judged checker d
           | None, None => True
           | _, _ => False
           end) ∧
  (health_http_status h = 200 ↔ map_Forall (λ _ d, ds_Status d = "healthy") (hs_Dependencies h)) ∧
  (∀ p, hs_Proxy h = Some p → 0 ≤ year_of (cs_Timestamp p) < 10000 →
     writable (health_json (healthResponseFromStatus h)) = true →
     proxyHealthChecker_CheckStatus decode_error time_error (ProxyAnswered line (handleHealthCheck h).2) =
       mkComponentStatus (cs_Status p) (with_bundle_note (TrimSpace (cs_Message p)) (hs_Bundle h)) (cs_Timestamp p)).
Proof.
  intros h. split; [|split].
  - intros name. exact (proj1 (CheckHealth_dependencies Now GoVersion GOOS GOARCH s w name)).
  - pose proof (proj2 (CheckHealth_dependencies Now GoVersion GOOS GOARCH s w "")) as E. fold h in E.
    rewrite <-(failures_0 (hs_Dependencies h)). unfold health_http_status. rewrite E.
    pose proof (failures_le Now GoVersion GOOS GOARCH s w) as Hle. fold h in Hle.
    destruct (failures (hs_Dependencies h)) as [|[|[|n]]]; [by split|by split..|lia].
  - intros p Hp Hy Hw. destruct (written_reads _ Hw) as (t & _ & Ht & _). unfold handleHealthCheck. rewrite Ht. simpl.
    rewrite (health_read decode_error time_error h t) by (done || (intros q Hq; by assert (p = q) as <- by congruence)).
    rewrite Hp. unfold with_bundle_note, bundle_note. simpl. destruct (hs_Bundle h) as [b|]; simpl; [|done].
    by repeat case_decide.
Qed.

(** A proxy whose database does not answer, and what the control plane shows of it. *)
Definition ticking (n : Z) : time * Z := (1700000000000000000 + n, n + 1000000).
Definition ailing_proxy : HealthService Z :=
  NewHealthService "proxy" "1.4.0" "" "" (Some (λ w, (Some (new_error "connection refused"), w))) None
    [WithProxyStatus "running" "proxy routes are served by this process";
     WithBundleStatusChecker (λ w, (mkComponentStatus "ready" "" 5, w))].

Lemma control_plane_sees_the_proxy_witness :
  let h := (CheckHealth ticking "go1.25" "linux" "amd64" ailing_proxy 0).1 in
  health_http_status h = 503 ∧ hs_Status h = "degraded" ∧
  proxyHealthChecker_CheckStatus (λ _, new_error "syntax") (λ _, new_error "time")
    (ProxyAnswered "503 Service Unavailable" (handleHealthCheck h).2) =
  mkComponentStatus "running" "proxy routes are served by this process; bundle=ready" 1700000000000000000.
Proof.
  intros h. split; [reflexivity|]. split; [reflexivity|].
  exact (proj2 (proj2 (control_plane_sees_the_proxy ticking "go1.25" "linux" "amd64" (λ _, new_error "syntax") (λ _, new_error "time")
    ailing_proxy 0 "503 Service Unavailable")) (mkComponentStatus "running" "proxy routes are served by this process" 1700000000000000000)
    eq_refl ltac:(vm_compute; split; [discriminate|reflexivity]) ltac:(vm_compute; reflexivity)).
Defined.
