(* ===== verification/ApiTenants.v ===== *)
(** * The tenant and cache endpoints of the control plane

    [internal/delivery/api]: tenant.go and response_tenant.go over the tenants of
    [TenantStore], cache.go over the caches of [Valkey], with the services
    [core/service/tenant.go] and [core/service/cache.go]. *)

From S2P Require Import Prelude GoStrings Artifact Dependency Upstream PolicyConfig Policy Evaluator Effects Ports Valkey.
From S2P Require Import AdminTables PgValues TenantStore ApiHttp.
#[local] Open Scope list_scope.

(** ** Definitions *)

(** *** Tenants *)

Record TenantResponse : Type := mkTenantResponse {
  tres_ID : string; tres_Name : string; tres_CreatedAt : time; tres_UpdatedAt : time }.

Definition toTenantResponse (t : Tenant) : TenantResponse :=
  mkTenantResponse (tenant_ID t) (tenant_Name t) (tenant_CreatedAt t) (tenant_UpdatedAt t).
Definition toTenantsResponse (tenants : list Tenant) : list TenantResponse := toTenantResponse <$> tenants.

(** [createTenantRequest] has a name only. *)
Definition createTenantRequest_rules (name : string) : list FieldRule :=
  [mkRule "createTenantRequest.name" "notblank" "" (FString name)].

(** The table, and the error of the request's context. *)
Record TenantWorld : Type := mkTenantWorld { tw_db : TenantDB; tw_ctx : option error }.
#[export] Instance tenant_context : RequestContext TenantWorld := {| request_Err := tw_ctx |}.

Definition tenantError (name_conflict not_found : bool) (message : string) (ctx : option error) (err : error) : HttpError :=
  if name_conflict && errors_Is err ErrTenantNameConflict then Error409Conflict "tenant name already exists"
  else if not_found && errors_Is err ErrTenantNotFound then Error404NotFound "tenant not found"
  else humaInternalError message ctx err.

Section tenants.
Context (uuid : nat → string) (pg_text : PgError → error) (collate : string → string → bool).
Context (restricted : string → option PgError) {V : Validator}.
Notation Api := (Api TenantWorld ()).
Notation M := (M TenantWorld ()).

(** A service on the table. *)
Definition on_tenants {A} (f : TenantDB → result A * TenantDB) : M A := λ st,
  let '(r, db) := f (tw_db (world st)) in (r, mkSt (mkTenantWorld db (tw_ctx (world st))) (calls st)).
Definition from_tenants {A} (f : TenantDB → result A) : M A := on_tenants (λ db, (f db, db)).

Definition createTenant (name : string) : Api TenantResponse :=
  _ ← checked bad_request (validateRequest (createTenantRequest_rules name));
  tenant ← served (tenantError true false "failed to create tenant")
             (on_tenants (TenantService_Create uuid pg_text (mkTenant "" name zero_time zero_time)));
  mret (toTenantResponse tenant).

Definition listTenants : Api (list TenantResponse) :=
  tenants ← served (tenantError false false "failed to list tenants") (from_tenants (TenantService_List collate));
  mret (toTenantsResponse tenants).

Definition getTenant (id : string) : Api TenantResponse :=
  tenant ← served (tenantError false true "failed to get tenant") (from_tenants (TenantService_GetByID id));
  mret (toTenantResponse tenant).

(** The answer is made of the request's tenant, which the update does not fill in. *)
Definition updateTenant (id name : string) : Api TenantResponse :=
  _ ← checked bad_request (validateRequest (createTenantRequest_rules name));
  let tenant := mkTenant id name zero_time zero_time in
  _ ← served (tenantError true true "failed to update tenant") (on_tenants (TenantService_Update pg_text tenant));
  mret (toTenantResponse tenant).

Definition deleteTenant (id : string) : Api () :=
  served (tenantError false true "failed to delete tenant") (on_tenants (TenantService_Delete pg_text restricted id)).

Inductive TenantEndpoint : Type :=
| ECreateTenant (name : string)
| EListTenants
| EGetTenant (id : string)
| EUpdateTenant (id name : string)
| EDeleteTenant (id : string).

Definition tenant_operation (e : TenantEndpoint) : Operation :=
  match e with
  | ECreateTenant _ => mkOperation "create-tenant" "POST" "/api/v1/tenants" 201 (controlPlaneErrors [400; 409; 500])
  | EListTenants => mkOperation "list-tenants" "GET" "/api/v1/tenants" 0 (controlPlaneReadErrors [500])
  | EGetTenant _ => mkOperation "get-tenant" "GET" "/api/v1/tenants/{id}" 0 (controlPlaneReadErrors [404; 500])
  | EUpdateTenant _ _ => mkOperation "update-tenant" "PUT" "/api/v1/tenants/{id}" 0 (controlPlaneErrors [400; 409; 404; 500])
  | EDeleteTenant _ => mkOperation "delete-tenant" "DELETE" "/api/v1/tenants/{id}" 204 (controlPlaneErrors [404; 500])
  end.

Definition tenant_failure (e : TenantEndpoint) : string :=
  match e with
  | ECreateTenant _ => "failed to create tenant"
  | EListTenants => "failed to list tenants"
  | EGetTenant _ => "failed to get tenant"
  | EUpdateTenant _ _ => "failed to update tenant"
  | EDeleteTenant _ => "failed to delete tenant"
  end.

Inductive TenantBody : Type :=
| OneTenant (t : TenantResponse)
| ManyTenants (l : list TenantResponse)
| NoTenant.

Definition tenant_endpoint (e : TenantEndpoint) : Api TenantBody :=
  match e with
  | ECreateTenant name => t ← createTenant name; mret (OneTenant t)
  | EListTenants => l ← listTenants; mret (ManyTenants l)
  | EGetTenant id => t ← getTenant id; mret (OneTenant t)
  | EUpdateTenant id name => t ← updateTenant id name; mret (OneTenant t)
  | EDeleteTenant id => _ ← deleteTenant id; mret NoTenant
  end.
End tenants.

(** *** Caches: core/service/cache.go and delivery/api/cache.go *)

Record cacheClearResponse : Type := mkCacheClear { cc_Status : string; cc_Cache : string }.

Section caches.
Context {W : Type} `{!KV W, !RequestContext W}.
Notation Api := (Api W ()).

Definition ClearTenantDecisions (tenantID : string) : M W () () :=
  wrapping "clearing tenant decision cache: " (DecisionCache_InvalidateTenant tenantID).
Definition ClearTenantMetadata (tenantID : string) : M W () () :=
  wrapping "clearing tenant metadata cache: " (MetadataCache_InvalidateTenant tenantID).

Definition clearDecisionCacheHuma (rawTenantID : string) : Api cacheClearResponse :=
  tenantID ← checked bad_request (tenantIDFromValue rawTenantID);
  _ ← served (humaInternalError "failed to clear decision cache") (ClearTenantDecisions tenantID);
  mret (mkCacheClear "cleared" "decisions").

Definition clearMetadataCacheHuma (rawTenantID : string) : Api cacheClearResponse :=
  tenantID ← checked bad_request (tenantIDFromValue rawTenantID);
  _ ← served (humaInternalError "failed to clear metadata cache") (ClearTenantMetadata tenantID);
  mret (mkCacheClear "cleared" "metadata").
End caches.

Definition cache_operations : list Operation :=
  [mkOperation "clear-decision-cache" "DELETE" "/api/v1/cache/decisions" 0 (controlPlaneErrors [400; 500]);
   mkOperation "clear-metadata-cache" "DELETE" "/api/v1/cache/metadata" 0 (controlPlaneErrors [400; 500])].

(** ** Lemmas *)

Section lemmas.
Context (uuid : nat → string) (pg_text : PgError → error) (collate : string → string → bool).
Context (restricted : string → option PgError) {V : Validator}.

(** A service that fails leaves the table alone. *)
Definition settled {A} (f : TenantDB → result A * TenantDB) : Prop := ∀ db e, (f db).1 = Err e → (f db).2 = db.

Lemma settled_services t id :
  settled (TenantService_Create uuid pg_text t) ∧ settled (TenantService_Update pg_text t) ∧
  settled (TenantService_Delete pg_text restricted id).
Proof.
  unfold settled, TenantService_Create, TenantService_Update, TenantService_Delete, wrap_first, TenantRepository_Create,
    TenantRepository_Update, TenantRepository_Delete. split; [|split]; intros db e; cbn [fst snd]; repeat case_match; done.
Qed.

(** A handler that serves from the table: it answers what the service returns, or
    refuses in the state it was asked in. *)
Lemma served_tenants {A B} g (f : TenantDB → result A * TenantDB) (k : A → B) (st : St TenantWorld ()) :
  settled f →
  (a ← served g (on_tenants f); mret (k a)) st =
  match f (tw_db (world st)) with
  | (Ok a, db) => (Answered (k a), mkSt (mkTenantWorld db (tw_ctx (world st))) (calls st))
  | (Err e, _) => (Refused (g (tw_ctx (world st)) e), st)
  end.
Proof.
  intros Hf. specialize (Hf (tw_db (world st))). unfold served, on_tenants, mbind, Api_bind, mret, Api_ret.
  destruct (f (tw_db (world st))) as [[a|e] db]; [done|]. specialize (Hf e eq_refl). simpl in Hf. subst db.
  destruct st as [[db ctx] l]. done.
Qed.

(** A blank name is a bad request, any other goes on. *)
Lemma checked_name {B} name (m : Api TenantWorld () B) st :
  (TrimSpace name ≠ "" ∧ (_ ← checked bad_request (validateRequest (createTenantRequest_rules name)); m) st = m st) ∨
  ∃ text, (_ ← checked bad_request (validateRequest (createTenantRequest_rules name)); m) st = (Refused (Error400BadRequest text), st).
Proof.
  unfold validateRequest, createTenantRequest_rules, filter, list_filter, rule_ok, notBlank. simpl.
  destruct (bool_decide (TrimSpace name = "")) eqn:E; simpl.
  - right. by eexists.
  - left. split; [by apply bool_decide_eq_false in E|done].
Qed.

Lemma answered_as {A B} (m : Api TenantWorld () A) (k : A → B) st :
  (t ← m; mret (k t)) st = (match (m st).1 with Answered a => Answered (k a) | Refused e => Refused e end, (m st).2).
Proof. unfold mbind, Api_bind, mret, Api_ret. by destruct (m st) as [[] ?]. Qed.

Lemma tenantError_answers e nc nf ctx err :
  (nc = true → 409 ∈ op_Errors (tenant_operation e)) → (nf = true → 404 ∈ op_Errors (tenant_operation e)) →
  proper (tenant_operation e) (tenant_failure e) (tenantError nc nf (tenant_failure e) ctx err).
Proof.
  intros Hc Hf. unfold tenantError. destruct nc, nf; simpl; repeat case_match;
    first [apply humaInternalError_proper|apply client_error_proper; [by (apply Hc || apply Hf)|lia]].
Qed.

Lemma get_tenant id (st : St TenantWorld ()) :
  getTenant id st =
  (match tenant_table (tw_db (world st)) !! id with
   | Some r => Answered (toTenantResponse (tenant_of (id, r)))
   | None => Refused (Error404NotFound "tenant not found")
   end, st).
Proof.
  unfold getTenant, from_tenants. rewrite served_tenants by done.
  unfold TenantService_GetByID, TenantRepository_GetByID. destruct (_ !! id) as [r|]; [|done]. by destruct st as [[] ?].
Qed.
End lemmas.

(** ** Properties *)

(** Clearing the decision cache does what it answers: on a working server whose
    records are those the caches write, the request succeeds for every tenant the
    header can name without a colon, after it no decision cached for that tenant is
    served, and the other tenants' are as before. *)
Theorem cleared_decisions_are_gone {W} `{!KV W, !WorkingKV W, !RequestContext W} raw (st : St W ()) :
  cache_inv (view (world st)) → TrimSpace raw ≠ "" → free_of is_colon (TrimSpace raw) →
  let '(r, st') := clearDecisionCacheHuma raw st in
  r = Answered (mkCacheClear "cleared" "decisions") ∧
  (∀ a h, (DecisionCache_Get (TrimSpace raw) a h st').1 = Err (sentinel_error ErrCacheMiss)) ∧
  (∀ t a h, free_of is_colon t → t ≠ TrimSpace raw → (DecisionCache_Get t a h st').1 = (DecisionCache_Get t a h st).1).
Proof.
  intros Hinv Hraw Hcolon. destruct (DecisionCache_InvalidateTenant_spec (TrimSpace raw) st Hinv Hcolon) as (Hok & _ & Hgone & Hothers).
  unfold clearDecisionCacheHuma, tenantIDFromValue, ClearTenantDecisions, checked, served, wrapping, mbind, Api_bind, mret, Api_ret.
  rewrite decide_False by done. simpl. destruct (DecisionCache_InvalidateTenant (TrimSpace raw) st) as [r st'] eqn:E. simpl in *.
  subst r. done.
Qed.

(** The tenant endpoints are a resource: what a creation answers is what the tenant
    reads as; a renamed tenant reads with its new name, while the answer to the
    renaming itself has no times; a deleted one is not found; reading changes
    nothing; and a refusal changes nothing and is one the operation documents. *)
Theorem tenant_resource uuid pg_text collate restricted {V : Validator} e (st : St TenantWorld ()) :
  let '(r, st') := tenant_endpoint uuid pg_text collate restricted e st in
  match r with
  | Refused err => st' = st ∧ proper (tenant_operation e) (tenant_failure e) err
  | Answered body =>
      match e, body with
      | ECreateTenant name, OneTenant t =>
          TrimSpace name ≠ "" ∧ tres_Name t = name ∧ getTenant (tres_ID t) st' = (Answered t, st')
      | EUpdateTenant id name, OneTenant t =>
          TrimSpace name ≠ "" ∧ t = mkTenantResponse id name zero_time zero_time ∧
          ∃ created updated, getTenant id st' = (Answered (mkTenantResponse id name created updated), st')
      | EDeleteTenant id, NoTenant => (getTenant id st').1 = Refused (Error404NotFound "tenant not found")
      | EGetTenant id, OneTenant t => st' = st ∧ tres_ID t = id
      | EListTenants, ManyTenants l => st' = st ∧ ∀ t, t ∈ l → getTenant (tres_ID t) st = (Answered t, st)
      | _, _ => False
      end
  end.
Proof.
  destruct e as [name| |id|id name|id]; unfold tenant_endpoint; rewrite answered_as.
  - unfold createTenant. set (m := served _ _ ≫= _).
    destruct (checked_name name m st) as [[Hn ->]|[text ->]]; [|split; [done|proper_leaf]]. subst m.
    rewrite served_tenants by apply (settled_services _ _ restricted (mkTenant "" name zero_time zero_time) "").
    unfold TenantService_Create, TenantRepository_Create, wrap_first. destruct (tenant_checks _ _ _) as [e|]; simpl.
    + split; [done|]. apply (tenantError_answers (ECreateTenant name)); [set_solver|done].
    + split; [done|]. split; [done|]. rewrite get_tenant. simpl. by rewrite lookup_insert_eq.
  - unfold listTenants, from_tenants. rewrite served_tenants by done. simpl. split; [by destruct st as [[] ?]|].
    intros t (t' & -> & (kv & -> & Hkv)%list_elem_of_fmap)%list_elem_of_fmap.
    destruct kv as [id r]. apply sort_by_elem, elem_of_map_to_list in Hkv. rewrite get_tenant. simpl in *. by rewrite Hkv.
  - rewrite get_tenant. destruct (_ !! id) as [r|]; simpl; (split; [done|]); [done|proper_leaf].
  - unfold updateTenant. set (m := served _ _ ≫= _).
    destruct (checked_name name m st) as [[Hn ->]|[text ->]]; [|split; [done|proper_leaf]]. subst m. cbv zeta.
    rewrite (served_tenants _ _ (λ _, toTenantResponse (mkTenant id name zero_time zero_time)))
      by apply (settled_services uuid _ restricted (mkTenant id name zero_time zero_time) "").
    unfold TenantService_Update, TenantRepository_Update, wrap_first. simpl.
    assert (∀ ctx err, proper (tenant_operation (EUpdateTenant id name)) (tenant_failure (EUpdateTenant id name))
              (tenantError true true "failed to update tenant" ctx err)) as Hp.
    { intros ctx err. apply (tenantError_answers (EUpdateTenant id name)); set_solver. }
    destruct (tenant_table _ !! id) as [r|]; [destruct (tenant_checks _ _ _)|destruct (text_params _)]; simpl; try (by split).
    split; [done|]. split; [done|]. rewrite get_tenant. simpl. rewrite lookup_insert_eq. by eexists _, _.
  - unfold deleteTenant. assert (∀ A (m : Api TenantWorld () A) s, m s = (a ← m; mret a) s) as Eta.
    { intros A m s. rewrite answered_as. by destruct (m s) as [[] ?]. }
    rewrite Eta, (served_tenants _ _ (λ x, x)) by apply (settled_services uuid _ restricted (mkTenant "" "" zero_time zero_time) id).
    unfold TenantService_Delete, TenantRepository_Delete, wrap_first. simpl.
    assert (∀ ctx err, proper (tenant_operation (EDeleteTenant id)) (tenant_failure (EDeleteTenant id))
              (tenantError false true "failed to delete tenant" ctx err)) as Hp.
    { intros ctx err. apply (tenantError_answers (EDeleteTenant id)); [done|set_solver]. }
    destruct (tenant_table _ !! id) as [r|]; [destruct (restricted id)|]; simpl; try (by split).
    rewrite get_tenant. simpl. by rewrite lookup_delete_eq.
Qed.
