(* ===== verification/Middleware.v ===== *)
(** * From a request to its tenant

    [internal/delivery/middleware/tenant.go] and the chains that
    [internal/bootstrap/routes.go] builds of it ([newOCIProxyHandler],
    [newNPMProxyHandler]): which tenant and upstream a registry request is for, and
    whether its handler runs at all.  Logging, recovery and request identifiers wrap
    the chains without changing what is decided. *)

From S2P Require Import Prelude GoStrings GoPath URL Artifact Dependency Upstream PolicyConfig Policy Paths ProxyFlow Bundle.
#[local] Open Scope list_scope.

(** ** Definitions *)

Definition has (c : ascii) (s : string) : bool := match SplitOnce c s with Some _ => true | None => false end.

(** The host of [net.SplitHostPort], [None] for any error. *)
Definition SplitHostPort (hostport : string) : option string :=
  match CutLast hostport ":" with
  | None => None
  | Some (before, port) =>
      match hostport with
      | String c rest =>
          if decide (c = "["%char) then
            match SplitOnce "]"%char rest with
            | Some (host, after) =>
                if decide (after = ":" +:+ port) then
                  if has "["%char host || has "["%char port || has "]"%char port then None else Some host
                else None
            | None => None
            end
          else if has ":"%char before || has "["%char hostport || has "]"%char hostport then None
          else Some before
      | "" => None
      end
  end.

Section tenant.
(** [net.ParseIP(s) != nil] *)
Context (is_ip : string → bool).

Definition bare_host (host : string) : string :=
  match SplitHostPort host with
  | Some parsed => parsed
  | None => if HasPrefix host "[" && bool_decide (is_Some (CutSuffix host "]"))
            then trim_by (λ c, bool_decide (c = "["%char ∨ c = "]"%char)) host else host
  end.

(** Tenant and upstream; empty when the host names none. *)
Definition tenantAndUpstreamIDFromHost (host : string) : string * string :=
  let host := TrimSpace host in
  if decide (host = "") then ("", "")
  else
    let host := ToLower (TrimSpace (bare_host host)) in
    if decide (host = "" ∨ host = "localhost") then ("", "")
    else if is_ip host then ("", "")
    else match Cut host "." with
    | None => ("", "")
    | Some (firstLabel, remainingLabels) =>
        if decide (firstLabel = "") then ("", "")
        else if HasPrefix firstLabel "u-" then
          match Cut remainingLabels "." with
          | Some (tenantLabel, _) => if decide (tenantLabel = "") then ("", "") else (tenantLabel, TrimPrefix firstLabel "u-")
          | None => ("", "")
          end
        else (firstLabel, "")
    end.

(** A request as it arrives: its [Host], the [X-Tenant-ID] header and the rest. *)
Record Incoming : Type := mkIncoming { in_Host : string; in_TenantHeader : string; in_Request : HTTPRequest }.

Definition set_upstream (id : string) (r : HTTPRequest) : HTTPRequest :=
  mkHTTPRequest (ctx_Tenant r) id (ctx_RequestID r) (Method r) (URLPath r) (RemoteAddr r).
Definition set_tenant (id : string) (r : HTTPRequest) : HTTPRequest :=
  mkHTTPRequest (Some id) (ctx_UpstreamID r) (ctx_RequestID r) (Method r) (URLPath r) (RemoteAddr r).
Definition set_path (path : string) (r : HTTPRequest) : HTTPRequest :=
  mkHTTPRequest (ctx_Tenant r) (ctx_UpstreamID r) (ctx_RequestID r) (Method r) path (RemoteAddr r).

Definition OCITenantFromHost (i : Incoming) : Incoming :=
  let '(tenantID, upstreamID) := tenantAndUpstreamIDFromHost (in_Host i) in
  mkIncoming (in_Host i)
    (if decide (in_TenantHeader i = "") then tenantID else in_TenantHeader i)
    (if decide (upstreamID = "") then in_Request i else set_upstream upstreamID (in_Request i)).

(** [NPMTenantFromPath] of [Paths] on the parts of a request it reads. *)
Definition NPMTenantFromRequest (i : Incoming) : Incoming :=
  let r := in_Request i in
  let rt := NPMTenantFromPath (mkRouted (URLPath r) (in_TenantHeader i) (ctx_UpstreamID r)) in
  mkIncoming (in_Host i) (rt_TenantHeader rt) (set_upstream (rt_UpstreamID rt) (set_path (rt_Path rt) r)).

(** What the chain hands to the registry handler, or answers itself. *)
Inductive Resolved : Type :=
| Unauthorized (message : string)
| Handled (r : HTTPRequest).

(** [TenantResolver.Middleware]; [lookup] is its [tenantLookup]. *)
Definition TenantResolver_Middleware (lookup : string → result Tenant) (i : Incoming) : Resolved :=
  if decide (in_TenantHeader i = "") then Unauthorized "missing X-Tenant-ID header"
  else match lookup (in_TenantHeader i) with
  | Err _ => Unauthorized "invalid tenant"
  | Ok tenant => Handled (set_tenant (tenant_ID tenant) (in_Request i))
  end.

Definition oci_proxy (lookup : string → result Tenant) (i : Incoming) : Resolved :=
  TenantResolver_Middleware lookup (OCITenantFromHost i).
Definition npm_proxy (lookup : string → result Tenant) (i : Incoming) : Resolved :=
  TenantResolver_Middleware lookup (NPMTenantFromRequest i).

(** The lookup of the proxies: the tenant of the bundle the provider returns. *)
Definition bundle_lookup (provide : string → result (option TenantBundle)) (id : string) : result Tenant :=
  TenantLookup_GetByID (provide id) id.
End tenant.

(** ** Examples *)

Example host_ex :
  let ip s := bool_decide (s = "10.0.0.1") in
  tenantAndUpstreamIDFromHost ip "u-Hub.T1.firewall.example:8443" = ("t1", "hub") ∧
  tenantAndUpstreamIDFromHost ip "t1.firewall.example" = ("t1", "") ∧
  tenantAndUpstreamIDFromHost ip "10.0.0.1:8080" = ("", "") ∧
  tenantAndUpstreamIDFromHost ip "localhost:8080" = ("", "") ∧
  tenantAndUpstreamIDFromHost ip "u-hub.t1" = ("", "") ∧
  SplitHostPort "[::1]:80" = Some "::1" ∧ SplitHostPort "::1:80" = None ∧ SplitHostPort "[::1]" = None.
Proof. vm_compute. repeat split. Qed.

(** ** Lemmas *)

(** Lower-case letters, digits and the hyphen, the characters of a label. *)
Definition label_char (c : ascii) : bool :=
  let n := byte_of c in
  ((97 <=? n)%nat && (n <=? 122)%nat) || ((48 <=? n)%nat && (n <=? 57)%nat) || (n =? 45)%nat.
Definition dns_char (c : ascii) : bool := label_char c || bool_decide (c = "."%char).

Lemma label_host s : all_chars label_char s = true → all_chars dns_char s = true.
Proof. apply all_chars_impl. intros c H. unfold dns_char. by rewrite H. Qed.

Lemma host_free d s : dns_char d = false → all_chars dns_char s = true → free_of (λ c, bool_decide (c = d)) s.
Proof. intros Hd. apply all_chars_free_of. intros c Hc. apply bool_decide_false. congruence. Qed.
Lemma label_free d s : label_char d = false → all_chars label_char s = true → free_of (λ c, bool_decide (c = d)) s.
Proof. intros Hd. apply all_chars_free_of. intros c Hc. apply bool_decide_false. congruence. Qed.

Lemma has_free d s : free_of (λ c, bool_decide (c = d)) s → has d s = false.
Proof.
  intros H. unfold has. destruct (SplitOnce d s) as [[a b]|] eqn:E; [|done]. apply SplitOnce_spec in E as ->.
  apply free_of_app in H as [_ [H _]]. by rewrite bool_decide_true in H.
Qed.

Lemma host_ToLower s : all_chars dns_char s = true → ToLower s = s.
Proof.
  induction s as [|c s IH]; [done|]. cbn [all_chars]. intros [Hc Hs]%andb_true_iff.
  change (ToLower (String c s)) with (String (lower_ascii c) (ToLower s)). rewrite IH by done. f_equal.
  clear -Hc. destruct c as [[] [] [] [] [] [] [] []]; vm_compute in Hc |- *; done.
Qed.

Lemma host_TrimSpace s : all_chars dns_char s = true → TrimSpace s = s.
Proof.
  intros H. apply trim_by_free. revert H. apply all_chars_free_of. clear.
  intros c H. destruct c as [[] [] [] [] [] [] [] []]; vm_compute in H |- *; done.
Qed.

Definition with_port (host : string) (port : option string) : string :=
  match port with Some p => host +:+ ":" +:+ p | None => host end.

Lemma bare_host_port host port :
  all_chars dns_char host = true → host ≠ "" → from_option (λ p, all_chars label_char p = true) True port →
  bare_host (with_port host port) = host.
Proof.
  intros Hh Hne Hp. unfold bare_host, SplitHostPort.
  assert (∀ d, dns_char d = false → free_of (λ c, bool_decide (c = d)) host) as Hf by (intros; by apply host_free).
  destruct host as [|c host]; [done|]. assert (c ≠ "["%char) as Hc.
  { intros ->. specialize (Hf "["%char eq_refl). destruct Hf as [Hf _]. done. }
  destruct port as [p|]; cbn [with_port from_option] in *.
  - change (":" +:+ p) with (String ":" p). rewrite (CutLast_char ":" (String c host) p) by by apply label_free.
    rewrite sapp_cons, decide_False by done. rewrite <-(sapp_cons c host).
    assert (∀ d, dns_char d = false → d ≠ ":"%char → free_of (λ c, bool_decide (c = d)) (String c host +:+ String ":" p)) as Hall.
    { intros d Hd Hne'. rewrite free_of_app. split; [by apply Hf|]. split; [|by apply host_free, label_host].
      apply bool_decide_false. congruence. }
    by rewrite (has_free ":"), (has_free "["), (has_free "]") by (by apply Hf || by apply Hall).
  - rewrite CutLast_free by by apply Hf. replace (HasPrefix (String c host) "[") with false; [done|].
    rewrite HasPrefix_char. symmetry. apply bool_decide_false. congruence.
Qed.

(** A host under the firewall's name. *)
Definition upstream_host (upstreamID tenantID firewall : string) : string :=
  "u-" +:+ upstreamID +:+ "." +:+ tenantID +:+ "." +:+ firewall.
Definition tenant_host (tenantID firewall : string) : string := tenantID +:+ "." +:+ firewall.

Section hosts.
Context (is_ip : string → bool).

Lemma from_host host port :
  all_chars dns_char host = true → host ≠ "" → from_option (λ p, all_chars label_char p = true) True port →
  host ≠ "localhost" → is_ip host = false →
  tenantAndUpstreamIDFromHost is_ip (with_port host port) =
  match Cut host "." with
  | None => ("", "")
  | Some (firstLabel, remainingLabels) =>
      if decide (firstLabel = "") then ("", "")
      else if HasPrefix firstLabel "u-" then
        match Cut remainingLabels "." with
        | Some (tenantLabel, _) => if decide (tenantLabel = "") then ("", "") else (tenantLabel, TrimPrefix firstLabel "u-")
        | None => ("", "")
        end
      else (firstLabel, "")
  end.
Proof.
  intros Hh Hne Hp Hl Hip. unfold tenantAndUpstreamIDFromHost.
  assert (TrimSpace (with_port host port) = with_port host port) as ->.
  { destruct port as [p|]; cbn [with_port from_option] in *; [|by apply host_TrimSpace]. apply trim_by_free.
    assert (∀ s, all_chars dns_char s = true → free_of is_space s) as Hs.
    { intros s. apply all_chars_free_of. clear. intros c H. destruct c as [[] [] [] [] [] [] [] []]; vm_compute in H |- *; done. }
    rewrite !free_of_app. split; [by apply Hs|]. split; [|by apply Hs, label_host]. by split. }
  rewrite decide_False by (destruct port; [by destruct host|done]).
  rewrite (bare_host_port host port) by done. rewrite host_TrimSpace, host_ToLower by done.
  rewrite decide_False by naive_solver. by rewrite Hip.
Qed.

Context (ip_chars : ∀ s, is_ip s = true → all_chars (λ c, negb (bool_decide (c = "-"%char))) s = true).

Lemma upstream_host_named upstreamID tenantID firewall port :
  all_chars label_char upstreamID = true → all_chars label_char tenantID = true → tenantID ≠ "" →
  all_chars dns_char firewall = true → from_option (λ p, all_chars label_char p = true) True port →
  tenantAndUpstreamIDFromHost is_ip (with_port (upstream_host upstreamID tenantID firewall) port) = (tenantID, upstreamID).
Proof.
  intros Hu Ht Hne Hf Hp. rewrite from_host; [|..|done|done|]; unfold upstream_host.
  - change ("u-" +:+ upstreamID +:+ "." +:+ ?x) with ("u-" +:+ upstreamID +:+ String "." x). rewrite <-sapp_assoc.
    rewrite Cut_char by (apply free_of_app; split; [by repeat split|by apply label_free]).
    rewrite decide_False by done. rewrite prefix_app, TrimPrefix_app.
    change (tenantID +:+ "." +:+ firewall) with (tenantID +:+ String "." firewall). rewrite Cut_char by by apply label_free.
    by rewrite decide_False.
  - rewrite !all_chars_app, (label_host upstreamID), (label_host tenantID), Hf by done. done.
  - done.
  - destruct (is_ip _) eqn:E; [|done]. apply ip_chars in E. done.
Qed.

Lemma tenant_host_named tenantID firewall port :
  all_chars label_char tenantID = true → tenantID ≠ "" → HasPrefix tenantID "u-" = false →
  all_chars dns_char firewall = true → from_option (λ p, all_chars label_char p = true) True port →
  is_ip (tenant_host tenantID firewall) = false →
  tenantAndUpstreamIDFromHost is_ip (with_port (tenant_host tenantID firewall) port) = (tenantID, "").
Proof.
  intros Ht Hne Hu Hf Hp Hip. unfold tenant_host in *.
  change (tenantID +:+ "." +:+ firewall) with (tenantID +:+ String "." firewall) in *.
  rewrite from_host; [| | |done| |exact Hip].
  - rewrite Cut_char by by apply label_free. by rewrite decide_False, Hu.
  - rewrite all_chars_app, (label_host tenantID) by done. exact Hf.
  - by destruct tenantID.
  - intros E. assert (free_of (λ c, bool_decide (c = "."%char)) "localhost") as Hl by by repeat split.
    rewrite <-E in Hl. apply free_of_app in Hl as [_ [Hl _]]. done.
Qed.
End hosts.

(** *** The lookup over bundles *)

Lemma bundle_lookup_id provide id t : bundle_lookup provide id = Ok t → tenant_ID t = id.
Proof.
  unfold bundle_lookup, TenantLookup_GetByID. destruct (provide id) as [[b|]|]; try done.
  match goal with |- context [decide (tenant_ID ?u = "" ∨ _)] => generalize u end. intros u.
  destruct (decide _) as [|Hn]; [done|]. intros [= <-]. destruct (decide (tenant_ID u = id)); [done|]. destruct Hn. by right.
Qed.

(** ** Properties *)


Definition pull (host path : string) : Incoming := mkIncoming host "" (mkHTTPRequest None "" "req-1" "GET" path "").
Definition one_bundle (id : string) : result (option TenantBundle) :=
  if decide (id = "t1") then Ok (Some (mkTenantBundle (mkTenant "t1" "acme" 0 0) "t1" "rev" 0 [] [])) else Err (sentinel_error ErrTenantNotFound).

