(* ===== verification/Config.v ===== *)
(** * Configuration

    [internal/config/config.go]: what a configuration is and which ones are accepted,
    and what [internal/bootstrap] (dependencies.go, oci_cache.go, modes.go) makes of an
    accepted one.  Reading files and environment variables is viper's; the rules
    behind the [validate] tags are the library's ([ApiHttp.Validator]). *)

From S2P Require Import Prelude GoStrings GoPath Floats Base64 URL Json JsonParse Artifact Upstream PolicyConfig Policy Effects Ports.
From S2P Require Import AuditLog AuditStore Authz Secrets ApiHttp.
#[local] Open Scope list_scope.

(** ** Definitions *)

(** *** The sections *)

Definition RuntimeModeAllInOne : string := "all-in-one".
Definition RuntimeModeControlPlane : string := "control-plane".
Definition RuntimeModeProxy : string := "proxy".
Definition RuntimeModeDependencyGraphWorker : string := "dependency-graph-worker".

Record ServerConfig : Type := mkServerConfig {
  srv_Port : Z; srv_ReadTimeout : Z; srv_WriteTimeout : Z; srv_IdleTimeout : Z }.

(** Reserved, and read nowhere. *)
Record OCICacheS3Config : Type := mkOCICacheS3Config { s3_Bucket : string; s3_Prefix : string; s3_Region : string; s3_Endpoint : string }.
Record OCICacheGCSConfig : Type := mkOCICacheGCSConfig { gcs_Bucket : string; gcs_Prefix : string }.

Record OCICacheConfig : Type := mkOCICacheConfig {
  oc_Enabled : bool; oc_Backend : string; oc_RootDir : string; oc_MaxBytes : Z; oc_MaxAge : Z; oc_MaxEntries : Z;
  oc_S3 : OCICacheS3Config; oc_GCS : OCICacheGCSConfig }.

Record DatabaseConfig : Type := mkDatabaseConfig {
  db_DSN : string; db_MaxOpenConns : Z; db_MaxIdleConns : Z; db_ConnMaxLifetime : Z }.

Record ValkeyConfig : Type := mkValkeyConfig { vk_Addr : string; vk_Password : string; vk_DB : Z }.

Record LogConfig : Type := mkLogConfig { log_Level : string; log_Format : string }.

Record SQLTracingConfig : Type := mkSQLTracingConfig { sql_TrimSQLInSpanName : bool; sql_DisableSQLStatementInAttributes : bool }.

Record TelemetryConfig : Type := mkTelemetryConfig {
  tel_Enabled : bool; tel_Endpoint : string; tel_Protocol : string; tel_Insecure : bool; tel_SampleRatio : float64; tel_Stdout : bool;
  tel_Headers : gmap string string; tel_SQLTracing : SQLTracingConfig }.

Record AuditConfig : Type := mkAuditConfig {
  aud_Enabled : bool; aud_Slog : bool; aud_Postgres : bool; aud_FailureMode : string; aud_DetailLevel : string }.

Record BundleTLSConfig : Type := mkBundleTLSConfig {
  tls_Mode : string;
  tls_CAFile : string;
  tls_CertFile : string;
  tls_KeyFile : string;
  tls_ServerNameOverride : string;
  tls_AllowInsecureControlPlane : bool;
  tls_AuthorizedClients : list BundleTLSAuthorizedClient;
}.

Record BundleConfig : Type := mkBundleConfig {
  bn_ListenAddr : string; bn_ControlPlaneAddr : string; bn_RefreshInterval : Z; bn_TLS : BundleTLSConfig }.

Record DependencyGraphConfig : Type := mkDependencyGraphConfig {
  dg_Enabled : bool; dg_RunInProcess : bool; dg_TenantID : string; dg_PollInterval : Z; dg_Timeout : Z; dg_Concurrency : Z;
  dg_RetryDelay : Z }.

(** [RuntimeConfig], [HealthConfig] and [SecretsConfig] hold one field each: the mode,
    the address of the proxy, and the key for upstream credentials. *)
Record Config : Type := mkConfig {
  cfg_Mode : string;
  cfg_Server : ServerConfig;
  cfg_OCICache : OCICacheConfig;
  cfg_Database : DatabaseConfig;
  cfg_Valkey : ValkeyConfig;
  cfg_Log : LogConfig;
  cfg_Telemetry : TelemetryConfig;
  cfg_Audit : AuditConfig;
  cfg_ProxyURL : string;
  cfg_Bundle : BundleConfig;
  cfg_UpstreamAuthKey : string;
  cfg_DependencyGraph : DependencyGraphConfig;
}.

(** The defaults; [temp] is [os.TempDir()]. *)
Definition second : Z := 1000000000.
Definition default_config (temp : string) : Config :=
  mkConfig RuntimeModeAllInOne
    (mkServerConfig 8080 (5 * second) 0 (120 * second))
    (mkOCICacheConfig false "disk" (PathClean (temp +:+ "/dependency-firewall/oci")) 0 0 0
       (mkOCICacheS3Config "" "" "" "") (mkOCICacheGCSConfig "" ""))
    (mkDatabaseConfig "postgres://localhost:5432/firewall?sslmode=disable" 25 5 (300 * second))
    (mkValkeyConfig "localhost:6379" "" 0)
    (mkLogConfig "info" "json")
    (mkTelemetryConfig false "http://localhost:4317" "grpc" true (f64_of_Z 1) false ∅ (mkSQLTracingConfig true true))
    (mkAuditConfig true true true "fail_closed" "summary")
    ""
    (mkBundleConfig ":9090" "127.0.0.1:9090" (30 * second) (mkBundleTLSConfig "insecure" "" "" "" "" false []))
    ""
    (mkDependencyGraphConfig true false "*" (5 * second) (120 * second) 2 (300 * second)).

(** *** The [validate] tags *)

Definition runtime_modes : list string :=
  [RuntimeModeAllInOne; RuntimeModeControlPlane; RuntimeModeProxy; RuntimeModeDependencyGraphWorker].
Definition tls_modes : list string := ["insecure"; "mtls"].
Definition failure_modes : list string := ["fail_open"; "fail_closed"].
Definition detail_levels : list string := ["minimal"; "summary"; "full"].

(** [oneof] behind [omitempty] *)
Definition optional_oneof (place : string) (values : list string) (value : string) : list FieldRule :=
  if decide (value = "") then [] else [mkRule place "oneof" (Join " " values) (FString value)].
Definition oneof (place : string) (values : list string) (value : string) : list FieldRule :=
  [mkRule place "oneof" (Join " " values) (FString value)].
Definition at_least (place : string) (n z : Z) : list FieldRule := [mkRule place "gte" (itoa n) (FInt z)].
Definition above (place : string) (n z : Z) : list FieldRule := [mkRule place "gt" (itoa n) (FInt z)].
(** [required] on a struct: it is not the zero one. *)
Definition required_struct (place : string) (present : bool) : list FieldRule := [mkRule place "required" "" (FRaw present)].

Definition server_rules (s : ServerConfig) : list FieldRule :=
  required_struct "Config.server" (negb ((srv_Port s =? 0) && (srv_ReadTimeout s =? 0) && (srv_WriteTimeout s =? 0) && (srv_IdleTimeout s =? 0))) ++
  at_least "Config.server.port" 1 (srv_Port s) ++ [mkRule "Config.server.port" "lte" "65535" (FInt (srv_Port s))] ++
  above "Config.server.read_timeout" 0 (srv_ReadTimeout s) ++ at_least "Config.server.write_timeout" 0 (srv_WriteTimeout s) ++
  above "Config.server.idle_timeout" 0 (srv_IdleTimeout s).

Definition is_empty (s : string) : bool := bool_decide (s = "").

Definition bundle_rules (b : BundleConfig) : list FieldRule :=
  let t := bn_TLS b in
  required_struct "Config.bundle"
    (negb (is_empty (bn_ListenAddr b) && is_empty (bn_ControlPlaneAddr b) && (bn_RefreshInterval b =? 0) && is_empty (tls_Mode t) &&
           is_empty (tls_CAFile t) && is_empty (tls_CertFile t) && is_empty (tls_KeyFile t) && is_empty (tls_ServerNameOverride t) &&
           negb (tls_AllowInsecureControlPlane t) && bool_decide (tls_AuthorizedClients t = []))) ++
  at_least "Config.bundle.refresh_interval" 0 (bn_RefreshInterval b) ++ oneof "Config.bundle.tls.mode" tls_modes (tls_Mode t).

Definition config_rules (c : Config) : list FieldRule :=
  required_struct "Config.runtime" (negb (is_empty (cfg_Mode c))) ++
  [mkRule "Config.runtime.mode" "required" "" (FString (cfg_Mode c))] ++ oneof "Config.runtime.mode" runtime_modes (cfg_Mode c) ++
  server_rules (cfg_Server c) ++
  optional_oneof "Config.oci_cache.backend" ["disk"; "s3"; "gcs"] (oc_Backend (cfg_OCICache c)) ++
  at_least "Config.oci_cache.max_bytes" 0 (oc_MaxBytes (cfg_OCICache c)) ++
  at_least "Config.oci_cache.max_age" 0 (oc_MaxAge (cfg_OCICache c)) ++
  at_least "Config.oci_cache.max_entries" 0 (oc_MaxEntries (cfg_OCICache c)) ++
  required_struct "Config.valkey"
    (negb (is_empty (vk_Addr (cfg_Valkey c)) && is_empty (vk_Password (cfg_Valkey c)) && (vk_DB (cfg_Valkey c) =? 0))) ++
  [mkRule "Config.valkey.addr" "notblank" "" (FString (vk_Addr (cfg_Valkey c)))] ++ at_least "Config.valkey.db" 0 (vk_DB (cfg_Valkey c)) ++
  required_struct "Config.log" (negb (is_empty (log_Level (cfg_Log c)) && is_empty (log_Format (cfg_Log c)))) ++
  oneof "Config.log.level" ["debug"; "info"; "warn"; "error"] (log_Level (cfg_Log c)) ++
  oneof "Config.log.format" ["json"; "text"] (log_Format (cfg_Log c)) ++
  optional_oneof "Config.telemetry.protocol" ["grpc"; "http/protobuf"] (tel_Protocol (cfg_Telemetry c)) ++
  [mkRule "Config.telemetry.sample_ratio" "gte" "0" (FFloat (tel_SampleRatio (cfg_Telemetry c)));
   mkRule "Config.telemetry.sample_ratio" "lte" "1" (FFloat (tel_SampleRatio (cfg_Telemetry c)))] ++
  required_struct "Config.audit"
    (aud_Enabled (cfg_Audit c) || aud_Slog (cfg_Audit c) || aud_Postgres (cfg_Audit c) ||
     negb (is_empty (aud_FailureMode (cfg_Audit c))) || negb (is_empty (aud_DetailLevel (cfg_Audit c)))) ++
  oneof "Config.audit.failure_mode" failure_modes (aud_FailureMode (cfg_Audit c)) ++
  oneof "Config.audit.detail_level" detail_levels (aud_DetailLevel (cfg_Audit c)) ++
  bundle_rules (cfg_Bundle c).

(** *** Validate *)

Definition invalid {A} (text : string) : result A := Err (new_error ("invalid config: " +:+ text)).
Definition field_text (name : string) : string := "field " +:+ quote name.
Definition required_when (name mode : string) : string :=
  field_text name +:+ " is required when runtime.mode is " +:+ quote mode.
Definition blank (s : string) : bool := bool_decide (TrimSpace s = "").
Definition EqualFold (a b : string) : bool := bool_decide (ToLower a = ToLower b).

(** [if condition { return fmt.Errorf(...) }] *)
Definition refuse (condition : bool) (text : string) : result () := if condition then invalid text else Ok ().

Section validate.
Context {V : Validator} (ip_literal : string → option error).

Definition validateTags (c : Config) : result () :=
  match filter (λ r, rule_ok r = false) (config_rules c) with
  | [] => Ok ()
  | r :: _ => invalid (fieldErrorMessage r)
  end.

Definition owns_database (mode : string) : bool :=
  negb (bool_decide (mode = RuntimeModeProxy)) && negb (bool_decide (mode = RuntimeModeDependencyGraphWorker)).

Definition validateDatabase (c : Config) : result () :=
  let d := cfg_Database c in
  _ ← (if owns_database (cfg_Mode c) then
         _ ← refuse (blank (db_DSN d)) (required_when "database.dsn" (cfg_Mode c));
         _ ← refuse (db_MaxOpenConns d <=? 0) (field_text "database.max_open_conns" +:+ " must be greater than 0");
         _ ← refuse (db_MaxIdleConns d <? 0) (field_text "database.max_idle_conns" +:+ " must be greater than or equal to 0");
         refuse (db_ConnMaxLifetime d <=? 0) (field_text "database.conn_max_lifetime" +:+ " must be greater than 0")
       else Ok ());
  refuse ((db_MaxOpenConns d <? db_MaxIdleConns d) && (0 <? db_MaxOpenConns d))
    (field_text "database.max_idle_conns" +:+ " must be less than or equal to " +:+ quote "database.max_open_conns").

Definition validateDependencyGraph (c : Config) : result () :=
  refuse (dg_Enabled (cfg_DependencyGraph c) && blank (dg_TenantID (cfg_DependencyGraph c)))
    (field_text "dependency_graph.tenant_id" +:+ " is required when dependency graph resolution is enabled").

Definition validateOCICache (c : Config) : result () :=
  let o := cfg_OCICache c in
  refuse (oc_Enabled o && EqualFold (oc_Backend o) "disk" && blank (oc_RootDir o))
    (field_text "oci_cache.root_dir" +:+ " is required when OCI cache backend is " +:+ quote "disk").

Definition absolute (u : URL) : bool := negb (is_empty (Scheme u)) && negb (is_empty (urlHost u)).

Definition validateHealth (c : Config) : result () :=
  let proxyURL := TrimSpace (cfg_ProxyURL c) in
  if decide (proxyURL = "") then Ok ()
  else refuse (match url_Parse ip_literal proxyURL with Ok u => negb (absolute u) | Err _ => true end)
         (field_text "health.proxy_url" +:+ " must be a valid absolute URL").

Definition validateTelemetry (c : Config) : result () :=
  let t := cfg_Telemetry c in
  if negb (tel_Enabled t) then Ok ()
  else
    let endpoint := TrimSpace (tel_Endpoint t) in
    if decide (endpoint = "") then
      refuse (negb (tel_Stdout t)) ("either " +:+ quote "telemetry.endpoint" +:+ " must be set or " +:+ quote "telemetry.stdout" +:+
        " must be true when telemetry is enabled")
    else refuse (match url_Parse ip_literal endpoint with
                 | Ok u => negb (absolute u) || negb (is_empty (RawQuery u)) || negb (is_empty (Fragment u))
                 | Err _ => true end)
           (field_text "telemetry.endpoint" +:+ " must be a valid absolute URL without query or fragment").

Definition validateSecrets (c : Config) : result () :=
  let key := TrimSpace (cfg_UpstreamAuthKey c) in
  if decide (key = "") then Ok ()
  else refuse (match b64_DecodeString key with Ok decoded => negb (String.length decoded =? 32)%nat | Err _ => true end)
         (field_text "secrets.upstream_auth_key" +:+ " must be a base64 encoded 32-byte key").

(** [bundle.tls.authorized_clients[i]] *)
Definition client_place (i : nat) : string := "bundle.tls.authorized_clients[" +:+ itoa (Z.of_nat i) +:+ "]".

Fixpoint check_tenants (place : string) (j : nat) (tenantIDs : list string) : result () :=
  match tenantIDs with
  | [] => Ok ()
  | t :: tenantIDs =>
      _ ← refuse (blank t) (field_text (place +:+ ".tenant_ids[" +:+ itoa (Z.of_nat j) +:+ "]") +:+ " must not be blank");
      check_tenants place (S j) tenantIDs
  end.

Fixpoint check_clients (i : nat) (clients : list BundleTLSAuthorizedClient) : result () :=
  match clients with
  | [] => Ok ()
  | client :: clients =>
      _ ← refuse (blank (Identity client)) (field_text (client_place i +:+ ".identity") +:+ " is required");
      _ ← refuse (bool_decide (TenantIDs client = []))
            (field_text (client_place i +:+ ".tenant_ids") +:+ " must include at least one tenant id");
      _ ← check_tenants (client_place i) 0 (TenantIDs client);
      check_clients (S i) clients
  end.

Definition validateAuthorizedClients (c : Config) : result () :=
  let t := bn_TLS (cfg_Bundle c) in
  _ ← refuse (bool_decide (tls_AuthorizedClients t = []))
        (required_when "bundle.tls.authorized_clients" (cfg_Mode c) +:+ " and bundle.tls.mode is " +:+ quote (tls_Mode t));
  check_clients 0 (tls_AuthorizedClients t).

Definition validateBundleTLS (c : Config) : result () :=
  let t := bn_TLS (cfg_Bundle c) in
  let missing name := field_text name +:+ " is required when bundle.tls.mode is " +:+ quote (tls_Mode t) in
  if negb (EqualFold (tls_Mode t) "mtls") then Ok ()
  else
    _ ← refuse (blank (tls_CAFile t)) (missing "bundle.tls.ca_file");
    _ ← refuse (blank (tls_CertFile t)) (missing "bundle.tls.cert_file");
    _ ← refuse (blank (tls_KeyFile t)) (missing "bundle.tls.key_file");
    if decide (cfg_Mode c = RuntimeModeControlPlane) then validateAuthorizedClients c else Ok ().

Definition is_mtls (c : Config) : bool := bool_decide (tls_Mode (bn_TLS (cfg_Bundle c)) = "mtls").
Definition must_be_mtls (c : Config) : string :=
  field_text "bundle.tls.mode" +:+ " must be " +:+ quote "mtls" +:+ " when runtime.mode is " +:+ quote (cfg_Mode c).

Definition validateControlPlaneBundle (c : Config) : result () :=
  if decide (cfg_Mode c ≠ RuntimeModeControlPlane) then Ok ()
  else
    _ ← refuse (blank (bn_ListenAddr (cfg_Bundle c))) (required_when "bundle.listen_addr" (cfg_Mode c));
    refuse (negb (is_mtls c) && negb (tls_AllowInsecureControlPlane (bn_TLS (cfg_Bundle c))))
      (must_be_mtls c +:+ " unless " +:+ quote "bundle.tls.allow_insecure_control_plane" +:+ " is true").

Definition validateBundleClient (c : Config) : result () :=
  if decide (cfg_Mode c ∈ [RuntimeModeAllInOne; RuntimeModeProxy; RuntimeModeDependencyGraphWorker]) then
    _ ← refuse (blank (bn_ControlPlaneAddr (cfg_Bundle c))) (required_when "bundle.control_plane_addr" (cfg_Mode c));
    refuse (bool_decide (cfg_Mode c ∈ [RuntimeModeProxy; RuntimeModeDependencyGraphWorker]) && negb (is_mtls c)) (must_be_mtls c)
  else Ok ().

Definition Validate (c : option Config) : result () :=
  match c with
  | None => invalid "config is required"
  | Some c =>
      _ ← validateTags c;
      _ ← validateDatabase c;
      _ ← validateDependencyGraph c;
      _ ← validateOCICache c;
      _ ← validateHealth c;
      _ ← validateTelemetry c;
      _ ← validateSecrets c;
      _ ← validateBundleTLS c;
      _ ← validateControlPlaneBundle c;
      validateBundleClient c
  end.
End validate.

(** *** What start-up makes of it *)

(** dependencies.go *)
Definition upstreamSecretCodec (c : Config) : result (option AESGCMCodec) :=
  let key := TrimSpace (cfg_UpstreamAuthKey c) in
  if decide (key = "") then Ok None
  else Some <$> wrap_result "configuring upstream auth secret codec: " (NewAESGCMCodecFromBase64 key).

Definition parseAuditFailureMode (value : string) : string :=
  if EqualFold (TrimSpace value) AuditFailureModeFailOpen then AuditFailureModeFailOpen else AuditFailureModeFailClosed.

Definition parseAuditDetailLevel (value : string) : string :=
  let value := ToLower (TrimSpace value) in
  if decide (value = AuditDetailLevelMinimal) then AuditDetailLevelMinimal
  else if decide (value = AuditDetailLevelFull) then AuditDetailLevelFull
  else AuditDetailLevelSummary.

Definition configuredAuditRecorders {R} (c : Config) (slogRecorder : R) (postgresRecorder : option R) : list R :=
  let a := cfg_Audit c in
  (if aud_Enabled a && aud_Slog a then [slogRecorder] else []) ++
  (if aud_Enabled a && aud_Postgres a then option_list postgresRecorder else []).

(** The service has a recorder in any case: the fan-out over the configured ones. *)
Definition newAuditService (c : Config) : AuditService :=
  mkAuditService true (aud_Enabled (cfg_Audit c)) (parseAuditFailureMode (aud_FailureMode (cfg_Audit c)))
    (parseAuditDetailLevel (aud_DetailLevel (cfg_Audit c))).

(** oci_cache.go: the disk cache, or why there is none. *)
Definition newOCIArtifactCache {A} (NewDiskCache : OCICacheConfig → result A) (o : OCICacheConfig) : result A :=
  let backend := ToLower (TrimSpace (oc_Backend o)) in
  if decide (backend = "" ∨ backend = "disk") then NewDiskCache o
  else if decide (backend = "s3" ∨ backend = "gcs") then
    Err (new_error ("OCI cache backend " +:+ quote (oc_Backend o) +:+ " is not implemented yet"))
  else Err (new_error ("unsupported OCI cache backend " +:+ quote (oc_Backend o))).

(** ** Lemmas *)

Lemma refuse_ok condition text : refuse condition text = Ok () ↔ condition = false.
Proof. unfold refuse. by destruct condition. Qed.

Lemma blank_false s : blank s = false ↔ TrimSpace s ≠ "".
Proof. apply bool_decide_eq_false. Qed.

Section accepted.
Context {V : Validator} {VL : ValidatorLaws} (ip_literal : string → option error).

(** The parts of an accepted configuration. *)
Lemma Validate_parts c : Validate ip_literal (Some c) = Ok () ↔
  validateTags c = Ok () ∧ validateDatabase c = Ok () ∧ validateDependencyGraph c = Ok () ∧ validateOCICache c = Ok () ∧
  validateHealth ip_literal c = Ok () ∧ validateTelemetry ip_literal c = Ok () ∧ validateSecrets c = Ok () ∧ validateBundleTLS c = Ok () ∧
  validateControlPlaneBundle c = Ok () ∧ validateBundleClient c = Ok ().
Proof.
  unfold Validate. split.
  - intros H. repeat (apply result_bind_ok in H as ([] & ? & H)). done.
  - intros (-> & -> & -> & -> & -> & -> & -> & -> & -> & ->). done.
Qed.

Lemma tags_hold c r : validateTags c = Ok () → r ∈ config_rules c → rule_ok r = true.
Proof.
  unfold validateTags. intros H Hr. destruct (filter _ (config_rules c)) as [|r' l] eqn:E; [|done].
  destruct (rule_ok r) eqn:Er; [done|]. assert (r ∈ filter (λ r, rule_ok r = false) (config_rules c)) as Hin by by apply list_elem_of_filter.
  rewrite E in Hin. by apply not_elem_of_nil in Hin.
Qed.

(** A value behind a [oneof] rule is one of its values. *)
Lemma oneof_holds c place values s :
  validateTags c = Ok () → mkRule place "oneof" (Join " " values) (FString s) ∈ config_rules c →
  values ≠ [] → Forall (λ v, v ≠ "" ∧ SplitOnce " "%char v = None) values → s ∈ values.
Proof.
  intros H Hr Hne Hv. apply (tags_hold c) in Hr; [|done]. unfold rule_ok in Hr. simpl in Hr.
  rewrite (oneof_string values s Hne Hv) in Hr. by apply bool_decide_eq_true in Hr.
Qed.

Lemma accepted_choices c :
  validateTags c = Ok () →
  cfg_Mode c ∈ runtime_modes ∧ tls_Mode (bn_TLS (cfg_Bundle c)) ∈ tls_modes ∧ aud_FailureMode (cfg_Audit c) ∈ failure_modes ∧
  aud_DetailLevel (cfg_Audit c) ∈ detail_levels.
Proof.
  intros H. split; [|split; [|split]].
  - apply (oneof_holds c "Config.runtime.mode"); [done| |done|by repeat constructor].
    unfold config_rules. set_solver.
  - apply (oneof_holds c "Config.bundle.tls.mode"); [done| |done|by repeat constructor].
    unfold config_rules, bundle_rules. set_solver.
  - apply (oneof_holds c "Config.audit.failure_mode"); [done| |done|by repeat constructor].
    unfold config_rules. set_solver.
  - apply (oneof_holds c "Config.audit.detail_level"); [done| |done|by repeat constructor].
    unfold config_rules. set_solver.
Qed.
End accepted.

Lemma check_tenants_ok place j ts : check_tenants place j ts = Ok () ↔ Forall (λ t, TrimSpace t ≠ "") ts.
Proof.
  induction ts as [|t ts IH] in j |- *; simpl; [by split|]. rewrite Forall_cons, <-(IH (S j)), <-blank_false.
  unfold refuse. destruct (blank t); simpl; naive_solver.
Qed.

Lemma check_clients_ok i clients :
  check_clients i clients = Ok () ↔
  Forall (λ cl, TrimSpace (Identity cl) ≠ "" ∧ TenantIDs cl ≠ [] ∧ Forall (λ t, TrimSpace t ≠ "") (TenantIDs cl)) clients.
Proof.
  induction clients as [|cl clients IH] in i |- *; [by split|]. cbn [check_clients]. rewrite Forall_cons, <-(IH (S i)).
  rewrite <-(check_tenants_ok (client_place i) 0), <-blank_false. unfold refuse.
  destruct (blank (Identity cl)); simpl; [naive_solver|]. destruct (bool_decide (TenantIDs cl = [])) eqn:E; simpl.
  - apply bool_decide_eq_true in E. naive_solver.
  - apply bool_decide_eq_false in E. destruct (check_tenants _ _ _) as [[]|]; simpl; naive_solver.
Qed.

Lemma accepted_key c : validateSecrets c = Ok () → is_ok (upstreamSecretCodec c) = true.
Proof.
  unfold validateSecrets, upstreamSecretCodec. case_decide; [done|]. intros Hk%refuse_ok.
  unfold NewAESGCMCodecFromBase64, NewAESGCMCodec. destruct (b64_DecodeString _) as [key|]; [|done]. csimpl.
  apply negb_false_iff, Nat.eqb_eq in Hk. by rewrite decide_True.
Qed.

(** The clients of a control plane that speaks mutual TLS. *)
Lemma accepted_clients c :
  let t := bn_TLS (cfg_Bundle c) in
  validateBundleTLS c = Ok () → tls_Mode t = "mtls" → cfg_Mode c = RuntimeModeControlPlane →
  tls_AuthorizedClients t ≠ [] ∧
  Forall (λ cl, TrimSpace (Identity cl) ≠ "" ∧ TenantIDs cl ≠ [] ∧ Forall (λ t, TrimSpace t ≠ "") (TenantIDs cl)) (tls_AuthorizedClients t).
Proof.
  intros t H Hm Hp. unfold validateBundleTLS in H. fold t in H. rewrite Hm in H. simpl in H.
  repeat (apply result_bind_ok in H as ([] & ?%refuse_ok & H)). rewrite decide_True in H by done.
  unfold validateAuthorizedClients in H. apply result_bind_ok in H as ([] & Hne%refuse_ok & H).
  split; [by apply bool_decide_eq_false in Hne|by apply check_clients_ok in H].
Qed.

(** What calls the control plane speaks mutual TLS to it. *)
Lemma accepted_client c :
  validateBundleClient c = Ok () → cfg_Mode c ∈ [RuntimeModeProxy; RuntimeModeDependencyGraphWorker] →
  is_mtls c = true ∧ TrimSpace (bn_ControlPlaneAddr (cfg_Bundle c)) ≠ "".
Proof.
  unfold validateBundleClient. intros H Hp. rewrite decide_True in H by set_solver.
  apply result_bind_ok in H as ([] & Haddr%refuse_ok & Hm%refuse_ok). rewrite bool_decide_true in Hm by done.
  by apply negb_false_iff in Hm; apply blank_false in Haddr.
Qed.

(** A listed client may act for its tenants, and nobody else for anyone. *)
Lemma table_of_clients clients identity t :
  Forall (λ cl, TrimSpace (Identity cl) ≠ "" ∧ TenantIDs cl ≠ [] ∧ Forall (λ t, TrimSpace t ≠ "") (TenantIDs cl)) clients →
  t ≠ "" → authorized (newTenantAuthorizer clients) [identity] t = true ↔ entitled clients identity t.
Proof.
  intros Hc Ht. rewrite newTenantAuthorizer_spec by done. split.
  - by intros (i & ->%list_elem_of_singleton & _ & H).
  - intros H. exists identity. split; [by apply list_elem_of_singleton|]. split; [|done].
    destruct H as (cl & x & Hcl & <- & _). rewrite Forall_forall in Hc. by apply (Hc cl Hcl).
Qed.

(** ** Properties *)

(** C27: A configuration that is accepted starts a safe process.  Its mode and the modes
    of auditing are among those there are, and the audit service runs in the very mode
    configured; a database the process owns has room for its connections; the key for
    credentials, if any, makes a codec; a remote proxy or worker speaks mutual TLS
    with all its files named and a control plane to call; and a control plane that
    does not opt out of it speaks mutual TLS, with a table in which each listed client
    may act for each of its tenants and any other identity for none. *)
Theorem accepted_config_is_safe {V : Validator} {VL : ValidatorLaws} ip_literal c :
  Validate ip_literal (Some c) = Ok () →
  let t := bn_TLS (cfg_Bundle c) in
  cfg_Mode c ∈ runtime_modes ∧
  failureMode (newAuditService c) = aud_FailureMode (cfg_Audit c) ∧ detailLevel (newAuditService c) = aud_DetailLevel (cfg_Audit c) ∧
  (owns_database (cfg_Mode c) = true →
     0 < db_MaxOpenConns (cfg_Database c) ∧ 0 ≤ db_MaxIdleConns (cfg_Database c) ≤ db_MaxOpenConns (cfg_Database c)) ∧
  is_ok (upstreamSecretCodec c) = true ∧
  (tls_Mode t = "mtls" → Forall (λ file, TrimSpace file ≠ "") [tls_CAFile t; tls_CertFile t; tls_KeyFile t]) ∧
  (cfg_Mode c ∈ [RuntimeModeProxy; RuntimeModeDependencyGraphWorker] →
     tls_Mode t = "mtls" ∧ TrimSpace (bn_ControlPlaneAddr (cfg_Bundle c)) ≠ "") ∧
  (cfg_Mode c = RuntimeModeControlPlane → TrimSpace (bn_ListenAddr (cfg_Bundle c)) ≠ "" ∧
     (tls_Mode t = "mtls" ∧ tls_AuthorizedClients t ≠ [] ∧
        (∀ identity tenantID, tenantID ≠ "" →
           authorized (newTenantAuthorizer (tls_AuthorizedClients t)) [identity] tenantID = true ↔
           entitled (tls_AuthorizedClients t) identity tenantID) ∨
      tls_Mode t = "insecure" ∧ tls_AllowInsecureControlPlane t = true)).
Proof.
  intros (Htags & Hdb & _ & _ & _ & _ & Hsec & Htls & Hcp & Hcl)%Validate_parts t.
  destruct (accepted_choices c Htags) as (Hmode & Htm & Hfm & Hdl). split; [exact Hmode|].
  split; [|split; [|split; [|split; [by apply accepted_key|split; [|split]]]]].
  - simpl. by repeat (apply elem_of_cons in Hfm as [->|Hfm]); [..|by apply not_elem_of_nil in Hfm].
  - simpl. by repeat (apply elem_of_cons in Hdl as [->|Hdl]); [..|by apply not_elem_of_nil in Hdl].
  - intros Ho. unfold validateDatabase in Hdb. rewrite Ho in Hdb.
    apply result_bind_ok in Hdb as ([] & H & H5). repeat (apply result_bind_ok in H as ([] & ? & H)).
    rewrite refuse_ok in *. lia.
  - intros Hm. unfold validateBundleTLS in Htls. fold t in Htls. rewrite Hm in Htls. simpl in Htls.
    repeat (apply result_bind_ok in Htls as ([] & ?%refuse_ok & Htls)). rewrite blank_false in *. by repeat constructor.
  - intros Hp. destruct (accepted_client c Hcl Hp) as [Hm%bool_decide_eq_true Haddr]. by split.
  - intros Hp. unfold validateControlPlaneBundle in Hcp. rewrite decide_False in Hcp by (intros Hn; by apply Hn).
    apply result_bind_ok in Hcp as ([] & Haddr%refuse_ok & Hm%refuse_ok). split; [by apply blank_false|]. unfold is_mtls in Hm. fold t in Hm.
    apply elem_of_cons in Htm as [Htm|Htm%list_elem_of_singleton]; fold t in Htm; [right|left]; (split; [exact Htm|]); rewrite Htm in Hm.
    { by apply negb_false_iff in Hm. }
    destruct (accepted_clients c Htls Htm Hp) as [Hne Hall]. split; [exact Hne|]. intros identity tenantID. by apply table_of_clients.
Qed.

(** A validator that answers as the library documents it. *)
Definition number (param : string) : Z := match read_number param with Some (JInt n, _) => n | _ => 0 end.
#[export] Instance documented_rules : Validator := {|
  tag_ok tag param v :=
    match v with
    | FString x => if decide (tag = "required") then negb (bool_decide (x = ""))
                   else if decide (tag = "oneof") then bool_decide (x ∈ Split " "%char param) else true
    | FInt z => if decide (tag = "required") then negb (bool_decide (z = 0))
                else if decide (tag = "gte") then number param <=? z
                else if decide (tag = "gt") then number param <? z
                else if decide (tag = "lte") then z <=? number param else true
    | FFloat f => if decide (tag = "gte") then f64_leb (f64_of_Z (number param)) f
                  else if decide (tag = "lte") then f64_leb f (f64_of_Z (number param)) else true
    | FRaw present => present
    end |}.

Lemma SplitOnce_none sep s : SplitOnce sep s = None → free_of (λ c, bool_decide (c = sep)) s.
Proof.
  induction s as [|c s IH]; [done|]. cbn [SplitOnce]. case_decide as Hc; [done|]. intros H.
  split; [by apply bool_decide_eq_false|]. apply IH. by destruct (SplitOnce sep s) as [[]|].
Qed.

#[export] Instance documented_rules_lawful : ValidatorLaws (V:=documented_rules).
Proof.
  split; [done..| |].
  - intros values s Hne Hv. simpl. rewrite (Split_Join " "); [done|done|].
    eapply Forall_impl; [exact Hv|]. by intros v [_ H%SplitOnce_none].
  - intros n z. simpl. unfold number. rewrite <-(sapp_nil_r (itoa n)). by rewrite (read_number_itoa n "").
Qed.

(** A control plane that speaks mutual TLS, with one worker listed. *)
Definition sample_config : Config :=
  let d := default_config "/tmp" in
  mkConfig RuntimeModeControlPlane (cfg_Server d) (cfg_OCICache d) (cfg_Database d) (cfg_Valkey d) (cfg_Log d) (cfg_Telemetry d)
    (cfg_Audit d) "http://proxy:8080/healthz"
    (mkBundleConfig ":9090" "" 0
       (mkBundleTLSConfig "mtls" "ca.pem" "cert.pem" "key.pem" "" false [mkAuthorizedClient "worker" ["t1"]]))
    "MDEyMzQ1Njc4OWFiY2RlZjAxMjM0NTY3ODlhYmNkZWY=" (cfg_DependencyGraph d).

(** It is accepted; its worker acts for its tenant and for no other. *)
Lemma accepted_config_is_safe_witness :
  Validate (λ _, None) (Some sample_config) = Ok () ∧
  authorized (newTenantAuthorizer (tls_AuthorizedClients (bn_TLS (cfg_Bundle sample_config)))) ["worker"] "t1" = true.
Proof.
  assert (Validate (λ _, None) (Some sample_config) = Ok ()) as H by by vm_compute.
  split; [exact H|]. pose proof (accepted_config_is_safe (λ _, None) sample_config H) as (_ & _ & _ & _ & _ & _ & _ & Hcp).
  destruct (Hcp eq_refl) as [_ [(_ & _ & Htable)|[Hm _]]]; [|discriminate Hm].
  apply Htable; [discriminate|]. exists (mkAuthorizedClient "worker" ["t1"]), "t1".
  split; [by apply list_elem_of_singleton|]. split; [reflexivity|]. split; [by apply list_elem_of_singleton|by left].
Defined.
