(* ===== verification/Serving.v ===== *)
(** * The servers of a process

    [internal/bootstrap/servers.go], [serve]: it starts the servers of the process, each
    in a goroutine of its own, waits for a signal or for the first of them to end, and
    then shuts down those that can be.  An event is a step of one goroutine; a run is
    a list of events, so every interleaving is one. *)

From S2P Require Import Prelude GoStrings.
#[local] Open Scope list_scope.
#[local] Open Scope nat_scope.

(** ** Definitions *)

(** [start] and [shutdown] are what the events make of them; a server may have no
    [shutdown]. *)
Record server : Type := mkServer { srv_name : string; srv_shutdown : bool }.

(** What [start] returned: [nil], [http.ErrServerClosed] or [grpc.ErrServerStopped],
    or another error. *)
Inductive Exit : Type :=
| ExitNil
| ExitClosed
| ExitError (err : error).

Definition report (srv : server) (x : Exit) : option error :=
  match x with
  | ExitNil | ExitClosed => None
  | ExitError err => Some (wrap_error (srv_name srv +:+ ": ") err)
  end.

Inductive Phase : Type :=
| Selecting
| Stopping (runErr : option error)
| Returned (err : option error).

Record Serving : Type := mkServing {
  sv_running : list bool;  (* the [start] of a server has not returned *)
  sv_errCh : list (option error);
  sv_done : bool;  (* [runCtx.Done()] *)
  sv_phase : Phase;
  sv_stopping : list bool;  (* the [shutdown] of a server has not returned *)
  sv_shutdownErrCh : list error;
}.

Inductive ServeEvent : Type :=
| Exits (i : nat) (x : Exit)
| Signal
| SelectDone
| SelectExit
| ShutdownReturns (i : nat) (err : option error)
| Returns.

(** [fmt.Errorf("graceful shutdown: %w", err)] of the first error, unless a server's
    error is returned. *)
Definition serve_result (runErr : option error) (shutdownErrs : list error) : option error :=
  match runErr, shutdownErrs with
  | None, err :: _ => Some (wrap_error "graceful shutdown: " err)
  | _, _ => runErr
  end.

Section serve.
Context (servers : list server).

Definition serve_start : Serving :=
  mkServing ((λ _, true) <$> servers) [] false Selecting ((λ _, false) <$> servers) [].

(** Leaving the [select]: every [shutdown] there is starts. *)
Definition begin_stopping (runErr : option error) (errCh : list (option error)) (s : Serving) : Serving :=
  mkServing (sv_running s) errCh (sv_done s) (Stopping runErr) (srv_shutdown <$> servers) (sv_shutdownErrCh s).

Definition serve_next (ev : ServeEvent) (s : Serving) : option Serving :=
  match ev, sv_phase s with
  | Exits i x, _ =>
      srv ← servers !! i;
      if decide (sv_running s !! i = Some true) then
        Some (mkServing (<[i := false]> (sv_running s)) (sv_errCh s ++ [report srv x]) (sv_done s) (sv_phase s) (sv_stopping s)
                (sv_shutdownErrCh s))
      else None
  | Signal, _ =>
      if sv_done s then None
      else Some (mkServing (sv_running s) (sv_errCh s) true (sv_phase s) (sv_stopping s) (sv_shutdownErrCh s))
  | SelectDone, Selecting => if sv_done s then Some (begin_stopping None (sv_errCh s) s) else None
  | SelectExit, Selecting => match sv_errCh s with err :: rest => Some (begin_stopping err rest s) | [] => None end
  | ShutdownReturns i err, Stopping runErr =>
      if decide (sv_stopping s !! i = Some true) then
        Some (mkServing (sv_running s) (sv_errCh s) (sv_done s) (Stopping runErr) (<[i := false]> (sv_stopping s))
                (sv_shutdownErrCh s ++ option_list err))
      else None
  | Returns, Stopping runErr =>
      if forallb negb (sv_stopping s) then
        Some (mkServing (sv_running s) (sv_errCh s) (sv_done s) (Returned (serve_result runErr (sv_shutdownErrCh s))) (sv_stopping s)
                (sv_shutdownErrCh s))
      else None
  | _, _ => None
  end.

Fixpoint serve_run (evs : list ServeEvent) (s : Serving) : option Serving :=
  match evs with [] => Some s | ev :: evs => s ← serve_next ev s; serve_run evs s end.

(** ** Lemmas *)

Definition count (l : list bool) : nat := length (filter (λ b, b = true) l).

Lemma count_insert l i : l !! i = Some true → S (count (<[i := false]> l)) = count l.
Proof.
  unfold count. revert i. induction l as [|b l IH]; intros [|i] H; [done..| |]; simpl in *.
  - injection H as ->. rewrite !filter_cons. by rewrite decide_False, decide_True by done.
  - rewrite !filter_cons. apply IH in H. destruct (decide (b = true)); simpl; lia.
Qed.

(** The transitions as a relation: what [serve_next] does, rule by rule. *)
Inductive serve_step : ServeEvent → Serving → Serving → Prop :=
| step_exits i x srv r ch d ph st sh :
    servers !! i = Some srv → r !! i = Some true →
    serve_step (Exits i x) (mkServing r ch d ph st sh) (mkServing (<[i := false]> r) (ch ++ [report srv x]) d ph st sh)
| step_signal r ch ph st sh : serve_step Signal (mkServing r ch false ph st sh) (mkServing r ch true ph st sh)
| step_select_done r ch st sh :
    serve_step SelectDone (mkServing r ch true Selecting st sh) (mkServing r ch true (Stopping None) (srv_shutdown <$> servers) sh)
| step_select_exit r err ch d st sh :
    serve_step SelectExit (mkServing r (err :: ch) d Selecting st sh) (mkServing r ch d (Stopping err) (srv_shutdown <$> servers) sh)
| step_shutdown i err r ch d e st sh :
    st !! i = Some true →
    serve_step (ShutdownReturns i err) (mkServing r ch d (Stopping e) st sh)
      (mkServing r ch d (Stopping e) (<[i := false]> st) (sh ++ option_list err))
| step_returns r ch d e st sh :
    Forall (λ b, b = false) st →
    serve_step Returns (mkServing r ch d (Stopping e) st sh) (mkServing r ch d (Returned (serve_result e sh)) st sh).

Lemma serve_next_step ev s s' : serve_next ev s = Some s' → serve_step ev s s'.
Proof.
  destruct s as [r ch d ph st sh]. unfold serve_next, begin_stopping. simpl. destruct ev as [i x| | | |i err|].
  - destruct (servers !! i) as [srv|] eqn:E; [|by destruct ph]. destruct ph; simpl; case_decide; try done; intros [= <-]; by constructor.
  - destruct ph, d; try done; intros [= <-]; constructor.
  - destruct ph, d; try done. intros [= <-]. constructor.
  - destruct ph, ch; try done. intros [= <-]. constructor.
  - destruct ph; try done. case_decide; [|done]. intros [= <-]. by constructor.
  - destruct ph; try done. destruct (forallb negb st) eqn:E; [|done]. intros [= <-]. constructor.
    apply Forall_forall. intros b Hb. rewrite forallb_forall in E. apply list_elem_of_In in Hb. by apply E, negb_true_iff in Hb.
Qed.

(** What is left to happen. *)
Definition potential (s : Serving) : nat :=
  count (sv_running s) + (if sv_done s then 0 else 1) +
  match sv_phase s with
  | Selecting => 2 + count (srv_shutdown <$> servers)
  | Stopping _ => 1 + count (sv_stopping s)
  | Returned _ => 0
  end.

Lemma potential_next ev s s' : serve_next ev s = Some s' → S (potential s') ≤ potential s.
Proof.
  intros H%serve_next_step. unfold potential. destruct H; simpl.
  - match goal with H : r !! i = Some true |- _ => apply count_insert in H end. destruct ph; lia.
  - destruct ph; lia.
  - lia.
  - lia.
  - match goal with H : st !! i = Some true |- _ => apply count_insert in H end. lia.
  - lia.
Qed.

Lemma serve_run_app evs evs' s s' :
  serve_run (evs ++ evs') s = Some s' ↔ ∃ m, serve_run evs s = Some m ∧ serve_run evs' m = Some s'.
Proof.
  induction evs as [|ev evs IH] in s |- *; simpl; [naive_solver|].
  destruct (serve_next ev s); simpl; [apply IH|naive_solver].
Qed.

Lemma serve_run_length evs s s' : serve_run evs s = Some s' → length evs + potential s' ≤ potential s.
Proof.
  induction evs as [|ev evs IH] in s |- *; simpl; [by intros [= <-]|].
  destruct (serve_next ev s) as [m|] eqn:E; [|done]. simpl. intros H. apply IH in H. apply potential_next in E. lia.
Qed.

(** What a server's goroutine reported. *)
Definition exited (evs : list ServeEvent) (e : option error) : Prop :=
  ∃ i srv x, Exits i x ∈ evs ∧ servers !! i = Some srv ∧ e = report srv x.
(** Why the servers are shut down: the end of one of them, or a signal. *)
Definition cause (evs : list ServeEvent) (e : option error) : Prop := exited evs e ∨ e = None ∧ Signal ∈ evs.
Definition shutdown_errors (evs : list ServeEvent) : list error :=
  omap (λ ev, match ev with ShutdownReturns _ err => err | _ => None end) evs.
(** A [shutdown] has returned, or is running still. *)
Definition covered (evs : list ServeEvent) (stopping : list bool) : Prop :=
  ∀ i srv, servers !! i = Some srv → srv_shutdown srv = true → stopping !! i = Some true ∨ ∃ err, ShutdownReturns i err ∈ evs.

Definition phase_ok (evs : list ServeEvent) (ph : Phase) (st : list bool) : Prop :=
  match ph with
  | Selecting => True
  | Stopping e => cause evs e ∧ covered evs st
  | Returned r => (∃ e, cause evs e ∧ r = serve_result e (shutdown_errors evs)) ∧ covered evs st ∧ Forall (λ b, b = false) st
  end.

Record explained (evs : list ServeEvent) (s : Serving) : Prop := {
  exp_exits : Forall (exited evs) (sv_errCh s);
  exp_done : sv_done s = true → Signal ∈ evs;
  exp_errors : sv_shutdownErrCh s = shutdown_errors evs;
  exp_phase : phase_ok evs (sv_phase s) (sv_stopping s);
}.

Lemma exited_app evs ev e : exited evs e → exited (evs ++ [ev]) e.
Proof. intros (i & srv & x & H & ?). exists i, srv, x. set_solver. Qed.

Lemma cause_app evs ev e : cause evs e → cause (evs ++ [ev]) e.
Proof. intros [H|[-> H]]; [left; by apply exited_app|right; set_solver]. Qed.

Lemma covered_app evs ev st : covered evs st → covered (evs ++ [ev]) st.
Proof. intros H i srv Hi Hs. destruct (H i srv Hi Hs) as [|[err ?]]; [by left|right; exists err; set_solver]. Qed.

Lemma errors_app evs ev :
  shutdown_errors (evs ++ [ev]) = shutdown_errors evs ++ match ev with ShutdownReturns _ err => option_list err | _ => [] end.
Proof. unfold shutdown_errors. rewrite omap_app. by destruct ev as [| | | |i [err|]|]. Qed.

Lemma covered_start evs : covered evs (srv_shutdown <$> servers).
Proof. intros i srv Hi Hs. left. by rewrite list_lookup_fmap, Hi, <-Hs. Qed.

Lemma exits_app evs ev l : Forall (exited evs) l → Forall (exited (evs ++ [ev])) l.
Proof. intros H. eapply Forall_impl; [exact H|]. intros. by apply exited_app. Qed.

Lemma errors_same evs ev : (∀ i err, ev ≠ ShutdownReturns i err) → shutdown_errors (evs ++ [ev]) = shutdown_errors evs.
Proof. intros H. rewrite errors_app. destruct ev; rewrite ?app_nil_r; naive_solver. Qed.

Lemma phase_app evs ev ph st : (∀ i err, ev ≠ ShutdownReturns i err) → phase_ok evs ph st → phase_ok (evs ++ [ev]) ph st.
Proof.
  intros Hev. destruct ph as [|e|r]; simpl; [done| |].
  - intros [Hc Hcov]. by split; [apply cause_app|apply covered_app].
  - intros ((e & Hc & ->) & Hcov & Hf). split; [|by split; [apply covered_app|]].
    exists e. rewrite errors_same by done. by split; [apply cause_app|].
Qed.

Lemma explained_step evs ev s s' : explained evs s → serve_step ev s s' → explained (evs ++ [ev]) s'.
Proof.
  intros [He Hd Hs Hp] Hstep. apply (exits_app _ ev) in He.
  destruct Hstep as [i x srv r ch d ph st sh Hi Hr|r ch ph st sh|r ch st sh|r err ch d st sh|i err r ch d e st sh Hi|r ch d e st sh Hf];
    simpl in *; split; simpl; rewrite ?errors_same by done; try done; try set_solver.
  - apply Forall_app. split; [done|]. constructor; [|done]. exists i, srv, x. set_solver.
  - by apply phase_app.
  - by apply phase_app.
  - split; [right; set_solver|apply covered_start].
  - by inversion He.
  - inversion He; subst. split; [by left|apply covered_start].
  - by rewrite errors_app, Hs.
  - destruct Hp as [Hc Hcov]. split; [by apply cause_app|]. intros j srv Hj Hsh.
    destruct (decide (i = j)) as [->|Hij]; [right; exists err; set_solver|].
    rewrite list_lookup_insert_ne by done. by apply (covered_app evs _ st Hcov j srv).
  - destruct Hp as [Hc Hcov]. split; [|by split; [apply covered_app|]].
    exists e. split; [by apply cause_app|by rewrite Hs].
Qed.

Lemma run_explained evs s : serve_run evs serve_start = Some s → explained evs s.
Proof.
  induction evs as [|ev evs IH] using rev_ind in s |- *; [by intros [= <-]; split|].
  intros (m & Hm & Hs)%serve_run_app. simpl in Hs. destruct (serve_next ev m) as [s''|] eqn:E; [|done]. injection Hs as ->.
  eapply explained_step; [by apply IH|by apply serve_next_step].
Qed.

(** What the process itself does next; the other events are a server's, a
    shutdown's or the outside's. *)
Definition own_event (ev : ServeEvent) : Prop := ev = SelectDone ∨ ev = SelectExit ∨ ev = Returns.

(** Nothing to select yet, or a [shutdown] to wait for. *)
Definition waiting (s : Serving) : Prop :=
  match sv_phase s with
  | Selecting => sv_done s = false ∧ sv_errCh s = []
  | Stopping _ => true ∈ sv_stopping s
  | Returned _ => False
  end.

Lemma serve_progress s :
  (∃ r, sv_phase s = Returned r) ∨ waiting s ∨ ∃ ev s', own_event ev ∧ serve_next ev s = Some s'.
Proof.
  unfold waiting, own_event, serve_next. destruct (sv_phase s) as [|e|r] eqn:Ep; [| |eauto].
  - destruct (sv_done s) eqn:Ed; [right; right; exists SelectDone; eauto|].
    destruct (sv_errCh s) as [|err ch] eqn:Ec; [by right; left|]. right. right. exists SelectExit. eauto.
  - destruct (forallb negb (sv_stopping s)) eqn:Ef; [right; right; exists Returns; eauto|]. right. left.
    destruct (decide (true ∈ sv_stopping s)) as [|Hn]; [done|]. assert (forallb negb (sv_stopping s) = true) as E; [|congruence].
    apply forallb_forall. intros [] Hb%list_elem_of_In; [done|done].
Qed.

Lemma count_le (l : list bool) : count l ≤ length l.
Proof. unfold count. apply length_filter. Qed.
End serve.

(** ** Properties *)


(** A control plane whose HTTP server fails: its gRPC server is shut down, the error
    is returned, and the worker, which has no shutdown, runs on. *)
Definition control_plane_servers : list server :=
  [mkServer "control-plane-http" true; mkServer "control-plane-grpc" true; mkServer "dependency-graph-worker" false].
Definition failing_run : list ServeEvent :=
  [Exits 0 (ExitError (new_error "listen tcp :8080: bind: address already in use")); SelectExit; ShutdownReturns 1 None;
   Exits 1 ExitClosed; ShutdownReturns 0 None; Returns].


(** A process that only runs the worker returns on a signal while the worker is at
    work: nothing stops it or waits for it. *)
Lemma worker_is_abandoned :
  let servers := [mkServer "dependency-graph-worker" false] in
  ∃ s, serve_run servers [Signal; SelectDone; Returns] (serve_start servers) = Some s ∧
       sv_phase s = Returned None ∧ sv_running s = [true].
Proof. eexists. split; [reflexivity|done]. Qed.
