(* ===== verification/Startup.v ===== *)
(** * The start of a process

    [internal/bootstrap] (runtime.go, modes.go, dependencies.go, routes.go, migrations.go),
    the connections it opens ([infra/postgres/conn.go], [infra/valkey/conn.go],
    [infra/controlplanegrpc/client.go]) and [cmd/firewall/main.go].  A start is a program
    of [Effects]: it asks the outside, which answers or fails, and logs what it opens,
    closes and serves.  A resource is opened and closed by events; how the servers run
    is in [Serving]. *)

From S2P Require Import Prelude GoStrings GoPath Floats Base64 URL Json JsonParse Artifact Upstream PolicyConfig Policy Effects Ports.
From S2P Require Import AuditLog AuditStore Authz Secrets GraphWorker ApiHttp ApiPolicies ApiUpstreams ApiReads ApiTenants Config Serving.
#[local] Open Scope list_scope.

(** ** Definitions *)

(** *** The outside *)

Inductive Resource : Type :=
| RTelemetry
| RMigrator
| RPool
| RValkey
| RBundleClient
| RIngestClient
| RListener.
#[export] Instance Resource_eq_dec : EqDecision Resource.
Proof. solve_decision. Defined.

(** A certificate and its key: the private key, if there is one. *)
Definition KeyPair : Type := option PrivateKey.

(** The pool of the certificates in a PEM text, by that text. *)
Definition CertPool : Type := string.

(** What starting telemetry, opening, reading and serving lead to. *)
Record Outside : Type := mkOutside {
  o_telemetry : TelemetryConfig → result ();
  o_migrations : result ();
  o_migrator : string → result ();
  o_Up : result bool;  (* whether anything changed; [ErrNoChange] is no failure *)
  o_close_source : result ();
  o_close_db : result ();
  o_ParseConfig : string → result ();
  o_NewPool : result ();
  o_Ping : result ();
  o_NewValkey : string → string → Z → result ();
  o_LoadX509KeyPair : string → string → result KeyPair;
  o_ReadFile : string → result string;
  o_HasCertificates : string → bool;
  o_NewDiskCache : OCICacheConfig → result ();
  o_NewClient : string → result ();
  o_Listen : string → result ();
  o_serve : list server → result ();
}.

(** *** What a process is made of *)

(** The fields of [pgxpool.Config] that are set. *)
Record PoolConfig : Type := mkPoolConfig { MaxConns : Z; MinConns : Z; MaxConnLifetime : Z }.

(** Where a repository or a queue leads: to the database, over gRPC to the control
    plane, or through the ingestion service of the same process. *)
Inductive Store : Type := PostgresStore | RemoteStore | LocalStore.
#[export] Instance Store_eq_dec : EqDecision Store.
Proof. solve_decision. Defined.

Inductive Sink : Type := SlogSink | StoreSink (s : Store).

(** [deps_codec] stands for the repositories only PostgreSQL has: of tenants, of
    policies and their revisions, and of upstreams with the codec for their
    credentials, which is also the one of bundles and the rewrapper. *)
Record dependencies : Type := mkDependencies {
  deps_pool : option PoolConfig;
  deps_codec : option (option AESGCMCodec);
  deps_decisionRepo : option Store;
  deps_graphRepo : option Store;
  deps_graphQueue : option Store;
  deps_graphContexts : option Store;
  deps_auditRepo : option Store;
  deps_audit : option (AuditService * list Sink);
  deps_ociResolver : option HybridPrivateKeyResolver;
  deps_ociCache : option OCICacheConfig;
}.

Inductive ClientTransport : Type :=
| InsecureClient
| TLSClient (cert : KeyPair) (roots : CertPool) (serverName : string).

(** A TLS server demands and verifies the certificate of its client. *)
Inductive ServerTransport : Type :=
| PlainServer
| TLSServer (cert : KeyPair) (clientCAs : CertPool).

Inductive ProxyView : Type :=
| ProxyCheckedAt (url : string)
| ProxyShown (status message : string).

Record ApiPart : Type := mkApiPart {
  api_deps : dependencies; api_proxyView : option ProxyView; api_authenticated : bool; api_routes : list (string * string) }.

(** Whose bundles a proxy evaluates: the control plane's over a connection, or the
    process' own, with or without credentials. *)
Inductive BundleSource : Type :=
| RemoteBundles (transport : ClientTransport)
| LocalBundles (includeUpstreamAuth : bool).

Record ProxyPart : Type := mkProxyPart' {
  proxy_deps : dependencies; proxy_bundles : BundleSource; proxy_routes : list (string * string) }.

(** A gRPC server: its transport, the clients its interceptors admit, if there are
    interceptors, and whether its bundles have credentials. *)
Record GrpcPart : Type := mkGrpcPart {
  grpc_transport : ServerTransport;
  grpc_clients : option (list BundleTLSAuthorizedClient);
  grpc_includeUpstreamAuth : bool;
}.

Record Process : Type := mkProcess {
  pr_ServiceName : string;
  pr_api : option ApiPart;
  pr_proxy : option ProxyPart;
  pr_grpc : option GrpcPart;
  pr_worker : option (Store * DependencyGraphWorkerConfig);
  pr_servers : list server;
}.

Inductive Event : Type :=
| Opened (r : Resource)
| Closed (r : Resource)
| Served (p : Process).

Notation Run := (M Outside Event).

Definition ask {A} (f : Outside → result A) : Run A := λ s, (f (world s), s).
Definition emit (e : Event) : Run () := λ s, (Ok (), mkSt (world s) (calls s ++ [e])).
Definition opening {A} (r : Resource) (f : Outside → result A) : Run A := a ← ask f; _ ← emit (Opened r); mret a.

(** [defer]: the clean-up runs however the body ends. *)
Definition defer {A} (cleanup : Run ()) (m : Run A) : Run A := λ s, let '(a, s) := m s in (a, (cleanup s).2).
Definition closing (r : Resource) : Run () := emit (Closed r).

(** [if err := ...; err != nil { undo; return err }] *)
Definition or_undo {A} (undo : Run ()) (m : Run A) : Run A := λ s,
  match m s with (Err e, s) => (Err e, (undo s).2) | ok => ok end.

(** *** Connections *)

Definition max_int32 : Z := 2147483647.
Definition boundedPoolSize (size : Z) : Z :=
  if size <? 0 then 0 else if max_int32 <? size then max_int32 else size.

Definition postgres_Connect (cfg : DatabaseConfig) : Run PoolConfig :=
  _ ← wrapping "parsing database DSN: " (ask (λ o, o_ParseConfig o (db_DSN cfg)));
  let poolCfg := mkPoolConfig (boundedPoolSize (db_MaxOpenConns cfg)) (boundedPoolSize (db_MaxIdleConns cfg)) (db_ConnMaxLifetime cfg) in
  _ ← wrapping "creating connection pool: " (opening RPool o_NewPool);
  _ ← or_undo (closing RPool) (wrapping "pinging database: " (ask o_Ping));
  mret poolCfg.

Definition valkey_Connect (cfg : ValkeyConfig) : Run () :=
  wrapping "creating valkey client: " (opening RValkey (λ o, o_NewValkey o (vk_Addr cfg) (vk_Password cfg) (vk_DB cfg))).

Definition certPoolFromFile (path : string) : Run CertPool :=
  pem ← wrapping "reading grpc ca file: " (ask (λ o, o_ReadFile o path));
  ask (λ o, if o_HasCertificates o pem then Ok pem else Err (new_error "parsing grpc ca file: no certificates found")).

Definition clientTransportCredentials (cfg : BundleTLSConfig) : Run ClientTransport :=
  if decide (tls_Mode cfg ≠ "mtls") then mret InsecureClient
  else
    cert ← wrapping "loading grpc client certificate: " (ask (λ o, o_LoadX509KeyPair o (tls_CertFile cfg) (tls_KeyFile cfg)));
    roots ← certPoolFromFile (tls_CAFile cfg);
    mret (TLSClient cert roots (tls_ServerNameOverride cfg)).

Definition serverTransportCredentials (cfg : BundleTLSConfig) : Run ServerTransport :=
  if decide (tls_Mode cfg ≠ "mtls") then mret PlainServer
  else
    cert ← wrapping "loading grpc server certificate: " (ask (λ o, o_LoadX509KeyPair o (tls_CertFile cfg) (tls_KeyFile cfg)));
    clientCAs ← certPoolFromFile (tls_CAFile cfg);
    mret (TLSServer cert clientCAs).

(** [NewClientConn]; the connection itself is made by the first call. *)
Definition NewClientConn (r : Resource) (address : string) (cfg : BundleTLSConfig) : Run ClientTransport :=
  transport ← clientTransportCredentials cfg;
  _ ← opening r (λ o, o_NewClient o address);
  mret transport.
Definition NewBundleClient (address : string) (cfg : BundleTLSConfig) : Run ClientTransport :=
  wrapping "creating bundle service client: " (NewClientConn RBundleClient address cfg).
Definition NewIngestClient (address : string) (cfg : BundleTLSConfig) : Run ClientTransport :=
  wrapping "creating proxy ingestion client: " (NewClientConn RIngestClient address cfg).

(** [strings.Replace(s, old, new, 1)] *)
Definition replace_first (old new s : string) : string :=
  match Cut s old with Some (a, b) => a +:+ new +:+ b | None => s end.

Definition migrateDatabase (cfg : Config) : Run () :=
  _ ← wrapping "creating migration source: " (ask o_migrations);
  let migrateDSN := replace_first "postgres://" "pgx5://" (db_DSN (cfg_Database cfg)) in
  let migrateDSN := replace_first "postgresql://" "pgx5://" migrateDSN in
  _ ← wrapping "creating migrator: " (opening RMigrator (λ o, o_migrator o migrateDSN));
  _ ← wrapping "running migrations: " (ask o_Up);
  _ ← closing RMigrator;
  srcErr ← attempt (ask o_close_source);
  dbErr ← attempt (ask o_close_db);
  _ ← wrapping "closing migration source: " (lift srcErr);
  wrapping "closing migration db: " (lift dbErr).

(** *** dependencies.go *)

Definition openBackingStores (cfg : Config) (openDatabase : bool) : Run (option PoolConfig) :=
  pool ← (if openDatabase then Some <$> wrapping "connecting to database: " (postgres_Connect (cfg_Database cfg)) else mret None);
  _ ← or_undo (if decide (is_Some pool) then closing RPool else mret ())
        (wrapping "connecting to valkey: " (valkey_Connect (cfg_Valkey cfg)));
  mret pool.

Definition newCacheDependencies (pool : option PoolConfig) : dependencies :=
  mkDependencies pool None None None None None None None None None.

Definition installDatabaseRepositories (cfg : Config) (d : dependencies) : result dependencies :=
  match deps_pool d with
  | None => Ok d
  | Some _ =>
      secretCodec ← upstreamSecretCodec cfg;
      let s := Some PostgresStore in
      Ok (mkDependencies (deps_pool d) (Some secretCodec) s s s s s (deps_audit d) (deps_ociResolver d) (deps_ociCache d))
  end.

Definition ociClientOptions (cfg : Config) : Run (option HybridPrivateKeyResolver) :=
  let t := bn_TLS (cfg_Bundle cfg) in
  if decide (tls_Mode t ≠ "mtls") then mret None
  else if decide (cfg_Mode cfg ≠ RuntimeModeProxy ∧ cfg_Mode cfg ≠ RuntimeModeAllInOne) then mret None
  else
    cert ← wrapping "loading proxy certificate private key for upstream auth: "
             (ask (λ o, o_LoadX509KeyPair o (tls_CertFile t) (tls_KeyFile t)));
    match cert with
    | None => throw (new_error "proxy certificate private key is missing")
    | Some _ => mret (Some (if decide (cfg_Mode cfg = RuntimeModeProxy) then NewStrictHybridPrivateKeyResolver cert
                            else NewHybridPrivateKeyResolver cert))
    end.

Definition set_clients (resolver : option HybridPrivateKeyResolver) (cache : option OCICacheConfig) (d : dependencies) : dependencies :=
  mkDependencies (deps_pool d) (deps_codec d) (deps_decisionRepo d) (deps_graphRepo d) (deps_graphQueue d) (deps_graphContexts d)
    (deps_auditRepo d) (deps_audit d) resolver cache.

Definition installUpstreamClients (cfg : Config) (d : dependencies) : Run dependencies :=
  resolver ← ociClientOptions cfg;
  if oc_Enabled (cfg_OCICache cfg) then
    _ ← wrapping "creating OCI cache: " (ask (λ o, newOCIArtifactCache (o_NewDiskCache o) (cfg_OCICache cfg)));
    mret (set_clients resolver (Some (cfg_OCICache cfg)) d)
  else mret (set_clients resolver None d).

(** [deps.close()] *)
Definition close_dependencies (d : dependencies) : Run () :=
  _ ← closing RValkey;
  if decide (is_Some (deps_pool d)) then closing RPool else mret ().

Definition openDependencies (cfg : Config) (openDatabase runMigrations : bool) : Run dependencies :=
  _ ← when (openDatabase && runMigrations) (migrateDatabase cfg);
  pool ← openBackingStores cfg openDatabase;
  let deps := newCacheDependencies pool in
  or_undo (close_dependencies deps)
    (deps ← lift (installDatabaseRepositories cfg deps); installUpstreamClients cfg deps).

Definition installRuntimeServices (cfg : Config) (recorder : option Store) (d : dependencies) : dependencies :=
  mkDependencies (deps_pool d) (deps_codec d) (deps_decisionRepo d) (deps_graphRepo d) (deps_graphQueue d) (deps_graphContexts d)
    (deps_auditRepo d) (Some (newAuditService cfg, configuredAuditRecorders cfg SlogSink (StoreSink <$> recorder)))
    (deps_ociResolver d) (deps_ociCache d).

(** *** routes.go *)

Definition operation_route (op : Operation) : string * string := (op_Method op, op_Path op).

Definition tenant_routes : list Operation :=
  tenant_operation <$> [ECreateTenant ""; EListTenants; EGetTenant ""; EUpdateTenant "" ""; EDeleteTenant ""].
Definition no_policy_request : policyRequest := mkPolicyRequest None "" "" "" 0 None None 0 false.
Definition policy_routes : list Operation :=
  policy_operation <$> [EListTypes; ECreatePolicy no_policy_request; EListPolicies; EGetPolicy ""; EUpdatePolicy "" no_policy_request;
                        EDeletePolicy "" false; EListVersions ""; ERollback "" 0; EImport "" ""].
Definition no_upstream_request : createUpstreamRequest := mkUpstreamRequest "" "" "" None None.
Definition upstream_routes : list Operation :=
  upstream_operation <$> [ECreateUpstream no_upstream_request; EListUpstreams; EGetUpstream ""; EUpdateUpstream "" no_upstream_request;
                          EDeleteUpstream ""].
Definition evaluation_routes : list Operation := [records_operation (EListEvaluations "" "" "")].
Definition audit_routes : list Operation := [records_operation (EListAuditEvents (mkAuditListInput "" "" "" "" "" "" "" "" "" ""))].
Definition graph_routes : list Operation := records_operation <$> [EListGraphs 0; EGetGraph ""].

Definition health_route : string * string := ("GET", "/healthz").

Definition registerControlPlaneRoutes (cfg : Config) (d : dependencies) : ApiPart :=
  let proxyView :=
    if decide (cfg_Mode cfg = RuntimeModeControlPlane) then
      let proxyURL := TrimSpace (cfg_ProxyURL cfg) in
      Some (if decide (proxyURL ≠ "") then ProxyCheckedAt proxyURL
            else ProxyShown "separate" "proxy runs as a separate service in control-plane mode")
    else None in
  let authenticated := negb (bool_decide (cfg_Mode cfg = RuntimeModeControlPlane)) || is_mtls cfg in
  mkApiPart d proxyView authenticated
    (health_route :: (operation_route <$>
       (tenant_routes ++ policy_routes ++ cache_operations ++ upstream_routes ++ evaluation_routes ++ audit_routes ++
        if decide (is_Some (deps_graphRepo d)) then graph_routes else []))).

(** The registries are served below their prefixes, for every method. *)
Definition registerProxyRoutes (d : dependencies) (bundles : BundleSource) (registerHealth : bool) : ProxyPart :=
  mkProxyPart' d bundles ((if registerHealth then [health_route] else []) ++ [("", "/v2/"); ("", "/npm/")]).

(** *** modes.go *)

Definition serve_process (p : Process) : Run () := _ ← emit (Served p); ask (λ o, o_serve o (pr_servers p)).

Definition httpServerRunner (name : string) : server := mkServer name true.
Definition grpcServerRunner (name : string) : server := mkServer name true.
Definition dependencyGraphWorkerRunner : server := mkServer "dependency-graph-worker" false.

Definition worker_config (cfg : Config) : DependencyGraphWorkerConfig :=
  let g := cfg_DependencyGraph cfg in
  mkWorkerConfig (dg_Enabled g) (dg_TenantID g) (dg_PollInterval g) (dg_Timeout g) (dg_Concurrency g) (dg_RetryDelay g).

Definition optionalDependencyGraphWorkerRunner (cfg : Config) (resolver : option Store)
    : server * option (Store * DependencyGraphWorkerConfig) :=
  if negb (dg_RunInProcess (cfg_DependencyGraph cfg)) then (mkServer "dependency-graph-worker-disabled" false, None)
  else (dependencyGraphWorkerRunner, (λ s, (s, worker_config cfg)) <$> resolver).

Definition controlPlaneGRPCServerOptions (cfg : Config) : Run (ServerTransport * option (list BundleTLSAuthorizedClient)) :=
  let t := bn_TLS (cfg_Bundle cfg) in
  transport ← serverTransportCredentials t;
  mret (transport, if is_mtls cfg then Some (tls_AuthorizedClients t) else None).

(** The bundle service needs the repositories of upstreams with their credentials. *)
Definition newLocalBundleService (d : dependencies) (includeUpstreamAuth : bool) : result bool :=
  match deps_codec d with
  | None => Err (new_error "bundle upstream repository is required")
  | Some _ => Ok includeUpstreamAuth
  end.

Definition newBundleServer (d : dependencies) : result () :=
  match deps_codec d with
  | None => Err (new_error "upstream auth secret rewrapper is required")
  | Some _ => Ok ()
  end.

Definition runControlPlane (cfg : Config) (name : string) (d : dependencies) : Run () :=
  let d := installRuntimeServices cfg (deps_auditRepo d) d in
  let api := registerControlPlaneRoutes cfg d in
  '(transport, clients) ← controlPlaneGRPCServerOptions cfg;
  _ ← (if is_mtls cfg then
         match deps_codec d with
         | None => throw (new_error "bundle upstream repository is required in mTLS mode")
         | Some _ => mret ()
         end
       else mret ());
  includeUpstreamAuth ← lift (newLocalBundleService d (is_mtls cfg));
  _ ← lift (newBundleServer d);
  _ ← wrapping "listening for bundle grpc: " (opening RListener (λ o, o_Listen o (bn_ListenAddr (cfg_Bundle cfg))));
  let '(worker, job) := optionalDependencyGraphWorkerRunner cfg (deps_graphRepo d) in
  defer (closing RListener)
    (serve_process (mkProcess name (Some api) None (Some (mkGrpcPart transport clients includeUpstreamAuth)) job
       [httpServerRunner "control-plane-http"; grpcServerRunner "control-plane-grpc"; worker])).

(** The proxy of a process without a database sends everything to the control plane. *)
Definition remote_dependencies (d : dependencies) : dependencies :=
  let s := Some RemoteStore in
  mkDependencies (deps_pool d) (deps_codec d) s (deps_graphRepo d) s s (deps_auditRepo d) (deps_audit d) (deps_ociResolver d)
    (deps_ociCache d).

Definition runProxyHTTP (name : string) (d : dependencies) (bundles : BundleSource) : Run () :=
  serve_process (mkProcess name None (Some (registerProxyRoutes d bundles true)) None None [httpServerRunner "proxy-http"]).

Definition runProxy (cfg : Config) (name : string) (d : dependencies) : Run () :=
  let b := cfg_Bundle cfg in
  transport ← NewBundleClient (bn_ControlPlaneAddr b) (bn_TLS b);
  defer (closing RBundleClient) (
    _ ← NewIngestClient (bn_ControlPlaneAddr b) (bn_TLS b);
    defer (closing RIngestClient) (
      let d := installRuntimeServices cfg (Some RemoteStore) (remote_dependencies d) in
      runProxyHTTP name d (RemoteBundles transport))).

(** The proxy half reports through the ingestion service, and reads graph contexts
    from the database. *)
Definition local_dependencies (d : dependencies) : dependencies :=
  let s := Some LocalStore in
  mkDependencies (deps_pool d) (deps_codec d) s (deps_graphRepo d) s (deps_graphContexts d) (deps_auditRepo d) (deps_audit d)
    (deps_ociResolver d) (deps_ociCache d).

Definition runAllInOne (cfg : Config) (name : string) (d : dependencies) : Run () :=
  let d := installRuntimeServices cfg (deps_auditRepo d) d in
  includeUpstreamAuth ← lift (newLocalBundleService d true);
  let proxyDeps := installRuntimeServices cfg (Some LocalStore) (local_dependencies d) in
  let api := registerControlPlaneRoutes cfg d in
  let proxy := registerProxyRoutes proxyDeps (LocalBundles includeUpstreamAuth) false in
  let '(worker, job) := optionalDependencyGraphWorkerRunner cfg (deps_graphRepo d) in
  serve_process (mkProcess name (Some api) (Some proxy) None job [httpServerRunner "firewall-http"; worker]).

(** [startTelemetry]; its shutdown is deferred by whoever starts it. *)
Definition with_telemetry {A} (cfg : Config) (body : Run A) : Run A :=
  _ ← wrapping "starting telemetry: " (opening RTelemetry (λ o, o_telemetry o (cfg_Telemetry cfg)));
  defer (closing RTelemetry) body.

Definition runWithRuntimeDependencies (cfg : Config) (openDatabase runMigrations : bool) (run : dependencies → Run ()) : Run () :=
  with_telemetry cfg (
    deps ← openDependencies cfg openDatabase runMigrations;
    defer (close_dependencies deps) (run deps)).

Definition RunControlPlane (cfg : Config) (name : string) : Run () :=
  runWithRuntimeDependencies cfg true true (runControlPlane cfg name).
Definition RunProxy (cfg : Config) (name : string) : Run () :=
  runWithRuntimeDependencies cfg false false (runProxy cfg name).
Definition RunAllInOne (cfg : Config) (name : string) : Run () :=
  runWithRuntimeDependencies cfg true true (runAllInOne cfg name).
Definition RunDependencyGraphWorker (cfg : Config) (name : string) : Run () :=
  let b := cfg_Bundle cfg in
  with_telemetry cfg (
    _ ← NewIngestClient (bn_ControlPlaneAddr b) (bn_TLS b);
    defer (closing RIngestClient)
      (serve_process (mkProcess name None None None (Some (RemoteStore, worker_config cfg)) [dependencyGraphWorkerRunner]))).

(** runtime.go *)
Definition bootstrap_Run (cfg : Config) : Run () :=
  if decide (cfg_Mode cfg = RuntimeModeControlPlane) then RunControlPlane cfg "dependency-firewall-control-plane"
  else if decide (cfg_Mode cfg = RuntimeModeProxy) then RunProxy cfg "dependency-firewall-proxy"
  else if decide (cfg_Mode cfg = RuntimeModeDependencyGraphWorker) then
    RunDependencyGraphWorker cfg "dependency-firewall-dependency-graph-worker"
  else RunAllInOne cfg "dependency-firewall".

(** *** main.go *)

Definition set_mode (mode : string) (c : Config) : Config :=
  mkConfig mode (cfg_Server c) (cfg_OCICache c) (cfg_Database c) (cfg_Valkey c) (cfg_Log c) (cfg_Telemetry c) (cfg_Audit c)
    (cfg_ProxyURL c) (cfg_Bundle c) (cfg_UpstreamAuthKey c) (cfg_DependencyGraph c).

Section main.
Context {V : Validator} (ip_literal : string → option error).

(** [LoadWithOptions] after viper's part: [read] is the decoded configuration. *)
Definition LoadWithOptions (read : result Config) : result Config :=
  cfg ← read;
  _ ← Validate ip_literal (Some cfg);
  Ok cfg.

(** [mode] is the flag. *)
Definition main_config (read : result Config) (mode : string) : result Config :=
  cfg ← wrap_result "loading config: " (LoadWithOptions read);
  if decide (mode = "") then Ok cfg
  else
    let cfg := set_mode mode cfg in
    _ ← wrap_result "applying runtime mode override: " (Validate ip_literal (Some cfg));
    Ok cfg.

Definition main_run (read : result Config) (mode : string) : Run () :=
  cfg ← lift (main_config read mode);
  bootstrap_Run cfg.
End main.

(** *** What a start leaves open *)

#[export] Instance Resource_countable : Countable Resource.
Proof.
  refine (inj_countable'
    (λ r, match r with RTelemetry => 0%nat | RMigrator => 1%nat | RPool => 2%nat | RValkey => 3%nat | RBundleClient => 4%nat
                     | RIngestClient => 5%nat | RListener => 6%nat end)
    (λ n, match n with 0%nat => RTelemetry | 1%nat => RMigrator | 2%nat => RPool | 3%nat => RValkey | 4%nat => RBundleClient
                     | 5%nat => RIngestClient | _ => RListener end) _).
  by intros [].
Defined.

(** The resources open after the events; [None] when something open is opened, or
    something that is not is closed. *)
Fixpoint replay (held : gset Resource) (events : list Event) : option (gset Resource) :=
  match events with
  | [] => Some held
  | Opened r :: events => if decide (r ∈ held) then None else replay ({[r]} ∪ held) events
  | Closed r :: events => if decide (r ∈ held) then replay (held ∖ {[r]}) events else None
  | Served _ :: events => replay held events
  end.

(** *** What a process may be *)

Definition routes (p : Process) : list (string * string) :=
  from_option api_routes [] (pr_api p) ++ from_option proxy_routes [] (pr_proxy p).

(** Its stores lead to [s], its audit records too. *)
Definition reports_to (s : Store) (d : dependencies) : Prop :=
  deps_decisionRepo d = Some s ∧ deps_graphQueue d = Some s ∧
  from_option (λ a, ∀ s', StoreSink s' ∈ a.2 → s' = s) False (deps_audit d).

Definition control_plane_ok (cfg : Config) (p : Process) : Prop :=
  ∃ api g, pr_api p = Some api ∧ pr_proxy p = None ∧ pr_grpc p = Some g ∧
    reports_to PostgresStore (api_deps api) ∧
    api_authenticated api = is_mtls cfg ∧ grpc_includeUpstreamAuth g = is_mtls cfg ∧
    if is_mtls cfg then (∃ cert clientCAs, grpc_transport g = TLSServer cert clientCAs) ∧
                        grpc_clients g = Some (tls_AuthorizedClients (bn_TLS (cfg_Bundle cfg)))
    else grpc_transport g = PlainServer ∧ grpc_clients g = None.

Definition proxy_ok (p : Process) : Prop :=
  ∃ part, pr_api p = None ∧ pr_proxy p = Some part ∧ pr_grpc p = None ∧
    reports_to RemoteStore (proxy_deps part) ∧ deps_graphContexts (proxy_deps part) = Some RemoteStore ∧
    deps_pool (proxy_deps part) = None ∧
    (∃ cert roots serverName, proxy_bundles part = RemoteBundles (TLSClient cert roots serverName)) ∧
    (∃ k, deps_ociResolver (proxy_deps part) = Some (NewStrictHybridPrivateKeyResolver (Some k))).

Definition worker_ok (cfg : Config) (p : Process) : Prop :=
  pr_api p = None ∧ pr_proxy p = None ∧ pr_grpc p = None ∧ pr_worker p = Some (RemoteStore, worker_config cfg).

Definition all_in_one_ok (p : Process) : Prop :=
  ∃ api part, pr_api p = Some api ∧ pr_proxy p = Some part ∧ pr_grpc p = None ∧
    reports_to PostgresStore (api_deps api) ∧ reports_to LocalStore (proxy_deps part) ∧ proxy_bundles part = LocalBundles true.

Definition process_ok (cfg : Config) (p : Process) : Prop :=
  NoDup (routes p) ∧
  (cfg_Mode cfg = RuntimeModeControlPlane → control_plane_ok cfg p) ∧
  (cfg_Mode cfg = RuntimeModeProxy → proxy_ok p) ∧
  (cfg_Mode cfg = RuntimeModeDependencyGraphWorker → worker_ok cfg p) ∧
  (cfg_Mode cfg = RuntimeModeAllInOne → all_in_one_ok p).

(** What a start may do. *)
Definition event_ok (cfg : Config) (e : Event) : Prop :=
  match e with
  | Opened RPool | Opened RMigrator => owns_database (cfg_Mode cfg) = true
  | Opened RListener => cfg_Mode cfg = RuntimeModeControlPlane
  | Served p => process_ok cfg p
  | _ => True
  end.

(** ** Lemmas *)

(** *** Reasoning about starts

    [runs_to P o h m K]: started with the resources [h] open, [m] makes events that
    satisfy [P], opens and closes in step, and ends with resources and a result that
    satisfy [K]. *)

Lemma replay_app h l l' : replay h (l ++ l') = replay h l ≫= λ h', replay h' l'.
Proof. induction l as [|[r|r|p] l IH] in h |- *; simpl; [done|..]; [by case_decide|by case_decide|done]. Qed.

Section rules.
Context (P : Event → Prop) (o : Outside).

Definition runs_to {A} (h : gset Resource) (m : Run A) (K : gset Resource → result A → Prop) : Prop :=
  ∀ l0, ∃ l r h', m (mkSt o l0) = (r, mkSt o (l0 ++ l)) ∧ Forall P l ∧ replay h l = Some h' ∧ K h' r.

Lemma start_mono {A} h (m : Run A) (K K' : gset Resource → result A → Prop) :
  runs_to h m K → (∀ h' r, K h' r → K' h' r) → runs_to h m K'.
Proof. intros H HK l0. destruct (H l0) as (l & r & h' & ? & ? & ? & ?). exists l, r, h'. auto. Qed.

Lemma start_pure {A} h (r : result A) (m : Run A) (K : gset Resource → result A → Prop) :
  (∀ l, m (mkSt o l) = (r, mkSt o l)) → K h r → runs_to h m K.
Proof. intros Hm HK l0. exists [], r, h. rewrite app_nil_r. by repeat split. Qed.

Lemma start_ret {A} h (a : A) (K : gset Resource → result A → Prop) : K h (Ok a) → runs_to h (mret a) K.
Proof. by apply start_pure. Qed.
Lemma start_throw {A} h e (K : gset Resource → result A → Prop) : K h (Err e) → runs_to h (throw e) K.
Proof. by apply start_pure. Qed.
Lemma start_lift {A} h (r : result A) (K : gset Resource → result A → Prop) : K h r → runs_to h (lift r) K.
Proof. by apply start_pure. Qed.
Lemma start_ask {A} h (f : Outside → result A) (K : gset Resource → result A → Prop) : K h (f o) → runs_to h (ask f) K.
Proof. by apply start_pure. Qed.

Lemma start_bind {A B} h (m : Run A) (f : A → Run B) K1 (K : gset Resource → result B → Prop) :
  runs_to h m K1 → (∀ h' a, K1 h' (Ok a) → runs_to h' (f a) K) → (∀ h' e, K1 h' (Err e) → K h' (Err e)) → runs_to h (m ≫= f) K.
Proof.
  intros Hm Hf He l0. destruct (Hm l0) as (l & r & h' & E & Hl & Hh & HK). unfold mbind, M_bind. rewrite E.
  destruct r as [a|e]; [|by exists l, (Err e), h'; auto].
  destruct (Hf h' a HK (l0 ++ l)) as (l' & r' & h'' & E' & Hl' & Hh' & HK'). exists (l ++ l'), r', h''.
  rewrite E', (app_assoc l0), replay_app, Hh. split; [done|]. split; [by apply Forall_app|]. by split.
Qed.

Lemma start_emit h e (K : gset Resource → result () → Prop) h' :
  P e → replay h [e] = Some h' → K h' (Ok ()) → runs_to h (emit e) K.
Proof. intros HP Hr HK l0. exists [e], (Ok ()), h'. split; [done|]. split; [by repeat constructor|]. by split. Qed.

Lemma start_opening {A} h r (f : Outside → result A) (K : gset Resource → result A → Prop) :
  P (Opened r) → r ∉ h → (∀ a, f o = Ok a → K ({[r]} ∪ h) (Ok a)) → (∀ e, f o = Err e → K h (Err e)) →
  runs_to h (opening r f) K.
Proof.
  intros HP Hr Hok Herr. unfold opening.
  apply (start_bind _ _ _ (λ h' x, h' = h ∧ x = f o)); [by apply start_ask| |intros h' e [-> He]; by apply Herr].
  intros h' a [-> Ha]. apply (start_bind _ _ _ (λ h' x, h' = {[r]} ∪ h ∧ x = Ok ())); [| |by intros h' e [_ ?]].
  - apply (start_emit _ _ _ ({[r]} ∪ h)); [done| |done]. simpl. by rewrite decide_False.
  - intros h' [] [-> _]. apply start_ret. by apply Hok.
Qed.

Lemma start_closing h r (K : gset Resource → result () → Prop) :
  P (Closed r) → r ∈ h → K (h ∖ {[r]}) (Ok ()) → runs_to h (closing r) K.
Proof. intros HP Hr HK. apply (start_emit _ _ _ (h ∖ {[r]})); [done| |done]. simpl. by rewrite decide_True. Qed.

Lemma start_wrapping {A} h p (m : Run A) (K : gset Resource → result A → Prop) :
  runs_to h m (λ h' r, K h' (wrap_result p r)) → runs_to h (wrapping p m) K.
Proof. intros Hm l0. destruct (Hm l0) as (l & r & h' & E & H). exists l, (wrap_result p r), h'. unfold wrapping. by rewrite E. Qed.

Lemma start_attempt {A} h (m : Run A) (K : gset Resource → result (result A) → Prop) :
  runs_to h m (λ h' r, K h' (Ok r)) → runs_to h (attempt m) K.
Proof. intros Hm l0. destruct (Hm l0) as (l & r & h' & E & H). exists l, (Ok r), h'. unfold attempt. by rewrite E. Qed.

Lemma start_fmap {A B} h (f : A → B) (m : Run A) (K : gset Resource → result B → Prop) :
  runs_to h m (λ h' r, K h' (f <$> r)) → runs_to h (f <$> m) K.
Proof.
  intros Hm l0. destruct (Hm l0) as (l & r & h' & E & H). exists l, (f <$> r), h'. unfold fmap, M_fmap. rewrite E. by destruct r.
Qed.

Lemma start_defer {A} h cleanup (m : Run A) K1 (K : gset Resource → result A → Prop) :
  runs_to h m K1 → (∀ h' r, K1 h' r → runs_to h' cleanup (λ h'' _, K h'' r)) → runs_to h (defer cleanup m) K.
Proof.
  intros Hm Hc l0. destruct (Hm l0) as (l & r & h' & E & Hl & Hh & HK). unfold defer. rewrite E.
  destruct (Hc h' r HK (l0 ++ l)) as (l' & r' & h'' & E' & Hl' & Hh' & HK'). exists (l ++ l'), r, h''.
  rewrite E', replay_app, Hh, (app_assoc l0). split; [done|]. split; [by apply Forall_app|]. by split.
Qed.

Lemma start_or_undo {A} h undo (m : Run A) K1 (K : gset Resource → result A → Prop) :
  runs_to h m K1 → (∀ h' a, K1 h' (Ok a) → K h' (Ok a)) →
  (∀ h' e, K1 h' (Err e) → runs_to h' undo (λ h'' _, K h'' (Err e))) → runs_to h (or_undo undo m) K.
Proof.
  intros Hm Hok Hu l0. destruct (Hm l0) as (l & r & h' & E & Hl & Hh & HK). unfold or_undo. rewrite E.
  destruct r as [a|e]; [by exists l, (Ok a), h'; auto|].
  destruct (Hu h' e HK (l0 ++ l)) as (l' & r' & h'' & E' & Hl' & Hh' & HK'). exists (l ++ l'), (Err e), h''.
  rewrite E', replay_app, Hh, (app_assoc l0). split; [done|]. split; [by apply Forall_app|]. by split.
Qed.

(** A question to the outside, and an opening, as the first step. *)
Lemma start_bind_ask {A B} h p (f : Outside → result A) (g : A → Run B) (K : gset Resource → result B → Prop) :
  (∀ a, f o = Ok a → runs_to h (g a) K) → (∀ e, f o = Err e → K h (Err (wrap_error p e))) →
  runs_to h (wrapping p (ask f) ≫= g) K.
Proof.
  intros Hok He. apply (start_bind _ _ _ (λ h' r, h' = h ∧ r = wrap_result p (f o))).
  - by apply start_wrapping, start_ask.
  - intros h' a [-> Ha]. apply Hok. by symmetry in Ha; apply wrap_result_ok in Ha.
  - intros h' e [-> E]. destruct (f o) as [a|e']; [done|]. injection E as ->. by apply He.
Qed.

Lemma start_bind_opening {A B} h p r (f : Outside → result A) (g : A → Run B) (K : gset Resource → result B → Prop) :
  P (Opened r) → r ∉ h → (∀ a, f o = Ok a → runs_to ({[r]} ∪ h) (g a) K) → (∀ e, f o = Err e → K h (Err (wrap_error p e))) →
  runs_to h (wrapping p (opening r f) ≫= g) K.
Proof.
  intros HP Hr Hok He.
  apply (start_bind _ _ _ (λ h' x, match x with Ok a => h' = {[r]} ∪ h ∧ f o = Ok a
                                             | Err e => h' = h ∧ ∃ e', f o = Err e' ∧ e = wrap_error p e' end)).
  - apply start_wrapping, start_opening; [done|done| |]; simpl; eauto.
  - intros h' a [-> Ha]. by apply Hok.
  - intros h' e [-> (e' & E & ->)]. by apply He.
Qed.
End rules.
(** *** Connections and dependencies *)

(** What a part leaves open: [rs] if it succeeds, nothing new if it fails. *)
Definition opens {A} (rs h : gset Resource) : gset Resource → result A → Prop :=
  λ h' r, h' = match r with Ok _ => rs ∪ h | Err _ => h end.

(** The failed migration: its connection is left open. *)
Definition migration_failed {A} (o : Outside) (h h' : gset Resource) (r : result A) : Prop :=
  h' = {[RMigrator]} ∪ h ∧ ∃ e, o_Up o = Err e ∧ r = Err (wrap_error "running migrations: " e).

Definition opened_dependencies (cfg : Config) (openDatabase : bool) (d : dependencies) : Prop :=
  (if openDatabase then
     is_Some (deps_pool d) ∧ is_Some (deps_codec d) ∧ deps_decisionRepo d = Some PostgresStore ∧ deps_graphRepo d = Some PostgresStore ∧
     deps_graphQueue d = Some PostgresStore ∧ deps_auditRepo d = Some PostgresStore
   else deps_pool d = None) ∧
  (is_mtls cfg = true → cfg_Mode cfg = RuntimeModeProxy →
     ∃ k, deps_ociResolver d = Some (NewStrictHybridPrivateKeyResolver (Some k))).

Definition held_by (d : dependencies) : gset Resource := {[RValkey]} ∪ (if decide (is_Some (deps_pool d)) then {[RPool]} else ∅).

Section parts.
Context (cfg : Config) (o : Outside).
Notation runs := (runs_to (event_ok cfg) o).


Lemma reopened (r : Resource) (h : gset Resource) : r ∉ h → ({[r]} ∪ h) ∖ {[r]} = h.
Proof. set_solver. Qed.

Lemma connect_runs h :
  RPool ∉ h → owns_database (cfg_Mode cfg) = true → runs h (postgres_Connect (cfg_Database cfg)) (opens {[RPool]} h).
Proof.
  intros Hh Ho. unfold postgres_Connect. apply start_bind_ask; [|done]. intros _ _. apply start_bind_opening; [done|done| |done]. intros _ _.
  apply (start_bind _ _ _ _ _ (opens {[RPool]} h)); [| |by intros h' e ->].
  - apply (start_or_undo _ _ _ _ _ (λ h' _, h' = {[RPool]} ∪ h)); [by apply start_wrapping, start_ask|by intros h' a ->|].
    intros h' e ->. apply start_closing; [done|set_solver|]. by apply reopened.
  - intros h' _ ->. by apply start_ret.
Qed.

Lemma migrate_runs h :
  RMigrator ∉ h → owns_database (cfg_Mode cfg) = true →
  runs h (migrateDatabase cfg) (λ h' r, h' = h ∨ migration_failed o h h' r).
Proof.
  intros Hh Ho. unfold migrateDatabase. apply start_bind_ask; [|by left]. intros _ _. apply start_bind_opening; [done|done| |by left].
  intros _ _. apply start_bind_ask; [|intros e He; right; split; [done|by exists e]]. intros _ _.
  apply (start_bind _ _ _ _ _ (λ h' _, h' = h)); [|intros h' [] ->|by left].
  { apply start_closing; [done|set_solver|by apply reopened]. }
  apply (start_bind _ _ _ _ _ (λ h' _, h' = h)); [by apply start_attempt, start_ask|intros h' r ->|by left].
  apply (start_bind _ _ _ _ _ (λ h' _, h' = h)); [by apply start_attempt, start_ask|intros h' r' ->|by left].
  apply (start_bind _ _ _ _ _ (λ h' _, h' = h)); [by apply start_wrapping, start_lift|intros h' r'' ->|by left].
  apply start_wrapping, start_lift. by left.
Qed.

Lemma stores_runs h openDatabase :
  RPool ∉ h → RValkey ∉ h → (openDatabase = true → owns_database (cfg_Mode cfg) = true) →
  runs h (openBackingStores cfg openDatabase)
    (λ h' r, match r with
             | Ok pool => h' = held_by (newCacheDependencies pool) ∪ h ∧ bool_decide (is_Some pool) = openDatabase
             | Err _ => h' = h
             end).
Proof.
  intros Hp Hv Ho. unfold openBackingStores.
  apply (start_bind _ _ _ _ _ (λ h' r, match r with
    | Ok pool => h' = (if decide (is_Some pool) then {[RPool]} ∪ h else h) ∧ bool_decide (is_Some pool) = openDatabase
    | Err _ => h' = h end)); [| |by intros h' e ->].
  { destruct openDatabase; [|apply start_ret; split; [done|reflexivity]].
    apply start_fmap, start_wrapping. eapply start_mono; [apply connect_runs; auto|].
    intros h' [cfg'|e] ->; simpl; [|done]. split; [done|reflexivity]. }
  intros h' pool [-> Hpool].
  apply (start_bind _ _ _ _ _ (λ h' r, h' = match r with Ok _ => held_by (newCacheDependencies pool) ∪ h | Err _ => h end));
    [|intros h' _ ->; by apply start_ret|by intros h' e ->].
  set (h0 := if decide (is_Some pool) then _ else _).
  apply (start_or_undo _ _ _ _ _ (opens {[RValkey]} h0)).
  - unfold valkey_Connect. do 2 apply start_wrapping. apply start_opening; [done| |done|done].
    subst h0. case_decide; set_solver.
  - intros h' _ ->. unfold held_by. simpl. subst h0. case_decide; set_solver.
  - intros h' e ->. subst h0. case_decide; [|by apply start_ret]. apply start_closing; [done|set_solver|]. by apply reopened.
Qed.

Lemma close_runs h d (K : gset Resource → Prop) :
  held_by d ## h → K h → runs (held_by d ∪ h) (close_dependencies d) (λ h' _, K h').
Proof.
  intros Hd HK. unfold close_dependencies, held_by in *.
  apply (start_bind _ _ _ _ _ (λ h' x, x = Ok () ∧ h' = (if decide (is_Some (deps_pool d)) then {[RPool]} else ∅) ∪ h)).
  - apply start_closing; [done|set_solver|]. split; [done|]. case_decide; set_solver.
  - intros h' [] [_ ->]. case_decide; [|by apply start_ret; rewrite (left_id_L ∅ (∪))].
    apply start_closing; [done|set_solver|]. rewrite reopened; [done|set_solver].
  - by intros h' e [? _].
Qed.

Lemma resolver_runs h :
  runs h (ociClientOptions cfg) (λ h' r, h' = h ∧ ∀ x, r = Ok x → is_mtls cfg = true → cfg_Mode cfg = RuntimeModeProxy →
    ∃ k, x = Some (NewStrictHybridPrivateKeyResolver (Some k))).
Proof.
  unfold ociClientOptions, is_mtls. case_decide as Hm; [apply start_ret; split; [done|]|].
  { intros x _ Hx%bool_decide_eq_true. done. }
  case_decide as Hmode; [apply start_ret; split; [done|]|].
  { intros x _ _ Hx. by destruct Hmode. }
  apply start_bind_ask; [|done]. intros [k|] _; [|by apply start_throw]. apply start_ret. split; [done|].
  intros x [= <-] _ Hp. rewrite decide_True by done. by exists k.
Qed.

Lemma clients_runs h d :
  runs h (installUpstreamClients cfg d) (λ h' r, h' = h ∧ ∀ d', r = Ok d' → ∃ resolver cache, d' = set_clients resolver cache d ∧
    (is_mtls cfg = true → cfg_Mode cfg = RuntimeModeProxy → ∃ k, resolver = Some (NewStrictHybridPrivateKeyResolver (Some k)))).
Proof.
  unfold installUpstreamClients. apply (start_bind _ _ _ _ _ _ _ (resolver_runs h)); [|by intros h' e [-> _]].
  intros h' resolver [-> Hres]. destruct (oc_Enabled _).
  - apply start_bind_ask; [|done]. intros _ _. apply start_ret. split; [done|]. intros d' [= <-]. eexists _, _. split; [done|]. by apply Hres.
  - apply start_ret. split; [done|]. intros d' [= <-]. eexists _, _. split; [done|]. by apply Hres.
Qed.

Lemma install_opened d pool openDatabase resolver cache :
  bool_decide (is_Some pool) = openDatabase → installDatabaseRepositories cfg (newCacheDependencies pool) = Ok d →
  (is_mtls cfg = true → cfg_Mode cfg = RuntimeModeProxy → ∃ k, resolver = Some (NewStrictHybridPrivateKeyResolver (Some k))) →
  opened_dependencies cfg openDatabase (set_clients resolver cache d) ∧ deps_pool (set_clients resolver cache d) = pool.
Proof.
  unfold installDatabaseRepositories. simpl. intros <- H Hres. destruct pool as [pool|]; simpl in *.
  - apply result_bind_ok in H as (codec & _ & [= <-]). by repeat (split; [|done || split]).
  - injection H as <-. by repeat split.
Qed.

Lemma dependencies_runs h openDatabase :
  RPool ∉ h → RValkey ∉ h → RMigrator ∉ h → (openDatabase = true → owns_database (cfg_Mode cfg) = true) →
  runs h (openDependencies cfg openDatabase openDatabase)
    (λ h' r, match r with
             | Ok d => h' = held_by d ∪ h ∧ opened_dependencies cfg openDatabase d
             | Err _ => h' = h ∨ migration_failed o h h' r
             end).
Proof.
  intros Hp Hv Hm Ho. unfold openDependencies.
  apply (start_bind _ _ _ _ _ (λ h' r, (h' = h ∨ migration_failed o h h' r))); [| |by intros h' e [->|(-> & e' & ? & [= ->])]; [left|right; split; [|exists e']]].
  { destruct openDatabase; [apply migrate_runs; auto|]. apply start_ret. by left. }
  intros h' _ [->|(_ & e & _ & [=])].
  apply (start_bind _ _ _ _ _ _ _ (stores_runs h openDatabase Hp Hv Ho)); [|by intros h' e ->; left].
  intros h' pool [-> Hpool].
  apply (start_or_undo _ _ _ _ _ (λ h' r, h' = held_by (newCacheDependencies pool) ∪ h ∧
    ∀ d, r = Ok d → opened_dependencies cfg openDatabase d ∧ deps_pool d = pool)).
  - apply (start_bind _ _ _ _ _ (λ h' r, h' = held_by (newCacheDependencies pool) ∪ h ∧ r = installDatabaseRepositories cfg (newCacheDependencies pool)));
      [by apply start_lift| |by intros h' e [-> _]].
    intros h' d [-> Hd]. eapply start_mono; [apply clients_runs|]. intros h' r [-> Hr]. split; [done|].
    intros d' ->. destruct (Hr d' eq_refl) as (resolver & cache & -> & Hres). by apply install_opened.
  - intros h' d [-> Hd]. destruct (Hd d eq_refl) as [Hok Hpd]. split; [|done]. unfold held_by. simpl. by rewrite Hpd.
  - intros h' e [-> _]. apply close_runs; [|by left].
    unfold held_by. simpl. case_decide; set_solver.
Qed.

Lemma transport_runs h t :
  runs h (clientTransportCredentials t) (λ h' r, h' = h ∧ ∀ x, r = Ok x → tls_Mode t = "mtls" →
    ∃ cert roots serverName, x = TLSClient cert roots serverName).
Proof.
  unfold clientTransportCredentials, certPoolFromFile. case_decide as Hm; [by apply start_ret|].
  apply start_bind_ask; [|done]. intros cert _.
  apply (start_bind _ _ _ _ _ (λ h' _, h' = h)); [|intros h' roots ->; apply start_ret; by split; [|intros x [= <-]; eauto]|by intros h' e ->].
  apply start_bind_ask; [|done]. intros pem _. by apply start_ask.
Qed.

Lemma server_transport_runs h t :
  runs h (serverTransportCredentials t) (λ h' r, h' = h ∧ ∀ x, r = Ok x →
    if bool_decide (tls_Mode t = "mtls") then ∃ cert clientCAs, x = TLSServer cert clientCAs else x = PlainServer).
Proof.
  unfold serverTransportCredentials, certPoolFromFile. case_decide as Hm.
  { apply start_ret. split; [done|]. intros x [= <-]. by rewrite bool_decide_false. }
  apply start_bind_ask; [|done]. intros cert _.
  apply (start_bind _ _ _ _ _ (λ h' _, h' = h)); [|intros h' cas ->; apply start_ret; split; [done|]|by intros h' e ->].
  - apply start_bind_ask; [|done]. intros pem _. by apply start_ask.
  - intros x [= <-]. destruct (decide (tls_Mode t = "mtls")) as [E|E]; [rewrite bool_decide_true by done; eauto|by destruct Hm].
Qed.

Lemma client_runs h r p address t :
  r ∉ h → event_ok cfg (Opened r) →
  runs h (wrapping p (NewClientConn r address t)) (λ h' x, match x with
    | Ok c => h' = {[r]} ∪ h ∧ (tls_Mode t = "mtls" → ∃ cert roots serverName, c = TLSClient cert roots serverName)
    | Err _ => h' = h end).
Proof.
  intros Hr HP. apply start_wrapping. unfold NewClientConn.
  apply (start_bind _ _ _ _ _ _ _ (transport_runs h t)); [|by intros h' e [-> _]]. intros h' c [-> Hc].
  apply (start_bind _ _ _ _ _ (opens {[r]} h)); [by apply start_opening| |by intros h' e ->].
  intros h' _ ->. apply start_ret. split; [done|]. by apply Hc.
Qed.

Lemma served_runs h p : process_ok cfg p → runs h (serve_process p) (λ h' _, h' = h).
Proof.
  intros Hp. unfold serve_process. apply (start_bind _ _ _ _ _ (λ h' x, h' = h ∧ x = Ok ())); [by apply (start_emit _ _ _ _ _ h)|..].
  - intros h' _ [-> _]. by apply start_ask.
  - by intros h' e [_ ?].
Qed.

Lemma telemetry_runs h (body : Run ()) (K : gset Resource → result () → Prop) :
  RTelemetry ∉ h → (∀ e, K h (Err e)) →
  runs ({[RTelemetry]} ∪ h) body (λ h' r, RTelemetry ∈ h' ∧ K (h' ∖ {[RTelemetry]}) r) → runs h (with_telemetry cfg body) K.
Proof.
  intros Hh He Hb. unfold with_telemetry. apply start_bind_opening; [done|done| |done]. intros _ _.
  apply (start_defer _ _ _ _ _ _ _ Hb). intros h' r [Ht HK]. by apply start_closing.
Qed.

(** *** The modes *)

(** A mode is no other one. *)
Ltac other_mode H := intros E; rewrite H in E; discriminate E.

Lemma routes_distinct : NoDup (health_route :: (operation_route <$>
  (tenant_routes ++ policy_routes ++ cache_operations ++ upstream_routes ++ evaluation_routes ++ audit_routes ++ graph_routes)) ++
  [("", "/v2/"); ("", "/npm/")]).
Proof. apply (bool_decide_unpack _). by vm_compute. Qed.

Lemma sinks_of s s' : StoreSink s' ∈ configuredAuditRecorders cfg SlogSink (StoreSink <$> Some s) → s' = s.
Proof.
  unfold configuredAuditRecorders. simpl. intros [H|H]%elem_of_app.
  - destruct (_ && _); [apply list_elem_of_singleton in H; done|by apply not_elem_of_nil in H].
  - destruct (_ && _); [apply list_elem_of_singleton in H; congruence|by apply not_elem_of_nil in H].
Qed.

Lemma installed_reports s d : deps_decisionRepo d = Some s → deps_graphQueue d = Some s → reports_to s (installRuntimeServices cfg (Some s) d).
Proof. intros H1 H2. split; [done|]. split; [done|]. simpl. intros s'. apply sinks_of. Qed.

Lemma control_plane_runs h name d :
  cfg_Mode cfg = RuntimeModeControlPlane → opened_dependencies cfg true d → RListener ∉ h →
  runs h (runControlPlane cfg name d) (λ h' _, h' = h).
Proof.
  intros Hmode [([pool Hpool] & [codec Hcodec] & Hdec & Hgr & Hq & Hau) _] Hh. unfold runControlPlane, controlPlaneGRPCServerOptions.
  set (d' := installRuntimeServices cfg (deps_auditRepo d) d). assert (reports_to PostgresStore d') as Hrep by (subst d'; rewrite Hau; by apply installed_reports).
  assert (deps_codec d' = Some codec) as Hc by done. assert (deps_graphRepo d' = Some PostgresStore) as Hg by done. clearbody d'.
  apply (start_bind _ _ _ _ _ (λ h' r, h' = h ∧ ∀ x, r = Ok x →
    x.2 = (if is_mtls cfg then Some (tls_AuthorizedClients (bn_TLS (cfg_Bundle cfg))) else None) ∧
    if is_mtls cfg then ∃ cert clientCAs, x.1 = TLSServer cert clientCAs else x.1 = PlainServer)); [| |by intros h' e [-> _]].
  { apply (start_bind _ _ _ _ _ _ _ (server_transport_runs h _)); [|by intros h' e [-> _]]. intros h' tr [-> Htr].
    apply start_ret. split; [done|]. intros x [= <-]. split; [done|]. by apply Htr. }
  intros h' [transport clients] [-> Hx]. destruct (Hx _ eq_refl) as [Hcl Htr]. simpl in Hcl, Htr. clear Hx. rewrite Hc.
  apply (start_bind _ _ _ _ _ (λ h' _, h' = h)); [destruct (is_mtls cfg); by apply start_ret|intros h' _ ->|by intros h' e ->].
  unfold newLocalBundleService, newBundleServer. rewrite Hc.
  apply (start_bind _ _ _ _ _ (λ h' r, h' = h ∧ r = Ok (is_mtls cfg))); [by apply start_lift|intros h' auth [-> [= ->]]|by intros h' e [-> _]].
  apply (start_bind _ _ _ _ _ (λ h' _, h' = h)); [by apply start_lift|intros h' _ ->|by intros h' e ->].
  apply start_bind_opening; [done|done| |done]. intros _ _.
  destruct (optionalDependencyGraphWorkerRunner _ _) as [worker job].
  apply (start_defer _ _ _ _ _ (λ h' _, h' = {[RListener]} ∪ h)).
  - apply served_runs. split; [|split; [|split; [|split]; other_mode Hmode]].
    + unfold routes. cbn [pr_api pr_proxy from_option api_routes registerControlPlaneRoutes]. rewrite Hg, app_nil_r.
      pose proof routes_distinct as H. rewrite app_comm_cons in H. by apply NoDup_app in H as [H _].
    + intros _. eexists _, _. split; [done|]. split; [done|]. split; [done|]. split; [done|]. split.
      { simpl. by rewrite bool_decide_true. }
      split; [done|]. destruct (is_mtls cfg); simpl; [by split; [|rewrite Hcl]|by split].
  - intros h' r ->. apply start_closing; [done|set_solver|by apply reopened].
Qed.

Lemma proxy_routes_distinct : NoDup [health_route; ("", "/v2/"); ("", "/npm/")].
Proof. apply (bool_decide_unpack _). by vm_compute. Qed.

Lemma proxy_runs h name d :
  cfg_Mode cfg = RuntimeModeProxy → is_mtls cfg = true → opened_dependencies cfg false d → RBundleClient ∉ h → RIngestClient ∉ h →
  runs h (runProxy cfg name d) (λ h' _, h' = h).
Proof.
  intros Hmode Hm [Hpool Hres] Hb Hi. destruct (Hres Hm Hmode) as [k Hk]. unfold runProxy, NewBundleClient, NewIngestClient.
  assert (tls_Mode (bn_TLS (cfg_Bundle cfg)) = "mtls") as Ht by by apply bool_decide_eq_true in Hm.
  eapply start_bind; [by apply (client_runs h RBundleClient)| |by intros h' e ->].
  intros h' c [-> Hc]. destruct (Hc Ht) as (cert & roots & serverName & ->).
  apply (start_defer _ _ _ _ _ (λ h' _, h' = {[RBundleClient]} ∪ h)).
  - eapply start_bind; [apply (client_runs _ RIngestClient); [set_solver|done]| |by intros h' e ->].
    intros h' c' [-> _]. apply (start_defer _ _ _ _ _ (λ h' _, h' = {[RIngestClient]} ∪ ({[RBundleClient]} ∪ h))).
    + apply served_runs. split; [exact proxy_routes_distinct|]. split; [other_mode Hmode|]. split; [|split; other_mode Hmode].
      intros _. eexists. split; [done|]. split; [done|]. split; [done|]. split; [by apply installed_reports|].
      split; [done|]. split; [done|]. split; [by eexists _, _, _|]. by exists k.
    + intros h' r ->. apply start_closing; [done|set_solver|]. apply reopened. set_solver.
  - intros h' r ->. apply start_closing; [done|set_solver|by apply reopened].
Qed.

Lemma all_in_one_runs h name d :
  cfg_Mode cfg = RuntimeModeAllInOne → opened_dependencies cfg true d → runs h (runAllInOne cfg name d) (λ h' _, h' = h).
Proof.
  intros Hmode [(_ & [codec Hcodec] & Hdec & Hgr & Hq & Hau) _]. unfold runAllInOne.
  set (d' := installRuntimeServices cfg (deps_auditRepo d) d).
  assert (reports_to PostgresStore d') as Hrep by (subst d'; rewrite Hau; by apply installed_reports).
  assert (deps_codec d' = Some codec) as Hc by done. assert (deps_graphRepo d' = Some PostgresStore) as Hg by done. clearbody d'.
  unfold newLocalBundleService. rewrite Hc.
  apply (start_bind _ _ _ _ _ (λ h' r, h' = h ∧ r = Ok true)); [by apply start_lift|intros h' auth [-> [= ->]]|by intros h' e [-> _]].
  destruct (optionalDependencyGraphWorkerRunner _ _) as [worker job]. apply served_runs.
  split; [|split; [other_mode Hmode|split; [other_mode Hmode|split; [other_mode Hmode|]]]].
  - unfold routes. cbn [pr_api pr_proxy from_option api_routes proxy_routes registerControlPlaneRoutes registerProxyRoutes].
    rewrite Hg. exact routes_distinct.
  - intros _. eexists _, _. split; [done|]. split; [done|]. split; [done|]. split; [done|]. split; [by apply installed_reports|done].
Qed.

Lemma worker_runs h name :
  cfg_Mode cfg = RuntimeModeDependencyGraphWorker → RTelemetry ∉ h → RIngestClient ∉ h →
  runs h (RunDependencyGraphWorker cfg name) (λ h' _, h' = h).
Proof.
  intros Hmode Ht Hi. unfold RunDependencyGraphWorker, NewIngestClient. apply telemetry_runs; [done|done|].
  eapply start_bind; [apply (client_runs _ RIngestClient); [set_solver|done]| |intros h' e ->; split; [set_solver|by apply reopened]].
  intros h' c [-> _]. apply (start_defer _ _ _ _ _ (λ h' _, h' = {[RIngestClient]} ∪ ({[RTelemetry]} ∪ h))).
  - apply served_runs. split; [constructor|]. split; [other_mode Hmode|]. split; [other_mode Hmode|]. split; [done|other_mode Hmode].
  - intros h' r ->. apply start_closing; [done|set_solver|]. rewrite reopened by set_solver. split; [set_solver|by apply reopened].
Qed.

(** A mode with dependencies: they are closed again, whatever happens. *)
Lemma runtime_runs openDatabase run :
  (openDatabase = true → owns_database (cfg_Mode cfg) = true) →
  (∀ h d, RListener ∉ h → RBundleClient ∉ h → RIngestClient ∉ h → opened_dependencies cfg openDatabase d →
     runs h (run d) (λ h' _, h' = h)) →
  runs ∅ (runWithRuntimeDependencies cfg openDatabase openDatabase run) (λ h' r, h' = ∅ ∨ migration_failed o ∅ h' r).
Proof.
  intros Ho Hrun. unfold runWithRuntimeDependencies. apply telemetry_runs; [set_solver|by left|].
  eapply start_bind; [apply dependencies_runs; [set_solver..|done]| |].
  - intros h' d [-> Hd]. assert (held_by d ## {[RTelemetry]} ∪ ∅) by (unfold held_by; case_decide; set_solver).
    apply (start_defer _ _ _ _ _ (λ h' _, h' = held_by d ∪ ({[RTelemetry]} ∪ ∅))).
    + apply Hrun; [unfold held_by; case_decide; set_solver..|done].
    + intros h' r ->. apply close_runs; [done|]. split; [set_solver|left; set_solver].
  - intros h' e [->|(-> & e' & He & [= ->])]; (split; [set_solver|]); [left; set_solver|].
    right. split; [set_solver|by exists e'].
Qed.

Lemma run_runs :
  cfg_Mode cfg ∈ runtime_modes → validateBundleClient cfg = Ok () →
  runs ∅ (bootstrap_Run cfg) (λ h' r, h' = ∅ ∨ migration_failed o ∅ h' r).
Proof.
  intros Hmode Hcl. unfold bootstrap_Run.
  case_decide as H1; [|case_decide as H2; [|case_decide as H3]].
  - apply runtime_runs; [by rewrite H1|]. intros h d HL _ _ Hd. by apply control_plane_runs.
  - apply runtime_runs; [done|]. intros h d _ HB HI Hd. apply proxy_runs; [done| |done..].
    apply (accepted_client cfg Hcl). rewrite H2. set_solver.
  - eapply start_mono; [apply worker_runs; [done|set_solver..]|]. by left.
  - assert (cfg_Mode cfg = RuntimeModeAllInOne) as H4.
    { unfold runtime_modes in Hmode. repeat (apply elem_of_cons in Hmode as [Hmode|Hmode]; [done|]). by apply not_elem_of_nil in Hmode. }
    apply runtime_runs; [by rewrite H4|]. intros h d _ _ _ Hd. by apply all_in_one_runs.
Qed.
End parts.

Lemma main_config_accepted {V : Validator} {VL : ValidatorLaws} ip_literal read mode cfg :
  main_config ip_literal read mode = Ok cfg → cfg_Mode cfg ∈ runtime_modes ∧ validateBundleClient cfg = Ok ().
Proof.
  intros H. assert (Validate ip_literal (Some cfg) = Ok ()) as Hv.
  { unfold main_config, LoadWithOptions in H. apply result_bind_ok in H as (c & Hc%wrap_result_ok & H).
    apply result_bind_ok in Hc as (c' & _ & Hc). apply result_bind_ok in Hc as ([] & Hv & [= ->]).
    case_decide; [by injection H as <-|]. by apply result_bind_ok in H as ([] & Hv'%wrap_result_ok & [= <-]). }
  apply Validate_parts in Hv as (Ht & _ & _ & _ & _ & _ & _ & _ & _ & Hcl). split; [|done].
  by apply accepted_choices in Ht as [? _].
Qed.

(** ** Properties *)

(** C9: A process starts as its mode says, and lets go of everything it opened.
    Whatever the outside answers to an accepted configuration: nothing is opened
    twice or closed unopened, and at the end nothing is open, but for the migrator
    of a failed migration; the database is opened in the modes that own it only.  A
    control plane hands out credentials, and takes authenticated upstreams, exactly
    when its gRPC server demands client certificates and its interceptors have the
    table of clients.  A proxy reports to the control plane only, speaks mutual TLS
    to it and opens credentials of its own key only; a worker works for the control
    plane's queue; the proxy of an all-in-one process reports through the
    ingestion service; and no route is registered twice. *)
Theorem processes_start_safely {V : Validator} {VL : ValidatorLaws} ip_literal read mode cfg o :
  main_config ip_literal read mode = Ok cfg →
  let '(r, s) := main_run ip_literal read mode (mkSt o []) in
  (replay ∅ (calls s) = Some ∅ ∨
   replay ∅ (calls s) = Some {[RMigrator]} ∧ ∃ e, o_Up o = Err e ∧ r = Err (wrap_error "running migrations: " e)) ∧
  (Opened RPool ∈ calls s → owns_database (cfg_Mode cfg) = true) ∧
  (∀ p, Served p ∈ calls s → process_ok cfg p).
Proof.
  intros Hcfg. destruct (main_config_accepted ip_literal read mode cfg Hcfg) as [Hmode Hcl].
  destruct (run_runs cfg o Hmode Hcl []) as (l & r & h & E & Hl & Hh & HK).
  unfold main_run, lift, mbind, M_bind. rewrite Hcfg, E. simpl. rewrite Forall_forall in Hl. split; [|split].
  - destruct HK as [->|(-> & e & He & ->)]; [by left|right]. rewrite (right_id_L ∅ (∪)) in Hh. split; [done|by exists e].
  - intros H. apply (Hl _ H).
  - intros p H. apply (Hl _ H).
Qed.

(** An outside that answers everything, but for what [ping] and [up] say. *)
Definition outside (ping : result ()) (up : result bool) : Outside :=
  mkOutside (λ _, Ok ()) (Ok ()) (λ _, Ok ()) up (Ok ()) (Ok ()) (λ _, Ok ()) (Ok ()) ping (λ _ _ _, Ok ())
    (λ _ _, Ok (Some (ECDSAPrivateKey P256 "k"))) (λ _, Ok "pem") (λ _, true) (λ _, Ok ()) (λ _, Ok ()) (λ _, Ok ()) (λ _, Ok ()).

Definition opened_closed (events : list Event) : list (Resource * bool) :=
  omap (λ e, match e with Opened r => Some (r, true) | Closed r => Some (r, false) | Served _ => None end) events.

(** The control plane of [Config] starts, serves, and closes what it opened; when the
    database does not answer, only the pool was opened. *)
Lemma processes_start_safely_witness :
  let start o := main_run (V:=documented_rules) (λ _, None) (Ok sample_config) "" (mkSt o []) in
  (start (outside (Ok ()) (Ok true))).1 = Ok () ∧
  opened_closed (calls (start (outside (Ok ()) (Ok true))).2) =
    [(RTelemetry, true); (RMigrator, true); (RMigrator, false); (RPool, true); (RValkey, true); (RListener, true); (RListener, false);
     (RValkey, false); (RPool, false); (RTelemetry, false)] ∧
  opened_closed (calls (start (outside (Err (new_error "refused")) (Ok false))).2) =
    [(RTelemetry, true); (RMigrator, true); (RMigrator, false); (RPool, true); (RPool, false); (RTelemetry, false)] ∧
  (replay ∅ (calls (start (outside (Ok ()) (Ok true))).2) = Some ∅ ∨ ∃ e, o_Up (outside (Ok ()) (Ok true)) = Err e).
Proof.
  intros start. split; [by vm_compute|]. split; [by vm_compute|]. split; [by vm_compute|].
  assert (main_config (V:=documented_rules) (λ _, None) (Ok sample_config) "" = Ok sample_config) as H by by vm_compute.
  pose proof (processes_start_safely (V:=documented_rules) (λ _, None) (Ok sample_config) "" sample_config (outside (Ok ()) (Ok true)) H) as Hs.
  subst start. cbv beta. destruct (main_run _ _ _ _) as [r s]. destruct Hs as [[Hs|(_ & e & He & _)] _]; [by left|right; by exists e].
Defined.

(** A migration that fails leaves its connection open. *)
Example failed_migration_leaks :
  let s := (main_run (V:=documented_rules) (λ _, None) (Ok sample_config) "" (mkSt (outside (Ok ()) (Err (new_error "dirty database"))) [])).2 in
  opened_closed (calls s) = [(RTelemetry, true); (RMigrator, true); (RTelemetry, false)].
Proof. by vm_compute. Qed.

(** *** The size of the pool *)

(** The size of a pool fits 32 bits and is the configured one where that does, so an
    accepted configuration never keeps more idle connections than it may open. *)
Lemma pool_size_fits size :
  0 ≤ boundedPoolSize size ≤ max_int32 ∧ (0 ≤ size ≤ max_int32 → boundedPoolSize size = size).
Proof.
  unfold boundedPoolSize, max_int32. destruct (Z.ltb_spec size 0); [lia|]. destruct (Z.ltb_spec 2147483647 size); lia.
Qed.
